(* ===== verification/_CoqProject ===== *)
-Q . S2P
Prelude.v
GoStrings.v
GoStringFacts.v
BoundedList.v
Lru.v
Retry.v
MetricRegistry.v
MdsClient.v
Os.v
TextConfig.v
FileUtil.v
SafeWrite.v
Accounts.v
SshUtil.v
Metadata.v
SshKeys.v
Daemon.v
OsInfo.v
NetAddr.v
NetAddrFacts.v
Address.v
Nic.v
Route.v
RouteFacts.v
NetworkManager.v
Regexp.v
Paths.v
Ini.v
HostRules.v
Networkd.v
NetworkdFacts.v
Wicked.v
NmService.v
Netplan.v
Dhclient.v
BackendFacts.v
Hostname.v
Snapshot.v
ScriptRunner.v
Mwlid.v
FirstBoot.v
Scheduler.v
Events.v
SshCA.v
ModuleManager.v
CorePlugin.v
CommandMonitor.v
OsLogin.v
OsLoginFacts.v
OsLoginFiles.v
Plugin.v
PluginSteps.v
PluginFacts.v
PluginManager.v
PluginManagerFacts.v
PluginRequests.v
PluginHandlers.v
PluginCleanup.v
PluginEvents.v
PluginStartup.v
Descriptor.v
Compat.v
AgentSetup.v
AgentCrypto.v
Acs.v
AcsFacts.v
AcsHandler.v
ShellQuote.v
IsvTrust.v
IsvExec.v
IsvEngine.v
IsvService.v
CoreModules.v
