(* ===== verification/Prelude.v ===== *)
(** * Verification of the Google guest agent

    A model of the Google guest agent for Linux (the Go code under src/), with
    the theorems that say its components do what they are for.  Go functions
    are functions here, under their own names; what a component keeps is a
    Record; a computation that changes state or can panic is in the state monad
    [M] below, where [None] is a run-time panic and a Go error is a value of
    [error]; goroutines that interleave are step relations, whose theorems
    speak of every reachable state.

    ** The program

    The guest agent keeps plugins alive on behalf of its control plane (ACS);
    the most important of them, the core plugin, configures the instance from
    the metadata server.  In the order of the files:

    - shared libraries of the agent: the circular list of data points
      (BoundedList.v, internal/boundedlist), the cache of recently used entries
      (Lru.v, internal/lru), retries with their backoff (Retry.v,
      internal/retry), the buffer of metrics and its flusher (MetricRegistry.v,
      internal/metricregistry), the metadata client and its watcher
      (MdsClient.v, internal/metadata/metadata.go and event_watcher.go);
    - files: the file system and the calls of package os with a fault oracle
      (Os.v), managed blocks of text files (TextConfig.v, internal/textconfig),
      archives and tails of logs (FileUtil.v) and safe writes (SafeWrite.v), all
      of internal/utils/file;
    - users: local accounts (Accounts.v, internal/accounts), the entries of SSH
      keys (SshUtil.v, internal/utils/ssh), the descriptor of the metadata
      (Metadata.v, internal/metadata/unmarshal.go and exported.go), accounts
      from metadata (SshKeys.v, cmd/core_plugin/metadatasshkey);
    - the system: the systemd client (Daemon.v, internal/daemon) and the
      operating system release (OsInfo.v, internal/osinfo);
    - scheduling: recurring jobs (Scheduler.v, internal/scheduler), watchers and
      subscribers (Events.v, internal/events), the modules of the core plugin
      (ModuleManager.v, cmd/core_plugin/manager), its stages and its server
      (CorePlugin.v, cmd/core_plugin/service.go and stages/), the command
      monitor (CommandMonitor.v, internal/command);
    - the network: addresses (NetAddr.v, NetAddrFacts.v for Go's net and netip;
      Address.v, internal/network/address), interfaces and NIC configurations
      (Nic.v, internal/network/ethernet, nic and service), routes (Route.v,
      RouteFacts.v, internal/network/route), the choice of the network manager
      and the reaction to metadata (NetworkManager.v, cmd/core_plugin/network);
    - the network backends, which write the configuration of one network
      service each: patterns, base names and INI files (Regexp.v, Paths.v,
      Ini.v; internal/utils/regex and ini), the host they run on (HostRules.v),
      systemd-networkd (Networkd.v, NetworkdFacts.v), wicked (Wicked.v),
      NetworkManager (NmService.v), netplan (Netplan.v) and dhclient
      (Dhclient.v) of cmd/core_plugin/network, with theorems in BackendFacts.v;
    - once and around the instance: the host name (Hostname.v,
      cmd/core_plugin/network/hostname), the scripts around snapshots
      (Snapshot.v, cmd/core_plugin/snapshot), the scripts of the metadata
      (ScriptRunner.v, cmd/gce_metadata_script_runner), the credentials of
      workloads (Mwlid.v, cmd/mwlid_extension) and the first boot (FirstBoot.v,
      cmd/core_plugin/firstboot);
    - OS Login (OsLogin.v, with theorems in OsLoginFacts.v and OsLoginFiles.v;
      cmd/core_plugin/oslogin) and its certificate pipe (SshCA.v,
      oslogin_sshca_linux.go and internal/pipewatcher);
    - the plugin manager (internal/plugin/manager): one plugin (Plugin.v) and
      the steps run on it (PluginSteps.v, theorems in PluginFacts.v), the manager
      (PluginManager.v, PluginManagerFacts.v), its concurrent requests
      (PluginRequests.v), what its handlers promise (PluginHandlers.v), its
      clean-ups (PluginCleanup.v), VM events, the watcher of a status and the
      switch of the core plugin (PluginEvents.v, internal/plugin/config), the
      start of the manager (PluginStartup.v);
    - the agent itself: the descriptor that modules read (Descriptor.v,
      internal/metadata/exported.go), the choice between the core plugin and
      the old agent (Compat.v, cmd/google_guest_compat_manager), the set-up
      (AgentSetup.v, cmd/google_guest_agent), the credentials for the metadata
      server (AgentCrypto.v, cmd/core_plugin/agentcrypto and internal/uefi);
    - the control plane (internal/acs): the shared connection, sending and
      watching (Acs.v, theorems in AcsFacts.v), the handler of its messages
      (AcsHandler.v);
    - application discovery (cmd/guest_telemetry_extension): quoting for the
      shell (ShellQuote.v), what is trusted (IsvTrust.v), the command executor
      (IsvExec.v), the rules (IsvEngine.v) and the service (IsvService.v);
    - the small modules of the core plugin: clock, schedulers of block devices,
      platform scripts, telemetry and the name server probe (CoreModules.v).

    This file has the errors, the monad with its weakest preconditions, the
    predicates [respects], [total] and [framed] with the hint databases that
    decompose a computation, and generic lemmas on lists.  GoStrings.v and
    GoStringFacts.v are Go's [strings] and [path/filepath].

    ** How the parts meet

    A component's operations are stated over any state that has what they
    need, through classes: [HasFS] (Os.v) for the file system, [HasClock]
    (SshUtil.v) for the time, [SchedState] and [Job] (Scheduler.v) for the jobs
    a plugin schedules, [Callbacks] (Events.v) for subscribers, [LongPoll]
    (MdsClient.v) for what the metadata server promises, [NetInterfaces] and
    [VlanOrder] (Nic.v) for the interfaces and the order of a range, [Runner]
    (Route.v) for the command ip and [IpRoute] (RouteFacts.v) for what its
    manual page says of it, with an executable instance.  The backends of the
    network run on one host (HostRules.v) with [IniFile] (Ini.v), [NetworkctlJson]
    and [FsNotify] (Networkd.v), [Yaml] and [KeyOrder] (Netplan.v), [Processes]
    and [HostInterfaces] (Dhclient.v) for what they use of other code.  A component that
    holds another's state runs it with [zoom].  OsLogin.v uses text
    configurations, events and the systemd client this way; SshKeys.v uses
    accounts, key entries, the descriptor and safe writes; the plugin manager
    uses archives, retries, the scheduler and the circular list; CorePlugin.v
    uses the module manager, retries and events.  AcsHandler.v runs on the
    plugin manager's and the client's states; AgentSetup.v and Compat.v run the
    plugin manager's own definitions; AgentCrypto.v and CoreModules.v are
    [Job]s of the scheduler; IsvExec.v asks IsvTrust.v before it starts a
    program, over any state that counts its calls ([Counting]).

    What a component uses of the outside is a class of its own: its
    configuration ([HostnameConfig], [ScriptConfig], [MwlidConfig],
    [FirstBootConfig], [AcsConfig], [ModulesConfig], [Build]) and the rest
    ([HostnameSystem], [SnapshotWorld], [ScriptWorld], [MwlidWorld],
    [FirstBootWorld], [CompatWorld], [SetupWorld], [CryptoWorld], [AcsWorld]
    with [AnyPb], [TrustWorld], [ExecWorld], [EngineWorld], [ServiceWorld],
    [ModulesWorld]).  A member of such a class that stands for something that
    changes takes the number of the call first, so that two calls may differ.

    ** What the theorems show

    - Plugins: in every interleaving at most one request per plugin is in
      progress, and the bookkeeping of requests is exact; installing, upgrading,
      configuring and removing end in one of the states they are documented to
      end in, with every counter, event and table accounted for; stopping stops;
      the monitor does not fight a stop; clean-ups stay in their directories
      (and one of them removes what it should not).
    - Core plugin: stages run modules as documented, blocking in order and
      concurrently in any order; the guest agent is told that early
      initialization is over only when it is.
    - Metadata: no change is missed while the watcher is busy; calls return.
    - Network: the configurations describe the metadata; the set-up of the
      routes makes each device's routes the wanted ones and leaves the others;
      a successful set-up converges, a failed one is not tried again.  Of the
      backends: a set-up of networkd leaves the wanted files and a second one
      does nothing; a set-up of dhclient runs the commands that bring each NIC
      to its leases; a roll-back of wicked spares the files of others.
    - VM events reach every plugin once in any order of the goroutines; the
      certificate pipe is handed out once at a time.
    - OS Login and SSH keys: enabling and disabling restores the files; a
      set-up settles; keys come from valid entries only; the authorized_keys
      file is the old one or the new one.
    - Control plane: in any interleaving the shared connection is one of the
      states its fields allow, and a failure that is reported late does not
      close a newer connection; a message is sent once; the watcher outlasts
      outages; a message to configure plugins is forwarded as a whole.
    - The agent: a start of the plugin manager takes over what was running;
      the set-up of the agent settles; core plugin and old agent are switched
      as a whole or will be tried again.
    - Credentials: a refresh of a workload's credentials never leaves the link
      without a whole set; credentials for the metadata server are verified
      before they are written; host keys are whole.
    - Around the instance: frozen file systems are thawed, by the request or by
      the watchdog; scripts of the metadata run in order and leave nothing; the
      response of the host name tells what failed; the clock is set once for
      each change of its token.
    - Application discovery: a rule means what its nested lists read as; the
      shell reads back the very words that were quoted; data of the discovered
      process reaches no command of root; the executor starts only safe
      programs; the reports tell what was found.
    - Libraries: refinement of abstract contracts (circular list, cache,
      file of created users), round trips, bounded retries, atomic writes,
      confinement of archives, conservation of metrics, requests answered once.
    - Several theorems are about defects: a clean-up that removes running
      plugins, an option lookup that panics, retries that never happen, removals
      that hang, schedulers that deadlock, jobs that end for good with one
      failed request, a mark of the name server probe that is never cleared.

    ** Bounds and fuel

    Integers are [Z], with Go's wrap-around written where it can matter (the
    circular list, attempt counters, durations); the backoff is computed with
    IEEE 754 doubles.  Loops that are not structural run on fuel: the retry loop
    (enough at [MaxAttempts], proved in Retry.v and for every use of it), the
    reads of the command monitor (one more than the reads that are left), the
    chains of symbolic links (40, the kernel's limit), the scanners of strings
    (the length of the string), the parents of a path (its length), the
    commands of the executor (2: it looks a user up through itself, once).  Services that run for ever are run for any number of rounds.

    ** What is a parameter

    Third-party and generated code, the network, processes, and the parts of
    the Go library that only convert (JSON, gob, protocol buffers, time
    formats, gzip and tar, cryptography).  Theorems quantify over them; what
    the code relies on is a hypothesis or a class with an instance.  I/O
    errors come from an oracle the theorems quantify over.  The order of a
    range over a Go map is a parameter where it can be seen.

    ** Not modelled

    Of command_linux.go the creation of the socket, and of command.go the client
    side; of the telemetry extension the flags and the gRPC server.  The
    telemetry of the network (cmd/guest_net_telemetry) reads counters of the
    kernel and formats them, and is left out, like logging, command-line flags
    and mains, the INI configuration, generated protocol code, the Windows
    files, and thin wrappers around system calls (processes, resources, serial
    ports). *)

From stdpp Require Export base tactics option list gmap strings fin_maps.
From Stdlib Require Export ZArith Lia.

(** ** Errors and results

    A Go error is its message together with what it wraps: [ErrMsg] is
    [errors.New], [ErrWrap] is [fmt.Errorf("...: %w", err)], [ErrFmt] is
    [fmt.Errorf("...: %v", err)], which [errors.Is] does not look into, and
    [ErrJoin] is [errors.Join].  [ErrStatus] is an error of the gRPC library,
    with its status code. *)
Inductive error :=
| ErrMsg (msg : string)
| ErrWrap (msg : string) (inner : error)
| ErrFmt (msg : string) (inner : error)
| ErrJoin (errs : list error)
| ErrStatus (code : Z) (msg : string).

(** A Go pair [(T, error)] of which exactly one half is meaningful. *)
Inductive result (A : Type) :=
| Ok (a : A)
| Err (e : error).

Arguments Ok {A} a.
Arguments Err {A} e.

Definition is_ok {A} (r : result A) : bool :=
  match r with Ok _ => true | Err _ => false end.

(** [errors.Join]: drops nil errors, and is nil when nothing is left. *)
Definition errors_Join (es : list (option error)) : option error :=
  match omap id es with
  | [] => None
  | l => Some (ErrJoin l)
  end.

(** [errors.Is]: walks the chain of wrapped errors. *)
Fixpoint errors_Is (target : error → bool) (e : error) : bool :=
  target e ||
  match e with
  | ErrMsg _ | ErrFmt _ _ | ErrStatus _ _ => false
  | ErrWrap _ i => errors_Is target i
  | ErrJoin es => existsb (errors_Is target) es
  end.

(** ** Machine integers

    Go's [uint] on the supported platforms is 64 bits wide. *)
Definition uint64_wrap (z : Z) : Z := (z mod 2 ^ 64)%Z.

Lemma uint64_wrap_small z : (0 ≤ z < 2 ^ 64)%Z → uint64_wrap z = z.
Proof. intros. unfold uint64_wrap. by rewrite Z.mod_small. Qed.

(** ** A state monad with panics

    [M S A] runs on a state [S]; [None] is a Go panic. *)
Definition M (S A : Type) : Type := S → option (S * A).

#[global] Instance M_ret {S} : MRet (M S) := λ A a s, Some (s, a).
#[global] Instance M_bind {S} : MBind (M S) := λ A B f m s,
  match m s with
  | Some (s', a) => f a s'
  | None => None
  end.

Definition panic {S A} : M S A := λ _, None.
(** A value that is missing when Go would panic. *)
Definition some_or_panic {S A} (o : option A) : M S A :=
  match o with Some a => mret a | None => panic end.
Definition get {S} : M S S := λ s, Some (s, s).
Definition gets {S A} (f : S → A) : M S A := λ s, Some (s, f s).
Definition modify {S} (f : S → S) : M S unit := λ s, Some (f s, tt).
Definition when {S} (b : bool) (m : M S unit) : M S unit :=
  if b then m else mret tt.

(** A [for _, x := range l] loop. *)
Fixpoint for_each {S A} (l : list A) (body : A → M S unit) : M S unit :=
  match l with
  | [] => mret tt
  | x :: l' => _ ← body x; for_each l' body
  end.

(** The same loop with a loop-carried accumulator. *)
Fixpoint for_acc {S A B} (l : list A) (acc : B) (body : B → A → M S B) : M S B :=
  match l with
  | [] => mret acc
  | x :: l' => acc' ← body acc x; for_acc l' acc' body
  end.

(** The same loop, left early when the body returns [inr]. *)
Fixpoint for_until {S A B R} (l : list A) (acc : B)
    (body : B → A → M S (B + R)) : M S (B + R) :=
  match l with
  | [] => mret (inl acc)
  | x :: l' =>
      r ← body acc x;
      match r with
      | inl acc' => for_until l' acc' body
      | inr v => mret (inr v)
      end
  end.

(** A computation of a component, run on the field that holds the
    component's state. *)
Definition zoom {S T A} (field : S → T) (set_field : T → S → S) (m : M T A) : M S A := λ s,
  match m (field s) with
  | Some (t, a) => Some (set_field t s, a)
  | None => None
  end.

(** Weakest precondition: the computation does not panic and its outcome
    satisfies the postcondition. *)
Definition wp {S A} (m : M S A) (Q : A → S → Prop) (s : S) : Prop :=
  match m s with
  | Some (s', a) => Q a s'
  | None => False
  end.

Section wp_rules.
Context {S : Type}.
Implicit Types (s : S).

Lemma wp_ret {A} (a : A) (Q : A → S → Prop) s : wp (mret a) Q s ↔ Q a s.
Proof. done. Qed.

Lemma wp_bind {A B} (m : M S A) (f : A → M S B) (Q : B → S → Prop) s :
  wp (m ≫= f) Q s ↔ wp m (λ a, wp (f a) Q) s.
Proof. unfold wp, mbind, M_bind. by destruct (m s) as [[??]|]. Qed.

Lemma wp_get (Q : S → S → Prop) s : wp get Q s ↔ Q s s.
Proof. done. Qed.

Lemma wp_gets {A} (f : S → A) (Q : A → S → Prop) s : wp (gets f) Q s ↔ Q (f s) s.
Proof. done. Qed.

Lemma wp_modify f (Q : unit → S → Prop) s : wp (modify f) Q s ↔ Q tt (f s).
Proof. done. Qed.

Lemma wp_mono {A} (m : M S A) (Q Q' : A → S → Prop) s :
  wp m Q s → (∀ a s', Q a s' → Q' a s') → wp m Q' s.
Proof. unfold wp. destruct (m s) as [[??]|]; naive_solver. Qed.

Lemma wp_and {A} (m : M S A) (Q Q' : A → S → Prop) s :
  wp m Q s → wp m Q' s → wp m (λ a s', Q a s' ∧ Q' a s') s.
Proof. unfold wp. destruct (m s) as [[??]|]; naive_solver. Qed.

(** The rule for [for_each]: an invariant over the remaining list. *)
Lemma wp_for_each {A} (I : list A → S → Prop) (l : list A) (body : A → M S unit) s :
  I l s →
  (∀ x l' s', I (x :: l') s' → wp (body x) (λ _ s'', I l' s'') s') →
  wp (for_each l body) (λ _ s', I [] s') s.
Proof.
  intros HI Hbody. revert s HI. induction l as [|x l IH]; intros s HI; [done|].
  simpl. apply wp_bind. eapply wp_mono; [by apply Hbody|]. naive_solver.
Qed.

Lemma wp_for_acc {A B} (I : list A → B → S → Prop) (l : list A) (acc : B)
    (body : B → A → M S B) s :
  I l acc s →
  (∀ x l' b s', I (x :: l') b s' → wp (body b x) (λ b' s'', I l' b' s'') s') →
  wp (for_acc l acc body) (λ b s', I [] b s') s.
Proof.
  intros HI Hbody. revert s acc HI. induction l as [|x l IH]; intros s acc HI; [done|].
  simpl. apply wp_bind. eapply wp_mono; [by apply Hbody|]. naive_solver.
Qed.

Lemma wp_for_until {A B R} (I : list A → B → S → Prop) (Q : R → S → Prop)
    (l : list A) (acc : B) (body : B → A → M S (B + R)) s :
  I l acc s →
  (∀ x l' b s', I (x :: l') b s' →
     wp (body b x) (λ r s'', match r with inl b' => I l' b' s'' | inr v => Q v s'' end) s') →
  wp (for_until l acc body)
     (λ r s', match r with inl b => I [] b s' | inr v => Q v s' end) s.
Proof.
  intros HI Hbody. revert s acc HI. induction l as [|x l IH]; intros s acc HI; [done|].
  simpl. apply wp_bind. eapply wp_mono; [by apply Hbody|].
  intros [b'|v] s' H; simpl in *; [by apply IH|done].
Qed.

End wp_rules.

(** One step of a weakest-precondition proof. *)
Ltac wp_step :=
  lazymatch goal with
  | |- wp (_ ≫= _) _ _ => apply wp_bind
  | |- wp (mret _) _ _ => apply wp_ret
  | |- wp get _ _ => apply wp_get
  | |- wp (gets _) _ _ => apply wp_gets
  | |- wp (modify _) _ _ => apply wp_modify
  | |- wp (when ?b _) _ _ => unfold when; destruct b eqn:?
  | |- wp (match ?x with _ => _ end) _ _ => destruct x eqn:?
  | |- wp (if ?x then _ else _) _ _ => destruct x eqn:?
  end; simpl.

Ltac wp_steps := repeat wp_step.

(** ** What a computation does to the state

    [respects R m]: whenever [m] returns, the state moved along the preorder
    [R] (a part that is kept, a table that only grows, an invariant that is
    preserved...).  The hint database [respects] knows the combinators; each
    component adds its operations. *)
Definition respects {S A} (R : relation S) (m : M S A) : Prop :=
  ∀ s s' a, m s = Some (s', a) → R s s'.

(** The computation always returns: no panic, enough fuel. *)
Definition total {S A} (m : M S A) : Prop := ∀ s, is_Some (m s).

Section respects.
Context {S : Type} (R : relation S) `{!PreOrder R}.

Lemma respects_ret {A} (a : A) : respects R (mret a).
Proof. intros s s' b [= <- _]. reflexivity. Qed.

Lemma respects_bind {A B} (m : M S A) (f : A → M S B) :
  respects R m → (∀ a, respects R (f a)) → respects R (m ≫= f).
Proof.
  intros Hm Hf s s' b. unfold mbind, M_bind.
  destruct (m s) as [[s1 a]|] eqn:E; [|done]. intros Hfs.
  etrans; [by eapply Hm|by eapply Hf].
Qed.

Lemma respects_get : respects R get.
Proof. intros s s' a [= <- _]. reflexivity. Qed.

Lemma respects_gets {A} (f : S → A) : respects R (gets f).
Proof. intros s s' a [= <- _]. reflexivity. Qed.

Lemma respects_modify f : (∀ s, R s (f s)) → respects R (modify f).
Proof. intros Hf s s' a [= <-]. apply Hf. Qed.

Lemma respects_panic {A} : respects R (@panic S A).
Proof. done. Qed.

Lemma respects_some_or_panic {A} (o : option A) : respects R (some_or_panic o).
Proof. destruct o; [apply respects_ret|apply respects_panic]. Qed.

Lemma respects_when b m : respects R m → respects R (when b m).
Proof. intros. destruct b; [done|apply respects_ret]. Qed.

Lemma respects_for_each {A} (l : list A) body :
  (∀ x, respects R (body x)) → respects R (for_each l body).
Proof.
  intros Hb. induction l; simpl; [apply respects_ret|]. apply respects_bind; auto.
Qed.

Lemma respects_for_acc {A B} (l : list A) (acc : B) body :
  (∀ b x, respects R (body b x)) → respects R (for_acc l acc body).
Proof.
  intros Hb. revert acc. induction l; intros acc; simpl; [apply respects_ret|].
  apply respects_bind; auto.
Qed.

Lemma respects_for_until {A B T} (l : list A) (acc : B) (body : B → A → M S (B + T)) :
  (∀ b x, respects R (body b x)) → respects R (for_until l acc body).
Proof.
  intros Hb. revert acc. induction l; intros acc; simpl; [apply respects_ret|].
  apply respects_bind; [auto|]. intros []; [auto|apply respects_ret].
Qed.

End respects.

Section total.
Context {S : Type}.

Lemma total_ret {A} (a : A) : total (S := S) (mret a).
Proof. by eexists. Qed.

Lemma total_bind {A B} (m : M S A) (f : A → M S B) :
  total m → (∀ a, total (f a)) → total (m ≫= f).
Proof.
  intros Hm Hf s. unfold mbind, M_bind. destruct (Hm s) as [[s' a] ->]. apply Hf.
Qed.

Lemma total_gets {A} (f : S → A) : total (gets f).
Proof. by eexists. Qed.

Lemma total_get : total (S := S) get.
Proof. by eexists. Qed.

Lemma total_modify f : total (S := S) (modify f).
Proof. by eexists. Qed.

Lemma total_when b m : total m → total (S := S) (when b m).
Proof. intros. destruct b; [done|apply total_ret]. Qed.

Lemma total_for_each {A} (l : list A) (body : A → M S unit) :
  (∀ x, total (body x)) → total (for_each l body).
Proof. intros Hb. induction l; simpl; [apply total_ret|]. apply total_bind; auto. Qed.

Lemma total_for_acc {A B} (l : list A) (acc : B) (body : B → A → M S B) :
  (∀ b x, total (body b x)) → total (for_acc l acc body).
Proof.
  intros Hb. revert acc. induction l; intros acc; simpl; [apply total_ret|]. apply total_bind; auto.
Qed.

Lemma total_for_until {A B R} (l : list A) (acc : B) (body : B → A → M S (B + R)) :
  (∀ b x, total (body b x)) → total (for_until l acc body).
Proof.
  intros Hb. revert acc. induction l; intros acc; simpl; [apply total_ret|].
  apply total_bind; [auto|]. intros []; [auto|apply total_ret].
Qed.

(** A computation that returns, with a value of which [P] holds. *)
Lemma total_bind_post {A B} (P : A → Prop) (m : M S A) (f : A → M S B) :
  (∀ s, wp m (λ a _, P a) s) → (∀ a, P a → total (f a)) → total (m ≫= f).
Proof.
  intros Hm Hf s. specialize (Hm s). unfold mbind, M_bind, wp in *.
  destruct (m s) as [[s' a]|]; [|done]. by apply Hf.
Qed.

Lemma wp_total {A} (m : M S A) (Q : A → S → Prop) s :
  total m → (∀ a s', Q a s') → wp m Q s.
Proof. intros Hm HQ. destruct (Hm s) as [[s' a] E]. unfold wp. rewrite E. apply HQ. Qed.

Lemma wp_total_respects {A} (m : M S A) (R : relation S) (Q : A → S → Prop) s :
  is_Some (m s) → respects R m → (∀ a s', R s s' → Q a s') → wp m Q s.
Proof. intros [[s' a] E] HR HQ. unfold wp. rewrite E. apply HQ. by eapply HR. Qed.

Lemma wp_frame {A} (m : M S A) (R : relation S) (Q : A → S → Prop) s :
  wp m Q s → respects R m → wp m (λ a s', Q a s' ∧ R s s') s.
Proof.
  unfold wp. intros Hw HR. destruct (m s) as [[s' a]|] eqn:E; [|done].
  split; [done|]. by eapply HR.
Qed.

(** Returns, and moves the state along [R]. *)
Definition framed {A} (R : relation S) (m : M S A) : Prop := total m ∧ respects R m.

Lemma wp_framed {A} (R : relation S) (m : M S A) (Q : A → S → Prop) s :
  framed R m → (∀ a s', R s s' → Q a s') → wp m Q s.
Proof. intros [Ht Hr] HQ. apply (wp_total_respects m R); [apply Ht|done|done]. Qed.

Lemma framed_mono {A} (R R' : relation S) (m : M S A) :
  (∀ s s', R s s' → R' s s') → framed R m → framed R' m.
Proof. intros HR [Ht Hr]. split; [done|]. intros s s' a E. apply HR. by eapply Hr. Qed.

End total.

Section zoom.
Context {S T : Type} (field : S → T) (set_field : T → S → S).

Lemma wp_zoom {A} (m : M T A) (Q : A → S → Prop) s :
  wp m (λ a t, Q a (set_field t s)) (field s) → wp (zoom field set_field m) Q s.
Proof. unfold wp, zoom. by destruct (m (field s)) as [[t a]|]. Qed.

Lemma total_zoom {A} (m : M T A) : total m → total (zoom field set_field m).
Proof. intros Hm s. unfold zoom. destruct (Hm (field s)) as [[t a] ->]. by eexists. Qed.

Lemma respects_zoom {A} (R : relation S) (m : M T A) :
  (∀ t s, R s (set_field t s)) → respects R (zoom field set_field m).
Proof. intros HR s s' a. unfold zoom. destruct (m (field s)) as [[t b]|]; [|done]. intros [= <- _]. apply HR. Qed.
End zoom.

Create HintDb respects discriminated.
#[export] Hint Resolve respects_ret respects_get respects_gets respects_panic
  respects_some_or_panic respects_when respects_for_each respects_for_acc
  respects_for_until : respects.

Create HintDb total discriminated.
#[export] Hint Resolve total_ret total_get total_gets total_modify total_zoom : total.

(** Splits a computation at its binds, matches and loops; what is left are
    the operations the hint database does not know. *)
Ltac respects_step :=
  lazymatch goal with
  | |- respects _ (_ ≫= _) => apply respects_bind; [first [typeclasses eauto | done]| |intros ?]
  | |- respects _ (match ?x with _ => _ end) => destruct x
  | |- respects _ (for_each _ _) => apply respects_for_each; [first [typeclasses eauto | done]|intros ?]
  | |- respects _ (for_acc _ _ _) => apply respects_for_acc; [first [typeclasses eauto | done]|intros ? ?]
  | |- respects _ (for_until _ _ _) => apply respects_for_until; [first [typeclasses eauto | done]|intros ? ?]
  | |- respects _ (when _ _) => apply respects_when; [first [typeclasses eauto | done]|]
  | |- respects _ ((λ _, _) _) => cbn beta
  | |- respects _ (let _ := _ in _) => cbn zeta
  end.
Ltac respects_solve := repeat first [ solve [auto with respects typeclass_instances] | respects_step ].

Ltac total_step :=
  lazymatch goal with
  | |- total (_ ≫= _) => apply total_bind; [|intros ?]
  | |- total (match ?x with _ => _ end) => destruct x
  | |- total (for_each _ _) => apply total_for_each; intros ?
  | |- total (for_acc _ _ _) => apply total_for_acc; intros ? ?
  | |- total (for_until _ _ _) => apply total_for_until; intros ? ?
  | |- total (when _ _) => apply total_when
  | |- total ((λ _, _) _) => cbn beta
  | |- total (let _ := _ in _) => cbn zeta
  end.
Ltac total_solve := repeat first [ solve [auto with total typeclass_instances] | total_step ].

(** ** Sequences of transitions *)
Section star.
Context {A : Type} (R : A → A → Prop).

(** Reachability is stdpp's reflexive-transitive closure; an invariant of the
    steps holds in every reachable state. *)
Lemma rtc_invariant (I : A → Prop) x y :
  (∀ a b, I a → R a b → I b) → I x → rtc R x y → I y.
Proof. intros Hstep HI Hr. induction Hr; eauto. Qed.

End star.

(** ** Generic lemmas on lists *)
Section lists.
Context {A : Type}.
Implicit Types l : list A.

Lemma existsb_bool_decide_elem `{EqDecision A} (x : A) l :
  existsb (λ y, bool_decide (y = x)) l = bool_decide (x ∈ l).
Proof.
  induction l as [|y l IH]; simpl; [done|]. rewrite IH.
  repeat case_bool_decide; set_solver.
Qed.

Lemma Forall2_impl_in {B} (P Q : A → B → Prop) l (k : list B) :
  Forall2 P l k → (∀ x y, x ∈ l → P x y → Q x y) → Forall2 Q l k.
Proof.
  induction 1 as [|x y l k Hxy HF IH]; intros Himp; constructor.
  - apply Himp; [by left|done].
  - apply IH. intros; apply Himp; [by right|done].
Qed.

(** The last [n] elements. *)
Definition last_n (n : nat) l : list A := drop (length l - n) l.

Lemma last_n_length n l : length (last_n n l) = n `min` length l.
Proof. unfold last_n. rewrite length_drop. lia. Qed.

Lemma last_n_all n l : length l ≤ n → last_n n l = l.
Proof. intros. unfold last_n. replace (length l - n) with 0 by lia. done. Qed.

Lemma last_n_snoc n l x :
  0 < n → last_n n (l ++ [x]) = last_n (n - 1) l ++ [x].
Proof.
  intros. unfold last_n. rewrite length_app. simpl.
  replace (length l + 1 - n) with (length l - (n - 1)) by lia.
  by rewrite drop_app_le by lia.
Qed.

End lists.
