(* ===== verification/GoStrings.v ===== *)
(** * The functions of Go's [strings] and [path/filepath] packages in use

    A Go string is a sequence of bytes: Rocq's [string].  The functions of
    this file have the byte-level behaviour of the Go library, including the
    Unicode white space that [strings.TrimSpace] and [strings.Fields] know
    (every rune of [unicode.IsSpace], by its UTF-8 encoding).  They are the
    vocabulary of the component files, not code of the repository. *)
From S2P Require Import Prelude.
From stdpp Require Import pretty sorting.

Abbreviation byte := Ascii.ascii.
Abbreviation bytes := (list Ascii.ascii).

Definition to_bytes : string → bytes := String.list_ascii_of_string.
Definition of_bytes : bytes → string := String.string_of_list_ascii.

Definition byte_of (n : N) : byte := Ascii.ascii_of_N n.
Definition nl : byte := byte_of 10.

(** ** Byte-level functions *)
Definition beqb (a b : byte) : bool := Ascii.eqb a b.

Fixpoint bprefix (p l : bytes) : bool :=
  match p, l with
  | [], _ => true
  | a :: p', b :: l' => beqb a b && bprefix p' l'
  | _ :: _, [] => false
  end.

Definition bsuffix (p l : bytes) : bool := bprefix (rev p) (rev l).

(** [strings.Split] for a one-byte separator. *)
Fixpoint bsplit (c : byte) (l : bytes) : list bytes :=
  match l with
  | [] => [[]]
  | x :: l' =>
      if beqb x c then [] :: bsplit c l'
      else match bsplit c l' with
           | [] => [[x]]
           | y :: ys => (x :: y) :: ys
           end
  end.

Fixpoint bjoin (sep : bytes) (ls : list bytes) : bytes :=
  match ls with
  | [] => []
  | [x] => x
  | x :: ls' => x ++ sep ++ bjoin sep ls'
  end.

Fixpoint bcontains (sub l : bytes) : bool :=
  bprefix sub l || match l with [] => false | _ :: l' => bcontains sub l' end.

(** [strings.Cut] for a one-byte separator: before, after, found. *)
Fixpoint bcut (c : byte) (l : bytes) : bytes * bytes * bool :=
  match l with
  | [] => ([], [], false)
  | x :: l' =>
      if beqb x c then ([], l', true)
      else let '(b, a, f) := bcut c l' in (x :: b, a, f)
  end.

(** [strings.Replace(s, old, new, 1)] for a non-empty [old]. *)
Fixpoint breplace1 (old new l : bytes) : bytes :=
  if bprefix old l then new ++ drop (length old) l
  else match l with [] => [] | x :: l' => x :: breplace1 old new l' end.

(** ** White space ([unicode.IsSpace]) by UTF-8 encoding *)
Definition space1 (a : byte) : bool :=
  let n := Ascii.N_of_ascii a in (9 <=? n)%N && (n <=? 13)%N || (n =? 32)%N.

Definition space2 (a b : byte) : bool :=
  let '(m, n) := (Ascii.N_of_ascii a, Ascii.N_of_ascii b) in
  (m =? 194)%N && ((n =? 133)%N || (n =? 160)%N).

Definition space3 (a b c : byte) : bool :=
  let '(m, n, k) := (Ascii.N_of_ascii a, Ascii.N_of_ascii b, Ascii.N_of_ascii c) in
  (m =? 225)%N && (n =? 154)%N && (k =? 128)%N
  || (m =? 226)%N && (n =? 128)%N &&
     ((128 <=? k)%N && (k <=? 138)%N || (k =? 168)%N || (k =? 169)%N || (k =? 175)%N)
  || (m =? 226)%N && (n =? 129)%N && (k =? 159)%N
  || (m =? 227)%N && (n =? 128)%N && (k =? 128)%N.

(** The bytes left after a leading white-space rune, if there is one. *)
Definition skip_space (l : bytes) : option bytes :=
  match l with
  | a :: r1 =>
      if space1 a then Some r1
      else match r1 with
           | b :: r2 =>
               if space2 a b then Some r2
               else match r2 with
                    | c :: r3 => if space3 a b c then Some r3 else None
                    | [] => None
                    end
           | [] => None
           end
  | [] => None
  end.

(** The same at the end; the argument is the reversed string. *)
Definition skip_space_rev (l : bytes) : option bytes :=
  match l with
  | c :: r1 =>
      if space1 c then Some r1
      else match r1 with
           | b :: r2 =>
               if space2 b c then Some r2
               else match r2 with
                    | a :: r3 => if space3 a b c then Some r3 else None
                    | [] => None
                    end
           | [] => None
           end
  | [] => None
  end.

(** Repeat a step that shortens its argument, at most once per byte. *)
Fixpoint iterate_while (fuel : nat) (step : bytes → option bytes) (l : bytes) : bytes :=
  match fuel with
  | 0 => l
  | S n => match step l with Some l' => iterate_while n step l' | None => l end
  end.

Definition btrim_left (l : bytes) : bytes := iterate_while (length l) skip_space l.
Definition btrim_right (l : bytes) : bytes :=
  rev (iterate_while (length l) skip_space_rev (rev l)).
Definition btrim_space (l : bytes) : bytes := btrim_right (btrim_left l).

(** [strings.ContainsFunc(s, unicode.IsSpace)], the loop of [ValidateUser]. *)
Fixpoint bhas_space (l : bytes) : bool :=
  match skip_space l with
  | Some _ => true
  | None => match l with [] => false | _ :: l' => bhas_space l' end
  end.

(** [strings.Fields]: [cur] is the field being read, reversed. *)
Fixpoint bfields_aux (fuel : nat) (cur : bytes) (l : bytes) : list bytes :=
  let flush rest := match cur with [] => rest | _ => rev cur :: rest end in
  match fuel with
  | 0 => flush []
  | S n =>
      match skip_space l with
      | Some l' => flush (bfields_aux n [] l')
      | None =>
          match l with
          | [] => flush []
          | x :: l' => bfields_aux n (x :: cur) l'
          end
      end
  end.

Definition bfields (l : bytes) : list bytes := bfields_aux (S (length l)) [] l.

(** [strings.Trim(s, c)] for a one-byte cutset. *)
Fixpoint bdrop_while (f : byte → bool) (l : bytes) : bytes :=
  match l with
  | [] => []
  | x :: l' => if f x then bdrop_while f l' else l
  end.

Definition btrim (f : byte → bool) (l : bytes) : bytes :=
  rev (bdrop_while f (rev (bdrop_while f l))).

(** Index of the last occurrence of a byte. *)
Fixpoint blast_index (c : byte) (l : bytes) : option nat :=
  match l with
  | [] => None
  | x :: l' =>
      match blast_index c l' with
      | Some i => Some (S i)
      | None => if beqb x c then Some 0 else None
      end
  end.

(** ** The string functions *)
Definition HasPrefix (s p : string) : bool := bprefix (to_bytes p) (to_bytes s).
Definition HasSuffix (s p : string) : bool := bsuffix (to_bytes p) (to_bytes s).
Definition Contains (s sub : string) : bool := bcontains (to_bytes sub) (to_bytes s).
Definition Split (s : string) (c : byte) : list string := of_bytes <$> bsplit c (to_bytes s).
Definition Join (ls : list string) (sep : string) : string :=
  of_bytes (bjoin (to_bytes sep) (to_bytes <$> ls)).
Definition TrimSpace (s : string) : string := of_bytes (btrim_space (to_bytes s)).
Definition Trim (s : string) (c : byte) : string := of_bytes (btrim (beqb c) (to_bytes s)).
Definition Fields (s : string) : list string := of_bytes <$> bfields (to_bytes s).
Definition Cut (s : string) (c : byte) : string * string * bool :=
  let '(b, a, f) := bcut c (to_bytes s) in (of_bytes b, of_bytes a, f).
Definition Replace1 (s old new : string) : string :=
  of_bytes (breplace1 (to_bytes old) (to_bytes new) (to_bytes s)).
Definition TrimSuffix (s suf : string) : string :=
  if HasSuffix s suf
  then of_bytes (take (length (to_bytes s) - length (to_bytes suf)) (to_bytes s)) else s.
Definition TrimPrefix (s p : string) : string :=
  if HasPrefix s p then of_bytes (drop (length (to_bytes p)) (to_bytes s)) else s.

(** [strings.SplitN(s, c, 2)]. *)
Definition SplitN2 (s : string) (c : byte) : list string :=
  match Cut s c with
  | (b, a, true) => [b; a]
  | _ => [s]
  end.

(** [strings.LastIndex] for a one-byte argument; [None] stands for -1. *)
Definition LastIndex (s : string) (c : byte) : option nat := blast_index c (to_bytes s).

(** [s[:i]] and [s[i:]] for [i] within bounds. *)
Definition slice_to (s : string) (i : nat) : string := of_bytes (take i (to_bytes s)).
Definition slice_from (s : string) (i : nat) : string := of_bytes (drop i (to_bytes s)).

(** [strconv.ParseBool]; [None] is the syntax error. *)
Definition ParseBool (s : string) : option bool :=
  if bool_decide (s ∈ ["1"; "t"; "T"; "TRUE"; "true"; "True"]) then Some true
  else if bool_decide (s ∈ ["0"; "f"; "F"; "FALSE"; "false"; "False"]) then Some false
  else None.

(** [sort.Strings]: byte-wise lexicographic order. *)
Definition string_le (a b : string) : Prop := String.leb a b = true.

#[global] Instance string_le_dec : RelDecision string_le.
Proof. intros a b. unfold string_le. apply _. Defined.

Definition sort_Strings (l : list string) : list string := merge_sort string_le l.

(** ** [path/filepath] on Unix *)
Definition slash : byte := byte_of 47.

Definition clean_step (rooted : bool) (stack : list string) (c : string) : list string :=
  if bool_decide (c = "" ∨ c = ".") then stack
  else if bool_decide (c = "..") then
    match stack with
    | top :: rest => if bool_decide (top = "..") then c :: stack else rest
    | [] => if rooted then [] else [c]
    end
  else c :: stack.

Definition Clean (path : string) : string :=
  if bool_decide (path = "") then "."
  else
    let rooted := HasPrefix path "/" in
    let comps := rev (foldl (clean_step rooted) [] (Split path slash)) in
    let body := Join comps "/" in
    if rooted then "/" +:+ body else if bool_decide (body = "") then "." else body.

Fixpoint path_Join (elems : list string) : string :=
  match elems with
  | [] => ""
  | e :: rest => if bool_decide (e = "") then path_Join rest else Clean (Join elems "/")
  end.

Definition Dir (path : string) : string :=
  match LastIndex path slash with
  | Some i => Clean (slice_to path (S i))
  | None => "."
  end.

Definition Base (path : string) : string :=
  if bool_decide (path = "") then "."
  else
    let p := of_bytes (rev (bdrop_while (beqb slash) (rev (to_bytes path)))) in
    let b := match LastIndex p slash with Some i => slice_from p (S i) | None => p end in
    if bool_decide (b = "") then "/" else b.

(** ** Lemmas *)
Lemma beqb_spec a b : beqb a b = true ↔ a = b.
Proof. apply Ascii.eqb_eq. Qed.

Lemma beqb_refl a : beqb a a = true.
Proof. by apply beqb_spec. Qed.

Lemma beqb_ne a b : beqb a b = false ↔ a ≠ b.
Proof. apply Ascii.eqb_neq. Qed.

Lemma to_of_bytes l : to_bytes (of_bytes l) = l.
Proof. apply String.list_ascii_of_string_of_list_ascii. Qed.

Lemma of_to_bytes s : of_bytes (to_bytes s) = s.
Proof. apply String.string_of_list_ascii_of_string. Qed.

Lemma to_bytes_eq a b : to_bytes a = to_bytes b → a = b.
Proof. intros H. by rewrite <-(of_to_bytes a), <-(of_to_bytes b), H. Qed.

#[global] Instance to_bytes_inj : Inj (=) (=) to_bytes := to_bytes_eq.

Lemma to_bytes_app a b : to_bytes (a +:+ b) = to_bytes a ++ to_bytes b.
Proof. unfold to_bytes. induction a as [|c a IH]; simpl; [done|]. by rewrite IH. Qed.

Lemma append_assoc a b c : (a +:+ b) +:+ c = a +:+ (b +:+ c).
Proof. apply to_bytes_eq. by rewrite !to_bytes_app, app_assoc. Qed.

Lemma of_bytes_app a b : of_bytes (a ++ b) = of_bytes a +:+ of_bytes b.
Proof. apply to_bytes_eq. by rewrite to_bytes_app, !to_of_bytes. Qed.

Lemma map_of_to_bytes (ls : list string) : of_bytes <$> (to_bytes <$> ls) = ls.
Proof. induction ls; cbn; [done|]. by rewrite of_to_bytes, IHls. Qed.

Lemma map_to_of_bytes (ls : list bytes) : to_bytes <$> (of_bytes <$> ls) = ls.
Proof. induction ls; cbn; [done|]. by rewrite to_of_bytes, IHls. Qed.

Lemma bprefix_spec p l : bprefix p l = true ↔ ∃ k, l = p ++ k.
Proof.
  revert l. induction p as [|a p IH]; intros l; simpl; [naive_solver|].
  destruct l as [|b l]; [naive_solver|].
  rewrite andb_true_iff, IH, beqb_spec. naive_solver.
Qed.

Lemma bsuffix_spec p l : bsuffix p l = true ↔ ∃ k, l = k ++ p.
Proof.
  unfold bsuffix. rewrite bprefix_spec. split; intros [k Hk].
  - exists (rev k). by rewrite <-(rev_involutive l), Hk, rev_app_distr, rev_involutive.
  - exists (rev k). by rewrite Hk, rev_app_distr.
Qed.

Lemma HasPrefix_spec s p : HasPrefix s p = true ↔ ∃ k, s = p +:+ k.
Proof.
  unfold HasPrefix. rewrite bprefix_spec. split; intros [k Hk].
  - exists (of_bytes k). apply to_bytes_eq. by rewrite to_bytes_app, to_of_bytes.
  - exists (to_bytes k). by rewrite Hk, to_bytes_app.
Qed.

Lemma HasSuffix_spec s p : HasSuffix s p = true ↔ ∃ k, s = k +:+ p.
Proof.
  unfold HasSuffix. rewrite bsuffix_spec. split; intros [k Hk].
  - exists (of_bytes k). apply to_bytes_eq. by rewrite to_bytes_app, to_of_bytes.
  - exists (to_bytes k). by rewrite Hk, to_bytes_app.
Qed.

(** Splitting and joining on the same byte are inverse. *)
Lemma bsplit_nonempty c l : bsplit c l ≠ [].
Proof. destruct l; simpl; [done|]. case_match; [done|]. by case_match. Qed.

Lemma bsplit_app c l k :
  c ∉ l → bsplit c (l ++ c :: k) = l :: bsplit c k.
Proof.
  intros Hc. induction l as [|x l IH]; simpl.
  - by rewrite beqb_refl.
  - apply not_elem_of_cons in Hc as [Hx Hc].
    assert (beqb x c = false) as -> by (by apply beqb_ne). by rewrite (IH Hc).
Qed.

Lemma bsplit_no_sep c l : c ∉ l → bsplit c l = [l].
Proof.
  induction l as [|x l IH]; simpl; intros Hc; [done|].
  apply not_elem_of_cons in Hc as [Hx Hc].
  assert (beqb x c = false) as -> by (by apply beqb_ne). by rewrite (IH Hc).
Qed.

Lemma bsplit_snoc c l k :
  c ∉ k → bsplit c (l ++ c :: k) = bsplit c l ++ [k].
Proof.
  intros Hc. induction l as [|x l IH]; simpl.
  - rewrite beqb_refl. by rewrite bsplit_no_sep.
  - rewrite IH. destruct (beqb x c); [done|].
    destruct (bsplit c l) eqn:E; [by apply bsplit_nonempty in E|done].
Qed.

Lemma bjoin_bsplit c l : bjoin [c] (bsplit c l) = l.
Proof.
  induction l as [|x l IH]; simpl; [done|].
  destruct (beqb x c) eqn:E.
  - apply beqb_spec in E as ->. destruct (bsplit c l) eqn:El; [by apply bsplit_nonempty in El|].
    simpl in *. by rewrite <-IH.
  - destruct (bsplit c l) as [|y ys] eqn:El; [by apply bsplit_nonempty in El|].
    destruct ys; simpl in *; by rewrite <-IH.
Qed.

Lemma bsplit_bjoin c ls :
  ls ≠ [] → Forall (λ l, c ∉ l) ls → bsplit c (bjoin [c] ls) = ls.
Proof.
  intros Hne HF. induction HF as [|l ls Hl HF IH]; [done|].
  destruct ls as [|l2 ls]; [by apply bsplit_no_sep|].
  change (bjoin [c] (l :: l2 :: ls)) with (l ++ c :: bjoin [c] (l2 :: ls)).
  rewrite bsplit_app by done. by rewrite IH.
Qed.

Lemma bsplit_elem_no_sep c l x : x ∈ bsplit c l → c ∉ x.
Proof.
  revert x. induction l as [|y l IH]; intros x; simpl.
  { intros ->%list_elem_of_singleton. apply not_elem_of_nil. }
  destruct (beqb y c) eqn:E.
  - intros [->|?]%elem_of_cons; [apply not_elem_of_nil|by apply IH].
  - destruct (bsplit c l) as [|z zs] eqn:El; [by apply bsplit_nonempty in El|].
    apply beqb_ne in E. intros [->|Hx]%elem_of_cons.
    + apply not_elem_of_cons. split; [done|]. apply IH. by left.
    + apply IH. by right.
Qed.

(** A string without the byte [c]. *)
Definition lacks (c : byte) (s : string) : Prop := c ∉ to_bytes s.

#[global] Instance lacks_dec c s : Decision (lacks c s).
Proof. unfold lacks. apply _. Defined.

Lemma Join_Split s c : Join (Split s c) (String c EmptyString) = s.
Proof. unfold Join, Split. rewrite map_to_of_bytes.
  change (to_bytes (String c EmptyString)) with [c]. by rewrite bjoin_bsplit, of_to_bytes. Qed.

Lemma Split_Join ls c :
  ls ≠ [] → Forall (lacks c) ls → Split (Join ls (String c EmptyString)) c = ls.
Proof.
  intros Hne HF. unfold Join, Split. rewrite to_of_bytes.
  change (to_bytes (String c EmptyString)) with [c].
  rewrite bsplit_bjoin; [apply map_of_to_bytes| |].
  - by destruct ls.
  - by apply Forall_fmap.
Qed.

Lemma Split_lacks s c : Forall (lacks c) (Split s c).
Proof.
  apply Forall_forall. intros x Hx. unfold Split in Hx.
  apply list_elem_of_fmap in Hx as (y & -> & Hy). unfold lacks.
  rewrite to_of_bytes. by eapply bsplit_elem_no_sep.
Qed.

Lemma Split_nonempty s c : Split s c ≠ [].
Proof. unfold Split. intros H. apply fmap_nil_inv in H. by apply bsplit_nonempty in H. Qed.

Lemma Split_snoc s c k :
  lacks c k → Split (s +:+ String c EmptyString +:+ k) c = Split s c ++ [k].
Proof.
  unfold Split, lacks. intros Hk. rewrite !to_bytes_app. change (to_bytes (String c EmptyString)) with [c].
  simpl. rewrite bsplit_snoc by done. rewrite fmap_app. simpl. by rewrite of_to_bytes.
Qed.

Lemma Split_single s c : lacks c s → Split s c = [s].
Proof. unfold Split, lacks. intros Hs. rewrite bsplit_no_sep by done. simpl. by rewrite of_to_bytes. Qed.

Lemma lacks_app c a b : lacks c (a +:+ b) ↔ lacks c a ∧ lacks c b.
Proof. unfold lacks. rewrite to_bytes_app. set_solver. Qed.

(** What [Clean] does to a relative path: parent references only remain in
    front. *)
Lemma clean_step_dotdot st c :
  (".." ∈ st → last st = Some "..") →
  ".." ∈ clean_step false st c → last (clean_step false st c) = Some "..".
Proof.
  intros IH. unfold clean_step. case_bool_decide as E1; [done|].
  case_bool_decide as E2.
  - destruct st as [|top rest]; [by subst|]. case_bool_decide as E3.
    + intros _. subst. change (last (".." :: rest) = Some ".."). apply IH. by left.
    + intros Hin. specialize (IH ltac:(by right)).
      destruct rest as [|r rest]; [by apply not_elem_of_nil in Hin|exact IH].
  - intros [Hc|Hin]%elem_of_cons; [by subst|].
    rewrite last_cons, IH by done. done.
Qed.

Lemma clean_stack_dotdot comps st :
  (".." ∈ st → last st = Some "..") →
  ".." ∈ foldl (clean_step false) st comps → last (foldl (clean_step false) st comps) = Some "..".
Proof.
  revert st. induction comps as [|c comps IH]; intros st Hst; simpl; [done|].
  apply IH. by apply clean_step_dotdot.
Qed.

Lemma clean_stack_elem rooted comps st x :
  x ∈ foldl (clean_step rooted) st comps → x ∈ st ∨ x ∈ comps.
Proof.
  revert st. induction comps as [|c comps IH]; intros st; simpl; [by left|].
  intros [Hx|Hx]%IH; [|by right; right]. revert Hx. unfold clean_step.
  repeat case_match; set_solver.
Qed.

Lemma Clean_local path :
  HasPrefix path "/" = false → Clean path ≠ ".." → HasPrefix (Clean path) "../" = false →
  ".." ∉ Split (Clean path) slash.
Proof.
  intros Hr. unfold Clean. case_bool_decide as E0; [by vm_compute; set_solver|]. rewrite Hr.
  set (st := foldl (clean_step false) [] (Split path slash)).
  assert (Hlk : Forall (lacks slash) (rev st)).
  { apply Forall_forall. intros x Hx%list_elem_of_In%in_rev%list_elem_of_In.
    apply clean_stack_elem in Hx as [Hx|Hx]; [by apply not_elem_of_nil in Hx|].
    revert x Hx. apply Forall_forall, Split_lacks. }
  case_bool_decide as Eb; [intros _ _; by vm_compute; set_solver|]. intros Hne Hnp.
  assert (Hst : rev st ≠ []) by (by intros E; rewrite E in Eb).
  change "/" with (String slash "") in *. rewrite (Split_Join _ _ Hst Hlk).
  intros Hin%list_elem_of_In%in_rev%list_elem_of_In.
  pose proof (clean_stack_dotdot (Split path slash) [] ltac:(set_solver) Hin) as Hlast.
  apply last_Some in Hlast as [st' Hst']. fold st in Hst'.
  rewrite Hst', rev_app_distr in Hne, Hnp. cbn [rev app] in Hne, Hnp.
  destruct (rev st') as [|y ys]; [by vm_compute in Hne|].
  refine (eq_true_false_abs _ _ Hnp).
  apply HasPrefix_spec. exists (Join (y :: ys) (String slash "")).
  apply to_bytes_eq. rewrite to_bytes_app. unfold Join. by rewrite !to_of_bytes.
Qed.
