(* ===== verification/GoStringFacts.v ===== *)
(** * Facts on the string functions the account and key components use

    Cutting, trimming, sorting, and how [strings.Fields] splits a text into
    which a word was inserted. *)
From stdpp Require Import sorting.
From S2P Require Import Prelude GoStrings.

(** ** Cutting and trimming *)
Lemma bcut_app c a b : c ∉ a → bcut c (a ++ c :: b) = (a, b, true).
Proof.
  induction a as [|x a IH]; intros Hc; simpl; [by rewrite beqb_refl|].
  apply not_elem_of_cons in Hc as [Hx Hc]. rewrite (proj2 (beqb_ne x c)) by done. by rewrite IH.
Qed.

Lemma Cut_app c a b : lacks c a → Cut (a +:+ String c b) c = (a, b, true).
Proof.
  intros Hc. unfold Cut. rewrite to_bytes_app. change (to_bytes (String c b)) with (c :: to_bytes b).
  by rewrite bcut_app, !of_to_bytes.
Qed.

Lemma bcut_lacks c a : c ∉ a → bcut c a = (a, [], false).
Proof.
  induction a as [|x a IH]; intros Hc; simpl; [done|].
  apply not_elem_of_cons in Hc as [Hx Hc]. rewrite (proj2 (beqb_ne x c)) by done. by rewrite IH.
Qed.

Lemma Cut_lacks c a : lacks c a → Cut a c = (a, "", false).
Proof. intros Hc. unfold Cut. by rewrite bcut_lacks, of_to_bytes. Qed.

Lemma TrimSuffix_app a p : TrimSuffix (a +:+ p) p = a.
Proof.
  unfold TrimSuffix. assert (HasSuffix (a +:+ p) p = true) as -> by (apply HasSuffix_spec; by exists a).
  rewrite to_bytes_app, length_app, Nat.add_sub, take_app_length. apply of_to_bytes.
Qed.

Lemma TrimSuffix_none a p : HasSuffix a p = false → TrimSuffix a p = a.
Proof. unfold TrimSuffix. by intros ->. Qed.

(** ** Lines that end in a new line *)
Definition unlines (ls : list string) : string := Join (ls ++ [""]) (String nl "").

Lemma bjoin_snoc sep ls x : bjoin sep (ls ++ [[]]) ++ x ++ sep = bjoin sep ((ls ++ [x]) ++ [[]]).
Proof.
  induction ls as [|y ls IH]; simpl; [by rewrite app_nil_r|].
  destruct ls as [|z ls]; simpl in *; [by rewrite <-!app_assoc, app_nil_r|].
  by rewrite <-IH, !app_assoc.
Qed.

Lemma unlines_snoc ls x : unlines ls +:+ (x +:+ String nl "") = unlines (ls ++ [x]).
Proof.
  apply to_bytes_eq. unfold unlines, Join. rewrite !to_bytes_app, !to_of_bytes, !fmap_app.
  apply bjoin_snoc.
Qed.

Lemma bjoin_end sep ls : ls ≠ [] → bjoin sep ls ++ sep = bjoin sep (ls ++ [[]]).
Proof.
  induction ls as [|x [|y ls] IH]; intros Hne; [done|simpl; by rewrite app_nil_r|].
  change (bjoin sep (x :: y :: ls)) with (x ++ sep ++ bjoin sep (y :: ls)).
  rewrite <-!app_assoc, IH by done. done.
Qed.

Lemma unlines_Join ls : ls ≠ [] → Join ls (String nl "") +:+ String nl "" = unlines ls.
Proof.
  intros Hne. apply to_bytes_eq. unfold unlines, Join. rewrite to_bytes_app, !to_of_bytes, fmap_app.
  apply bjoin_end. by destruct ls.
Qed.

Lemma Split_unlines ls : Forall (lacks nl) ls → Split (unlines ls) nl = ls ++ [""].
Proof.
  intros HF. apply Split_Join; [by destruct ls|]. apply Forall_app. split; [done|].
  constructor; [|done]. unfold lacks. simpl. apply not_elem_of_nil.
Qed.

(** ** Sorting *)
Lemma string_le_total : Total string_le.
Proof. intros a b. unfold string_le. destruct (String.leb_total a b); auto. Qed.

Lemma string_le_antisymm : AntiSymm (=) string_le.
Proof. intros a b. apply String.leb_antisym. Qed.

Lemma string_le_trans : Transitive string_le.
Proof.
  unfold string_le, String.leb. intros a b c.
  revert b c. induction a as [|x a IH]; intros [|y b] [|z c]; simpl; try done.
  unfold Ascii.compare.
  destruct (N.compare_spec (Ascii.N_of_ascii x) (Ascii.N_of_ascii y)) as [E1|E1|E1];
    destruct (N.compare_spec (Ascii.N_of_ascii y) (Ascii.N_of_ascii z)) as [E2|E2|E2];
    destruct (N.compare_spec (Ascii.N_of_ascii x) (Ascii.N_of_ascii z)) as [E3|E3|E3];
    try done; try lia. apply IH.
Qed.

Lemma sort_Strings_perm l : sort_Strings l ≡ₚ l.
Proof. apply merge_sort_Permutation. Qed.

Lemma sort_Strings_eq l1 l2 : sort_Strings l1 = sort_Strings l2 ↔ l1 ≡ₚ l2.
Proof.
  split; intros Hl.
  - by rewrite <-(sort_Strings_perm l1), Hl, sort_Strings_perm.
  - pose proof string_le_total. pose proof string_le_antisymm. pose proof string_le_trans.
    apply (Sorted_unique string_le); [by apply Sorted_merge_sort..|]. by rewrite !sort_Strings_perm.
Qed.

(** ** Fields of a text with a word in it *)
Definition ascii_byte (b : byte) : Prop := (Ascii.N_of_ascii b < 128)%N.
Definition ascii_only (s : string) : Prop := Forall ascii_byte (to_bytes s).
Definition no_space (s : string) : Prop := bhas_space (to_bytes s) = false.

#[global] Instance ascii_only_dec s : Decision (ascii_only s).
Proof. unfold ascii_only, ascii_byte. apply _. Defined.

Lemma space2_not_ascii a b : ascii_byte a ∨ ascii_byte b → space2 a b = false.
Proof.
  unfold ascii_byte, space2. intros Hb. apply not_true_iff_false. intros Ht.
  rewrite andb_true_iff, orb_true_iff, !N.eqb_eq in Ht. lia.
Qed.

Lemma space3_not_ascii a b c : ascii_byte a ∨ ascii_byte b ∨ ascii_byte c → space3 a b c = false.
Proof.
  unfold ascii_byte, space3. intros Hb. apply not_true_iff_false. intros Ht.
  rewrite !orb_true_iff, !andb_true_iff, !orb_true_iff, !andb_true_iff, !N.eqb_eq, !N.leb_le in Ht. lia.
Qed.

Lemma skip_space_ascii a l : ascii_byte a → skip_space (a :: l) = if space1 a then Some l else None.
Proof.
  intros Ha. simpl. destruct (space1 a); [done|]. destruct l as [|b l]; [done|].
  rewrite space2_not_ascii by auto. destruct l as [|c l]; [done|]. by rewrite space3_not_ascii by auto.
Qed.

(** No white space starts inside a word without any, whatever ASCII follows. *)
Lemma skip_space_word u post :
  u ≠ [] → bhas_space u = false → Forall ascii_byte post → skip_space (u ++ post) = None.
Proof.
  intros Hu Hs Hp. destruct u as [|a u]; [done|]. simpl in Hs. cbn [skip_space app].
  destruct (space1 a); [done|]. destruct u as [|b u].
  - simpl. destruct Hp as [|b post Hb Hp]; [done|]. rewrite space2_not_ascii by auto.
    destruct Hp as [|c post Hc Hp]; [done|]. by rewrite space3_not_ascii by auto.
  - cbn [app]. destruct (space2 a b); [done|]. destruct u as [|c u].
    + simpl. destruct Hp as [|c post Hc Hp]; [done|]. by rewrite space3_not_ascii by auto.
    + cbn [app]. by destruct (space3 a b c).
Qed.

Lemma bhas_space_tail a l : bhas_space (a :: l) = false → bhas_space l = false.
Proof. cbn [bhas_space]. by destruct (skip_space (a :: l)). Qed.

Lemma fields_word n cur u post :
  bhas_space u = false → Forall ascii_byte post →
  bfields_aux (length u + n) cur (u ++ post) = bfields_aux n (rev u ++ cur) post.
Proof.
  revert cur. induction u as [|a u IH]; intros cur Hs Hp; [done|]. cbn [length Nat.add bfields_aux].
  rewrite skip_space_word by done. cbn [app]. rewrite IH; [|by eapply bhas_space_tail|done].
  simpl. by rewrite <-app_assoc.
Qed.

(** What reading an ASCII text leaves: the fields it ends, the one it is in. *)
Fixpoint fields_state (cur l : bytes) : list bytes * bytes :=
  match l with
  | [] => ([], cur)
  | a :: l =>
      if space1 a then
        let '(fs, cur') := fields_state [] l in
        (match cur with [] => fs | _ => rev cur :: fs end, cur')
      else fields_state (a :: cur) l
  end.

Lemma fields_before n cur pre rest :
  Forall ascii_byte pre →
  bfields_aux (length pre + n) cur (pre ++ rest) =
    (fields_state cur pre).1 ++ bfields_aux n (fields_state cur pre).2 rest.
Proof.
  intros Hp. revert cur. induction Hp as [|a pre Ha Hp IH]; intros cur; [done|].
  cbn [length Nat.add bfields_aux app]. rewrite skip_space_ascii by done. cbn [fields_state].
  destruct (space1 a).
  - rewrite IH. destruct (fields_state [] pre) as [fs c]. by destruct cur.
  - apply IH.
Qed.

Lemma fields_after post :
  Forall ascii_byte post →
  ∃ d B, ∀ cur, cur ≠ [] → bfields_aux (S (length post)) cur post = (rev cur ++ d) :: B.
Proof.
  induction 1 as [|a post Ha Hp (d & B & IH)].
  - exists [], []. intros [|c cur]; [done|]. intros _. simpl. by rewrite app_nil_r.
  - destruct (space1 a) eqn:Es.
    + exists [], (bfields_aux (S (length post)) [] post). intros [|c cur]; [done|]. intros _.
      change (length (a :: post)) with (S (length post)).
      cbn [bfields_aux]. rewrite skip_space_ascii, Es by done. by rewrite app_nil_r.
    + exists (a :: d), B. intros cur Hc. change (length (a :: post)) with (S (length post)).
      change (bfields_aux (S (S (length post))) cur (a :: post)) with
        (match skip_space (a :: post) with
         | Some l' => match cur with [] => bfields_aux (S (length post)) [] l'
                      | _ => rev cur :: bfields_aux (S (length post)) [] l' end
         | None => bfields_aux (S (length post)) (a :: cur) post
         end).
      rewrite skip_space_ascii, Es by done. rewrite IH by done. simpl. by rewrite <-app_assoc.
Qed.

(** A non-empty word without white space, inserted anywhere in an ASCII text,
    only extends one field: the number of fields, and all other fields, do not
    depend on the word. *)
Lemma Fields_word pre post :
  ascii_only pre → ascii_only post →
  ∃ A c d B, ∀ x, x ≠ "" → no_space x → Fields (pre +:+ x +:+ post) = A ++ [c +:+ x +:+ d] ++ B.
Proof.
  intros Hpre Hpost. destruct (fields_after _ Hpost) as (d & B & Hd).
  exists (of_bytes <$> (fields_state [] (to_bytes pre)).1),
    (of_bytes (rev (fields_state [] (to_bytes pre)).2)), (of_bytes d), (of_bytes <$> B).
  intros x Hx Hs. unfold Fields, bfields. rewrite !to_bytes_app, !length_app, <-!Nat.add_succ_r.
  rewrite fields_before, fields_word, Hd; [| |done..].
  2: { destruct x as [|a x]; [done|]. simpl. intros E. apply app_eq_nil in E as [E _].
       by apply app_eq_nil in E as [_ E]. }
  rewrite fmap_app. f_equal. simpl. f_equal. apply to_bytes_eq.
  rewrite !to_bytes_app, !to_of_bytes, rev_app_distr, rev_involutive. by rewrite <-app_assoc.
Qed.

(** ** Replacing the first occurrence *)
Lemma breplace1_found old l :
  bcontains old l = true →
  ∃ pre post, l = pre ++ old ++ post ∧ ∀ new, breplace1 old new l = pre ++ new ++ post.
Proof.
  assert (Hpre : ∀ k, bprefix old k = true → k = old ++ drop (length old) k).
  { intros k (r & ->)%bprefix_spec. by rewrite drop_app_length. }
  induction l as [|x l IH]; cbn [bcontains breplace1]; intros Hc.
  - destruct (bprefix old []) eqn:Ep; [|done]. exists [], (drop (length old) []). by rewrite <-Hpre.
  - destruct (bprefix old (x :: l)) eqn:Ep.
    + exists [], (drop (length old) (x :: l)). by rewrite <-Hpre.
    + destruct (IH Hc) as (pre & post & -> & Hn). exists (x :: pre), post. split; [done|].
      intros new. by rewrite Hn.
Qed.

(** The text around the first occurrence, the same for every replacement. *)
Lemma Replace1_found s old :
  Contains s old = true →
  ∃ pre post, s = pre +:+ old +:+ post ∧ ∀ new, Replace1 s old new = pre +:+ new +:+ post.
Proof.
  intros (pre & post & E & Hn)%breplace1_found. exists (of_bytes pre), (of_bytes post). split.
  - apply to_bytes_eq. by rewrite !to_bytes_app, !to_of_bytes.
  - intros new. apply to_bytes_eq. unfold Replace1. by rewrite !to_bytes_app, !to_of_bytes, Hn.
Qed.

Lemma breplace1_absent old new l : bcontains old l = false → breplace1 old new l = l.
Proof.
  induction l as [|x l IH]; cbn [bcontains breplace1]; intros [-> Hc]%orb_false_iff; [done|]. by rewrite IH.
Qed.

Lemma Replace1_absent s old new : Contains s old = false → Replace1 s old new = s.
Proof. intros Hc. unfold Replace1. rewrite breplace1_absent by done. apply of_to_bytes. Qed.

(** ** A trailing space *)
Lemma iterate_while_none n step l : step l = None → iterate_while n step l = l.
Proof. intros E. destruct n; simpl; by rewrite ?E. Qed.

Lemma TrimSpace_snoc_space a s :
  ascii_byte a → space1 a = false → TrimSpace (String a s) = String a s →
  TrimSpace (String a s +:+ " ") = String a s.
Proof.
  intros Ha Hs Ht. apply (f_equal to_bytes) in Ht. apply to_bytes_eq. revert Ht.
  unfold TrimSpace. rewrite to_bytes_app, !to_of_bytes. change (to_bytes (String a s)) with (a :: to_bytes s).
  generalize (to_bytes s). clear s. intros s. unfold btrim_space, btrim_left.
  assert (Hn : ∀ l, skip_space (a :: l) = None) by (intros; rewrite skip_space_ascii by done; by rewrite Hs).
  cbn [app]. rewrite !iterate_while_none by apply Hn. unfold btrim_right. cbn [length].
  change (a :: s ++ to_bytes " ") with ((a :: s) ++ [byte_of 32]). rewrite rev_app_distr, length_app, Nat.add_1_r.
  intros Ht. cbn [rev app iterate_while length] in *. exact Ht.
Qed.
