(* ===== verification/BoundedList.v ===== *)
(** * internal/boundedlist: the fixed-size circular list of metric datapoints

    [List] is the Go struct; [Add], [Len], [Item], [All] and [Reset] are its
    methods, with [uint] arithmetic modulo 2^64 and [None] for a run-time
    panic.  [spec] is the abstract contract, "the last [size] entries added",
    and the file's theorem is that every sequence of method calls gives the
    results of the contract. *)
From S2P Require Import Prelude.

Module BoundedList.

Section definitions.
Context {T : Type} (zero : T).

Record List := mkList {
  entries : list T;
  size : Z;
  idx : Z;
  isFull : bool;
}.

(** [make([]T, size)] panics when the length does not fit an [int]. *)
Definition makeslice (size : Z) : option (list T) :=
  if ((0 <=? size) && (size <? 2 ^ 63))%Z then Some (replicate (Z.to_nat size) zero) else None.

Definition New (size : Z) : option List :=
  es ← makeslice size;
  Some {| entries := es; size := size; idx := 0; isFull := false |}.

(** [l.entries[i]] and [l.entries[i] = x] with Go's bounds check. *)
Definition index (es : list T) (i : Z) : option T :=
  if (0 <=? i)%Z then es !! Z.to_nat i else None.

Definition set_index (es : list T) (i : Z) (x : T) : option (list T) :=
  if ((0 <=? i) && (i <? Z.of_nat (length es)))%Z then Some (<[Z.to_nat i := x]> es) else None.

Definition Add (l : List) (entry : T) : option List :=
  es ← set_index (entries l) (idx l) entry;
  if (size l =? 0)%Z then None
  else
    let i := (uint64_wrap (idx l + 1) mod size l)%Z in
    Some {| entries := es; size := size l; idx := i;
            isFull := if (i =? 0)%Z then true else isFull l |}.

Definition Capacity (l : List) : Z := size l.

Definition Len (l : List) : Z := if isFull l then size l else idx l.

Definition Item (l : List) (i : Z) : option T :=
  if (Len l <=? i)%Z then Some zero
  else if isFull l then
    if (size l =? 0)%Z then None
    else index (entries l) (uint64_wrap (idx l + i) mod size l)%Z
  else index (entries l) i.

Definition All (l : List) : option (list T) :=
  mapM (λ i, Item l (Z.of_nat i)) (seq 0 (Z.to_nat (Len l))).

Definition Reset (l : List) : option List :=
  es ← makeslice (size l);
  Some {| entries := es; size := size l; idx := 0; isFull := false |}.

(** ** The contract *)

(** The calls a client makes, and what it observes. *)
Inductive call :=
| CallAdd (entry : T)
| CallAll
| CallLen
| CallReset.

Inductive answer :=
| Done
| Items (l : list T)
| Count (n : Z).

Definition run_call (l : List) (c : call) : option (List * answer) :=
  match c with
  | CallAdd x => l' ← Add l x; Some (l', Done)
  | CallAll => xs ← All l; Some (l, Items xs)
  | CallLen => Some (l, Count (Len l))
  | CallReset => l' ← Reset l; Some (l', Done)
  end.

Fixpoint run_calls (l : List) (cs : list call) : option (list answer) :=
  match cs with
  | [] => Some []
  | c :: cs' =>
      '(l', a) ← run_call l c;
      rest ← run_calls l' cs';
      Some (a :: rest)
  end.

(** The abstract buffer of capacity [cap] holds a plain list. *)
Definition spec_call (cap : nat) (xs : list T) (c : call) : list T * answer :=
  match c with
  | CallAdd x => (last_n cap (xs ++ [x]), Done)
  | CallAll => (xs, Items xs)
  | CallLen => (xs, Count (Z.of_nat (length xs)))
  | CallReset => ([], Done)
  end.

Fixpoint spec_calls (cap : nat) (xs : list T) (cs : list call) : list answer :=
  match cs with
  | [] => []
  | c :: cs' =>
      let '(xs', a) := spec_call cap xs c in a :: spec_calls cap xs' cs'
  end.

(** The representation: [xs] is everything added since the last reset. *)
Definition represents (l : List) (xs : list T) : Prop :=
  (0 < size l < 2 ^ 63)%Z ∧
  length (entries l) = Z.to_nat (size l) ∧
  idx l = (Z.of_nat (length xs) mod size l)%Z ∧
  isFull l = bool_decide (size l ≤ Z.of_nat (length xs))%Z ∧
  ∀ j, j < length xs → (Z.of_nat (length xs) - size l ≤ Z.of_nat j)%Z →
       index (entries l) (Z.of_nat j mod size l)%Z = xs !! j.

End definitions.

Arguments List : clear implicits.
Arguments call : clear implicits.
Arguments answer : clear implicits.

(** ** Lemmas *)
Section lemmas.
Context {T : Type} (zero : T).
Implicit Types l : List T.

Lemma index_insert (es : list T) i k x :
  (0 ≤ i < Z.of_nat (length es))%Z → (0 ≤ k)%Z →
  index (<[Z.to_nat i := x]> es) k = if (k =? i)%Z then Some x else index es k.
Proof.
  intros Hi Hk. unfold index. rewrite (proj2 (Z.leb_le 0 k) Hk).
  destruct (Z.eqb_spec k i) as [->|Hne].
  - by apply list_lookup_insert_eq; lia.
  - by rewrite list_lookup_insert_ne by lia.
Qed.

Lemma makeslice_ok n :
  (0 ≤ n < 2 ^ 63)%Z → makeslice zero n = Some (replicate (Z.to_nat n) zero).
Proof.
  intros. unfold makeslice.
  by rewrite (proj2 (Z.leb_le _ _)), (proj2 (Z.ltb_lt _ _)) by lia.
Qed.

Lemma represents_empty n es :
  (0 < n < 2 ^ 63)%Z → length es = Z.to_nat n →
  represents {| entries := es; size := n; idx := 0; isFull := false |} ([] : list T).
Proof.
  intros Hn Hes. unfold represents. cbn [size entries idx isFull]. split_and!; try (done || lia).
  - symmetry. apply bool_decide_eq_false_2. simpl. lia.
  - intros j Hj. simpl in Hj. lia.
Qed.

Lemma Add_represents l xs x :
  represents l xs → ∃ l', Add l x = Some l' ∧ represents l' (xs ++ [x]).
Proof.
  intros (Hsz & Hlen & Hidx & Hfull & Hent).
  pose proof (Z.mod_pos_bound (Z.of_nat (length xs)) (size l) ltac:(lia)) as Hb.
  rewrite <-Hidx in Hb.
  unfold Add, set_index.
  rewrite (proj2 (Z.leb_le _ _)), (proj2 (Z.ltb_lt _ _)) by lia. simpl.
  rewrite (proj2 (Z.eqb_neq _ _)) by lia.
  rewrite uint64_wrap_small by lia. eexists; split; [done|].
  assert (Hi : ((idx l + 1) mod size l = Z.of_nat (length (xs ++ [x])) mod size l)%Z).
  { rewrite Hidx, length_app. simpl. rewrite Zplus_mod_idemp_l. f_equal. lia. }
  unfold represents. cbn [size entries idx isFull]. split_and!; try (done || lia).
  - by rewrite length_insert.
  - rewrite Hi, length_app, Hfull. simpl.
    destruct (Z.eqb_spec (Z.of_nat (length xs + 1) mod size l) 0) as [H0|H0].
    + symmetry. apply bool_decide_eq_true_2.
      apply Z.mod_divide in H0 as [k Hk]; [|lia].
      assert (0 < k)%Z by (apply (Zmult_lt_0_reg_r (size l)); lia). nia.
    + apply bool_decide_ext.
      assert (Z.of_nat (length xs + 1) ≠ size l); [|lia].
      intros Heq. rewrite Heq, Z.mod_same in H0; lia.
  - intros j Hj Hlo. rewrite length_app in Hj, Hlo. simpl in Hj, Hlo.
    rewrite index_insert; [|lia|apply Z.mod_pos_bound; lia].
    destruct (decide (j = length xs)) as [->|Hne].
    + rewrite <-Hidx, Z.eqb_refl. by rewrite list_lookup_middle.
    + rewrite lookup_app_l by lia.
      destruct (Z.eqb_spec (Z.of_nat j mod size l) (idx l)) as [He|He].
      * exfalso. rewrite Hidx in He.
        assert (Hd : ((Z.of_nat (length xs) - Z.of_nat j) mod size l = 0)%Z).
        { rewrite Zminus_mod, He, Z.sub_diag. by rewrite Z.mod_0_l by lia. }
        rewrite Z.mod_small in Hd; lia.
      * apply Hent; lia.
Qed.

Lemma Len_represents l xs :
  represents l xs → Len l = Z.of_nat (length (last_n (Z.to_nat (size l)) xs)).
Proof.
  intros (Hsz & Hlen & Hidx & Hfull & Hent). unfold Len.
  rewrite last_n_length, Hfull. case_bool_decide as Hc; [lia|].
  rewrite Hidx, Z.mod_small; lia.
Qed.

Lemma Item_represents l xs i :
  represents l xs → (0 ≤ i < Len l)%Z →
  Item zero l i = last_n (Z.to_nat (size l)) xs !! Z.to_nat i.
Proof.
  intros Hrep Hi. pose proof Hrep as (Hsz & Hlen & Hidx & Hfull & Hent).
  pose proof (Len_represents _ _ Hrep) as HL. rewrite last_n_length in HL.
  unfold Item. rewrite (proj2 (Z.leb_gt _ _)) by lia.
  rewrite (proj2 (Z.eqb_neq (size l) 0)) by lia.
  unfold last_n. rewrite lookup_drop. unfold Len in Hi.
  rewrite Hfull in Hi |- *. destruct (bool_decide_reflect (size l ≤ Z.of_nat (length xs))%Z) as [Hc|Hc].
  - pose proof (Z.mod_pos_bound (Z.of_nat (length xs)) (size l) ltac:(lia)).
    rewrite uint64_wrap_small by lia. rewrite Hidx, Zplus_mod_idemp_l.
    replace (Z.of_nat (length xs) + i)%Z
      with (Z.of_nat (length xs - Z.to_nat (size l) + Z.to_nat i) + 1 * size l)%Z by lia.
    rewrite Z_mod_plus_full. apply Hent; lia.
  - rewrite Hidx, Z.mod_small in Hi by lia.
    replace (length xs - Z.to_nat (size l) + Z.to_nat i) with (Z.to_nat i) by lia.
    pose proof (Hent (Z.to_nat i)) as He. rewrite Z2Nat.id, Z.mod_small in He by lia.
    apply He; lia.
Qed.

Lemma All_represents l xs :
  represents l xs → All zero l = Some (last_n (Z.to_nat (size l)) xs).
Proof.
  intros Hrep. unfold All. rewrite (Len_represents _ _ Hrep), Nat2Z.id.
  apply mapM_Some. apply Forall2_same_length_lookup_2; [by rewrite length_seq|].
  intros i a b Ha Hb. apply lookup_seq in Ha as [-> Hlt]. simpl.
  rewrite (Item_represents _ _ _ Hrep); [by rewrite Nat2Z.id|].
  rewrite (Len_represents _ _ Hrep). lia.
Qed.

Lemma Reset_represents l xs :
  represents l xs → ∃ l', Reset zero l = Some l' ∧ size l' = size l ∧ represents l' [].
Proof.
  intros (Hsz & _). unfold Reset. rewrite makeslice_ok by lia. simpl.
  eexists; split_and!; [done|done|]. apply represents_empty; [done|].
  by rewrite length_replicate.
Qed.

Lemma last_n_last_n_snoc n (xs : list T) x :
  0 < n → last_n n (last_n n xs ++ [x]) = last_n n (xs ++ [x]).
Proof.
  intros Hn. rewrite !last_n_snoc by done. f_equal. unfold last_n.
  rewrite drop_drop, length_drop. f_equal. lia.
Qed.

(** One call from related states gives the contract's answer and related
    states again. *)
Lemma run_call_refines l xs c :
  represents l xs →
  ∃ l' xs', run_call zero l c = Some (l', (spec_call (Z.to_nat (size l)) (last_n (Z.to_nat (size l)) xs) c).2)
    ∧ size l' = size l ∧ represents l' xs'
    ∧ last_n (Z.to_nat (size l)) xs' = (spec_call (Z.to_nat (size l)) (last_n (Z.to_nat (size l)) xs) c).1.
Proof.
  intros Hrep. pose proof Hrep as (Hsz & _). destruct c; simpl.
  - destruct (Add_represents _ _ entry Hrep) as (l' & Ha & Hr).
    rewrite Ha. simpl. exists l', (xs ++ [entry]). split_and!; try done.
    + unfold Add in Ha. destruct (set_index _ _ _); simpl in Ha; [|done].
      case_match; simplify_eq. done.
    + rewrite last_n_last_n_snoc by lia. done.
  - rewrite (All_represents _ _ Hrep). simpl. eauto 10.
  - rewrite (Len_represents _ _ Hrep). eauto 10.
  - destruct (Reset_represents _ _ Hrep) as (l' & Ha & Hs & Hr).
    rewrite Ha. simpl. exists l', []. split_and!; try done.
Qed.

Lemma run_calls_refines l xs cs :
  represents l xs →
  run_calls zero l cs = Some (spec_calls (Z.to_nat (size l)) (last_n (Z.to_nat (size l)) xs) cs).
Proof.
  revert l xs. induction cs as [|c cs IH]; intros l xs Hrep; simpl; [done|].
  destruct (run_call_refines _ _ c Hrep) as (l' & xs' & -> & Hs & Hr & Hx). simpl.
  rewrite (IH _ _ Hr), Hs, Hx. simpl. by destruct (spec_call _ _ _).
Qed.

End lemmas.

(** Refinement: a bounded list created with a positive size that fits an
    [int] never panics, and every sequence of [Add], [All], [Len] and [Reset]
    calls answers exactly like the contract that keeps the last [size] entries
    added since the last reset, oldest first. *)
Theorem bounded_list_refines {T} (zero : T) (n : Z) (cs : list (call T)) :
  (0 < n < 2 ^ 63)%Z →
  ∃ l, New zero n = Some l ∧ run_calls zero l cs = Some (spec_calls (Z.to_nat n) [] cs).
Proof.
  intros Hn. unfold New. rewrite makeslice_ok by lia. simpl.
  eexists; split; [done|].
  rewrite (run_calls_refines _ _ []); [done|].
  apply represents_empty; [done|]. by rewrite length_replicate.
Qed.

(** Five additions to a list of size three. *)
Lemma bounded_list_refines_witness :
  ∃ l, New 0 3 = Some l ∧
  run_calls 0 l [CallAdd 1; CallAdd 2; CallAll; CallAdd 3; CallAdd 4; CallAdd 5; CallAll; CallLen]
  = Some [Done; Done; Items [1; 2]; Done; Done; Done; Items [3; 4; 5]; Count 3].
Proof. apply (bounded_list_refines 0 3). lia. Defined.

End BoundedList.
