(* ===== verification/Lru.v ===== *)
(** * internal/lru: the least-recently-used cache

    [Handle] is the Go struct: the lookup table, from a key to its data and to
    the element of the ring that holds the key, and the ring itself, a doubly
    linked list of [container/list], kept here as the sequence of its elements
    with their identities, front first.  [New], [Get], [Put] and [Len] are the
    functions of lru.go; [None] is a run-time panic.  [spec_call] is the
    contract: the entries by recency of use, at most [capacity] of them. *)
From stdpp Require Import base gmap list.
From S2P Require Import Prelude.

Module Lru.

Section definitions.
Context {K V : Type} `{Countable K}.

(** ** [container/list] *)

(** An element: its identity, the pointer the list hands out, and its value. *)
Definition element : Type := nat * K.

Record List := mkList {
  elements : list element;
  fresh : nat;
}.

(** [list.Remove] unlinks the element a pointer designates; [MoveToFront]
    does nothing when the pointer is not one of the list's. *)
Definition unlink (ptr : nat) (es : list element) : list element := filter (λ e, e.1 ≠ ptr) es.

Definition MoveToFront (ptr : nat) (r : List) : List :=
  match list_find (λ e, e.1 = ptr) (elements r) with
  | Some (_, e) => mkList (e :: unlink ptr (elements r)) (fresh r)
  | None => r
  end.

Definition PushFront (k : K) (r : List) : List * nat :=
  (mkList ((fresh r, k) :: elements r) (S (fresh r)), fresh r).

Definition Back (r : List) : option element := last (elements r).

Definition Remove (ptr : nat) (r : List) : List := mkList (unlink ptr (elements r)) (fresh r).

(** ** The cache *)
Record dataNode := mkNode {
  Data : V;
  KeyPtr : nat;
}.

Record Handle := mkHandle {
  lookupTable : gmap K dataNode;
  ring : List;
  capacity : Z;
}.

Definition New (capacity : Z) : Handle := mkHandle ∅ (mkList [] 0) capacity.

Definition Get (key : K) (l : Handle) : Handle * option V :=
  match lookupTable l !! key with
  | Some node =>
      (mkHandle (lookupTable l) (MoveToFront (KeyPtr node) (ring l)) (capacity l), Some (Data node))
  | None => (l, None)
  end.

(** [ring.Remove(nil)] dereferences the nil element. *)
Definition Put (key : K) (value : V) (l : Handle) : option Handle :=
  match lookupTable l !! key with
  | Some node =>
      Some (mkHandle (<[key := mkNode value (KeyPtr node)]> (lookupTable l))
              (MoveToFront (KeyPtr node) (ring l)) (capacity l))
  | None =>
      '(table, r) ←
        (if (capacity l =? Z.of_nat (size (lookupTable l)))%Z then
           back ← Back (ring l);
           Some (delete back.2 (lookupTable l), Remove back.1 (ring l))
         else Some (lookupTable l, ring l));
      let '(r', ptr) := PushFront key r in
      Some (mkHandle (<[key := mkNode value ptr]> table) r' (capacity l))
  end.

Definition Len (l : Handle) : Z := Z.of_nat (size (lookupTable l)).

(** ** The contract *)
Inductive call :=
| CallGet (key : K)
| CallPut (key : K) (value : V)
| CallLen.

Inductive answer :=
| Found (value : option V)
| Stored
| Count (n : Z).

Definition run_call (l : Handle) (c : call) : option (Handle * answer) :=
  match c with
  | CallGet k => let '(l', v) := Get k l in Some (l', Found v)
  | CallPut k v => l' ← Put k v l; Some (l', Stored)
  | CallLen => Some (l, Count (Len l))
  end.

Fixpoint run_calls (l : Handle) (cs : list call) : option (list answer) :=
  match cs with
  | [] => Some []
  | c :: cs' =>
      '(l', a) ← run_call l c;
      rest ← run_calls l' cs';
      Some (a :: rest)
  end.

(** The entries, the most recently used first. *)
Definition entries : Type := list (K * V).

Definition entry (k : K) (xs : entries) : option V := (list_to_map xs : gmap K V) !! k.
Definition others (k : K) (xs : entries) : entries := filter (λ x, x.1 ≠ k) xs.

Definition spec_call (cap : nat) (xs : entries) (c : call) : entries * answer :=
  match c with
  | CallGet k =>
      match entry k xs with
      | Some v => ((k, v) :: others k xs, Found (Some v))
      | None => (xs, Found None)
      end
  | CallPut k v => (take cap ((k, v) :: others k xs), Stored)
  | CallLen => (xs, Count (Z.of_nat (length xs)))
  end.

Fixpoint spec_calls (cap : nat) (xs : entries) (cs : list call) : list answer :=
  match cs with
  | [] => []
  | c :: cs' =>
      let '(xs', a) := spec_call cap xs c in a :: spec_calls cap xs' cs'
  end.

(** A slot of the cache: the ring's element and the data of its node. *)
Definition slot : Type := nat * (K * V).
Definition slot_key (t : slot) : K := t.2.1.

(** The table and the ring hold the same slots, under distinct pointers. *)
Record slots (cap : nat) (l : Handle) (ts : list slot) : Prop := mkSlots {
  slots_ring : elements (ring l) = (λ t, (t.1, slot_key t)) <$> ts;
  slots_table k node :
    lookupTable l !! k = Some node ↔ ∃ t, t ∈ ts ∧ slot_key t = k ∧ node = mkNode t.2.2 t.1;
  slots_ptrs : NoDup (fst <$> ts);
  slots_keys : NoDup (slot_key <$> ts);
  slots_fresh : Forall (λ t, t.1 < fresh (ring l)) ts;
  slots_length : length ts ≤ cap;
  slots_capacity : capacity l = Z.of_nat cap;
}.

End definitions.

Arguments List : clear implicits.
Arguments Handle : clear implicits.
Arguments Handle K V {_ _}.
Arguments call : clear implicits.
Arguments answer : clear implicits.
Arguments dataNode : clear implicits.
Arguments slot : clear implicits.
Arguments entries : clear implicits.

(** ** Lemmas *)
Section lemmas.
Context {K V : Type} `{Countable K}.
Implicit Types (l : Handle K V) (ts : list (slot K V)) (t : slot K V).

Lemma NoDup_fmap_inj {A B} (f : A → B) (l : list A) x y :
  NoDup (f <$> l) → x ∈ l → y ∈ l → f x = f y → x = y.
Proof.
  intros Hnd [i Hi]%list_elem_of_lookup [j Hj]%list_elem_of_lookup E.
  assert (i = j) as ->; [|congruence].
  eapply NoDup_lookup; [done|by rewrite list_lookup_fmap, Hi|]. by rewrite list_lookup_fmap, Hj, E.
Qed.

Lemma filter_all {A} (P : A → Prop) `{!∀ x, Decision (P x)} (l : list A) : Forall P l → filter P l = l.
Proof. induction 1; [done|]. by rewrite filter_cons_True, IHForall. Qed.

Lemma filter_fmap {A B} (f : A → B) (P : B → Prop) (Q : A → Prop)
    `{!∀ x, Decision (P x), !∀ x, Decision (Q x)} (l : list A) :
  (∀ x, x ∈ l → P (f x) ↔ Q x) → filter P (f <$> l) = f <$> filter Q l.
Proof.
  induction l as [|x l IH]; intros HPQ; [done|]. rewrite fmap_cons, !filter_cons.
  assert (Hx := HPQ x (list_elem_of_here _ _)).
  rewrite IH by (intros; apply HPQ; by right).
  repeat case_decide; naive_solver.
Qed.

(** The slots that are not those of a key. *)
Definition rest_slots (t : slot K V) ts : list (slot K V) := filter (λ t', t'.1 ≠ t.1) ts.

Lemma rest_slots_key ts t :
  NoDup (fst <$> ts) → NoDup (slot_key <$> ts) → t ∈ ts →
  ∀ t', t' ∈ ts → slot_key t' ≠ slot_key t ↔ t'.1 ≠ t.1.
Proof.
  intros Hp Hk Ht t' Ht'. split; intros Hne E; apply Hne.
  - by rewrite (NoDup_fmap_inj fst ts t' t).
  - by rewrite (NoDup_fmap_inj slot_key ts t' t).
Qed.

Lemma unlink_slots t ts :
  unlink t.1 ((λ t, (t.1, slot_key t)) <$> ts) = (λ t, (t.1, slot_key t)) <$> rest_slots t ts.
Proof. by apply filter_fmap. Qed.

Lemma others_slots t ts :
  NoDup (fst <$> ts) → NoDup (slot_key <$> ts) → t ∈ ts →
  others (slot_key t) (snd <$> ts) = snd <$> rest_slots t ts.
Proof. intros. apply filter_fmap. by apply rest_slots_key. Qed.

Lemma MoveToFront_slots t ts n :
  NoDup (fst <$> ts) → t ∈ ts →
  MoveToFront t.1 (mkList ((λ t, (t.1, slot_key t)) <$> ts) n) =
  mkList ((λ t, (t.1, slot_key t)) <$> (t :: rest_slots t ts)) n.
Proof.
  intros Hp Ht. unfold MoveToFront. cbn [elements fresh].
  destruct (list_find _ _) as [[i e]|] eqn:E.
  - apply list_find_Some in E as (Hi & He & _).
    apply list_lookup_fmap_Some in Hi as (t' & -> & Hi). cbn in He.
    rewrite (NoDup_fmap_inj fst ts t' t) by (done || by eapply list_elem_of_lookup_2).
    by rewrite unlink_slots, fmap_cons.
  - apply list_find_None in E. rewrite Forall_fmap, Forall_forall in E. by destruct (E t Ht).
Qed.

Lemma entry_slots ts (k : K) (v : V) :
  NoDup (slot_key <$> ts) → entry k (snd <$> ts) = Some v ↔ ∃ t, t ∈ ts ∧ t.2 = (k, v).
Proof.
  intros Hk. unfold entry. rewrite <-elem_of_list_to_map.
  - rewrite list_elem_of_fmap. naive_solver.
  - by rewrite <-list_fmap_compose.
Qed.

Lemma size_slots cap l ts : slots cap l ts → size (lookupTable l) = length ts.
Proof.
  intros Hs. rewrite <-size_dom.
  replace (dom (lookupTable l)) with (list_to_set (slot_key <$> ts) : gset K).
  - rewrite size_list_to_set, length_fmap; [done|by apply Hs].
  - apply set_eq. intros k. rewrite elem_of_list_to_set, elem_of_dom, list_elem_of_fmap. unfold is_Some.
    setoid_rewrite (slots_table _ _ _ Hs). naive_solver.
Qed.

Lemma fmap_rest_NoDup {B} (f : slot K V → B) t ts : NoDup (f <$> ts) → NoDup (f <$> rest_slots t ts).
Proof. intros Hn. eapply sublist_NoDup; [done|]. apply fmap_sublist, sublist_filter. Qed.

Lemma rest_slots_NotIn t ts : t.1 ∉ fst <$> rest_slots t ts.
Proof. rewrite list_elem_of_fmap. intros (t' & E & [Hne _]%list_elem_of_filter). by rewrite E in Hne. Qed.

(** A slot that is used moves to the front, with its new data. *)
Lemma slots_promote cap l ts t v :
  slots cap l ts → t ∈ ts →
  slots cap (mkHandle (<[slot_key t := mkNode v t.1]> (lookupTable l)) (MoveToFront t.1 (ring l)) (capacity l))
    ((t.1, (slot_key t, v)) :: rest_slots t ts).
Proof.
  intros Hs Ht. destruct l as [tab [es n] c]. destruct Hs as [Hr Hl Hp Hk Hf Hn Hc]. cbn in *. subst es.
  rewrite MoveToFront_slots by done.
  assert (Hrest : ∀ t', t' ∈ rest_slots t ts ↔ slot_key t' ≠ slot_key t ∧ t' ∈ ts).
  { intros t'. unfold rest_slots. rewrite list_elem_of_filter.
    pose proof (rest_slots_key ts t Hp Hk Ht t'). naive_solver. }
  split; cbn [ring elements lookupTable fresh capacity].
  - done.
  - intros k node. rewrite lookup_insert_Some, Hl. setoid_rewrite elem_of_cons. setoid_rewrite Hrest.
    split.
    + intros [[<- <-]|(Hne & t' & Ht' & <- & ->)]; [by exists (t.1, (slot_key t, v)); auto|].
      exists t'. naive_solver.
    + intros (t' & [->|[Hne Ht']] & <- & ->); [by left|]. right. naive_solver.
  - constructor; [exact (rest_slots_NotIn t ts)|by apply fmap_rest_NoDup].
  - constructor; [|by apply fmap_rest_NoDup].
    intros (t' & E & [Hne _]%Hrest)%list_elem_of_fmap. by destruct Hne.
  - rewrite Forall_forall in Hf. apply Forall_cons. split; [by apply (Hf t)|].
    apply Forall_forall. intros t' [_ Ht']%Hrest. auto.
  - cbn. assert (length (rest_slots t ts) < length ts); [|lia].
    unfold rest_slots. eapply length_filter_lt; [done|]. naive_solver.
  - done.
Qed.

(** A new slot enters at the front of a cache that has room. *)
Lemma slots_enter cap l ts k v :
  slots cap l ts → length ts < cap → lookupTable l !! k = None →
  slots cap (mkHandle (<[k := mkNode v (fresh (ring l))]> (lookupTable l))
               (mkList ((fresh (ring l), k) :: elements (ring l)) (S (fresh (ring l)))) (capacity l))
    ((fresh (ring l), (k, v)) :: ts).
Proof.
  intros [Hr Hl Hp Hk Hf Hn Hc] Hlt Hnone.
  assert (Hnew : k ∉ slot_key <$> ts).
  { rewrite list_elem_of_fmap. intros (t & -> & Ht).
    enough (lookupTable l !! slot_key t = Some (mkNode t.2.2 t.1)) by congruence. apply Hl. eauto. }
  rewrite Forall_forall in Hf.
  split; cbn [ring elements lookupTable fresh capacity].
  - by rewrite fmap_cons, Hr.
  - intros k' node. rewrite lookup_insert_Some, Hl. setoid_rewrite elem_of_cons. split.
    + intros [[<- <-]|(Hne & t' & Ht' & <- & ->)]; [by exists (fresh (ring l), (k, v)); auto|].
      exists t'. naive_solver.
    + intros (t' & [->|Ht'] & <- & ->); [by left|]. right. split; [|by eauto].
      intros ->. apply Hnew. apply list_elem_of_fmap. eauto.
  - constructor; [|done]. intros (t & E & Ht)%list_elem_of_fmap. specialize (Hf _ Ht). cbn in E. lia.
  - by constructor.
  - constructor; [cbn; lia|]. apply Forall_forall. intros t Ht. specialize (Hf _ Ht). lia.
  - cbn. lia.
  - done.
Qed.

(** The slot at the back leaves. *)
Lemma slots_evict cap l ts t :
  slots cap l (ts ++ [t]) →
  Back (ring l) = Some (t.1, slot_key t) ∧
  slots cap (mkHandle (delete (slot_key t) (lookupTable l)) (Remove t.1 (ring l)) (capacity l)) ts.
Proof.
  intros [Hr Hl Hp Hk Hf Hn Hc]. unfold Back, Remove. rewrite Hr.
  rewrite fmap_app in Hp. rewrite fmap_app in Hk. apply NoDup_app in Hp as (Hp & Hp' & _), Hk as (Hk & Hk' & _).
  cbn in Hp', Hk'.
  split; [rewrite fmap_app; apply last_snoc|].
  split; cbn [ring elements lookupTable fresh capacity]; try done.
  - rewrite unlink_slots. f_equal. unfold rest_slots. rewrite filter_app, filter_cons_False by naive_solver.
    rewrite app_nil_r. apply filter_all, Forall_forall. intros t' Ht' E.
    apply (Hp' t.1); [|by left]. rewrite <-E. by apply list_elem_of_fmap_2.
  - intros k node. rewrite lookup_delete_Some, Hl. setoid_rewrite elem_of_app.
    setoid_rewrite list_elem_of_singleton. split.
    + intros (Hne & t' & [Ht'| ->] & <- & ->); [by eauto|done].
    + intros (t' & Ht' & <- & ->). split; [|by eauto].
      intros E. apply (Hk' (slot_key t)); [|by left]. rewrite E. by apply list_elem_of_fmap_2.
  - by apply Forall_app in Hf as [Hf _].
  - rewrite length_app in Hn. cbn in Hn. lia.
Qed.

Local Notation contents ts := (fmap (M := list) (A := slot K V) snd ts).

(** Every call keeps the correspondence and gives the contract's answer. *)
Lemma run_call_slots cap l ts c :
  0 < cap → slots cap l ts →
  ∃ l' ts', run_call l c = Some (l', (spec_call cap (contents ts) c).2) ∧
    slots cap l' ts' ∧ (spec_call cap (contents ts) c).1 = contents ts'.
Proof.
  intros Hcap Hs. pose proof Hs as [Hr Hl Hp Hk Hf Hn Hc].
  assert (Hentry : ∀ k, entry k (contents ts) = Data <$> lookupTable l !! k).
  { intros k. apply option_eq. intros v. rewrite entry_slots by done. rewrite fmap_Some. setoid_rewrite Hl.
    split.
    - intros (t & Ht & E). exists (mkNode v t.1). split; [|done]. exists t. unfold slot_key. by rewrite E.
    - intros (? & (t & Ht & <- & ->) & ->). exists t. split; [done|]. by destruct t as [? []]. }
  destruct c as [k|k v|]; cbn [run_call spec_call].
  - unfold Get. rewrite Hentry. destruct (lookupTable l !! k) as [node|] eqn:E; cbn; [|by eauto].
    destruct (proj1 (Hl _ _) E) as (t & Ht & <- & ->). do 2 eexists. split; [done|].
    pose proof (slots_promote cap l ts t t.2.2 Hs Ht) as Hs'. rewrite (insert_id _ _ _ E) in Hs'.
    split; [exact Hs'|]. by rewrite fmap_cons, others_slots.
  - unfold Put. destruct (lookupTable l !! k) as [node|] eqn:E; cbn.
    + destruct (proj1 (Hl _ _) E) as (t & Ht & <- & ->). do 2 eexists. split; [done|].
      pose proof (slots_promote cap l ts t v Hs Ht) as Hs'. split; [exact Hs'|].
      rewrite others_slots, <-(fmap_cons snd (t.1, (slot_key t, v))) by done.
      apply take_ge. rewrite length_fmap. apply Hs'.
    + rewrite (size_slots cap l ts Hs).
      assert (Ho : others k (contents ts) = contents ts).
      { apply filter_all, Forall_forall. intros x (t & -> & Ht)%list_elem_of_fmap Hx.
        enough (lookupTable l !! k = Some (mkNode t.2.2 t.1)) by congruence. apply Hl. by exists t. }
      rewrite Ho. destruct (Z.eqb_spec (capacity l) (Z.of_nat (length ts))) as [Hfull|Hroom].
      * destruct ts as [|t ts _] using rev_ind; [cbn in Hfull; lia|].
        rewrite length_app in Hfull, Hn. cbn in Hfull, Hn.
        destruct (slots_evict cap l ts t Hs) as [-> Hs']. do 2 eexists. split; [done|]. split.
        -- apply (slots_enter cap _ ts k v Hs'); [lia|]. apply lookup_delete_None. by right.
        -- cbn. rewrite fmap_app. destruct cap as [|cap]; [lia|]. cbn.
           rewrite take_app_le by (rewrite length_fmap; lia). by rewrite take_ge by (rewrite length_fmap; lia).
      * do 2 eexists. split; [done|]. split; [apply slots_enter; [done|lia|done]|].
        cbn. apply (take_ge (_ :: _)). cbn. rewrite length_fmap. lia.
  - unfold Len. rewrite (size_slots cap l ts Hs), length_fmap. eauto.
Qed.

Lemma run_calls_slots cap cs l ts :
  0 < cap → slots cap l ts → run_calls l cs = Some (spec_calls cap (contents ts) cs).
Proof.
  intros Hcap. revert l ts. induction cs as [|c cs IH]; intros l ts Hs; [done|].
  destruct (run_call_slots cap l ts c Hcap Hs) as (l' & ts' & Hrun & Hs' & Hspec).
  cbn [run_calls spec_calls]. rewrite Hrun. cbn.
  destruct (spec_call cap _ c) as [xs a]. cbn in *. subst xs. by rewrite (IH l' ts').
Qed.
End lemmas.

(** ** The contract holds *)

(** C39. Whatever sequence of gets, puts and length requests is made on a fresh
    cache of positive capacity, no call panics and every answer is the one of
    the abstract cache: the entries in order of last use, of which the least
    recently used one leaves when a new key arrives and the cache is full. *)
Theorem lru_refines {K V} `{Countable K} (cap : nat) (cs : list (call K V)) :
  0 < cap → run_calls (New (Z.of_nat cap)) cs = Some (spec_calls cap [] cs).
Proof.
  intros Hcap. apply (run_calls_slots cap cs _ []); [done|].
  split; cbn; try done; [|constructor|constructor|lia].
  intros k node. rewrite lookup_empty. set_solver.
Qed.

Lemma lru_refines_witness :
  run_calls (New (K := Z) (V := Z) 2)
    [CallPut 1 10; CallPut 2 20; CallGet 1; CallPut 3 30; CallGet 2; CallGet 1; CallPut 3 31; CallGet 3; CallLen]%Z =
  Some [Stored; Stored; Found (Some 10); Stored; Found None; Found (Some 10); Stored; Found (Some 31); Count 2]%Z.
Proof. rewrite (lru_refines 2); [reflexivity|lia]. Defined.

(** A cache made with capacity zero panics at its first [Put]. *)
Theorem Put_zero_capacity {K V} `{Countable K} (k : K) (v : V) : Put k v (New 0) = None.
Proof. unfold Put, New. cbn. by rewrite lookup_empty, map_size_empty. Qed.

End Lru.
