(* ===== verification/Retry.v ===== *)
(** * internal/retry: running a function until it succeeds

    [Policy], [backoff], [isRetriable], [RunWithResponse] and [Run] of
    retry.go.  Durations are [int64] nanoseconds, the backoff computation is
    IEEE 754 binary64 (the specification floats of the standard library), the
    attempt counter is a wrapping [int].  The function being retried and the
    [select] on the context and the timer are actions of a state monad; a
    [for {}] loop runs on fuel, and the theorems say which fuel is enough. *)
From S2P Require Import Prelude.
From Stdlib Require Import SpecFloat.

Local Open Scope Z_scope.

(** ** Go's [float64] and [int64] *)
Definition float64 : Type := spec_float.
Definition float_of_Z (z : Z) : float64 := binary_normalize 53 1024 z 0 false.
#[global] Arguments float_of_Z : simpl never.
Definition fmul : float64 → float64 → float64 := SFmul 53 1024.
Definition fadd : float64 → float64 → float64 := SFadd 53 1024.
Definition fdiv : float64 → float64 → float64 := SFdiv 53 1024.
Definition fgt (a b : float64) : bool := SFltb b a.

Definition int64_wrap (z : Z) : Z := (z + 2 ^ 63) mod 2 ^ 64 - 2 ^ 63.

(** Conversion to [int64] truncates towards zero; values that do not fit give
    the smallest [int64], as on amd64. *)
Definition int64_of_float (f : float64) : Z :=
  match f with
  | S754_finite s m e =>
      let a := if 0 <=? e then Z.pos m * 2 ^ e else Z.pos m / 2 ^ (- e) in
      let z := if s then - a else a in
      if (- 2 ^ 63 <=? z) && (z <? 2 ^ 63) then z else - 2 ^ 63
  | S754_zero _ => 0
  | _ => - 2 ^ 63
  end.

(** [math.Pow(x, n)] for an integer exponent [n ≥ 0]: Go's square-and-multiply
    on the mantissa, with the exponent kept apart. *)
Fixpoint pow_loop (fuel : nat) (i : Z) (x1 : float64) (xe : Z) (a1 : float64) (ae : Z)
    : float64 * Z :=
  match fuel with
  | 0%nat => (a1, ae)
  | S n =>
      if i =? 0 then (a1, ae)
      else if (xe <? - 2 ^ 12) || (2 ^ 12 <? xe) then (a1, ae + xe)
      else
        let '(a1, ae) := if Z.odd i then (fmul a1 x1, ae + xe) else (a1, ae) in
        let x1 := fmul x1 x1 in
        let xe := 2 * xe in
        let '(x1, xe) :=
          if SFltb x1 (fdiv (float_of_Z 1) (float_of_Z 2)) then (fadd x1 x1, xe - 1) else (x1, xe) in
        pow_loop n (Z.shiftr i 1) x1 xe a1 ae
  end.

Definition is_neg (x : float64) : bool :=
  match x with S754_zero s | S754_infinity s | S754_finite s _ _ => s | S754_nan => false end.

Definition Pow (x : float64) (n : Z) : float64 :=
  if (n =? 0) || SFeqb x (float_of_Z 1) then float_of_Z 1
  else if n =? 1 then x
  else match x with
  | S754_nan => S754_nan
  | S754_zero s => if s && Z.odd n then x else S754_zero false
  | S754_infinity s => S754_infinity (s && Z.odd n)
  | S754_finite _ _ _ =>
      let '(x1, xe) := SFfrexp 53 1024 x in
      let '(a1, ae) := pow_loop 64 n x1 xe (float_of_Z 1) 0 in
      SFldexp 53 1024 a1 ae
  end.

(** ** [time.Duration] *)
Definition Second : Z := 1000000000.
Definition Millisecond : Z := 1000000.
Definition Minute : Z := 60 * Second.

Definition Seconds (d : Z) : float64 :=
  fadd (float_of_Z (Z.quot d Second)) (fdiv (float_of_Z (Z.rem d Second)) (float_of_Z Second)).

Module Retry.

Definition DefaultMaximumBackoff : Z := 20 * Minute.

Record Policy := mkPolicy {
  MaxAttempts : Z;
  BackoffFactor : float64;
  Jitter : Z;
  ShouldRetry : option (error → bool);
  MaximumBackoff : Z;
}.

Definition backoff (attempt : Z) (policy : Policy) : Z :=
  let maxBackoff := if MaximumBackoff policy =? 0 then DefaultMaximumBackoff else MaximumBackoff policy in
  if attempt <? 0 then maxBackoff
  else
    let b := fmul (Seconds (Jitter policy)) (Pow (BackoffFactor policy) attempt) in
    if fgt b (Seconds maxBackoff) then maxBackoff
    else int64_of_float (fmul b (float_of_Z Second)).

Definition isRetriable (policy : Policy) (err : error) : bool :=
  match ShouldRetry policy with
  | None => true
  | Some should => should err
  end.

Section run.
Context {S T : Type} (zero : T).
(** The two nested [select] statements: wait for the timer, then report
    whether the context is done ([Some err] is [ctx.Err()]). *)
Variable wait : Z → M S (option error).

(** [None] means the fuel ran out with the loop still running. *)
Fixpoint retry_loop (fuel : nat) (attempt : Z) (policy : Policy) (f : M S (T * option error))
    : M S (option (T * option error)) :=
  match fuel with
  | O => mret None
  | Datatypes.S fuel' =>
      '(res, e) ← f;
      match e with
      | None => mret (Some (res, None))
      | Some err =>
          if negb (isRetriable policy err) then
            mret (Some (res, Some (ErrWrap "giving up, retry policy returned false on error" err)))
          else if int64_wrap (attempt + 1) =? MaxAttempts policy then
            mret (Some (res, Some (ErrWrap "exhausted all retries, last error" err)))
          else
            done ← wait (backoff attempt policy);
            match done with
            | Some cerr => mret (Some (res, Some cerr))
            | None => retry_loop fuel' (int64_wrap (attempt + 1)) policy f
            end
      end
  end.

Definition RunWithResponse (fuel : nat) (policy : Policy) (f : option (M S (T * option error)))
    : M S (option (T * option error)) :=
  match f with
  | None => mret (Some (zero, Some (ErrMsg "retry function cannot be nil")))
  | Some f => retry_loop fuel 0 policy f
  end.

End run.

(** [Run] wraps the function so that it has a response to ignore. *)
Definition Run {S} (wait : Z → M S (option error)) (fuel : nat) (policy : Policy)
    (f : option (M S (option error))) : M S (option (option error)) :=
  match f with
  | None => mret (Some (Some (ErrMsg "retry function cannot be nil")))
  | Some f =>
      r ← RunWithResponse tt wait fuel policy (Some (e ← f; mret (tt, e)));
      mret (snd <$> r)
  end.

(** ** Runs against a script of outcomes

    The retried function's [k]-th call returns [outcome k]; the [k]-th wait
    finds the context done exactly when [cancelled k] is [Some]. *)
Record trace := mkTrace { calls : nat; sleeps : list Z }.

Definition scripted_call {T} (outcome : nat → T * option error) : M trace (T * option error) :=
  λ s, Some (mkTrace (Datatypes.S (calls s)) (sleeps s), outcome (calls s)).

Definition scripted_wait (cancelled : nat → option error) (d : Z) : M trace (option error) :=
  λ s, Some (mkTrace (calls s) (sleeps s ++ [d]), cancelled (length (sleeps s))).

(** What attempt [k] decides: [Some] answer, or try again. *)
Definition verdict {T} (policy : Policy) (outcome : nat → T * option error)
    (cancelled : nat → option error) (k : nat) : option (T * option error) :=
  match outcome k with
  | (res, None) => Some (res, None)
  | (res, Some err) =>
      if negb (isRetriable policy err) then
        Some (res, Some (ErrWrap "giving up, retry policy returned false on error" err))
      else if Z.of_nat k + 1 =? MaxAttempts policy then
        Some (res, Some (ErrWrap "exhausted all retries, last error" err))
      else match cancelled k with
           | Some cerr => Some (res, Some cerr)
           | None => None
           end
  end.

(** Whether the loop waited after the attempt that decided. *)
Definition waited_after {T} (policy : Policy) (outcome : nat → T * option error) (k : nat) : bool :=
  match outcome k with
  | (_, Some err) => isRetriable policy err && negb (Z.of_nat k + 1 =? MaxAttempts policy)
  | _ => false
  end.

(** The backoff intervals of the first [n] waits. *)
Definition intervals (policy : Policy) (n : nat) : list Z :=
  (λ i, backoff (Z.of_nat i) policy) <$> seq 0 n.

(** ** Lemmas *)
Lemma int64_wrap_small z : - 2 ^ 63 ≤ z < 2 ^ 63 → int64_wrap z = z.
Proof. intros. unfold int64_wrap. rewrite Z.mod_small; lia. Qed.

Lemma intervals_S policy n :
  intervals policy (Datatypes.S n) = intervals policy n ++ [backoff (Z.of_nat n) policy].
Proof. unfold intervals. by rewrite seq_S, fmap_app. Qed.

Lemma intervals_length policy n : length (intervals policy n) = n.
Proof. unfold intervals. by rewrite length_fmap, length_seq. Qed.

Lemma retry_loop_scripted {T} (policy : Policy) (outcome : nat → T * option error)
    (cancelled : nat → option error) (k n fuel : nat) ans :
  (n ≤ k)%nat → Z.of_nat k < 2 ^ 63 - 1 →
  (∀ i, (n ≤ i < k)%nat → verdict policy outcome cancelled i = None) →
  verdict policy outcome cancelled k = Some ans →
  (k - n < fuel)%nat →
  retry_loop (scripted_wait cancelled) fuel (Z.of_nat n) policy (scripted_call outcome)
    (mkTrace n (intervals policy n))
  = Some (mkTrace (Datatypes.S k)
            (intervals policy (if waited_after policy outcome k then Datatypes.S k else k)), Some ans).
Proof.
  revert n. induction fuel as [|fuel IH]; intros n Hn Hk Hnone Hans Hfuel; [lia|].
  cbn [retry_loop]. unfold mbind, M_bind, scripted_call at 1. simpl.
  rewrite int64_wrap_small by lia.
  destruct (decide (n = k)) as [->|Hne].
  - clear IH Hnone. unfold verdict in Hans. unfold waited_after.
    destruct (outcome k) as [res [err|]]; [|by simplify_eq].
    destruct (isRetriable policy err); simpl in *; [|by simplify_eq].
    destruct (Z.of_nat k + 1 =? MaxAttempts policy); simpl in *; [by simplify_eq|].
    rewrite intervals_length.
    destruct (cancelled k); simplify_eq. by rewrite intervals_S.
  - pose proof (Hnone n ltac:(lia)) as Hv. unfold verdict in Hv.
    destruct (outcome n) as [res [err|]]; [|done].
    destruct (isRetriable policy err); simpl in *; [|done].
    destruct (Z.of_nat n + 1 =? MaxAttempts policy); simpl in *; [done|].
    rewrite intervals_length.
    destruct (cancelled n); [done|].
    rewrite <-intervals_S. replace (Z.of_nat n + 1) with (Z.of_nat (Datatypes.S n)) by lia.
    apply IH; [lia|lia|intros i Hi; apply Hnone; lia|done|lia].
Qed.

(** A deciding attempt exists within [MaxAttempts] attempts. *)
Lemma verdict_last {T} (policy : Policy) (outcome : nat → T * option error) cancelled k :
  Z.of_nat k + 1 = MaxAttempts policy → is_Some (verdict policy outcome cancelled k).
Proof.
  intros Hk. unfold verdict. destruct (outcome k) as [res [err|]]; [|done].
  destruct (isRetriable policy err); simpl; [|done].
  by rewrite (proj2 (Z.eqb_eq _ _) Hk).
Qed.

Lemma first_some {A} (g : nat → option A) n :
  is_Some (g n) → ∃ k a, (k ≤ n)%nat ∧ g k = Some a ∧ ∀ i, (i < k)%nat → g i = None.
Proof.
  revert g. induction n as [|n IH]; intros g [a Ha].
  - exists 0%nat, a. split_and!; [lia|done|lia].
  - destruct (g 0%nat) as [b|] eqn:H0.
    + exists 0%nat, b. split_and!; [lia|done|lia].
    + destruct (IH (λ i, g (Datatypes.S i))) as (k & c & Hk & Hc & Hi); [eauto|].
      exists (Datatypes.S k), c. split_and!; [lia|done|].
      intros [|i] Hlt; [done|]. apply Hi. lia.
Qed.

(** The loop over any state: what the function and the waits respect the loop
    respects, and with bounded attempts it returns. *)
Section any_state.
Context {S T : Type} (wait : Z → M S (option error)).

Lemma respects_retry_loop (R : relation S) `{!PreOrder R} fuel attempt policy (f : M S (T * option error)) :
  respects R f → (∀ d, respects R (wait d)) → respects R (retry_loop wait fuel attempt policy f).
Proof.
  intros Hf Hw. revert attempt. induction fuel as [|fuel IH]; intros attempt; simpl; respects_solve.
Qed.

Lemma respects_RunWithResponse (R : relation S) `{!PreOrder R} zero fuel policy (f : M S (T * option error)) :
  respects R f → (∀ d, respects R (wait d)) → respects R (RunWithResponse zero wait fuel policy (Some f)).
Proof. apply respects_retry_loop. done. Qed.

Lemma wp_retry_loop_err (Q : T * option error → S → Prop) (I : S → Prop) fuel attempt policy
    (f : M S (T * option error)) s :
  (∀ s, I s → wp f (λ r s',
     match r.2 with
     | None => Q r s'
     | Some e => I s' ∧ ∀ e', Q (r.1, Some e') s'
     end) s) →
  (∀ d s r, I s → (∀ e', Q (r, Some e') s) →
     wp (wait d) (λ c s', match c with Some e => Q (r, Some e) s' | None => I s' end) s) →
  0 ≤ attempt < MaxAttempts policy → MaxAttempts policy < 2 ^ 63 →
  MaxAttempts policy - attempt ≤ Z.of_nat fuel →
  I s →
  wp (retry_loop wait fuel attempt policy f) (λ o s', ∃ r, o = Some r ∧ Q r s') s.
Proof.
  intros Hf Hw. revert attempt s. induction fuel as [|fuel IH]; intros attempt s Ha Hm Hfu HI; [lia|].
  simpl. apply wp_bind. eapply wp_mono; [by apply Hf|]. intros [res [err|]] s1 HQ; simpl in *;
    [|apply wp_ret; eauto]. destruct HQ as [HI1 HQ].
  destruct (negb (isRetriable policy err)); [apply wp_ret; eauto|].
  rewrite int64_wrap_small by lia.
  destruct (Z.eqb_spec (attempt + 1) (MaxAttempts policy)); [apply wp_ret; eauto|].
  apply wp_bind. eapply wp_mono; [by apply Hw|]. intros [c|] s2 HQ2; [apply wp_ret; eauto|].
  apply IH; [lia|lia|lia|done].
Qed.

Lemma wp_retry_loop (Q : T * option error → S → Prop) (I : S → Prop) fuel attempt policy
    (f : M S (T * option error)) s :
  (∀ s, I s → wp f (λ r s', I s' ∧
     match r.2 with
     | None => Q r s'
     | Some e => ∀ e', Q (r.1, Some e') s'
     end) s) →
  (∀ d s r, I s → (∀ e', Q (r, Some e') s) →
     wp (wait d) (λ c s', I s' ∧ match c with Some e => Q (r, Some e) s' | None => True end) s) →
  0 ≤ attempt < MaxAttempts policy → MaxAttempts policy < 2 ^ 63 →
  MaxAttempts policy - attempt ≤ Z.of_nat fuel →
  I s →
  wp (retry_loop wait fuel attempt policy f) (λ o s', ∃ r, o = Some r ∧ Q r s') s.
Proof.
  intros Hf Hw. apply (wp_retry_loop_err Q I).
  - intros s1 HI. eapply wp_mono; [by apply Hf|]. intros [res [err|]] s2 [HI2 HQ]; simpl in *; auto.
  - intros d s1 r HI HQ. eapply wp_mono; [by apply Hw|]. intros [c|] s2 [HI2 HQ2]; done.
Qed.

(** Without a bound on the attempts and with every error worth a retry, the
    loop ends by itself only in success or with the error of the context. *)
Lemma wp_retry_forever (Q : option (T * option error) → S → Prop) (I : S → Prop) fuel attempt policy
    (f : M S (T * option error)) s :
  MaxAttempts policy = 0 → ShouldRetry policy = None →
  (∀ s, I s → wp f (λ r s', match r.2 with None => Q (Some r) s' | Some _ => I s' end) s) →
  (∀ d s r, I s → wp (wait d) (λ c s', match c with Some e => Q (Some (r, Some e)) s' | None => I s' end) s) →
  (∀ s, I s → Q None s) → 0 ≤ attempt → attempt + Z.of_nat fuel < 2 ^ 63 → I s →
  wp (retry_loop wait fuel attempt policy f) Q s.
Proof.
  intros Hm Hs Hf Hw H0. revert attempt s. induction fuel as [|fuel IH]; intros attempt s Ha Hfu HI; [by apply wp_ret, H0|].
  simpl. apply wp_bind. eapply wp_mono; [by apply Hf|]. intros [res [err|]] s1 HI1; simpl in *; [|by apply wp_ret].
  unfold isRetriable. rewrite Hs, Hm, int64_wrap_small by lia. cbn [negb].
  destruct (Z.eqb_spec (attempt + 1) 0); [lia|].
  apply wp_bind. eapply wp_mono; [by apply Hw|]. intros [c|] s2 HI2; [by apply wp_ret|]. apply IH; [lia|lia|done].
Qed.

End any_state.

Lemma respects_Run {S} (wait : Z → M S (option error)) (R : relation S) `{!PreOrder R} fuel policy f :
  respects R f → (∀ d, respects R (wait d)) → respects R (Run wait fuel policy (Some f)).
Proof.
  intros Hf Hw. unfold Run. apply respects_bind; [done| |respects_solve].
  apply respects_RunWithResponse; [done| |done]. respects_solve.
Qed.

(** The policies of the repository with a constant backoff, by their interval. *)
Definition constant_policy (maxAttempts jitter : Z) : Policy :=
  mkPolicy maxAttempts (float_of_Z 1) jitter None 0.

Lemma Pow_one n : Pow (float_of_Z 1) n = float_of_Z 1.
Proof. unfold Pow. by rewrite orb_true_r. Qed.

(** C29. A bounded retry loop always stops: with [MaxAttempts = n > 0] and
    at least [n] units of fuel, [RunWithResponse] returns the answer of the
    first attempt that succeeds, is not retriable, exhausts the attempts or is
    followed by a cancelled wait; it calls the function exactly once per attempt
    up to that one, never more than [n] times, and sleeps exactly the backoff
    intervals of the attempts before it (and one more if it was cancelled in
    its wait). *)
Theorem RunWithResponse_bounded {T} (zero : T) (policy : Policy)
    (outcome : nat → T * option error) (cancelled : nat → option error) (fuel : nat) :
  0 < MaxAttempts policy < 2 ^ 63 → (Z.to_nat (MaxAttempts policy) ≤ fuel)%nat →
  ∃ k ans,
    (k < Z.to_nat (MaxAttempts policy))%nat ∧
    verdict policy outcome cancelled k = Some ans ∧
    (∀ i, (i < k)%nat → verdict policy outcome cancelled i = None) ∧
    RunWithResponse zero (scripted_wait cancelled) fuel policy (Some (scripted_call outcome))
      (mkTrace 0 []) =
    Some (mkTrace (Datatypes.S k)
           (intervals policy (if waited_after policy outcome k then Datatypes.S k else k)), Some ans).
Proof.
  intros Hm Hf.
  destruct (first_some (verdict policy outcome cancelled) (Z.to_nat (MaxAttempts policy) - 1))
    as (k & ans & Hk & Hans & Hi); [apply verdict_last; lia|].
  exists k, ans. split_and!; [lia|done|done|].
  apply (retry_loop_scripted policy outcome cancelled k 0 fuel ans); try done; try lia.
  intros i [_ ?]. by apply Hi.
Qed.

Lemma RunWithResponse_bounded_witness :
  let outcome := λ k, if Nat.eqb k 2 then (7, None) else (0, Some (ErrMsg "unavailable")) in
  let policy := constant_policy 5 (2 * Second) in
  0 < MaxAttempts policy < 2 ^ 63 ∧
  RunWithResponse 0 (scripted_wait (λ _, None)) 5 policy (Some (scripted_call outcome)) (mkTrace 0 [])
  = Some (mkTrace 3 [2 * Second; 2 * Second], Some (7, None)) ∧
  ∃ k ans, (k < 5)%nat ∧ verdict policy outcome (λ _, None) k = Some ans ∧
    (∀ i, (i < k)%nat → verdict policy outcome (λ _, None) i = None) ∧
    RunWithResponse 0 (scripted_wait (λ _, None)) 5 policy (Some (scripted_call outcome)) (mkTrace 0 [])
    = Some (mkTrace (Datatypes.S k) (intervals policy (if waited_after policy outcome k then Datatypes.S k else k)), Some ans).
Proof.
  intros outcome policy. split; [done|]. split; [by vm_compute|].
  apply (RunWithResponse_bounded 0 policy outcome (λ _, None) 5); [done|reflexivity].
Defined.

(** The documented constant backoff: with [BackoffFactor] one, the wait
    before every retry is exactly the policy's jitter, at every attempt
    number, for the intervals the agent configures (a tenth of a second, one,
    two and five seconds). *)
Theorem backoff_constant (maxAttempts attempt jitter : Z) :
  0 ≤ attempt → jitter ∈ [100 * Millisecond; Second; 2 * Second; 5 * Second] →
  backoff attempt (constant_policy maxAttempts jitter) = jitter.
Proof.
  intros Ha Hj. unfold backoff. simpl.
  rewrite (proj2 (Z.ltb_ge _ _) Ha), Pow_one.
  repeat (apply elem_of_cons in Hj as [->|Hj]; [by vm_compute|]). by apply not_elem_of_nil in Hj.
Qed.

Lemma backoff_constant_witness :
  0 ≤ 41 ∧ backoff 41 (constant_policy 100 (100 * Millisecond)) = 100 * Millisecond.
Proof. split; [done|]. apply backoff_constant; [done|]. apply elem_of_cons. by left. Defined.

(** The exponential policies: doubling from two seconds, capped at twenty
    minutes; a negative attempt is the cap. *)
Example backoff_doubling :
  (λ k, backoff k (mkPolicy 0 (float_of_Z 2) (2 * Second) None (20 * Minute))) <$> [0; 1; 2; 3; 9; 10; 2000; -1]
  = [2 * Second; 4 * Second; 8 * Second; 16 * Second; 1024 * Second; 20 * Minute; 20 * Minute; 20 * Minute].
Proof. by vm_compute. Qed.

(** The sequence of the comment in retry.go: 10, 30, 90, 270 seconds. *)
Example backoff_tripling :
  (λ k, backoff k (mkPolicy 0 (float_of_Z 3) (10 * Second) None 0)) <$> [0; 1; 2; 3]
  = [10 * Second; 30 * Second; 90 * Second; 270 * Second].
Proof. by vm_compute. Qed.

End Retry.
