(* ===== verification/MetricRegistry.v ===== *)
(** * internal/metricregistry: the buffer of metrics sent to ACS

    metricregistry.go twice: the methods of one registry in the state monad
    ([Record], [Flush], [addEntry], [size], [Metrics]) with the table of
    registries behind [New], and the same methods as their critical sections,
    taken one at a time by the goroutines that record ([worker]) and by the
    periodic flusher ([step]).  What is handed to the ACS client is a list of
    batches; a message of the protocol is either a module metric or anything
    else.  The theorems: nothing recorded is lost, duplicated or invented, and
    how far beyond its limit the buffer can grow. *)
From stdpp Require Import base gmap list strings list_tactics.
From S2P Require Import Prelude.

Module MetricRegistry.

Section registry.
(** The payload of a [GuestAgentModuleMetric]. *)
Context {P : Type}.

Inductive message := NilMessage | GuestAgentModuleMetric (p : P) | OtherMessage.

Record registry := mkRegistry {
  metrics : list message;
  maxRecords : Z;
  (** [cfg.Retrieve().Telemetry.MetricCollectionEnabled]. *)
  collectionEnabled : bool;
  (** The batches handed to [client.SendMessage]. *)
  sent : list (list P);
}.

Definition set_metrics l r := mkRegistry l (maxRecords r) (collectionEnabled r) (sent r).
Definition add_sent b r := mkRegistry (metrics r) (maxRecords r) (collectionEnabled r) (sent r ++ [b]).

Definition isMetricValid (m : message) : bool :=
  match m with GuestAgentModuleMetric _ => true | _ => false end.

Definition moduleMetrics (ms : list message) : list P :=
  omap (λ m, match m with GuestAgentModuleMetric p => Some p | _ => None end) ms.

Definition size : M registry Z := gets (λ r, Z.of_nat (length (metrics r))).
Definition addEntry (m : message) : M registry unit := modify (λ r, set_metrics (metrics r ++ [m]) r).
Definition Metrics : M registry (list message) := gets metrics.

(** The critical section of [Flush]. *)
Definition take : M registry (list message) :=
  toFlush ← gets metrics; _ ← modify (set_metrics []); mret toFlush.

Definition send (ms : list message) : M registry unit :=
  match moduleMetrics ms with
  | [] => mret tt
  | b => modify (add_sent b)
  end.

Definition Flush : M registry unit :=
  enabled ← gets collectionEnabled;
  if negb enabled then mret tt
  else toFlush ← take; send toFlush.

Definition Record_ (m : message) : M registry unit :=
  enabled ← gets collectionEnabled;
  if negb enabled then mret tt
  else if negb (isMetricValid m) then mret tt
  else
    n ← size;
    _ ← (limit ← gets maxRecords; when (limit <=? n + 1)%Z Flush);
    addEntry m.

(** [New]: the registry of that name, made if there is none. *)
Definition New (maxRecords : Z) (name : string) (enabled : bool) (registries : gmap string registry)
    : gmap string registry * registry :=
  match registries !! name with
  | Some r => (registries, r)
  | None => let r := mkRegistry [] maxRecords enabled [] in (<[name := r]> registries, r)
  end.

(** ** Concurrent recorders *)

(** Where a goroutine is in [Record]. *)
Inductive phase :=
| Idle
| Full (m : message)                       (* found the registry full, to flush *)
| Sending (ms : list message) (m : message) (* took [ms], to send them *)
| Adding (m : message).

Record worker := mkWorker { todo : list message; at_ : phase }.

Record system := mkSystem {
  reg : registry;
  workers : list worker;
  (** What the flusher took and has not sent. *)
  flusher : option (list message);
}.

Definition run {A} (m : M registry A) (r r' : registry) (a : A) : Prop := m r = Some (r', a).

Inductive step : system → system → Prop :=
| step_ignore r ws fl i m ms :             (* disabled, or not a valid metric *)
    ws !! i = Some (mkWorker (m :: ms) Idle) → collectionEnabled r = false ∨ isMetricValid m = false →
    step (mkSystem r ws fl) (mkSystem r (<[i := mkWorker ms Idle]> ws) fl)
| step_check r ws fl i m ms n :
    ws !! i = Some (mkWorker (m :: ms) Idle) → collectionEnabled r = true → isMetricValid m = true →
    run size r r n →
    step (mkSystem r ws fl)
      (mkSystem r (<[i := mkWorker ms (if (maxRecords r <=? n + 1)%Z then Full m else Adding m)]> ws) fl)
| step_take r r' ws fl i m ms l :
    ws !! i = Some (mkWorker ms (Full m)) → run take r r' l →
    step (mkSystem r ws fl) (mkSystem r' (<[i := mkWorker ms (Sending l m)]> ws) fl)
| step_send r r' ws fl i m ms l :
    ws !! i = Some (mkWorker ms (Sending l m)) → run (send l) r r' tt →
    step (mkSystem r ws fl) (mkSystem r' (<[i := mkWorker ms (Adding m)]> ws) fl)
| step_add r r' ws fl i m ms :
    ws !! i = Some (mkWorker ms (Adding m)) → run (addEntry m) r r' tt →
    step (mkSystem r ws fl) (mkSystem r' (<[i := mkWorker ms Idle]> ws) fl)
| step_tick r r' ws l :                    (* the flusher's ticker *)
    collectionEnabled r = true → run take r r' l →
    step (mkSystem r ws None) (mkSystem r' ws (Some l))
| step_flushed r r' ws l :
    run (send l) r r' tt →
    step (mkSystem r ws (Some l)) (mkSystem r' ws None).

(** ** What is where *)
Definition phase_metrics (ph : phase) : list P :=
  match ph with
  | Idle => []
  | Full m | Adding m => moduleMetrics [m]
  | Sending l m => moduleMetrics (l ++ [m])
  end.

Definition worker_metrics (w : worker) : list P := phase_metrics (at_ w) ++ moduleMetrics (todo w).

(** The module metrics the system accounts for: sent, buffered, in the hands
    of a goroutine or still to be recorded. *)
Definition accounted (s : system) : list P :=
  concat (sent (reg s)) ++ moduleMetrics (metrics (reg s)) ++
  concat (worker_metrics <$> workers s) ++ moduleMetrics (default [] (flusher s)).

Definition quiet (s : system) : Prop :=
  Forall (λ w, todo w = [] ∧ at_ w = Idle) (workers s) ∧ flusher s = None.

(** The goroutines past the check that will add their entry. *)
Definition is_adding (w : worker) : bool :=
  match at_ w with Sending _ _ | Adding _ => true | _ => false end.
Definition adding (ws : list worker) : nat := length (filter (λ w, is_adding w = true) ws).

End registry.

#[global] Arguments adding : simpl never.
#[global] Arguments moduleMetrics : simpl never.
Arguments message : clear implicits.
Arguments registry : clear implicits.
Arguments worker : clear implicits.
Arguments system : clear implicits.

(** ** Lemmas *)
Section lemmas.
Context {P : Type}.
Implicit Types (r : registry P) (s : system P) (ws : list (worker P)).

Lemma moduleMetrics_app (l k : list (message P)) : moduleMetrics (l ++ k) = moduleMetrics l ++ moduleMetrics k.
Proof. apply omap_app. Qed.

Lemma adding_cons w ws : adding (w :: ws) = (if is_adding w then 1 else 0) + adding ws.
Proof. unfold adding. rewrite filter_cons. case_decide as E; by destruct (is_adding w). Qed.

Lemma workers_insert ws i w w' :
  ws !! i = Some w →
  ∃ rest, concat (worker_metrics <$> ws) ≡ₚ worker_metrics w ++ rest ∧
    concat (worker_metrics <$> <[i := w']> ws) ≡ₚ worker_metrics w' ++ rest ∧
    adding ws + (if is_adding w' then 1 else 0) = adding (<[i := w']> ws) + (if is_adding w then 1 else 0).
Proof.
  revert i. induction ws as [|v ws IH]; intros i Hi; [done|]. destruct i as [|i]; cbn in Hi.
  all: [> change (<[0:=w']> (v :: ws)) with (w' :: ws) | change (<[S i:=w']> (v :: ws)) with (v :: <[i:=w']> ws)];
    rewrite !fmap_cons, !concat_cons.
  - injection Hi as ->. exists (concat (worker_metrics <$> ws)). split; [done|]. split; [done|].
    rewrite !adding_cons. lia.
  - destruct (IH i Hi) as (rest & E & E' & Ha). exists (worker_metrics v ++ rest). split; [|split].
    + rewrite E, !app_assoc. apply Permutation_app_tail, Permutation_app_comm.
    + rewrite E', !app_assoc. apply Permutation_app_tail, Permutation_app_comm.
    + rewrite !adding_cons. lia.
Qed.

Lemma send_sent r r' (l : list (message P)) :
  run (send l) r r' tt →
  concat (sent r') = concat (sent r) ++ moduleMetrics l ∧ metrics r' = metrics r ∧ maxRecords r' = maxRecords r.
Proof.
  unfold run, send. destruct (moduleMetrics l) as [|b bs] eqn:E; intros [= <-]; cbn.
  - by rewrite app_nil_r.
  - by rewrite concat_app, concat_cons, app_nil_r.
Qed.

Lemma adding_le ws : adding ws ≤ length ws.
Proof. apply length_filter. Qed.

(** One step neither loses, duplicates nor invents a metric, and keeps the
    limit. *)
Lemma step_accounted s s' :
  collectionEnabled (reg s) = true → step s s' →
  collectionEnabled (reg s') = true ∧ accounted s' ≡ₚ accounted s.
Proof.
  intros Hen Hstep. unfold accounted.
  destruct Hstep as [r ws fl i m ms Hi [Hd|Hv]|r ws fl i m ms n Hi _ _ _|r r' ws fl i m ms l Hi Hr
    |r r' ws fl i m ms l Hi Hr|r r' ws fl i m ms Hi Hr|r r' ws l _ Hr|r r' ws l Hr]; cbn [reg workers flusher] in *.
  - congruence.
  - split; [done|].
    destruct (workers_insert ws i _ (mkWorker ms Idle) Hi) as (rest & -> & -> & _).
    by destruct m.
  - split; [done|].
    destruct (workers_insert ws i _ (mkWorker ms (if (maxRecords r <=? n + 1)%Z then Full m else Adding m)) Hi)
      as (rest & -> & -> & _).
    unfold worker_metrics. cbn. change (m :: ms) with ([m] ++ ms). rewrite moduleMetrics_app. by destruct (_ <=? _)%Z.
  - unfold run, take in Hr. injection Hr as <- <-. cbn. split; [done|].
    destruct (workers_insert ws i _ (mkWorker ms (Sending (metrics r) m)) Hi) as (rest & -> & -> & _).
    unfold worker_metrics. cbn. rewrite moduleMetrics_app. solve_Permutation.
  - destruct (send_sent _ _ _ Hr) as (-> & -> & _).
    split. { unfold run, send in Hr. by destruct (moduleMetrics l); injection Hr as <-. }
    destruct (workers_insert ws i _ (mkWorker ms (Adding m)) Hi) as (rest & -> & -> & _).
    unfold worker_metrics. cbn. rewrite moduleMetrics_app. solve_Permutation.
  - unfold run, addEntry in Hr. injection Hr as <-. cbn. split; [done|].
    destruct (workers_insert ws i _ (mkWorker ms Idle) Hi) as (rest & -> & -> & _).
    unfold worker_metrics. cbn. rewrite moduleMetrics_app. solve_Permutation.
  - unfold run, take in Hr. injection Hr as <- <-. cbn. split; [done|]. solve_Permutation.
  - destruct (send_sent _ _ _ Hr) as (-> & -> & _).
    split. { unfold run, send in Hr. by destruct (moduleMetrics l); injection Hr as <-. }
    cbn. solve_Permutation.
Qed.

(** The limit, loosened by the goroutines that have checked it. *)
Definition within (limit : Z) s : Prop :=
  maxRecords (reg s) = limit ∧
  (Z.of_nat (length (metrics (reg s)) + adding (workers s)) ≤
   Z.max 0 (limit - 2) + Z.of_nat (length (workers s)))%Z.

Lemma step_within limit s s' : within limit s → step s s' → within limit s' ∧ length (workers s') = length (workers s).
Proof.
  unfold within. intros [Hl Hb] Hstep.
  destruct Hstep as [r ws fl i m ms Hi _|r ws fl i m ms n Hi _ _ Hr|r r' ws fl i m ms l Hi Hr
    |r r' ws fl i m ms l Hi Hr|r r' ws fl i m ms Hi Hr|r r' ws l _ Hr|r r' ws l Hr]; cbn [reg workers flusher] in *;
    rewrite ?length_insert.
  - destruct (workers_insert ws i _ (mkWorker ms Idle) Hi) as (_ & _ & _ & Ha). cbn in Ha. split; [split|]; [done|lia|done].
  - unfold run, size in Hr. injection Hr as <-. split; [|done]. split; [done|].
    destruct (workers_insert ws i _ (mkWorker ms (if (maxRecords r <=? Z.of_nat (length (metrics r)) + 1)%Z then Full m else Adding m)) Hi)
      as (_ & _ & _ & Ha).
    pose proof (adding_le (<[i := mkWorker ms (Adding m)]> ws)) as Hle. rewrite length_insert in Hle.
    destruct (Z.leb_spec (maxRecords r) (Z.of_nat (length (metrics r)) + 1)); cbn in Ha |- *; lia.
  - unfold run, take in Hr. injection Hr as <- <-. split; [|done]. split; [done|].
    pose proof (adding_le (<[i := mkWorker ms (Sending (metrics r) m)]> ws)) as Hle. rewrite length_insert in Hle.
    cbn. lia.
  - destruct (send_sent _ _ _ Hr) as (_ & -> & ->).
    destruct (workers_insert ws i _ (mkWorker ms (Adding m)) Hi) as (_ & _ & _ & Ha). cbn in Ha. split; [split|]; [done|lia|done].
  - unfold run, addEntry in Hr. injection Hr as <-.
    destruct (workers_insert ws i _ (mkWorker ms Idle) Hi) as (_ & _ & _ & Ha). cbn in Ha |- *.
    rewrite length_app. cbn. split; [split|]; [done|lia|done].
  - unfold run, take in Hr. injection Hr as <- <-. cbn. split; [split|]; [done|lia|done].
  - destruct (send_sent _ _ _ Hr) as (_ & -> & ->). done.
Qed.

Definition start (limit : Z) (queues : list (list (message P))) : system P :=
  mkSystem (mkRegistry [] limit true []) ((λ q, mkWorker q Idle) <$> queues) None.

(** Goroutines that record metrics at the same time, with the periodic
    flush among them, lose nothing: when all calls have returned, the metrics
    sent to ACS and those still buffered are together exactly the module
    metrics recorded, each once; other messages are dropped.  At any moment the
    buffer holds at most [maxRecords - 2] metrics plus one per recording
    goroutine, so [maxRecords - 1] when there is one. *)
Theorem records_accounted (limit : Z) (queues : list (list (message P))) s :
  (2 ≤ limit)%Z → rtc step (start limit queues) s →
  (quiet s → concat (sent (reg s)) ++ moduleMetrics (metrics (reg s)) ≡ₚ moduleMetrics (concat queues)) ∧
  (Z.of_nat (length (metrics (reg s))) ≤ limit - 2 + Z.of_nat (length queues))%Z.
Proof.
  intros Hlim Hr.
  assert (Hinv : (collectionEnabled (reg s) = true ∧ accounted s ≡ₚ moduleMetrics (concat queues)) ∧
    within limit s ∧ length (workers s) = length queues).
  { apply (rtc_invariant step (λ s,
      (collectionEnabled (reg s) = true ∧ accounted s ≡ₚ moduleMetrics (concat queues)) ∧
      within limit s ∧ length (workers s) = length queues) (start limit queues)); [| |done].
    - intros a b [[He Ha] [Hw Hl]] Hab. destruct (step_accounted _ _ He Hab) as [He' Ha'].
      destruct (step_within _ _ _ Hw Hab) as [Hw' Hl']. split; [by rewrite Ha'|]. split; [done|congruence].
    - split; [split; [done|]|split; [split; [done|]|]].
      + unfold accounted, start. cbn [reg workers flusher sent metrics default]. rewrite app_nil_r.
        apply reflexive_eq. cbn. change (moduleMetrics []) with (@nil P). cbn.
        clear. induction queues as [|q qs IH]; [done|]. cbn. by rewrite moduleMetrics_app, <-IH.
      + cbn. rewrite length_fmap.
        enough (adding ((λ q, mkWorker q Idle) <$> queues) = 0) as -> by lia.
        clear. induction queues as [|q qs IH]; [done|]. exact IH.
      + cbn. by rewrite length_fmap. }
  destruct Hinv as [[_ Ha] [[_ Hb] Hl]]. split; [|lia].
  intros [Hq Hf]. rewrite <-Ha. unfold accounted. rewrite Hf. cbn. rewrite app_nil_r.
  enough (concat (worker_metrics <$> workers s) = []) as -> by by rewrite app_nil_r.
  clear -Hq. induction Hq as [|[td ph] ws [Ht Hp] _ IH]; [done|]. cbn in *. by subst.
Qed.

End lemmas.

(** One goroutine, a registry of two records: the second metric flushes the
    first. *)
Lemma records_accounted_witness :
  let queues := [[GuestAgentModuleMetric 1; OtherMessage; GuestAgentModuleMetric 2]] in
  ∃ s, (2 ≤ 2)%Z ∧ rtc step (start 2 queues) s ∧ quiet s ∧
    sent (reg s) = [[1]] ∧ metrics (reg s) = [GuestAgentModuleMetric 2] ∧
    (quiet s → concat (sent (reg s)) ++ moduleMetrics (metrics (reg s)) ≡ₚ moduleMetrics (concat queues)) ∧
    (Z.of_nat (length (metrics (reg s))) ≤ 2 - 2 + Z.of_nat (length queues))%Z.
Proof.
  intros queues. eexists. split; [done|].
  match goal with |- ?P ∧ _ => assert (H : P) end.
  { eapply rtc_l; [by eapply (step_check _ _ _ 0)|]. eapply rtc_l; [by eapply (step_add _ _ _ _ 0)|].
    eapply rtc_l; [eapply (step_ignore _ _ _ 0); [done|by right]|].
    eapply rtc_l; [by eapply (step_check _ _ _ 0)|]. eapply rtc_l; [by eapply (step_take _ _ _ _ 0)|].
    eapply rtc_l; [by eapply (step_send _ _ _ _ 0)|]. eapply rtc_l; [by eapply (step_add _ _ _ _ 0)|]. apply rtc_refl. }
  split; [exact H|]. split; [by repeat constructor|]. split; [reflexivity|]. split; [reflexivity|].
  apply (records_accounted 2 queues); [done|exact H].
Defined.

End MetricRegistry.
