(* ===== verification/MdsClient.v ===== *)
(** * internal/metadata: the client of the metadata server and its watcher

    metadata.go and event_watcher.go.  [Client] keeps the etag of the last long
    poll; [do] builds one HTTP request and classifies its outcome, [retry]
    wraps it in the retry loop of Retry.v, [GetKey], [GetKeyRecursive], [Get]
    and [Watch] are the calls, [Run] the watcher that turns them into events.
    The server is a parameter ([Do], acting on a world [W] together with the
    passing of time [wait]); what the documentation of the metadata server
    promises of a long poll is the class [LongPoll].  The theorems: what is
    requested and how often, and when a change of the metadata is seen. *)
From stdpp Require Import base list strings pretty.
From S2P Require Import Prelude.
From S2P Require Import GoStrings.
From S2P Require Import Retry.

Module MdsClient.

Definition defaultMetadataURL : string := "http://169.254.169.254/computeMetadata/v1/".
Definition defaultEtag : string := "NONE".
Definition defaultHangTimeout : Z := 60.
Definition DefaultUniverseDomain : string := "googleapis.com".
Definition backoffDuration : Z := (100 * Millisecond)%Z.
Definition backoffAttempts : Z := 100.
Definition StatusOK : Z := 200.

Record requestConfig := mkConfig {
  baseURL : string;
  hang : bool;
  recursive : bool;
  jsonOutput : bool;
  cfg_timeout : Z;
  headers : list (string * string);
}.

Record http_request := mkRequest {
  method : string;
  req_url : string;
  query : list (string * string);
  req_headers : list (string * string);
  req_body : string;
}.

Record http_response := mkResponse {
  StatusCode : Z;
  (** The [etag] header, empty when there is none. *)
  resp_etag : string;
  (** What reading the body yields. *)
  resp_body : result string;
}.

(** [Do] returns a response, an error, both or (the code checks) neither. *)
Record reply := mkReply { reply_resp : option http_response; reply_err : option error }.

Section client.
Context {W D : Type}.
Context (Do : http_request → M W reply) (wait : Z → M W (option error)) (ctx_Err : W → option error).
(** [url.Parse] on the URLs of the client. *)
Context (Parse : string → option error).
Context (UnmarshalDescriptor : string → result D).

Record Client := mkClient { metadataURL : string; etag : string }.
Record state := mkState { client : Client; world : W }.

Definition New : Client := mkClient defaultMetadataURL defaultEtag.

Definition on_world {A} : M W A → M state A := zoom world (λ w s, mkState (client s) w).
Definition set_etag e s := mkState (mkClient (metadataURL (client s)) e) (world s).

Definition updateEtag (resp : http_response) : M state bool :=
  old ← gets (λ s, etag (client s));
  let e := if decide (resp_etag resp = "") then defaultEtag else resp_etag resp in
  _ ← modify (set_etag e);
  mret (negb (bool_decide (e = old))).

Definition add_if (b : bool) (kv : string * string) : list (string * string) := if b then [kv] else [].

Definition values (cfg : requestConfig) (etag : string) : list (string * string) :=
  add_if (hang cfg) ("wait_for_change", "true") ++
  add_if (hang cfg) ("last_etag", etag) ++
  add_if (0 <? cfg_timeout cfg)%Z ("timeout_sec", pretty (cfg_timeout cfg)) ++
  add_if (recursive cfg) ("recursive", "true") ++
  add_if (jsonOutput cfg) ("alt", "json").

Definition request_of (cfg : requestConfig) (etag : string) : http_request :=
  mkRequest "GET" (baseURL cfg) (values cfg etag) (("Metadata-Flavor", "Google") :: headers cfg) "".

(** The response, when there is one, comes with the error too. *)
Definition do (cfg : requestConfig) : M state (option http_response * option error) :=
  match Parse (baseURL cfg) with
  | Some e => mret (None, Some (ErrWrap "failed to parse url" e))
  | None =>
      e ← gets (λ s, etag (client s));
      r ← on_world (Do (request_of cfg e));
      cancelled ← gets (λ s, ctx_Err (world s));
      match cancelled, reply_err r, reply_resp r with
      | Some e, _, resp => mret (resp, Some e)
      | None, Some e, resp => mret (resp, Some (ErrWrap "error connecting to metadata server" e))
      | None, None, None => mret (None, Some (ErrMsg "got nil response from metadata server"))
      | None, None, Some resp =>
          if negb (bool_decide (StatusCode resp = StatusOK)) then
            mret (Some resp, Some (ErrMsg "invalid response from metadata server"))
          else
            _ ← when (hang cfg) (_ ← updateEtag resp; mret tt);
            mret (Some resp, None)
      end
  end.

(** [MDSReqError] carries the status code, and wraps nothing. *)
Definition MDSReqError (status : Z) : error := ErrStatus status "request failed".

Definition shouldRetry (err : error) : bool :=
  match err with
  | ErrStatus status _ => negb (bool_decide (status = 404))%Z
  | _ => true
  end.

Definition policy : Retry.Policy :=
  Retry.mkPolicy backoffAttempts (float_of_Z 1) backoffDuration (Some shouldRetry) 0.

(** One attempt. *)
Definition attempt (cfg : requestConfig) : M state (string * option error) :=
  '(resp, err) ← do cfg;
  match err, resp with
  | Some _, Some r => mret ("", Some (MDSReqError (StatusCode r)))
  | Some _, None => mret ("", Some (MDSReqError (-1)))
  | None, Some r =>
      match resp_body r with
      | Ok md => mret (md, None)
      | Err e => mret ("", Some (ErrWrap "failed to read metadata server response bytes" e))
      end
  | None, None => panic
  end.

Definition retry (cfg : requestConfig) : M state (string * option error) :=
  r ← Retry.RunWithResponse "" (λ d, on_world (wait d)) (Z.to_nat backoffAttempts) policy (Some (attempt cfg));
  some_or_panic r.

Definition get_ (hang : bool) : M state (result D) :=
  u ← gets (λ s, metadataURL (client s));
  '(resp, err) ← retry (mkConfig u hang true true defaultHangTimeout []);
  match err with
  | Some e => mret (Err e)
  | None => mret (UnmarshalDescriptor resp)
  end.

Definition Watch : M state (result D) := get_ true.
Definition Get : M state (result D) := get_ false.

(** ** Single keys *)
Section keys.
(** [url.JoinPath]. *)
Context (JoinPath : string → list string → result string).

Definition GetKey (key : string) (hs : list (string * string)) : M state (string * option error) :=
  u ← gets (λ s, metadataURL (client s));
  match JoinPath u [key] with
  | Err e => mret ("", Some (ErrWrap "failed to form metadata url" e))
  | Ok reqURL => retry (mkConfig reqURL false false false 0 hs)
  end.

Definition GetKeyRecursive (key : string) : M state (string * option error) :=
  u ← gets (λ s, metadataURL (client s));
  match JoinPath u [key] with
  | Err e => mret ("", Some (ErrWrap "failed to form metadata url" e))
  | Ok reqURL => retry (mkConfig reqURL false true true 0 [])
  end.

Definition IsGDUUniverse : M state bool :=
  '(domain, err) ← GetKey "universe/universe-domain" [];
  match err with
  | None => mret (bool_decide (domain = DefaultUniverseDomain))
  | Some _ => mret true
  end.

Definition WriteGuestAttributes (key value : string) : M state (option error) :=
  u ← gets (λ s, metadataURL (client s));
  match JoinPath u ["instance/guest-attributes/"; key] with
  | Err e => mret (Some (ErrWrap "failed to form metadata url" e))
  | Ok finalURL =>
      r ← on_world (Do (mkRequest "PUT" finalURL [] [("Metadata-Flavor", "Google")] value));
      mret (reply_err r)
  end.

End keys.

(** ** The watcher *)
Record Watcher := mkWatcher { failedPrevious : bool; firstRun : bool }.

Definition NewWatcher : Watcher := mkWatcher false true.

(** [Run]; the third component says whether the error is logged. *)
Definition Run (mp : Watcher) : M state (Watcher * (bool * result D) * bool) :=
  r ← (if firstRun mp then Get else Watch);
  match r with
  | Err e => mret (mkWatcher true false, (true, Err e), negb (failedPrevious mp))
  | Ok d => mret (mkWatcher false false, (true, Ok d), false)
  end.

(** The events of a watcher whose process resumes in each of the worlds in
    turn: the descriptors and errors it reports. *)
Fixpoint run_in (mp : Watcher) (c : Client) (ws : list W) : option (list (result D)) :=
  match ws with
  | [] => Some []
  | w :: ws' =>
      '(s, (mp', (_, r), _)) ← Run mp (mkState c w);
      rest ← run_in mp' (client s) ws';
      Some (r :: rest)
  end.

(** ** The metadata server

    A world holds the current metadata and its etag.  As documented, a request
    is answered at once with both when it is not a long poll, or when the etag
    it passes is not the current one. *)
Class LongPoll (current : W → string * string) : Prop := {
  etag_nonempty w : (current w).1 ≠ "";
  answers w r :
    method r = "GET" → req_url r = defaultMetadataURL →
    ("last_etag", (current w).1) ∉ query r →
    Do r w = Some (w, mkReply (Some (mkResponse StatusOK (current w).1 (Ok (current w).2))) None);
}.

(** ** Lemmas *)
Section facts.
Implicit Types (s : state) (cfg : requestConfig).

Definition same_etag s s' : Prop := etag (client s') = etag (client s) ∧ metadataURL (client s') = metadataURL (client s).

#[global] Instance same_etag_preorder : PreOrder same_etag.
Proof. split; [done|]. intros ??? [??] [??]. split; congruence. Qed.

Lemma same_etag_world {A} (m : M W A) : respects same_etag (on_world m).
Proof. by apply respects_zoom. Qed.

Lemma same_etag_do cfg : hang cfg = false → respects same_etag (do cfg).
Proof.
  intros Hh. unfold do, when. rewrite Hh. pose proof @same_etag_world. respects_solve.
Qed.

Lemma same_etag_retry cfg : hang cfg = false → respects same_etag (retry cfg).
Proof.
  intros Hh. unfold retry. apply respects_bind; [typeclasses eauto| |intros ?; respects_solve].
  apply Retry.respects_RunWithResponse; [typeclasses eauto| |intros; apply same_etag_world].
  unfold attempt. pose proof (same_etag_do cfg Hh). respects_solve.
Qed.

(** An attempt that decides is the answer of the loop. *)
Lemma retry_ok cfg s s' md : attempt cfg s = Some (s', (md, None)) → retry cfg s = Some (s', (md, None)).
Proof.
  intros Ha. unfold retry, mbind, M_bind. change (Z.to_nat backoffAttempts) with (S 99).
  cbn [Retry.RunWithResponse Retry.retry_loop]. unfold mbind, M_bind. by rewrite Ha.
Qed.

(** The loop always comes to an answer. *)
Lemma total_do cfg : (∀ r, total (Do r)) → total (do cfg).
Proof.
  intros HD. unfold do, updateEtag. total_solve; by apply total_zoom.
Qed.

Lemma attempt_returns cfg : (∀ r, total (Do r)) → total (attempt cfg).
Proof.
  intros HD. unfold attempt. apply (total_bind_post (λ r : option http_response * option error, r.2 = None → is_Some r.1)).
  - intros s. unfold do. destruct (Parse (baseURL cfg)); [done|].
    apply wp_bind, wp_gets, wp_bind. eapply wp_total; [by apply total_zoom|]. intros r s1.
    apply wp_bind, wp_gets. destruct (ctx_Err (world s1)); [by apply wp_ret|].
    destruct (reply_err r); [by apply wp_ret|]. destruct (reply_resp r) as [resp|]; [|by apply wp_ret].
    destruct (negb _); [by apply wp_ret|]. apply wp_bind. eapply wp_total; [|intros ? ?; apply wp_ret; by eexists].
    unfold updateEtag. total_solve.
  - intros [[r|] [e|]] Hr; cbn in Hr |- *; total_solve. by destruct (Hr eq_refl).
Qed.

Lemma retry_returns cfg :
  (∀ r, total (Do r)) → (∀ d, total (wait d)) → total (retry cfg).
Proof.
  intros HD Hw s. unfold retry.
  enough (wp (Retry.RunWithResponse "" (λ d, on_world (wait d)) (Z.to_nat backoffAttempts) policy (Some (attempt cfg)) ≫=
    some_or_panic) (λ _ _, True) s) as Hwp.
  { unfold wp in Hwp. case_match; [by eexists|done]. }
  apply wp_bind. eapply wp_mono.
  - apply (Retry.wp_retry_loop (λ d, on_world (wait d)) (λ _ _, True) (λ _, True)); try done.
    + intros s1 _. eapply wp_total; [by apply attempt_returns|]. intros [? [e|]] s2; by split.
    + intros d s1 r _ _. eapply wp_total; [by apply total_zoom|]. intros [e|] s2; by split.
  - intros o s1 (r & -> & _). by apply wp_ret.
Qed.

End facts.

(** Calls to the metadata server always return, whatever the server does; only a long poll changes the etag the
    client keeps; and a key that does not exist is reported after the one
    request that found out, not retried. *)
Theorem metadata_calls_return cfg s :
  (∀ r, total (Do r)) → (∀ d, total (wait d)) →
  ∃ s' r, retry cfg s = Some (s', r) ∧
    (hang cfg = false → etag (client s') = etag (client s)) ∧
    (∀ s1, attempt cfg s = Some (s1, ("", Some (MDSReqError 404))) → s' = s1 ∧ is_Some r.2).
Proof.
  intros HD Hw. destruct (retry_returns cfg HD Hw s) as [[s' r] E]. exists s', r. split; [done|]. split.
  - intros Hh. by destruct (same_etag_retry cfg Hh _ _ _ E).
  - intros s1 Ha. unfold retry, mbind, M_bind in E. change (Z.to_nat backoffAttempts) with (S 99) in E.
    cbn [Retry.RunWithResponse Retry.retry_loop] in E. unfold mbind, M_bind in E. rewrite Ha in E. cbn in E.
    injection E as <- <-. split; [done|]. by eexists.
Qed.

(** ** Changes *)
Section changes.
Context (current : W → string * string) `{!LongPoll current}.
Hypothesis (live : ∀ w, ctx_Err w = None) (url_parses : Parse defaultMetadataURL = None).

Lemma do_answered (h : bool) e w :
  e ≠ (current w).1 ∨ h = false →
  do (mkConfig defaultMetadataURL h true true defaultHangTimeout []) (mkState (mkClient defaultMetadataURL e) w) =
  Some (mkState (mkClient defaultMetadataURL (if h then (current w).1 else e)) w,
        (Some (mkResponse StatusOK (current w).1 (Ok (current w).2)), None)).
Proof.
  intros He. unfold do. cbn [baseURL]. rewrite url_parses.
  unfold mbind, M_bind, gets, on_world, zoom. cbn [client etag world].
  rewrite (answers w); [|done|done|].
  - cbn [world reply_err reply_resp StatusCode]. rewrite live, bool_decide_true by done. cbn [negb hang].
    destruct h; [|done]. cbn [when]. unfold updateEtag, mbind, M_bind, modify, gets. cbn [resp_etag].
    rewrite decide_False by apply etag_nonempty. done.
  - cbn [query request_of]. unfold values. cbn [hang cfg_timeout recursive jsonOutput].
    destruct h; cbn; destruct He as [He|He]; try done; set_solver.
Qed.

Lemma get_answered (h : bool) e w :
  e ≠ (current w).1 ∨ h = false →
  get_ h (mkState (mkClient defaultMetadataURL e) w) =
  Some (mkState (mkClient defaultMetadataURL (if h then (current w).1 else e)) w, UnmarshalDescriptor (current w).2).
Proof.
  intros He. unfold get_, mbind, M_bind, gets. cbn [client metadataURL].
  erewrite retry_ok; [done|]. unfold attempt, mbind, M_bind. by rewrite do_answered.
Qed.

(** The etags of successive worlds differ. *)
Fixpoint all_change (e : string) (ws : list W) : Prop :=
  match ws with [] => True | w :: ws' => (current w).1 ≠ e ∧ all_change (current w).1 ws' end.

Lemma run_in_changes failed e ws :
  all_change e ws →
  run_in (mkWatcher failed false) (mkClient defaultMetadataURL e) ws =
  Some ((λ w, UnmarshalDescriptor (current w).2) <$> ws).
Proof.
  revert failed e. induction ws as [|w ws IH]; intros failed e Hc; [done|]. destruct Hc as [Hne Hc].
  cbn [run_in]. unfold Run, Watch, mbind, M_bind. cbn [firstRun].
  rewrite get_answered by (left; congruence).
  destruct (UnmarshalDescriptor (current w).2) eqn:E; cbn; rewrite IH by done; cbn; by rewrite E.
Qed.

(** C38. Against a server that answers long polls as documented, no change of
    the metadata is missed while the watcher was busy with the one before: the
    first call reports the metadata as it is when the watcher starts, and
    every later call made when the metadata is different from what the call
    before reported returns at once, with the metadata as it is then. *)
Theorem changes_are_reported w0 w1 ws :
  (current w1).1 ≠ defaultEtag → all_change (current w1).1 ws →
  run_in NewWatcher New (w0 :: w1 :: ws) =
  Some ((λ w, UnmarshalDescriptor (current w).2) <$> w0 :: w1 :: ws).
Proof.
  intros H1 Hc.
  change (run_in NewWatcher New (w0 :: w1 :: ws)) with
    ('(s, (mp', (_, r), _)) ← Run NewWatcher (mkState New w0);
     rest ← run_in mp' (client s) (w1 :: ws); Some (r :: rest)).
  assert (∃ f l, Run NewWatcher (mkState New w0) =
    Some (mkState New w0, (mkWatcher f false, (true, UnmarshalDescriptor (current w0).2), l))) as (f & l & ->).
  { unfold Run, Get, New, mbind, M_bind. cbn [firstRun NewWatcher]. rewrite get_answered by by right.
    destruct (UnmarshalDescriptor (current w0).2); by do 2 eexists. }
  cbn -[run_in New]. unfold New. by rewrite (run_in_changes f defaultEtag (w1 :: ws) (conj H1 Hc)).
Qed.

End changes.

(** A long poll whose answer arrives but cannot be read keeps the etag of
    that answer: the attempt fails and is retried, and the retry asks the
    server to wait for the change after the one that was never read. *)
Theorem failed_read_skips_change cfg s w r e :
  hang cfg = true → Parse (baseURL cfg) = None → resp_etag r ≠ "" → StatusCode r = StatusOK → resp_body r = Err e →
  Do (request_of cfg (etag (client s))) (world s) = Some (w, mkReply (Some r) None) → ctx_Err w = None →
  ∃ s' err, attempt cfg s = Some (s', ("", Some err)) ∧ shouldRetry err = true ∧
    ("last_etag", resp_etag r) ∈ query (request_of cfg (etag (client s'))).
Proof.
  intros Hh Hp Hr Hs Hb HD Hc. unfold attempt, do. rewrite Hp. unfold mbind, M_bind, gets, on_world, zoom.
  rewrite HD. cbn [world client reply_err reply_resp]. rewrite Hc, Hs, Hh, bool_decide_true by done. cbn [negb when].
  unfold updateEtag, mbind, M_bind, gets, modify. rewrite decide_False by done. cbn [mret M_ret]. rewrite Hb.
  eexists _, _. split; [done|]. split; [done|]. cbn [query request_of set_etag client etag]. unfold values. rewrite Hh. set_solver.
Qed.

End client.

Arguments state : clear implicits.

(** ** A server with two versions of the metadata *)
Section example.

Definition version (b : bool) : string * string := if b then ("e1", "one") else ("e2", "two").

Definition example_Do (r : http_request) : M bool reply := λ b,
  Some (b, mkReply (Some (mkResponse StatusOK (version b).1 (Ok (version b).2))) None).

#[local] Instance example_LongPoll : LongPoll example_Do version.
Proof. split; [by intros []|done]. Qed.

Definition missing_Do (r : http_request) : M bool reply := λ b,
  Some (b, mkReply (Some (mkResponse 404 "" (Ok "not found"))) None).

Definition no_wait (d : Z) : M bool (option error) := λ b, Some (b, None).

Lemma changes_are_reported_witness :
  run_in example_Do no_wait (λ _, None) (λ _, None) Ok NewWatcher New [true; true; false; true] =
  Some [Ok "one"; Ok "one"; Ok "two"; Ok "one"].
Proof.
  apply (changes_are_reported example_Do no_wait (λ _, None) (λ _, None) Ok version (λ _, eq_refl) eq_refl
    true true [false; true]); [done|by split_and!].
Defined.

Lemma metadata_calls_return_witness :
  let cfg := mkConfig "http://169.254.169.254/computeMetadata/v1/no-such-key" false false false 0 [] in
  ∃ s' r, retry missing_Do no_wait (λ _, None) (λ _, None) cfg (mkState New true) = Some (s', r) ∧
    (hang cfg = false → etag (client s') = defaultEtag) ∧
    (∀ s1, attempt missing_Do (λ _, None) (λ _, None) cfg (mkState New true) =
           Some (s1, ("", Some (MDSReqError 404))) → s' = s1 ∧ is_Some r.2).
Proof.
  intros cfg.
  apply (metadata_calls_return missing_Do no_wait (λ _, None) (λ _, None) cfg (mkState New true)); by eexists.
Defined.

Lemma failed_read_skips_change_witness :
  let cfg := mkConfig defaultMetadataURL true true true defaultHangTimeout [] in
  let broken := λ (_ : http_request) (b : bool),
    Some (b, mkReply (Some (mkResponse StatusOK (version b).1 (Err (ErrMsg "unexpected EOF")))) None) in
  ∃ s' err, attempt broken (λ _, None) (λ _, None) cfg (mkState New true) = Some (s', ("", Some err)) ∧
    shouldRetry err = true ∧
    ("last_etag", "e1") ∈ query (request_of cfg (etag (client s'))).
Proof.
  intros cfg broken.
  by apply (failed_read_skips_change broken (λ _, None) (λ _, None) cfg (mkState New true) true
    (mkResponse StatusOK "e1" (Err (ErrMsg "unexpected EOF"))) (ErrMsg "unexpected EOF")).
Defined.

End example.
End MdsClient.
