(* ===== verification/Os.v ===== *)
(** * The operating system the agent runs on

    Files, directories and symbolic links as a finite map from absolute
    cleaned paths, and the functions of Go's [os] package the agent calls.
    Every call takes one tick of the file system's clock and first asks a
    fault oracle (a parameter) whether it fails, so that every pattern of I/O
    errors is covered by the theorems that quantify over the oracle.  A
    component's state [S] reaches the file system through the [HasFS]
    interface. *)
From S2P Require Import Prelude GoStrings.

Inductive node :=
| NFile (data : string)
| NDir
| NLink (target : string).

#[global] Instance node_eq_dec : EqDecision node.
Proof. solve_decision. Defined.

Record fs := mkFs {
  nodes : gmap string node;
  ticks : nat;
}.

(** A failing call: its error, and for a write the content it left behind. *)
Record fault := mkFault {
  fault_err : error;
  fault_left : option string;
}.

(** What the [n]-th system call, named, on a path, does when it fails. *)
Class OsFaults := os_fault : nat → string → string → option fault.

Definition no_faults : OsFaults := λ _ _ _, None.

(** ** The interface between a component's state and the file system *)
Class HasFS (S : Type) := {
  fs_of : S → fs;
  set_fs : fs → S → S;
}.

Class LawfulFS (S : Type) `{HasFS S} := {
  fs_of_set_fs : ∀ f (s : S), fs_of (set_fs f s) = f;
  set_fs_set_fs : ∀ f g (s : S), set_fs f (set_fs g s) = set_fs f s;
  set_fs_of : ∀ s : S, set_fs (fs_of s) s = s;
}.

#[global] Instance fs_HasFS : HasFS fs := {| fs_of := λ f, f; set_fs := λ f _, f |}.
#[global] Instance fs_LawfulFS : LawfulFS fs.
Proof. done. Qed.

Definition ErrNotExist : error := ErrMsg "file does not exist".
Definition ErrIsDir : error := ErrMsg "is a directory".
Definition ErrExist : error := ErrMsg "file exists".
Definition ErrInvalid : error := ErrMsg "invalid argument".
Definition ErrNotEmpty : error := ErrMsg "directory not empty".

(** [errors.Is(err, os.ErrNotExist)]. *)
Definition IsNotExist (e : error) : bool :=
  errors_Is (λ e, match e with ErrMsg m => bool_decide (m = "file does not exist") | _ => false end) e.

(** The node a path names, links followed at most 40 times as Linux does. *)
Fixpoint resolve_link (hops : nat) (m : gmap string node) (p : string) : option (string * node) :=
  match m !! p with
  | Some (NLink t) =>
      match hops with
      | 0 => None
      | S n => resolve_link n m (if HasPrefix t "/" then Clean t else path_Join [Dir p; t])
      end
  | Some nd => Some (p, nd)
  | None => None
  end.

Definition resolve (m : gmap string node) (p : string) : option (string * node) :=
  resolve_link 40 m p.

#[global] Arguments resolve : simpl never.

(** The paths at and below [p]. *)
Definition below (p q : string) : bool :=
  bool_decide (q = p) || HasPrefix q (p +:+ "/").

(** The name of [q] in the directory [p], when it is a direct child. *)
Definition child_name (p q : string) : option string :=
  if HasPrefix q (p +:+ "/") then
    let n := TrimPrefix q (p +:+ "/") in
    if bool_decide (n = "") || Contains n "/" then None else Some n
  else None.

(** [os.MkdirAll] creates the missing ancestors too: all non-empty prefixes of
    the path's components. *)
Fixpoint ancestors (acc : string) (comps : list string) : list string :=
  match comps with
  | [] => []
  | c :: rest =>
      if bool_decide (c = "") then ancestors acc rest
      else let p := acc +:+ "/" +:+ c in p :: ancestors p rest
  end.

Definition make_dir (m : gmap string node) (p : string) : gmap string node :=
  match m !! p with Some _ => m | None => <[p := NDir]> m end.

(** ** The calls *)
Section calls.
Context {S : Type} `{HasFS S} `{OsFaults}.

Definition with_fs {A} (name path : string) (on_fault : fault → gmap string node → gmap string node * A)
    (k : gmap string node → gmap string node * A) : M S A := λ s,
  let f := fs_of s in
  let '(m, a) :=
    match os_fault (ticks f) name path with
    | Some ft => on_fault ft (nodes f)
    | None => k (nodes f)
    end in
  Some (set_fs (mkFs m (Datatypes.S (ticks f))) s, a).

Definition fail_result {A} (ft : fault) (m : gmap string node) : gmap string node * result A :=
  (m, Err (fault_err ft)).
Definition fail_err (ft : fault) (m : gmap string node) : gmap string node * option error :=
  (m, Some (fault_err ft)).

Definition os_ReadFile (p : string) : M S (result string) :=
  with_fs "read" p fail_result (λ m,
    (m, match resolve m p with
        | Some (_, NFile d) => Ok d
        | Some (_, _) => Err ErrIsDir
        | None => Err ErrNotExist
        end)).

(** The path written to is the target of a link. *)
Definition write_node (m : gmap string node) (p d : string) : gmap string node :=
  match resolve m p with
  | Some (q, _) => <[q := NFile d]> m
  | None => <[p := NFile d]> m
  end.

Definition os_WriteFile (p d : string) : M S (option error) :=
  with_fs "write" p
    (λ ft m, (match fault_left ft with Some d' => write_node m p d' | None => m end,
              Some (fault_err ft)))
    (λ m, match resolve m p with
          | Some (_, NDir) => (m, Some ErrIsDir)
          | _ => (write_node m p d, None)
          end).

Definition os_Remove (p : string) : M S (option error) :=
  with_fs "remove" p fail_err (λ m,
    match m !! p with
    | None => (m, Some ErrNotExist)
    | Some NDir =>
        if bool_decide (map_Forall (λ q _, child_name p q = None) m)
        then (delete p m, None) else (m, Some ErrNotEmpty)
    | Some _ => (delete p m, None)
    end).

Definition remove_below (p : string) (m : gmap string node) : gmap string node :=
  filter (λ kv, below p kv.1 = false) m.

Definition os_RemoveAll (p : string) : M S (option error) :=
  with_fs "removeall" p fail_err (λ m, (remove_below p m, None)).

Definition mkdir_all (p : string) (m : gmap string node) : gmap string node :=
  foldl make_dir m (ancestors "" (Split p slash)).

Definition os_MkdirAll (p : string) : M S (option error) :=
  with_fs "mkdirall" p fail_err (λ m, (mkdir_all p m, None)).

Definition os_Mkdir (p : string) : M S (option error) :=
  with_fs "mkdir" p fail_err (λ m,
    match m !! p with
    | Some _ => (m, Some ErrExist)
    | None => (<[p := NDir]> m, None)
    end).

Definition dir_entries (p : string) (m : gmap string node) : list (string * node) :=
  let found := omap (λ kv : string * node,
    match child_name p kv.1 with Some n => Some (n, kv.2) | None => None end) (map_to_list m) in
  (λ n, (n, default NDir (m !! (p +:+ "/" +:+ n)))) <$> sort_Strings found.*1.

(** [os.ReadDir]: the entries sorted by name. *)
Definition os_ReadDir (p : string) : M S (result (list (string * node))) :=
  with_fs "readdir" p fail_result (λ m,
    (m, match resolve m p with
        | Some (q, NDir) => Ok (dir_entries q m)
        | Some _ => Err (ErrMsg "not a directory")
        | None => Err ErrNotExist
        end)).

Definition os_Readlink (p : string) : M S (result string) :=
  with_fs "readlink" p fail_result (λ m,
    (m, match m !! p with
        | Some (NLink t) => Ok t
        | Some _ => Err ErrInvalid
        | None => Err ErrNotExist
        end)).

Definition os_Symlink (target p : string) : M S (option error) :=
  with_fs "symlink" p fail_err (λ m,
    match m !! p with
    | Some _ => (m, Some ErrExist)
    | None => (<[p := NLink target]> m, None)
    end).

(** [os.Rename] of a file or a link (the code renames no directory). *)
Definition os_Rename (old new : string) : M S (option error) :=
  with_fs "rename" old fail_err (λ m,
    match m !! old, m !! new with
    | None, _ => (m, Some ErrNotExist)
    | Some _, Some NDir => (m, Some ErrExist)
    | Some nd, _ => (<[new := nd]> (delete old m), None)
    end).

Definition os_Truncate (p : string) : M S (option error) :=
  with_fs "truncate" p fail_err (λ m,
    match resolve m p with
    | Some (q, NFile _) => (<[q := NFile ""]> m, None)
    | Some _ => (m, Some ErrIsDir)
    | None => (m, Some ErrNotExist)
    end).

Definition os_Stat (p : string) : M S (result node) :=
  with_fs "stat" p fail_result (λ m,
    (m, match resolve m p with Some (_, nd) => Ok nd | None => Err ErrNotExist end)).

End calls.

(** ** Lemmas *)
Section lemmas.
Context {S : Type} `{LawfulFS S} `{OsFaults}.
Implicit Types (s : S).

Lemma wp_with_fs {A} name p onf k (Q : A → S → Prop) s :
  (∀ ft, os_fault (ticks (fs_of s)) name p = Some ft →
     Q (onf ft (nodes (fs_of s))).2
       (set_fs (mkFs (onf ft (nodes (fs_of s))).1 (Datatypes.S (ticks (fs_of s)))) s)) →
  (os_fault (ticks (fs_of s)) name p = None →
     Q (k (nodes (fs_of s))).2
       (set_fs (mkFs (k (nodes (fs_of s))).1 (Datatypes.S (ticks (fs_of s)))) s)) →
  wp (with_fs name p onf k) Q s.
Proof.
  intros Hf Hk. unfold wp, with_fs.
  destruct (os_fault _ _ _) as [ft|] eqn:E.
  - specialize (Hf ft eq_refl). by destruct (onf ft _).
  - specialize (Hk eq_refl). by destruct (k _).
Qed.

(** A relation of the nodes that a call keeps, whether it fails or not. *)
Definition on_nodes (R : relation (gmap string node)) : relation S := λ s s',
  R (nodes (fs_of s)) (nodes (fs_of s')).

#[global] Instance on_nodes_preorder R `{!PreOrder R} : PreOrder (on_nodes R).
Proof. unfold on_nodes. split; [intros ?; reflexivity|]. intros ??? ??. by etrans. Qed.

Lemma respects_nodes (R : relation (gmap string node)) {A} name p onf (k : _ → _ * A) :
  (∀ ft m, R m (onf ft m).1) → (∀ m, R m (k m).1) →
  respects (on_nodes R) (with_fs name p onf k).
Proof.
  intros Hf Hk s s' a. unfold with_fs, on_nodes. destruct (os_fault _ _ _) as [ft|].
  - specialize (Hf ft (nodes (fs_of s))). destruct (onf _ _). intros [= <- _]. by rewrite fs_of_set_fs.
  - specialize (Hk (nodes (fs_of s))). destruct (k _). intros [= <- _]. by rewrite fs_of_set_fs.
Qed.

Lemma with_fs_no_fault {A} name p onf (k : _ → _ * A) s :
  os_fault (ticks (fs_of s)) name p = None →
  with_fs name p onf k s =
    Some (set_fs (mkFs (k (nodes (fs_of s))).1 (Datatypes.S (ticks (fs_of s)))) s,
          (k (nodes (fs_of s))).2).
Proof. intros E. unfold with_fs. rewrite E. by destruct (k _). Qed.

End lemmas.

(** ** The calls when nothing fails *)
Section fault_free.
Context {S : Type} `{LawfulFS S} `{OsFaults}.
Implicit Types (s : S).

(** The state after a call that leaves the nodes [m]. *)
Definition after (m : gmap string node) (s : S) : S :=
  set_fs (mkFs m (Datatypes.S (ticks (fs_of s)))) s.

Lemma nodes_after m s : nodes (fs_of (after m s)) = m.
Proof. unfold after. by rewrite fs_of_set_fs. Qed.

Lemma after_after m m' s :
  after m (after m' s) = set_fs (mkFs m (Datatypes.S (Datatypes.S (ticks (fs_of s))))) s.
Proof. unfold after. by rewrite fs_of_set_fs, set_fs_set_fs. Qed.

Hypothesis fault_free : ∀ n op p, os_fault n op p = None.

Lemma run_with_fs {A} name p onf (k : _ → _ * A) s :
  with_fs name p onf k s = Some (after (k (nodes (fs_of s))).1 s, (k (nodes (fs_of s))).2).
Proof. unfold after. by apply with_fs_no_fault. Qed.

End fault_free.

Lemma resolve_link_here hops m p nd :
  m !! p = Some nd → (∀ t, nd ≠ NLink t) → resolve_link hops m p = Some (p, nd).
Proof. intros E Hl. destruct hops, nd; simpl; rewrite E; try done; by destruct (Hl target). Qed.

Lemma resolve_link_none hops m p : m !! p = None → resolve_link hops m p = None.
Proof. intros E. destruct hops; simpl; by rewrite E. Qed.

Lemma resolve_file m p d : m !! p = Some (NFile d) → resolve m p = Some (p, NFile d).
Proof. intros E. by apply resolve_link_here. Qed.

Lemma resolve_dir m p : m !! p = Some NDir → resolve m p = Some (p, NDir).
Proof. intros E. by apply resolve_link_here. Qed.

Lemma resolve_none m p : m !! p = None → resolve m p = None.
Proof. apply resolve_link_none. Qed.

Lemma lookup_remove_below p q m :
  remove_below p m !! q = if below p q then None else m !! q.
Proof.
  unfold remove_below. destruct (below p q) eqn:E.
  - apply map_lookup_filter_None. right. intros x Hx. simpl. by rewrite E.
  - destruct (m !! q) as [x|] eqn:Hq.
    + by apply map_lookup_filter_Some.
    + apply map_lookup_filter_None. by left.
Qed.

Section fault_free_calls.
Context {S : Type} `{LawfulFS S} `{OsFaults}.
Context (fault_free : ∀ n op p, os_fault n op p = None).
Implicit Types (s : S).

Lemma run_ReadFile_file p d s :
  nodes (fs_of s) !! p = Some (NFile d) →
  os_ReadFile p s = Some (after (nodes (fs_of s)) s, Ok d).
Proof.
  intros E. unfold os_ReadFile. rewrite run_with_fs by done. simpl.
  by rewrite (resolve_file _ _ _ E).
Qed.

Lemma run_WriteFile_file p d d' s :
  nodes (fs_of s) !! p = Some (NFile d') →
  os_WriteFile p d s = Some (after (<[p := NFile d]> (nodes (fs_of s))) s, None).
Proof.
  intros E. unfold os_WriteFile. rewrite run_with_fs by done. unfold write_node. simpl.
  by rewrite (resolve_file _ _ _ E).
Qed.

Lemma run_WriteFile_new p d s :
  nodes (fs_of s) !! p = None →
  os_WriteFile p d s = Some (after (<[p := NFile d]> (nodes (fs_of s))) s, None).
Proof.
  intros E. unfold os_WriteFile. rewrite run_with_fs by done. unfold write_node. simpl.
  by rewrite (resolve_none _ _ E).
Qed.

Lemma run_Stat_file p d s :
  nodes (fs_of s) !! p = Some (NFile d) →
  os_Stat p s = Some (after (nodes (fs_of s)) s, Ok (NFile d)).
Proof.
  intros E. unfold os_Stat. rewrite run_with_fs by done. simpl. by rewrite (resolve_file _ _ _ E).
Qed.

Lemma run_Stat_none p s :
  nodes (fs_of s) !! p = None →
  os_Stat p s = Some (after (nodes (fs_of s)) s, Err ErrNotExist).
Proof.
  intros E. unfold os_Stat. rewrite run_with_fs by done. simpl. by rewrite (resolve_none _ _ E).
Qed.

End fault_free_calls.

(** ** [internal/utils/file]: the helpers shared by the components *)
Section file.
Context {S : Type} `{HasFS S} `{OsFaults}.

Inductive Type_ := TypeDir | TypeFile.

Definition Exists (fpath : string) (ftype : Type_) : M S bool :=
  r ← os_Stat fpath;
  mret (match r, ftype with
        | Ok NDir, TypeDir => true
        | Ok NDir, TypeFile => false
        | Ok _, TypeFile => true
        | _, _ => false
        end).

(** If the link does not exist it is created; if it points elsewhere it is
    replaced. *)
Definition UpdateSymlink (symlink target : string) : M S (option error) :=
  r ← os_Readlink symlink;
  match r with
  | Err e =>
      if IsNotExist e then os_Symlink target symlink
      else mret (Some (ErrWrap "unable to read symlink" e))
  | Ok currTarget =>
      if bool_decide (currTarget = target) then mret None
      else
        e ← os_Remove symlink;
        match e with
        | Some e => mret (Some (ErrWrap "failed to remove symlink" e))
        | None => os_Symlink target symlink
        end
  end.

End file.

Section file_lemmas.
Context {S : Type} `{LawfulFS S} `{OsFaults}.
Context (fault_free : ∀ n op p, os_fault n op p = None).
Implicit Types (s : S).

Lemma run_Exists_file p d s :
  nodes (fs_of s) !! p = Some (NFile d) →
  Exists p TypeFile s = Some (after (nodes (fs_of s)) s, true).
Proof.
  intros E. unfold Exists, mbind, M_bind. by rewrite (run_Stat_file fault_free _ _ _ E).
Qed.

Lemma run_Exists_none p t s :
  nodes (fs_of s) !! p = None →
  Exists p t s = Some (after (nodes (fs_of s)) s, false).
Proof.
  intros E. unfold Exists, mbind, M_bind. rewrite (run_Stat_none fault_free _ _ E). by destruct t.
Qed.

End file_lemmas.

(** ** Frames: what a call can change *)

(** A relation that does not look at the file system. *)
Class IgnoresFS {S} `{HasFS S} (R : relation S) := ignores_fs : ∀ f s, R s (set_fs f s).

Section frames.
Context {S : Type} `{HasFS S} `{OsFaults}.
Context (R : relation S) `{!PreOrder R} `{!IgnoresFS R}.

Lemma respects_with_fs {A} name p onf (k : gmap string node → gmap string node * A) :
  respects R (with_fs name p onf k).
Proof.
  intros s s' a. unfold with_fs. destruct (os_fault _ _ _);
    [destruct (onf _ _)|destruct (k _)]; intros [= <- _]; apply ignores_fs.
Qed.

Lemma respects_UpdateSymlink l t : respects R (UpdateSymlink l t).
Proof. unfold UpdateSymlink. respects_solve; apply respects_with_fs. Qed.

Lemma respects_Exists p t : respects R (Exists p t).
Proof. unfold Exists. respects_solve; apply respects_with_fs. Qed.

End frames.

Section totality.
Context {S : Type} `{HasFS S} `{OsFaults}.

Lemma total_with_fs {A} name p onf (k : gmap string node → gmap string node * A) :
  total (S := S) (with_fs name p onf k).
Proof.
  intros s. unfold with_fs. destruct (os_fault _ _ _); [destruct (onf _ _)|destruct (k _)]; by eexists.
Qed.

Lemma total_UpdateSymlink l t : total (S := S) (UpdateSymlink l t).
Proof. unfold UpdateSymlink. total_solve; apply total_with_fs. Qed.

Lemma total_Exists p t : total (S := S) (Exists p t).
Proof. unfold Exists. total_solve; apply total_with_fs. Qed.

End totality.

#[export] Hint Resolve respects_with_fs respects_UpdateSymlink respects_Exists : respects.
#[export] Hint Resolve total_with_fs total_UpdateSymlink total_Exists : total.
(** Every call of the [os] package is a [with_fs]. *)
#[export] Hint Extern 4 (respects _ _) => (apply respects_with_fs; typeclasses eauto) : respects.
#[export] Hint Extern 4 (total _) => (apply total_with_fs) : total.
