(* ===== verification/TextConfig.v ===== *)
(** * internal/textconfig: managed blocks in plain text configuration files

    The handle, its blocks and delimiters, and the operations of
    textconfig.go: [cleanup] strips the blocks between known delimiters and
    the deprecated entries, [Apply] rewrites the file with the managed blocks
    around what is left, [Cleanup] rolls the changes back.  [None] as a
    computation's outcome is the nil-pointer panic of a handle without
    delimiters. *)
From S2P Require Import Prelude GoStrings Os.

Module TextConfig.

(** [Position] is a Go [int]; [iota] starts the block at [DefaultSpacer], so
    [Top] is 1 and [Bottom] is 2. *)
Definition Position : Type := Z.
Definition DefaultSpacer : string := " ".
Definition Top : Position := 1%Z.
Definition Bottom : Position := 2%Z.

Record Entry := NewEntry { key : string; value : string }.

Definition format (en : Entry) (spacer : string) : string :=
  TrimSpace (key en +:+ spacer +:+ value en).

Record Block := mkBlock { entries : list Entry; position : Position }.

Definition NewBlock (pos : Position) : Block := mkBlock [] pos.
Definition Append (bl : Block) (k v : string) : Block :=
  mkBlock (entries bl ++ [NewEntry k v]) (position bl).

Record Delimiter := mkDelimiter { Start : string; End_ : string }.

(** A nil [delimiter] is dereferenced, hence a panic, once there are entries. *)
Definition lines (bl : Block) (delimiter : option Delimiter) (spacer : string)
    : option (list string) :=
  match entries bl with
  | [] => Some []
  | es =>
      d ← delimiter;
      Some ([Start d] ++ ((λ e, format e spacer) <$> es) ++ [End_ d])
  end.

Record Options := mkOptions {
  Delimiters : option Delimiter;
  KnownDelimiters : list (option Delimiter);
  AllDelimiters : list Delimiter;
  Spacer : string;
  DeprecatedEntries : list Entry;
}.

Record Handle := mkHandle {
  file : string;
  blocks : list Block;
  opts : Options;
}.

Definition New (f : string) (o : Options) : Handle :=
  let allDelimiters := Delimiters o :: KnownDelimiters o in
  mkHandle f []
    {| Delimiters := Delimiters o;
       KnownDelimiters := KnownDelimiters o;
       AllDelimiters := AllDelimiters o ++ omap id allDelimiters;
       Spacer := if bool_decide (Spacer o = "") then DefaultSpacer else Spacer o;
       DeprecatedEntries := DeprecatedEntries o |}.

Definition AddBlock (h : Handle) (bl : Block) : Handle :=
  mkHandle (file h) (blocks h ++ [bl]) (opts h).

Definition matchStart (h : Handle) (line : string) : bool :=
  existsb (λ dd, bool_decide (TrimSpace line = Start dd)) (AllDelimiters (opts h)).

Definition matchEnd (h : Handle) (line : string) : bool :=
  existsb (λ dd, bool_decide (TrimSpace line = End_ dd)) (AllDelimiters (opts h)).

Definition isDeprecated (h : Handle) (line : string) : bool :=
  existsb (λ en, HasPrefix (TrimSpace line) (key en) && HasSuffix (TrimSpace line) (value en))
    (DeprecatedEntries (opts h)).

(** The scan over the lines, with its [inBlock] flag. *)
Fixpoint cleanup_from (h : Handle) (inBlock : bool) (ls : list string) : list string :=
  match ls with
  | [] => []
  | line :: ls' =>
      if matchStart h line then cleanup_from h true ls'
      else if matchEnd h line then cleanup_from h false ls'
      else if inBlock then cleanup_from h inBlock ls'
      else if isDeprecated h line then cleanup_from h inBlock ls'
      else line :: cleanup_from h inBlock ls'
  end.

Definition cleanup (h : Handle) (ls : list string) : list string := cleanup_from h false ls.

Definition blocks_at (h : Handle) (pos : Position) : list Block :=
  filter (λ b, position b = pos) (blocks h).

(** The lines of the blocks, in the order they were added. *)
Definition block_lines (h : Handle) (bs : list Block) : option (list string) :=
  mjoin <$> mapM (λ b, lines b (Delimiters (opts h)) (Spacer (opts h))) bs.

Section operations.
Context {S : Type} `{HasFS S} `{OsFaults}.

Definition cleanupFile (h : Handle) : M S (option error) :=
  data ← os_ReadFile (file h);
  match data with
  | Err e => mret (Some (ErrFmt "failed to read file" e))
  | Ok data =>
      e ← os_WriteFile (file h) (Join (cleanup h (Split data nl)) (String nl ""));
      match e with
      | Some e => mret (Some (ErrFmt "failed to write file" e))
      | None => mret None
      end
  end.

Definition Cleanup (h : Handle) : M S (option error) :=
  exists_ ← Exists (file h) TypeFile;
  if negb exists_ then mret None else cleanupFile h.

(** The first half of [Apply]: the user's lines, or the error that ends it. *)
Definition userLines (h : Handle) : M S (result (list string)) :=
  exists_ ← Exists (file h) TypeFile;
  if negb exists_ then mret (Ok [])
  else
    e ← cleanupFile h;
    match e with
    | Some e => mret (Err (ErrFmt "failed to cleanup file" e))
    | None =>
        data ← os_ReadFile (file h);
        match data with
        | Err e => mret (Err (ErrFmt "failed to read file" e))
        | Ok data => mret (Ok (cleanup h (Split data nl)))
        end
    end.

Definition Apply (h : Handle) : M S (option error) :=
  cleanedup ← userLines h;
  match cleanedup with
  | Err e => mret (Some e)
  | Ok cleanedup =>
      match block_lines h (blocks_at h Top), block_lines h (blocks_at h Bottom) with
      | Some top, Some bottom =>
          e ← os_WriteFile (file h) (Join (top ++ cleanedup ++ bottom) (String nl ""));
          match e with
          | Some e => mret (Some (ErrFmt "failed to write file" e))
          | None => mret None
          end
      | _, _ => panic
      end
  end.

End operations.

(** ** What the file should contain *)

(** The lines [Apply] keeps from the previous content; [None] is a missing
    file.  An emptied file still splits into one empty line. *)
Definition kept_lines (h : Handle) (content : option string) : list string :=
  match content with
  | None => []
  | Some c => cleanup h (Split (Join (cleanup h (Split c nl)) (String nl "")) nl)
  end.

Definition applied (h : Handle) (content : option string) : option string :=
  top ← block_lines h (blocks_at h Top);
  bottom ← block_lines h (blocks_at h Bottom);
  Some (Join (top ++ kept_lines h content ++ bottom) (String nl "")).

(** A line the handle leaves alone outside a block. *)
Definition untouched (h : Handle) (line : string) : Prop :=
  matchStart h line = false ∧ matchEnd h line = false ∧ isDeprecated h line = false.

#[global] Instance untouched_dec h line : Decision (untouched h line).
Proof. unfold untouched. apply _. Defined.

(** A handle the agent can roll back: its delimiters are known to it, hold no
    new line and no surrounding space, a start is not an end, and no managed
    line is itself an end delimiter or spans lines. *)
Definition well_delimited (h : Handle) : Prop :=
  match Delimiters (opts h) with
  | None => Forall (λ b, entries b = []) (blocks h)
  | Some d =>
      matchStart h (Start d) = true ∧ matchStart h (End_ d) = false ∧ matchEnd h (End_ d) = true ∧
      lacks nl (Start d) ∧ lacks nl (End_ d) ∧
      Forall (λ b, Forall (λ e, matchEnd h (format e (Spacer (opts h))) = false
                              ∧ lacks nl (format e (Spacer (opts h)))) (entries b)) (blocks h)
  end.

#[global] Instance well_delimited_dec h : Decision (well_delimited h).
Proof. unfold well_delimited. case_match; apply _. Defined.

(** ** Lemmas *)
Lemma cleanup_from_untouched h b ls : Forall (untouched h) (cleanup_from h b ls).
Proof.
  revert b. induction ls as [|l ls IH]; intros b; simpl; [done|].
  repeat (case_match; try apply IH). constructor; [done|apply IH].
Qed.

Lemma cleanup_from_id h ls : Forall (untouched h) ls → cleanup_from h false ls = ls.
Proof.
  induction 1 as [|l ls (Hs & He & Hd) _ IH]; simpl; [done|].
  by rewrite Hs, He, Hd, IH.
Qed.

Lemma cleanup_from_app_untouched h ls ks :
  Forall (untouched h) ls → cleanup_from h false (ls ++ ks) = ls ++ cleanup_from h false ks.
Proof.
  induction 1 as [|l ls (Hs & He & Hd) _ IH]; simpl; [done|].
  by rewrite Hs, He, Hd, IH.
Qed.

(** Inside a block everything up to an end delimiter disappears. *)
Lemma cleanup_from_block h ls e ks :
  Forall (λ l, matchEnd h l = false) ls → matchStart h e = false → matchEnd h e = true →
  cleanup_from h true (ls ++ e :: ks) = cleanup_from h false ks.
Proof.
  intros HF Hs He. induction HF as [|l ls Hl _ IH]; simpl; [by rewrite Hs, He|].
  rewrite Hl, IH. by case_match.
Qed.

Lemma cleanup_lines h bl ls ks :
  well_delimited h → bl ∈ blocks h →
  lines bl (Delimiters (opts h)) (Spacer (opts h)) = Some ls →
  cleanup_from h false (ls ++ ks) = cleanup_from h false ks ∧ Forall (lacks nl) ls.
Proof.
  unfold well_delimited, lines. intros Hw Hbl Hl.
  destruct (Delimiters (opts h)) as [d|].
  - destruct Hw as (Hs & Hse & He & Hns & Hne & HF).
    rewrite Forall_forall in HF. specialize (HF bl Hbl).
    assert (Hfm : Forall (λ l, matchEnd h l = false ∧ lacks nl l)
      ((λ e, format e (Spacer (opts h))) <$> entries bl)) by (by apply Forall_fmap).
    destruct (entries bl) as [|en es]; [by simplify_eq|].
    revert Hfm Hl. generalize ((λ e, format e (Spacer (opts h))) <$> (en :: es)).
    intros fmts [Hme Hnl]%Forall_and Hl. simpl in Hl. simplify_eq. split.
    + simpl. rewrite Hs, <-app_assoc. simpl. by apply cleanup_from_block.
    + constructor; [done|]. apply Forall_app. by split; [|constructor].
  - rewrite Forall_forall in Hw. rewrite (Hw bl Hbl) in Hl. by simplify_eq.
Qed.

Lemma cleanup_block_lines h bs ls ks :
  well_delimited h → bs ⊆ blocks h → block_lines h bs = Some ls →
  cleanup_from h false (ls ++ ks) = cleanup_from h false ks ∧ Forall (lacks nl) ls.
Proof.
  unfold block_lines. intros Hw. revert ls.
  induction bs as [|b bs IH]; intros ls Hsub Hls; simpl in Hls; [by simplify_eq|].
  destruct (lines b _ _) as [l|] eqn:Hl; [|done]. simpl in Hls.
  destruct (mapM _ bs) as [rest|] eqn:Hr; [|done]. simplify_eq/=.
  destruct (IH (mjoin rest)) as [H1 H2]; [set_solver|done|].
  destruct (cleanup_lines h b l (mjoin rest ++ ks) Hw) as [H3 H4]; [set_solver|done|].
  split; [by rewrite <-app_assoc, H3, H1|by apply Forall_app].
Qed.

Lemma blocks_at_sub h pos : blocks_at h pos ⊆ blocks h.
Proof. intros b. unfold blocks_at. by intros [_ ?]%list_elem_of_filter. Qed.

Lemma kept_lines_untouched h c : Forall (untouched h) (kept_lines h c).
Proof. destruct c; simpl; [apply cleanup_from_untouched|done]. Qed.

Lemma cleanup_from_sub h b ls : cleanup_from h b ls ⊆ ls.
Proof.
  revert b. induction ls as [|l ls IH]; intros b; simpl; [done|].
  repeat case_match; try (etrans; [apply IH|set_solver]).
  apply list_subseteq_skip, IH.
Qed.

Lemma kept_lines_lacks h c : Forall (lacks nl) (kept_lines h c).
Proof.
  destruct c as [c|]; simpl; [|done]. apply Forall_forall. intros x Hx.
  apply cleanup_from_sub in Hx. revert x Hx. apply Forall_forall, Split_lacks.
Qed.

(** Splitting the joined lines gives them back; an empty list gives the empty
    line. *)
Definition resplit (ls : list string) : list string :=
  match ls with [] => [""] | _ => ls end.

Lemma Split_Join_resplit ls :
  Forall (lacks nl) ls → Split (Join ls (String nl "")) nl = resplit ls.
Proof. intros HF. destruct ls as [|l ls]; [done|]. by apply Split_Join. Qed.

Lemma cleanup_resplit h ls :
  Forall (untouched h) ls →
  cleanup h (resplit ls) = match ls with [] => cleanup h [""] | _ => ls end.
Proof. intros HF. destruct ls; [done|]. by apply cleanup_from_id. Qed.

Lemma cleanup_applied_lines h c top bottom :
  well_delimited h →
  block_lines h (blocks_at h Top) = Some top → block_lines h (blocks_at h Bottom) = Some bottom →
  cleanup h (top ++ kept_lines h c ++ bottom) = kept_lines h c
  ∧ Forall (lacks nl) (top ++ kept_lines h c ++ bottom).
Proof.
  intros Hw Ht Hb.
  destruct (cleanup_block_lines h _ top (kept_lines h c ++ bottom) Hw (blocks_at_sub h _) Ht) as [H1 H2].
  destruct (cleanup_block_lines h _ bottom [] Hw (blocks_at_sub h _) Hb) as [H3 H4].
  rewrite app_nil_r in H3. split.
  - unfold cleanup. rewrite H1, cleanup_from_app_untouched by apply kept_lines_untouched.
    by rewrite H3, app_nil_r.
  - rewrite !Forall_app. split_and!; [done|apply kept_lines_lacks|done].
Qed.

(** The kept lines of an applied file: nothing is lost, and an empty file is
    one empty line, unless the handle strips it. *)
Lemma kept_lines_applied h c out :
  well_delimited h → applied h c = Some out →
  kept_lines h (Some out) = match kept_lines h c with [] => cleanup h [""] | ls => ls end.
Proof.
  unfold applied. intros Hw Ha.
  destruct (block_lines h (blocks_at h Top)) as [top|] eqn:Ht; [|done].
  destruct (block_lines h (blocks_at h Bottom)) as [bottom|] eqn:Hb; simplify_eq/=.
  destruct (cleanup_applied_lines h c top bottom Hw Ht Hb) as [H1 H2].
  rewrite (Split_Join_resplit _ H2).
  assert (Hc : cleanup h (resplit (top ++ kept_lines h c ++ bottom)) = kept_lines h c
             ∨ kept_lines h c = [] ∧
               cleanup h (resplit (top ++ kept_lines h c ++ bottom)) = cleanup h [""]).
  { destruct (top ++ kept_lines h c ++ bottom) as [|x xs] eqn:E; simpl.
    - apply app_eq_nil in E as [_ [E _]%app_eq_nil]. by right.
    - left. by rewrite <-H1. }
  assert (HF : Forall (lacks nl) (cleanup h [""])).
  { apply Forall_forall. intros x Hx. apply cleanup_from_sub in Hx.
    apply list_elem_of_singleton in Hx as ->. by vm_compute; intros ?%not_elem_of_nil. }
  destruct Hc as [->|[-> ->]].
  - rewrite Split_Join_resplit by apply kept_lines_lacks.
    rewrite cleanup_resplit by apply kept_lines_untouched. by destruct (kept_lines h c).
  - rewrite Split_Join_resplit by done. rewrite cleanup_resplit by apply cleanup_from_untouched.
    by destruct (cleanup h [""]).
Qed.

Lemma block_lines_total h bs :
  well_delimited h → bs ⊆ blocks h → is_Some (block_lines h bs).
Proof.
  intros Hw Hsub. unfold block_lines. apply fmap_is_Some, mapM_is_Some, Forall_forall.
  intros b Hb%Hsub. unfold compose, lines, well_delimited in *.
  destruct (Delimiters (opts h)) as [d|]; [destruct (entries b); eexists; reflexivity|].
  rewrite Forall_forall in Hw. rewrite (Hw b Hb). eexists; reflexivity.
Qed.

Lemma applied_total h c : well_delimited h → is_Some (applied h c).
Proof.
  intros Hw. unfold applied.
  destruct (block_lines_total h _ Hw (blocks_at_sub h Top)) as [? ->].
  destruct (block_lines_total h _ Hw (blocks_at_sub h Bottom)) as [? ->]. eexists; reflexivity.
Qed.

Section runs.
Context {S : Type} `{LawfulFS S} `{OsFaults}.
Context (fault_free : ∀ n op p, os_fault n op p = None).
Implicit Types (s : S).

Lemma run_cleanupFile h c s :
  nodes (fs_of s) !! file h = Some (NFile c) →
  ∃ s', cleanupFile h s = Some (s', None) ∧
    nodes (fs_of s') =
      <[file h := NFile (Join (cleanup h (Split c nl)) (String nl ""))]> (nodes (fs_of s)).
Proof.
  intros E. unfold cleanupFile, mbind, M_bind.
  rewrite (run_ReadFile_file fault_free _ _ _ E).
  rewrite (run_WriteFile_file fault_free _ _ c) by (rewrite nodes_after; exact E).
  eexists; split; [done|]. by rewrite !nodes_after.
Qed.

Lemma run_Cleanup h c s :
  nodes (fs_of s) !! file h = Some (NFile c) →
  ∃ s', Cleanup h s = Some (s', None) ∧
    nodes (fs_of s') =
      <[file h := NFile (Join (cleanup h (Split c nl)) (String nl ""))]> (nodes (fs_of s)).
Proof.
  intros E. unfold Cleanup. unfold mbind at 1, M_bind.
  rewrite (run_Exists_file fault_free _ _ _ E). simpl.
  destruct (run_cleanupFile h c (after (nodes (fs_of s)) s)) as (s' & -> & Hs');
    [by rewrite nodes_after|]. exists s'. by rewrite Hs', nodes_after.
Qed.

(** The content of the handle's file, [None] when it does not exist. *)
Definition content_of (h : Handle) (s : S) (c : option string) : Prop :=
  nodes (fs_of s) !! file h = NFile <$> c.

Lemma run_userLines h c s :
  content_of h s c →
  ∃ s', userLines h s = Some (s', Ok (kept_lines h c)) ∧
    (∀ d, <[file h := NFile d]> (nodes (fs_of s')) = <[file h := NFile d]> (nodes (fs_of s))) ∧
    (∃ c', content_of h s' c').
Proof.
  unfold content_of. intros E. unfold userLines. unfold mbind at 1, M_bind.
  destruct c as [c|]; simpl in E.
  - rewrite (run_Exists_file fault_free _ _ _ E). simpl. unfold mbind at 1, M_bind.
    destruct (run_cleanupFile h c (after (nodes (fs_of s)) s)) as (s' & -> & Hs');
      [by rewrite nodes_after|]. rewrite nodes_after in Hs'.
    unfold mbind, M_bind.
    rewrite (run_ReadFile_file fault_free _ (Join (cleanup h (Split c nl)) (String nl "")))
      by (rewrite Hs'; apply lookup_insert_eq).
    eexists; split; [done|]. rewrite nodes_after, Hs'.
    split; [intros d; by rewrite insert_insert_eq|].
    eexists (Some _). by rewrite lookup_insert_eq.
  - rewrite (run_Exists_none fault_free _ _ _ E). simpl. eexists; split; [done|].
    rewrite nodes_after. split; [done|]. exists None. by rewrite E.
Qed.

Lemma run_Apply h c out s :
  content_of h s c → applied h c = Some out →
  ∃ s', Apply h s = Some (s', None) ∧
    nodes (fs_of s') = <[file h := NFile out]> (nodes (fs_of s)).
Proof.
  intros Hc Ha. destruct (run_userLines h c s Hc) as (s1 & Hu & Hins & c1 & Hc1).
  unfold applied in Ha. unfold Apply. unfold mbind at 1, M_bind. rewrite Hu.
  destruct (block_lines h (blocks_at h Top)) as [top|]; [|done].
  destruct (block_lines h (blocks_at h Bottom)) as [bottom|]; simplify_eq/=.
  unfold mbind, M_bind, content_of in *. destruct c1 as [c1|]; simpl in Hc1.
  - rewrite (run_WriteFile_file fault_free _ _ _ _ Hc1).
    eexists; split; [done|]. by rewrite nodes_after.
  - rewrite (run_WriteFile_new fault_free _ _ _ Hc1).
    eexists; split; [done|]. by rewrite nodes_after.
Qed.

End runs.

Lemma kept_lines_empty h c : kept_lines h (Some c) = [] → cleanup h [""] = [].
Proof.
  simpl. intros E.
  assert (HF : Forall (lacks nl) (cleanup h (Split c nl))).
  { apply Forall_forall. intros x Hx%cleanup_from_sub.
    revert x Hx. apply Forall_forall, Split_lacks. }
  rewrite (Split_Join_resplit _ HF) in E.
  rewrite cleanup_resplit in E by apply cleanup_from_untouched.
  by destruct (cleanup h (Split c nl)).
Qed.

Lemma applied_fixpoint h c out :
  well_delimited h → applied h (Some c) = Some out → applied h (Some out) = Some out.
Proof.
  intros Hw Ha. pose proof (kept_lines_applied h (Some c) out Hw Ha) as Hk.
  assert (Hk' : kept_lines h (Some out) = kept_lines h (Some c)).
  { rewrite Hk. destruct (kept_lines h (Some c)) eqn:E; [|done]. by apply kept_lines_empty in E. }
  revert Ha. unfold applied. by rewrite Hk'.
Qed.

Lemma kept_lines_all_untouched h c :
  Forall (untouched h) (Split c nl) → kept_lines h (Some c) = Split c nl.
Proof.
  intros HF. simpl. unfold cleanup. rewrite (cleanup_from_id h _ HF), Join_Split.
  by apply cleanup_from_id.
Qed.

(** Rolling back a file that was applied over content it did not touch. *)
Lemma cleanup_applied_untouched h c out :
  well_delimited h → Forall (untouched h) (Split c nl) → applied h (Some c) = Some out →
  Join (cleanup h (Split out nl)) (String nl "") = c.
Proof.
  intros Hw HF. pose proof (kept_lines_all_untouched h c HF) as Hk. unfold applied.
  destruct (block_lines h (blocks_at h Top)) as [top|] eqn:Ht; [|done].
  destruct (block_lines h (blocks_at h Bottom)) as [bottom|] eqn:Hb; [|done].
  intros Ho. cbn [mbind option_bind] in Ho. injection Ho as <-.
  change (cleanup h (Split (Join (cleanup h (Split c nl)) (String nl "")) nl))
    with (kept_lines h (Some c)).
  destruct (cleanup_applied_lines h (Some c) top bottom Hw Ht Hb) as [H1 H2].
  rewrite (Split_Join_resplit _ H2).
  assert (resplit (top ++ kept_lines h (Some c) ++ bottom)
          = top ++ kept_lines h (Some c) ++ bottom) as ->.
  { rewrite Hk. pose proof (Split_nonempty c nl).
    by destruct top, (Split c nl). }
  by rewrite H1, Hk, Join_Split.
Qed.

Section properties.
Context {S : Type} `{LawfulFS S} `{OsFaults}.

(** Without I/O errors, applying a configuration writes exactly the
    managed blocks around the kept user lines, changes no other file, and a
    second application changes nothing at all. *)
Theorem Apply_idempotent (h : Handle) (c : string) (s : S) :
  (∀ n op p, os_fault n op p = None) → well_delimited h →
  nodes (fs_of s) !! file h = Some (NFile c) →
  ∃ out s1 s2,
    applied h (Some c) = Some out ∧
    Apply h s = Some (s1, None) ∧
    nodes (fs_of s1) = <[file h := NFile out]> (nodes (fs_of s)) ∧
    Apply h s1 = Some (s2, None) ∧
    nodes (fs_of s2) = nodes (fs_of s1).
Proof.
  intros Hff Hw Hc. destruct (applied_total h (Some c) Hw) as [out Ha].
  destruct (run_Apply Hff h (Some c) out s Hc Ha) as (s1 & Hr1 & Hn1).
  destruct (run_Apply Hff h (Some out) out s1) as (s2 & Hr2 & Hn2).
  - unfold content_of. by rewrite Hn1, lookup_insert_eq.
  - by apply (applied_fixpoint h c).
  - exists out, s1, s2. split_and!; try done. by rewrite Hn2, Hn1, insert_insert_eq.
Qed.

(** C27. Rolling back restores the file: over content that holds none of the
    managed lines, [Apply] followed by [Cleanup] leaves every file of the
    system exactly as it was. *)
Theorem Apply_Cleanup_restores (h : Handle) (c : string) (s : S) :
  (∀ n op p, os_fault n op p = None) → well_delimited h →
  Forall (untouched h) (Split c nl) →
  nodes (fs_of s) !! file h = Some (NFile c) →
  ∃ s1 s2,
    Apply h s = Some (s1, None) ∧ Cleanup h s1 = Some (s2, None) ∧
    nodes (fs_of s2) = nodes (fs_of s).
Proof.
  intros Hff Hw HF Hc. destruct (applied_total h (Some c) Hw) as [out Ha].
  destruct (run_Apply Hff h (Some c) out s Hc Ha) as (s1 & Hr1 & Hn1).
  destruct (run_Cleanup Hff h out s1) as (s2 & Hr2 & Hn2); [by rewrite Hn1, lookup_insert_eq|].
  exists s1, s2. split_and!; try done.
  rewrite Hn2, Hn1, insert_insert_eq, (cleanup_applied_untouched h c out) by done.
  by apply insert_id.
Qed.

End properties.

(** A configuration of the kind the OS Login module writes. *)
Definition example_handle : Handle :=
  AddBlock
    (AddBlock
      (New "/etc/f" (mkOptions (Some (mkDelimiter "#start" "#end")) [] [] "" []))
      (Append (NewBlock Top) "Key" "value"))
    (Append (NewBlock Bottom) "Match" "all").

Definition example_fs : fs := mkFs {["/etc/f" := NFile "a b"]} 0.

Example applied_example :
  applied example_handle (Some "a b") =
  Some (Join ["#start"; "Key value"; "#end"; "a b"; "#start"; "Match all"; "#end"] (String nl "")).
Proof. vm_compute. reflexivity. Qed.

Lemma Apply_idempotent_witness :
  ∃ s1 s2, @Apply fs _ no_faults example_handle example_fs = Some (s1, None) ∧
    @Apply fs _ no_faults example_handle s1 = Some (s2, None) ∧ nodes (fs_of s2) = nodes (fs_of s1).
Proof.
  destruct (@Apply_idempotent fs _ _ no_faults example_handle "a b" example_fs) as
    (out & s1 & s2 & _ & H1 & _ & H2 & H3);
    [done|apply (bool_decide_unpack _); vm_compute; exact I|vm_compute; reflexivity|].
  exists s1, s2. auto.
Defined.

Lemma Apply_Cleanup_restores_witness :
  ∃ s1 s2, @Apply fs _ no_faults example_handle example_fs = Some (s1, None) ∧
    @Cleanup fs _ no_faults example_handle s1 = Some (s2, None) ∧ nodes (fs_of s2) = nodes (fs_of example_fs).
Proof.
  apply (@Apply_Cleanup_restores fs _ _ no_faults example_handle "a b" example_fs);
    [done|apply (bool_decide_unpack _); vm_compute; exact I
    |apply (bool_decide_unpack _); vm_compute; exact I|vm_compute; reflexivity].
Defined.

End TextConfig.
