(* ===== verification/FileUtil.v ===== *)
(** * internal/utils/file: archives and the tails of log files

    The helpers of file.go that are more than one system call.  The gzip and
    tar readers are third-party to the repository: [Archives] gives the entries
    an archive's bytes decode to.  [os.Root] refuses what leaves its directory;
    a symbolic link met below it counts as leaving it. *)
From S2P Require Import Prelude GoStrings Os.

Module FileUtil.

(** [tar.TypeDir], [tar.TypeSymlink], and the rest, copied as regular files. *)
Inductive typeflag := TypeDir_ | TypeSymlink (linkname : string) | TypeReg.

Record tar_entry := mkEntry {
  hdr_name : string;
  hdr_type : typeflag;
  (** What [io.Copy] reads from the entry before it ends or fails. *)
  hdr_content : string;
  hdr_copy_err : option error;
}.

(** Decoding an archive: [gzip.NewReader] may fail at once; otherwise the
    entries up to the end ([None]) or up to a failing [tr.Next]. *)
Class Archives :=
  targz_entries : string → result (list tar_entry * option error).

(** [filepath.IsLocal] on Unix. *)
Definition IsLocal (path : string) : bool :=
  negb (bool_decide (path = "")) && negb (HasPrefix path "/") &&
  negb (bool_decide (Clean path = "..")) && negb (HasPrefix (Clean path) "../").

(** The path of [name] in the opened directory [dest]. *)
Definition root_path (dest name : string) : string := TrimSuffix dest "/" +:+ "/" +:+ name.

(** The directories from [dest] (excluded) to [dest/name], outermost first. *)
Definition under (dest name : string) : list string :=
  ancestors (TrimSuffix dest "/") (Split name slash).

Definition is_link (m : gmap string node) (p : string) : bool :=
  match m !! p with Some (NLink _) => true | _ => false end.

Definition ErrEscapes : error := ErrMsg "path escapes from parent".

Definition is_file (m : gmap string node) (p : string) : bool :=
  match m !! p with Some (NFile _) => true | _ => false end.

Definition ErrNotDir : error := ErrMsg "not a directory".

(** What [os.Root] checks before touching the cleaned [name] below [dest]: a
    cleaned path that still has a parent reference, or is absolute, escapes. *)
Definition root_check (dest name : string) (m : gmap string node) : option error :=
  if HasPrefix name "/" || bool_decide (".." ∈ Split name slash) then Some ErrEscapes
  else if existsb (is_link m) (under dest name) then Some ErrEscapes
  else None.

Section operations.
Context {S : Type} `{HasFS S} `{OsFaults} `{Archives}.

Definition root_MkdirAll (dest name : string) : M S (option error) :=
  with_fs "rootmkdirall" (root_path dest name) fail_err (λ m,
    match root_check dest name m with
    | Some e => (m, Some e)
    | None =>
        if existsb (is_file m) (under dest name) then (m, Some ErrNotDir)
        else (foldl make_dir m (under dest name), None)
    end).

(** [root.OpenFile(name, O_CREATE|O_RDWR|O_TRUNC, mode)]: the file is emptied. *)
Definition root_OpenFile (dest name : string) : M S (option error) :=
  with_fs "rootopen" (root_path dest name) fail_err (λ m,
    match root_check dest name m with
    | Some e => (m, Some e)
    | None =>
        match m !! root_path dest name with
        | Some NDir => (m, Some ErrIsDir)
        | _ => (<[root_path dest name := NFile ""]> m, None)
        end
    end).

(** Writing what [io.Copy] read; a fault leaves part of it behind. *)
Definition file_Write (p content : string) : M S (option error) :=
  with_fs "copy" p
    (λ ft m, (match fault_left ft with Some d => <[p := NFile d]> m | None => m end,
              Some (fault_err ft)))
    (λ m, (<[p := NFile content]> m, None)).

Definition file_Close (p : string) : M S (option error) :=
  with_fs "close" p fail_err (λ m, (m, None)).

Definition os_Open (p : string) : M S (result string) :=
  with_fs "open" p fail_result (λ m,
    (m, match resolve m p with
        | Some (_, NFile d) => Ok d
        | Some (_, _) => Err ErrIsDir
        | None => Err ErrNotExist
        end)).

(** The [default:] case of the loop: the entry as a regular file. *)
Definition unpack_file (dest name : string) (hdr : tar_entry) : M S (option error) :=
  let entryPath := root_path dest name in
  e ← (if bool_decide (Dir name = ".") then mret None else root_MkdirAll dest (Dir name));
  match e with
  | Some e => mret (Some (ErrWrap "failed to create directory" e))
  | None =>
      e ← root_OpenFile dest name;
      match e with
      | Some e => mret (Some (ErrWrap "failed to open file" e))
      | None =>
          e ← file_Write entryPath (hdr_content hdr);
          match e with
          | Some e => _ ← file_Close entryPath; mret (Some (ErrWrap "failed to copy contents to the file" e))
          | None =>
              match hdr_copy_err hdr with
              | Some e => _ ← file_Close entryPath; mret (Some (ErrWrap "failed to copy contents to the file" e))
              | None =>
                  e ← file_Close entryPath;
                  match e with
                  | Some e => mret (Some (ErrWrap "failed to close file" e))
                  | None => mret None
                  end
              end
          end
      end
  end.

(** One iteration on a header; [None] goes on to the next entry. *)
Definition unpack_entry (dest : string) (hdr : tar_entry) : M S (option error) :=
  if negb (IsLocal (hdr_name hdr)) then
    mret (Some (ErrMsg "illegal file path in archive: escapes destination directory"))
  else
    let name := Clean (hdr_name hdr) in
    match hdr_type hdr with
    | TypeDir_ =>
        if bool_decide (name = ".") then mret None
        else
          e ← root_MkdirAll dest name;
          match e with
          | Some e => mret (Some (ErrWrap "failed to create directory" e))
          | None => mret None
          end
    | TypeSymlink _ => mret (Some (ErrMsg "unsupported symlink in archive"))
    | TypeReg => unpack_file dest name hdr
    end.

Fixpoint unpack_entries (dest : string) (hdrs : list tar_entry) (last : option error)
    : M S (option error) :=
  match hdrs with
  | [] => mret (ErrWrap "failed to read next tar entry" <$> last)
  | hdr :: rest =>
      e ← unpack_entry dest hdr;
      match e with
      | Some e => mret (Some e)
      | None => unpack_entries dest rest last
      end
  end.

Definition UnpackTargzFile (src dest : string) : M S (option error) :=
  let dest := Clean dest in
  e ← os_MkdirAll dest;
  match e with
  | Some e => mret (Some (ErrWrap "failed to create directory" e))
  | None =>
      r ← os_Stat dest;
      match r with
      | Err e => mret (Some (ErrWrap "failed to open destination root" e))
      | Ok _ =>
          data ← os_Open src;
          match data with
          | Err e => mret (Some (ErrWrap "failed to open file" e))
          | Ok data =>
              match targz_entries data with
              | Err e => mret (Some (ErrWrap "failed to create gzip reader for file" e))
              | Ok (hdrs, last) => unpack_entries dest hdrs last
              end
          end
      end
  end.

(** ** The last lines of a file *)

(** The loop of [countLastNLinesBytes], from the last byte backwards. *)
Fixpoint count_loop (rdata : bytes) (seenLines result : Z) : Z :=
  match rdata with
  | [] => result
  | b :: rest =>
      let result := (result + 1)%Z in
      let seenLines := if beqb b nl then (seenLines - 1)%Z else seenLines in
      if (seenLines =? 0)%Z then result else count_loop rest seenLines result
  end.

Definition countLastNLinesBytes (data : bytes) (n : Z) : Z := count_loop (rev data) n 0.

(** The scan of one buffer from its end: [inr] is the early return. *)
Fixpoint scan_buffer (n : Z) (rbuf : bytes) (lines : list string) (chunk : bytes)
    : (list string * bytes) + list string :=
  match rbuf with
  | [] => inl (lines, chunk)
  | b :: rest =>
      if beqb b nl then
        let lines := of_bytes chunk :: lines in
        if (n <=? Z.of_nat (length lines))%Z then inr lines
        else scan_buffer n rest lines []
      else scan_buffer n rest lines (b :: chunk)
  end.

(** The loop over the offsets; [None] when the fuel runs out. *)
Fixpoint read_loop (fuel : nat) (data : bytes) (n bufferSize offset : Z)
    (lines : list string) (chunk : bytes) : option (list string) :=
  if (offset <? 0)%Z then Some lines
  else
    match fuel with
    | O => None
    | Datatypes.S fuel =>
        let start := Z.max 0 (offset - bufferSize) in
        let readSize := (offset - start + 1)%Z in
        let buffer := take (Z.to_nat readSize) (drop (Z.to_nat start) data) in
        match scan_buffer n (rev buffer) lines chunk with
        | inr lines => Some lines
        | inl (lines, chunk) =>
            let lines := match chunk with [] => lines | _ => of_bytes chunk :: lines end in
            if (n <=? Z.of_nat (length lines))%Z then
              Some (drop (length lines - Z.to_nat n) lines)
            else read_loop fuel data n bufferSize (offset - bufferSize) lines chunk
        end
    end.

(** The reads of an open file fail as one: [readat] is its fault point. *)
Definition ReadLastNLines (path : string) (n : Z) : M S (result (list string)) :=
  f ← os_Open path;
  match f with
  | Err e => mret (Err (ErrWrap "failed to open file" e))
  | Ok content =>
      st ← os_Stat path;
      match st with
      | Err e => mret (Err (ErrWrap "failed to stat file" e))
      | Ok _ =>
          let data := to_bytes content in
          let size := Z.of_nat (length data) in
          if (size =? 0)%Z then mret (Ok [])
          else
            e ← with_fs "readat" path fail_err (λ m, (m, None));
            match e with
            | Some e => mret (Err (ErrWrap "failed to determine last n lines size of file" e))
            | None =>
                e ← with_fs "readat" path fail_err (λ m, (m, None));
                match e with
                | Some e => mret (Err e)
                | None =>
                    match read_loop (length data) data n (countLastNLinesBytes data n) (size - 1) [] [] with
                    | Some lines => mret (Ok lines)
                    | None => panic
                    end
                end
            end
      end
  end.

End operations.

(** ** What the tail of a file is *)

(** The last [n] lines, a final newline counting as the start of one more,
    empty, line; when the whole content is wanted an empty first line is not
    reported. *)
Definition last_lines (n : nat) (content : string) : list string :=
  let ls := Split content nl in
  if decide (n < length ls) then last_n n ls
  else match ls with "" :: rest => rest | _ => ls end.

(** ** Lemmas *)
(** The lines in a buffer, given what was read after it. *)
Definition pending (r : bytes) (lines : list string) (chunk : bytes) : list string :=
  (of_bytes <$> bsplit nl (rev r ++ chunk)) ++ lines.

Lemma scan_buffer_spec (n : nat) r lines chunk :
  nl ∉ chunk → length lines < n →
  (n < length (pending r lines chunk) →
     scan_buffer (Z.of_nat n) r lines chunk = inr (last_n n (pending r lines chunk))) ∧
  (length (pending r lines chunk) ≤ n →
     ∃ c ls, scan_buffer (Z.of_nat n) r lines chunk = inl (ls, c) ∧
             pending r lines chunk = of_bytes c :: ls).
Proof.
  unfold pending. revert lines chunk. induction r as [|b r IH]; intros lines chunk Hc Hl; simpl.
  { rewrite bsplit_no_sep by done. simpl. split; [lia|]. eauto. }
  rewrite <-app_assoc. simpl. destruct (beqb b nl) eqn:E.
  - apply beqb_spec in E as ->. rewrite bsplit_snoc, fmap_app, <-app_assoc by done. simpl.
    destruct (Z.leb_spec (Z.of_nat n) (Z.of_nat (Datatypes.S (length lines)))).
    + assert (Hne : 0 < length (bsplit nl (rev r))).
      { destruct (bsplit nl (rev r)) eqn:E; [by apply bsplit_nonempty in E|simpl; lia]. }
      rewrite length_app, length_fmap. simpl. split; [|lia]. intros _. f_equal.
      unfold last_n. rewrite length_app, length_fmap. simpl.
      rewrite drop_app_ge by (rewrite length_fmap; lia).
      rewrite length_fmap. by replace (_ - _ - _) with 0 by lia.
    + specialize (IH (of_bytes chunk :: lines) []). rewrite app_nil_r in IH.
      apply IH; [apply not_elem_of_nil|simpl; lia].
  - apply IH; [|done]. apply not_elem_of_cons. split; [|done]. apply beqb_ne in E. congruence.
Qed.

(** The byte count covers everything the scan looks at. *)
Lemma count_loop_covers (n : Z) r lines chunk seen result j :
  (seen = n - Z.of_nat (length lines))%Z → (0 < seen)%Z →
  (result ≤ count_loop r seen result ≤ result + Z.of_nat (length r))%Z ∧
  ((count_loop r seen result - result ≤ Z.of_nat j)%Z →
     scan_buffer n (take j r) lines chunk = scan_buffer n r lines chunk) ∧
  (∀ x, scan_buffer n r lines chunk = inl x →
     count_loop r seen result = (result + Z.of_nat (length r))%Z).
Proof.
  revert lines chunk seen result j.
  induction r as [|b r IH]; intros lines chunk seen result j Hs Hpos; simpl.
  { rewrite take_nil. split_and!; [lia..|done|intros; lia]. }
  destruct (beqb b nl) eqn:E.
  - destruct (Z.eqb_spec (seen - 1) 0); destruct (Z.leb_spec n (Z.of_nat (Datatypes.S (length lines)))); try lia.
    + split_and!; [lia|lia| |done].
      intros Hj. destruct j as [|j]; [lia|]. simpl. rewrite E.
      by destruct (Z.leb_spec n (Z.of_nat (Datatypes.S (length lines)))); [|lia].
    + destruct (IH (of_bytes chunk :: lines) [] (seen - 1)%Z (result + 1)%Z (pred j))
        as (H1 & H2 & H3); [simpl; lia|lia|].
      split_and!; [lia|lia| |].
      * intros Hj. destruct j as [|j]; [lia|]. simpl. rewrite E.
        destruct (Z.leb_spec n (Z.of_nat (Datatypes.S (length lines)))); [lia|]. apply H2. simpl. lia.
      * intros x Hx. rewrite (H3 x Hx). lia.
  - destruct (Z.eqb_spec seen 0); [lia|].
    destruct (IH lines (b :: chunk) seen (result + 1)%Z (pred j)) as (H1 & H2 & H3); [done|done|].
    split_and!; [lia|lia| |].
    + intros Hj. destruct j as [|j]; [lia|]. simpl. rewrite E. apply H2. simpl. lia.
    + intros x Hx. rewrite (H3 x Hx). lia.
Qed.

Lemma read_loop_last_lines (n : nat) (content : string) :
  let data := to_bytes content in
  0 < n → data ≠ [] →
  read_loop (length data) data (Z.of_nat n) (countLastNLinesBytes data (Z.of_nat n))
    (Z.of_nat (length data) - 1) [] [] = Some (last_lines n content).
Proof.
  intros data Hn Hd. unfold countLastNLinesBytes.
  set (k := count_loop (rev data) (Z.of_nat n) 0).
  assert (Hlen : 0 < length data) by (destruct data; simpl; [done|lia]).
  destruct (length data) as [|fuel] eqn:Hf; [lia|]. cbn [read_loop].
  destruct (Z.ltb_spec (Z.of_nat (Datatypes.S fuel) - 1) 0); [lia|].
  set (start := Z.max 0 (Z.of_nat (Datatypes.S fuel) - 1 - k)).
  destruct (count_loop_covers (Z.of_nat n) (rev data) [] [] (Z.of_nat n) 0
    (length data - Z.to_nat start)) as (Hk & Hcov & Hinl); [simpl; lia|lia|].
  rewrite length_rev in Hk. fold k in Hk, Hcov, Hinl.
  assert (Hbuf : rev (take (Z.to_nat (Z.of_nat (Datatypes.S fuel) - 1 - start + 1)) (drop (Z.to_nat start) data))
                 = take (length data - Z.to_nat start) (rev data)).
  { rewrite take_ge by (rewrite length_drop; lia). rewrite firstn_rev. do 2 f_equal. lia. }
  rewrite Hbuf, Hcov by lia.
  destruct (scan_buffer_spec n (rev data) [] []) as [Hr Hl]; [apply not_elem_of_nil|simpl; lia|].
  assert (Hp : pending (rev data) [] [] = Split content nl).
  { unfold pending. by rewrite rev_involutive, !app_nil_r. }
  rewrite Hp in Hr, Hl. unfold last_lines. destruct (decide (n < length (Split content nl))) as [Hlt|Hge].
  - by rewrite Hr.
  - destruct Hl as (c & ls & Hs & Hsp); [lia|]. rewrite Hs, Hsp in *. simpl in Hge.
    assert (Hnext : read_loop fuel data (Z.of_nat n) k (Z.of_nat (Datatypes.S fuel) - 1 - k)
              (match c with [] => ls | _ => of_bytes c :: ls end) c
            = Some (match c with [] => ls | _ => of_bytes c :: ls end)).
    { assert (k = Z.of_nat (Datatypes.S fuel)) as ->.
      { rewrite (Hinl _ eq_refl), length_rev. lia. }
      destruct fuel; cbn [read_loop];
        by rewrite (proj2 (Z.ltb_lt _ _)) by lia. }
    destruct (Z.leb_spec (Z.of_nat n) (Z.of_nat (length (match c with [] => ls | _ => of_bytes c :: ls end)))).
    + rewrite Nat2Z.id. replace (_ - n) with 0; [by destruct c|]. destruct c; simpl in *; lia.
    + rewrite Hnext. by destruct c.
Qed.

(** What unpacking may touch: the directory itself with its ancestors, and
    paths below it none of whose components is a parent reference. *)
Definition below_root (dest q : string) : Prop :=
  ∃ name, q = root_path dest name ∧ ".." ∉ Split name slash.

Lemma IsLocal_Clean name : IsLocal name = true → ".." ∉ Split (Clean name) slash.
Proof.
  unfold IsLocal. intros [[[_ H1]%andb_true_iff H2]%andb_true_iff H3]%andb_true_iff.
  apply negb_true_iff in H1, H2, H3. apply bool_decide_eq_false in H2. by apply Clean_local.
Qed.

Lemma ancestors_below_root dest comps acc :
  (acc = TrimSuffix dest "/" ∨ below_root dest acc) →
  ".." ∉ comps → Forall (lacks slash) comps → Forall (below_root dest) (ancestors acc comps).
Proof.
  intros Hacc Hd HF. revert acc Hacc. induction HF as [|c comps Hc HF IH]; intros acc Hacc; simpl; [done|].
  apply not_elem_of_cons in Hd as [Hdc Hd]. case_bool_decide; [by apply IH|].
  assert (below_root dest (acc +:+ "/" +:+ c)).
  { destruct Hacc as [->|(name & -> & Hn)].
    - exists c. split; [done|]. rewrite Split_single by done. set_solver.
    - exists (name +:+ "/" +:+ c). split.
      + unfold root_path. by rewrite !append_assoc.
      + change "/" with (String slash ""). rewrite Split_snoc by done. set_solver. }
  constructor; [done|]. apply IH; [done|by right].
Qed.

Lemma foldl_make_dir_other m ps q : q ∉ ps → foldl make_dir m ps !! q = m !! q.
Proof.
  revert m. induction ps as [|p ps IH]; intros m; simpl; [done|].
  intros [Hp Hq]%not_elem_of_cons. rewrite IH by done. unfold make_dir.
  case_match; [done|]. by rewrite lookup_insert_ne.
Qed.

Lemma under_below_root dest name :
  ".." ∉ Split name slash → Forall (below_root dest) (under dest name).
Proof.
  intros Hn. unfold under. apply ancestors_below_root; [by left|done|apply Split_lacks].
Qed.

Section contained.
Context {S : Type} `{LawfulFS S} `{OsFaults} `{Archives}.
Implicit Types (s : S).

(** The computation leaves every path outside [P] alone. *)
Definition touches_only (P : string → Prop) {A} (m : M S A) (Q : A → Prop) : Prop :=
  ∀ s, wp m (λ a s', Q a ∧ ∀ q, ¬ P q → nodes (fs_of s') !! q = nodes (fs_of s) !! q) s.

Lemma touches_ret P {A} (a : A) (Q : A → Prop) : Q a → touches_only P (mret a) Q.
Proof. intros Ha s. by apply wp_ret. Qed.

Lemma touches_bind P {A B} (m : M S A) (f : A → M S B) (R : A → Prop) (Q : B → Prop) :
  touches_only P m R → (∀ a, R a → touches_only P (f a) Q) → touches_only P (m ≫= f) Q.
Proof.
  intros Hm Hf s. apply wp_bind. eapply wp_mono; [apply Hm|].
  intros a s' [HR Hs']. eapply wp_mono; [by apply Hf|].
  intros b s'' [HQ Hs'']. split; [done|]. intros q Hq. by rewrite Hs'', Hs'.
Qed.

Lemma touches_with_fs P {A} name p onf k (Q : A → Prop) :
  (∀ ft m, Q (onf ft m).2 ∧ ∀ q, ¬ P q → (onf ft m).1 !! q = m !! q) →
  (∀ m, Q (k m).2 ∧ ∀ q, ¬ P q → (k m).1 !! q = m !! q) →
  touches_only P (with_fs name p onf k) Q.
Proof.
  intros Hf Hk s. apply wp_with_fs; intros.
  - destruct (Hf ft (nodes (fs_of s))). split; [done|]. intros q Hq. rewrite fs_of_set_fs. simpl. auto.
  - destruct (Hk (nodes (fs_of s))). split; [done|]. intros q Hq. rewrite fs_of_set_fs. simpl. auto.
Qed.

Lemma touches_mkdir dest name (P : string → Prop) :
  (∀ q, below_root dest q → P q) →
  touches_only P (root_MkdirAll dest name) (λ _, True).
Proof.
  intros HP. apply touches_with_fs; [done|]. intros m. split; [done|]. intros q Hq.
  unfold root_check. destruct (HasPrefix name "/"); [done|]. simpl.
  case_bool_decide as Hn; [done|].
  repeat case_match; simplify_eq; try done. simpl. apply foldl_make_dir_other. intros Hin.
  apply Hq, HP. clear Hq. revert q Hin. by apply Forall_forall, under_below_root.
Qed.

Lemma touches_open dest name (P : string → Prop) :
  P (root_path dest name) → touches_only P (root_OpenFile dest name) (λ _, True).
Proof.
  intros HP. apply touches_with_fs; [done|]. intros m. split; [done|]. intros q Hq.
  repeat case_match; try done; simpl; apply lookup_insert_ne; naive_solver.
Qed.

Lemma touches_write p c (P : string → Prop) :
  P p → touches_only P (file_Write p c) (λ _, True).
Proof.
  intros HP. apply touches_with_fs; intros; (split; [done|]); intros q Hq; simpl.
  - case_match; [|done]. apply lookup_insert_ne; naive_solver.
  - apply lookup_insert_ne; naive_solver.
Qed.

Lemma touches_none {A} P name p onf (k : gmap string node → gmap string node * A) :
  (∀ ft m, (onf ft m).1 = m) → (∀ m, (k m).1 = m) → touches_only P (with_fs name p onf k) (λ _, True).
Proof. intros Hf Hk. apply touches_with_fs; intros; by rewrite ?Hf, ?Hk. Qed.

Lemma touches_mono (P P' : string → Prop) {A} (m : M S A) (Q Q' : A → Prop) :
  (∀ q, P q → P' q) → (∀ a, Q a → Q' a) → touches_only P m Q → touches_only P' m Q'.
Proof.
  intros HP HQ Hm s. eapply wp_mono; [apply Hm|]. intros a s' [? Hs']. split; [auto|].
  intros q Hq. apply Hs'. auto.
Qed.

Lemma touches_close P p : touches_only P (file_Close p) (λ _, True).
Proof. by apply touches_none. Qed.

(** Proves [touches_only] of a computation call by call. *)
Ltac touches :=
  repeat lazymatch goal with
  | |- touches_only _ (root_OpenFile _ _ ≫= _) _ =>
      eapply touches_bind; [by apply touches_open|intros [?|] _]
  | |- touches_only _ (file_Write _ _ ≫= _) _ =>
      eapply touches_bind; [by apply touches_write|intros [?|] _]
  | |- touches_only _ (file_Close _ ≫= _) _ =>
      eapply touches_bind; [by apply touches_close|intros [?|] _]
  | |- touches_only _ (match hdr_copy_err ?x with _ => _ end) _ => destruct (hdr_copy_err x) eqn:?
  | |- touches_only _ (mret _) _ => by apply touches_ret
  end.

Lemma touches_unpack_file dest name hdr :
  ".." ∉ Split name slash →
  touches_only (below_root dest) (unpack_file dest name hdr) (λ r, r = None → hdr_copy_err hdr = None).
Proof.
  intros Hn. assert (below_root dest (root_path dest name)) by by exists name.
  unfold unpack_file. apply touches_bind with (R := λ _, True).
  { case_bool_decide; [by apply touches_ret|by apply touches_mkdir]. }
  intros [e|] _; touches.
Qed.

(** An entry the archive may hold. *)
Definition acceptable (hdr : tar_entry) : Prop :=
  IsLocal (hdr_name hdr) = true ∧
  match hdr_type hdr with
  | TypeSymlink _ => False
  | TypeDir_ => True
  | TypeReg => hdr_copy_err hdr = None
  end.

Lemma touches_unpack_entry dest hdr :
  touches_only (below_root dest) (unpack_entry dest hdr) (λ r, r = None → acceptable hdr).
Proof.
  unfold unpack_entry, acceptable. destruct (IsLocal (hdr_name hdr)) eqn:El; simpl; [|by apply touches_ret].
  destruct (hdr_type hdr); [|by apply touches_ret|].
  - case_bool_decide; [by apply touches_ret|].
    eapply touches_bind; [by apply touches_mkdir|]. intros [e|] _; by apply touches_ret.
  - eapply touches_mono; [done| |apply touches_unpack_file, IsLocal_Clean, El]. naive_solver.
Qed.

Lemma touches_unpack_entries dest hdrs last :
  touches_only (below_root dest) (unpack_entries dest hdrs last)
    (λ r, r = None → Forall acceptable hdrs ∧ last = None).
Proof.
  induction hdrs as [|hdr hdrs IH]; simpl.
  - apply touches_ret. by destruct last.
  - eapply touches_bind; [apply touches_unpack_entry|]. intros [e|] He; [by apply touches_ret|].
    eapply touches_mono; [done| |apply IH]. naive_solver.
Qed.

End contained.

(** ** Archives *)
Section unpack.
Context {S : Type} `{LawfulFS S} `{OsFaults} `{Archives}.

(** C10. Whatever the archive holds and whichever system calls fail, unpacking
    touches nothing but the destination directory with its ancestors and paths
    below it without parent references; and it reports success only when every
    entry's name is local, none is a symbolic link, every file was copied
    completely and the archive was read to its end. *)
Theorem UnpackTargzFile_contained (src dest : string) (s : S) :
  wp (UnpackTargzFile src dest)
     (λ r s',
        (r = None → ∃ data hdrs,
           targz_entries data = Ok (hdrs, None) ∧ Forall acceptable hdrs) ∧
        ∀ q, q ∉ ancestors "" (Split (Clean dest) slash) → ¬ below_root (Clean dest) q →
             nodes (fs_of s') !! q = nodes (fs_of s) !! q) s.
Proof.
  set (P q := q ∈ ancestors "" (Split (Clean dest) slash) ∨ below_root (Clean dest) q).
  assert (Hw : touches_only P (UnpackTargzFile src dest) (λ r, r = None → ∃ data hdrs,
           targz_entries data = Ok (hdrs, None) ∧ Forall acceptable hdrs)).
  { unfold UnpackTargzFile. apply touches_bind with (R := λ _, True).
    { apply touches_with_fs; [done|]. intros m. split; [done|]. intros q Hq. simpl.
      apply foldl_make_dir_other. unfold P in Hq. naive_solver. }
    intros [e|] _; [by apply touches_ret|].
    eapply touches_bind; [by apply touches_none|]. intros [nd|e] _; [|by apply touches_ret].
    eapply touches_bind; [by apply touches_none|]. intros [data|e] _; [|by apply touches_ret].
    destruct (targz_entries data) as [[hdrs last]|e] eqn:Et; [|by apply touches_ret].
    eapply touches_mono; [| |apply touches_unpack_entries]; unfold P; [naive_solver|].
    intros r Hr Hnone. destruct (Hr Hnone) as [? ->]. eauto. }
  eapply wp_mono; [apply Hw|]. intros r s' [HQ Hs']. split; [done|].
  intros q Hq1 Hq2. apply Hs'. unfold P. tauto.
Qed.

End unpack.


Section lemmas.
Context {S : Type} `{LawfulFS S} `{OsFaults}.
Context (fault_free : ∀ n op p, os_fault n op p = None).
Implicit Types (s : S).

Lemma run_Open_file p d s :
  nodes (fs_of s) !! p = Some (NFile d) →
  os_Open p s = Some (after (nodes (fs_of s)) s, Ok d).
Proof.
  intros E. unfold os_Open. rewrite run_with_fs by done. simpl. by rewrite (resolve_file _ _ _ E).
Qed.

End lemmas.

(** ** The tail of a file *)
Section properties.
Context {S : Type} `{LawfulFS S} `{OsFaults}.

(** C25. Reading the last [n] lines of a file backwards through a buffer sized
    by a first counting pass gives exactly the last [n] lines of its content,
    with the loop ended within one unit of fuel per byte, and changes no file. *)
Theorem ReadLastNLines_correct (path content : string) (n : nat) (s : S) :
  (∀ k op p, os_fault k op p = None) → 0 < n →
  nodes (fs_of s) !! path = Some (NFile content) →
  ∃ s', ReadLastNLines path (Z.of_nat n) s =
          Some (s', Ok (if bool_decide (content = "") then [] else last_lines n content)) ∧
        nodes (fs_of s') = nodes (fs_of s).
Proof.
  intros Hff Hn Hp. unfold ReadLastNLines. unfold mbind at 1, M_bind.
  rewrite (run_Open_file Hff _ content) by done. unfold mbind at 1, M_bind.
  rewrite (run_Stat_file Hff _ content) by (by rewrite nodes_after). rewrite nodes_after.
  destruct (Z.eqb_spec (Z.of_nat (length (to_bytes content))) 0) as [E|E].
  - destruct content; [|done]. eexists; split; [done|]. by rewrite nodes_after.
  - unfold mbind, M_bind. rewrite run_with_fs by done. simpl. rewrite run_with_fs by done. simpl.
    rewrite read_loop_last_lines; [|done|by intros Hn0; rewrite Hn0 in E].
    eexists; split; [destruct content; [done|reflexivity]|]. by rewrite !nodes_after.
Qed.

End properties.

(** ** Frames and totality of the helpers *)
Section frames.
Context {S : Type} `{HasFS S} `{OsFaults} `{Archives}.
Context (R : relation S) `{!PreOrder R} `{!IgnoresFS R}.

Lemma respects_unpack_entry dest hdr : respects R (unpack_entry dest hdr).
Proof. unfold unpack_entry, unpack_file. respects_solve. Qed.

Lemma respects_unpack_entries dest hdrs last : respects R (unpack_entries dest hdrs last).
Proof.
  induction hdrs; simpl; [respects_solve|]. respects_step; [apply respects_unpack_entry|]. respects_solve.
Qed.

Lemma respects_UnpackTargzFile src dest : respects R (UnpackTargzFile src dest).
Proof. unfold UnpackTargzFile. respects_solve; apply respects_unpack_entries. Qed.

Lemma respects_ReadLastNLines path n : respects R (ReadLastNLines path n).
Proof. unfold ReadLastNLines. respects_solve. Qed.

End frames.

Section totality.
Context {S : Type} `{HasFS S} `{OsFaults} `{Archives}.

Lemma total_unpack_entries dest hdrs last : total (S := S) (unpack_entries dest hdrs last).
Proof.
  induction hdrs; simpl; [total_solve|]. total_step; [|total_solve].
  unfold unpack_entry, unpack_file. total_solve.
Qed.

Lemma total_UnpackTargzFile src dest : total (S := S) (UnpackTargzFile src dest).
Proof. unfold UnpackTargzFile. total_solve; apply total_unpack_entries. Qed.

Lemma total_ReadLastNLines path (n : nat) : 0 < n → total (S := S) (ReadLastNLines path (Z.of_nat n)).
Proof.
  intros Hn. unfold ReadLastNLines. total_step; [total_solve|]. total_step; [|total_solve].
  total_step; [total_solve|]. total_step; [|total_solve].
  destruct (Z.eqb_spec (Z.of_nat (length (to_bytes a))) 0); [total_solve|].
  rewrite read_loop_last_lines; [total_solve|done|by intros E; rewrite E in *].
Qed.

End totality.

(** An archive with a regular file and one that tries to escape. *)
Definition evil_archives : Archives := λ data,
  if bool_decide (data = "tgz") then
    Ok ([mkEntry "bin/./run" TypeReg "code" None; mkEntry "../../etc/passwd" TypeReg "root::" None], None)
  else Err (ErrMsg "not gzip").

Definition archive_fs : fs := mkFs {["/tmp/a" := NFile "tgz"]} 0.

Example unpack_evil :
  (λ r : fs * option error, (r.2, map_to_list (nodes r.1))) <$>
    @UnpackTargzFile fs _ no_faults evil_archives "/tmp/a" "/d" archive_fs
  = Some (Some (ErrMsg "illegal file path in archive: escapes destination directory"),
          map_to_list (<["/d" := NDir]> (<["/d/bin" := NDir]> (<["/d/bin/run" := NFile "code"]>
            (nodes archive_fs))))).
Proof. vm_compute. reflexivity. Qed.

Lemma UnpackTargzFile_contained_witness :
  wp (@UnpackTargzFile fs _ no_faults evil_archives "/tmp/a" "/d")
     (λ r s',
        (r = None → ∃ data hdrs, evil_archives data = Ok (hdrs, None) ∧ Forall acceptable hdrs) ∧
        ∀ q, q ∉ ancestors "" (Split (Clean "/d") slash) → ¬ below_root (Clean "/d") q →
             nodes (fs_of s') !! q = nodes (fs_of archive_fs) !! q) archive_fs.
Proof. apply (@UnpackTargzFile_contained fs _ _ no_faults evil_archives "/tmp/a" "/d" archive_fs). Defined.

Definition tail_fs : fs := mkFs {["/log" := NFile (Join ["a"; "bb"; "c"; ""] (String nl ""))]} 0.

Lemma ReadLastNLines_correct_witness :
  ∃ s', @ReadLastNLines fs _ no_faults "/log" 3 tail_fs = Some (s', Ok ["bb"; "c"; ""]) ∧
        nodes (fs_of s') = nodes (fs_of tail_fs).
Proof.
  apply (@ReadLastNLines_correct fs _ _ no_faults "/log"
    (Join ["a"; "bb"; "c"; ""] (String nl "")) 3 tail_fs); [done|lia|by vm_compute].
Defined.

End FileUtil.

#[export] Hint Resolve FileUtil.respects_UnpackTargzFile FileUtil.respects_ReadLastNLines : respects.
#[export] Hint Resolve FileUtil.total_UnpackTargzFile : total.
