(* ===== verification/SafeWrite.v ===== *)
(** * internal/utils/file: writing and copying files

    [WriteFile], [SaferWriteFile], [CopyFile] and [SHA256FileSum] of file.go,
    over the faulty file system.  Permissions and owners are not part of the
    file system model: [os.Chmod] and [os.Chown] only succeed or fail.  The
    random part of a temporary file's name ([os.CreateTemp]) is a parameter. *)
From S2P Require Import Prelude GoStrings Os FileUtil.

Module SafeWrite.

Record GUID := mkGUID { UID : Z; GID : Z }.
Record Options := mkOptions { Perm : Z; Owner : option GUID }.

(** The random string of the [n]-th try at time [t]. *)
Class TempNames := temp_suffix : nat → nat → string.

(** The hash of the library, in hexadecimal. *)
Class Sha256 := sha256_hex : string → string.

Section operations.
Context {S : Type} `{HasFS S} `{OsFaults} `{TempNames} `{Sha256}.

(** The first free name among the tries left. *)
Fixpoint free_name (m : gmap string node) (prefix : string) (t n tries : nat) : option string :=
  match tries with
  | 0 => None
  | Datatypes.S tries =>
      let p := prefix +:+ temp_suffix t n in
      match m !! p with
      | None => Some p
      | Some _ => free_name m prefix t (Datatypes.S n) tries
      end
  end.

Definition temp_tries : nat := Z.to_nat 10000.
#[global] Arguments temp_tries : simpl never.

(** [os.CreateTemp(dir, name+"*")] gives up after 10000 names that exist. *)
Definition os_CreateTemp (dir name : string) : M S (result string) :=
  t ← gets (λ s, ticks (fs_of s));
  with_fs "createtemp" dir fail_result (λ m,
    match free_name m (FileUtil.root_path dir name) t 0 temp_tries with
    | Some p => (<[p := NFile ""]> m, Ok p)
    | None => (m, Err ErrExist)
    end).

Definition os_change (name p : string) : M S (option error) :=
  with_fs name p fail_err (λ m,
    (m, match resolve m p with Some _ => None | None => Some ErrNotExist end)).

Definition os_Chmod (p : string) (mode : Z) : M S (option error) := os_change "chmod" p.
Definition os_Chown (p : string) (uid gid : Z) : M S (option error) := os_change "chown" p.

Definition WriteFile (content outputFile : string) (opts : Options) : M S (option error) :=
  e ← os_MkdirAll (Dir outputFile);
  match e with
  | Some e => mret (Some (ErrWrap "unable to create required directories" e))
  | None =>
      e ← os_WriteFile outputFile content;
      match e with
      | Some e => mret (Some (ErrWrap "unable to write to file" e))
      | None =>
          match Owner opts with
          | None => mret None
          | Some o =>
              e ← os_Chown outputFile (UID o) (GID o);
              mret (ErrWrap "error setting ownership" <$> e)
          end
      end
  end.

Definition SaferWriteFile (content outputFile : string) (opts : Options) : M S (option error) :=
  let dir := Dir outputFile in
  let name := Base outputFile in
  e ← os_MkdirAll dir;
  match e with
  | Some e => mret (Some (ErrWrap "unable to create required directories" e))
  | None =>
      tmp ← os_CreateTemp dir name;
      match tmp with
      | Err e => mret (Some (ErrWrap "unable to create temporary file" e))
      | Ok tmp =>
          e ← os_Chmod tmp (Perm opts);
          match e with
          | Some e => mret (Some (ErrWrap "unable to set permissions on temporary file" e))
          | None =>
              e ← FileUtil.file_Close tmp;
              match e with
              | Some e => mret (Some (ErrWrap "failed to close temporary file" e))
              | None =>
                  e ← WriteFile content tmp opts;
                  match e with
                  | Some e => mret (Some (ErrWrap "unable to write to a temporary file" e))
                  | None => os_Rename tmp outputFile
                  end
              end
          end
      end
  end.

Definition CopyFile (src dst : string) (opts : Options) : M S (option error) :=
  b ← os_ReadFile src;
  match b with
  | Err e => mret (Some (ErrWrap "failed to read" e))
  | Ok b =>
      e ← WriteFile b dst opts;
      match e with
      | Some e => mret (Some (ErrWrap "failed to write" e))
      | None =>
          e ← os_Chmod dst (Perm opts);
          mret (ErrWrap "unable to set permissions on destination file" <$> e)
      end
  end.

Definition SHA256FileSum (filePath : string) : M S (result string) :=
  f ← FileUtil.os_Open filePath;
  match f with
  | Err e => mret (Err e)
  | Ok d =>
      r ← with_fs "copy" filePath fail_result (λ m, (m, Ok d));
      _ ← FileUtil.file_Close filePath;
      mret (match r with Err e => Err e | Ok d => Ok (sha256_hex d) end)
  end.

End operations.

(** ** The temporary file is a sibling of the output *)

(** An output path whose directory and base name give it back, and which is
    not among the directories above it: any cleaned absolute path. *)
Definition well_placed (out : string) : Prop :=
  FileUtil.root_path (Dir out) (Base out) = out ∧ out ∉ ancestors "" (Split (Dir out) slash).

#[global] Instance well_placed_dec out : Decision (well_placed out).
Proof. unfold well_placed. apply _. Defined.

Lemma blast_index_app c l k : c ∉ k → blast_index c (l ++ k) = blast_index c l.
Proof.
  intros Hk. induction l as [|x l IH]; simpl.
  - induction k as [|y k IH]; [done|]. simpl. rewrite IH by set_solver.
    destruct (beqb y c) eqn:E; [|done]. apply beqb_spec in E. set_solver.
  - by rewrite IH.
Qed.

Lemma blast_index_lt c l i : blast_index c l = Some i → i < length l.
Proof.
  revert i. induction l as [|x l IH]; intros i; simpl; [done|].
  destruct (blast_index c l); [intros [= <-]; specialize (IH _ eq_refl); lia|].
  destruct (beqb x c); [intros [= <-]; lia|done].
Qed.

Lemma Dir_app p sfx : lacks slash sfx → Dir (p +:+ sfx) = Dir p.
Proof.
  intros Hs. unfold Dir, LastIndex, slice_to. rewrite to_bytes_app, blast_index_app by done.
  destruct (blast_index slash (to_bytes p)) as [i|] eqn:E; [|done].
  apply blast_index_lt in E. by rewrite take_app_le by lia.
Qed.

Lemma append_nonempty_ne p sfx : sfx ≠ "" → p +:+ sfx ≠ p.
Proof.
  intros Hs E. apply (f_equal to_bytes) in E. rewrite to_bytes_app in E.
  apply (f_equal length) in E. rewrite length_app in E.
  destruct sfx; [done|]. simpl in E. lia.
Qed.

Section atomic.
Context {S : Type} `{LawfulFS S} `{OsFaults} `{TempNames}.
Hypothesis suffix_ok : ∀ t n, temp_suffix t n ≠ "" ∧ lacks slash (temp_suffix t n).

Lemma free_name_spec m prefix t n tries p :
  free_name m prefix t n tries = Some p →
  m !! p = None ∧ ∃ sfx, p = prefix +:+ sfx ∧ sfx ≠ "" ∧ lacks slash sfx.
Proof.
  revert n. induction tries as [|tries IH]; intros n; simpl; [done|].
  destruct (m !! (prefix +:+ temp_suffix t n)) eqn:E; [apply IH|]. intros [= <-].
  split; [done|]. exists (temp_suffix t n). split; [done|]. apply suffix_ok.
Qed.

#[local] Arguments free_name : simpl never.
#[local] Opaque temp_tries.

(** What every call before the final rename keeps: the output as it was, and
    every other path that existed. *)
Definition kept (tmp out : string) (m m' : gmap string node) : Prop :=
  m' !! out = m !! out ∧ ∀ q nd, m !! q = Some nd → q ≠ tmp → m' !! q = Some nd.

Lemma kept_refl tmp out m : kept tmp out m m.
Proof. done. Qed.

Lemma kept_trans tmp out m1 m2 m3 : kept tmp out m1 m2 → kept tmp out m2 m3 → kept tmp out m1 m3.
Proof. intros [E1 K1] [E2 K2]. split; [congruence|]. intros q nd Hq Hne. by apply K2, Hne; apply K1. Qed.

Lemma kept_insert tmp out m nd : tmp ≠ out → kept tmp out m (<[tmp := nd]> m).
Proof. intros Hne. split; [by apply lookup_insert_ne|]. intros q x Hq Hq'. by rewrite lookup_insert_ne. Qed.

Lemma foldl_make_dir_keeps ds m q nd : m !! q = Some nd → foldl make_dir m ds !! q = Some nd.
Proof.
  revert m. induction ds as [|d ds IH]; intros m Hq; simpl; [done|]. apply IH. unfold make_dir.
  destruct (m !! d) eqn:E; [done|]. rewrite lookup_insert_ne; [done|]. intros ->. congruence.
Qed.

Lemma kept_mkdir tmp out d m :
  out ∉ ancestors "" (Split d slash) → kept tmp out m (mkdir_all d m).
Proof.
  intros Hn. split; [by apply FileUtil.foldl_make_dir_other|].
  intros q nd Hq _. by apply foldl_make_dir_keeps.
Qed.

(** Writing the temporary file: it holds the content when that succeeds. *)
Lemma wp_WriteFile_tmp content tmp out opts d (s : S) :
  tmp ≠ out → out ∉ ancestors "" (Split (Dir tmp) slash) → nodes (fs_of s) !! tmp = Some (NFile d) →
  wp (WriteFile content tmp opts)
     (λ e s', kept tmp out (nodes (fs_of s)) (nodes (fs_of s')) ∧
        (e = None → nodes (fs_of s') !! tmp = Some (NFile content))) s.
Proof.
  intros Hne Hanc Hd. unfold WriteFile. wp_step.
  apply wp_with_fs; intros; rewrite ?fs_of_set_fs; cbn [snd fst fail_err]; [wp_step; rewrite fs_of_set_fs; by split|].
  set (m1 := mkdir_all (Dir tmp) (nodes (fs_of s))).
  assert (Hk1 : kept tmp out (nodes (fs_of s)) m1) by (by apply kept_mkdir).
  assert (Hd1 : m1 !! tmp = Some (NFile d)) by (by apply foldl_make_dir_keeps).
  wp_step. apply wp_with_fs; rewrite fs_of_set_fs; simpl.
  - intros ft _. wp_step. rewrite fs_of_set_fs. simpl. split; [|done].
    destruct (fault_left ft) as [d'|]; [|done]. unfold write_node. rewrite (resolve_file _ _ _ Hd1).
    eapply kept_trans; [exact Hk1|by apply kept_insert].
  - intros _. unfold write_node. rewrite !(resolve_file _ _ _ Hd1). cbn [snd fst].
    assert (Hk2 : kept tmp out (nodes (fs_of s)) (<[tmp := NFile content]> m1))
      by (eapply kept_trans; [exact Hk1|by apply kept_insert]).
    destruct (Owner opts) as [o|]; [wp_step|wp_step; rewrite fs_of_set_fs; simpl;
      split; [done|intros _; apply lookup_insert_eq]].
    apply wp_with_fs; rewrite fs_of_set_fs; simpl.
    + intros ft _. wp_step. by rewrite fs_of_set_fs.
    + intros _. wp_step. rewrite fs_of_set_fs. simpl. split; [done|]. intros _. apply lookup_insert_eq.
Qed.

(** What the theorem says of an end with an error. *)
Lemma kept_end tmp out m m' :
  m !! tmp = None → kept tmp out m m' →
  m' !! out = m !! out ∧ ∀ q nd, q ≠ out → m !! q = Some nd → m' !! q = Some nd.
Proof. intros Hf [Ho Hk]. split; [done|]. intros q nd _ Hq. apply Hk; [done|]. congruence. Qed.

(** The contract of a safe write, for its callers. *)
Definition safely_written (content out : string) (s : S) (e : option error) (s' : S) : Prop :=
  nodes (fs_of s') !! out =
    (match e with None => Some (NFile content) | Some _ => nodes (fs_of s) !! out end) ∧
  ∀ q nd, q ≠ out → nodes (fs_of s) !! q = Some nd → nodes (fs_of s') !! q = Some nd.

Lemma wp_SaferWriteFile (content out : string) (opts : Options) (s : S) :
  well_placed out → wp (SaferWriteFile content out opts) (safely_written content out s) s.
Proof.
  intros [Hout Hanc]. unfold SaferWriteFile, safely_written. wp_step.
  apply wp_with_fs; intros; cbn [snd fst fail_err]; [wp_step; rewrite fs_of_set_fs; by split|].
  set (m0 := nodes (fs_of s)). set (m1 := mkdir_all (Dir out) m0).
  assert (Hm1 : ∀ tmp, kept tmp out m0 m1) by (intros; by apply kept_mkdir).
  wp_step. unfold os_CreateTemp, os_Chmod, os_change. do 2 wp_step.
  apply wp_with_fs; rewrite fs_of_set_fs; simpl; fold m0 m1.
  { intros ft _. wp_step. rewrite fs_of_set_fs. simpl. destruct (Hm1 out). by split; [|auto]. }
  intros _. destruct (free_name _ _ _ _ _) as [tmp|] eqn:Ef; cbn [snd fst].
  2: { wp_step. rewrite fs_of_set_fs. simpl. destruct (Hm1 out). by split; [|auto]. }
  apply free_name_spec in Ef as (Hfree & sfx & Htmp & Hs1 & Hs2). rewrite Hout in Htmp.
  assert (Hne : tmp ≠ out) by (rewrite Htmp; by apply append_nonempty_ne).
  assert (Hdir : Dir tmp = Dir out) by (rewrite Htmp; by apply Dir_app).
  assert (Hf0 : m0 !! tmp = None).
  { destruct (m0 !! tmp) eqn:E; [|done].
    apply (foldl_make_dir_keeps (ancestors "" (Split (Dir out) slash))) in E.
    unfold m1, mkdir_all in Hfree. congruence. }
  set (m2 := <[tmp := NFile ""]> m1).
  assert (Hm2 : kept tmp out m0 m2) by (eapply kept_trans; [apply Hm1|by apply kept_insert]).
  wp_step. apply wp_with_fs; rewrite fs_of_set_fs; simpl; fold m2.
  { intros ft _. wp_step. rewrite fs_of_set_fs. by apply (kept_end tmp). }
  intros _. rewrite (resolve_file m2 tmp "") by apply lookup_insert_eq. wp_step.
  apply wp_with_fs; rewrite fs_of_set_fs; simpl.
  { intros ft _. wp_step. rewrite fs_of_set_fs. by apply (kept_end tmp). }
  intros _. wp_step. eapply wp_mono; [apply (wp_WriteFile_tmp content tmp out opts "")|]; rewrite ?fs_of_set_fs.
  { done. } { by rewrite Hdir. } { apply lookup_insert_eq. }
  simpl. intros [e|] s' [Hk Hd]; [wp_step; apply (kept_end tmp); [done|by eapply kept_trans]|].
  destruct (kept_trans _ _ _ _ _ Hm2 Hk) as [Ho Hq]. apply wp_with_fs; intros; rewrite fs_of_set_fs; simpl.
  { split; [done|]. intros q nd _ E. apply Hq; congruence. }
  rewrite (Hd eq_refl), Ho.
  destruct (m0 !! out) as [[]|] eqn:Eo; cbn [fst snd];
    try (split; [apply lookup_insert_eq|]; intros q nd Hqo E;
         rewrite lookup_insert_ne, lookup_delete_ne by congruence; apply Hq; congruence).
  split; [done|]. intros q nd Hqo E. apply Hq; congruence.
Qed.

(** C37. Whatever system calls fail and however much of the content a failed
    write leaves behind, the output file has either its previous content, when
    an error is returned, or exactly the new one, when none is; and no other
    path that existed changes. *)
Theorem SaferWriteFile_atomic (content out : string) (opts : Options) (s : S) :
  well_placed out →
  wp (SaferWriteFile content out opts)
     (λ e s',
        nodes (fs_of s') !! out =
          (match e with None => Some (NFile content) | Some _ => nodes (fs_of s) !! out end) ∧
        ∀ q nd, q ≠ out → nodes (fs_of s) !! q = Some nd → nodes (fs_of s') !! q = Some nd) s.
Proof. apply wp_SaferWriteFile. Qed.

End atomic.

(** ** A write that fails half way *)
Definition half_way : OsFaults := λ _ op p,
  if bool_decide (op = "write") then Some (mkFault (ErrMsg "no space left on device") (Some "ne")) else None.
Definition numbered : TempNames := λ t n, of_bytes (repeat (byte_of 120) (S n)).
Lemma numbered_ok t n : numbered t n ≠ "" ∧ lacks slash (numbered t n).
Proof.
  split; [discriminate|]. unfold lacks, numbered. rewrite to_of_bytes.
  intros Hin%list_elem_of_In%repeat_spec. discriminate Hin.
Qed.

Definition hosts_fs : fs := mkFs {["/etc/hosts" := NFile "old"; "/etc/hostsx" := NFile "busy"]} 0.

Lemma SaferWriteFile_atomic_witness :
  (∃ s', @SaferWriteFile fs _ half_way numbered "new" "/etc/hosts" (mkOptions 420 None) hosts_fs =
           Some (s', Some (ErrWrap "unable to write to a temporary file"
                       (ErrWrap "unable to write to file" (ErrMsg "no space left on device")))) ∧
         nodes s' !! "/etc/hosts" = Some (NFile "old") ∧ nodes s' !! "/etc/hostsx" = Some (NFile "busy")) ∧
  wp (@SaferWriteFile fs _ no_faults numbered "new" "/etc/hosts" (mkOptions 420 None))
     (λ e s', e = None → nodes s' !! "/etc/hosts" = Some (NFile "new")) hosts_fs.
Proof.
  split.
  - eexists. split; [vm_compute; reflexivity|]. split; vm_compute; reflexivity.
  - eapply wp_mono; [refine (SaferWriteFile_atomic _ "new" "/etc/hosts" (mkOptions 420 None) hosts_fs _)|].
    + apply numbered_ok.
    + vm_compute. split; [reflexivity|set_solver].
    + intros e s' [He _] ->. exact He.
Defined.

End SafeWrite.
