(* ===== verification/Accounts.v ===== *)
(** * internal/accounts: local users and groups

    accounts_unix.go: the lookups through [getent], the command templates of
    the configuration, and the file of the users the agent created.  Commands
    are run outside: their outcome is a parameter, and the state keeps the
    list of the commands run.  Permissions are not part of the file system. *)
From stdpp Require Import pretty.
From S2P Require Import Prelude GoStrings GoStringFacts Os FileUtil SafeWrite.

Module Accounts.

Record User := mkUser {
  Username : string;
  Password : string;
  UID : string;
  GID : string;
  User_Name : string;
  HomeDir : string;
  Shell : string;
}.

Record Group := mkGroup {
  Group_Name : string;
  Group_GID : string;
  Members : list string;
}.

(** [strconv.Atoi]: a sign, decimal digits, the range of [int64]. *)
Definition digit (b : byte) : option Z :=
  let n := Ascii.N_of_ascii b in
  if (48 <=? n)%N && (n <=? 57)%N then Some (Z.of_N n - 48)%Z else None.

Fixpoint digits (acc : Z) (l : bytes) : option Z :=
  match l with
  | [] => Some acc
  | b :: l => d ← digit b; digits (10 * acc + d)%Z l
  end.

Definition Atoi (s : string) : option Z :=
  let number l := match l with [] => None | _ => digits 0 l end in
  v ← (match to_bytes s with
       | b :: l => if beqb b (byte_of 45) then Z.opp <$> number l
                   else if beqb b (byte_of 43) then number l else number (b :: l)
       | [] => None
       end);
  if ((- 2 ^ 63 <=? v) && (v <? 2 ^ 63))%Z then Some v else None.

(** Decimal printing and [Atoi]. *)
Definition is_digit (b : byte) : Prop := (48 ≤ Ascii.N_of_ascii b ≤ 57)%N.

#[global] Instance is_digit_dec b : Decision (is_digit b).
Proof. unfold is_digit. apply _. Defined.

Lemma digit_pretty x : (x < 10)%N → digit (pretty_N_char x) = Some (Z.of_N x) ∧ is_digit (pretty_N_char x).
Proof.
  intros Hx. assert (x = 0 ∨ x = 1 ∨ x = 2 ∨ x = 3 ∨ x = 4 ∨ x = 5 ∨ x = 6 ∨ x = 7 ∨ x = 8 ∨ x = 9)%N as Hc by lia.
  repeat destruct Hc as [->|Hc]; try subst x; (split; [reflexivity|]);
    apply (bool_decide_unpack (is_digit _)); vm_compute; exact I.
Qed.

Lemma digits_pretty_go x s :
  digits 0 (to_bytes (pretty_N_go x s)) = digits (Z.of_N x) (to_bytes s) ∧
  (Forall is_digit (to_bytes s) → Forall is_digit (to_bytes (pretty_N_go x s))).
Proof.
  revert s. induction (N.lt_wf_0 x) as [x _ IH]. intros s.
  destruct (decide (0 < x)%N) as [Hx|Hx]; [|by assert (x = 0%N) as -> by lia].
  rewrite (pretty_N_go_step x s Hx).
  assert (Hm : (x `mod` 10 < 10)%N) by (by apply N.mod_lt).
  destruct (IH (x `div` 10)%N ltac:(apply N.div_lt; lia) (String (pretty_N_char (x `mod` 10)) s)) as [E HF].
  destruct (digit_pretty _ Hm) as [Ed Hd]. split.
  - rewrite E. change (to_bytes (String ?c s)) with (c :: to_bytes s). cbn [digits]. rewrite Ed. simpl.
    f_equal. rewrite (N.div_mod x 10) at 3 by lia. lia.
  - intros Hs. apply HF. by constructor.
Qed.

Lemma pretty_N_to_Z z : (0 < z)%Z → pretty z = pretty_N_go (Z.to_N z) "".
Proof. intros Hz. destruct z as [|p|p]; [lia| |lia]. by unfold pretty, pretty_Z, pretty_positive. Qed.

Lemma pretty_digits z : (0 ≤ z)%Z → Forall is_digit (to_bytes (pretty z)).
Proof.
  intros Hz. destruct (decide (z = 0)%Z) as [->|Hne].
  - apply (bool_decide_unpack (Forall is_digit _)). vm_compute. exact I.
  - rewrite pretty_N_to_Z by lia. by apply digits_pretty_go.
Qed.

Lemma Atoi_pretty z : (0 ≤ z < 2 ^ 63)%Z → Atoi (pretty z) = Some z.
Proof.
  intros Hz. unfold Atoi. assert (Hd : ∃ b l, to_bytes (pretty z) = b :: l ∧ digits 0 (b :: l) = Some z).
  { destruct (decide (z = 0)%Z) as [->|Hne]; [by exists (byte_of 48), []|].
    rewrite pretty_N_to_Z by lia. destruct (digits_pretty_go (Z.to_N z) "") as [E _]. simpl in E.
    rewrite Z2N.id in E by lia. destruct (to_bytes (pretty_N_go (Z.to_N z) "")) as [|b l].
    - simpl in E. injection E. lia.
    - eauto. }
  destruct Hd as (b & l & Hl & Hd). pose proof (pretty_digits z ltac:(lia)) as HF. rewrite Hl in HF.
  inversion HF as [|? ? [Hb1 Hb2] _]; subst. rewrite Hl.
  assert (∀ n, (n < 48)%N → beqb b (byte_of n) = false) as Hb.
  { intros n Hn. apply beqb_ne. intros ->. unfold byte_of in *.
    rewrite Ascii.N_ascii_embedding in Hb1 by lia. lia. }
  rewrite !Hb by lia. rewrite Hd. simpl.
  destruct (Z.leb_spec (- 2 ^ 63) z), (Z.ltb_spec z (2 ^ 63)); simpl; (done || lia).
Qed.

(** The [Accounts] section of the configuration. *)
Class AccountsConfig := {
  UserAddCmd : string;
  UserDelCmd : string;
  GroupAddCmd : string;
  GPasswdAddCmd : string;
  GPasswdRemoveCmd : string;
  ReuseHomedir : bool;
  DeprovisionRemove : bool;
  Groups : string;
}.

(** What running a command gives: its output, an exit code, another error. *)
Inductive run_outcome := RunOk (out : string) | RunExit (code : Z) | RunErr (e : error).

Record command := mkCommand { argv : list string; input : string }.

(** The outcome of the [n]-th call, and the owner of a directory. *)
Class Commands := {
  run_command : nat → command → run_outcome;
  dir_owner : nat → string → result (Z * Z);
}.

(** [exec.LookPath] at the [n]-th command. *)
Class LookPath := exec_LookPath : nat → string → result string.

Record host := mkHost { hfs : fs; ran : list command }.

#[global] Instance host_HasFS : HasFS host :=
  {| fs_of := hfs; set_fs f h := mkHost f (ran h) |}.
#[global] Instance host_LawfulFS : LawfulFS host.
Proof. split; [done|done|by intros []]. Qed.

Definition systemsHomeDir : string := "/home".
Definition googleUsersFile : string := "/var/lib/google/google_users".

Section operations.
Context `{AccountsConfig} `{Commands} `{OsFaults} `{SafeWrite.TempNames}.

(** [run.WithContext]. *)
Definition WithContext (c : command) : M host run_outcome :=
  λ h, Some (mkHost (hfs h) (ran h ++ [c]), run_command (length (ran h)) c).

(** ** Users and groups of the system *)
Definition UnixUID (u : User) : option Z := Atoi (UID u).
Definition UnixGID (u : User) : option Z := Atoi (GID u).

Definition ValidateUnixIDS (u : User) : option error :=
  match Atoi (UID u), Atoi (GID u) with
  | None, _ => Some (ErrMsg "failed to convert UID to int")
  | _, None => Some (ErrMsg "failed to convert GID to int")
  | _, _ => None
  end.

Definition ValidateUnixGID (g : Group) : option error :=
  match Atoi (Group_GID g) with
  | None => Some (ErrMsg "failed to convert GID to int")
  | Some _ => None
  end.

(** [strings.SplitN(s, c, n)]. *)
Fixpoint SplitN (n : nat) (s : string) (c : byte) : list string :=
  match n with
  | 0 | 1 => [s]
  | S n => match Cut s c with
           | (b, a, true) => b :: SplitN n a c
           | _ => [s]
           end
  end.

Definition colon : byte := byte_of 58.

Definition parsePasswdEntry (line username : string) : result User :=
  let line := TrimSpace (TrimSuffix line (String nl "")) in
  if negb (HasPrefix line (username +:+ ":")) then Err (ErrMsg "invalid passwd entry, expected prefix")
  else
    match SplitN 7 line colon with
    | [name; pw; uid; gid; gecos; home; shell] =>
        let res := mkUser name pw uid gid gecos home shell in
        match ValidateUnixIDS res with
        | Some e => Err e
        | None => Ok res
        end
    | _ => Err (ErrMsg "invalid passwd entry")
    end.

Definition parseGroupEntry (line groupName : string) : result Group :=
  let line := TrimSpace (TrimSuffix line (String nl "")) in
  if negb (HasPrefix line (groupName +:+ ":")) then Err (ErrMsg "invalid group entry, expected prefix")
  else
    match SplitN 4 line colon with
    | [name; _; gid; members] =>
        let res := mkGroup name gid
          (filter (λ m, TrimSpace m ≠ "") (Split members (byte_of 44))) in
        match ValidateUnixGID res with
        | Some e => Err e
        | None => Ok res
        end
    | _ => Err (ErrMsg "invalid passwd entry")
    end.

Definition getentNoSuchKey : Z := 2.
Definition UnknownUserError : error := ErrMsg "user: unknown user".
Definition UnknownGroupError : error := ErrMsg "group: unknown group".

Definition FindUser (username : string) : M host (result User) :=
  r ← WithContext (mkCommand ["getent"; "passwd"; username] "");
  mret (match r with
        | RunExit code =>
            if (code =? getentNoSuchKey)%Z then Err UnknownUserError
            else Err (ErrMsg "could not get user list")
        | RunErr e => Err (ErrWrap "could not get user list" e)
        | RunOk out =>
            match parsePasswdEntry out username with
            | Err e => Err (ErrWrap "could not parse user" e)
            | Ok u => Ok u
            end
        end).

Definition FindGroup (groupName : string) : M host (result Group) :=
  r ← WithContext (mkCommand ["getent"; "group"; groupName] "");
  mret (match r with
        | RunExit code =>
            if (code =? getentNoSuchKey)%Z then Err UnknownGroupError
            else Err (ErrMsg "could not get group")
        | RunErr e => Err (ErrWrap "could not get group" e)
        | RunOk out =>
            match parseGroupEntry out groupName with
            | Err e => Err (ErrWrap "could not parse group" e)
            | Ok g => Ok g
            end
        end).

(** ** Command templates *)
Definition execCommandTemplate (tpl : string) (u : option User) (g : option Group) : string :=
  let out := match u with Some u => Replace1 tpl "{user}" (Username u) | None => tpl end in
  match g with Some g => Replace1 out "{group}" (Group_Name g) | None => out end.

Definition pipe : byte := byte_of 124.

(** The command a template stands for; [None] when it has no word. *)
Definition template_command (cmd : string) (u : option User) (g : option Group) : option command :=
  let '(before, after, found) := Cut cmd pipe in
  let inp := if (found : bool) then execCommandTemplate before u g else "" in
  let cmd := if (found : bool) then after else cmd in
  match Fields (execCommandTemplate cmd u g) with
  | [] => None
  | tokens => Some (mkCommand tokens inp)
  end.

Definition runCommandTemplate (cmd : string) (u : option User) (g : option Group) : M host (option error) :=
  match template_command cmd u g with
  | None => mret (Some (ErrMsg "no command configured"))
  | Some c =>
      r ← WithContext c;
      mret (match r with
            | RunOk _ => None
            | RunExit _ => Some (ErrMsg "exit status")
            | RunErr e => Some e
            end)
  end.

(** ** The file of the users the agent created *)

(** The lines [bufio.Scanner] gives (they are within its token limit): a
    carriage return at the end of a line is dropped, and so is an empty last
    line. *)
Definition scan_lines (content : string) : list string :=
  (λ l, TrimSuffix l (String (byte_of 13) "")) <$>
    (match rev (Split content nl) with
     | "" :: rest => rev rest
     | _ => Split content nl
     end).

(** [os.OpenFile] with [O_RDWR|O_CREATE|O_APPEND]: the content to scan. *)
Definition open_append (p : string) : M host (result string) :=
  with_fs "open" p fail_result (λ m,
    match resolve m p with
    | Some (_, NFile d) => (m, Ok d)
    | Some (_, _) => (m, Err ErrIsDir)
    | None => (<[p := NFile ""]> m, Ok "")
    end).

(** [WriteString] on the file opened for appending; a fault may leave part. *)
Definition append_string (p data : string) : M host (option error) :=
  with_fs "write" p
    (λ ft m, (match fault_left ft, resolve m p with
              | Some part, Some (q, NFile d) => <[q := NFile (d +:+ part)]> m
              | _, _ => m
              end, Some (fault_err ft)))
    (λ m, match resolve m p with
          | Some (q, NFile d) => (<[q := NFile (d +:+ data)]> m, None)
          | _ => (m, Some ErrInvalid)
          end).

Definition addToGUsers (username : string) : M host (option error) :=
  e ← os_MkdirAll (Dir googleUsersFile);
  match e with
  | Some e => mret (Some (ErrWrap "could not create directory for google_users" e))
  | None =>
      c ← open_append googleUsersFile;
      match c with
      | Err e => mret (Some (ErrWrap "failed to open google_users file" e))
      | Ok content =>
          if bool_decide (username ∈ scan_lines content) then mret None
          else
            e ← append_string googleUsersFile (username +:+ String nl "");
            mret (ErrWrap "failed to append" <$> e)
      end
  end.

(** The lines without the first one that is the user's; [None] without one. *)
Fixpoint without (username : string) (lines : list string) : option (list string) :=
  match lines with
  | [] => None
  | line :: rest =>
      if bool_decide (line = username) then Some rest
      else (λ l, line :: l) <$> without username rest
  end.

Definition removeFromGUsers (username : string) : M host (option error) :=
  x ← Exists googleUsersFile TypeFile;
  if negb x then mret None
  else
    d ← os_ReadFile googleUsersFile;
    match d with
    | Err e => mret (Some (ErrWrap "could not read google user's file" e))
    | Ok d =>
        match without username (Split d nl) with
        | None => mret None
        | Some lines =>
            e ← SafeWrite.SaferWriteFile (Join lines (String nl "")) googleUsersFile
                  (SafeWrite.mkOptions 384 None);
            mret (ErrWrap "failed writing google users file" <$> e)
        end
    end.

Definition ListGoogleUsers : M host (result (list string)) :=
  d ← os_ReadFile googleUsersFile;
  mret (match d with
        | Err e => if IsNotExist e then Ok [] else Err (ErrWrap "could not read google_users file" e)
        | Ok d => Ok (filter (λ l, l ≠ "") (Split d nl))
        end).

(** ** Creating and deleting *)
Definition userHomeDirUIDAndGID (uname : string) : M host (result (Z * Z)) :=
  gets (λ h, match dir_owner (length (ran h)) (path_Join [systemsHomeDir; uname]) with
             | Ok o => Ok o
             | Err e => Err (ErrWrap "could not stat user's directory" e)
             end).

Definition reuseHomeDir (username : string) (useUID useGID : Z) : M host (Z * Z) :=
  if negb ReuseHomedir then mret (useUID, useGID)
  else
    o ← userHomeDirUIDAndGID username;
    mret (match o with Err _ => (useUID, useGID) | Ok o => o end).

Definition CreateUser (u : User) : M host (option error) :=
  uid ← some_or_panic (UnixUID u);
  gid ← some_or_panic (UnixGID u);
  '(useUID, useGID) ← reuseHomeDir (Username u) uid gid;
  let cmd := UserAddCmd in
  let cmd := if (0 <? useUID)%Z then cmd +:+ " -u " +:+ pretty useUID else cmd in
  let cmd := if (0 <? useGID)%Z then cmd +:+ " -g " +:+ pretty useGID else cmd in
  e ← runCommandTemplate cmd (Some u) None;
  match e with
  | Some e => mret (Some (ErrWrap "failed to run useraddcmd" e))
  | None => _ ← addToGUsers (Username u); mret None
  end.

Definition CreateGroup (groupName : string) : M host (option error) :=
  e ← runCommandTemplate GroupAddCmd None (Some (mkGroup groupName "" []));
  mret (ErrWrap "failed run group add command" <$> e).

(** A nil group or user is an error. *)
Definition AddUserToGroup (u : User) (g : option Group) : M host (option error) :=
  match g with
  | None => mret (Some (ErrMsg "group is nil"))
  | Some g =>
      e ← runCommandTemplate GPasswdAddCmd (Some u) (Some g);
      mret (ErrWrap "failed to run password add command" <$> e)
  end.

Definition RemoveUserFromGroup (u : User) (g : option Group) : M host (option error) :=
  match g with
  | None => mret (Some (ErrMsg "group is nil"))
  | Some g =>
      e ← runCommandTemplate GPasswdRemoveCmd (Some u) (Some g);
      mret (ErrWrap "failed to run gpasswd_remove_cmd" <$> e)
  end.

Definition DelUser (u : User) : M host (option error) :=
  e ← runCommandTemplate UserDelCmd (Some u) None;
  match e with
  | Some e => mret (Some (ErrWrap "failed to run userdel_cmd" e))
  | None => removeFromGUsers (Username u)
  end.

End operations.

(** ** The password database *)

(** The line [getent] prints for a user. *)
Definition passwd_line (u : User) : string :=
  Username u +:+ String colon (Password u +:+ String colon (UID u +:+ String colon
    (GID u +:+ String colon (User_Name u +:+ String colon (HomeDir u +:+ String colon (Shell u)))))).

Definition passwd_entry (u : User) : Prop :=
  Forall (lacks colon) [Username u; Password u; UID u; GID u; User_Name u; HomeDir u] ∧
  TrimSpace (passwd_line u) = passwd_line u ∧ ValidateUnixIDS u = None.

#[global] Instance passwd_entry_dec u : Decision (passwd_entry u).
Proof. unfold passwd_entry. apply _. Defined.

Section users.
Context `{Commands}.

(** Looking up a user gives back every field of the entry the system
    prints for it, with ids that can be used as integers. *)
Theorem FindUser_roundtrip (u : User) (h : host) :
  passwd_entry u →
  run_command (length (ran h)) (mkCommand ["getent"; "passwd"; Username u] "") =
    RunOk (passwd_line u +:+ String nl "") →
  ∃ h', FindUser (Username u) h = Some (h', Ok u) ∧ is_Some (UnixUID u) ∧ is_Some (UnixGID u).
Proof.
  intros (Hl & Ht & Hv) Hr. unfold FindUser, WithContext, mbind, M_bind. rewrite Hr.
  exists (mkHost (hfs h) (ran h ++ [mkCommand ["getent"; "passwd"; Username u] ""])).
  unfold parsePasswdEntry. rewrite TrimSuffix_app, Ht.
  assert (HasPrefix (passwd_line u) (Username u +:+ ":") = true) as ->.
  { apply HasPrefix_spec. eexists. unfold passwd_line. by rewrite append_assoc. }
  simpl. unfold passwd_line. repeat apply Forall_cons in Hl as [? Hl].
  do 6 (rewrite Cut_app by done). simpl. destruct u. simpl in *. rewrite Hv.
  split; [reflexivity|]. unfold ValidateUnixIDS, UnixUID, UnixGID in *. simpl in *.
  destruct (Atoi UID0), (Atoi GID0); done || eauto.
Qed.
End users.

(** ** The file of Google users *)
Definition valid_name (u : string) : Prop :=
  u ≠ "" ∧ lacks nl u ∧ HasSuffix u (String (byte_of 13) "") = false.

#[global] Instance valid_name_dec u : Decision (valid_name u).
Proof. unfold valid_name. apply _. Defined.

(** The file lists [l], one name per line. *)
Definition lists (l : list string) (h : host) : Prop :=
  Forall valid_name l ∧ nodes (hfs h) !! googleUsersFile = Some (NFile (unlines l)).

Definition add_name (u : string) (l : list string) : list string :=
  if bool_decide (u ∈ l) then l else l ++ [u].

Lemma valid_lacks l : Forall valid_name l → Forall (lacks nl) l.
Proof. intros Hl. eapply Forall_impl; [exact Hl|]. by intros u (_ & ? & _). Qed.

Lemma scan_unlines l : Forall valid_name l → scan_lines (unlines l) = l.
Proof.
  intros Hl. unfold scan_lines. rewrite Split_unlines by (by apply valid_lacks).
  rewrite rev_app_distr. simpl. rewrite rev_involutive.
  induction Hl as [|u l (_ & _ & Hu) _ IH]; [done|]. cbn [fmap list_fmap]. by rewrite IH, TrimSuffix_none.
Qed.

Lemma without_snoc u l : u ≠ "" → without u (l ++ [""]) = (λ l, l ++ [""]) <$> without u l.
Proof.
  intros Hu. induction l as [|x l IH]; simpl; [by rewrite bool_decide_eq_false_2|].
  case_bool_decide; [done|]. rewrite IH. by destruct (without u l).
Qed.

Lemma without_sub u l l' : without u l = Some l' → ∀ x, x ∈ l' → x ∈ l.
Proof.
  revert l'. induction l as [|x l IH]; intros l'; simpl; [done|].
  case_bool_decide; [intros [= <-]; set_solver|]. intros (l1 & E & ->)%fmap_Some_1.
  specialize (IH _ E). set_solver.
Qed.

Section google_users.
Context `{OsFaults} `{SafeWrite.TempNames}.
Hypothesis suffix_ok : ∀ t n, SafeWrite.temp_suffix t n ≠ "" ∧ lacks slash (SafeWrite.temp_suffix t n).
(** A call that fails does not claim that the file is missing, and looking a
    file up does not fail. *)
Hypothesis faults_ok : ∀ n op p ft, os_fault n op p = Some ft →
  IsNotExist (fault_err ft) = false ∧ op ≠ "stat".

(** The file of created users behaves as a list of names, whatever reads
    and writes fail: adding a name leaves it in the list once, removing one
    takes its first occurrence out (and a failed removal changes nothing), and
    listing gives exactly the names. *)
Theorem google_users_file (l : list string) (u : string) (h : host) :
  lists l h → valid_name u →
  wp (addToGUsers u) (λ e h', e = None → lists (add_name u l) h') h ∧
  wp (removeFromGUsers u)
     (λ e h', lists (match e with None => default l (without u l) | Some _ => l end) h') h ∧
  wp ListGoogleUsers (λ r h', lists l h' ∧ ∀ us, r = Ok us → us = l) h.
Proof.
  intros [Hl Hf] Hu. pose proof Hu as (Hne & Hnl & _). split; [|split].
  - unfold addToGUsers. wp_step. apply wp_with_fs; intros; cbn [snd fst fail_err]; [by wp_step|].
    wp_step. set (m1 := mkdir_all (Dir googleUsersFile) (nodes (hfs h))).
    assert (Hm1 : m1 !! googleUsersFile = Some (NFile (unlines l))) by (by apply SafeWrite.foldl_make_dir_keeps).
    apply wp_with_fs; intros; rewrite ?fs_of_set_fs; simpl; [by wp_step|]. fold m1.
    rewrite (resolve_file _ _ _ Hm1). cbn [snd fst]. rewrite scan_unlines by done.
    unfold add_name. case_bool_decide; [wp_step; by intros _|].
    wp_step. apply wp_with_fs; intros; rewrite ?fs_of_set_fs; simpl; [by wp_step|]. fold m1.
    rewrite (resolve_file _ _ _ Hm1). wp_step. intros _. split; [apply Forall_app; auto|].
    simpl. rewrite lookup_insert_eq. by rewrite unlines_snoc.
  - unfold removeFromGUsers, Exists. wp_step. wp_step. apply wp_with_fs; intros.
    { by edestruct faults_ok as [_ []]. }
    simpl. rewrite (resolve_file _ _ _ Hf). do 2 wp_step. apply wp_with_fs; intros; simpl.
    { wp_step. by split. }
    rewrite (resolve_file _ _ _ Hf). simpl. rewrite Split_unlines, without_snoc by (done || by apply valid_lacks).
    destruct (without u l) as [l'|] eqn:Ew; simpl; [|wp_step; by split].
    wp_step. eapply wp_mono; [apply (SafeWrite.wp_SaferWriteFile suffix_ok)|].
    { vm_compute. split; [reflexivity|set_solver]. }
    intros [e|] h' [Hc _]; wp_step; [split; [done|]; etrans; [exact Hc|exact Hf]|split; [|exact Hc]].
    apply Forall_forall. intros x Hx. rewrite Forall_forall in Hl. eapply Hl, without_sub; eassumption.
  - unfold ListGoogleUsers. wp_step. apply wp_with_fs; intros; simpl.
    + wp_step. split; [by split|]. intros us. by rewrite (proj1 (faults_ok _ _ _ _ H1)).
    + wp_step. rewrite (resolve_file _ _ _ Hf). split; [by split|]. intros us [= <-].
      rewrite Split_unlines by (by apply valid_lacks). rewrite filter_app. simpl.
      rewrite app_nil_r. clear Hf. induction Hl as [|x l (Hx & _) _ IH]; [done|].
      by rewrite filter_cons_True, IH by done.
Qed.
End google_users.

(** ** Concrete systems *)
Definition alice : User := mkUser "alice" "x" "1001" "1002" "Alice A." "/home/alice" "/bin/bash".

#[local] Instance alice_system : Commands := {|
  run_command _ c := RunOk ("alice:x:1001:1002:Alice A.:/home/alice:/bin/bash" +:+ String nl "");
  dir_owner _ _ := Err ErrNotExist;
|}.

Definition users_host : host := mkHost (mkFs {[googleUsersFile := NFile (unlines ["alice"; "bob"])]} 0) [].

Lemma FindUser_roundtrip_witness :
  ∃ h', FindUser "alice" users_host = Some (h', Ok alice) ∧ is_Some (UnixUID alice) ∧ is_Some (UnixGID alice).
Proof.
  apply (FindUser_roundtrip alice users_host); [|vm_compute; reflexivity].
  split; [repeat constructor; vm_compute; set_solver|]. split; vm_compute; reflexivity.
Defined.

Lemma google_users_file_witness :
  wp (@addToGUsers no_faults "carol") (λ e h', e = None → lists ["alice"; "bob"; "carol"] h') users_host ∧
  wp (@removeFromGUsers no_faults SafeWrite.numbered "alice")
     (λ e h', lists (match e with None => ["bob"] | Some _ => ["alice"; "bob"] end) h') users_host.
Proof.
  destruct (@google_users_file no_faults SafeWrite.numbered SafeWrite.numbered_ok
    ltac:(discriminate) ["alice"; "bob"] "carol" users_host) as [Ha _].
  - split; [repeat constructor; vm_compute; (discriminate || set_solver)|reflexivity].
  - split_and!; vm_compute; (discriminate || set_solver).
  - destruct (@google_users_file no_faults SafeWrite.numbered SafeWrite.numbered_ok
      ltac:(discriminate) ["alice"; "bob"] "alice" users_host) as [_ [Hr _]].
    + split; [repeat constructor; vm_compute; (discriminate || set_solver)|reflexivity].
    + split_and!; vm_compute; (discriminate || set_solver).
    + split; [exact Ha|exact Hr].
Defined.

End Accounts.
