(* ===== verification/SshUtil.v ===== *)
(** * internal/utils/ssh: the entries of the [ssh-keys] metadata

    ssh.go: splitting an entry into user and key, the validation of user names,
    the expiration of Google keys.  The parser of authorized keys, the JSON
    decoder and the parser of time stamps are outside the repository; the clock
    is read once per comparison. *)
From S2P Require Import Prelude GoStrings GoStringFacts.

Module SshUtil.

Class SshLibrary := {
  (** [ssh.ParseAuthorizedKey]: the comment of the key. *)
  ParseAuthorizedKey : string → result string;
  (** [json.Unmarshal] into [sshExpiration]: the [ExpireOn] field. *)
  json_ExpireOn : string → result string;
  (** [time.Parse(layout, value)] as nanoseconds. *)
  time_Parse : string → string → result Z;
  (** [time.Now()] at the [n]-th reading. *)
  time_Now : nat → Z;
}.

(** A state with a clock. *)
Class HasClock (S : Type) := {
  clock_of : S → nat;
  set_clock : nat → S → S;
}.

Class LawfulClock (S : Type) `{HasClock S} := {
  clock_of_set : ∀ n (s : S), clock_of (set_clock n s) = n;
  set_clock_set : ∀ n m (s : S), set_clock n (set_clock m s) = set_clock n s;
  set_clock_of : ∀ s : S, set_clock (clock_of s) s = s;
}.

#[global] Instance nat_HasClock : HasClock nat := {| clock_of := λ n, n; set_clock := λ n _, n |}.
#[global] Instance nat_LawfulClock : LawfulClock nat.
Proof. done. Qed.

Definition RFC3339 : string := "2006-01-02T15:04:05Z07:00".
Definition legacy_layout : string := "2006-01-02T15:04:05-0700".

Definition ErrExpiredKey : error := ErrMsg "invalid ssh key entry - expired key".

Definition space : byte := byte_of 32.
Definition colon : byte := byte_of 58.

(** The instant an expiration names: RFC 3339 first, then the old format; the
    error is that of RFC 3339. *)
Definition expiry `{SshLibrary} (expireOn : string) : result Z :=
  match time_Parse RFC3339 expireOn, time_Parse legacy_layout expireOn with
  | Ok t, _ => Ok t
  | Err _, Ok t => Ok t
  | Err e, Err _ => Err e
  end.

Definition ValidateUser (user : string) : option error :=
  if bool_decide (user = "") then Some (ErrMsg "invalid username - it is empty")
  else if bhas_space (to_bytes user) then Some (ErrMsg "invalid username - whitespace detected")
  else None.

Definition GetUserKey (rawKey : string) : result (string * string) :=
  let key := Trim rawKey space in
  if bool_decide (key = "") then Err (ErrMsg "invalid ssh key entry - empty key")
  else
    match Cut key colon with
    | (_, _, false) => Err (ErrMsg "invalid ssh key entry - unrecognized format. Expecting user:ssh-key")
    | (user, rest, true) =>
        if bool_decide (user = "") then Err (ErrMsg "invalid ssh key entry - user missing")
        else if bool_decide (rest = "") then Err (ErrMsg "invalid ssh key entry - key missing")
        else Ok (user, rest)
    end.

Section clocked.
Context `{SshLibrary} {S : Type} `{HasClock S}.

Definition now : M S Z := λ s, Some (set_clock (Datatypes.S (clock_of s)) s, time_Now (clock_of s)).

Definition CheckExpired (expireOn : string) : M S (bool * option error) :=
  match expiry expireOn with
  | Err e => mret (true, Some e)
  | Ok t => n ← now; mret (t <? n, None)%Z
  end.

Definition CheckExpiredKey (key : string) : M S (option error) :=
  let trimmedKey := Trim key space in
  if bool_decide (trimmedKey = "") then mret (Some (ErrMsg "invalid ssh key entry - empty key"))
  else
    match ParseAuthorizedKey trimmedKey with
    | Err e => mret (Some e)
    | Ok comment =>
        if negb (HasPrefix comment "google-ssh") then mret None
        else
          match SplitN2 comment space with
          | [_; field] =>
              match json_ExpireOn field with
              | Err e => mret (Some e)
              | Ok expireOn =>
                  '(expired, e) ← CheckExpired expireOn;
                  mret (match e with
                        | Some e => Some e
                        | None => if (expired : bool) then Some ErrExpiredKey else None
                        end)
              end
          | _ => mret (Some (ErrMsg "invalid ssh key entry - expiration missing"))
          end
    end.

Definition ValidateUserKey (user key : string) : M S (option error) :=
  match ValidateUser user with
  | Some e => mret (Some e)
  | None => CheckExpiredKey key
  end.

(** One iteration of the loop of [ParseKeys]. *)
Definition parse_key (username : string) (keyList : list string) (key : string) : M S (list string) :=
  match SplitN2 key colon with
  | [_; _] =>
      match GetUserKey key with
      | Err _ => mret keyList
      | Ok (user, keyVal) =>
          e ← ValidateUserKey user keyVal;
          mret (match e with
                | Some _ => keyList
                | None => if bool_decide (user = username) then keyList ++ [keyVal] else keyList
                end)
      end
  | _ => mret keyList
  end.

Definition ParseKeys (username : string) (keys : list string) : M S (list string) :=
  for_acc keys [] (parse_key username).

End clocked.

(** ** What the checks decide *)

(** Whether a key is refused at the instant [t]. *)
Definition key_error `{SshLibrary} (key : string) (t : Z) : option error :=
  let trimmedKey := Trim key space in
  if bool_decide (trimmedKey = "") then Some (ErrMsg "invalid ssh key entry - empty key")
  else
    match ParseAuthorizedKey trimmedKey with
    | Err e => Some e
    | Ok comment =>
        if negb (HasPrefix comment "google-ssh") then None
        else
          match SplitN2 comment space with
          | [_; field] =>
              match json_ExpireOn field with
              | Err e => Some e
              | Ok expireOn =>
                  match expiry expireOn with
                  | Err e => Some e
                  | Ok exp => if (exp <? t)%Z then Some ErrExpiredKey else None
                  end
              end
          | _ => Some (ErrMsg "invalid ssh key entry - expiration missing")
          end
    end.

Definition entry_error `{SshLibrary} (user key : string) (t : Z) : option error :=
  match ValidateUser user with Some e => Some e | None => key_error key t end.

Section checks.
Context `{SshLibrary} {S : Type} `{LawfulClock S}.
Hypothesis clock_monotone : ∀ n m, n ≤ m → (time_Now n ≤ time_Now m)%Z.

(** A refused key stays refused. *)
Lemma key_error_later key t t' :
  (t ≤ t')%Z → key_error key t ≠ None → key_error key t' ≠ None.
Proof.
  unfold key_error. intros Ht. repeat case_match; try done.
  destruct (Z.ltb_spec a1 t), (Z.ltb_spec a1 t'); try done; lia.
Qed.

Lemma entry_error_later user key t t' :
  (t ≤ t')%Z → entry_error user key t ≠ None → entry_error user key t' ≠ None.
Proof. unfold entry_error. case_match; [done|]. apply key_error_later. Qed.

(** The check of an entry reads the clock at most once, and decides as of that
    reading. *)
Lemma run_ValidateUserKey user key (s : S) :
  ∃ n, clock_of s ≤ n ∧
    ValidateUserKey user key s = Some (set_clock n s, entry_error user key (time_Now (clock_of s))).
Proof.
  unfold ValidateUserKey, entry_error, CheckExpiredKey, key_error, CheckExpired, now, mbind, M_bind, mret, M_ret.
  repeat case_match; simplify_eq/=;
    first [match goal with |- ∃ n, clock_of ?x ≤ n ∧ _ => exists (clock_of x) end;
             split; [done|]; by rewrite set_clock_of
          |eexists; split; [|reflexivity]; lia].
Qed.

End checks.

End SshUtil.
