(* ===== verification/Metadata.v ===== *)
(** * internal/metadata: the attributes of the instance and the project

    The decoding of the attributes (unmarshal.go) from the strings of the
    metadata server's answer, and the questions the agent asks of a descriptor
    (exported.go).  JSON itself is decoded outside: [inner] is the structure of
    strings [attributes.UnmarshalJSON] decodes to, [windowsKey] the structure a
    windows key decodes to. *)
From S2P Require Import Prelude GoStrings GoStringFacts SshUtil.

Module Metadata.

Record windowsKey := mkWindowsKey {
  Email : string;
  ExpireOn : string;
  Exponent : string;
  Modulus : string;
  UserName : string;
  HashFunction : string;
  AddToAdministrators : option bool;
  PasswordLength : Z;
}.

(** [json.Unmarshal] of one windows key. *)
Class WindowsKeyCodec := json_windowsKey : string → result windowsKey.

Record attributes := mkAttributes {
  CreatedBy : string;
  Hostname : string;
  BlockProjectKeys : bool;
  HTTPSMDSEnableNativeStore : option bool;
  DisableHTTPSMdsSetup : option bool;
  EnableCorePlugin : option bool;
  EnableOSLogin : option bool;
  EnableWindowsSSH : option bool;
  TwoFactor : option bool;
  SecurityKey : option bool;
  RequireCerts : option bool;
  SSHKeys : list string;
  WindowsKeys : list windowsKey;
  Diagnostics : string;
  DisableAddressManager : option bool;
  DisableAccountManager : option bool;
  EnableDiagnostics : option bool;
  EnableWSFC : option bool;
  WSFCAddresses : string;
  WSFCAgentPort : string;
  DisableTelemetry : bool;
  DisableDNSProbe : bool;
}.

Definition no_attributes : attributes :=
  mkAttributes "" "" false None None None None None None None None [] [] "" None None None None "" "" false false.

(** The strings of the answer; the windows keys one per line. *)
Record inner := mkInner {
  i_CreatedBy : string;
  i_BlockProjectKeys : string;
  i_Hostname : string;
  i_Diagnostics : string;
  i_DisableAccountManager : string;
  i_HTTPSMDSEnableNativeStore : string;
  i_DisableHTTPSMdsSetup : string;
  i_DisableAddressManager : string;
  i_EnableCorePlugin : string;
  i_EnableDiagnostics : string;
  i_EnableOSLogin : string;
  i_EnableWindowsSSH : string;
  i_EnableWSFC : string;
  i_OldSSHKeys : string;
  i_SSHKeys : string;
  i_TwoFactor : string;
  i_SecurityKey : string;
  i_RequireCerts : string;
  i_WindowsKeys : list windowsKey;
  i_WSFCAddresses : string;
  i_WSFCAgentPort : string;
  i_DisableTelemetry : string;
  i_DisableDNSProbe : string;
}.

Record Descriptor := mkDescriptor { Instance_ : attributes; Project_ : attributes }.

(** ** Decoding *)
Section decoding.
Context `{SshUtil.SshLibrary} `{WindowsKeyCodec} {S : Type} `{SshUtil.HasClock S}.

Definition windows_key (k : list windowsKey) (jskey : string) : M S (list windowsKey) :=
  match json_windowsKey jskey with
  | Err _ => mret k
  | Ok wk =>
      '(expired, err) ← SshUtil.CheckExpired (ExpireOn wk);
      mret (match err with
            | Some _ => k
            | None =>
                if negb (bool_decide (Exponent wk = "")) && negb (bool_decide (Modulus wk = "")) &&
                   negb (bool_decide (UserName wk = "")) && negb expired
                then k ++ [wk] else k
            end)
  end.

(** [windowsKeys.UnmarshalJSON] on the decoded JSON string. *)
Definition unmarshal_windowsKeys (s : string) : M S (list windowsKey) :=
  for_acc (Split s nl) [] windows_key.

End decoding.

(** A string that is no boolean leaves the field unset. *)
Definition unmarshal_attributes (temp : inner) : attributes :=
  let keys := if bool_decide (i_SSHKeys temp = "") then [] else Split (i_SSHKeys temp) nl in
  let old := negb (bool_decide (i_OldSSHKeys temp = "")) in
  mkAttributes (i_CreatedBy temp) (i_Hostname temp)
    (old || default false (ParseBool (i_BlockProjectKeys temp)))
    (ParseBool (i_HTTPSMDSEnableNativeStore temp))
    (ParseBool (i_DisableHTTPSMdsSetup temp))
    (ParseBool (i_EnableCorePlugin temp))
    (ParseBool (i_EnableOSLogin temp))
    (ParseBool (i_EnableWindowsSSH temp))
    (ParseBool (i_TwoFactor temp))
    (ParseBool (i_SecurityKey temp))
    (ParseBool (i_RequireCerts temp))
    (keys ++ (if old then Split (i_OldSSHKeys temp) nl else []))
    (i_WindowsKeys temp) (i_Diagnostics temp)
    (ParseBool (i_DisableAddressManager temp))
    (ParseBool (i_DisableAccountManager temp))
    (ParseBool (i_EnableDiagnostics temp))
    (ParseBool (i_EnableWSFC temp))
    (i_WSFCAddresses temp) (i_WSFCAgentPort temp)
    (default false (ParseBool (i_DisableTelemetry temp)))
    (default false (ParseBool (i_DisableDNSProbe temp))).

(** ** Questions *)
Definition AccountManagerDisabled (desc : Descriptor) : bool :=
  match DisableAccountManager (Instance_ desc) with
  | Some b => b
  | None => match DisableAccountManager (Project_ desc) with Some b => b | None => false end
  end.

Definition AddressManagerDisabled (desc : Descriptor) : bool :=
  match DisableAddressManager (Instance_ desc) with
  | Some b => b
  | None => match DisableAddressManager (Project_ desc) with Some b => b | None => false end
  end.

(** The project's value, overridden by the instance's. *)
Definition overridden (f : attributes → option bool) (desc : Descriptor) : bool :=
  let enable := match f (Project_ desc) with Some b => b | None => false end in
  match f (Instance_ desc) with Some b => b | None => enable end.

Definition OSLoginEnabled (desc : Descriptor) : bool := overridden EnableOSLogin desc.
Definition TwoFactorEnabled (desc : Descriptor) : bool := overridden TwoFactor desc.
Definition SecurityKeyEnabled (desc : Descriptor) : bool := overridden SecurityKey desc.
Definition CertRequiredEnabled (desc : Descriptor) : bool := overridden RequireCerts desc.

Definition WindowsSSHEnabled (desc : Descriptor) : bool :=
  match EnableWindowsSSH (Instance_ desc) with
  | Some b => b
  | None => match EnableWindowsSSH (Project_ desc) with Some b => b | None => false end
  end.

Section keys.
Context `{SshUtil.SshLibrary} {S : Type} `{SshUtil.HasClock S}.

(** The instance's and project's attributes are never nil here. *)
Definition UserSSHKeys (desc : Descriptor) (username : string) : M S (list string) :=
  instanceKeyList ← SshUtil.ParseKeys username (SSHKeys (Instance_ desc));
  if negb (BlockProjectKeys (Instance_ desc)) then
    projectKeyList ← SshUtil.ParseKeys username (SSHKeys (Project_ desc));
    mret (instanceKeyList ++ projectKeyList)
  else mret instanceKeyList.

End keys.

(** ** Theorems *)

(** The keys of a user that an entry of the metadata gives at an instant. *)
Definition authorized `{SshUtil.SshLibrary} (username entry key : string) (t : Z) : Prop :=
  SshUtil.GetUserKey entry = Ok (username, key) ∧ SshUtil.entry_error username key t = None.

Section theorems.
Context `{SshUtil.SshLibrary} {S : Type} `{SshUtil.LawfulClock S}.

Lemma wp_ParseKeys username (P : string → Prop) keys acc (s : S) :
  (∀ key, key ∈ acc → P key) →
  (∀ entry key n, entry ∈ keys → SshUtil.clock_of s ≤ n →
     authorized username entry key (SshUtil.time_Now n) → P key) →
  wp (for_acc keys acc (SshUtil.parse_key username))
     (λ ks s', (∀ key, key ∈ ks → P key) ∧ SshUtil.clock_of s ≤ SshUtil.clock_of s') s.
Proof.
  revert acc s. induction keys as [|entry keys IH]; intros acc s Hacc Hk; cbn [for_acc]; [by wp_step|].
  assert (Hskip : ∀ acc', (∀ key, key ∈ acc' → P key) →
    wp (for_acc keys acc' (SshUtil.parse_key username))
      (λ ks s', (∀ key, key ∈ ks → P key) ∧ SshUtil.clock_of s ≤ SshUtil.clock_of s') s).
  { intros acc' Ha. apply IH; [done|]. intros e k n He. apply (Hk e k n). by right. }
  wp_step. unfold SshUtil.parse_key at 1.
  destruct (SplitN2 entry SshUtil.colon) as [|a [|b [|]]]; try (wp_step; by apply Hskip).
  destruct (SshUtil.GetUserKey entry) as [[user key]|e] eqn:Eg; [|wp_step; by apply Hskip].
  wp_step. destruct (SshUtil.run_ValidateUserKey user key s) as (n & Hn & Hr).
  unfold wp at 1. rewrite Hr. cbn beta iota. wp_step.
  eapply wp_mono; [apply IH|].
  - destruct (SshUtil.entry_error user key _) eqn:Ee; [done|]. case_bool_decide; [subst user|done].
    intros k [Hin| ->%list_elem_of_singleton]%elem_of_app; [by apply Hacc|].
    by apply (Hk entry key (SshUtil.clock_of s)); [left|done|split].
  - intros e k m He Hm. apply (Hk e k m); [by right|]. rewrite SshUtil.clock_of_set in Hm. lia.
  - intros ks s' [Hks Hc]. rewrite SshUtil.clock_of_set in Hc. split; [done|lia].
Qed.

(** The keys the agent reports for a user (to sshd, through the authorized
    keys command) all come from a metadata entry of that user, name a user
    without white space, and were not expired at the instant of their check;
    the project's entries count only when the instance does not block them,
    which the legacy [sshKeys] attribute of the instance does; and the answer
    always comes. *)
Theorem UserSSHKeys_authorized (temp : inner) (project : attributes) (username : string) (s : S) :
  let desc := mkDescriptor (unmarshal_attributes temp) project in
  wp (UserSSHKeys desc username)
     (λ ks s', ∀ key, key ∈ ks →
        ∃ entry n, SshUtil.clock_of s ≤ n ∧ authorized username entry key (SshUtil.time_Now n) ∧
          (entry ∈ Split (i_SSHKeys temp) nl ∨ entry ∈ Split (i_OldSSHKeys temp) nl ∨
           entry ∈ SSHKeys project ∧ i_OldSSHKeys temp = "" ∧
             ParseBool (i_BlockProjectKeys temp) ≠ Some true)) s.
Proof.
  intros desc. unfold UserSSHKeys, SshUtil.ParseKeys. wp_step.
  set (P key := ∃ entry n, SshUtil.clock_of s ≤ n ∧ authorized username entry key (SshUtil.time_Now n) ∧
          (entry ∈ Split (i_SSHKeys temp) nl ∨ entry ∈ Split (i_OldSSHKeys temp) nl ∨
           entry ∈ SSHKeys project ∧ i_OldSSHKeys temp = "" ∧ ParseBool (i_BlockProjectKeys temp) ≠ Some true)).
  eapply wp_mono; [apply (wp_ParseKeys username P)|].
  - by intros key ?%elem_of_nil.
  - intros entry key n Hin Hn Ha. exists entry, n. split_and!; [done|done|]. unfold desc in Hin. simpl in Hin.
    apply elem_of_app in Hin as [Hin|Hin].
    + left. case_bool_decide; [by apply elem_of_nil in Hin|done].
    + right. left. case_bool_decide; [by apply elem_of_nil in Hin|done].
  - intros ks s1 [Hks Hc]. destruct (negb _) eqn:Eb; [|by wp_step].
    wp_step. eapply wp_mono; [apply (wp_ParseKeys username P)|].
    + by intros key ?%elem_of_nil.
    + intros entry key n Hin Hn Ha. exists entry, n. split_and!; [lia|done|]. right. right.
      apply negb_true_iff, orb_false_iff in Eb as [Eo Eb]. split; [done|].
      apply negb_false_iff, bool_decide_eq_true in Eo. split; [done|]. by intros E; rewrite E in Eb.
    + intros ks2 s2 [Hks2 _]. wp_step. intros key [Hin|Hin]%elem_of_app; [by apply Hks|by apply Hks2].
Qed.

End theorems.

(** Every setting that exists at both levels follows the instance when the
    instance sets it, else the project, else it is off, and a text that is no
    boolean counts as not set. *)
Theorem instance_overrides_project (ti tp : inner) :
  let desc := mkDescriptor (unmarshal_attributes ti) (unmarshal_attributes tp) in
  let setting (f : inner → string) :=
    match ParseBool (f ti), ParseBool (f tp) with
    | Some b, _ => b
    | None, Some b => b
    | None, None => false
    end in
  OSLoginEnabled desc = setting i_EnableOSLogin ∧
  TwoFactorEnabled desc = setting i_TwoFactor ∧
  SecurityKeyEnabled desc = setting i_SecurityKey ∧
  CertRequiredEnabled desc = setting i_RequireCerts ∧
  WindowsSSHEnabled desc = setting i_EnableWindowsSSH ∧
  AccountManagerDisabled desc = setting i_DisableAccountManager ∧
  AddressManagerDisabled desc = setting i_DisableAddressManager.
Proof.
  unfold OSLoginEnabled, TwoFactorEnabled, SecurityKeyEnabled, CertRequiredEnabled, overridden,
    WindowsSSHEnabled, AccountManagerDisabled, AddressManagerDisabled, unmarshal_attributes; simpl.
  by split_and!; repeat case_match.
Qed.

(** ** A concrete answer of the server *)
#[local] Instance example_library : SshUtil.SshLibrary := {|
  SshUtil.ParseAuthorizedKey k :=
    if HasPrefix k "ssh-rsa expired" then Ok "google-ssh {}" else Ok "me@host";
  SshUtil.json_ExpireOn _ := Ok "then";
  SshUtil.time_Parse _ _ := Ok 5%Z;
  SshUtil.time_Now n := (10 + Z.of_nat n)%Z;
|}.

Definition example_inner (keys block oslogin : string) : inner :=
  mkInner "" block "" "" "" "" "" "" "" "" oslogin "" "" "" keys "" "" "" [] "" "" "" "".

Definition example_keys : string :=
  Join ["alice:ssh-rsa AAA"; "bob:ssh-rsa BBB"; "alice:ssh-rsa expired"] (String nl "").

Lemma UserSSHKeys_authorized_witness :
  UserSSHKeys (mkDescriptor (unmarshal_attributes (example_inner example_keys "true" ""))
                 (unmarshal_attributes (example_inner "alice:ssh-rsa PPP" "" ""))) "alice" 0
    = Some (1, ["ssh-rsa AAA"]) ∧
  wp (UserSSHKeys (mkDescriptor (unmarshal_attributes (example_inner example_keys "true" ""))
                     (unmarshal_attributes (example_inner "alice:ssh-rsa PPP" "" ""))) "alice")
     (λ ks _, ∀ key, key ∈ ks → ∃ entry n, 0 ≤ n ∧ authorized "alice" entry key (SshUtil.time_Now n)) 0.
Proof.
  split; [vm_compute; reflexivity|].
  eapply wp_mono; [apply (UserSSHKeys_authorized (example_inner example_keys "true" "")
    (unmarshal_attributes (example_inner "alice:ssh-rsa PPP" "" "")) "alice" 0)|].
  intros ks s' Hks key Hin. destruct (Hks key Hin) as (entry & n & Hn & Ha & _).
  exists entry, n. split; [exact Hn|exact Ha].
Defined.

End Metadata.
