(* ===== verification/SshKeys.v ===== *)
(** * cmd/core_plugin/metadatasshkey: accounts from the SSH keys of the metadata

    metadatasshkey.go and its Linux half: the valid keys of a descriptor with
    the cache of invalid ones, the decision whether anything changed, and the
    set up of users, groups and authorized_keys files through
    internal/accounts.  Go's map iteration order is taken to be that of
    [map_to_list]; no theorem depends on it. *)
From S2P Require Import Prelude GoStrings GoStringFacts Os FileUtil SafeWrite Accounts SshUtil Metadata.

Module SshKeys.
Import Accounts.

(** ** The module's state *)
Record state := mkState {
  sys : host;
  clock : nat;
  supplementalGroups : gmap string Group;
  onetimePlatformSetupFinished : bool;
  lastUserKeyMap : gmap string (list string);
  lastEnabled : bool;
  invalidKeys : gset string;
}.

Definition set_sys (h : host) (s : state) : state :=
  mkState h (clock s) (supplementalGroups s) (onetimePlatformSetupFinished s) (lastUserKeyMap s)
    (lastEnabled s) (invalidKeys s).
Definition set_time (n : nat) (s : state) : state :=
  mkState (sys s) n (supplementalGroups s) (onetimePlatformSetupFinished s) (lastUserKeyMap s)
    (lastEnabled s) (invalidKeys s).
Definition set_groups (m : gmap string Group) (s : state) : state :=
  mkState (sys s) (clock s) m (onetimePlatformSetupFinished s) (lastUserKeyMap s)
    (lastEnabled s) (invalidKeys s).
Definition set_onetime (b : bool) (s : state) : state :=
  mkState (sys s) (clock s) (supplementalGroups s) b (lastUserKeyMap s) (lastEnabled s) (invalidKeys s).
Definition set_last (m : gmap string (list string)) (b : bool) (s : state) : state :=
  mkState (sys s) (clock s) (supplementalGroups s) (onetimePlatformSetupFinished s) m b (invalidKeys s).
Definition set_invalid (x : gset string) (s : state) : state :=
  mkState (sys s) (clock s) (supplementalGroups s) (onetimePlatformSetupFinished s) (lastUserKeyMap s)
    (lastEnabled s) x.

#[global] Instance state_HasFS : HasFS state :=
  {| fs_of s := hfs (sys s); set_fs f s := set_sys (mkHost f (ran (sys s))) s |}.
#[global] Instance state_LawfulFS : LawfulFS state.
Proof. split; [done|done|by intros [[] ? ? ? ? ? ?]]. Qed.

#[global] Instance state_HasClock : SshUtil.HasClock state :=
  {| SshUtil.clock_of := clock; SshUtil.set_clock := set_time |}.
#[global] Instance state_LawfulClock : SshUtil.LawfulClock state.
Proof. split; [done|done|by intros []]. Qed.

Definition on_host {A} (m : M host A) : M state A := zoom sys set_sys m.

(** ** The authorized_keys file *)
Definition gComment : string := "# Added by Google".

(** The lines that are not the agent's: not blank, not the comment, not the
    line after a comment. *)
Fixpoint user_lines (isGoogle : bool) (lines : list string) : list string :=
  match lines with
  | [] => []
  | key :: lines =>
      if bool_decide (key = "") then user_lines isGoogle lines
      else if isGoogle then user_lines false lines
      else if bool_decide (key = gComment) then user_lines true lines
      else key :: user_lines false lines
  end.

Definition authorized_output (contents : string) (keys : list string) : string :=
  let userKeys := user_lines false (Split contents nl) in
  let out := Join userKeys (String nl "") in
  let out := if bool_decide (userKeys = []) then out else out +:+ String nl "" in
  foldl (λ out k, out +:+ (gComment +:+ String nl "" +:+ k +:+ String nl "")) out keys.

Definition googleSudoersConfig : string := "/etc/sudoers.d/google_sudoers".
Definition googleSudoersGroup : string := "google-sudoers".

Section operations.
Context `{AccountsConfig} `{Commands} `{OsFaults} `{SafeWrite.TempNames} `{SshUtil.SshLibrary} `{LookPath}.

Definition selinuxRestoreCon (path : string) : M state (option error) :=
  execPath ← gets (λ s, exec_LookPath (length (ran (sys s))) "restorecon");
  match execPath with
  | Err _ => mret None
  | Ok execPath =>
      r ← on_host (WithContext (mkCommand [execPath; path] ""));
      mret (match r with
            | RunOk _ => None
            | RunExit _ => Some (ErrMsg "failed to restore selinux context")
            | RunErr e => Some (ErrWrap "failed to restore selinux context" e)
            end)
  end.

Definition authorized_keys_path (user : User) : string :=
  path_Join [path_Join [HomeDir user; ".ssh"]; "authorized_keys"].

(** The .ssh directory, created when it is missing. *)
Definition ensure_ssh_dir (user : User) : M state (option error) :=
  let sshPath := path_Join [HomeDir user; ".ssh"] in
  x ← Exists sshPath TypeDir;
  if (x : bool) then mret None
  else
    e ← os_Mkdir sshPath;
    match e with
    | Some e => mret (Some e)
    | None =>
        uid ← some_or_panic (UnixUID user);
        gid ← some_or_panic (UnixGID user);
        SafeWrite.os_Chown sshPath uid gid
    end.

Definition write_authorized_keys (user : User) (contents : string) (keys : list string)
    : M state (option error) :=
  uid ← some_or_panic (UnixUID user);
  gid ← some_or_panic (UnixGID user);
  e ← SafeWrite.SaferWriteFile (authorized_output contents keys) (authorized_keys_path user)
        (SafeWrite.mkOptions 384 (Some (SafeWrite.mkGUID uid gid)));
  match e with
  | Some e => mret (Some (ErrWrap "failed to write authorized_keys file" e))
  | None =>
      g ← gets (λ s, supplementalGroups s !! googleSudoersGroup);
      e ← on_host (AddUserToGroup user g);
      match e with
      | Some e => mret (Some (ErrWrap "failed to add user to group" e))
      | None => selinuxRestoreCon (authorized_keys_path user)
      end
  end.

Definition updateSSHKeys (user : User) (keys : list string) : M state (option error) :=
  if bool_decide (HomeDir user = "") then mret (Some (ErrMsg "user has no homedir set"))
  else if bool_decide (Shell user = "/sbin/nologin") then mret None
  else
    e ← ensure_ssh_dir user;
    match e with
    | Some e => mret (Some e)
    | None =>
        if bool_decide (keys = []) then _ ← os_Remove (authorized_keys_path user); mret None
        else
          contents ← os_ReadFile (authorized_keys_path user);
          match contents with
          | Err e =>
              if IsNotExist e then write_authorized_keys user "" keys else mret (Some e)
          | Ok contents => write_authorized_keys user contents keys
          end
    end.

(** ** Users and groups *)
Definition ensureGroupExists (gname : string) : M state (option error) :=
  g ← on_host (FindGroup gname);
  match g with
  | Ok _ => mret None
  | Err _ => on_host (CreateGroup gname)
  end.

Definition ensureUserExists (username : string) : M state (result User) :=
  u ← on_host (FindUser username);
  match u with
  | Ok u => mret (Ok u)
  | Err _ =>
      e ← on_host (CreateUser (mkUser username "" "-1" "-1" "" "" ""));
      match e with
      | Some e => mret (Err (ErrWrap "failed to create user" e))
      | None =>
          u ← on_host (FindUser username);
          match u with
          | Err e => mret (Err (ErrWrap "could not find user after creation" e))
          | Ok u =>
              gs ← gets (λ s, (map_to_list (supplementalGroups s)).*2);
              _ ← for_each gs (λ g, _ ← on_host (AddUserToGroup u (Some g)); mret tt);
              mret (Ok u)
          end
      end
  end.

(** One Google user that is not active. *)
Definition deprovision (guser : string) : M state (option error) :=
  u ← on_host (FindUser guser);
  match u with
  | Err e => mret (Some (ErrWrap "not deprovisioning unused user, could not find local account" e))
  | Ok u =>
      if DeprovisionRemove then
        e ← on_host (DelUser u);
        mret (ErrWrap "error removing user account from system" <$> e)
      else
        e ← updateSSHKeys u [];
        match e with
        | Some e => mret (Some (ErrWrap "failed to remove user's ssh keys" e))
        | None =>
            g ← gets (λ s, supplementalGroups s !! googleSudoersGroup);
            e ← on_host (RemoveUserFromGroup u g);
            mret (ErrWrap "failed to remove user from group" <$> e)
        end
  end.

Definition deprovisionUnusedUsers (activeUsers : gmap string (list string)) : M state (list error) :=
  googleUsers ← on_host ListGoogleUsers;
  match googleUsers with
  | Err e => mret [ErrWrap "could not determine which users are unused, failed to list google users" e]
  | Ok googleUsers =>
      for_acc googleUsers [] (λ errs guser,
        if bool_decide (is_Some (activeUsers !! guser)) || bool_decide (guser = "") then mret errs
        else e ← deprovision guser; mret (errs ++ option_list e))
  end.

Definition setPlatformConfiguration : M state (list error) :=
  e1 ← os_WriteFile googleSudoersConfig
         ("%" +:+ googleSudoersGroup +:+ " ALL=(ALL:ALL) NOPASSWD:ALL" +:+ String nl "");
  for_acc (googleSudoersGroup :: Split Groups (byte_of 44))
    (option_list (ErrFmt "could not write sudo configuration" <$> e1))
    (λ errs gname,
       _ ← modify (λ s, set_groups (<[gname := mkGroup gname "" []]> (supplementalGroups s)) s);
       e ← ensureGroupExists gname;
       mret (errs ++ option_list (ErrFmt "could not find or create group" <$> e))).

Definition add_system_user (errs : list error) (uk : string * list string) : M state (list error) :=
  u ← ensureUserExists uk.1;
  match u with
  | Err e => mret (errs ++ [ErrFmt "giving up on ssh keys, failed to find or create user" e])
  | Ok u =>
      e ← updateSSHKeys u uk.2;
      mret (errs ++ option_list (ErrFmt "failed to update SSH keys" <$> e))
  end.

Definition addSystemUsers (newKeys : gmap string (list string)) : M state (list error) :=
  errs ← for_acc (map_to_list newKeys) [] add_system_user;
  es ← deprovisionUnusedUsers newKeys;
  mret (errs ++ (ErrFmt "error removing unused users" <$> es)).

(** ** The keys of a descriptor *)

(** One iteration of [findValidKeys]. *)
Definition find_valid_key (keyMap : gmap string (list string)) (key : string)
    : M state (gmap string (list string)) :=
  let key := TrimSpace key in
  if bool_decide (key = "") then mret keyMap
  else
    seen ← gets (λ s, bool_decide (key ∈ invalidKeys s));
    if (seen : bool) then mret keyMap
    else
      match SshUtil.GetUserKey key with
      | Err _ => _ ← modify (λ s, set_invalid ({[key]} ∪ invalidKeys s) s); mret keyMap
      | Ok (username, keycontent) =>
          e ← SshUtil.ValidateUserKey username keycontent;
          match e with
          | Some _ => _ ← modify (λ s, set_invalid ({[key]} ∪ invalidKeys s) s); mret keyMap
          | None => mret (<[username := default [] (keyMap !! username) ++ [keycontent]]> keyMap)
          end
      end.

(** The entries that count: the project's unless the instance blocks them. *)
Definition entries (desc : Metadata.Descriptor) : list string :=
  Metadata.SSHKeys (Metadata.Instance_ desc) ++
  (if negb (Metadata.BlockProjectKeys (Metadata.Instance_ desc))
   then Metadata.SSHKeys (Metadata.Project_ desc) else []).

Definition findValidKeys (desc : Metadata.Descriptor) : M state (gmap string (list string)) :=
  for_acc (entries desc) ∅ find_valid_key.

Definition isUserKeysMapEqual (m1 m2 : gmap string (list string)) : bool :=
  bool_decide (size m1 = size m2) &&
  forallb (λ uk : string * list string,
    match m2 !! uk.1 with
    | None => false
    | Some slice2 => bool_decide (sort_Strings uk.2 = sort_Strings slice2)
    end) (map_to_list m1).

Definition enableMetadataSSHKey (desc : Metadata.Descriptor) : bool := negb (Metadata.OSLoginEnabled desc).

(** The keys are looked for only when the enablement did not change. *)
Definition metadataChanged (desc : Metadata.Descriptor) : M state bool :=
  s ← get;
  if negb (Bool.eqb (enableMetadataSSHKey desc) (lastEnabled s)) then mret true
  else
    keys ← findValidKeys desc;
    mret (negb (isUserKeysMapEqual keys (lastUserKeyMap s))).

(** The outcome: whether nothing was done, and the errors. *)
Definition metadataSSHKeySetup (desc : Metadata.Descriptor) : M state (bool * list error) :=
  changed ← metadataChanged desc;
  if negb changed then mret (true, [])
  else
    let enabled := enableMetadataSSHKey desc in
    newKeys ← findValidKeys desc;
    _ ← modify (set_last newKeys enabled);
    if negb enabled then
      errs ← deprovisionUnusedUsers ∅; mret (false, errs)
    else
      finished ← gets onetimePlatformSetupFinished;
      errs ← (if (finished : bool) then mret []
              else
                errs ← setPlatformConfiguration;
                _ ← when (bool_decide (errs = [])) (modify (set_onetime true));
                mret errs);
      es ← addSystemUsers newKeys;
      mret (false, errs ++ es).

End operations.

(** ** Theorems: the authorized_keys file *)

(** The lines after the agent's comments. *)
Fixpoint google_lines (isGoogle : bool) (lines : list string) : list string :=
  match lines with
  | [] => []
  | key :: lines =>
      if bool_decide (key = "") then google_lines isGoogle lines
      else if isGoogle then key :: google_lines false lines
      else if bool_decide (key = gComment) then google_lines true lines
      else google_lines false lines
  end.

(** A key as [findValidKeys] gives them: one non-empty line. *)
Definition key_line (k : string) : Prop := k ≠ "" ∧ lacks nl k.

#[global] Instance key_line_dec k : Decision (key_line k).
Proof. unfold key_line. apply _. Defined.

Definition user_line (k : string) : Prop := key_line k ∧ k ≠ gComment.

Lemma user_lines_elem b lines k : k ∈ user_lines b lines → k ∈ lines ∧ k ≠ "" ∧ k ≠ gComment.
Proof.
  revert b. induction lines as [|l lines IH]; intros b; simpl; [by intros ?%elem_of_nil|].
  repeat case_bool_decide; try destruct b; intros Hk;
    try (apply IH in Hk as (? & ? & ?); split_and!; [by right|done|done]).
  apply elem_of_cons in Hk as [->|Hk]; [split_and!; [by left|done|done]|].
  apply IH in Hk as (? & ? & ?). split_and!; [by right|done|done].
Qed.

Lemma user_lines_ok contents : Forall user_line (user_lines false (Split contents nl)).
Proof.
  apply Forall_forall. intros k (Hin & Hne & Hc)%user_lines_elem. split; [|done]. split; [done|].
  pose proof (Split_lacks contents nl) as HF. rewrite Forall_forall in HF. by apply HF.
Qed.

(** The lines the agent writes for its keys. *)
Definition key_block (keys : list string) : list string := keys ≫= λ k, [gComment; k].

Lemma unlines_app ls ks : unlines (ls ++ ks) = unlines ls +:+ unlines ks.
Proof.
  induction ks as [|k ks IH] using rev_ind.
  - rewrite app_nil_r. unfold unlines at 3. unfold Join. simpl.
    apply to_bytes_eq. rewrite to_bytes_app. simpl. by rewrite app_nil_r.
  - rewrite app_assoc, <-!unlines_snoc, IH. by rewrite !append_assoc.
Qed.

Lemma output_unlines contents keys :
  authorized_output contents keys = unlines (user_lines false (Split contents nl) ++ key_block keys).
Proof.
  unfold authorized_output. set (us := user_lines false (Split contents nl)).
  assert (Hb : (if bool_decide (us = []) then Join us (String nl "")
                else Join us (String nl "") +:+ String nl "") = unlines us).
  { case_bool_decide as Hu; [by rewrite Hu|].
    by apply unlines_Join. }
  rewrite Hb, unlines_app. generalize (unlines us). clear.
  induction keys as [|k keys IH]; intros out; cbn [foldl].
  - unfold unlines, Join. simpl. apply to_bytes_eq. rewrite to_bytes_app. simpl. by rewrite app_nil_r.
  - rewrite IH. change (key_block (k :: keys)) with ([gComment; k] ++ key_block keys).
    assert (Hb : unlines [gComment; k] = gComment +:+ String nl "" +:+ k +:+ String nl "").
    { change [gComment; k] with (([] ++ [gComment]) ++ [k]). by rewrite <-!unlines_snoc. }
    rewrite unlines_app, Hb. by rewrite !append_assoc.
Qed.

Lemma scan_users us rest :
  Forall user_line us → user_lines false (us ++ rest) = us ++ user_lines false rest ∧
  google_lines false (us ++ rest) = google_lines false rest.
Proof.
  induction 1 as [|u us ((Hne & _) & Hc) _ [IH1 IH2]]; [done|]. simpl.
  rewrite !(bool_decide_eq_false_2 (u = "")), !(bool_decide_eq_false_2 (u = gComment)) by done.
  by rewrite IH1, IH2.
Qed.

Lemma scan_keys keys :
  Forall key_line keys →
  user_lines false (key_block keys ++ [""]) = [] ∧ google_lines false (key_block keys ++ [""]) = keys.
Proof.
  induction 1 as [|k keys [Hne _] _ [IH1 IH2]]; [done|]. simpl.
  rewrite !(bool_decide_eq_false_2 (k = "")) by done.
  change (key_block keys) with (keys ≫= λ k, [gComment; k]) in *. by rewrite IH1, IH2.
Qed.

Lemma key_block_lacks keys : Forall key_line keys → Forall (lacks nl) (key_block keys).
Proof.
  induction 1 as [|k keys [_ Hk] _ IH]; [by constructor|].
  change (key_block (k :: keys)) with (gComment :: k :: key_block keys).
  repeat constructor; [|done|done]. apply (bool_decide_unpack (lacks nl gComment)). vm_compute. exact I.
Qed.

Lemma user_lines_lacks us : Forall user_line us → Forall (lacks nl) us.
Proof. intros HF. eapply Forall_impl; [exact HF|]. by intros k [[_ ?] _]. Qed.

Lemma Split_output contents keys :
  Forall key_line keys →
  Split (authorized_output contents keys) nl =
    (user_lines false (Split contents nl) ++ key_block keys) ++ [""].
Proof.
  intros Hk. rewrite output_unlines. apply Split_unlines, Forall_app.
  split; [apply user_lines_lacks, user_lines_ok|by apply key_block_lacks].
Qed.

(** Rewriting an authorized_keys file keeps every line of the user's own,
    in order, makes the agent's keys exactly the new ones, and is stable:
    rewriting again with other keys is as if the first rewriting had not been,
    so doing it twice changes nothing more. *)
Theorem authorized_keys_rewrite (contents : string) (keys keys' : list string) :
  Forall key_line keys →
  let lines := Split (authorized_output contents keys) nl in
  user_lines false lines = user_lines false (Split contents nl) ∧
  google_lines false lines = keys ∧
  authorized_output (authorized_output contents keys) keys' = authorized_output contents keys'.
Proof.
  intros Hk lines. unfold lines. rewrite Split_output by done. rewrite <-!app_assoc.
  destruct (scan_users _ (key_block keys ++ [""]) (user_lines_ok contents)) as [E1 E2].
  destruct (scan_keys keys Hk) as [E3 E4]. rewrite E1, E2, E3, E4, app_nil_r. split_and!; [done|done|].
  rewrite (output_unlines (authorized_output contents keys)), Split_output by done.
  rewrite <-app_assoc, E1, E3, app_nil_r. by rewrite (output_unlines contents).
Qed.

(** ** Theorems: the comparison of key maps *)

(** The same users, each with the same keys, as often each. *)
Definition same_keys (m1 m2 : gmap string (list string)) : Prop :=
  ∀ u, match m1 !! u, m2 !! u with
       | Some l1, Some l2 => l1 ≡ₚ l2
       | None, None => True
       | _, _ => False
       end.

Lemma isUserKeysMapEqual_same m1 m2 : isUserKeysMapEqual m1 m2 = true ↔ same_keys m1 m2.
Proof.
  unfold isUserKeysMapEqual. rewrite andb_true_iff, bool_decide_eq_true, forallb_forall. split.
  - intros [Hsz Hall].
    assert (Hsub : ∀ u l, m1 !! u = Some l → ∃ l2, m2 !! u = Some l2 ∧ l ≡ₚ l2).
    { intros u l Hu. apply elem_of_map_to_list, list_elem_of_In, Hall in Hu. simpl in Hu.
      destruct (m2 !! u) as [l2|]; [|done]. exists l2. split; [done|].
      apply sort_Strings_eq. by apply bool_decide_eq_true in Hu. }
    intros u. destruct (m1 !! u) as [l1|] eqn:E1, (m2 !! u) as [l2|] eqn:E2; try done.
    + destruct (Hsub u l1 E1) as (? & ? & ?). by simplify_eq.
    + destruct (Hsub u l1 E1) as (? & ? & ?). by simplify_eq.
    + assert (Hd : dom m1 ⊂ dom m2).
      { split.
        - intros x [l Hl]%elem_of_dom. destruct (Hsub x l Hl) as (l' & Hl' & _). apply elem_of_dom. eauto.
        - intros Hs. apply not_elem_of_dom in E1. apply E1, Hs, elem_of_dom. eauto. }
      apply subset_size in Hd. rewrite !size_dom in Hd. lia.
  - intros Heq. split.
    + rewrite <-!size_dom. f_equal. apply set_eq. intros u. rewrite !elem_of_dom. specialize (Heq u).
      destruct (m1 !! u), (m2 !! u); (done || by split; intros [? ?]; eauto).
    + intros [u l] Hin%list_elem_of_In%elem_of_map_to_list. simpl. specialize (Heq u). rewrite Hin in Heq.
      destruct (m2 !! u) as [l2|]; [|done]. apply bool_decide_eq_true. by apply sort_Strings_eq.
Qed.

#[global] Instance same_keys_equivalence : Equivalence same_keys.
Proof.
  unfold same_keys. split.
  - intros m u. by destruct (m !! u).
  - intros m1 m2 Hm u. specialize (Hm u). destruct (m1 !! u), (m2 !! u); done.
  - intros m1 m2 m3 H12 H23 u. specialize (H12 u). specialize (H23 u).
    destruct (m1 !! u), (m2 !! u), (m3 !! u); try done. by etrans.
Qed.

(** Two key maps are equal for the agent exactly when they name the same
    users and give each the same keys, as often each, in whatever order. *)
Theorem isUserKeysMapEqual_spec (m1 m2 : gmap string (list string)) :
  isUserKeysMapEqual m1 m2 = true ↔
  ∀ u, match m1 !! u, m2 !! u with
       | Some l1, Some l2 => l1 ≡ₚ l2
       | None, None => True
       | _, _ => False
       end.
Proof. apply isUserKeysMapEqual_same. Qed.

(** ** Lifting facts from the system *)
Section lifting.
Implicit Types (s : state).

(** The part of the module's state that set-up fixes before it touches the
    system. *)
Definition keeps_memory s s' : Prop :=
  lastUserKeyMap s' = lastUserKeyMap s ∧ lastEnabled s' = lastEnabled s ∧
  clock s' = clock s ∧ invalidKeys s' = invalidKeys s.

#[global] Instance keeps_memory_preorder : PreOrder keeps_memory.
Proof. split; [done|]. intros ??? (?&?&?&?) (?&?&?&?). split_and!; congruence. Qed.

#[global] Instance keeps_memory_fs : IgnoresFS keeps_memory.
Proof. done. Qed.

Lemma keeps_memory_on_host {A} (m : M host A) : respects keeps_memory (on_host m).
Proof. by apply respects_zoom. Qed.

Lemma keeps_memory_modify (f : state → state) : (∀ s, keeps_memory s (f s)) → respects keeps_memory (modify f).
Proof. apply respects_modify. Qed.
End lifting.

#[export] Hint Resolve keeps_memory_on_host : respects.
#[export] Hint Extern 1 (total (on_host _)) => apply total_zoom : total.
#[export] Hint Extern 3 (respects keeps_memory (modify _)) => (apply keeps_memory_modify; by intros []) : respects.

Section setup.
Context `{AccountsConfig} `{Commands} `{OsFaults} `{SafeWrite.TempNames} `{SshUtil.SshLibrary} `{LookPath}.

Lemma keeps_memory_setPlatform : respects keeps_memory setPlatformConfiguration.
Proof. unfold setPlatformConfiguration, ensureGroupExists. respects_solve. Qed.

Lemma keeps_memory_update u ks : respects keeps_memory (updateSSHKeys u ks).
Proof.
  unfold updateSSHKeys, ensure_ssh_dir, write_authorized_keys, SafeWrite.SaferWriteFile, SafeWrite.WriteFile,
    SafeWrite.os_CreateTemp, SafeWrite.os_Chmod, SafeWrite.os_Chown, SafeWrite.os_change, selinuxRestoreCon.
  respects_solve.
Qed.

Lemma keeps_memory_deprovision m : respects keeps_memory (deprovisionUnusedUsers m).
Proof. unfold deprovisionUnusedUsers, deprovision. respects_solve; apply keeps_memory_update. Qed.

Lemma keeps_memory_add m : respects keeps_memory (addSystemUsers m).
Proof.
  unfold addSystemUsers, add_system_user, ensureUserExists.
  respects_solve; first [apply keeps_memory_update | apply keeps_memory_deprovision].
Qed.
(** *** Nothing panics *)

(** A user [FindUser] returns: its ids can be used as integers. *)
Definition valid_ids (u : User) : Prop := is_Some (UnixUID u) ∧ is_Some (UnixGID u).

Lemma parse_valid_ids out n u : parsePasswdEntry out n = Ok u → valid_ids u.
Proof.
  unfold parsePasswdEntry, valid_ids, UnixUID, UnixGID. intros Hp.
  repeat case_match; simplify_eq. unfold ValidateUnixIDS in *. simpl in *.
  by repeat case_match.
Qed.

Lemma wp_FindUser n (Q : result User → host → Prop) h :
  (∀ h', Q (Err UnknownUserError) h') → (∀ e h', Q (Err e) h') → (∀ u h', valid_ids u → Q (Ok u) h') →
  wp (FindUser n) Q h.
Proof.
  intros Hq1 Hq2 Hq3. unfold FindUser, WithContext, wp, mbind, M_bind. cbn beta iota.
  destruct (run_command _ _) as [out|c|e]; simpl.
  - destruct (parsePasswdEntry out n) eqn:E; [apply Hq3; by eapply parse_valid_ids|apply Hq2].
  - destruct (_ =? _)%Z; [apply Hq1|apply Hq2].
  - apply Hq2.
Qed.

(** A user that was found has ids that can be used. *)
Definition user_ok (r : result User) : Prop := match r with Ok u => valid_ids u | Err _ => True end.

Lemma FindUser_ok n s : wp (on_host (FindUser n)) (λ r _, user_ok r) s.
Proof. by apply wp_zoom, wp_FindUser. Qed.

Lemma total_WithContext c : total (WithContext c).
Proof. by eexists. Qed.
#[local] Hint Resolve total_WithContext : total.

Lemma total_template c u g : total (runCommandTemplate c u g).
Proof. unfold runCommandTemplate. total_solve. Qed.
#[local] Hint Resolve total_template : total.

Lemma total_SaferWriteFile {S} `{HasFS S} c p o : total (S := S) (SafeWrite.SaferWriteFile c p o).
Proof.
  unfold SafeWrite.SaferWriteFile, SafeWrite.WriteFile, SafeWrite.os_CreateTemp, SafeWrite.os_Chmod,
    SafeWrite.os_Chown, SafeWrite.os_change. total_solve.
Qed.
#[local] Hint Resolve total_SaferWriteFile : total.

Lemma total_group_commands u g : total (AddUserToGroup u g) ∧ total (RemoveUserFromGroup u g).
Proof. unfold AddUserToGroup, RemoveUserFromGroup. split; total_solve. Qed.

Lemma total_FindGroup n : total (FindGroup n).
Proof. unfold FindGroup. total_solve. Qed.

Lemma total_CreateUser n : total (CreateUser (mkUser n "" "-1" "-1" "" "" "")).
Proof.
  unfold CreateUser, UnixUID, UnixGID. cbn [UID GID].
  replace (Atoi "-1") with (Some (-1)%Z) by (vm_compute; reflexivity).
  total_step; [apply total_ret|]. total_step; [apply total_ret|].
  unfold reuseHomeDir, userHomeDirUIDAndGID, addToGUsers, open_append, append_string. total_solve.
Qed.

Lemma total_DelUser u : total (DelUser u).
Proof. unfold DelUser, removeFromGUsers. total_solve. Qed.

Lemma total_ListGoogleUsers : total ListGoogleUsers.
Proof. unfold ListGoogleUsers. total_solve. Qed.

Lemma total_AddUserToGroup u g : total (AddUserToGroup u g).
Proof. unfold AddUserToGroup. total_solve. Qed.

Lemma total_RemoveUserFromGroup u g : total (RemoveUserFromGroup u g).
Proof. unfold RemoveUserFromGroup. total_solve. Qed.

Lemma total_CreateGroup n : total (CreateGroup n).
Proof. unfold CreateGroup. total_solve. Qed.
#[local] Hint Resolve total_CreateUser total_DelUser total_FindGroup total_ListGoogleUsers
  total_AddUserToGroup total_RemoveUserFromGroup total_CreateGroup : total.

Lemma total_selinux p : total (selinuxRestoreCon p).
Proof. unfold selinuxRestoreCon. total_solve. Qed.
#[local] Hint Resolve total_selinux : total.

Lemma total_updateSSHKeys u ks : valid_ids u → total (updateSSHKeys u ks).
Proof.
  intros [[uid Hu] [gid Hg]]. unfold updateSSHKeys, ensure_ssh_dir, write_authorized_keys,
    SafeWrite.os_Chown, SafeWrite.os_change.
  rewrite Hu, Hg. cbn [some_or_panic]. total_solve.
Qed.

Lemma total_deprovision m : total (deprovisionUnusedUsers m).
Proof.
  unfold deprovisionUnusedUsers. total_step; [total_solve|].
  total_step; [|total_solve]. total_step. total_step; [total_solve|]. total_step; [|total_solve].
  unfold deprovision. eapply total_bind_post; [apply FindUser_ok|].
  intros [u|e] Hu; [|total_solve].
  destruct DeprovisionRemove; [total_solve|]. total_step; [by apply total_updateSSHKeys|].
  total_solve.
Qed.

Lemma ensureUserExists_ok n s : wp (ensureUserExists n) (λ r _, user_ok r) s.
Proof.
  unfold ensureUserExists. wp_step. eapply wp_mono; [apply FindUser_ok|]. intros [u|e] s' Hu; [done|].
  wp_step. eapply wp_total; [apply total_zoom, total_CreateUser|]. intros [e'|] s1; [done|].
  wp_step. eapply wp_mono; [apply FindUser_ok|]. intros [u|e'] s2 Hu'; [|done]. wp_step. apply wp_bind.
  eapply wp_total; [total_solve; apply total_zoom; total_solve|]. intros ? s3. exact Hu'.
Qed.

Lemma total_addSystemUsers m : total (addSystemUsers m).
Proof.
  unfold addSystemUsers. total_step; [|total_step; [apply total_deprovision|total_solve]].
  total_step. unfold add_system_user. eapply total_bind_post; [apply ensureUserExists_ok|].
  intros [u|e] Hu; [|total_solve]. total_step; [by apply total_updateSSHKeys|total_solve].
Qed.

Lemma total_setPlatform : total setPlatformConfiguration.
Proof. unfold setPlatformConfiguration, ensureGroupExists. total_solve. Qed.

Lemma total_findValidKeys d : total (findValidKeys d).
Proof.
  unfold findValidKeys, find_valid_key. total_solve.
  intros st. edestruct (SshUtil.run_ValidateUserKey (S := state)) as (n & _ & ->). by eexists.
Qed.

(** *** The set-up as a whole *)

(** What looking for keys leaves alone: all but the clock and the cache. *)
Definition only_looked s s' : Prop :=
  sys s' = sys s ∧ supplementalGroups s' = supplementalGroups s ∧
  onetimePlatformSetupFinished s' = onetimePlatformSetupFinished s ∧
  lastUserKeyMap s' = lastUserKeyMap s ∧ lastEnabled s' = lastEnabled s.

#[global] Instance only_looked_preorder : PreOrder only_looked.
Proof.
  split; [done|]. intros ??? (?&?&?&?&?) (?&?&?&?&?). split_and!; congruence.
Qed.

Lemma only_looked_findValidKeys d : respects only_looked (findValidKeys d).
Proof.
  unfold findValidKeys, find_valid_key. respects_solve; try (by apply respects_modify; intros []).
  intros st st' e. edestruct (SshUtil.run_ValidateUserKey (S := state)) as (n & _ & ->). by intros [= <- _].
Qed.

(** *** The keys of a descriptor *)

(** The user and key of an entry that is valid at an instant. *)
Definition valid_entry (entry : string) (t : Z) : option (string * string) :=
  match SshUtil.GetUserKey (TrimSpace entry) with
  | Ok (user, key) =>
      match SshUtil.entry_error user key t with None => Some (user, key) | Some _ => None end
  | Err _ => None
  end.

(** The keys grouped by user, in the order of the entries. *)
Definition add_entry (m : gmap string (list string)) (e : string * Z) : gmap string (list string) :=
  match valid_entry e.1 e.2 with
  | Some (user, key) => <[user := default [] (m !! user) ++ [key]]> m
  | None => m
  end.

Definition group_keys (es : list (string * Z)) : gmap string (list string) := foldl add_entry ∅ es.

(** Every cached entry is invalid from now on. *)
Definition cache_sound (s : state) : Prop :=
  ∀ k e n, k ∈ invalidKeys s → TrimSpace e = k → clock s ≤ n → valid_entry e (SshUtil.time_Now n) = None.

Section cache.
Hypothesis clock_monotone : ∀ n m, n ≤ m → (SshUtil.time_Now n ≤ SshUtil.time_Now m)%Z.

Lemma wp_find_valid_key m entry s :
  cache_sound s →
  wp (find_valid_key m entry) (λ m' s', cache_sound s' ∧ clock s ≤ clock s' ∧
    m' = add_entry m (entry, SshUtil.time_Now (clock s))) s.
Proof.
  intros Hc. unfold find_valid_key. case_bool_decide as He.
  { wp_step. split_and!; [done|done|]. unfold add_entry, valid_entry. simpl. by rewrite He. }
  wp_step. wp_step. case_bool_decide as Hk.
  { wp_step. split_and!; [done|done|]. unfold add_entry. simpl. by rewrite (Hc _ entry (clock s) Hk). }
  assert (Hadd : ∀ n, clock s ≤ n →
    (∀ n', clock s ≤ n' → valid_entry entry (SshUtil.time_Now n') = None) →
    cache_sound (set_invalid ({[TrimSpace entry]} ∪ invalidKeys s) (set_time n s))).
  { intros n Hn Hi k e n' Hin Het Hle. simpl in *. apply elem_of_union in Hin as [->%elem_of_singleton|Hin].
    - unfold valid_entry in *. rewrite Het. apply Hi. lia.
    - eapply Hc; [exact Hin|done|lia]. }
  unfold add_entry. cbn [fst snd].
  destruct (SshUtil.GetUserKey (TrimSpace entry)) as [[user key]|e] eqn:Eg.
  2: { do 2 wp_step. assert (Hv : ∀ t, valid_entry entry t = None) by (intros; unfold valid_entry; by rewrite Eg).
       rewrite Hv. split_and!; [|done|done]. destruct s. apply (Hadd clock0); [done|]. intros; apply Hv. }
  wp_step. destruct (SshUtil.run_ValidateUserKey user key s) as (n & Hn & Hrun).
  unfold wp at 1. rewrite Hrun. change (SshUtil.clock_of s) with (clock s) in *.
  assert (Hv : ∀ t, valid_entry entry t =
    match SshUtil.entry_error user key t with None => Some (user, key) | Some _ => None end)
    by (intros; unfold valid_entry; by rewrite Eg).
  rewrite Hv. destruct (SshUtil.entry_error user key (SshUtil.time_Now (clock s))) as [e|] eqn:Ee.
  - do 2 wp_step. split_and!; [|done|done]. apply Hadd; [done|]. intros n' Hle. rewrite Hv.
    destruct (SshUtil.entry_error user key (SshUtil.time_Now n')) eqn:E'; [done|]. exfalso. revert E'.
    eapply SshUtil.entry_error_later; [by apply clock_monotone|]. by rewrite Ee.
  - wp_step. split_and!; [|done|done]. intros k e' n' Hin Het Hle. simpl in *.
    eapply Hc; [exact Hin|done|lia].
Qed.

Lemma wp_findValidKeys d s :
  cache_sound s →
  wp (findValidKeys d) (λ m s', cache_sound s' ∧ clock s ≤ clock s' ∧
    ∃ ns, length ns = length (entries d) ∧ Forall (λ n, clock s ≤ n ≤ clock s') ns ∧
      m = group_keys (zip (entries d) (SshUtil.time_Now <$> ns))) s.
Proof.
  intros Hc. unfold findValidKeys. generalize (entries d). intros es. unfold group_keys.
  eapply wp_mono; [apply (wp_for_acc (λ rest m s', cache_sound s' ∧ clock s ≤ clock s' ∧
    ∃ done ns, es = done ++ rest ∧ length ns = length done ∧ Forall (λ n, clock s ≤ n ≤ clock s') ns ∧
      m = foldl add_entry ∅ (zip done (SshUtil.time_Now <$> ns))))| ].
  - split_and!; [done|done|]. by exists [], [].
  - intros e rest m s' (Hc' & Hle & dn & ns & -> & Hl & HF & ->).
    eapply wp_mono; [by apply wp_find_valid_key|]. simpl. intros m' s'' (Hc'' & Hle' & ->).
    split_and!; [done|lia|]. exists (dn ++ [e]), (ns ++ [clock s']). split_and!.
    + by rewrite <-app_assoc.
    + rewrite !length_app. simpl. lia.
    + apply Forall_app. split; [|by repeat constructor].
      eapply Forall_impl; [exact HF|]. simpl. lia.
    + rewrite fmap_app, zip_with_app by by rewrite length_fmap. by rewrite foldl_app.
  - simpl. intros m s' (Hc' & Hle & dn & ns & -> & Hl & HF & ->). rewrite app_nil_r. eauto 10.
Qed.

(** The users of grouped keys have valid names. *)
Lemma group_keys_users es : map_Forall (λ u ks, SshUtil.ValidateUser u = None ∧ ks ≠ []) (group_keys es).
Proof.
  unfold group_keys. induction es as [|e es IH] using rev_ind; [apply map_Forall_empty|].
  rewrite foldl_app. cbn [foldl]. unfold add_entry at 1.
  destruct (valid_entry e.1 e.2) as [[u k]|] eqn:Ev; [|done]. apply map_Forall_insert_2; [|done].
  split; [|by intros [_ ?]%app_nil]. unfold valid_entry in Ev.
  destruct (SshUtil.GetUserKey _) as [[u' k']|]; [|done]. unfold SshUtil.entry_error in Ev.
  destruct (SshUtil.ValidateUser u') eqn:Eu; [done|]. by destruct (SshUtil.key_error k' e.2); simplify_eq.
Qed.

(** The keys found are the valid entries, each judged at an instant of the
    search, grouped by user in the order of the entries: the cache of invalid
    entries loses none, and stays sound.  Every user found has a valid name
    and some key. *)
Theorem findValidKeys_cache (d : Metadata.Descriptor) (s : state) :
  cache_sound s →
  wp (findValidKeys d) (λ m s', cache_sound s' ∧
    map_Forall (λ u ks, SshUtil.ValidateUser u = None ∧ ks ≠ []) m ∧
    ∃ ns, length ns = length (entries d) ∧ Forall (λ n, clock s ≤ n ≤ clock s') ns ∧
      m = group_keys (zip (entries d) (SshUtil.time_Now <$> ns))) s.
Proof.
  intros Hc. eapply wp_mono; [by apply wp_findValidKeys|]. intros m s' (Hc' & _ & ns & Hl & HF & ->).
  split_and!; [done|apply group_keys_users|eauto].
Qed.

Lemma wp_metadataChanged d s :
  cache_sound s →
  wp (metadataChanged d) (λ changed s', cache_sound s' ∧ only_looked s s' ∧
    (changed = false → lastEnabled s = enableMetadataSSHKey d ∧
       ∃ ts, length ts = length (entries d) ∧ same_keys (group_keys (zip (entries d) ts)) (lastUserKeyMap s)) ∧
    (changed = true → lastEnabled s = enableMetadataSSHKey d →
       ∃ ts, length ts = length (entries d) ∧ ¬ same_keys (group_keys (zip (entries d) ts)) (lastUserKeyMap s))) s.
Proof.
  intros Hc. unfold metadataChanged. do 2 wp_step.
  destruct (Bool.eqb (enableMetadataSSHKey d) (lastEnabled s)) eqn:Ee; simpl.
  2: { wp_step. split_and!; [done|reflexivity|done|]. intros _ E. by rewrite E, eqb_reflx in Ee. }
  apply eqb_prop in Ee. wp_step.
  eapply wp_mono; [eapply wp_frame; [by apply wp_findValidKeys|apply only_looked_findValidKeys]|].
  intros m s' [(Hc' & _ & ns & Hl & _ & ->) Hlk]. wp_step.
  destruct (isUserKeysMapEqual _ _) eqn:Eq; split_and!; try done; intros _.
  - apply isUserKeysMapEqual_same in Eq. split; [done|]. exists (SshUtil.time_Now <$> ns).
    by rewrite length_fmap.
  - intros _. exists (SshUtil.time_Now <$> ns). rewrite length_fmap. split; [done|].
    intros ?%isUserKeysMapEqual_same. congruence.
Qed.

(** Keys judged the same at any time give the same groups. *)
Lemma group_keys_stable es ts ts' :
  (∀ e t t', valid_entry e t = valid_entry e t') →
  length ts = length es → length ts' = length es →
  group_keys (zip es ts) = group_keys (zip es ts').
Proof.
  intros Hst. unfold group_keys. generalize (∅ : gmap string (list string)). revert ts ts'.
  induction es as [|e es IH]; intros [|t ts] [|t' ts'] m Hl Hl'; simplify_eq/=; [done|].
  unfold add_entry at 2 4. cbn [fst snd]. rewrite (Hst e t t'). by apply IH.
Qed.

Lemma cache_sound_memory s s' : cache_sound s → keeps_memory s s' → cache_sound s'.
Proof. intros Hc (_ & _ & Et & Ei) k e n. rewrite Et, Ei. apply Hc. Qed.

(** What a set-up leaves in the module's memory, whatever happened to the
    system. *)
Lemma wp_metadataSSHKeySetup d s :
  cache_sound s →
  wp (metadataSSHKeySetup d) (λ r s', cache_sound s' ∧
    lastEnabled s' = enableMetadataSSHKey d ∧
    (∃ ts, length ts = length (entries d) ∧ same_keys (group_keys (zip (entries d) ts)) (lastUserKeyMap s')) ∧
    (r.1 = true → r.2 = [] ∧ only_looked s s')) s.
Proof.
  intros Hc. unfold metadataSSHKeySetup. wp_step.
  eapply wp_mono; [by apply wp_metadataChanged|]. intros changed s1 (Hc1 & Hlk & Hno & Hyes).
  destruct changed; cbn [negb].
  2: { wp_step. destruct (Hno eq_refl) as (He & ts & Hl & Hs). pose proof Hlk as (_ & _ & _ & E1 & E2).
       rewrite E1, E2. split_and!; [done|done|eauto|done]. }
  wp_step. eapply wp_mono; [by apply wp_findValidKeys|]. intros keys s2 (Hc2 & _ & ns & Hl & _ & Hk).
  wp_step. wp_step. set (s3 := set_last keys (enableMetadataSSHKey d) s2).
  assert (Hend : ∀ s4 (r : bool * list error), r.1 = false → keeps_memory s3 s4 → cache_sound s4 ∧
    lastEnabled s4 = enableMetadataSSHKey d ∧
    (∃ ts, length ts = length (entries d) ∧ same_keys (group_keys (zip (entries d) ts)) (lastUserKeyMap s4)) ∧
    (r.1 = true → r.2 = [] ∧ only_looked s s4)).
  { intros s4 r Hr Hm. pose proof Hm as (E1 & E2 & _ & _). rewrite E1, E2, Hr. simpl.
    split_and!; [apply (cache_sound_memory s3); [exact Hc2|exact Hm]|done| |done].
    exists (SshUtil.time_Now <$> ns). rewrite length_fmap. split; [done|]. by rewrite Hk. }
  destruct (negb _).
  - wp_step. eapply (wp_total_respects _ keeps_memory); [apply total_deprovision|apply keeps_memory_deprovision|].
    intros errs s4 Hm. wp_step. by apply (Hend s4 (false, errs)).
  - do 3 wp_step. eapply (wp_total_respects _ keeps_memory).
    { refine ((_ : total _) s3). total_step; [apply total_ret|]. total_step; [apply total_setPlatform|total_solve]. }
    { respects_solve. apply keeps_memory_setPlatform. }
    intros errs s4 Hm. wp_step. eapply (wp_total_respects _ keeps_memory); [apply total_addSystemUsers|apply keeps_memory_add|].
    intros es s5 Hm'. wp_step. apply (Hend s5 (false, errs ++ es)); [done|]. by etrans.
Qed.


End cache.

(** *** What an update does to the file *)

(** The commands do not touch the files of the model. *)
Definition same_files s s' : Prop := fs_of s' = fs_of s.
Definition same_host_files (h h' : host) : Prop := hfs h' = hfs h.

#[local] Instance same_files_preorder : PreOrder same_files.
Proof. split; [done|]. unfold same_files. intros ???. congruence. Qed.
#[local] Instance same_host_files_preorder : PreOrder same_host_files.
Proof. split; [done|]. unfold same_host_files. intros ???. congruence. Qed.

Lemma same_files_on_host {A} (m : M host A) : respects same_host_files m → respects same_files (on_host m).
Proof.
  intros Hm s s' a. unfold on_host, zoom. destruct (m (sys s)) as [[h b]|] eqn:E; [|done].
  intros [= <- _]. by eapply Hm.
Qed.

Lemma same_host_files_run c : respects same_host_files (WithContext c).
Proof. by intros h h' a [= <- _]. Qed.
#[local] Hint Resolve same_host_files_run : respects.

Lemma same_files_AddUserToGroup u g : respects same_files (on_host (AddUserToGroup u g)).
Proof. apply same_files_on_host. unfold AddUserToGroup, runCommandTemplate. respects_solve. Qed.

Lemma same_files_selinux p : respects same_files (selinuxRestoreCon p).
Proof. unfold selinuxRestoreCon. respects_solve. apply same_files_on_host. respects_solve. Qed.

(** A user whose authorized_keys file can be managed. *)
Definition manageable (u : User) : Prop :=
  HomeDir u ≠ "" ∧ Shell u ≠ "/sbin/nologin" ∧ SafeWrite.well_placed (authorized_keys_path u) ∧
  path_Join [HomeDir u; ".ssh"] ≠ authorized_keys_path u ∧ valid_ids u.

Definition contents_of (nd : option node) : option string :=
  match nd with Some (NFile d) => Some d | None => Some "" | _ => None end.

(** Everything that was there stays, and nothing appears at [out]. *)
Definition grows (out : string) (m m' : gmap string node) : Prop := m' !! out = m !! out ∧ m ⊆ m'.

#[local] Instance grows_preorder out : PreOrder (grows out).
Proof. split; [done|]. intros ??? [] []. split; [congruence|by etrans]. Qed.

Lemma grows_ensure_ssh_dir u :
  path_Join [HomeDir u; ".ssh"] ≠ authorized_keys_path u →
  respects (on_nodes (grows (authorized_keys_path u))) (ensure_ssh_dir u).
Proof.
  intros Hp. unfold ensure_ssh_dir, Exists, os_Stat, SafeWrite.os_Chown, SafeWrite.os_change.
  generalize dependent (path_Join [HomeDir u; ".ssh"]). intros ssh Hp. unfold os_Mkdir.
  respects_solve; try (apply respects_nodes; done).
  apply respects_nodes; [done|]. intros m. destruct (m !! ssh) eqn:E; [done|]. simpl. split.
  - by apply lookup_insert_ne.
  - by apply insert_subseteq.
Qed.

Lemma total_ensure_ssh_dir u : valid_ids u → total (ensure_ssh_dir u).
Proof.
  intros [[uid Hu] [gid Hg]]. unfold ensure_ssh_dir, SafeWrite.os_Chown, SafeWrite.os_change.
  rewrite Hu, Hg. cbn [some_or_panic]. total_solve.
Qed.

Section update.
Hypothesis suffix_ok : ∀ t n, SafeWrite.temp_suffix t n ≠ "" ∧ lacks slash (SafeWrite.temp_suffix t n).
Hypothesis faults_ok : ∀ n op p ft, os_fault n op p = Some ft → IsNotExist (fault_err ft) = false.

(** The files after an update that ended with [e]: the new contents, or, when
    there is an error, possibly the old ones. *)
Definition updated (out contents : string) s (e : option error) s' : Prop :=
  (nodes (fs_of s') !! out = Some (NFile contents) ∨
   is_Some e ∧ nodes (fs_of s') !! out = nodes (fs_of s) !! out) ∧
  ∀ q nd, q ≠ out → nodes (fs_of s) !! q = Some nd → nodes (fs_of s') !! q = Some nd.

Lemma wp_write_authorized_keys u contents keys s :
  manageable u →
  wp (write_authorized_keys u contents keys)
     (updated (authorized_keys_path u) (authorized_output contents keys) s) s.
Proof.
  intros (_ & _ & Hw & _ & [uid Hu] & [gid Hg]). unfold write_authorized_keys. rewrite Hu, Hg.
  cbn [some_or_panic]. apply wp_bind, wp_ret, wp_bind, wp_ret, wp_bind.
  eapply wp_mono; [by apply (SafeWrite.wp_SaferWriteFile suffix_ok)|].
  intros [e|] s1 [Ho Hk]; [apply wp_ret; split; [by right|done]|].
  apply wp_bind, wp_gets, wp_bind. eapply (wp_total_respects _ same_files).
  { apply total_zoom, total_AddUserToGroup. } { apply same_files_AddUserToGroup. }
  intros e s2 Hs2. assert (Hup : ∀ e' s3, same_files s1 s3 →
    updated (authorized_keys_path u) (authorized_output contents keys) s e' s3).
  { intros e' s3 Hs3. unfold updated. rewrite Hs3. split; [by left|done]. }
  destruct e as [e|]; [apply wp_ret, Hup; done|].
  eapply (wp_total_respects _ same_files); [apply total_selinux|apply same_files_selinux|].
  intros e s3 Hs3. apply Hup. by etrans.
Qed.

Lemma wp_updateSSHKeys u keys old s :
  manageable u → keys ≠ [] → contents_of (nodes (fs_of s) !! authorized_keys_path u) = Some old →
  wp (updateSSHKeys u keys) (updated (authorized_keys_path u) (authorized_output old keys) s) s.
Proof.
  intros Hm Hne Hold. pose proof Hm as (Hh & Hsh & _ & Hp & Hids). unfold updateSSHKeys.
  rewrite !bool_decide_eq_false_2 by done. apply wp_bind.
  eapply wp_total_respects; [by apply total_ensure_ssh_dir|by apply grows_ensure_ssh_dir|].
  intros e s1 [Ho Hk]. assert (Hkeep : ∀ e' s2, nodes (fs_of s2) = nodes (fs_of s1) → is_Some e' →
    updated (authorized_keys_path u) (authorized_output old keys) s e' s2).
  { intros e' s2 E He'. unfold updated. rewrite E. split; [by right|]. intros q nd _ Hq. by eapply lookup_weaken. }
  assert (Hwrite : ∀ s2 c, nodes (fs_of s2) = nodes (fs_of s1) → c = old →
    wp (write_authorized_keys u c keys) (updated (authorized_keys_path u) (authorized_output old keys) s) s2).
  { intros s2 c E ->. eapply wp_mono; [by apply wp_write_authorized_keys|]. unfold updated.
    intros e' s3 [Ho3 Hk3]. rewrite E in *. split; [rewrite Ho in Ho3; naive_solver|].
    intros q nd Hq Hn. apply Hk3; [done|]. by eapply lookup_weaken. }
  destruct e as [e|]; [apply wp_ret, Hkeep; done|]. apply wp_bind.
  rewrite <-Ho in Hold. apply wp_with_fs; cbn [fail_result fst snd].
  - intros ft Hft. rewrite (faults_ok _ _ _ _ Hft). apply wp_ret, Hkeep; [by rewrite fs_of_set_fs|done].
  - intros _. destruct (nodes (fs_of s1) !! authorized_keys_path u) as [[d| |]|] eqn:Eo; try discriminate Hold.
    + rewrite (resolve_file _ _ _ Eo). apply Hwrite; [by rewrite fs_of_set_fs|by injection Hold].
    + rewrite (resolve_none _ _ Eo). simpl. apply Hwrite; [done|by injection Hold].
Qed.

(** Updating a user's keys leaves the authorized_keys file rewritten with
    exactly the given keys, whatever fails half way; only with an error may it
    still be the old one.  Nothing else that existed changes. *)
Theorem updateSSHKeys_file (u : User) (keys : list string) (old : string) (s : state) :
  manageable u → keys ≠ [] → contents_of (nodes (fs_of s) !! authorized_keys_path u) = Some old →
  wp (updateSSHKeys u keys) (λ e s',
    (nodes (fs_of s') !! authorized_keys_path u = Some (NFile (authorized_output old keys)) ∨
     is_Some e ∧ nodes (fs_of s') !! authorized_keys_path u = nodes (fs_of s) !! authorized_keys_path u) ∧
    ∀ q nd, q ≠ authorized_keys_path u → nodes (fs_of s) !! q = Some nd → nodes (fs_of s') !! q = Some nd) s.
Proof. apply wp_updateSSHKeys. Qed.

End update.

(** *** The commands for a user *)

(** The part of a command template that is split into words. *)
Definition command_part (tpl : string) : string :=
  match Cut tpl pipe with
  | (_, after, true) => after
  | _ => tpl
  end.

(** A command template run for a user with a valid name is split into the
    same words whatever the name is: the name is part of one word, and no
    name adds, removes or changes another word of the command. *)
Theorem user_commands_keep_shape (tpl : string) :
  ascii_only (command_part tpl) → Contains (command_part tpl) "{user}" = true →
  ∃ A c d B, ∀ u, SshUtil.ValidateUser (Username u) = None →
    ∃ inp, template_command tpl (Some u) None = Some (mkCommand (A ++ [c +:+ Username u +:+ d] ++ B) inp).
Proof.
  intros Ha (pre & post & E & Hr)%Replace1_found.
  assert (Hpp : ascii_only pre ∧ ascii_only post).
  { unfold ascii_only in *. rewrite E, !to_bytes_app in Ha. apply Forall_app in Ha as [? Ha].
    by apply Forall_app in Ha as [_ ?]. }
  destruct (Fields_word pre post) as (A & c & d & B & HF); [apply Hpp..|]. exists A, c, d, B.
  intros u Hu. unfold SshUtil.ValidateUser in Hu. case_bool_decide as Hne; [done|].
  destruct (bhas_space _) eqn:Hs; [done|]. specialize (HF (Username u) Hne Hs).
  unfold template_command, command_part in *. destruct (Cut tpl pipe) as [[before after] [|]];
    cbn [execCommandTemplate]; rewrite Hr, HF; destruct A; eauto.
Qed.

End setup.

(** ** A concrete host *)
Definition lines_of (ls : list string) : string := unlines ls.

Lemma authorized_keys_rewrite_witness :
  let old := lines_of ["mine"; gComment; "stale"; "mine too"] in
  Forall key_line ["k1"; "k2"] ∧
  authorized_output old ["k1"; "k2"] = lines_of ["mine"; "mine too"; gComment; "k1"; gComment; "k2"] ∧
  authorized_output (authorized_output old ["k1"; "k2"]) ["k3"] = authorized_output old ["k3"].
Proof.
  intros old. assert (Hk : Forall key_line ["k1"; "k2"]).
  { repeat constructor; first [discriminate | vm_compute; set_solver]. }
  split; [exact Hk|]. split; [vm_compute; reflexivity|].
  apply (authorized_keys_rewrite old ["k1"; "k2"] ["k3"] Hk).
Defined.

#[local] Instance example_config : AccountsConfig := {|
  UserAddCmd := "useradd -m -s /bin/bash -p * {user}"; UserDelCmd := "userdel -r {user}";
  GroupAddCmd := "groupadd {group}"; GPasswdAddCmd := "gpasswd -a {user} {group}";
  GPasswdRemoveCmd := "gpasswd -d {user} {group}"; ReuseHomedir := false; DeprovisionRemove := false;
  Groups := "adm";
|}.

(** No user exists and [useradd] fails. *)
#[local] Instance broken_useradd : Commands := {|
  run_command _ c :=
    match argv c with
    | "getent" :: _ => RunExit 2
    | "useradd" :: _ => RunExit 1
    | _ => RunOk ""
    end;
  dir_owner _ _ := Err ErrNotExist;
|}.

(** Keys without an expiration. *)
#[local] Instance example_library : SshUtil.SshLibrary := {|
  SshUtil.ParseAuthorizedKey k := Ok "me@host";
  SshUtil.json_ExpireOn _ := Err (ErrMsg "no object");
  SshUtil.time_Parse _ _ := Err (ErrMsg "no time");
  SshUtil.time_Now n := Z.of_nat n;
|}.

#[local] Instance no_selinux : LookPath := λ _ _, Err ErrNotExist.
#[local] Existing Instances no_faults SafeWrite.numbered.

Definition keys_descriptor (keys : list string) : Metadata.Descriptor :=
  Metadata.mkDescriptor
    (Metadata.unmarshal_attributes (Metadata.example_inner (Join keys (String nl "")) "" ""))
    Metadata.no_attributes.

Definition fresh_state : state := mkState (mkHost (mkFs {["/home" := NDir]} 0) []) 0 ∅ false ∅ false ∅.

Lemma fresh_cache_sound : cache_sound fresh_state.
Proof. intros k e n Hk. set_solver. Qed.

Lemma example_clock n m : n ≤ m → (SshUtil.time_Now n ≤ SshUtil.time_Now m)%Z.
Proof. simpl. lia. Qed.

Lemma findValidKeys_cache_witness :
  let d := keys_descriptor ["alice:ssh-rsa A"; "bad entry"; "bob:ssh-rsa B"; "alice:ssh-rsa C"; "bad entry"] in
  (∃ s', findValidKeys d fresh_state =
     Some (s', {["alice" := ["ssh-rsa A"; "ssh-rsa C"]; "bob" := ["ssh-rsa B"]]}) ∧
     invalidKeys s' = {["bad entry"]}) ∧
  wp (findValidKeys d) (λ m s', cache_sound s' ∧
    map_Forall (λ u ks, SshUtil.ValidateUser u = None ∧ ks ≠ []) m) fresh_state.
Proof.
  intros d. split; [eexists; split; [vm_compute; reflexivity|vm_compute; reflexivity]|].
  eapply wp_mono; [apply (findValidKeys_cache example_clock d fresh_state fresh_cache_sound)|].
  intros m s' (Hc & Hu & _). split; [exact Hc|exact Hu].
Defined.


Lemma no_faults_ok n op p ft : os_fault n op p = Some ft → IsNotExist (fault_err ft) = false.
Proof. done. Qed.

Definition alice_state : state :=
  mkState (mkHost (mkFs {["/home" := NDir; "/home/alice" := NDir;
      "/home/alice/.ssh" := NDir; "/home/alice/.ssh/authorized_keys" := NFile "mine"]} 0) [])
    0 {[googleSudoersGroup := mkGroup googleSudoersGroup "" []]} true ∅ true ∅.

Lemma updateSSHKeys_file_witness :
  manageable alice ∧
  wp (updateSSHKeys alice ["ssh-rsa A"]) (λ e s', is_Some e ∨
    nodes (fs_of s') !! "/home/alice/.ssh/authorized_keys" =
      Some (NFile (lines_of ["mine"; gComment; "ssh-rsa A"]))) alice_state.
Proof.
  assert (Hm : manageable alice).
  { split; [discriminate|]. split; [discriminate|]. split.
    { apply (bool_decide_unpack (SafeWrite.well_placed (authorized_keys_path alice))). vm_compute. exact I. }
    split; [discriminate|]. split; eexists; vm_compute; reflexivity. }
  split; [exact Hm|].
  eapply wp_mono; [apply (updateSSHKeys_file SafeWrite.numbered_ok no_faults_ok
    alice ["ssh-rsa A"] "mine" alice_state Hm ltac:(discriminate) ltac:(vm_compute; reflexivity))|].
  intros e s' [[Hn|[He _]] _]; [right|left; exact He]. etrans; [exact Hn|]. vm_compute. reflexivity.
Defined.

Lemma user_commands_keep_shape_witness :
  ∃ A c d B, A ++ [c +:+ "x" +:+ d] ++ B = ["useradd"; "-m"; "x"] ∧
    ∃ inp, template_command "useradd -m {user}" (Some (mkUser "-o" "" "" "" "" "" "")) None =
      Some (mkCommand (A ++ [c +:+ "-o" +:+ d] ++ B) inp).
Proof.
  destruct (user_commands_keep_shape "useradd -m {user}") as (A & c & d & B & Hu).
  - apply (bool_decide_unpack (ascii_only (command_part "useradd -m {user}"))). vm_compute. exact I.
  - vm_compute. reflexivity.
  - exists A, c, d, B. split; [|exact (Hu (mkUser "-o" "" "" "" "" "" "") eq_refl)].
    destruct (Hu (mkUser "x" "" "" "" "" "" "") eq_refl) as [inp E]. vm_compute in E. injection E. auto.
Defined.

End SshKeys.
