(* ===== verification/Daemon.v ===== *)
(** * internal/daemon: the systemd client

    daemon_linux.go over the commands of the host: every operation is one
    [systemctl] command, and the outcome of the command decides. *)
From S2P Require Import Prelude GoStrings Os Accounts.

Module Daemon.
Import Accounts.

Inductive RestartMethod := Restart | Reload | TryRestart | ReloadOrRestart | TryReloadOrRestart.

Inductive ServiceStatus := Unknown | Active | Inactive | Failed.

#[global] Instance RestartMethod_eq_dec : EqDecision RestartMethod.
Proof. solve_decision. Defined.

Definition methodString (m : RestartMethod) : string :=
  match m with
  | Restart => "restart"
  | Reload => "reload"
  | TryRestart => "try-restart"
  | ReloadOrRestart => "reload-or-restart"
  | TryReloadOrRestart => "try-reload-or-restart"
  end.

Definition exit_error : error := ErrMsg "exit status".

(** The error of a command that did not succeed. *)
Definition run_error (r : run_outcome) : option error :=
  match r with
  | RunOk _ => None
  | RunExit _ => Some exit_error
  | RunErr e => Some e
  end.

Section operations.
Context `{Commands}.

Definition systemctl (args : list string) : M host run_outcome :=
  WithContext (mkCommand ("systemctl" :: args) "").

Definition simple (msg : string) (args : list string) : M host (option error) :=
  r ← systemctl args; mret (ErrWrap msg <$> run_error r).

Definition RestartService (service : string) (m : RestartMethod) : M host (option error) :=
  simple "failed to restart service" [methodString m; service].
Definition ReloadDaemon (d : string) : M host (option error) :=
  simple "failed to reload daemon" ["daemon-reload"; d].
Definition StopDaemon (d : string) : M host (option error) :=
  simple "failed to stop daemon" ["stop"; d].
Definition StartDaemon (d : string) : M host (option error) :=
  simple "failed to start daemon" ["start"; d].
Definition EnableService (d : string) : M host (option error) :=
  simple "failed to enable daemon" ["enable"; d].
Definition DisableService (d : string) : M host (option error) :=
  simple "failed to disable daemon" ["--no-reload"; "disable"; d].

(** Only the exit code 4 says that there is no such unit. *)
Definition CheckUnitExists (unit : string) : M host (bool * option error) :=
  let unit := if HasSuffix unit ".service" then unit else unit +:+ ".service" in
  r ← systemctl ["status"; unit];
  mret (match r with
        | RunExit 4 => (false, None)
        | _ => (true, None)
        end).

Definition UnitStatus (unit : string) : M host (ServiceStatus * option error) :=
  r ← systemctl ["is-active"; unit];
  mret (match r with
        | RunOk out =>
            let status := TrimSpace out in
            (if bool_decide (status = "active") then Active
             else if bool_decide (status = "inactive") then Inactive
             else if bool_decide (status = "failed") then Failed
             else Unknown, None)
        | RunExit _ => (Unknown, Some (ErrWrap "failed to get status of unit" exit_error))
        | RunErr e => (Unknown, Some (ErrWrap "failed to get status of unit" e))
        end).

End operations.

End Daemon.
