(* ===== verification/OsInfo.v ===== *)
(** * internal/osinfo: the release of the operating system

    osinfo_unix.go: the parsers of os-release and system-release, and the
    choice of the file.  [uname] is a parameter. *)
From stdpp Require Import pretty.
From S2P Require Import Prelude GoStrings GoStringFacts Os FileUtil SafeWrite Accounts.

Module OsInfo.

Record Ver := mkVer { Major : Z; Minor : Z; Patch : Z; Length : Z }.

Record OSInfo := mkInfo {
  OS : string;
  VersionID : string;
  PrettyName : string;
  KernelRelease : string;
  KernelVersion : string;
  Architecture : string;
  Version : Ver;
}.

Definition no_version : Ver := mkVer 0 0 0 0.
Definition no_info : OSInfo := mkInfo "" "" "" "" "" "" no_version.

(** [unix.Uname]: release, version, machine. *)
Class Uname := uname : option (string * string * string).

Definition parseID (id : string) : string :=
  if bool_decide (id = "Red Hat Enterprise Linux Server") then "rhel"
  else if bool_decide (id = "CentOS" ∨ id = "CentOS Linux") then "centos"
  else id.

Definition dot : byte := byte_of 46.
Definition quote : byte := byte_of 34.

(** A part that is no number is an error; its callers drop the version then. *)
Definition parseVersion (version : string) : result Ver :=
  let parts := Split version dot in
  let n := Z.of_nat (length parts) in
  let err := Err (ErrMsg "invalid syntax") in
  match Accounts.Atoi (nth 0 parts "") with
  | None => err
  | Some major =>
      if (1 <? n)%Z then
        match Accounts.Atoi (nth 1 parts "") with
        | None => err
        | Some minor =>
            if (2 <? n)%Z then
              match Accounts.Atoi (nth 2 parts "") with
              | None => err
              | Some patch => Ok (mkVer major minor patch n)
              end
            else Ok (mkVer major minor 0 n)
        end
      else Ok (mkVer major 0 0 n)
  end.

(** [Ver.String]. *)
Definition Ver_String (v : Ver) : string :=
  if (Major v =? 0)%Z then ""
  else
    let ret := pretty (Major v) in
    let ret := if (1 <? Length v)%Z then ret +:+ "." +:+ pretty (Minor v) else ret in
    if (2 <? Length v)%Z then ret +:+ "." +:+ pretty (Patch v) else ret.

(** The value of a line [key=value], its quotes trimmed. *)
Definition field (key line : string) : option string :=
  let id := TrimPrefix line key in
  if bool_decide (id = line) then None else Some (Trim id quote).

Definition set_id (os : string) (i : OSInfo) : OSInfo :=
  mkInfo os (VersionID i) (PrettyName i) (KernelRelease i) (KernelVersion i) (Architecture i) (Version i).
Definition set_versionID (v : string) (i : OSInfo) : OSInfo :=
  mkInfo (OS i) v (PrettyName i) (KernelRelease i) (KernelVersion i) (Architecture i) (Version i).
Definition set_pretty (n : string) (i : OSInfo) : OSInfo :=
  mkInfo (OS i) (VersionID i) n (KernelRelease i) (KernelVersion i) (Architecture i) (Version i).
Definition set_version (v : Ver) (i : OSInfo) : OSInfo :=
  mkInfo (OS i) (VersionID i) (PrettyName i) (KernelRelease i) (KernelVersion i) (Architecture i) v.
Definition set_kernel (r v m : string) (i : OSInfo) : OSInfo :=
  mkInfo (OS i) (VersionID i) (PrettyName i) r v m (Version i).

Fixpoint parse_lines (ret : OSInfo) (lines : list string) : OSInfo * option error :=
  match lines with
  | [] => (ret, None)
  | line :: lines =>
      let ret := match field "ID=" line with Some id => set_id (parseID id) ret | None => ret end in
      let continue ret :=
        parse_lines (match field "PRETTY_NAME=" line with Some n => set_pretty n ret | None => ret end) lines in
      match field "VERSION_ID=" line with
      | Some id =>
          let ret := set_versionID id ret in
          match parseVersion id with
          | Err e => (ret, Some (ErrFmt "couldn't parse version id" e))
          | Ok v => continue (set_version v ret)
          end
      | None => continue ret
      end
  end.

Definition parseOSRelease (osRelease : string) : OSInfo * option error :=
  parse_lines no_info (Split osRelease nl).

(** [strings.Index]: the text before the first occurrence and after it. *)
Fixpoint bsplit_at (sub l : bytes) : option (bytes * bytes) :=
  if bprefix sub l then Some ([], drop (length sub) l)
  else match l with
       | [] => None
       | x :: l => '(b, a) ← bsplit_at sub l; Some (x :: b, a)
       end.

Definition parseSystemRelease (systemRelease : string) : OSInfo * option error :=
  match bsplit_at (to_bytes " release ") (to_bytes systemRelease) with
  | None => (no_info, Some (ErrMsg "SystemRelease does not match expected format"))
  | Some (b, a) =>
      let ret := set_id (parseID (of_bytes b)) no_info in
      match parseVersion (nth 0 (Split (of_bytes a) (byte_of 32)) "") with
      | Err e => (ret, Some (ErrWrap "couldn't parse version" e))
      | Ok v => (set_version v ret, None)
      end
  end.

Section reading.
Context {S : Type} `{HasFS S} `{OsFaults} `{Uname}.

Definition parseRelease : M S (OSInfo * option error) :=
  r ← os_ReadFile "/etc/os-release";
  match r with
  | Ok releaseFile => mret (parseOSRelease releaseFile)
  | Err _ =>
      r ← os_ReadFile "/etc/system-release";
      mret (match r with
            | Ok releaseFile => parseSystemRelease releaseFile
            | Err _ => (no_info, Some (ErrMsg "no known release file found"))
            end)
  end.

Definition Read : M S OSInfo :=
  '(osInfo, _) ← parseRelease;
  mret (match uname with
        | None => osInfo
        | Some (release, version, machine) => set_kernel release version machine osInfo
        end).

End reading.

(** ** Theorems *)

(** A version as a release file can state it. *)
Definition version_ok (v : Ver) : Prop :=
  (0 < Major v < 2 ^ 63 ∧ 0 ≤ Minor v < 2 ^ 63 ∧ 0 ≤ Patch v < 2 ^ 63 ∧ 1 ≤ Length v ≤ 3 ∧
   (Length v ≤ 1 → Minor v = 0) ∧ (Length v ≤ 2 → Patch v = 0))%Z.

Lemma lacks_dot_pretty z : (0 ≤ z)%Z → lacks dot (pretty z).
Proof.
  intros Hz Hin. pose proof (Accounts.pretty_digits z Hz) as HF. rewrite Forall_forall in HF.
  destruct (HF _ Hin) as [Hd _]. vm_compute in Hd. by apply Hd.
Qed.

(** Printing a version and parsing it back gives the version, with its
    number of parts. *)
Theorem parseVersion_roundtrip (v : Ver) : version_ok v → parseVersion (Ver_String v) = Ok v.
Proof.
  destruct v as [ma mi pa n]. intros (Hma & Hmi & Hpa & Hn & H1 & H2). simpl in *.
  assert (Hs : ∃ ls, Ver_String (mkVer ma mi pa n) = Join (pretty <$> ma :: ls) "." ∧
    Forall (λ z, 0 ≤ z < 2 ^ 63)%Z ls ∧ n = Z.of_nat (length (ma :: ls)) ∧
    mi = nth 0 ls 0%Z ∧ pa = nth 1 ls 0%Z ∧ length ls ≤ 2).
  { unfold Ver_String. simpl. rewrite (proj2 (Z.eqb_neq ma 0)) by lia.
    assert (n = 1 ∨ n = 2 ∨ n = 3)%Z as [->|[->| ->]] by lia; simpl.
    - exists []. rewrite H1, H2 by lia. split_and!; try done; try (simpl; lia).
      unfold Join. simpl. by rewrite of_to_bytes.
    - exists [mi]. rewrite H2 by lia. split_and!; try done; try (simpl; lia); [|by repeat constructor; lia].
      apply to_bytes_eq. unfold Join. simpl. by rewrite to_of_bytes, !to_bytes_app.
    - exists [mi; pa]. split_and!; try done; try (simpl; lia); [|by repeat constructor; lia].
      apply to_bytes_eq. unfold Join. simpl. rewrite to_of_bytes, !to_bytes_app. by rewrite <-!app_assoc. }
  destruct Hs as (ls & -> & HF & -> & -> & -> & Hl). unfold parseVersion.
  rewrite (Split_Join (pretty <$> ma :: ls) dot); [|done|].
  2: { apply Forall_fmap. constructor; [apply lacks_dot_pretty; lia|].
       eapply Forall_impl; [exact HF|]. intros z Hz. simpl in *. apply lacks_dot_pretty. lia. }
  rewrite length_fmap. cbn [fmap list_fmap nth]. rewrite Accounts.Atoi_pretty by lia.
  destruct HF as [|mi ls Hmi' HF]; [done|]. destruct HF as [|pa ls Hpa' HF]; simpl.
  - by rewrite Accounts.Atoi_pretty by lia.
  - destruct ls; [|simpl in Hl; lia]. rewrite !Accounts.Atoi_pretty by lia. done.
Qed.

Lemma parseVersion_roundtrip_witness :
  version_ok (mkVer 16 4 0 2) ∧ parseVersion "16.4" = Ok (mkVer 16 4 0 2).
Proof.
  assert (Hv : version_ok (mkVer 16 4 0 2)) by (unfold version_ok; simpl; lia).
  split; [exact Hv|]. exact (parseVersion_roundtrip (mkVer 16 4 0 2) Hv).
Defined.

Example parse_debian :
  parseOSRelease (Join ["PRETTY_NAME=Debian GNU/Linux 12 (bookworm)"; "VERSION_ID=" +:+ String quote ("12" +:+ String quote "");
    "ID=debian"] (String nl ""))
  = (mkInfo "debian" "12" "Debian GNU/Linux 12 (bookworm)" "" "" "" (mkVer 12 0 0 1), None).
Proof. vm_compute. reflexivity. Qed.

End OsInfo.
