(* ===== verification/NetAddr.v ===== *)
(** * Go's packages [net] and [net/netip], as far as the agent uses them

    Addresses, prefixes and hardware addresses: their parsers and printers,
    over bytes ([Z], 0 to 255).  An IPv6 text is read token by token between
    its colons: an empty token is the ellipsis.  What the parsers reject is
    [None]; the texts of their errors are not kept.  Like GoStrings.v this is
    the vocabulary of the component files, not code of the repository. *)
From stdpp Require Import pretty.
From S2P Require Import Prelude GoStrings GoStringFacts Accounts.

Module NetAddr.

Definition dot : byte := byte_of 46.
Definition colon : byte := byte_of 58.
Definition percent : byte := byte_of 37.
Definition dash : byte := byte_of 45.

(** ** Numbers *)
Definition hex_value (b : byte) : option Z :=
  let n := Z.of_N (Ascii.N_of_ascii b) in
  (if (48 <=? n) && (n <=? 57) then Some (n - 48)
   else if (97 <=? n) && (n <=? 102) then Some (n - 87)
   else if (65 <=? n) && (n <=? 70) then Some (n - 55)
   else None)%Z.

Fixpoint hex_number (acc : Z) (l : bytes) : option Z :=
  match l with
  | [] => Some acc
  | b :: l => d ← hex_value b; hex_number (16 * acc + d)%Z l
  end.

(** [netip.hexDigits]. *)
Definition hex_digit (d : Z) : byte := byte_of (Z.to_N (if (d <? 10)%Z then 48 + d else 87 + d)).

(** [appendHex]: without leading zeros. *)
Definition print_group (x : Z) : string :=
  of_bytes ((if 4096 <=? x then [hex_digit (x / 4096)] else []) ++
            (if 256 <=? x then [hex_digit (x / 256 mod 16)] else []) ++
            (if 16 <=? x then [hex_digit (x / 16 mod 16)] else []) ++
            [hex_digit (x mod 16)])%Z.

(** Two digits, for hardware addresses and masks. *)
Definition print_byte (x : Z) : string := of_bytes [hex_digit (x / 16); hex_digit (x mod 16)].

(** ** Addresses ([netip.Addr]) *)
Inductive Addr :=
| Addr4 (b : list Z)
| Addr6 (b : list Z) (zone : string).

(** One field of a dotted quad: no sign, no leading zero, at most 255. *)
Definition parse_octet (t : string) : option Z :=
  match to_bytes t with
  | [] => None
  | b :: l =>
      v ← Accounts.digits 0 (b :: l);
      if bool_decide (l ≠ []) && beqb b (byte_of 48) then None
      else if (v <=? 255)%Z then Some v else None
  end.

(** [parseIPv4Fields]. *)
Definition parseIPv4 (s : string) : option (list Z) :=
  l ← mapM parse_octet (Split s dot);
  if bool_decide (length l = 4) then Some l else None.

(** One group of an IPv6 address: one to four digits. *)
Definition parse_group (t : string) : option Z :=
  let l := to_bytes t in
  if bool_decide (1 ≤ length l ≤ 4) then hex_number 0 l else None.

(** The groups after the ellipsis, or all of them: the last can be a dotted
    quad, which is worth two. *)
Fixpoint parse_groups (ts : list string) : option (list Z) :=
  match ts with
  | [] => Some []
  | [t] =>
      match parse_group t with
      | Some g => Some [g]
      | None =>
          match parseIPv4 t with
          | Some [a; b; c; d] => Some [256 * a + b; 256 * c + d]%Z
          | _ => None
          end
      end
  | t :: ts => g ← parse_group t; gs ← parse_groups ts; Some (g :: gs)
  end.

(** The tokens before and after the ellipsis: at an end of the text it takes
    two empty tokens. *)
Definition at_ellipsis (ts : list string) : option (list string * list string) :=
  '(i, _) ← list_find (λ t, t = "") ts;
  r ← (match take i ts, drop (S i) ts with
       | [], t :: r => if bool_decide (t = "") then Some r else None
       | [], [] => None
       | _, r => Some r
       end);
  match r with
  | [] => None
  | [t] => Some (take i ts, if bool_decide (t = "") then [] else [t])
  | _ => Some (take i ts, r)
  end.

Definition groups6 (s : string) : option (list Z) :=
  let ts := Split s colon in
  if bool_decide ("" ∈ ts) then
    '(l, r) ← at_ellipsis ts;
    lg ← mapM parse_group l;
    rg ← parse_groups r;
    if bool_decide (length lg + length rg < 8)
    then Some (lg ++ replicate (8 - (length lg + length rg)) 0%Z ++ rg) else None
  else
    gs ← parse_groups ts;
    if bool_decide (length gs = 8) then Some gs else None.

Definition group_bytes (g : Z) : list Z := [g / 256; g mod 256]%Z.

Fixpoint bytes_groups (b : list Z) : list Z :=
  match b with
  | x :: y :: b => (256 * x + y)%Z :: bytes_groups b
  | _ => []
  end.

(** [parseIPv6]. *)
Definition parseIPv6 (s : string) : option Addr :=
  let '(a, zone, found) := Cut s percent in
  if found && bool_decide (zone = "") then None
  else gs ← groups6 a; Some (Addr6 (gs ≫= group_bytes) zone).

Fixpoint first_of (cs : list byte) (l : bytes) : option byte :=
  match l with
  | [] => None
  | b :: l => if existsb (beqb b) cs then Some b else first_of cs l
  end.

(** [netip.ParseAddr]. *)
Definition ParseAddr (s : string) : option Addr :=
  match first_of [dot; colon; percent] (to_bytes s) with
  | None => None
  | Some c =>
      if beqb c dot then Addr4 <$> parseIPv4 s
      else if beqb c colon then parseIPv6 s
      else None
  end.

Definition Zone (a : Addr) : string := match a with Addr4 _ => "" | Addr6 _ z => z end.
Definition BitLen (a : Addr) : Z := match a with Addr4 _ => 32 | Addr6 _ _ => 128 end.
Definition v4InV6Prefix : list Z := [0; 0; 0; 0; 0; 0; 0; 0; 0; 0; 255; 255]%Z.
Definition As16 (a : Addr) : list Z := match a with Addr4 b => v4InV6Prefix ++ b | Addr6 b _ => b end.

Definition print4 (b : list Z) : string := Join (pretty <$> b) ".".

(** The first of the longest runs of two zeros or more: where it starts and
    its length. *)
Fixpoint zeros (gs : list Z) : nat :=
  match gs with g :: gs => if (g =? 0)%Z then S (zeros gs) else 0 | [] => 0 end.

Fixpoint longest_run (i : nat) (gs : list Z) : option (nat * nat) :=
  match gs with
  | [] => None
  | _ :: rest =>
      let n := zeros gs in
      match longest_run (S i) rest with
      | Some (j, m) => if bool_decide (m ≤ n) then Some (i, n) else Some (j, m)
      | None => if bool_decide (2 ≤ n) then Some (i, n) else None
      end
  end.

Definition side (ts : list string) : list string := match ts with [] => [""] | _ => ts end.

Definition tokens6 (gs : list Z) : list string :=
  match longest_run 0 gs with
  | Some (i, n) => side (print_group <$> take i gs) ++ [""] ++ side (print_group <$> drop (i + n) gs)
  | None => print_group <$> gs
  end.

(** [Addr.string6]. *)
Definition print6 (b : list Z) : string := Join (tokens6 (bytes_groups b)) ":".

(** [Addr.String]. *)
Definition Addr_String (a : Addr) : string :=
  match a with
  | Addr4 b => print4 b
  | Addr6 b z =>
      (if bool_decide (take 12 b = v4InV6Prefix) then "::ffff:" +:+ print4 (drop 12 b) else print6 b)
      +:+ (if bool_decide (z = "") then "" else "%" +:+ z)
  end.

(** ** Prefixes ([netip.Prefix]) *)
Record Prefix := mkPrefix { prefix_addr : Addr; prefix_bits : Z }.

Definition parse_bits (t : string) : option Z :=
  match to_bytes t with
  | b :: _ :: _ =>
      match Accounts.digit b with
      | Some d => if (d =? 0)%Z then None else Accounts.Atoi t
      | None => None
      end
  | _ => Accounts.Atoi t
  end.

Definition ParsePrefix (s : string) : option Prefix :=
  i ← LastIndex s slash;
  ip ← ParseAddr (slice_to s i);
  if bool_decide (Zone ip ≠ "") then None
  else
    bits ← parse_bits (slice_from s (S i));
    if ((bits <? 0) || (BitLen ip <? bits))%Z then None else Some (mkPrefix ip bits).

Definition IsSingleIP (p : Prefix) : bool := (prefix_bits p =? BitLen (prefix_addr p))%Z.

(** ** The older types: [net.IP], [net.IPMask], [net.IPNet]

    An address of four or sixteen bytes; sixteen where a parser made it. *)
Definition IP : Type := list Z.

Record IPNet := mkIPNet { net_ip : option IP; net_mask : list Z }.

(** [net.ParseIP]. *)
Definition net_ParseIP (s : string) : option IP :=
  a ← ParseAddr s;
  if bool_decide (Zone a = "") then Some (As16 a) else None.

Definition To4 (ip : IP) : option (list Z) :=
  if bool_decide (length ip = 4) then Some ip
  else if bool_decide (length ip = 16 ∧ take 12 ip = v4InV6Prefix) then Some (drop 12 ip)
  else None.

Definition To16 (ip : IP) : option (list Z) :=
  if bool_decide (length ip = 4) then Some (v4InV6Prefix ++ ip)
  else if bool_decide (length ip = 16) then Some ip
  else None.

Definition mask_byte (n : Z) : Z := (255 - Z.shiftr 255 n)%Z.

(** [net.CIDRMask], for [0 ≤ ones ≤ 8 * size]. *)
Fixpoint CIDRMask (ones : Z) (size : nat) : list Z :=
  match size with
  | 0 => []
  | S size =>
      if (8 <=? ones)%Z then 255%Z :: CIDRMask (ones - 8) size
      else mask_byte ones :: CIDRMask 0 size
  end.

(** [IP.Mask]. *)
Definition IP_Mask (ip : IP) (mask : list Z) : option IP :=
  let mask := if bool_decide (length mask = 16 ∧ length ip = 4 ∧ take 12 mask = replicate 12 255%Z)
              then drop 12 mask else mask in
  let ip := if bool_decide (length mask = 4 ∧ length ip = 16 ∧ take 12 ip = v4InV6Prefix)
            then drop 12 ip else ip in
  if bool_decide (length ip = length mask) then Some (zip_with Z.land ip mask) else None.

(** [net.dtoi] on a whole string. *)
Definition dtoi (t : string) : option Z :=
  match to_bytes t with
  | [] => None
  | l => v ← Accounts.digits 0 l; if (v <? 16777215)%Z then Some v else None
  end.

(** [net.ParseCIDR]. *)
Definition net_ParseCIDR (s : string) : option (IP * IPNet) :=
  let '(addr, mask, found) := Cut s slash in
  if negb found then None
  else
    ipAddr ← ParseAddr addr;
    if bool_decide (Zone ipAddr ≠ "") then None
    else
      n ← dtoi mask;
      if ((n <? 0) || (BitLen ipAddr <? n))%Z then None
      else
        let m := CIDRMask n (Z.to_nat (BitLen ipAddr / 8)) in
        Some (As16 ipAddr, mkIPNet (IP_Mask (As16 ipAddr) m) m).

Definition hex_string (b : list Z) : string := Join (print_byte <$> b) "".

(** [IP.String]. *)
Definition IP_String (ip : IP) : string :=
  if bool_decide (length ip = 0) then "<nil>"
  else match To4 ip with
       | Some p4 => print4 p4
       | None => if bool_decide (length ip = 16) then print6 ip else "?" +:+ hex_string ip
       end.

(** The ones of a byte, if they all lead. *)
Definition leading_ones (v : Z) : option Z :=
  '(n, _) ← list_find (λ x, x = v) (mask_byte ∘ Z.of_nat <$> seq 0 9); Some (Z.of_nat n).

(** [simpleMaskLength]; [None] stands for -1. *)
Fixpoint simpleMaskLength (mask : list Z) : option Z :=
  match mask with
  | [] => Some 0%Z
  | v :: rest =>
      if (v =? 255)%Z then n ← simpleMaskLength rest; Some (8 + n)%Z
      else
        n ← leading_ones v;
        if bool_decide (Forall (λ b, b = 0%Z) rest) then Some n else None
  end.

(** [networkNumberAndMask]. *)
Definition networkNumberAndMask (n : IPNet) : option (IP * list Z) :=
  nip ← net_ip n;
  let mask := net_mask n in
  match To4 nip with
  | Some ip =>
      if bool_decide (length mask = 4) then Some (ip, mask)
      else if bool_decide (length mask = 16) then Some (ip, drop 12 mask)
      else None
  | None =>
      if bool_decide (length nip = 16 ∧ length mask = 16) then Some (nip, mask) else None
  end.

(** [IPNet.String]. *)
Definition IPNet_String (n : IPNet) : string :=
  match networkNumberAndMask n with
  | None => "<nil>"
  | Some (nn, m) =>
      match simpleMaskLength m with
      | None => IP_String nn +:+ "/" +:+ hex_string m
      | Some l => IP_String nn +:+ "/" +:+ pretty l
      end
  end.

Definition IPv4Mask (a b c d : Z) : list Z := [a; b; c; d].

(** ** Hardware addresses *)
Definition xtoi2 (l : bytes) (e : option byte) : option Z :=
  match l with
  | a :: b :: rest =>
      match rest, e with
      | c :: _, Some e => if beqb c e then hex_number 0 [a; b] else None
      | _ :: _, None => None
      | [], _ => hex_number 0 [a; b]
      end
  | _ => None
  end.

Fixpoint mac_bytes (n : nat) (e : byte) (l : bytes) : option (list Z) :=
  match n with
  | 0 => Some []
  | S n => x ← xtoi2 l (Some e); xs ← mac_bytes n e (drop 3 l); Some (x :: xs)
  end.

Fixpoint mac_words (n : nat) (l : bytes) : option (list Z) :=
  match n with
  | 0 => Some []
  | S n =>
      x ← xtoi2 (take 2 l) None;
      y ← xtoi2 (drop 2 l) (Some dot);
      xs ← mac_words n (drop 5 l); Some (x :: y :: xs)
  end.

(** [net.ParseMAC]. *)
Definition ParseMAC (s : string) : option (list Z) :=
  let l := to_bytes s in
  if bool_decide (length l < 14) then None
  else
    let c2 := nth 2 l dot in
    let n := (length l + 1) / 3 in
    let w := (length l + 1) / 5 in
    if beqb c2 colon || beqb c2 dash then
      if bool_decide ((length l + 1) mod 3 = 0 ∧ (n = 6 ∨ n = 8 ∨ n = 20)) then mac_bytes n c2 l else None
    else if beqb (nth 4 l colon) dot then
      if bool_decide ((length l + 1) mod 5 = 0 ∧ (2 * w = 6 ∨ 2 * w = 8 ∨ 2 * w = 20)) then mac_words w l else None
    else None.

(** [HardwareAddr.String]. *)
Definition HardwareAddr_String (a : list Z) : string := Join (print_byte <$> a) ":".

Example addr_ex1 : net_ParseIP "2001:db8::1" ≫= (λ ip, Some (IP_String ip)) = Some "2001:db8::1".
Proof. reflexivity. Qed.
Example addr_ex2 : IP_String <$> net_ParseIP "::" = Some "::".
Proof. reflexivity. Qed.
Example addr_ex3 : IP_String <$> net_ParseIP "1::" = Some "1::".
Proof. reflexivity. Qed.
Example addr_ex4 : IP_String <$> net_ParseIP "::ffff:10.0.0.1" = Some "10.0.0.1".
Proof. reflexivity. Qed.
Example addr_ex5 : IP_String <$> net_ParseIP "1:0:0:2:0:0:0:3" = Some "1:0:0:2::3".
Proof. reflexivity. Qed.
Example addr_ex6 : (IPNet_String ∘ snd) <$> net_ParseCIDR "10.1.2.3/20" = Some "10.1.0.0/20".
Proof. reflexivity. Qed.
Example addr_ex7 : (IPNet_String ∘ snd) <$> net_ParseCIDR "::ffff:10.1.2.3/104" = Some "10.0.0.0/8".
Proof. reflexivity. Qed.
Example addr_ex8 : mapM net_ParseIP [":"] = None ∧ net_ParseIP "a:" = None ∧ net_ParseIP ":::" = None ∧ net_ParseIP "1::2::3" = None ∧ net_ParseIP "1:2:3:4:5:6::8" ≠ None ∧ net_ParseIP "1:2:3:4:5:6:7:8::" = None ∧ net_ParseIP "01.2.3.4" = None ∧ net_ParseIP "fe80::1%eth0" = None.
Proof. vm_compute. intuition discriminate. Qed.
Example mac_ex : HardwareAddr_String <$> ParseMAC "42-01-0A-00-00-02" = Some "42:01:0a:00:00:02" ∧ ParseMAC "4201.0a00.0002" = ParseMAC "42:01:0a:00:00:02".
Proof. vm_compute. auto. Qed.
End NetAddr.
