(* ===== verification/NetAddrFacts.v ===== *)
(** * Addresses: what is printed parses back

    The round trips of NetAddr.v: a printed address, and a printed prefix,
    parses to the same bytes. *)
From stdpp Require Import pretty.
From S2P Require Import Prelude GoStrings GoStringFacts Accounts NetAddr.

Module NetAddrFacts.
Import NetAddr.

(** ** Bytes, digits and the texts made of them *)
Definition is_byte (x : Z) : Prop := (0 ≤ x < 256)%Z.
Definition bytes_ok (n : nat) (b : list Z) : Prop := length b = n ∧ Forall is_byte b.
Definition is_group (g : Z) : Prop := (0 ≤ g < 65536)%Z.

Definition hex_char (b : byte) : bool := bool_decide (is_Some (hex_value b)).
Definition hex_text (s : string) : Prop := Forall (λ b, hex_char b = true) (to_bytes s).

Lemma hex_text_lacks c s : hex_char c = false → hex_text s → lacks c s.
Proof. unfold lacks, hex_text. rewrite Forall_forall. intros Hc Hs Hin. specialize (Hs _ Hin). congruence. Qed.

(** The 256 octets, by computation. *)
Definition octet_ok (x : Z) : bool :=
  bool_decide (parse_octet (pretty x) = Some x) && forallb hex_char (to_bytes (pretty x)) &&
  negb (bool_decide (pretty x = "")).

Lemma octet_roundtrip x :
  is_byte x → parse_octet (pretty x) = Some x ∧ hex_text (pretty x) ∧ pretty x ≠ "".
Proof.
  intros Hx. assert (forallb octet_ok (seqZ 0 256) = true) as H by (vm_compute; reflexivity).
  rewrite forallb_forall in H. assert (In x (seqZ 0 256)) as Hin by (by apply list_elem_of_In, elem_of_seqZ).
  apply H in Hin. unfold octet_ok in Hin. rewrite !andb_true_iff, forallb_forall in Hin.
  destruct Hin as [[H1%bool_decide_eq_true H2] H3%negb_true_iff].
  repeat split; [done| |by apply bool_decide_eq_false in H3].
  apply Forall_forall. intros b Hb. by apply H2, list_elem_of_In.
Qed.

Lemma hex_digit_roundtrip d : (0 ≤ d < 16)%Z → hex_value (hex_digit d) = Some d.
Proof.
  intros Hd. assert (d ∈ seqZ 0 16) as Hin by (by apply elem_of_seqZ).
  cbn in Hin. repeat (apply elem_of_cons in Hin as [->|Hin]; [done|]). by apply not_elem_of_nil in Hin.
Qed.

Lemma hex_char_digit d : (0 ≤ d < 16)%Z → hex_char (hex_digit d) = true.
Proof. intros. apply bool_decide_eq_true. rewrite hex_digit_roundtrip by done. by eexists. Qed.

Lemma group_roundtrip x :
  is_group x → parse_group (print_group x) = Some x ∧ hex_text (print_group x) ∧ print_group x ≠ "".
Proof.
  unfold is_group. intros Hx. unfold parse_group, hex_text, print_group. rewrite to_of_bytes.
  assert (0 ≤ x / 4096 < 16 ∧ 0 ≤ x / 256 mod 16 < 16 ∧ 0 ≤ x / 16 mod 16 < 16 ∧ 0 ≤ x mod 16 < 16)%Z as (Ha & Hb & Hc & Hd)
    by (Z.to_euclidean_division_equations; lia).
  destruct (Z.leb_spec 4096 x), (Z.leb_spec 256 x), (Z.leb_spec 16 x); try lia; cbn [app length hex_number];
    (split; [|split; [repeat constructor; by apply hex_char_digit|done]]);
    cbn -[hex_value hex_digit Z.div Z.modulo Z.add Z.mul];
    rewrite !hex_digit_roundtrip by done; cbn -[Z.div Z.modulo Z.add Z.mul];
    rewrite ?hex_digit_roundtrip by done; cbn -[Z.div Z.modulo Z.add Z.mul];
    rewrite ?hex_digit_roundtrip by done; cbn -[Z.div Z.modulo Z.add Z.mul];
    f_equal; Z.to_euclidean_division_equations; lia.
Qed.

(** ** Lists of tokens *)
Lemma mapM_print {A} (parse : string → option A) (print : A → string) (l : list A) :
  Forall (λ x, parse (print x) = Some x) l → mapM parse (print <$> l) = Some l.
Proof. induction 1 as [|x l Hx _ IH]; [done|]. cbn. rewrite Hx. cbn. by rewrite IH. Qed.

Lemma parse_groups_print l : Forall is_group l → parse_groups (print_group <$> l) = Some l.
Proof.
  induction 1 as [|x l Hx Hl IH]; [done|]. destruct (group_roundtrip x Hx) as [Hp _].
  destruct l as [|y l]; cbn [fmap list_fmap parse_groups] in *; rewrite Hp; [done|]. cbn in *. by rewrite IH.
Qed.

Lemma print_group_nonempty l : Forall is_group l → "" ∉ print_group <$> l.
Proof.
  rewrite Forall_forall, list_elem_of_fmap. intros Hl (x & E & Hx).
  by destruct (group_roundtrip x (Hl _ Hx)) as (_ & _ & []).
Qed.

Lemma at_ellipsis_sides L R : "" ∉ L → "" ∉ R → at_ellipsis (side L ++ [""] ++ side R) = Some (L, R).
Proof.
  intros HL HR. unfold at_ellipsis.
  assert (Hr : side R = [""] ∧ R = [] ∨ ∃ t r, R = t :: r ∧ t ≠ "").
  { destruct R as [|t R]; [by left|]. right. exists t, R. split; [done|]. set_solver. }
  destruct L as [|t L].
  - cbn. destruct Hr as [[-> ->]|(t & r & -> & Ht)]; [done|]. by destruct t, r.
  - cbn [side].
    assert (list_find (λ t, t = "") ((t :: L) ++ [""] ++ side R) = Some (length (t :: L), "")) as ->.
    { apply list_find_Some. split; [by rewrite lookup_app_r, Nat.sub_diag by lia|]. split; [done|].
      intros j y Hy Hj. rewrite lookup_app_l in Hy by done. apply list_elem_of_lookup_2 in Hy. naive_solver. }
    cbn [mbind option_bind]. rewrite take_app_length, (assoc (++)), drop_app_length' by (rewrite length_app; cbn; lia).
    destruct Hr as [[-> ->]|(t' & r & -> & Ht)]; [done|]. by destruct t', r.
Qed.

(** The ellipsis stands for the zeros. *)
Lemma zeros_spec gs : gs = replicate (zeros gs) 0%Z ++ drop (zeros gs) gs.
Proof. induction gs as [|g gs IH]; [done|]. cbn. destruct (Z.eqb_spec g 0); [|done]. subst g. cbn. by f_equal. Qed.

Lemma longest_run_spec k gs j n :
  longest_run k gs = Some (j, n) →
  k ≤ j ∧ 2 ≤ n ∧ gs = take (j - k) gs ++ replicate n 0%Z ++ drop (j - k + n) gs.
Proof.
  revert k j n. induction gs as [|g gs IH]; intros k j n; [done|].
  pose proof (zeros_spec (g :: gs)) as Hz. unfold longest_run; fold longest_run. cbv zeta.
  generalize dependent (zeros (g :: gs)). intros z Hz.
  destruct (longest_run (S k) gs) as [[i m]|] eqn:E.
  - apply IH in E as (Hk & Hm & Heq). case_bool_decide.
    + intros [= <- <-]. rewrite Nat.sub_diag. split_and!; [lia|lia|exact Hz].
    + intros [= <- <-]. split_and!; [lia|lia|]. replace (i - k) with (S (i - S k)) by lia. cbn. by f_equal.
  - case_bool_decide; [|done]. intros [= <- <-]. rewrite Nat.sub_diag. split_and!; [lia|lia|exact Hz].
Qed.

Lemma groups6_tokens gs :
  length gs = 8 → Forall is_group gs → groups6 (Join (tokens6 gs) ":") = Some gs.
Proof.
  intros Hlen Hgs. unfold groups6.
  assert (Hcolon : ∀ l, Forall is_group l → Forall (lacks colon) (print_group <$> l)).
  { intros l Hl. rewrite Forall_fmap. eapply Forall_impl; [exact Hl|]. intros x Hx.
    apply hex_text_lacks; [done|]. by destruct (group_roundtrip x Hx) as (_ & ? & _). }
  assert (Hside : ∀ l, Forall (lacks colon) l → Forall (lacks colon) (side l)).
  { intros [|x l]; [|done]. repeat constructor. by intros ?%not_elem_of_nil. }
  unfold tokens6. destruct (longest_run 0 gs) as [[i n]|] eqn:E.
  - apply longest_run_spec in E as (_ & Hn & Heq). rewrite Nat.sub_0_r in Heq. cbn [Nat.add] in Heq.
    assert (Forall is_group (take i gs) ∧ Forall is_group (drop (i + n) gs)) as [HL HR]
      by (split; [by apply Forall_take|by apply Forall_drop]).
    change ":" with (String colon "").
    rewrite Split_Join; [|destruct (take i gs); done|
      rewrite !Forall_app; split; [auto|split; [repeat constructor; by intros ?%not_elem_of_nil|auto]]].
    rewrite bool_decide_true by set_solver.
    rewrite at_ellipsis_sides by (by apply print_group_nonempty). cbn [mbind option_bind].
    rewrite mapM_print by (eapply Forall_impl; [exact HL|]; intros x Hx; apply group_roundtrip, Hx).
    cbn [mbind option_bind]. rewrite parse_groups_print by done. cbn [mbind option_bind].
    assert (Hl8 := Hlen). rewrite Heq, !length_app, length_replicate in Hl8.
    rewrite bool_decide_true by lia. f_equal.
    replace (8 - _) with n by lia. by symmetry.
  - change ":" with (String colon "").
    rewrite Split_Join; [|by destruct gs|by apply Hcolon].
    rewrite bool_decide_false by (by apply print_group_nonempty).
    rewrite parse_groups_print by done. cbn. by rewrite bool_decide_true.
Qed.

(** ** What the parsers return *)
Lemma digits_nonneg acc l v : (0 ≤ acc)%Z → Accounts.digits acc l = Some v → (0 ≤ v)%Z.
Proof.
  revert acc. induction l as [|b l IH]; intros acc Ha; cbn; [by intros [= <-]|].
  unfold Accounts.digit. destruct (_ && _)%N eqn:E; [|done]. cbn. apply IH.
  apply andb_true_iff in E as [E%N.leb_le _]. lia.
Qed.

Lemma hex_number_bound acc l v n :
  (0 ≤ acc < 16 ^ n)%Z → (0 ≤ n)%Z → hex_number acc l = Some v → (0 ≤ v < 16 ^ (n + Z.of_nat (length l)))%Z.
Proof.
  revert acc n. induction l as [|b l IH]; intros acc n Ha Hn; cbn [hex_number length].
  { intros [= <-]. by rewrite Z.add_0_r. }
  destruct (hex_value b) as [d|] eqn:E; [|done]. cbn [mbind option_bind].
  assert (0 ≤ d < 16)%Z.
  { unfold hex_value in E. repeat case_match; simplify_eq;
      repeat match goal with H : (_ && _)%bool = true |- _ => apply andb_true_iff in H as [?%Z.leb_le ?%Z.leb_le] end; lia. }
  replace (n + Z.of_nat (S (length l)))%Z with (n + 1 + Z.of_nat (length l))%Z by lia. apply IH; [|lia].
  rewrite Z.pow_add_r by lia. lia.
Qed.

Lemma parse_octet_byte t x : parse_octet t = Some x → is_byte x.
Proof.
  unfold parse_octet, is_byte. destruct (to_bytes t) as [|b l]; [done|].
  destruct (Accounts.digits 0 (b :: l)) as [v|] eqn:E; [|done]. apply digits_nonneg in E; [|done].
  cbn. repeat case_match; [done|intros [= <-]|done]. lia.
Qed.

Lemma parse_group_group t g : parse_group t = Some g → is_group g.
Proof.
  unfold parse_group, is_group. case_bool_decide as Hl; [|done]. intros H.
  apply (hex_number_bound 0 _ _ 0) in H; [|lia|lia]. destruct H as [? H]. split; [done|].
  eapply Z.lt_le_trans; [exact H|]. change 65536%Z with (16 ^ 4)%Z. apply Z.pow_le_mono_r; lia.
Qed.

Lemma mapM_Forall {A B} (f : A → option B) (P : B → Prop) l k :
  (∀ x y, f x = Some y → P y) → mapM f l = Some k → Forall P k.
Proof.
  intros Hf. revert k. induction l as [|x l IH]; intros k; cbn; [by intros [= <-]|].
  destruct (f x) eqn:E; [|done]. cbn. destruct (mapM f l); [|done]. intros [= <-]. constructor; eauto.
Qed.

Lemma parseIPv4_ok s b : parseIPv4 s = Some b → bytes_ok 4 b.
Proof.
  unfold parseIPv4. destruct (mapM _ _) as [l|] eqn:E; [|done]. cbn. case_bool_decide; [|done]. intros [= <-].
  split; [done|]. eapply mapM_Forall; [|exact E]. apply parse_octet_byte.
Qed.

Lemma parse_groups_group ts gs : parse_groups ts = Some gs → Forall is_group gs.
Proof.
  revert gs. induction ts as [|t ts IH]; intros gs; [by intros [= <-]|]. destruct ts as [|t' ts].
  - cbn. destruct (parse_group t) as [g|] eqn:E; [intros [= <-]; constructor; [by eapply parse_group_group|done]|].
    destruct (parseIPv4 t) as [[|a [|b [|c [|d []]]]]|] eqn:E4; try done. intros [= <-].
    apply parseIPv4_ok in E4 as [_ HF]. repeat (apply Forall_cons in HF as [? HF]).
    unfold is_byte, is_group in *. constructor; [lia|constructor; [lia|done]].
  - change (parse_groups (t :: t' :: ts)) with (g ← parse_group t; gs ← parse_groups (t' :: ts); Some (g :: gs)).
    destruct (parse_group t) as [g|] eqn:E; [|done]. cbn [mbind option_bind].
    destruct (parse_groups (t' :: ts)) as [gs'|]; [|done]. intros [= <-].
    constructor; [by eapply parse_group_group|by apply IH].
Qed.

Lemma groups6_ok s gs : groups6 s = Some gs → length gs = 8 ∧ Forall is_group gs.
Proof.
  unfold groups6. case_bool_decide.
  - destruct (at_ellipsis _) as [[l r]|]; [|done]. cbn. destruct (mapM parse_group l) as [lg|] eqn:El; [|done]. cbn.
    destruct (parse_groups r) as [rg|] eqn:Er; [|done]. cbn. case_bool_decide; [|done]. intros [= <-].
    rewrite !length_app, length_replicate. split; [lia|]. rewrite !Forall_app. split_and!.
    + eapply mapM_Forall; [|exact El]. apply parse_group_group.
    + apply Forall_replicate. unfold is_group. lia.
    + by eapply parse_groups_group.
  - destruct (parse_groups _) as [rg|] eqn:Er; [|done]. cbn. case_bool_decide; [|done]. intros [= <-].
    split; [done|]. by eapply parse_groups_group.
Qed.

Lemma group_bytes_ok gs : Forall is_group gs → bytes_ok (2 * length gs) (gs ≫= group_bytes).
Proof.
  induction 1 as [|g gs Hg _ [IHl IHf]]; [done|]. split; [cbn in *; lia|]. cbn.
  unfold is_group, is_byte in *.
  constructor; [|constructor; [|done]]; Z.to_euclidean_division_equations; lia.
Qed.

Lemma bytes_groups_bytes gs : Forall is_group gs → bytes_groups (gs ≫= group_bytes) = gs.
Proof.
  induction 1 as [|g gs Hg _ IH]; [done|]. cbn. rewrite IH. f_equal.
  unfold is_group in *. Z.to_euclidean_division_equations; lia.
Qed.

Lemma bytes_group_ok n b :
  bytes_ok (2 * n) b → length (bytes_groups b) = n ∧ Forall is_group (bytes_groups b) ∧
  bytes_groups b ≫= group_bytes = b.
Proof.
  revert b. induction n as [|n IH]; intros b [Hl Hf]; [by destruct b|].
  destruct b as [|x [|y b]]; cbn in Hl; [lia|lia|].
  apply Forall_cons in Hf as [Hx [Hy Hf]%Forall_cons]. destruct (IH b) as (H1 & H2 & H3); [split; [lia|done]|].
  cbn. rewrite H1, H3. unfold is_byte, is_group in *. split_and!; [done|constructor; [lia|done]|].
  f_equal; [|f_equal]; Z.to_euclidean_division_equations; lia.
Qed.

(** ** Printed addresses *)
Lemma first_of_app cs l c k :
  Forall (λ b, existsb (beqb b) cs = false) l → existsb (beqb c) cs = true → first_of cs (l ++ c :: k) = Some c.
Proof. intros Hl Hc. induction Hl as [|b l Hb Hl IH]; cbn; [by rewrite Hc|by rewrite Hb]. Qed.

Lemma Forall_bjoin (P : byte → Prop) sep ls :
  Forall P sep → Forall (Forall P) ls → Forall P (bjoin sep ls).
Proof.
  intros Hs HF. induction HF as [|l ls Hl HF IH]; cbn; [done|]. destruct ls; [done|].
  rewrite !Forall_app. auto.
Qed.

Lemma Forall_Join (P : byte → Prop) ls sep :
  Forall P (to_bytes sep) → Forall (λ s, Forall P (to_bytes s)) ls → Forall P (to_bytes (Join ls sep)).
Proof. intros. unfold Join. rewrite to_of_bytes. apply Forall_bjoin; [done|]. by rewrite Forall_fmap. Qed.

Lemma hex_text_impl s (P : byte → Prop) :
  (∀ b, hex_char b = true → P b) → hex_text s → Forall P (to_bytes s).
Proof. intros HP Hs. eapply Forall_impl; [exact Hs|exact HP]. Qed.

Lemma hex_char_eqb b c : hex_char b = true → hex_char c = false → beqb b c = false.
Proof. intros Hb Hc. apply beqb_ne. intros ->. congruence. Qed.

Lemma print4_tokens b : bytes_ok 4 b → ∃ x y z w, b = [x; y; z; w] ∧ Forall is_byte b.
Proof. intros [Hl Hf]. destruct b as [|x [|y [|z [|w []]]]]; try done. by exists x, y, z, w. Qed.

Lemma parseIPv4_print4 b : bytes_ok 4 b → parseIPv4 (print4 b) = Some b.
Proof.
  intros [Hl Hf]. unfold parseIPv4, print4. change "." with (String dot "").
  rewrite Split_Join.
  - rewrite mapM_print; [cbn; by rewrite bool_decide_true|]. eapply Forall_impl; [exact Hf|]. apply octet_roundtrip.
  - by destruct b.
  - rewrite Forall_fmap. eapply Forall_impl; [exact Hf|]. intros x Hx. apply hex_text_lacks; [done|].
    by destruct (octet_roundtrip x Hx) as (_ & ? & _).
Qed.

(** The first byte that decides the family. *)
Lemma first_of_print4 b : bytes_ok 4 b → first_of [dot; colon; percent] (to_bytes (print4 b)) = Some dot.
Proof.
  intros (x & y & z & w & -> & HF)%print4_tokens. apply Forall_cons in HF as [Hx _].
  destruct (octet_roundtrip x Hx) as (_ & Hh & _). unfold print4, Join. rewrite to_of_bytes.
  cbn [fmap list_fmap bjoin]. apply first_of_app; [|done].
  eapply hex_text_impl; [|exact Hh]. intros c Hc. cbn. by rewrite !hex_char_eqb.
Qed.

Lemma print4_bytes b (P : byte → Prop) :
  bytes_ok 4 b → (∀ c, hex_char c = true → P c) → P dot → Forall P (to_bytes (print4 b)).
Proof.
  intros [_ Hf] HP Hd. apply Forall_Join; [by constructor|]. rewrite Forall_fmap.
  eapply Forall_impl; [exact Hf|]. intros x Hx. eapply hex_text_impl; [done|]. by destruct (octet_roundtrip x Hx) as (_ & ? & _).
Qed.

Lemma Forall_side (P : string → Prop) l : P "" → Forall P l → Forall P (side l).
Proof. intros Hn Hl. destruct l; [by constructor|done]. Qed.

Lemma tokens6_hex gs : Forall is_group gs → Forall hex_text (tokens6 gs).
Proof.
  intros Hgs. assert (H : ∀ l, Forall is_group l → Forall hex_text (print_group <$> l)).
  { intros l Hl. rewrite Forall_fmap. eapply Forall_impl; [exact Hl|]. intros x Hx.
    by destruct (group_roundtrip x Hx) as (_ & ? & _). }
  assert (hex_text "") by constructor.
  unfold tokens6. destruct (longest_run 0 gs) as [[i n]|]; [|by apply H].
  rewrite !Forall_app. split_and!; [apply Forall_side; auto using Forall_take|by constructor|apply Forall_side; auto using Forall_drop].
Qed.

Lemma print6_bytes gs (P : byte → Prop) :
  Forall is_group gs → (∀ c, hex_char c = true → P c) → P colon → Forall P (to_bytes (Join (tokens6 gs) ":")).
Proof.
  intros Hgs HP Hc. apply Forall_Join; [by constructor|]. eapply Forall_impl; [by apply tokens6_hex|].
  intros s. by apply hex_text_impl.
Qed.

Lemma tokens6_two gs : length gs = 8 → ∃ t u ts, tokens6 gs = t :: u :: ts.
Proof.
  intros Hl. unfold tokens6. destruct (longest_run 0 gs) as [[i n]|].
  - destruct (print_group <$> take i gs) as [|? []]; cbn; eauto.
  - destruct gs as [|? [|? ?]]; cbn in *; [lia|lia|eauto].
Qed.

Lemma first_of_print6 gs :
  length gs = 8 → Forall is_group gs → first_of [dot; colon; percent] (to_bytes (Join (tokens6 gs) ":")) = Some colon.
Proof.
  intros Hl Hgs. destruct (tokens6_two gs Hl) as (t & u & ts & E). pose proof (tokens6_hex gs Hgs) as Hh.
  rewrite E in *. apply Forall_cons in Hh as [Ht _]. unfold Join. rewrite to_of_bytes.
  cbn [fmap list_fmap bjoin]. change (to_bytes ":") with [colon]. apply first_of_app; [|done].
  eapply hex_text_impl; [|exact Ht]. intros c Hc. cbn. by rewrite !hex_char_eqb.
Qed.

Lemma ParseAddr_print4 b : bytes_ok 4 b → ParseAddr (print4 b) = Some (Addr4 b).
Proof. intros Hb. unfold ParseAddr. rewrite first_of_print4 by done. cbn. by rewrite parseIPv4_print4. Qed.

Lemma ParseAddr_print6 b : bytes_ok 16 b → ParseAddr (print6 b) = Some (Addr6 b "").
Proof.
  intros Hb. destruct (bytes_group_ok 8 b Hb) as (Hl & Hgs & Hbs). unfold ParseAddr, print6.
  rewrite first_of_print6 by done. cbn -[parseIPv6]. unfold parseIPv6. rewrite Cut_lacks.
  - cbn. rewrite groups6_tokens by done. cbn. by rewrite Hbs.
  - unfold lacks. assert (Forall (λ c, c ≠ percent) (to_bytes (Join (tokens6 (bytes_groups b)) ":"))) as HF.
    { apply print6_bytes; [done| |done]. by intros c Hc ->. }
    rewrite Forall_forall in HF. intros Hin. by apply (HF _ Hin).
Qed.

Lemma IP_String_bytes ip (P : byte → Prop) :
  bytes_ok 16 ip → (∀ c, hex_char c = true → P c) → P dot → P colon → Forall P (to_bytes (IP_String ip)).
Proof.
  intros [Hl Hf] HP Hd Hc. unfold IP_String, To4. rewrite Hl. cbn [bool_decide decide].
  case_bool_decide; [lia|]. case_bool_decide; [lia|]. case_bool_decide.
  - apply print4_bytes; [|done|done]. split; [by rewrite length_drop, Hl|by apply Forall_drop].
  - rewrite bool_decide_true by done. destruct (bytes_group_ok 8 ip) as (_ & Hgs & _); [done|].
    by apply print6_bytes.
Qed.

Lemma To4_16 ip : bytes_ok 16 ip →
  To4 ip = None ∨ ∃ q, To4 ip = Some q ∧ bytes_ok 4 q ∧ ip = v4InV6Prefix ++ q.
Proof.
  intros [Hl Hf]. unfold To4. rewrite Hl. case_bool_decide; [lia|]. case_bool_decide as H16; [|by left].
  right. exists (drop 12 ip). split_and!; [done|split; [by rewrite length_drop, Hl|by apply Forall_drop]|].
  destruct H16 as [_ <-]. by rewrite take_drop.
Qed.

Lemma IP_String_v6 ip : bytes_ok 16 ip → To4 ip = None → IP_String ip = print6 ip.
Proof. intros [Hl _] E. unfold IP_String. by rewrite Hl, E. Qed.

Lemma IP_String_v4 ip q : To4 ip = Some q → IP_String ip = print4 q.
Proof.
  intros E. unfold IP_String. rewrite E. case_bool_decide as H; [|done].
  apply nil_length_inv in H. subst ip. by unfold To4 in E.
Qed.

(** [net.ParseIP] reads what [IP.String] writes. *)
Lemma net_ParseIP_String ip : bytes_ok 16 ip → net_ParseIP (IP_String ip) = Some ip.
Proof.
  intros Hip. unfold net_ParseIP. destruct (To4_16 ip Hip) as [E|(q & E & Hq & Heq)].
  - by rewrite IP_String_v6, ParseAddr_print6.
  - rewrite (IP_String_v4 _ _ E), ParseAddr_print4 by done. by rewrite Heq.
Qed.

(** ** Prefixes *)
Lemma blast_index_lacks c l : c ∉ l → blast_index c l = None.
Proof.
  induction l as [|x l IH]; intros H; [done|]. apply not_elem_of_cons in H as [Hx Hl]. cbn. rewrite IH by done.
  apply not_eq_sym, beqb_ne in Hx. by rewrite Hx.
Qed.

Lemma LastIndex_app a b c : lacks c b → LastIndex (a +:+ String c b) c = Some (length (to_bytes a)).
Proof.
  unfold lacks, LastIndex. intros Hb. rewrite to_bytes_app. change (to_bytes (String c b)) with (c :: to_bytes b).
  induction (to_bytes a) as [|x l IH]; cbn; [by rewrite blast_index_lacks, beqb_refl|by rewrite IH].
Qed.

Lemma slice_app a b c :
  slice_to (a +:+ String c b) (length (to_bytes a)) = a ∧ slice_from (a +:+ String c b) (S (length (to_bytes a))) = b.
Proof.
  unfold slice_to, slice_from. rewrite to_bytes_app. change (to_bytes (String c b)) with (c :: to_bytes b).
  rewrite take_app_length. replace (S (length (to_bytes a))) with (length (to_bytes a) + 1) by lia.
  rewrite <-drop_drop, drop_app_length. cbn. by rewrite drop_0, !of_to_bytes.
Qed.

Lemma check_below (n : Z) (P : Z → bool) : forallb P (seqZ 0 n) = true → ∀ x, (0 ≤ x < n)%Z → P x = true.
Proof. rewrite forallb_forall. intros H x Hx. by apply H, list_elem_of_In, elem_of_seqZ. Qed.

(** Lengths of masks, by computation. *)
Definition mask_ok (n : Z) : bool :=
  bool_decide (parse_bits (pretty n) = Some n) && bool_decide (dtoi (pretty n) = Some n) &&
  forallb hex_char (to_bytes (pretty n)) &&
  bool_decide (simpleMaskLength (CIDRMask n 16) = Some n) &&
  (if (n <? 96)%Z then bool_decide (nth 11 (CIDRMask n 16) 0%Z < 255)%Z
   else bool_decide (CIDRMask n 16 = replicate 12 255%Z ++ CIDRMask (n - 96) 4)) &&
  (if (n <=? 32)%Z then bool_decide (simpleMaskLength (CIDRMask n 4) = Some n) else true).

Lemma mask_facts n : (0 ≤ n ≤ 128)%Z → mask_ok n = true.
Proof. intros Hn. apply (check_below 129); [vm_compute; reflexivity|lia]. Qed.

Lemma bits_roundtrip n : (0 ≤ n ≤ 128)%Z →
  parse_bits (pretty n) = Some n ∧ dtoi (pretty n) = Some n ∧ hex_text (pretty n).
Proof.
  intros Hn%mask_facts. unfold mask_ok in Hn. rewrite !andb_true_iff in Hn.
  destruct Hn as [[[[[H1%bool_decide_eq_true H2%bool_decide_eq_true] H3] _] _] _].
  split_and!; [done|done|]. rewrite forallb_forall in H3.
  apply Forall_forall. intros b Hb. by apply H3, list_elem_of_In.
Qed.

Lemma mask_length_roundtrip n : (0 ≤ n ≤ 128)%Z →
  simpleMaskLength (CIDRMask n 16) = Some n ∧ ((n ≤ 32)%Z → simpleMaskLength (CIDRMask n 4) = Some n).
Proof.
  intros Hn%mask_facts. unfold mask_ok in Hn. rewrite !andb_true_iff in Hn.
  destruct Hn as [[[_ H1%bool_decide_eq_true] _] H2]. split; [done|]. intros Hle%Z.leb_le.
  rewrite Hle in H2. by apply bool_decide_eq_true in H2.
Qed.

Lemma CIDRMask_length n k : length (CIDRMask n k) = k.
Proof. revert n. induction k as [|k IH]; intros n; cbn; [done|]. case_match; cbn; by rewrite IH. Qed.

Lemma zip_land_idem (b m : list Z) : zip_with Z.land (zip_with Z.land b m) m = zip_with Z.land b m.
Proof.
  revert m. induction b as [|x b IH]; intros [|y m]; cbn; [done|done|done|].
  rewrite IH, <-Z.land_assoc, Z.land_diag. done.
Qed.

Lemma zip_land_bytes n b m : bytes_ok n b → bytes_ok n m → bytes_ok n (zip_with Z.land b m).
Proof.
  intros [Hl Hf] [Hl' Hf']. split; [rewrite length_zip_with; lia|].
  clear Hl Hl'. revert m Hf'. induction Hf as [|x b Hx _ IH]; intros m Hm; [constructor|].
  destruct Hm as [|y m Hy Hm]; constructor; [|by apply IH]. unfold is_byte in *.
  split; [apply Z.land_nonneg; lia|].
  destruct (decide (Z.land x y = 0%Z)) as [->|Hne]; [done|].
  assert (0 ≤ Z.land x y)%Z by (apply Z.land_nonneg; lia). change 256%Z with (2 ^ 8)%Z. apply Z.log2_lt_pow2; [lia|].
  pose proof (Z.log2_land x y). assert (Z.log2 x < 8)%Z; [|lia].
  destruct (decide (x = 0%Z)) as [->|]; [done|]. apply Z.log2_lt_pow2; lia.
Qed.

Lemma CIDRMask_bytes n k : (0 ≤ n)%Z → bytes_ok k (CIDRMask n k).
Proof.
  intros Hn. split; [apply CIDRMask_length|]. revert n Hn. induction k as [|k IH]; intros n Hn; cbn; [done|].
  destruct (Z.leb_spec 8 n); constructor; try (apply IH; lia); [unfold is_byte; lia|].
  assert (n ∈ seqZ 0 8) as Hin by (by apply elem_of_seqZ). cbn in Hin. unfold is_byte.
  repeat (apply elem_of_cons in Hin as [->|Hin]; [done|]). by apply not_elem_of_nil in Hin.
Qed.

Lemma CIDR_text t a n :
  ParseAddr t = Some a → Zone a = "" → lacks slash t → (0 ≤ n ≤ BitLen a)%Z →
  let m := CIDRMask n (Z.to_nat (BitLen a / 8)) in
  ParsePrefix (t +:+ String slash (pretty n)) = Some (mkPrefix a n) ∧
  net_ParseCIDR (t +:+ String slash (pretty n)) = Some (As16 a, mkIPNet (IP_Mask (As16 a) m) m).
Proof.
  intros Ha Hz Ht Hn m. assert (BitLen a ≤ 128)%Z as Hb by (destruct a; cbn; lia).
  destruct (bits_roundtrip n) as (Hbits & Hdtoi & Hhex); [lia|].
  assert (((n <? 0) || (BitLen a <? n))%Z = false) as Hrange by lia.
  split.
  - unfold ParsePrefix. rewrite LastIndex_app by (by apply hex_text_lacks). cbn [mbind option_bind].
    destruct (slice_app t (pretty n) slash) as [-> ->]. rewrite Ha, Hbits. cbn -[BitLen]. by rewrite Hz, Hrange.
  - unfold net_ParseCIDR. rewrite Cut_app by done. cbn -[BitLen dtoi]. rewrite Ha, Hdtoi. cbn -[BitLen].
    by rewrite Hz, Hrange.
Qed.

Lemma To4_prefix q : bytes_ok 4 q → To4 (v4InV6Prefix ++ q) = Some q.
Proof. intros [Hl _]. destruct q as [|? [|? [|? [|? []]]]]; try done. Qed.

Lemma IP_Mask_v4 b n : bytes_ok 4 b → IP_Mask (v4InV6Prefix ++ b) (CIDRMask n 4) = Some (zip_with Z.land b (CIDRMask n 4)).
Proof.
  intros [Hl _]. unfold IP_Mask. pose proof (CIDRMask_length n 4) as Hm.
  rewrite (bool_decide_false (_ = 16 ∧ _)) by lia.
  rewrite (bool_decide_true (_ = 4 ∧ _)) by (split; [done|split; [cbn; lia|done]]).
  replace (drop 12 (v4InV6Prefix ++ b)) with b by done. by rewrite bool_decide_true by lia.
Qed.

Lemma IP_Mask_v6 b n : bytes_ok 16 b → IP_Mask b (CIDRMask n 16) = Some (zip_with Z.land b (CIDRMask n 16)).
Proof.
  intros [Hl _]. unfold IP_Mask. pose proof (CIDRMask_length n 16) as Hm.
  rewrite (bool_decide_false (_ = 16 ∧ _)) by lia. rewrite (bool_decide_false (_ = 4 ∧ _)) by lia.
  by rewrite bool_decide_true by lia.
Qed.

Definition net4 (q : list Z) (n : Z) : IPNet := mkIPNet (Some q) (CIDRMask n 4).
Definition net6 (q : list Z) (n : Z) : IPNet := mkIPNet (Some q) (CIDRMask n 16).

Lemma IPNet_String_v4 q n :
  bytes_ok 4 q → (0 ≤ n ≤ 32)%Z → IPNet_String (net4 q n) = print4 q +:+ String slash (pretty n).
Proof.
  intros Hq Hn. unfold IPNet_String, networkNumberAndMask, net4. cbn [net_ip net_mask mbind option_bind].
  assert (To4 q = Some q) as -> by (unfold To4; destruct Hq as [-> _]; done).
  rewrite CIDRMask_length, bool_decide_true by done.
  destruct (mask_length_roundtrip n) as [_ H]; [lia|]. rewrite H by lia.
  rewrite (IP_String_v4 q q); [done|]. unfold To4. by destruct Hq as [-> _].
Qed.

Lemma IPNet_String_v6 q n :
  bytes_ok 16 q → To4 q = None → (0 ≤ n ≤ 128)%Z → IPNet_String (net6 q n) = print6 q +:+ String slash (pretty n).
Proof.
  intros Hq E Hn. unfold IPNet_String, networkNumberAndMask, net6. cbn [net_ip net_mask mbind option_bind].
  rewrite E, CIDRMask_length, bool_decide_true by (split; [apply Hq|done]).
  destruct (mask_length_roundtrip n) as [-> _]; [lia|]. by rewrite IP_String_v6.
Qed.

Lemma land_ones_r x y : is_byte y → Z.land x y = 255%Z → y = 255%Z.
Proof.
  intros Hy H. assert (Z.land y 255 = 255%Z) as H'.
  { rewrite <-H at 1. rewrite (Z.land_comm x), Z.land_assoc, Z.land_diag. by rewrite Z.land_comm. }
  change 255%Z with (Z.ones 8) in H' at 1. rewrite Z.land_ones, Z.mod_small in H' by (unfold is_byte in *; lia). done.
Qed.

(** An IPv4 network written with an IPv6 mask is printed as IPv4. *)
Lemma mapped_prefix b n q :
  bytes_ok 16 b → (0 ≤ n ≤ 128)%Z → To4 (zip_with Z.land b (CIDRMask n 16)) = Some q →
  (96 ≤ n)%Z ∧ bytes_ok 4 q ∧ zip_with Z.land q (CIDRMask (n - 96) 4) = q ∧
  IPNet_String (net6 (zip_with Z.land b (CIDRMask n 16)) n) = print4 q +:+ String slash (pretty (n - 96)%Z).
Proof.
  intros Hb Hn E. pose proof (CIDRMask_bytes n 16) as Hm. specialize (Hm ltac:(lia)).
  pose proof (mask_facts n ltac:(lia)) as Hf. unfold mask_ok in Hf. rewrite !andb_true_iff in Hf.
  destruct Hf as [[_ Hf] _].
  assert (Hbm := zip_land_bytes 16 b _ Hb Hm).
  destruct (To4_16 _ Hbm) as [E'|(q' & E' & Hq & Heq)]; [congruence|]. rewrite E in E'. injection E' as <-.
  destruct (Z.ltb_spec n 96) as [Hlt|Hge].
  - exfalso. apply bool_decide_eq_true in Hf. destruct Hm as [Hml Hmf], Hb as [Hbl Hbf].
    destruct (lookup_lt_is_Some_2 b 11) as [x Hx]; [lia|].
    destruct (lookup_lt_is_Some_2 (CIDRMask n 16) 11) as [y Hy]; [lia|].
    assert (nth 11 (CIDRMask n 16) 0%Z = y) as E11 by (rewrite nth_lookup, Hy; done). rewrite E11 in Hf.
    assert (Hz : zip_with Z.land b (CIDRMask n 16) !! 11 = Some (Z.land x y)) by (by rewrite lookup_zip_with, Hx, Hy).
    rewrite Heq in Hz. injection Hz as Hz.
    eapply Forall_lookup_1 in Hmf; [|exact Hy]. symmetry in Hz. apply land_ones_r in Hz; [lia|done].
  - apply bool_decide_eq_true in Hf. split_and!; [done|done| |].
    + pose proof (zip_land_idem b (CIDRMask n 16)) as Hi. rewrite Heq, Hf in Hi.
      rewrite zip_with_app in Hi by done. by apply app_inj_1 in Hi as [_ ?].
    + unfold IPNet_String, networkNumberAndMask, net6. cbn [net_ip net_mask mbind option_bind].
      rewrite E, CIDRMask_length, bool_decide_false, bool_decide_true by done.
      rewrite Hf, drop_app_length' by done. destruct (mask_length_roundtrip (n - 96)) as [_ H]; [lia|]. rewrite H by lia.
      rewrite (IP_String_v4 q q); [done|]. unfold To4. by destruct Hq as [-> _].
Qed.
End NetAddrFacts.
