(* ===== verification/Address.v ===== *)
(** * internal/network/address: addresses and sets of addresses

    address.go.  An address is an IP, a network in CIDR notation, or both; sets
    of addresses are maps indexed by their printed form.  Ranges over a map
    that end in a sort do not depend on the order of the map. *)
From stdpp Require Import pretty sorting.
From S2P Require Import Prelude GoStrings GoStringFacts Accounts NetAddr NetAddrFacts.

Module Address.
Import NetAddr.

Definition ErrEmptyAddress : error := ErrMsg "empty address".

(** The options of the configuration the network components read (cfg.go). *)
Record Sections := mkSections {
  cfg_IPForwarding : bool;
  cfg_TargetInstanceIPs : bool;
  cfg_IPAliases : bool;
  cfg_EthernetProtoID : string;
  cfg_VlanSetupEnabled : bool;
  cfg_ManagePrimaryNIC : bool;
  cfg_Setup : bool;
  cfg_NetworkDaemon : bool;
  cfg_AddressManagerDisable : option bool;
  cfg_RestoreDebian12NetplanConfig : bool;
  cfg_DHCPCommand : string;
}.

(** A slice of decoded JSON: nil ([None]) where the key is missing. *)
Definition slice : Type := option (list string).
Definition items (l : slice) : list string := match l with Some l => l | None => [] end.

(** A network interface of the descriptor. *)
Record networkInterface := mkNetworkInterface {
  ForwardedIps : slice;
  ForwardedIpv6s : slice;
  TargetInstanceIps : slice;
  IPAliases : slice;
  Mac : string;
  DHCPv6Refresh : string;
}.

Record IPAddr := mkIPAddr { IP : option NetAddr.IP; CIDR : option IPNet }.

#[global] Instance IPNet_eq_dec : EqDecision IPNet.
Proof. solve_decision. Defined.
#[global] Instance IPAddr_eq_dec : EqDecision IPAddr.
Proof. solve_decision. Defined.

Abbreviation IPAddressMap := (gmap string IPAddr).

(** [IPAddr.String]. *)
Definition addr_String (i : IPAddr) : string :=
  match CIDR i with
  | Some net => IPNet_String net
  | None => match IP i with Some ip => IP_String ip | None => "<nil>" end
  end.

(** [To4() == nil] of the address, or of the network's. *)
Definition IsIPv6 (i : IPAddr) : bool :=
  match IP i with
  | Some ip => bool_decide (To4 ip = None)
  | None =>
      match CIDR i with
      | Some net => match net_ip net with Some ip => bool_decide (To4 ip = None) | None => true end
      | None => false
      end
  end.

Definition Mask (i : IPAddr) : result (list Z) :=
  let m := if IsIPv6 i then None else Some (IPv4Mask 255 255 255 255) in
  let m := match CIDR i with Some net => Some (net_mask net) | None => m end in
  match m with
  | Some m => Ok m
  | None => Err (ErrMsg ("no mask found for IP address: " +:+ addr_String i))
  end.

(** [netip.Addr]; [None] is a panic of the conversion. *)
Definition NetAddr_ (i : IPAddr) : option Addr :=
  ip ← IP i;
  if IsIPv6 i then (λ b, Addr6 b "") <$> To16 ip else Addr4 <$> To4 ip.

Definition ParseIP (ip : string) : result IPAddr :=
  let failed := Err (ErrMsg ("failed to parse IP address: " +:+ ip)) in
  if bool_decide (ip = "") then Err ErrEmptyAddress
  else match ParsePrefix ip with
       | Some prefix =>
           if IsSingleIP prefix then
             match net_ParseIP (Addr_String (prefix_addr prefix)) with
             | Some ipAddress => Ok (mkIPAddr (Some ipAddress) None)
             | None => failed
             end
           else
             match net_ParseCIDR ip with
             | Some (ipAddress, ipNet) => Ok (mkIPAddr (Some ipAddress) (Some ipNet))
             | None => Err (ErrMsg ("failed to parse CIDR address " +:+ ip))
             end
       | None =>
           match net_ParseIP ip with
           | Some ipAddress => Ok (mkIPAddr (Some ipAddress) None)
           | None => failed
           end
       end.

(** ** Sets of addresses *)
Definition IPs (m : IPAddressMap) : list string := (map_to_list m).*1.
Definition FormatIPs (m : IPAddressMap) : string := Join (IPs m) ", ".

Definition Add (addr : IPAddr) (m : IPAddressMap) : IPAddressMap := <[addr_String addr := addr]> m.

Fixpoint RemoveAddresses (addresses : list string) (m : IPAddressMap) : IPAddressMap :=
  match addresses with
  | [] => m
  | address :: addresses =>
      match ParseIP address with
      | Err _ => RemoveAddresses addresses m
      | Ok ipAddr => RemoveAddresses addresses (delete (addr_String ipAddr) m)
      end
  end.

Definition RemoveIPAddrs (addr : list IPAddr) (m : IPAddressMap) : IPAddressMap :=
  foldl (λ m ipAddr, delete (addr_String ipAddr) m) m addr.

Definition MergeIPAddressMap (args : list IPAddressMap) : IPAddressMap :=
  foldl (λ result addrMap, addrMap ∪ result) ∅ args.

Fixpoint new_map (addresses : list string) (ignore res : IPAddressMap) : IPAddressMap :=
  match addresses with
  | [] => res
  | address :: addresses =>
      match ParseIP address with
      | Err _ => new_map addresses ignore res
      | Ok ipAddress =>
          if bool_decide (is_Some (ignore !! addr_String ipAddress)) then new_map addresses ignore res
          else new_map addresses ignore (<[addr_String ipAddress := ipAddress]> res)
      end
  end.

Definition NewIPAddressMap (addresses : list string) (ignore : IPAddressMap) : IPAddressMap :=
  new_map addresses ignore ∅.

(** A nil map reads as the empty one: [None] is kept apart because the code
    tests for it. *)
Record ExtraAddresses := mkExtra {
  ForwardedIPs : option IPAddressMap;
  TargetInstanceIPs : option IPAddressMap;
  Extra_IPAliases : option IPAddressMap;
}.

Definition MergedMap (c : ExtraAddresses) : IPAddressMap :=
  let wantedAddresses := ∅ in
  let wantedAddresses := match ForwardedIPs c with
                         | Some ips => MergeIPAddressMap [wantedAddresses; ips] | None => wantedAddresses end in
  let wantedAddresses := match TargetInstanceIPs c with
                         | Some ips => MergeIPAddressMap [wantedAddresses; ips] | None => wantedAddresses end in
  match Extra_IPAliases c with
  | Some ips => MergeIPAddressMap [wantedAddresses; ips] | None => wantedAddresses end.

Definition addr_le (a b : IPAddr) : Prop := string_le (addr_String a) (addr_String b).

#[global] Instance addr_le_dec : RelDecision addr_le.
Proof. intros a b. unfold addr_le. apply _. Defined.

(** [sort.Slice] by the printed form. *)
Definition sort_addrs (l : list IPAddr) : list IPAddr := merge_sort addr_le l.

Definition MergedSlice (c : ExtraAddresses) : list IPAddr := sort_addrs (map_to_list (MergedMap c)).*2.

Definition NewExtraAddresses (nic : networkInterface) (config : Sections) (ignore : IPAddressMap) : ExtraAddresses :=
  if negb (cfg_IPForwarding config) then mkExtra (Some ∅) (Some ∅) (Some ∅)
  else
    let targetInstanceIPs :=
      if cfg_TargetInstanceIPs config then Some (NewIPAddressMap (items (TargetInstanceIps nic)) ignore) else None in
    let ipAliases := if cfg_IPAliases config then Some (NewIPAddressMap (items (IPAliases nic)) ∅) else None in
    let data := items (ForwardedIps nic) ++ items (ForwardedIpv6s nic) in
    mkExtra (Some (NewIPAddressMap data ignore)) targetInstanceIPs ipAliases.

(** ** Well-formed sets *)

(** The characters of a printed address. *)
Definition net_text (k : string) : Prop :=
  Forall (λ b, NetAddrFacts.hex_char b = true ∨ b = dot ∨ b = colon ∨ b = slash) (to_bytes k).

(** Every entry is indexed by its own printed form, which parses back to it. *)
Definition canonical (k : string) (a : IPAddr) : Prop :=
  addr_String a = k ∧ net_text k ∧ ∃ b, ParseIP k = Ok b ∧ addr_String b = k.

Definition map_wf (m : IPAddressMap) : Prop := map_Forall canonical m.

Lemma addr_le_total : Total addr_le.
Proof. intros a b. apply string_le_total. Qed.
#[local] Existing Instance addr_le_total.

Lemma sort_addrs_perm l : sort_addrs l ≡ₚ l.
Proof. apply merge_sort_Permutation. Qed.

Lemma sort_addrs_sorted l : StronglySorted addr_le (sort_addrs l).
Proof. apply StronglySorted_merge_sort; [|apply _]. intros a b c. unfold addr_le. apply string_le_trans. Qed.

(** ** Parsing *)
Import NetAddrFacts.

Lemma ParseAddr_ok s a :
  ParseAddr s = Some a → (∃ b, a = Addr4 b ∧ bytes_ok 4 b) ∨ (∃ b z, a = Addr6 b z ∧ bytes_ok 16 b).
Proof.
  unfold ParseAddr. destruct (first_of _ _) as [c|]; [|done]. destruct (beqb c dot).
  { destruct (parseIPv4 s) as [b|] eqn:E; [|done]. intros [= <-]. left. eauto using parseIPv4_ok. }
  destruct (beqb c colon); [|done]. unfold parseIPv6. destruct (Cut s percent) as [[t z] f].
  destruct (f && _); [done|]. destruct (groups6 t) as [gs|] eqn:E; [|done]. intros [= <-].
  right. exists (gs ≫= group_bytes), z. split; [done|]. apply groups6_ok in E as [Hl Hg].
  pose proof (group_bytes_ok gs Hg) as H. by rewrite Hl in H.
Qed.

Lemma As16_ok s a : ParseAddr s = Some a → bytes_ok 16 (As16 a).
Proof.
  intros [(b & -> & [Hl Hf])|(b & z & -> & H)]%ParseAddr_ok; [|done]. cbn. split; [cbn; lia|].
  repeat (constructor; [done|]). done.
Qed.

Lemma net_ParseIP_ok s ip : net_ParseIP s = Some ip → bytes_ok 16 ip.
Proof.
  unfold net_ParseIP. destruct (ParseAddr s) as [a|] eqn:E; [|done]. cbn. case_bool_decide; [|done].
  intros [= <-]. by eapply As16_ok.
Qed.

(** A plain address. *)
Lemma ParseIP_plain ip : bytes_ok 16 ip → ParseIP (IP_String ip) = Ok (mkIPAddr (Some ip) None).
Proof.
  intros Hip. unfold ParseIP.
  assert (Hne : IP_String ip ≠ "").
  { intros E. pose proof (net_ParseIP_String ip Hip) as H. rewrite E in H. done. }
  rewrite bool_decide_false by done. unfold ParsePrefix.
  assert (LastIndex (IP_String ip) slash = None) as ->.
  { apply blast_index_lacks. intros Hin.
    assert (Forall (λ c, c ≠ slash) (to_bytes (IP_String ip))) as HF by (apply IP_String_bytes; [done|by intros c Hc ->|done|done]).
    rewrite Forall_forall in HF. by apply (HF _ Hin). }
  cbn. by rewrite net_ParseIP_String.
Qed.

(** A network: what was parsed, and what its printed form parses to. *)
Lemma ParseIP_cidr t a n :
  ParseAddr t = Some a → Zone a = "" → lacks slash t → (0 ≤ n < BitLen a)%Z →
  let m := CIDRMask n (Z.to_nat (BitLen a / 8)) in
  ParseIP (t +:+ String slash (pretty n)) = Ok (mkIPAddr (Some (As16 a)) (Some (mkIPNet (IP_Mask (As16 a) m) m))).
Proof.
  intros Ha Hz Ht Hn m. destruct (CIDR_text t a n) as [HP HC]; try done; [lia|]. unfold ParseIP.
  rewrite bool_decide_false by (by destruct t). rewrite HP, HC.
  assert (IsSingleIP (mkPrefix a n) = false) as -> by (apply Z.eqb_neq; cbn; lia). done.
Qed.

Lemma cidr_text t n : net_text t → (0 ≤ n ≤ 128)%Z → net_text (t +:+ String slash (pretty n)).
Proof.
  intros Ht Hn. unfold net_text. rewrite to_bytes_app. apply Forall_app. split; [done|]. constructor; [by auto|].
  destruct (bits_roundtrip n Hn) as (_ & _ & Hh). eapply hex_text_impl; [|exact Hh]. by auto.
Qed.

Lemma print4_text q : bytes_ok 4 q → net_text (print4 q).
Proof. intros Hq. apply print4_bytes; by auto. Qed.

Lemma print6_text b : bytes_ok 16 b → net_text (print6 b).
Proof. intros Hb. destruct (bytes_group_ok 8 b Hb) as (_ & Hgs & _). apply print6_bytes; by auto. Qed.

Lemma print4_lacks_slash q : bytes_ok 4 q → lacks slash (print4 q).
Proof.
  intros Hq Hin. assert (Forall (λ c, c ≠ slash) (to_bytes (print4 q))) as HF by (apply print4_bytes; [done|by intros c Hc ->|done]).
  rewrite Forall_forall in HF. by apply (HF _ Hin).
Qed.

Lemma print6_lacks_slash b : bytes_ok 16 b → lacks slash (print6 b).
Proof.
  intros Hb Hin. destruct (bytes_group_ok 8 b Hb) as (_ & Hgs & _).
  assert (Forall (λ c, c ≠ slash) (to_bytes (print6 b))) as HF by (apply print6_bytes; [done|by intros c Hc ->|done]).
  rewrite Forall_forall in HF. by apply (HF _ Hin).
Qed.

(** Networks in their printed form. *)
Lemma canonical_v4 q n ip :
  bytes_ok 4 q → (0 ≤ n < 32)%Z → zip_with Z.land q (CIDRMask n 4) = q →
  canonical (print4 q +:+ String slash (pretty n)) (mkIPAddr ip (Some (net4 q n))).
Proof.
  intros Hq Hn Hm. unfold canonical, addr_String. cbn [CIDR]. rewrite IPNet_String_v4 by (done || lia). split; [done|].
  split; [apply cidr_text; [by apply print4_text|lia]|]. eexists. split; [apply ParseIP_cidr with (a := Addr4 q); [by apply ParseAddr_print4|done|by apply print4_lacks_slash|done]|].
  change (Z.to_nat (BitLen (Addr4 q) / 8)) with 4. cbn [As16 CIDR]. rewrite IP_Mask_v4, Hm by done.
  apply IPNet_String_v4; [done|lia].
Qed.

Lemma canonical_v6 q n ip :
  bytes_ok 16 q → To4 q = None → (0 ≤ n < 128)%Z → zip_with Z.land q (CIDRMask n 16) = q →
  canonical (print6 q +:+ String slash (pretty n)) (mkIPAddr ip (Some (net6 q n))).
Proof.
  intros Hq E Hn Hm. unfold canonical, addr_String. cbn [CIDR]. rewrite IPNet_String_v6 by (done || lia). split; [done|].
  split; [apply cidr_text; [by apply print6_text|lia]|]. eexists. split; [apply ParseIP_cidr with (a := Addr6 q ""); [by apply ParseAddr_print6|done|by apply print6_lacks_slash|done]|].
  change (Z.to_nat (BitLen (Addr6 q "") / 8)) with 16. cbn [As16 CIDR]. rewrite IP_Mask_v6, Hm by done.
  apply IPNet_String_v6; [done|done|lia].
Qed.

Lemma canonical_self k x : canonical k x → canonical (addr_String x) x.
Proof. intros H. pose proof H as [-> _]. exact H. Qed.

Lemma canonical_cidr t a n ip :
  ParseAddr t = Some a → Zone a = "" → (0 ≤ n < BitLen a)%Z →
  let m := CIDRMask n (Z.to_nat (BitLen a / 8)) in
  let x := mkIPAddr ip (Some (mkIPNet (IP_Mask (As16 a) m) m)) in canonical (addr_String x) x.
Proof.
  intros Ha Hz Hn. destruct (ParseAddr_ok _ _ Ha) as [(b & -> & Hb)|(b & z & -> & Hb)].
  - change (Z.to_nat (BitLen (Addr4 b) / 8)) with 4. cbn [As16 BitLen] in *. rewrite IP_Mask_v4 by done. cbn zeta.
    set (q := zip_with _ _ _). assert (bytes_ok 4 q) as Hq by (apply zip_land_bytes; [done|apply CIDRMask_bytes; lia]).
    change (mkIPNet (Some q) _) with (net4 q n).
    apply canonical_self with (k := print4 q +:+ String slash (pretty n)).
    apply canonical_v4; [done|done|apply zip_land_idem].
  - cbn in Hz. subst z. change (Z.to_nat (BitLen (Addr6 b "") / 8)) with 16. cbn [As16 BitLen] in *.
    rewrite IP_Mask_v6 by done. cbn zeta. set (q := zip_with _ _ _).
    assert (bytes_ok 16 q) as Hq by (apply zip_land_bytes; [done|apply CIDRMask_bytes; lia]).
    change (mkIPNet (Some q) _) with (net6 q n). destruct (To4 q) as [q4|] eqn:E.
    + destruct (mapped_prefix b n q4) as (Hge & Hq4 & Hm & HS); [done|lia|done|]. fold q in HS.
      destruct (canonical_v4 q4 (n - 96) ip) as [_ Hc]; [done|lia|done|].
      unfold addr_String. cbn [CIDR]. rewrite HS. split; [exact HS|exact Hc].
    + apply canonical_self with (k := print6 q +:+ String slash (pretty n)).
      apply canonical_v6; [done|done|lia|apply zip_land_idem].
Qed.

Lemma Cut_found s c t u : Cut s c = (t, u, true) → s = t +:+ String c u ∧ lacks c t.
Proof.
  unfold Cut, lacks. intros H. destruct (bcut c (to_bytes s)) as [[b a] f] eqn:E. injection H as <- <- ->.
  enough (to_bytes s = b ++ c :: a ∧ c ∉ b) as [Hs Hb].
  { rewrite to_of_bytes. split; [|done]. rewrite <-(of_to_bytes s), Hs. by rewrite of_bytes_app. }
  revert b E. induction (to_bytes s) as [|x l IH]; intros b; cbn; [done|].
  destruct (beqb x c) eqn:Ex; [intros [= <- <-]; apply beqb_spec in Ex as ->; by split; [|apply not_elem_of_nil]|].
  destruct (bcut c l) as [[b' a'] f'] eqn:El. intros [= <- <- ->]. destruct (IH b' eq_refl) as [-> Hb].
  split; [done|]. apply not_elem_of_cons. split; [|done]. apply beqb_ne in Ex. congruence.
Qed.

Lemma digits_all acc l v : Accounts.digits acc l = Some v → Forall (λ b, is_Some (Accounts.digit b)) l.
Proof.
  revert acc. induction l as [|b l IH]; intros acc; cbn; [by constructor|].
  destruct (Accounts.digit b) eqn:E; [|done]. cbn. intros. constructor; [by eexists|eauto].
Qed.

(** The bits of a prefix and the size of its mask are the same number. *)
Lemma parse_bits_dtoi u v n : parse_bits u = Some v → dtoi u = Some n → v = n ∧ lacks slash u.
Proof.
  unfold dtoi. intros Hv Hn. destruct (to_bytes u) as [|b l] eqn:E; [done|].
  destruct (Accounts.digits 0 (b :: l)) as [x|] eqn:Ed; [|done]. cbn [mbind option_bind] in Hn.
  destruct (x <? 16777215)%Z; [|done]. injection Hn as ->. pose proof (digits_all _ _ _ Ed) as Hd. split.
  - assert (Accounts.Atoi u = Some v) as Ha.
    { unfold parse_bits in Hv. rewrite E in Hv. destruct l; [done|]. by repeat case_match. }
    clear Hv. unfold Accounts.Atoi in Ha. rewrite E in Ha. apply Forall_cons in Hd as [[d Hd] _].
    assert (beqb b (byte_of 45) = false ∧ beqb b (byte_of 43) = false) as [H1 H2].
    { split; apply beqb_ne; intros ->; done. }
    rewrite H1, H2, Ed in Ha. cbn [mbind option_bind] in Ha. case_match; by simplify_eq.
  - unfold lacks. rewrite E. rewrite Forall_forall in Hd. intros Hin. by destruct (Hd _ Hin).
Qed.

Lemma ParseIP_canonical_aux s a : ParseIP s = Ok a → canonical (addr_String a) a.
Proof.
  unfold ParseIP. case_bool_decide; [done|].
  assert (Plain : ∀ t ip, net_ParseIP t = Some ip → canonical (addr_String (mkIPAddr (Some ip) None)) (mkIPAddr (Some ip) None)).
  { intros t ip Hip%net_ParseIP_ok. split; [done|]. split; [apply IP_String_bytes; by auto|]. eexists. split; [by apply ParseIP_plain|done]. }
  destruct (ParsePrefix s) as [p|] eqn:EP.
  - destruct (IsSingleIP p) eqn:ES.
    { destruct (net_ParseIP _) as [ip|] eqn:E; [|done]. intros [= <-]. eauto. }
    destruct (net_ParseCIDR s) as [[ip net]|] eqn:EC; [|done]. intros [= <-].
    unfold net_ParseCIDR in EC. destruct (Cut s slash) as [[t u] f] eqn:ECut. destruct f; [|done]. cbn [negb] in EC.
    destruct (ParseAddr t) as [ad|] eqn:EA; [|done]. cbn [mbind option_bind] in EC. case_bool_decide as Hz; [done|].
    destruct (dtoi u) as [n|] eqn:ED; [|done]. cbn [mbind option_bind] in EC. destruct (_ || _)%Z eqn:ER; [done|].
    injection EC as <- <-. apply Cut_found in ECut as [-> Ht].
    assert (Hu : lacks slash u).
    { unfold lacks, dtoi in *. destruct (to_bytes u) as [|b l]; [done|]. destruct (Accounts.digits 0 (b :: l)) eqn:Ed; [|done].
      apply digits_all in Ed. rewrite Forall_forall in Ed. intros Hin. by destruct (Ed _ Hin). }
    unfold ParsePrefix in EP. rewrite LastIndex_app in EP by done. cbn [mbind option_bind] in EP.
    destruct (slice_app t u slash) as [Et Eu]. rewrite Et, Eu in EP. rewrite EA in EP. cbn [mbind option_bind] in EP.
    case_bool_decide; [done|]. destruct (parse_bits u) as [v|] eqn:EB; [|done]. cbn [mbind option_bind] in EP.
    destruct (parse_bits_dtoi u v n EB ED) as [-> _]. rewrite ER in EP. injection EP as <-.
    unfold IsSingleIP in ES. cbn [prefix_bits prefix_addr] in ES.
    eapply canonical_cidr; [exact EA|by destruct (decide (Zone ad = ""))|lia].
  - destruct (net_ParseIP s) as [ip|] eqn:E; [|done]. intros [= <-]. eauto.
Qed.

(** ** What the sets contain *)

(** The key a text stands for. *)
Definition key_of (s : string) : option string :=
  match ParseIP s with Ok a => Some (addr_String a) | Err _ => None end.

Definition listed (l : list string) (k : string) : Prop := ∃ s, s ∈ l ∧ key_of s = Some k.

Lemma listed_cons s l k : listed (s :: l) k ↔ key_of s = Some k ∨ listed l k.
Proof. unfold listed. set_solver. Qed.

Lemma new_map_lookup l ignore res k :
  is_Some (new_map l ignore res !! k) ↔ is_Some (res !! k) ∨ (listed l k ∧ ignore !! k = None).
Proof.
  revert res. induction l as [|s l IH]; intros res; cbn [new_map].
  { unfold listed. set_solver. }
  rewrite listed_cons. unfold key_of at 1. destruct (ParseIP s) as [a|e].
  - case_bool_decide as Hi; rewrite IH.
    + assert (addr_String a = k → ignore !! k ≠ None) by (intros <-; by apply not_eq_None_Some). naive_solver.
    + rewrite <-eq_None_not_Some in Hi. destruct (decide (addr_String a = k)) as [<-|Hne].
      * rewrite lookup_insert_eq. split; [|by left]. intros _. right. split; [by left|done].
      * rewrite lookup_insert_ne by done. assert (Some (addr_String a) ≠ Some k) by congruence. naive_solver.
  - rewrite IH. naive_solver.
Qed.

Lemma new_map_wf l ignore res : map_wf res → map_wf (new_map l ignore res).
Proof.
  revert res. induction l as [|s l IH]; intros res Hr; cbn [new_map]; [done|].
  destruct (ParseIP s) as [a|e] eqn:E; [|by apply IH]. case_bool_decide; [by apply IH|]. apply IH.
  apply map_Forall_insert_2; [by eapply ParseIP_canonical_aux|done].
Qed.

Lemma RemoveAddresses_lookup l m k a :
  RemoveAddresses l m !! k = Some a ↔ m !! k = Some a ∧ ¬ listed l k.
Proof.
  revert m. induction l as [|s l IH]; intros m; cbn [RemoveAddresses].
  { unfold listed. set_solver. }
  rewrite listed_cons. unfold key_of at 1. destruct (ParseIP s) as [b|e]; rewrite IH; [|naive_solver].
  rewrite lookup_delete_Some. naive_solver.
Qed.

Lemma RemoveIPAddrs_lookup l m k a :
  RemoveIPAddrs l m !! k = Some a ↔ m !! k = Some a ∧ k ∉ addr_String <$> l.
Proof.
  revert m. induction l as [|b l IH]; intros m; cbn; [set_solver|].
  unfold RemoveIPAddrs in IH. rewrite IH, lookup_delete_Some. set_solver.
Qed.

Lemma MergeIPAddressMap_two m n : MergeIPAddressMap [m; n] = n ∪ m.
Proof. unfold MergeIPAddressMap. cbn. by rewrite (right_id ∅ (∪)). Qed.

Definition part (o : option IPAddressMap) : IPAddressMap := match o with Some m => m | None => ∅ end.

Lemma MergedMap_parts c : MergedMap c = part (Extra_IPAliases c) ∪ (part (TargetInstanceIPs c) ∪ part (ForwardedIPs c)).
Proof.
  destruct c as [[f|] [t|] [i|]]; unfold MergedMap; cbn [ForwardedIPs TargetInstanceIPs Extra_IPAliases part];
    by rewrite ?MergeIPAddressMap_two, ?(right_id ∅ (∪)), ?(left_id ∅ (∪)).
Qed.

Lemma map_wf_union m n : map_wf m → map_wf n → map_wf (m ∪ n).
Proof. apply map_Forall_union_2. Qed.

Lemma NewIPAddressMap_facts l ignore :
  map_wf (NewIPAddressMap l ignore) ∧
  ∀ k, is_Some (NewIPAddressMap l ignore !! k) ↔ listed l k ∧ ignore !! k = None.
Proof.
  split; [apply new_map_wf, map_Forall_empty|]. intros k. unfold NewIPAddressMap. rewrite new_map_lookup, lookup_empty.
  split; [|by right]. intros [[? [=]]|?]; done.
Qed.

Lemma is_Some_union {V} (m n : gmap string V) k : is_Some ((m ∪ n) !! k) ↔ is_Some (m !! k) ∨ is_Some (n !! k).
Proof. rewrite lookup_union. destruct (m !! k), (n !! k); cbn; split; (done || eauto); intros [[]|[]]; done. Qed.

Lemma NewExtraAddresses_wf nic config ignore : map_wf (MergedMap (NewExtraAddresses nic config ignore)).
Proof.
  rewrite MergedMap_parts. unfold NewExtraAddresses. destruct (cfg_IPForwarding config); cbn [negb].
  - cbn [Extra_IPAliases TargetInstanceIPs ForwardedIPs].
    repeat apply map_wf_union; [destruct (cfg_IPAliases config)|destruct (cfg_TargetInstanceIPs config)|]; cbn [part];
      first [apply NewIPAddressMap_facts|apply map_Forall_empty].
  - repeat apply map_wf_union; apply map_Forall_empty.
Qed.

(** ** Theorems *)

(** The printed form of a parsed address is canonical: it parses to an
    address that prints the same way.  So two texts of the same address or
    network (upper and lower case, with and without the zeros of an IPv6
    address, a host inside a network, a prefix of a single address, an IPv4
    address written as IPv6) are one key, in every set of addresses. *)
Theorem ParseIP_canonical (s : string) (a : IPAddr) :
  ParseIP s = Ok a → ∃ b, ParseIP (addr_String a) = Ok b ∧ addr_String b = addr_String a.
Proof. intros (_ & _ & H)%ParseIP_canonical_aux. exact H. Qed.

Lemma ParseIP_canonical_witness :
  (∃ a, ParseIP "::FFFF:10.1.2.3/112" = Ok a ∧ addr_String a = "10.1.0.0/16" ∧
   ∃ b, ParseIP (addr_String a) = Ok b ∧ addr_String b = addr_String a) ∧
  addr_String <$> (match ParseIP "2001:DB8:0:0:0::1/128" with Ok a => Some a | _ => None end) = Some "2001:db8::1".
Proof.
  split; [|reflexivity]. eexists. split; [reflexivity|]. split; [reflexivity|].
  apply (ParseIP_canonical "::FFFF:10.1.2.3/112"). reflexivity.
Defined.

(** The addresses a NIC wants, for every configuration: none when
    forwarding is off; otherwise exactly those the metadata lists as forwarded
    (both families) and, when configured, as target instances, except the
    ignored ones, and, when configured, the aliases, ignored or not.  Texts that
    do not parse are skipped; every entry is filed under its canonical form. *)
Theorem NewExtraAddresses_wanted (nic : networkInterface) (config : Sections) (ignore : IPAddressMap) :
  let m := MergedMap (NewExtraAddresses nic config ignore) in
  map_wf m ∧
  ∀ k, is_Some (m !! k) ↔
    cfg_IPForwarding config = true ∧
    (ignore !! k = None ∧
       (listed (items (ForwardedIps nic) ++ items (ForwardedIpv6s nic)) k ∨
        (cfg_TargetInstanceIPs config = true ∧ listed (items (TargetInstanceIps nic)) k)) ∨
     (cfg_IPAliases config = true ∧ listed (items (IPAliases nic)) k)).
Proof.
  intros m. split; [apply NewExtraAddresses_wf|]. unfold m. rewrite MergedMap_parts. unfold NewExtraAddresses.
  destruct (cfg_IPForwarding config); cbn [negb];
    [|change (part _) with (∅ : IPAddressMap); change (part _) with (∅ : IPAddressMap); change (part _) with (∅ : IPAddressMap);
      intros k; rewrite !(left_id ∅ (∪)), lookup_empty; split; [by intros []|by intros []]].
  cbn [Extra_IPAliases TargetInstanceIPs ForwardedIPs].
  intros k. rewrite !is_Some_union. pose proof (λ l i, proj2 (NewIPAddressMap_facts l i) k) as HN.
  assert (Hempty : ¬ is_Some ((∅ : IPAddressMap) !! k)) by (rewrite lookup_empty; by intros []).
  destruct (cfg_IPAliases config), (cfg_TargetInstanceIPs config); cbn [part]; rewrite !HN, ?lookup_empty; naive_solver.
Qed.

(** What the agent files under an address it can also take out: removing
    texts removes exactly the entries one of the texts stands for, however it
    is spelled, and keeps the rest. *)
Theorem RemoveAddresses_exact (l : list string) (m : IPAddressMap) (k : string) (a : IPAddr) :
  RemoveAddresses l m !! k = Some a ↔ m !! k = Some a ∧ ¬ ∃ s b, s ∈ l ∧ ParseIP s = Ok b ∧ addr_String b = k.
Proof.
  rewrite RemoveAddresses_lookup. apply and_iff_compat_l, not_iff_compat. unfold listed, key_of. split.
  - intros (s & Hs & E). exists s. destruct (ParseIP s) as [b|]; [|done]. exists b. naive_solver.
  - intros (s & b & Hs & E & <-). exists s. by rewrite E.
Qed.

(** ** Slices *)
Lemma sort_addrs_values (m : IPAddressMap) l :
  map_wf m → l ≡ₚ (map_to_list m).*2 → sort_addrs l = sort_addrs (map_to_list m).*2.
Proof.
  intros Hm Hl. apply (StronglySorted_unique_strong addr_le).
  - intros x y Hx Hy Hxy Hyx. rewrite sort_addrs_perm in Hx, Hy. rewrite Hl in Hx.
    apply list_elem_of_fmap in Hx as ([k x'] & -> & Hx), Hy as ([k' y'] & -> & Hy). cbn in *.
    apply elem_of_map_to_list in Hx, Hy. destruct (Hm _ _ Hx) as [Ex _], (Hm _ _ Hy) as [Ey _].
    assert (addr_String x' = addr_String y') as E by (by apply string_le_antisymm). congruence.
  - apply sort_addrs_sorted.
  - apply sort_addrs_sorted.
  - by rewrite !sort_addrs_perm.
Qed.

(** The order of the range over the map cannot be seen in the slice: it is
    sorted by key, has each entry once and nothing else. *)
Theorem MergedSlice_sorted (c : ExtraAddresses) (order : list IPAddr) :
  map_wf (MergedMap c) → order ≡ₚ (map_to_list (MergedMap c)).*2 →
  sort_addrs order = MergedSlice c ∧ StronglySorted addr_le (MergedSlice c) ∧
  (∀ a, a ∈ MergedSlice c ↔ MergedMap c !! addr_String a = Some a).
Proof.
  intros Hm Ho. split; [by apply sort_addrs_values|]. split.
  - apply sort_addrs_sorted.
  - intros a. unfold MergedSlice. rewrite sort_addrs_perm, list_elem_of_fmap. split.
    + intros ([k x] & -> & Hx%elem_of_map_to_list). cbn. by destruct (Hm _ _ Hx) as [-> _].
    + intros Ha. exists (addr_String a, a). split; [done|]. by apply elem_of_map_to_list.
Qed.
End Address.
