(* ===== verification/Nic.v ===== *)
(** * Network interfaces and their configurations

    internal/network/ethernet (interfaces, VLAN interfaces), internal/network/nic
    (the configuration of each NIC of the metadata) and internal/network/service
    (the options handed to a network manager), with the network part of the
    descriptor of internal/metadata.  The interfaces of the system are a
    parameter, read anew at each call; so is the order of a range over a map. *)
From stdpp Require Import pretty.
From S2P Require Import Prelude GoStrings GoStringFacts Lru Os Accounts OsInfo NetAddr NetAddrFacts Address.

Module Nic.
Import NetAddr Address.

(** ** internal/metadata *)
Record vlanInterface := mkVlan {
  vlan_Mac : string;
  ParentInterface : string;
  Vlan : Z;
  vlan_MTU : Z;
  vlan_IP : string;
  vlan_IPv6 : slice;
  vlan_Gateway : string;
  vlan_GatewayIPv6 : string;
}.

#[global] Instance vlanInterface_eq_dec : EqDecision vlanInterface.
Proof. solve_decision. Defined.
#[global] Instance networkInterface_eq_dec : EqDecision networkInterface.
Proof. solve_decision. Defined.

(** The fields of an [instance] as decoded, and those of an [Instance]. *)
Record instance := mkInstance {
  i_NetworkInterfaces : list networkInterface;
  i_VlanNetworkInterfaces : gmap Z (gmap Z vlanInterface);
}.

Record Instance_ := mkInstance_ {
  NetworkInterfaces : list networkInterface;
  VlanInterfaces : list (gmap Z vlanInterface);
}.

(** The slice of VLAN maps is filled by a range over the outer map, in the
    order [order] of its keys. *)
Definition newInstance (order : list Z) (i : instance) : Instance_ :=
  mkInstance_ (i_NetworkInterfaces i) (omap (λ k, i_VlanNetworkInterfaces i !! k) order).

(** ** internal/network/ethernet *)
Record Interface := mkInterface {
  Name : string;
  HardwareAddr : list Z;
  MTU : Z;
  DeviceIndex : Z;
}.

#[global] Instance Interface_eq_dec : EqDecision Interface.
Proof. solve_decision. Defined.

(** The errors [errors.As] tells apart. *)
Inductive iface_error :=
| AddrError (e : error)
| NotExistError (e : error)
| OtherError (e : error).

(** [net.Interfaces] at the [n]-th call. *)
Class NetInterfaces := net_interfaces : nat → result (list Interface).

(** A range over the VLANs of a NIC. *)
Class VlanOrder := {
  vlan_order : gmap Z vlanInterface → list (Z * vlanInterface);
  vlan_order_perm : ∀ m, vlan_order m ≡ₚ map_to_list m;
}.

Definition InterfaceByMAC (interfaces : result (list Interface)) (mac : string) : Interface + iface_error :=
  match ParseMAC mac with
  | None => inr (AddrError (ErrMsg ("failed to parse MAC " +:+ mac)))
  | Some hwaddr =>
      match interfaces with
      | Err e => inr (OtherError (ErrWrap "failed to get interfaces" (ErrWrap "failed to get interfaces" e)))
      | Ok interfaces =>
          match list_find (λ i, HardwareAddr_String (HardwareAddr i) = HardwareAddr_String hwaddr) interfaces with
          | Some (_, iface) => inl iface
          | None => inr (NotExistError (ErrMsg ("no interface found with MAC " +:+ mac)))
          end
      end
  end.

Record VlanInterface := mkVlanInterface {
  Parent : option Interface;
  vlan_MacAddr : string;
  VlanID : Z;
  VlanMTU : Z;
  IPAddress : option IPAddr;
  IPv6Addresses : list (option IPAddr);
  Gateway : option IPAddr;
  GatewayIPv6 : option IPAddr;
}.

(** A nil parent is dereferenced. *)
Definition InterfaceName (vic : VlanInterface) : option string :=
  parent ← Parent vic; Some ("gcp." +:+ Name parent +:+ "." +:+ pretty (VlanID vic)).

Definition is_empty_address (e : error) : bool :=
  errors_Is (λ e, match e with ErrMsg m => bool_decide (m = "empty address") | _ => false end) e.

(** An address that may be missing. *)
Definition optional_address (what ip : string) : result (option IPAddr) :=
  match ParseIP ip with
  | Ok a => Ok (Some a)
  | Err e => if is_empty_address e then Ok None
             else Err (ErrWrap ("failed to parse VLAN interface " +:+ what +:+ " " +:+ ip) e)
  end.

Fixpoint ipv6_addresses (ips : list string) : result (list (option IPAddr)) :=
  match ips with
  | [] => Ok []
  | ip :: ips =>
      match optional_address "IPv6 address" ip with
      | Err e => Err e
      | Ok a => match ipv6_addresses ips with Err e => Err e | Ok l => Ok (a :: l) end
      end
  end.

Definition NewVlanInterface (vlan : vlanInterface) (parent : option Interface) : result VlanInterface :=
  let mac := vlan_Mac vlan in
  match ParseMAC mac with
  | None => Err (ErrMsg ("failed to parse VLAN interface MAC " +:+ mac))
  | Some _ =>
      match optional_address "IP address" (vlan_IP vlan) with
      | Err e => Err e
      | Ok ipAddr =>
          match ipv6_addresses (items (vlan_IPv6 vlan)) with
          | Err e => Err e
          | Ok ipv6Address =>
              match optional_address "gateway" (vlan_Gateway vlan) with
              | Err e => Err e
              | Ok gateway =>
                  match optional_address "gateway IPv6" (vlan_GatewayIPv6 vlan) with
                  | Err e => Err e
                  | Ok gatewayIPv6 =>
                      Ok (mkVlanInterface parent mac (Vlan vlan) (vlan_MTU vlan) ipAddr ipv6Address gateway gatewayIPv6)
                  end
              end
          end
      end
  end.

(** The group [interface] of [(?P<prefix>.*network-interfaces)/(?P<interface>[0-9]+)/]:
    the greedy prefix goes to the last place of the first line that matches. *)
Fixpoint leading_digits (l : bytes) : bytes * bytes :=
  match l with
  | b :: rest =>
      match Accounts.digit b with
      | Some _ => let '(ds, r) := leading_digits rest in (b :: ds, r)
      | None => ([], l)
      end
  | [] => ([], [])
  end.

Definition interface_here (l : bytes) : option bytes :=
  let key := to_bytes "network-interfaces/" in
  if bprefix key l then
    match leading_digits (drop (length key) l) with
    | ([], _) => None
    | (ds, b :: _) => if beqb b slash then Some ds else None
    | (_, []) => None
    end
  else None.

Fixpoint last_interface (l : bytes) : option bytes :=
  match l with
  | [] => None
  | _ :: rest => match last_interface rest with Some ds => Some ds | None => interface_here l end
  end.

Fixpoint first_interface (lines : list bytes) : option bytes :=
  match lines with
  | [] => None
  | l :: lines => match last_interface l with Some ds => Some ds | None => first_interface lines end
  end.

Definition VlanParentInterface (parentInterface : string) : result Z :=
  match first_interface (bsplit nl (to_bytes parentInterface)) with
  | None => Err (ErrMsg ("invalid vlan's ParentInterface reference " +:+ parentInterface +:+ ", no interface index found"))
  | Some ifaceIndex =>
      match Accounts.Atoi (of_bytes ifaceIndex) with
      | None => Err (ErrMsg ("failed to parse parent index(" +:+ of_bytes ifaceIndex +:+ ")"))
      | Some index => Ok index
      end
  end.

(** ** internal/network/nic *)
Record Configuration := mkConfiguration {
  Index : Z;
  Invalid : bool;
  SupportsIPv6 : bool;
  MacAddr : string;
  Interface_ : option Interface;
  VlanInterfaces_ : list VlanInterface;
  ExtraAddresses_ : option ExtraAddresses;
}.

Definition set_Index (n : Z) (c : Configuration) : Configuration :=
  mkConfiguration n (Invalid c) (SupportsIPv6 c) (MacAddr c) (Interface_ c) (VlanInterfaces_ c) (ExtraAddresses_ c).
Definition add_vlan (v : VlanInterface) (c : Configuration) : Configuration :=
  mkConfiguration (Index c) (Invalid c) (SupportsIPv6 c) (MacAddr c) (Interface_ c) (VlanInterfaces_ c ++ [v]) (ExtraAddresses_ c).

(** The package's cache of bad MAC addresses, and the reads of the interfaces
    so far. *)
Record state := mkState {
  seenBadMacAddrs : Lru.Handle string bool;
  iface_reads : nat;
}.

Definition initial : state := mkState (Lru.New 64) 0.

(** [VlanNames]; [None] is a panic. *)
Definition VlanNames (c : Configuration) : option (list string) := mapM InterfaceName (VlanInterfaces_ c).

Section managing.
Context {S : Type} `{HasFS S} `{OsFaults} `{OsInfo.Uname}.

Definition isUbuntu1804 : M S bool :=
  info ← OsInfo.Read;
  mret (bool_decide (OsInfo.OS info = "ubuntu" ∧ OsInfo.VersionID info = "18.04")).

Definition ShouldManage (config : Sections) (c : Configuration) : M S bool :=
  old ← isUbuntu1804;
  mret (if old : bool then negb (Index c =? 0)%Z else negb (Index c =? 0)%Z || cfg_ManagePrimaryNIC config).
End managing.

Section configs.
Context `{NetInterfaces} `{VlanOrder}.

Definition Interfaces : M state (result (list Interface)) :=
  λ s, Some (mkState (seenBadMacAddrs s) (S (iface_reads s)), net_interfaces (iface_reads s)).

(** [seenBadMacAddrs.Get] and [Put]. *)
Definition seen_Get (mac : string) : M state (option bool) := λ s,
  let '(l, r) := Lru.Get mac (seenBadMacAddrs s) in Some (mkState l (iface_reads s), r).
Definition seen_Put (mac : string) : M state unit := λ s,
  match Lru.Put mac true (seenBadMacAddrs s) with
  | Some l => Some (mkState l (iface_reads s), tt)
  | None => None
  end.

Definition newConfig (nic : networkInterface) (config : Sections) (ignore : IPAddressMap) : M state (result Configuration) :=
  let extra := NewExtraAddresses nic config ignore in
  interfaces ← (match ParseMAC (Mac nic) with Some _ => Interfaces | None => mret (Ok []) end);
  let ipv6 := negb (bool_decide (DHCPv6Refresh nic = "")) in
  let bad :=
    cached ← seen_Get (Mac nic);
    match cached with
    | Some _ => mret (Ok (mkConfiguration 0 false ipv6 (Mac nic) None [] (Some extra)))
    | None =>
        _ ← seen_Put (Mac nic);
        mret (Ok (mkConfiguration 0 true ipv6 (Mac nic) None [] (Some extra)))
    end in
  match InterfaceByMAC interfaces (Mac nic) with
  | inl iface => mret (Ok (mkConfiguration 0 false ipv6 (Mac nic) (Some iface) [] (Some extra)))
  | inr (AddrError _) => bad
  | inr (NotExistError _) => bad
  | inr (OtherError e) => mret (Err (ErrWrap ("failed to get interface for NIC " +:+ Mac nic) e))
  end.

(** The loop over the NICs. *)
Fixpoint nic_configs (index : Z) (nics : list networkInterface) (config : Sections) (ignore : IPAddressMap)
    (res : list Configuration) : M state (result (list Configuration)) :=
  match nics with
  | [] => mret (Ok res)
  | nic :: nics =>
      data ← newConfig nic config ignore;
      match data with
      | Err err => mret (Err (ErrWrap ("failed to create NIC config for NIC(" +:+ pretty index +:+ ") " +:+ Mac nic) err))
      | Ok data => nic_configs (index + 1) nics config ignore (res ++ [set_Index (index mod 2 ^ 32) data])
      end
  end.

(** The loop over the VLANs. *)
Fixpoint vlan_configs (vics : list (Z * vlanInterface)) (res : list Configuration) : result (list Configuration) :=
  match vics with
  | [] => Ok res
  | (_, vic) :: vics =>
      let msg := "failed to create VLAN config for VLAN (" +:+ pretty (Vlan vic) +:+ ") " +:+ vlan_Mac vic in
      match VlanParentInterface (ParentInterface vic) with
      | Err err => Err (ErrWrap msg err)
      | Ok parent =>
          if ((parent <? 0) || (Z.of_nat (length res) <=? parent))%Z then
            Err (ErrMsg ("VLAN interface's parent NIC (" +:+ pretty parent +:+ ") is out of bounds"))
          else
            match res !! Z.to_nat parent with
            | None => Err (ErrMsg "unreachable")
            | Some parentConfig =>
                match NewVlanInterface vic (Interface_ parentConfig) with
                | Err err => Err (ErrWrap msg err)
                | Ok data => vlan_configs vics (<[Z.to_nat parent := add_vlan data parentConfig]> res)
                end
            end
      end
  end.

Definition NewConfigs (desc : Instance_) (config : Sections) (ignore : IPAddressMap) : M state (result (list Configuration)) :=
  res ← nic_configs 0 (NetworkInterfaces desc) config ignore [];
  match res with
  | Err e => mret (Err e)
  | Ok res =>
      if cfg_VlanSetupEnabled config
      then mret (vlan_configs (VlanInterfaces desc ≫= vlan_order) res)
      else mret (Ok res)
  end.

End configs.

(** ** internal/network/service *)
Definition FilteredNICConfigs (nicConfigs : list Configuration) : list Configuration :=
  filter (λ nic, Invalid nic = false) nicConfigs.

(** The primary NIC comes with an error when it cannot be used. *)
Fixpoint GetPrimaryNIC (nicConfigs : list Configuration) : option Configuration * option error :=
  match nicConfigs with
  | [] => (None, Some (ErrMsg "no primary NIC found in NIC configs"))
  | nic :: rest =>
      if (Index nic =? 0)%Z then
        if Invalid nic then (Some nic, Some (ErrMsg ("primary NIC " +:+ MacAddr nic +:+ " is invalid")))
        else match Interface_ nic with
             | None => (Some nic, Some (ErrMsg ("primary NIC " +:+ MacAddr nic +:+ " has no interface")))
             | Some _ => (Some nic, None)
             end
      else GetPrimaryNIC rest
  end.

(** [nic.Interface.Name()]: the interface is dereferenced. *)
Definition iface_name (nic : Configuration) : option string := Name <$> Interface_ nic.

Example parent_ex : VlanParentInterface "/computeMetadata/v1/instance/network-interfaces/12/" = Ok 12%Z.
Proof. reflexivity. Qed.

(** ** The cache of bad addresses *)

(** The entries of the cache, the most recently used first. *)
Definition seen_is (xs : Lru.entries string bool) (s : state) : Prop :=
  ∃ ts, Lru.slots 64 (seenBadMacAddrs s) ts ∧ snd <$> ts = xs.

Definition seen_ok (s : state) : Prop := ∃ xs, seen_is xs s.

Lemma initial_seen : seen_is [] initial.
Proof.
  exists []. split; [|done]. split; cbn; try done; [|constructor|constructor|lia].
  intros k node. rewrite lookup_empty. set_solver.
Qed.

Lemma wp_seen_Get mac xs s :
  seen_is xs s → wp (seen_Get mac) (λ r s', r = Lru.entry mac xs ∧ seen_is (Lru.spec_call 64 xs (Lru.CallGet mac)).1 s') s.
Proof.
  intros (ts & Hs & <-). destruct (Lru.run_call_slots 64 _ ts (Lru.CallGet mac) ltac:(lia) Hs) as (l' & ts' & E & Hs' & Hx).
  unfold wp, seen_Get. cbn [Lru.run_call] in E. destruct (Lru.Get mac (seenBadMacAddrs s)) as [l r]. injection E as -> Er.
  split; [|exists ts'; by split]. revert Er. cbn. destruct (Lru.entry _ _); cbn; congruence.
Qed.

Lemma wp_seen_Put mac xs s :
  seen_is xs s → wp (seen_Put mac) (λ _ s', seen_is (take 64 ((mac, true) :: Lru.others mac xs)) s') s.
Proof.
  intros (ts & Hs & <-). destruct (Lru.run_call_slots 64 _ ts (Lru.CallPut mac true) ltac:(lia) Hs) as (l' & ts' & E & Hs' & Hx).
  unfold wp, seen_Put. cbn [Lru.run_call] in E. destruct (Lru.Put mac true (seenBadMacAddrs s)) as [l|]; [|done].
  injection E as ->. exists ts'. by split.
Qed.

(** ** Theorems *)
Section theorems.
Context `{NetInterfaces} `{VlanOrder}.

(** What a configuration says of its NIC. *)
Record describes (nic : networkInterface) (config : Sections) (ignore : IPAddressMap) (c : Configuration) : Prop := {
  d_mac : MacAddr c = Mac nic;
  d_ipv6 : SupportsIPv6 c = negb (bool_decide (DHCPv6Refresh nic = ""));
  d_extra : ExtraAddresses_ c = Some (NewExtraAddresses nic config ignore);
  d_invalid : Invalid c = true → Interface_ c = None;
  d_iface : ∀ iface, Interface_ c = Some iface →
    ∃ a, ParseMAC (Mac nic) = Some a ∧ HardwareAddr_String (HardwareAddr iface) = HardwareAddr_String a;
}.

Lemma InterfaceByMAC_found ifs mac iface :
  InterfaceByMAC ifs mac = inl iface →
  ∃ a, ParseMAC mac = Some a ∧ HardwareAddr_String (HardwareAddr iface) = HardwareAddr_String a.
Proof.
  unfold InterfaceByMAC. destruct (ParseMAC mac) as [a|]; [|done]. destruct ifs as [l|]; [|done].
  destruct (list_find _ l) as [[i x]|] eqn:E; [|done]. intros [= <-]. apply list_find_Some in E as (_ & Hx & _). eauto.
Qed.

(** What [newConfig] returns, and leaves in the cache: an address without
    interface is at the front of the cache, and marks the NIC when it was not
    there before. *)
Definition new_config_post (nic : networkInterface) (config : Sections) (ignore : IPAddressMap)
    (xs : Lru.entries string bool) (r : result Configuration) (s' : state) : Prop :=
  seen_ok s' ∧
  match r with
  | Ok c =>
      describes nic config ignore c ∧ VlanInterfaces_ c = [] ∧
      (Interface_ c = None →
         Invalid c = bool_decide (Lru.entry (Mac nic) xs = None) ∧ ∃ ys b, seen_is ((Mac nic, b) :: ys) s')
  | Err _ => True
  end.

Lemma wp_newConfig nic config ignore xs s :
  seen_is xs s → wp (newConfig nic config ignore) (new_config_post nic config ignore xs) s.
Proof.
  intros Hs. unfold newConfig. wp_step.
  assert (wp (match ParseMAC (Mac nic) with Some _ => Interfaces | None => mret (Ok []) end) (λ _ s', seen_is xs s') s) as Hif.
  { destruct (ParseMAC (Mac nic)); [|exact Hs]. destruct Hs as (ts & Hs & Hx). exists ts. by split. }
  eapply wp_mono; [exact Hif|]. clear s Hs Hif. intros ifs s Hs. cbn beta.
  set (bad := mbind _ (seen_Get (Mac nic))).
  assert (Hbad : wp bad (new_config_post nic config ignore xs) s).
  { unfold bad. wp_step. eapply wp_mono; [apply (wp_seen_Get _ xs), Hs|]. intros r s' [-> Hs'].
    change (Lru.spec_call 64 xs (Lru.CallGet (Mac nic))) with
      (match Lru.entry (Mac nic) xs with
       | Some v => ((Mac nic, v) :: Lru.others (Mac nic) xs, Lru.Found (Some v))
       | None => (xs, Lru.Found None) end) in Hs'.
    destruct (Lru.entry (Mac nic) xs) as [b|] eqn:E; cbn [fst] in Hs'.
    - split; [eexists; exact Hs'|]. split; [by split|]. split; [done|]. intros _. rewrite E. by split; [|eauto].
    - wp_step. eapply wp_mono; [eapply wp_seen_Put, Hs'|]. intros [] s'' Hs''. split; [eexists; exact Hs''|].
      split; [by split|]. split; [done|]. intros _. rewrite E. by split; [|eauto]. }
  destruct (InterfaceByMAC ifs (Mac nic)) as [iface|[e|e|e]] eqn:E; try exact Hbad; wp_step.
  - split; [eexists; exact Hs|]. split; [|done]. split; try done. cbn. intros ? [= <-]. by eapply InterfaceByMAC_found.
  - split; [eexists; exact Hs|done].
Qed.

(** A NIC whose address is not one is marked invalid only the first time: the
    second configuration keeps it among the NICs to manage, without an
    interface, and its name is a nil dereference. *)
Theorem bad_mac_accepted_later (nic : networkInterface) (config : Sections) (ignore : IPAddressMap)
    (s s1 : state) (c1 : Configuration) :
  seen_ok s → ParseMAC (Mac nic) = None → newConfig nic config ignore s = Some (s1, Ok c1) →
  ∃ s2 c2, newConfig nic config ignore s1 = Some (s2, Ok c2) ∧
    FilteredNICConfigs [c2] = [c2] ∧ iface_name c2 = None.
Proof.
  intros [xs Hs] Hm E. pose proof (wp_newConfig nic config ignore xs s Hs) as Hw. unfold wp in Hw. rewrite E in Hw.
  destruct Hw as (_ & Hd & _ & Hn).
  assert (None_of : ∀ c, describes nic config ignore c → Interface_ c = None).
  { intros c Hc. destruct (Interface_ c) as [i|] eqn:Ei; [|done]. destruct (d_iface _ _ _ _ Hc i Ei) as (a & ? & _). congruence. }
  destruct (Hn (None_of _ Hd)) as (_ & ys & b & Hs1).
  pose proof (wp_newConfig nic config ignore _ s1 Hs1) as Hw. unfold wp in Hw.
  destruct (newConfig nic config ignore s1) as [[s2 [c2|e]]|] eqn:E2; [|exfalso|done].
  - destruct Hw as (_ & Hd2 & _ & Hn2). exists s2, c2. split; [done|].
    assert (Lru.entry (Mac nic) ((Mac nic, b) :: ys) = Some b) as Hentry by (unfold Lru.entry; cbn; by rewrite lookup_insert_eq).
    destruct (Hn2 (None_of _ Hd2)) as [Hi _]. rewrite Hentry in Hi.
    split; [|unfold iface_name; by rewrite (None_of _ Hd2)].
    unfold FilteredNICConfigs. rewrite filter_cons_True; [done|]. by rewrite Hi.
  - revert E2. unfold newConfig. rewrite Hm. unfold InterfaceByMAC. rewrite Hm. unfold mbind, M_bind, seen_Get. cbn.
    destruct (Lru.Get _ _) as [l [v|]]; [by intros [=]|]. unfold seen_Put. cbn. destruct (Lru.Put _ _ _); by intros [=].
Qed.

(** The VLAN interface a descriptor's VLAN gives to the NIC at [i]. *)
Definition vlan_for (i : nat) (iface : option Interface) (vic : vlanInterface) : option VlanInterface :=
  match VlanParentInterface (ParentInterface vic), NewVlanInterface vic iface with
  | Ok parent, Ok data => if bool_decide (parent = Z.of_nat i) then Some data else None
  | _, _ => None
  end.

Definition with_vlans (vs : list VlanInterface) (c : Configuration) : Configuration :=
  mkConfiguration (Index c) (Invalid c) (SupportsIPv6 c) (MacAddr c) (Interface_ c) (VlanInterfaces_ c ++ vs) (ExtraAddresses_ c).

Lemma with_vlans_nil c : with_vlans [] c = c.
Proof. unfold with_vlans. rewrite app_nil_r. by destruct c. Qed.

Lemma vlan_configs_length vics res res' : vlan_configs vics res = Ok res' → length res' = length res.
Proof.
  revert res. induction vics as [|[k vic] vics IH]; intros res; cbn [vlan_configs]; [by intros [= <-]|].
  repeat (case_match; try done). intros E%IH. by rewrite E, length_insert.
Qed.

Lemma vlan_configs_spec vics res res' :
  vlan_configs vics res = Ok res' →
  ∀ i, res' !! i = (λ c, with_vlans (omap (vlan_for i (Interface_ c)) (snd <$> vics)) c) <$> res !! i.
Proof.
  revert res. induction vics as [|[k vic] vics IH]; intros res; cbn [vlan_configs fmap list_fmap].
  { intros [= <-] i. destruct (res !! i) as [c|]; [|done]. cbn. by rewrite with_vlans_nil. }
  destruct (VlanParentInterface (ParentInterface vic)) as [p|e] eqn:EP; [|done].
  destruct (_ || _)%Z eqn:Erange; [done|]. destruct (res !! Z.to_nat p) as [pc|] eqn:Epc; [|done].
  destruct (NewVlanInterface vic (Interface_ pc)) as [data|e] eqn:ED; [|done].
  intros Hres i. rewrite (IH _ Hres). apply orb_false_iff in Erange as [Hp _]. apply Z.ltb_ge in Hp.
  destruct (decide (Z.to_nat p = i)) as [<-|Hne].
  - rewrite list_lookup_insert by (by eapply lookup_lt_Some). rewrite decide_True by (split; [done|by eapply lookup_lt_Some]).
    rewrite Epc. cbn. unfold vlan_for at 2. rewrite EP, ED, bool_decide_true by lia.
    unfold with_vlans, add_vlan. cbn. by rewrite <-(assoc (++)).
  - rewrite list_lookup_insert_ne by done. destruct (res !! i) as [c|]; [|done]. cbn. do 2 f_equal.
    unfold vlan_for at 2. rewrite EP. destruct (NewVlanInterface vic (Interface_ c)); [|done].
    by rewrite bool_decide_false by lia.
Qed.

Lemma wp_nic_configs nics config ignore :
  ∀ k res s, seen_ok s →
  wp (nic_configs k nics config ignore res)
    (λ r s', seen_ok s' ∧ match r with
       | Ok l => ∃ cs, l = res ++ cs ∧ Forall2 (λ nic c, describes nic config ignore c ∧ VlanInterfaces_ c = []) nics cs ∧
                       ∀ i c, cs !! i = Some c → Index c = ((k + Z.of_nat i) mod 2 ^ 32)%Z
       | Err _ => True end) s.
Proof.
  induction nics as [|nic nics IH]; intros k res s Hs; cbn [nic_configs].
  { wp_step. split; [done|]. exists []. by rewrite app_nil_r. }
  wp_step. destruct Hs as [xs Hs]. eapply wp_mono; [by eapply wp_newConfig|].
  intros [c|e] s' [Hs' Hc]; cbn [mbind]; [|by wp_step].
  destruct Hc as (Hd & Hv & _). eapply wp_mono; [by apply IH|].
  intros [l|e] s'' [Hs'' Hl]; [|done]. split; [done|]. destruct Hl as (cs & -> & HF & Hi).
  exists (set_Index (k mod 2 ^ 32) c :: cs). split; [by rewrite <-(assoc (++))|]. split.
  - constructor; [|done]. split; [by destruct Hd; split|done].
  - intros [|i] c' E; cbn in E.
    + injection E as <-. by rewrite Z.add_0_r.
    + rewrite (Hi _ _ E). f_equal. lia.
Qed.

Definition all_vlans (desc : Instance_) : list vlanInterface := VlanInterfaces desc ≫= λ m, snd <$> map_to_list m.

Lemma vlan_order_all desc : snd <$> (VlanInterfaces desc ≫= vlan_order) ≡ₚ all_vlans desc.
Proof.
  unfold all_vlans. induction (VlanInterfaces desc) as [|m ms IH]; cbn; [done|].
  rewrite fmap_app, IH. apply Permutation_app; [|done]. by rewrite vlan_order_perm.
Qed.

(** The extra addresses, of any successful build. *)
Definition extra_ok (config : Sections) (ignore : IPAddressMap) (c : Configuration) : Prop :=
  ∃ nic, ExtraAddresses_ c = Some (NewExtraAddresses nic config ignore).

Lemma newConfig_extra nic config ignore s s' c :
  newConfig nic config ignore s = Some (s', Ok c) → extra_ok config ignore c.
Proof.
  unfold newConfig, mbind, M_bind, seen_Get, seen_Put, mret, M_ret. intros E. exists nic.
  repeat case_match; simplify_eq; done.
Qed.

Lemma nic_configs_extra nics config ignore k res s s' l :
  Forall (extra_ok config ignore) res → nic_configs k nics config ignore res s = Some (s', Ok l) → Forall (extra_ok config ignore) l.
Proof.
  revert k res s. induction nics as [|nic nics IH]; intros k res s Hres; cbn [nic_configs].
  { by intros [= _ <-]. }
  unfold mbind at 1, M_bind at 1. destruct (newConfig nic config ignore s) as [[s1 [c|e]]|] eqn:E; [|done..].
  apply IH, Forall_app. split; [done|]. constructor; [|done]. destruct (newConfig_extra _ _ _ _ _ _ E) as [n Hn]. by exists n.
Qed.

Lemma NewConfigs_extra desc config ignore s s' l :
  NewConfigs desc config ignore s = Some (s', Ok l) → Forall (extra_ok config ignore) l.
Proof.
  unfold NewConfigs, mbind, M_bind. destruct (nic_configs _ _ _ _ _ s) as [[s1 [cs|e]]|] eqn:E; [|done..].
  apply nic_configs_extra in E; [|constructor]. destruct (cfg_VlanSetupEnabled config); intros [= _ Hl]; [|by subst].
  apply Forall_lookup. intros i c Hc. rewrite (vlan_configs_spec _ _ _ Hl) in Hc.
  destruct (cs !! i) as [c0|] eqn:E0; [|done]. injection Hc as <-. destruct (proj1 (Forall_lookup _ _) E _ _ E0) as [n Hn].
  by exists n.
Qed.

(** Building the configurations never panics (the cache of bad addresses
    keeps its invariant), and a successful build has one configuration per NIC
    of the metadata, in order: its index, its addresses, the interface of its
    MAC address if the system has one (an invalid NIC has none), and the VLANs
    whose parent reference names it, each once. *)
Theorem NewConfigs_describe (desc : Instance_) (config : Sections) (ignore : IPAddressMap) (s : state) :
  seen_ok s → (Z.of_nat (length (NetworkInterfaces desc)) < 2 ^ 32)%Z →
  wp (NewConfigs desc config ignore)
    (λ r s', seen_ok s' ∧ match r with
       | Ok res =>
           length res = length (NetworkInterfaces desc) ∧
           ∀ i nic, NetworkInterfaces desc !! i = Some nic →
             ∃ c, res !! i = Some c ∧ Index c = Z.of_nat i ∧ describes nic config ignore c ∧
               VlanInterfaces_ c ≡ₚ
                 if cfg_VlanSetupEnabled config then omap (vlan_for i (Interface_ c)) (all_vlans desc) else []
       | Err _ => True end) s.
Proof.
  intros Hs Hlen. unfold NewConfigs. wp_step. eapply wp_mono; [by apply (wp_nic_configs _ _ _ 0 [])|].
  intros [res|e] s' [Hs' Hres]; [|by wp_step]. destruct Hres as (cs & -> & HF & Hi). cbn [app].
  assert (Hone : ∀ i nic, NetworkInterfaces desc !! i = Some nic →
            ∃ c, cs !! i = Some c ∧ Index c = Z.of_nat i ∧ describes nic config ignore c ∧ VlanInterfaces_ c = []).
  { intros i nic Hn. destruct (Forall2_lookup_l _ _ _ _ _ HF Hn) as (c & Hc & Hd & Hv). exists c.
    split_and!; [done| |done|done]. rewrite (Hi _ _ Hc), Z.add_0_l, Z.mod_small; [done|].
    apply lookup_lt_Some in Hn. lia. }
  apply Forall2_length in HF. destruct (cfg_VlanSetupEnabled config); wp_step; (split; [done|]).
  - destruct (vlan_configs _ cs) as [res|e] eqn:E; [|done]. pose proof (vlan_configs_spec _ _ _ E) as Hl. split.
    + rewrite HF. by apply vlan_configs_length in E.
    + intros i nic Hn. destruct (Hone i nic Hn) as (c & Hc & Hx & Hd & Hv). eexists.
      rewrite Hl, Hc. split; [done|]. split; [done|]. split; [by destruct Hd; split|].
      cbn. rewrite Hv. cbn. by rewrite vlan_order_all.
  - split; [done|]. intros i nic Hn. destruct (Hone i nic Hn) as (c & Hc & Hx & Hd & Hv). exists c.
    by rewrite Hv.
Qed.

(** ** The options *)
Theorem GetPrimaryNIC_usable (nics : list Configuration) :
  match GetPrimaryNIC nics with
  | (Some c, None) => c ∈ nics ∧ Index c = 0%Z ∧ Invalid c = false ∧ is_Some (iface_name c)
  | (Some c, Some _) => c ∈ nics ∧ Index c = 0%Z ∧ (Invalid c = true ∨ iface_name c = None)
  | (None, Some _) => Forall (λ c, Index c ≠ 0%Z) nics
  | (None, None) => False
  end.
Proof.
  induction nics as [|c nics IH]; cbn; [done|]. unfold iface_name in *.
  destruct (Z.eqb_spec (Index c) 0) as [E|E].
  - destruct (Invalid c) eqn:Ei; [split_and!; [by left|done|by left]|].
    destruct (Interface_ c) as [i|] eqn:Ef; cbn; rewrite ?Ef; split_and!; first [done|by left|by eexists|by right].
  - destruct (GetPrimaryNIC nics) as [[c'|] [e|]]; [..|by constructor|done].
    + destruct IH as (Hin & Hx). split; [by right|done].
    + destruct IH as (Hin & Hx). split; [by right|done].
Qed.
End theorems.

Section examples.
Definition example_iface : Interface := mkInterface "ens4" [66; 1; 10; 0; 0; 2]%Z 1460 2.
#[local] Instance example_interfaces : NetInterfaces := λ _, Ok [example_iface].
#[local] Program Instance example_order : VlanOrder := {| vlan_order := map_to_list |}.
Next Obligation. done. Qed.

Definition example_nic (mac : string) : networkInterface :=
  mkNetworkInterface (Some ["10.0.0.5"]) None (Some ["10.0.0.9/32"]) (Some ["10.128.0.0/24"]) mac "".
Definition example_vlan : vlanInterface :=
  mkVlan "42:01:0a:00:00:03" "/computeMetadata/v1/instance/network-interfaces/0/" 5 1460 "10.1.0.2" (Some [""]) "" "".
Definition example_desc : Instance_ :=
  mkInstance_ [example_nic "42:01:0A:00:00:02"; example_nic "unknown"] [{[ 5%Z := example_vlan ]}].
Definition example_sections : Sections :=
  mkSections true true true "66" true false true true None false "".

Lemma NewConfigs_describe_witness :
  (∃ s' a b, NewConfigs example_desc example_sections ∅ initial = Some (s', Ok [a; b]) ∧
     VlanNames a = Some ["gcp.ens4.5"] ∧ Invalid b = true) ∧
  wp (NewConfigs example_desc example_sections ∅) (λ _ s', seen_ok s') initial.
Proof.
  split.
  - do 3 eexists. split; [vm_compute; reflexivity|]. split; vm_compute; reflexivity.
  - eapply wp_mono.
    + apply (NewConfigs_describe example_desc example_sections ∅ initial); [exists []; apply initial_seen|vm_compute; reflexivity].
    + intros r s' [H _]. exact H.
Defined.

Lemma bad_mac_accepted_later_witness :
  ∃ s1 c1 s2 c2,
    newConfig (example_nic "unknown") example_sections ∅ initial = Some (s1, Ok c1) ∧ Invalid c1 = true ∧
    newConfig (example_nic "unknown") example_sections ∅ s1 = Some (s2, Ok c2) ∧
    FilteredNICConfigs [c2] = [c2] ∧ iface_name c2 = None.
Proof.
  do 2 eexists.
  match goal with |- ∃ _ _, ?P ∧ ?Q ∧ _ => assert (P ∧ Q) as [E Hi] by (split; vm_compute; reflexivity) end.
  destruct (bad_mac_accepted_later (example_nic "unknown") example_sections ∅ initial _ _
              (ex_intro _ [] initial_seen) ltac:(reflexivity) E) as (s2 & c2 & H).
  exists s2, c2. split; [exact E|]. split; [exact Hi|exact H].
Defined.
End examples.
End Nic.
