(* ===== verification/Route.v ===== *)
(** * internal/network/route: the routes of the system

    route.go and route_linux.go: every operation is a command of iproute2, whose
    output is parsed.  Running a command is an operation of the state
    ([Runner]); RouteFacts.v says what the operations do on a system where [ip]
    behaves as documented. *)
From S2P Require Import Prelude GoStrings GoStringFacts Accounts NetAddr NetAddrFacts Address Nic.

Module Route.
Import NetAddr Address Nic.

(** [run.WithContext] on a state. *)
Class Runner (S : Type) := run_with : Accounts.command → M S Accounts.run_outcome.

Record Handle := mkHandle {
  Destination : option IPAddr;
  Gateway : option IPAddr;
  InterfaceIndex : Z;
  InterfaceName : string;
  Metric : Z;
  Type_ : string;
  Table : string;
  Persistent : bool;
  Proto : string;
  Source : option IPAddr;
  Scope : string;
}.

Record Options := mkOptions {
  o_Type : string;
  o_Table : string;
  o_Scope : string;
  o_Proto : string;
  o_Device : string;
}.

Definition MetadataRouteDestination : string := "169.254.169.254".
Definition MetadataRouteGateway : string := "0.0.0.0".

(** [args.add(key, value)] when the value is set. *)
Definition opt_args (key value : string) : list string :=
  if bool_decide (value = "") then [] else [key; value].

Definition newArgs : list string := ["route"].

Definition ip_command (args : list string) : Accounts.command := Accounts.mkCommand ("ip" :: args) "".

Definition add_args (table dest scope device proto : string) : list string :=
  newArgs ++ ["add"; "to"; table; dest] ++ opt_args "scope" scope ++ opt_args "dev" device ++ opt_args "proto" proto.

Definition delete_args (table dest device scope proto : string) : list string :=
  newArgs ++ ["delete"; "to"; table; dest; "dev"; device] ++ opt_args "scope" scope ++ opt_args "proto" proto.

Definition list_args (opts : Options) : list string :=
  newArgs ++ ["list"; "table"; o_Table opts] ++ opt_args "scope" (o_Scope opts) ++ opt_args "type" (o_Type opts) ++
  opt_args "proto" (o_Proto opts) ++ opt_args "dev" (o_Device opts).

(** [parseRouteEntry]: an entry is a destination, with or without its table,
    and pairs; a later pair of the same key wins. *)
Fixpoint entry_pairs (fields : list string) (res : gmap string string) : gmap string string :=
  match fields with
  | key :: value :: fields => entry_pairs fields (<[key := value]> res)
  | _ => res
  end.

Definition parseRouteEntry (data : string) (cmdOpts : Options) : result (gmap string string) :=
  if bool_decide (data = "") then Ok ∅
  else
    match Fields data with
    | f0 :: f1 :: rest =>
        let table := TrimSpace f0 in
        let '(res, fields) :=
          if bool_decide (table = o_Table cmdOpts)
          then (<["destination" := f1]> (<["table" := table]> ∅ : gmap string string), rest)
          else (<["destination" := f0]> (<["table" := o_Table cmdOpts]> ∅ : gmap string string), f1 :: rest) in
        if bool_decide (length fields mod 2 = 0) then Ok (entry_pairs fields res)
        else Err (ErrMsg "invalid number of fields in route entry")
    | _ => Err (ErrMsg "invalid number of fields in route entry")
    end.

(** The fields of one entry as a route. *)
Definition route_of (fields : gmap string string) (cmdOpts : Options) : result Handle :=
  let name := match fields !! "dev" with Some v => v | None => o_Device cmdOpts end in
  let parse what key :=
    match fields !! key with
    | None => Ok None
    | Some value =>
        match ParseIP value with
        | Ok a => Ok (Some a)
        | Err e => Err (ErrWrap ("failed to parse " +:+ what) e)
        end
    end in
  match parse "destination" "destination" with
  | Err e => Err e
  | Ok dest =>
      match parse "source" "src" with
      | Err e => Err e
      | Ok source =>
          Ok (mkHandle dest None 0 name 0 "" (default "" (fields !! "table")) false
                (default "" (fields !! "proto")) source (default "" (fields !! "scope")))
      end
  end.

Fixpoint parse_routes (lines : list string) (cmdOpts : Options) : result (list Handle) :=
  match lines with
  | [] => Ok []
  | line :: lines =>
      let line := TrimSpace line in
      if bool_decide (line = "") then parse_routes lines cmdOpts
      else
        match parseRouteEntry line cmdOpts with
        | Err e => Err (ErrWrap "failed to parse route entry" e)
        | Ok fields =>
            match route_of fields cmdOpts with
            | Err e => Err e
            | Ok entry => match parse_routes lines cmdOpts with Ok routes => Ok (entry :: routes) | Err e => Err e end
            end
        end
  end.

Section operations.
Context {S : Type} `{Runner S} (config : Sections).

Definition exit_error : error := ErrMsg "exit status".

(** The commands whose output does not matter. *)
Definition run_quiet (msg : string) (args : list string) : M S (option error) :=
  r ← run_with (ip_command args);
  mret (match r with
        | Accounts.RunOk _ => None
        | Accounts.RunExit _ => Some (ErrWrap msg exit_error)
        | Accounts.RunErr e => Some (ErrWrap msg e)
        end).

Definition Add (route : Handle) : M S (option error) :=
  if bool_decide (Table route = "") then mret (Some (ErrMsg "table is required"))
  else match Destination route with
       | None => mret (Some (ErrMsg "destination is required"))
       | Some dest =>
           run_quiet "failed to add route"
             (add_args (Table route) (addr_String dest) (Scope route) (InterfaceName route) (Proto route))
       end.

Definition Delete (route : Handle) : M S (option error) :=
  if bool_decide (Table route = "") then mret (Some (ErrMsg "table is required"))
  else match Destination route with
       | None => mret (Some (ErrMsg "destination is required"))
       | Some dest =>
           if bool_decide (InterfaceName route = "") then mret (Some (ErrMsg "interface name is unspecified"))
           else run_quiet "failed to delete route"
                  (delete_args (Table route) (addr_String dest) (InterfaceName route) (Scope route) (Proto route))
       end.

Definition Table_ : result (list Handle) := Err (ErrMsg "not implemented on Linux").

Definition listRoutes (cmdOpts : Options) (args : list string) : M S (result (list Handle)) :=
  r ← run_with (ip_command args);
  mret (match r with
        | Accounts.RunOk out => parse_routes (Split out nl) cmdOpts
        | Accounts.RunExit _ => Err exit_error
        | Accounts.RunErr e => Err e
        end).

Definition Find (opts : Options) : M S (result (list Handle)) :=
  if bool_decide (o_Table opts = "") then mret (Err (ErrMsg "table is required"))
  else
    r ← listRoutes opts (list_args opts);
    mret (match r with Ok res => Ok res | Err e => Err (ErrWrap "failed to list routes" e) end).

(** [String] of a nil destination is a panic. *)
Definition destinations (routes : list Handle) : option (list IPAddr) := mapM Destination routes.

Definition MissingRoutes (iface : string) (addresses : IPAddressMap) : M S (result (list Handle)) :=
  let opts := mkOptions "local" "local" "" "" iface in
  ipv6Routes ← Find opts;
  match ipv6Routes with
  | Err e => mret (Err (ErrWrap "failed to find IPv6 routes" e))
  | Ok ipv6Routes =>
      ipv4Routes ← Find (mkOptions "local" "local" "host" "" iface);
      match ipv4Routes with
      | Err e => mret (Err (ErrWrap "failed to find IPv4 routes" e))
      | Ok ipv4Routes =>
          ignoreAddrs ← some_or_panic (destinations (ipv6Routes ++ ipv4Routes));
          let wantedRoutes := RemoveIPAddrs ignoreAddrs addresses in
          let addrs := sort_addrs (map_to_list wantedRoutes).*2 in
          mret (Ok ((λ addr, mkHandle (Some addr) None 0 iface 0 "local" "local" false
                               (cfg_EthernetProtoID config) None "") <$> addrs))
      end
  end.

Definition ExtraRoutes (iface : string) (wantedRoutes : IPAddressMap) : M S (result (list Handle)) :=
  allRoutes ← Find (mkOptions "local" "local" "" (cfg_EthernetProtoID config) iface);
  match allRoutes with
  | Err e => mret (Err (ErrWrap "failed to find routes" e))
  | Ok allRoutes =>
      dests ← some_or_panic (destinations allRoutes);
      mret (Ok ((λ dest, mkHandle (Some dest) None 0 iface 0 "local" "local" false "" None "") <$>
                filter (λ dest, wantedRoutes !! addr_String dest = None) dests))
  end.

(** The loop of deletions, left at the first failure. *)
Definition delete_all (routes : list Handle) : M S (option error) :=
  r ← for_until routes tt (λ _ deleteMe,
        err ← Delete deleteMe;
        mret (match err with None => inl tt | Some e => inr (ErrFmt "failed to delete route" e) end));
  mret (match r with inl _ => None | inr e => Some e end).

Definition RemoveRoutes (iface : string) : M S (option error) :=
  ipv6Routes ← Find (mkOptions "local" "local" "" (cfg_EthernetProtoID config) iface);
  match ipv6Routes with
  | Err e => mret (Some (ErrWrap "failed to find IPv6 routes" e))
  | Ok ipv6Routes =>
      err ← delete_all ipv6Routes;
      match err with
      | Some e => mret (Some e)
      | None =>
          ipv4Routes ← Find (mkOptions "local" "local" "host" (cfg_EthernetProtoID config) iface);
          match ipv4Routes with
          | Err e => mret (Some (ErrWrap "failed to find IPv4 routes" e))
          | Ok ipv4Routes => delete_all ipv4Routes
          end
      end
  end.

(** The body of [Setup]'s loop; [inr] leaves it. *)
Definition setup_nic (nic : Configuration) : M S (unit + error) :=
  match Interface_ nic, ExtraAddresses_ nic with
  | Some iface, Some extra =>
      let extraAddrs := MergedMap extra in
      extraRoutes ← ExtraRoutes (Name iface) extraAddrs;
      match extraRoutes with
      | Err e => mret (inr (ErrWrap ("failed to get extra routes for interface " +:+ Name iface) e))
      | Ok extraRoutes =>
          _ ← for_each extraRoutes (λ r, _ ← Delete r; mret tt);
          missingRoutes ← MissingRoutes (Name iface) extraAddrs;
          match missingRoutes with
          | Err e => mret (inr (ErrWrap ("failed to get missing routes for interface " +:+ Name iface) e))
          | Ok missingRoutes =>
              _ ← for_each missingRoutes (λ r, _ ← Add r; mret tt);
              mret (inl tt)
          end
      end
  | _, _ => mret (inl tt)
  end.

Definition Setup (nicConfigs : list Configuration) : M S (option error) :=
  r ← for_until (FilteredNICConfigs nicConfigs) tt (λ _ nic, setup_nic nic);
  mret (match r with inl _ => None | inr e => Some e end).

End operations.
End Route.
