(* ===== verification/RouteFacts.v ===== *)
(** * Routes on a system where [ip] behaves as documented

    What one entry of [ip route list] looks like and that it parses back;
    [IpRoute], the promises of iproute2 the code relies on, with the local table
    as a map from destinations; the operations of Route.v over it. *)
From stdpp Require Import sorting.
From S2P Require Import Prelude GoStrings GoStringFacts Accounts NetAddr NetAddrFacts Address Nic Route.

Module RouteFacts.
Import Address Nic Route.

(** ** Words *)
Definition plain (b : byte) : Prop := ascii_byte b ∧ space1 b = false.
Definition word (w : string) : Prop := w ≠ "" ∧ Forall plain (to_bytes w).

#[global] Instance word_dec w : Decision (word w).
Proof. unfold word, plain, ascii_byte. apply _. Defined.

Lemma fields_plain n cur u post :
  Forall plain u → bfields_aux (length u + n) cur (u ++ post) = bfields_aux n (rev u ++ cur) post.
Proof.
  intros Hu. revert cur. induction Hu as [|a u [Ha Hs] Hu IH]; intros cur; [done|]. cbn [length Nat.add bfields_aux].
  change ((a :: u) ++ post) with (a :: (u ++ post)). rewrite skip_space_ascii, Hs by done. rewrite IH. simpl.
  by rewrite <-app_assoc.
Qed.

Lemma bfields_words (ws : list bytes) :
  ws ≠ [] → Forall (λ w, w ≠ [] ∧ Forall plain w) ws → bfields (bjoin [byte_of 32] ws) = ws.
Proof.
  intros Hne HF. unfold bfields. induction HF as [|w ws [Hw Hp] HF IH]; [done|]. clear Hne.
  assert (Hflush : ∀ rest, match rev w with [] => rest | _ :: _ => rev (rev w) :: rest end = w :: rest).
  { intros rest. rewrite rev_involutive. destruct (rev w) eqn:E; [|done]. by apply (f_equal (@rev _)) in E; rewrite rev_involutive in E. }
  destruct ws as [|w' ws].
  - cbn [bjoin]. pose proof (fields_plain 1 [] w [] Hp) as H. rewrite app_nil_r, Nat.add_1_r in H. rewrite H.
    cbn. rewrite app_nil_r. apply Hflush.
  - change (bjoin [byte_of 32] (w :: w' :: ws)) with (w ++ byte_of 32 :: bjoin [byte_of 32] (w' :: ws)).
    rewrite length_app. change (length (byte_of 32 :: ?l)) with (S (length l)).
    rewrite <-Nat.add_succ_r, fields_plain, app_nil_r by done.
    change (bfields_aux (S ?n) ?c (byte_of 32 :: ?l)) with
      (match c with [] => bfields_aux n [] l | _ => rev c :: bfields_aux n [] l end).
    rewrite IH by done. apply Hflush.
Qed.

Lemma Fields_words ws : ws ≠ [] → Forall word ws → Fields (Join ws " ") = ws.
Proof.
  intros Hne HF. unfold Fields, Join. rewrite to_of_bytes. change (to_bytes " ") with [byte_of 32].
  rewrite bfields_words; [apply map_of_to_bytes|by destruct ws|].
  rewrite Forall_fmap. eapply Forall_impl; [exact HF|]. intros w [Hw Hp]. split; [|done]. by destruct w.
Qed.

Lemma bjoin_ends ws :
  ws ≠ [] → Forall (λ w, w ≠ [] ∧ Forall plain w) ws →
  ∃ a l k z, bjoin [byte_of 32] ws = a :: l ∧ bjoin [byte_of 32] ws = k ++ [z] ∧ plain a ∧ plain z.
Proof.
  intros Hne HF. induction HF as [|w ws [Hw Hp] HF IH]; [done|]. clear Hne.
  destruct w as [|a w]; [done|]. destruct ws as [|w' ws].
  - destruct (exists_last (l := a :: w) ltac:(done)) as (k & z & E). exists a, w, k, z. cbn [bjoin].
    split_and!; [done|done|by apply Forall_cons in Hp as [? _]|]. rewrite E in Hp. apply Forall_app in Hp as [_ Hp].
    by apply Forall_cons in Hp as [? _].
  - destruct IH as (a' & l' & k & z & _ & E & _ & Hz); [done|].
    exists a, (w ++ byte_of 32 :: bjoin [byte_of 32] (w' :: ws)), ((a :: w) ++ byte_of 32 :: k), z.
    change (bjoin [byte_of 32] ((a :: w) :: w' :: ws)) with ((a :: w) ++ byte_of 32 :: bjoin [byte_of 32] (w' :: ws)).
    split_and!; [done| |by apply Forall_cons in Hp as [? _]|done]. rewrite E. by rewrite <-app_assoc.
Qed.

Lemma TrimSpace_words ws : ws ≠ [] → Forall word ws → TrimSpace (Join ws " ") = Join ws " ".
Proof.
  intros Hne HF. unfold TrimSpace, Join. rewrite to_of_bytes. change (to_bytes " ") with [byte_of 32]. f_equal.
  destruct (bjoin_ends (to_bytes <$> ws)) as (a & l & k & z & E1 & E2 & [Ha Hsa] & [Hz Hsz]); [by destruct ws| |].
  { rewrite Forall_fmap. eapply Forall_impl; [exact HF|]. intros w [Hw Hp]. split; [|done]. by destruct w. }
  unfold btrim_space, btrim_left. rewrite iterate_while_none.
  - unfold btrim_right. rewrite iterate_while_none; [apply rev_involutive|]. rewrite E2, rev_app_distr. cbn [rev app skip_space_rev].
    rewrite Hsz. destruct (rev k) as [|b r]; [done|]. rewrite space2_not_ascii by auto.
    destruct r; [done|]. by rewrite space3_not_ascii by auto.
  - rewrite E1, skip_space_ascii by done. by rewrite Hsa.
Qed.

Lemma word_lacks_nl w : word w → lacks nl w.
Proof. intros [_ Hp] Hin. rewrite Forall_forall in Hp. by destruct (Hp _ Hin). Qed.

Lemma hex_char_plain b : NetAddrFacts.hex_char b = true → plain b.
Proof.
  intros Hb%bool_decide_eq_true. unfold NetAddr.hex_value in Hb. unfold plain, ascii_byte, space1.
  assert (33 ≤ Ascii.N_of_ascii b < 128)%N.
  { repeat match goal with H : context [if ?c then _ else _] |- _ => destruct c eqn:? end; try (by destruct Hb);
      repeat match goal with H : (_ && _)%bool = true |- _ => apply andb_true_iff in H as [?%Z.leb_le ?%Z.leb_le] end; lia. }
  split; [lia|]. apply orb_false_iff. split; [|apply N.eqb_neq; lia].
  apply andb_false_iff. right. apply N.leb_gt. lia.
Qed.

Lemma net_text_plain k : net_text k → Forall plain (to_bytes k).
Proof.
  intros H. eapply Forall_impl; [exact H|]. intros b [Hb|[->|[->| ->]]]; [by apply hex_char_plain|done..].
Qed.

Lemma canonical_word k a : canonical k a → word k.
Proof. intros (_ & Ht & b & Hb & _). split; [by intros ->|by apply net_text_plain]. Qed.

(** ** The entries of a listing *)
Record entry := mkEntry {
  e_table : bool;
  e_dest : string;
  e_pairs : list (string * string);
}.

Definition words_of (e : entry) : list string :=
  (if e_table e then ["local"] else []) ++ e_dest e :: (e_pairs e ≫= λ '(k, v), [k; v]).

Definition entry_line (e : entry) : string := Join (words_of e) " ".

Definition entry_fields (e : entry) : gmap string string :=
  foldl (λ m '(k, v), <[k := v]> m) (<["destination" := e_dest e]> (<["table" := "local"]> ∅)) (e_pairs e).

Lemma entry_pairs_spec ps res :
  entry_pairs (ps ≫= λ '(k, v), [k; v]) res = foldl (λ m '(k, v), <[k := v]> m) res ps.
Proof. revert res. induction ps as [|[k v] ps IH]; intros res; [done|]. cbn. apply IH. Qed.

Lemma pairs_even (ps : list (string * string)) : length (ps ≫= λ '(k, v), [k; v]) mod 2 = 0.
Proof.
  assert (length (ps ≫= λ '(k, v), [k; v]) = length ps * 2) as ->.
  { induction ps as [|[k v] ps IH]; [done|]. cbn in *. lia. }
  by apply Nat.Div0.mod_mul.
Qed.

(** The round trip of one entry. *)
Lemma parse_entry e opts :
  Forall word (words_of e) → (e_table e = true ∨ e_pairs e ≠ []) → e_dest e ≠ "local" → o_Table opts = "local" →
  parseRouteEntry (entry_line e) opts = Ok (entry_fields e).
Proof.
  intros Hw Hlong Hd Ht. unfold parseRouteEntry, entry_line.
  assert (Hne : words_of e ≠ []) by (unfold words_of; by destruct (e_table e)).
  rewrite Fields_words by done. rewrite bool_decide_false.
  2: { intros E. destruct (words_of e) as [|w ws] eqn:Ew; [done|]. apply Forall_cons in Hw as [[Hw _] _].
       apply (f_equal to_bytes) in E. unfold Join in E. rewrite to_of_bytes in E. destruct w; [done|]. by destruct ws. }
  assert (HT : ∀ w ws, Forall word (w :: ws) → TrimSpace w = w).
  { intros w ws [HW _]%Forall_cons. pose proof (TrimSpace_words [w] ltac:(done) ltac:(by constructor)) as H.
    unfold Join in H. cbn in H. by rewrite of_to_bytes in H. }
  rewrite Ht. unfold words_of, entry_fields in *. destruct (e_table e); cbn [app] in *.
  - rewrite (HT _ _ Hw), bool_decide_true by done.
    rewrite bool_decide_true by apply pairs_even. by rewrite entry_pairs_spec.
  - destruct (e_pairs e) as [|[k v] ps] eqn:Ep; [by destruct Hlong|].
    change (((k, v) :: ps) ≫= λ '(k, v), [k; v]) with (k :: v :: (ps ≫= λ '(k, v), [k; v])) in *. cbv beta iota.
    rewrite (HT _ _ Hw), (bool_decide_false (e_dest e = "local")) by done.
    pose proof (pairs_even ((k, v) :: ps)) as He. cbn in He.
    rewrite bool_decide_true by done. cbn [entry_pairs]. by rewrite entry_pairs_spec.
Qed.

(** ** What [ip] promises *)

(** A route of the local table, filed under its destination. *)
Record kroute := mkRoute {
  k_dev : string;
  k_proto : string;
  k_scope : string;
}.

Definition pair_for (dev : string) (k : kroute) (key v : string) : Prop :=
  key ≠ "destination" ∧ key ≠ "table" ∧ (key = "dev" → v = dev) ∧ (key = "proto" → v = k_proto k) ∧
  (key = "scope" → v = k_scope k) ∧ (key = "src" → is_ok (ParseIP v) = true).

(** A line of the listing of a route: pairs may be missing, what is there is
    right. *)
Record entry_for (dev d : string) (k : kroute) (e : entry) : Prop := {
  ef_dest : e_dest e = d;
  ef_words : Forall word (words_of e);
  ef_long : e_table e = true ∨ e_pairs e ≠ [];
  ef_pairs : Forall (λ p, pair_for dev k p.1 p.2) (e_pairs e);
}.

Definition matches (dev proto scope : string) (k : kroute) : Prop :=
  k_dev k = dev ∧ (proto = "" ∨ k_proto k = proto) ∧ (scope = "" ∨ k_scope k = scope).

#[global] Instance matches_dec dev proto scope k : Decision (matches dev proto scope k).
Proof. unfold matches. apply _. Defined.

Definition list_command (scope proto dev : string) : Accounts.command :=
  ip_command (list_args (mkOptions "local" "local" scope proto dev)).
Definition add_command (d dev proto : string) : Accounts.command := ip_command (add_args "local" d "" dev proto).
Definition delete_command (d dev scope proto : string) : Accounts.command :=
  ip_command (delete_args "local" d dev scope proto).

(** The documented behaviour of [ip route] on the table [local]: a listing
    has one line per matching route; adding succeeds when the destination is
    free and is refused (exit code 2) when it is not; deleting removes a route
    its arguments describe. *)
Class IpRoute (S : Type) `{Runner S} := {
  local : S → gmap string kroute;
  scope_of : string → string;
  ip_list s scope proto dev :
    ∃ s' rs es, run_with (list_command scope proto dev) s = Some (s', Accounts.RunOk (unlines (entry_line <$> es))) ∧
      local s' = local s ∧
      rs ≡ₚ filter (λ r, matches dev proto scope r.2) (map_to_list (local s)) ∧
      Forall2 (λ r e, entry_for dev r.1 r.2 e) rs es;
  ip_add s d dev proto :
    local s !! d = None → word d → word dev → word proto →
    ∃ s' out, run_with (add_command d dev proto) s = Some (s', Accounts.RunOk out) ∧
      local s' = <[d := mkRoute dev proto (scope_of d)]> (local s);
  ip_add_exists s d dev proto :
    is_Some (local s !! d) →
    ∃ s', run_with (add_command d dev proto) s = Some (s', Accounts.RunExit 2) ∧ local s' = local s;
  ip_delete s d k scope proto :
    local s !! d = Some k → (scope = "" ∨ scope = k_scope k) → (proto = "" ∨ proto = k_proto k) →
    ∃ s' out, run_with (delete_command d (k_dev k) scope proto) s = Some (s', Accounts.RunOk out) ∧
      local s' = delete d (local s);
}.

(** Destinations are printed in their canonical form. *)
Definition kernel_wf (m : gmap string kroute) : Prop :=
  ∀ d k, m !! d = Some k → ∃ a, ParseIP d = Ok a ∧ addr_String a = d.

(** A route as [Find] returns it. *)
Record found (dev d : string) (k : kroute) (h : Handle) : Prop := {
  fd_dest : ∃ a, Destination h = Some a ∧ addr_String a = d;
  fd_dev : InterfaceName h = dev;
  fd_table : Table h = "local";
  fd_proto : Proto h = "" ∨ Proto h = k_proto k;
  fd_scope : Scope h = "" ∨ Scope h = k_scope k;
}.

Lemma entry_fields_lookup e key :
  entry_fields e !! key =
    match last (filter (λ p, p.1 = key) (e_pairs e)) with
    | Some p => Some p.2
    | None => (<["destination" := e_dest e]> (<["table" := "local"]> (∅ : gmap string string))) !! key
    end.
Proof.
  unfold entry_fields. induction (e_pairs e) as [|[k v] ps IH] using rev_ind; [done|].
  rewrite foldl_app, filter_app. cbn [foldl]. destruct (decide (k = key)) as [->|Hne].
  - rewrite lookup_insert_eq, (filter_cons_True _ (key, v)) by done. change (filter _ []) with ([] : list (string * string)).
    by rewrite last_snoc.
  - rewrite lookup_insert_ne, IH, (filter_cons_False _ (k, v)) by done.
    change (filter _ []) with ([] : list (string * string)). by rewrite app_nil_r.
Qed.

Lemma entry_fields_pair dev d k e key v :
  entry_for dev d k e → key ≠ "destination" → key ≠ "table" → entry_fields e !! key = Some v → pair_for dev k key v.
Proof.
  intros [_ _ _ HF] Hd Ht. rewrite entry_fields_lookup, !lookup_insert_ne, lookup_empty by done.
  destruct (last _) as [p|] eqn:E; [|done]. intros [= <-].
  apply last_Some_elem_of, list_elem_of_filter in E as [<- Hin]. rewrite Forall_forall in HF. by apply HF.
Qed.

Lemma entry_fields_fixed dev d k e :
  entry_for dev d k e → entry_fields e !! "destination" = Some d ∧ entry_fields e !! "table" = Some "local".
Proof.
  intros [Hd _ _ HF]. rewrite !entry_fields_lookup.
  assert (Hfix : ∀ key, key = "destination" ∨ key = "table" →
             last (filter (λ p : string * string, p.1 = key) (e_pairs e)) = None).
  { intros key Hkey. apply last_None. destruct (filter _ (e_pairs e)) as [|p ps] eqn:E; [done|].
    assert (p ∈ filter (λ p : string * string, p.1 = key) (e_pairs e)) as [<- Hin]%list_elem_of_filter by (rewrite E; by left).
    rewrite Forall_forall in HF. destruct (HF _ Hin) as (H1 & H2 & _). by destruct Hkey. }
  rewrite !Hfix by auto. by rewrite lookup_insert_eq, lookup_insert_ne, lookup_insert_eq, Hd.
Qed.

Lemma parse_line dev d k e opts :
  entry_for dev d k e → o_Table opts = "local" → o_Device opts = dev →
  (∃ a, ParseIP d = Ok a ∧ addr_String a = d) →
  ∃ h, parseRouteEntry (TrimSpace (entry_line e)) opts = Ok (entry_fields e) ∧
       TrimSpace (entry_line e) ≠ "" ∧ route_of (entry_fields e) opts = Ok h ∧ found dev d k h.
Proof.
  intros He Ht Hdev (a & Ea & Ha). destruct (entry_fields_fixed _ _ _ _ He) as [Edest Etable].
  pose proof (λ key v, entry_fields_pair _ _ _ _ key v He) as HP. destruct He as [Hd Hw Hl Hk].
  assert (Hne : words_of e ≠ []) by (unfold words_of; by destruct (e_table e)).
  unfold entry_line. rewrite TrimSpace_words by done. fold (entry_line e).
  assert (d ≠ "local") by (intros ->; by vm_compute in Ea).
  assert (Hpe : parseRouteEntry (entry_line e) opts = Ok (entry_fields e)) by (apply parse_entry; by rewrite ?Hd).
  assert (Hline : entry_line e ≠ "").
  { intros E. rewrite E in Hpe. assert (entry_fields e = ∅) as E0 by (by injection Hpe). by rewrite E0 in Edest. }
  unfold route_of. rewrite Edest, Ea, Etable.
  pose proof (HP "dev") as Kdev. pose proof (HP "proto") as Kproto. pose proof (HP "scope") as Kscope.
  pose proof (HP "src") as Ksrc. unfold pair_for in *.
  assert (∃ src, match entry_fields e !! "src" with
          | Some value => match ParseIP value with Ok a => Ok (Some a) | Err e => Err (ErrWrap ("failed to parse " +:+ "source") e) end
          | None => Ok None end = Ok src) as [src ->].
  { destruct (entry_fields e !! "src") as [v|]; [|by eexists]. destruct (Ksrc v) as (_ & _ & _ & _ & _ & Hv); try done.
    specialize (Hv eq_refl). destruct (ParseIP v); [by eexists|done]. }
  eexists. split; [done|]. split; [done|]. split; [done|]. split; cbn.
  - by exists a.
  - destruct (entry_fields e !! "dev") as [v|]; [|done]. destruct (Kdev v) as (_ & _ & Hv & _); by try apply Hv.
  - done.
  - destruct (entry_fields e !! "proto") as [v|]; [right|by left].
    destruct (Kproto v) as (_ & _ & _ & Hv & _); by try apply Hv.
  - destruct (entry_fields e !! "scope") as [v|]; [right|by left].
    destruct (Kscope v) as (_ & _ & _ & _ & Hv & _); by try apply Hv.
Qed.

Lemma parse_listing opts rs es :
  o_Table opts = "local" →
  Forall2 (λ r e, entry_for (o_Device opts) r.1 r.2 e) rs es →
  Forall (λ r : string * kroute, ∃ a, ParseIP r.1 = Ok a ∧ addr_String a = r.1) rs →
  ∃ hs, parse_routes (entry_line <$> es) opts = Ok hs ∧ Forall2 (λ r h, found (o_Device opts) r.1 r.2 h) rs hs.
Proof.
  intros Ht HF Hc. induction HF as [|[d k] e rs es He HF IH]; [by exists []|].
  apply Forall_cons in Hc as [Hd Hc]. destruct (IH Hc) as (hs & E & Hhs).
  destruct (parse_line _ d k e opts He Ht eq_refl Hd) as (h & Hp & Hn & Hr & Hf).
  exists (h :: hs). split; [|by constructor]. cbn [fmap list_fmap parse_routes].
  rewrite bool_decide_false, Hp, Hr by done. by rewrite E.
Qed.

Lemma parse_routes_app_empty lines opts : parse_routes (lines ++ [""]) opts = parse_routes lines opts.
Proof.
  induction lines as [|l ls IH]; [done|]. cbn [app parse_routes]. rewrite IH.
  case_bool_decide; [done|]. by repeat case_match.
Qed.

(** ** The operations *)
Section operations.
Context {S : Type} `{IpRoute S} (config : Sections).
Local Notation P := (cfg_EthernetProtoID config).

Lemma wp_Find scope proto dev s :
  kernel_wf (local s) →
  wp (Find (mkOptions "local" "local" scope proto dev))
    (λ r s', local s' = local s ∧ ∃ rs hs, r = Ok hs ∧
       rs ≡ₚ filter (λ r, matches dev proto scope r.2) (map_to_list (local s)) ∧
       Forall2 (λ r h, found dev r.1 r.2 h) rs hs) s.
Proof.
  intros Hwf. unfold Find, listRoutes. rewrite bool_decide_false by done.
  destruct (ip_list s scope proto dev) as (s' & rs & es & E & Hs' & Hrs & HF). unfold list_command in E.
  unfold wp, mbind, M_bind. rewrite E. cbn beta iota.
  assert (Hc : Forall (λ r : string * kroute, ∃ a, ParseIP r.1 = Ok a ∧ addr_String a = r.1) rs).
  { apply Forall_forall. intros [d k] Hin. rewrite Hrs in Hin. apply list_elem_of_filter in Hin as [_ Hin].
    apply elem_of_map_to_list in Hin. by eapply Hwf. }
  destruct (parse_listing (mkOptions "local" "local" scope proto dev) rs es eq_refl HF Hc) as (hs & Ep & Hhs).
  rewrite Split_unlines, parse_routes_app_empty, Ep.
  - split; [done|]. by exists rs, hs.
  - rewrite Forall_fmap. apply Forall_forall. intros e Hin. apply list_elem_of_lookup in Hin as [i Hi].
    destruct (Forall2_lookup_r _ _ _ _ _ HF Hi) as (r & _ & [_ Hw _ _]). unfold entry_line, lacks.
    intros Hnl. assert (Forall (λ b, b ≠ nl) (to_bytes (Join (words_of e) " "))) as Hall.
    { apply NetAddrFacts.Forall_Join; [by repeat constructor|]. eapply Forall_impl; [exact Hw|]. intros w Hword.
      apply Forall_forall. intros b Hb ->. by apply (word_lacks_nl w). }
    rewrite Forall_forall in Hall. by apply (Hall _ Hnl).
Qed.

(** The destinations of what was found. *)
Lemma found_destinations dev rs hs :
  Forall2 (λ (r : string * kroute) h, found dev r.1 r.2 h) rs hs →
  ∃ dests, destinations hs = Some dests ∧ addr_String <$> dests = rs.*1.
Proof.
  induction 1 as [|[d k] h rs hs [(a & Ha & Ed) _ _ _ _] HF (dests & E & Eds)]; [by exists []|].
  exists (a :: dests). unfold destinations in *. cbn. rewrite Ha. cbn. rewrite E. cbn. by rewrite Ed, Eds.
Qed.

(** Extra and missing routes, by their destinations. *)
Definition is_extra (dev : string) (W : IPAddressMap) (m : gmap string kroute) (d : string) : Prop :=
  ∃ k, m !! d = Some k ∧ k_dev k = dev ∧ k_proto k = P ∧ W !! d = None.

Definition is_missing (dev : string) (W : IPAddressMap) (m : gmap string kroute) (d : string) : Prop :=
  is_Some (W !! d) ∧ ¬ ∃ k, m !! d = Some k ∧ k_dev k = dev.

Definition extra_handle (dev : string) (dest : IPAddr) : Handle :=
  mkHandle (Some dest) None 0 dev 0 "local" "local" false "" None "".
Definition missing_handle (dev : string) (dest : IPAddr) : Handle :=
  mkHandle (Some dest) None 0 dev 0 "local" "local" false P None "".

Lemma NoDup_fmap_filter {A B} (f : A → B) (Q : A → Prop) `{!∀ x, Decision (Q x)} (l : list A) :
  NoDup (f <$> l) → NoDup (f <$> filter Q l).
Proof. intros Hl. eapply sublist_NoDup; [exact Hl|]. apply fmap_sublist, sublist_filter. Qed.

Lemma NoDup_matching dev proto scope (m : gmap string kroute) rs :
  rs ≡ₚ filter (λ r, matches dev proto scope r.2) (map_to_list m) → NoDup rs.*1.
Proof.
  intros ->. apply (NoDup_fmap_filter fst), NoDup_fst_map_to_list.
Qed.

Lemma wp_ExtraRoutes dev W s :
  kernel_wf (local s) → P ≠ "" →
  wp (ExtraRoutes config dev W)
    (λ r s', local s' = local s ∧ ∃ dests, r = Ok (extra_handle dev <$> dests) ∧ NoDup (addr_String <$> dests) ∧
       ∀ d, d ∈ addr_String <$> dests ↔ is_extra dev W (local s) d) s.
Proof.
  intros Hwf HP. unfold ExtraRoutes. wp_step. eapply wp_mono; [by apply wp_Find|].
  intros r s' [Hs' (rs & hs & -> & Hrs & HF)]. cbn beta iota. wp_step.
  destruct (found_destinations _ _ _ HF) as (dests & -> & Ed). unfold some_or_panic. wp_step. wp_step.
  split; [done|]. exists (filter (λ dest, W !! addr_String dest = None) dests). split; [done|].
  assert (Hnd : NoDup (addr_String <$> dests)) by (rewrite Ed; by eapply NoDup_matching).
  split; [by apply (NoDup_fmap_filter addr_String)|].
  intros d. rewrite list_elem_of_fmap. setoid_rewrite list_elem_of_filter.
  assert (Hin : ∀ d, d ∈ addr_String <$> dests ↔ ∃ k, local s !! d = Some k ∧ k_dev k = dev ∧ k_proto k = P).
  { intros d'. rewrite Ed, list_elem_of_fmap. setoid_rewrite Hrs. setoid_rewrite list_elem_of_filter.
    unfold matches. split.
    - intros ([d0 k] & -> & (Hd & [?|Hp] & _) & Hm%elem_of_map_to_list); [done|]. by exists k.
    - intros (k & Hm & Hd & Hp). exists (d', k). split; [done|]. split; [by auto|]. by apply elem_of_map_to_list. }
  unfold is_extra. split.
  - intros (a & -> & HW & Ha). destruct (proj1 (Hin (addr_String a))) as (k & ? & ? & ?); [by apply list_elem_of_fmap_2|].
    by exists k.
  - intros (k & Hm & Hd & Hp & HW). pose proof (proj2 (Hin d) (ex_intro _ k (conj Hm (conj Hd Hp)))) as Hd'.
    apply list_elem_of_fmap in Hd' as (a & -> & Ha). by exists a.
Qed.

Lemma wp_MissingRoutes dev W s :
  kernel_wf (local s) → map_wf W →
  wp (MissingRoutes config dev W)
    (λ r s', local s' = local s ∧ ∃ dests, r = Ok (missing_handle dev <$> dests) ∧ NoDup (addr_String <$> dests) ∧
       ∀ d, d ∈ addr_String <$> dests ↔ is_missing dev W (local s) d) s.
Proof.
  intros Hwf HW. unfold MissingRoutes. wp_step. eapply wp_mono; [by apply wp_Find|].
  intros r s1 [Hs1 (rs1 & hs1 & -> & Hrs1 & HF1)]. cbn beta iota. wp_step.
  eapply wp_mono; [apply wp_Find; by rewrite Hs1|].
  intros r s2 [Hs2 (rs2 & hs2 & -> & Hrs2 & HF2)]. cbn beta iota. rewrite Hs1 in Hs2, Hrs2.
  destruct (found_destinations _ _ _ (Forall2_app HF1 HF2)) as (ignore & -> & Ei). rewrite fmap_app in Ei.
  unfold some_or_panic. wp_step. wp_step. wp_step. split; [done|]. eexists. split; [reflexivity|].
  set (M := RemoveIPAddrs ignore W).
  assert (HM : ∀ d a, M !! d = Some a ↔ W !! d = Some a ∧ ¬ ∃ k, local s !! d = Some k ∧ k_dev k = dev).
  { intros d a. unfold M. rewrite RemoveIPAddrs_lookup, Ei. apply and_iff_compat_l, not_iff_compat.
    rewrite elem_of_app, !list_elem_of_fmap. setoid_rewrite Hrs1. setoid_rewrite Hrs2. setoid_rewrite list_elem_of_filter.
    unfold matches. split.
    - intros [([d0 k] & -> & (Hd & _) & Hm%elem_of_map_to_list)|([d0 k] & -> & (Hd & _) & Hm%elem_of_map_to_list)]; by exists k.
    - intros (k & Hm & Hd). left. exists (d, k). split; [done|]. split; [by auto|]. by apply elem_of_map_to_list. }
  assert (HMwf : map_wf M) by (intros d a [Hd _]%HM; by apply HW).
  assert (Hkeys : addr_String <$> (map_to_list M).*2 = (map_to_list M).*1).
  { rewrite <-list_fmap_compose. apply list_fmap_ext. intros i [d a] Hi. cbn.
    apply list_elem_of_lookup_2, elem_of_map_to_list in Hi. by destruct (HMwf _ _ Hi). }
  split; [|intros d]; rewrite sort_addrs_perm, Hkeys; [apply NoDup_fst_map_to_list|].
  unfold is_missing. rewrite list_elem_of_fmap. split.
  - intros ([d' a] & -> & Ha%elem_of_map_to_list). apply HM in Ha as [Ha Hn]. split; [by eexists|done].
  - intros [[a Ha] Hn]. exists (d, a). split; [done|]. apply elem_of_map_to_list, HM. done.
Qed.

(** ** Changes to the table *)
Lemma wp_Delete h d k s :
  found (k_dev k) d k h → k_dev k ≠ "" → local s !! d = Some k →
  wp (Delete h) (λ err s', err = None ∧ local s' = delete d (local s)) s.
Proof.
  intros [(a & Ha & Ed) Hdev Ht Hp Hsc] Hne Hl. unfold Delete. rewrite Ht, Ha, Hdev, !bool_decide_false by done.
  rewrite Ed. destruct (ip_delete s d k (Scope h) (Proto h) Hl Hsc Hp) as (s' & out & E & Hs').
  unfold run_quiet, wp, mbind, M_bind. unfold delete_command in E. by rewrite E.
Qed.

Lemma wp_delete_extra dev (dests : list IPAddr) s :
  dev ≠ "" → NoDup (addr_String <$> dests) →
  (∀ d, d ∈ addr_String <$> dests → ∃ k, local s !! d = Some k ∧ k_dev k = dev) →
  wp (for_each (extra_handle dev <$> dests) (λ r, _ ← Delete r; mret tt))
    (λ _ s', ∀ d, local s' !! d = if bool_decide (d ∈ addr_String <$> dests) then None else local s !! d) s.
Proof.
  intros Hdev. revert s. induction dests as [|a dests IH]; intros s Hnd Hin; cbn [fmap list_fmap for_each].
  { apply wp_ret. intros d. by rewrite bool_decide_false by apply not_elem_of_nil. }
  rewrite fmap_cons in Hnd, Hin. apply NoDup_cons in Hnd as [Ha Hnd].
  destruct (Hin (addr_String a)) as (k & Hk & Hkd); [by left|].
  wp_step. wp_step. eapply wp_mono; [apply (wp_Delete _ (addr_String a) k); [|by rewrite Hkd|done]|].
  { split; cbn; [by exists a|done|done|by left|by left]. }
  intros err s1 [_ Hs1]. wp_step. eapply wp_mono; [apply IH; [done|]|].
  - intros d Hd. rewrite Hs1, lookup_delete_ne by (intros <-; done). apply Hin. by right.
  - cbn. intros _ s2 H2 d. rewrite H2, Hs1. destruct (decide (d = addr_String a)) as [->|Hne].
    + rewrite (bool_decide_true (_ ∈ _ :: _)) by (by left). rewrite lookup_delete_eq. by case_bool_decide.
    + rewrite lookup_delete_ne by done. destruct (bool_decide (d ∈ addr_String <$> dests)) eqn:E.
      * apply bool_decide_eq_true in E. by rewrite bool_decide_true by (by right).
      * apply bool_decide_eq_false in E. by rewrite bool_decide_false by (by apply not_elem_of_cons).
Qed.

(** Adding is refused where the destination is taken, by another device. *)
Lemma wp_add_missing dev (dests : list IPAddr) s :
  word dev → word P → NoDup (addr_String <$> dests) → Forall word (addr_String <$> dests) →
  wp (for_each (missing_handle dev <$> dests) (λ r, _ ← Add r; mret tt))
    (λ _ s', ∀ d, local s' !! d = match local s !! d with
       | Some k => Some k
       | None => if bool_decide (d ∈ addr_String <$> dests) then Some (mkRoute dev P (scope_of (S := S) d)) else None
       end) s.
Proof.
  intros Hdev HP. revert s. induction dests as [|a dests IH]; intros s Hnd Hwd; cbn [fmap list_fmap for_each].
  { apply wp_ret. intros d. rewrite bool_decide_false by apply not_elem_of_nil. by destruct (local s !! d). }
  rewrite fmap_cons in Hnd, Hwd. apply NoDup_cons in Hnd as [Ha Hnd]. apply Forall_cons in Hwd as [Hwa Hwd]. wp_step. wp_step.
  apply (wp_mono _ (λ _ s1, ∀ d, local s1 !! d = match local s !! d with
       | Some k => Some k
       | None => if bool_decide (d = addr_String a) then Some (mkRoute dev P (scope_of (S := S) d)) else None end)).
  { unfold Add, missing_handle. cbn [Table Destination Scope InterfaceName Proto].
    rewrite bool_decide_false by done. unfold run_quiet, wp, mbind, M_bind.
    change (ip_command _) with (add_command (addr_String a) dev P).
    destruct (local s !! addr_String a) as [k|] eqn:E.
    - destruct (ip_add_exists s (addr_String a) dev P) as (s' & -> & Hs'); [by eexists|]. intros d. rewrite Hs'.
      destruct (local s !! d) eqn:Ed; [done|]. case_bool_decide; [congruence|done].
    - destruct (ip_add s (addr_String a) dev P E Hwa Hdev HP) as (s' & out & -> & Hs'). intros d. rewrite Hs'.
      destruct (decide (d = addr_String a)) as [->|Hne].
      + by rewrite lookup_insert_eq, E, bool_decide_true.
      + rewrite lookup_insert_ne, bool_decide_false by done. by destruct (local s !! d). }
  intros ? s1 H1. wp_step. eapply wp_mono; [by apply IH|]. cbn. intros _ s2 H2 d. rewrite H2, H1.
  destruct (local s !! d); [done|]. destruct (decide (d = addr_String a)) as [->|Hne].
  - rewrite (bool_decide_true (_ = _)) by done. by rewrite bool_decide_true by (by left).
  - rewrite (bool_decide_false (_ = _)) by done. destruct (bool_decide (d ∈ addr_String <$> dests)) eqn:E.
    + apply bool_decide_eq_true in E. by rewrite bool_decide_true by (by right).
    + apply bool_decide_eq_false in E. by rewrite bool_decide_false by (by apply not_elem_of_cons).
Qed.

(** ** The specification of [Setup] *)

(** What becomes of one destination: the agent's routes of the device that are
    not wanted go, wanted destinations that are free are taken, the rest stays. *)
Definition reconciled (dev : string) (W : IPAddressMap) (m : gmap string kroute) (d : string) : option kroute :=
  match m !! d with
  | Some k => if bool_decide (k_dev k = dev ∧ k_proto k = P ∧ W !! d = None) then None else Some k
  | None => if bool_decide (W !! d = None) then None else Some (mkRoute dev P (scope_of (S := S) d))
  end.

Definition wants (nic : Configuration) : option (string * IPAddressMap) :=
  match Interface_ nic, ExtraAddresses_ nic with
  | Some iface, Some extra => Some (Name iface, MergedMap extra)
  | _, _ => None
  end.

(** One table follows another by reconciling the wanted sets in turn. *)
Inductive reconcile_all : list (string * IPAddressMap) → gmap string kroute → gmap string kroute → Prop :=
| rec_nil m : reconcile_all [] m m
| rec_cons dev W ws m m1 m2 :
    (∀ d, m1 !! d = reconciled dev W m d) → reconcile_all ws m1 m2 → reconcile_all ((dev, W) :: ws) m m2.

Lemma reconciled_wf dev W m m1 :
  kernel_wf m → map_wf W → (∀ d, m1 !! d = reconciled dev W m d) → kernel_wf m1.
Proof.
  intros Hm HW Hr d k Hk. rewrite Hr in Hk. unfold reconciled in Hk. destruct (m !! d) as [k'|] eqn:E; [by eapply Hm|].
  case_bool_decide as Hd; [done|]. apply not_eq_None_Some in Hd as [a Ha]. destruct (HW _ _ Ha) as (_ & _ & b & ? & ?). eauto.
Qed.

Lemma wp_setup_nic nic s :
  kernel_wf (local s) → word P →
  (∀ dev W, wants nic = Some (dev, W) → word dev ∧ map_wf W) →
  wp (setup_nic config nic)
    (λ r s', r = inl tt ∧ match wants nic with
       | Some (dev, W) => ∀ d, local s' !! d = reconciled dev W (local s) d
       | None => s' = s end) s.
Proof.
  intros Hwf HP Hw. unfold setup_nic, wants in *.
  destruct (Interface_ nic) as [iface|]; [|by apply wp_ret].
  destruct (ExtraAddresses_ nic) as [extra|]; [|by apply wp_ret].
  set (dev := Name iface). set (W := MergedMap extra). destruct (Hw dev W eq_refl) as [Hdev HW].
  wp_step. eapply wp_mono; [by apply wp_ExtraRoutes, HP|]. intros r s1 [Hs1 (xs & -> & Hnd & Hxs)]. cbn beta iota. wp_step.
  eapply wp_mono; [apply wp_delete_extra; [apply Hdev|done|]|].
  { intros d (k & Hk & Hd & _)%Hxs. rewrite Hs1. eauto. }
  cbn. intros _ s2 H2. rewrite Hs1 in H2.
  assert (Hwf2 : kernel_wf (local s2)).
  { intros d k Hk. rewrite H2 in Hk. case_bool_decide; [done|]. by eapply Hwf. }
  wp_step. eapply wp_mono; [by apply wp_MissingRoutes|]. intros r s3 [Hs3 (ms & -> & Hnd' & Hms)]. cbn beta iota. wp_step.
  eapply wp_mono; [apply wp_add_missing; [done..|]|].
  { apply Forall_forall. intros d [[a Ha] _]%Hms. by eapply canonical_word, HW. }
  cbn. intros _ s4 H4. split; [done|]. intros d.
  rewrite H4, Hs3. clear H4 Hs3. specialize (Hxs d). specialize (Hms d). specialize (H2 d). unfold reconciled.
  unfold is_extra in Hxs. unfold is_missing in Hms. destruct (local s !! d) as [k|] eqn:Ek.
  - destruct (decide (k_dev k = dev ∧ k_proto k = P ∧ W !! d = None)) as [(Hd & Hp & Hn)|Hno].
    + rewrite bool_decide_true in H2 by (apply Hxs; eauto). rewrite H2, (bool_decide_true (_ ∧ _)) by done.
      rewrite bool_decide_false; [done|]. rewrite Hms, Hn. intros [[? [=]] _].
    + rewrite bool_decide_false in H2 by (rewrite Hxs; naive_solver). by rewrite H2, bool_decide_false.
  - rewrite bool_decide_false in H2 by (rewrite Hxs; naive_solver). rewrite H2.
    destruct (W !! d) as [a|] eqn:Ew.
    + rewrite (bool_decide_false (Some a = None)), bool_decide_true by (done || (apply Hms; split; [by eexists|rewrite H2; naive_solver])). done.
    + rewrite (bool_decide_true (None = None)), bool_decide_false; [done| |done]. rewrite Hms. intros [[? [=]] _].
Qed.

Lemma wp_setup_loop nics s :
  kernel_wf (local s) → word P →
  Forall (λ w, word w.1 ∧ map_wf w.2) (omap wants nics) →
  wp (for_until nics tt (λ _ nic, setup_nic config nic))
    (λ r s', r = inl tt ∧ reconcile_all (omap wants nics) (local s) (local s')) s.
Proof.
  intros Hwf HP. revert s Hwf. induction nics as [|nic nics IH]; intros s Hwf Hw.
  { apply wp_ret. split; [done|constructor]. }
  cbn [for_until]. wp_step. eapply wp_mono.
  { apply wp_setup_nic; [done|done|]. intros dev W E. cbn in Hw. rewrite E in Hw. by apply Forall_cons in Hw as [? _]. }
  intros r s1 [-> H1]. cbn [omap list_omap] in *. destruct (wants nic) as [[dev W]|].
  - apply Forall_cons in Hw as [[Hdev HW] Hw]. eapply wp_mono; [apply IH; [by eapply reconciled_wf|done]|].
    intros r s2 [-> H2]. split; [done|]. by econstructor.
  - subst s1. by apply IH.
Qed.

Lemma wp_Setup (nics : list Configuration) (s : S) :
  kernel_wf (local s) → word P →
  Forall (λ w, word w.1 ∧ map_wf w.2) (omap wants (FilteredNICConfigs nics)) →
  wp (Setup config nics)
    (λ err s', err = None ∧ reconcile_all (omap wants (FilteredNICConfigs nics)) (local s) (local s')) s.
Proof.
  intros Hwf HP Hw. unfold Setup. wp_step. eapply wp_mono; [by apply wp_setup_loop|].
  intros r s' [-> H']. by apply wp_ret.
Qed.

(** Setting up the routes, on a system where [ip] behaves as documented:
    every device of a valid NIC is reconciled with what it wants, in turn.  The
    agent's own routes that are not wanted are removed, wanted destinations no
    one has are added for the device with the agent's protocol, and all other
    routes (of other programs, of other devices, of the kernel) stay as they
    are; a destination another device holds does not stop the others. *)
Theorem Setup_reconciles (nics : list Configuration) (s : S) :
  kernel_wf (local s) → word P →
  Forall (λ w, word w.1 ∧ map_wf w.2) (omap wants (FilteredNICConfigs nics)) →
  wp (Setup config nics)
    (λ err s', err = None ∧ reconcile_all (omap wants (FilteredNICConfigs nics)) (local s) (local s')) s.
Proof. apply wp_Setup. Qed.

(** ** A system that is set up *)
Definition settled (dev : string) (W : IPAddressMap) (m : gmap string kroute) : Prop :=
  ∀ d, ¬ is_missing dev W m d ∧ ¬ is_extra dev W m d.

(** Every wanted destination is free, or the device's already. *)
Definition available (dev : string) (W : IPAddressMap) (m : gmap string kroute) : Prop :=
  ∀ d k, is_Some (W !! d) → m !! d = Some k → k_dev k = dev.

Lemma settled_here dev W m m1 :
  available dev W m → (∀ d, m1 !! d = reconciled dev W m d) → settled dev W m1.
Proof.
  intros Ha Hr d. specialize (Hr d). unfold reconciled in Hr. split.
  - intros [HW Hn]. apply Hn. destruct (m !! d) as [k|] eqn:E.
    + exists k. rewrite bool_decide_false in Hr; [by split; [|eapply Ha]|]. intros (_ & _ & H'). destruct HW. congruence.
    + rewrite bool_decide_false in Hr by (by apply not_eq_None_Some). eauto.
  - intros (k & Hk & Hd & Hp & HW). rewrite Hk in Hr. destruct (m !! d) as [k'|].
    + case_bool_decide as Hb; [done|]. injection Hr as <-. by apply Hb.
    + by rewrite bool_decide_true in Hr.
Qed.

Lemma settled_step dev0 W0 dev W m m1 :
  dev ≠ dev0 → settled dev W m → (∀ d, m1 !! d = reconciled dev0 W0 m d) → settled dev W m1.
Proof.
  intros Hne Hs Hr d. destruct (Hs d) as [Hm Hx]. specialize (Hr d). unfold reconciled in Hr. split.
  - intros [HW Hn]. apply Hm. split; [done|]. intros (k & Hk & Hd). apply Hn. exists k. split; [|done].
    rewrite Hr, Hk, bool_decide_false; [done|]. intros (? & _). congruence.
  - intros (k & Hk & Hd & Hp & HW). apply Hx. rewrite Hk in Hr. destruct (m !! d) as [k'|] eqn:E.
    + case_bool_decide; [done|]. injection Hr as <-. by exists k.
    + case_bool_decide; [done|]. injection Hr as ->. by cbn in Hd.
Qed.

Lemma available_step dev0 W0 dev W m m1 :
  (∀ d, is_Some (W !! d) → W0 !! d = None) → available dev W m →
  (∀ d, m1 !! d = reconciled dev0 W0 m d) → available dev W m1.
Proof.
  intros Hdis Ha Hr d k HW Hk. rewrite Hr in Hk. unfold reconciled in Hk. destruct (m !! d) as [k'|] eqn:E.
  - case_bool_decide; [done|]. injection Hk as <-. by eapply Ha.
  - by rewrite bool_decide_true in Hk by (by apply Hdis).
Qed.

(** Two devices want different destinations. *)
Definition apart (w w' : string * IPAddressMap) : Prop := w.1 ≠ w'.1 ∧ ∀ d, is_Some (w.2 !! d) → w'.2 !! d = None.

Lemma reconcile_settles ws m m' :
  reconcile_all ws m m' → ForallOrdPairs (λ w w', apart w' w) ws → Forall (λ w, available w.1 w.2 m) ws →
  Forall (λ w, settled w.1 w.2 m') ws ∧
  ∀ dev W, Forall (λ w, w.1 ≠ dev) ws → settled dev W m → settled dev W m'.
Proof.
  induction 1 as [m|dev0 W0 ws m m1 m2 Hr _ IH]; intros Hap Hav; [by split|].
  apply Forall_cons in Hav as [Hav0 Hav]. inversion Hap as [|? ? Hap0 Hap']; subst.
  destruct IH as [IH1 IH2]; [done| |].
  { rewrite Forall_forall in Hav, Hap0. apply Forall_forall. intros w Hin. destruct (Hap0 _ Hin) as [_ Hdis].
    eapply available_step; [exact Hdis|by apply Hav|exact Hr]. }
  split.
  - constructor; [|done]. apply IH2; [|by eapply settled_here].
    eapply Forall_impl; [exact Hap0|]. intros w [Hne _]. exact Hne.
  - intros dev W [Hne Hall]%Forall_cons Hs. apply IH2; [done|]. eapply settled_step; [|done|exact Hr]. cbn in Hne. congruence.
Qed.

Lemma settled_quiet dev W s :
  kernel_wf (local s) → word P → map_wf W → settled dev W (local s) →
  wp (MissingRoutes config dev W) (λ r s', r = Ok [] ∧ local s' = local s) s ∧
  wp (ExtraRoutes config dev W) (λ r s', r = Ok [] ∧ local s' = local s) s.
Proof.
  intros Hwf HP HW Hs.
  assert (Hnil : ∀ (Q : string → Prop) (f : IPAddr → Handle) dests,
            (∀ d, d ∈ addr_String <$> dests ↔ Q d) → (∀ d, ¬ Q d) → f <$> dests = []).
  { intros Q f [|a dests] HQ Hn; [done|]. destruct (Hn (addr_String a)). apply HQ. by left. }
  split.
  - eapply wp_mono; [by apply wp_MissingRoutes|]. intros r s' [Hs' (dests & -> & _ & Hd)].
    split; [|exact Hs']. f_equal. apply (Hnil _ _ _ Hd). intros d. apply (Hs d).
  - eapply wp_mono; [by apply wp_ExtraRoutes, HP|]. intros r s' [Hs' (dests & -> & _ & Hd)].
    split; [|exact Hs']. f_equal. apply (Hnil _ _ _ Hd). intros d. apply (Hs d).
Qed.

Lemma reconcile_wf ws m m' :
  reconcile_all ws m m' → kernel_wf m → Forall (λ w, word w.1 ∧ map_wf w.2) ws → kernel_wf m'.
Proof.
  induction 1 as [|dev W ws m m1 m2 Hr _ IH]; intros Hm Hw; [done|]. apply Forall_cons in Hw as [[_ HW] Hw].
  apply IH; [|done]. by eapply reconciled_wf.
Qed.

(** Set-up converges: when the devices want different destinations and no
    other device holds one of them, after one set-up every listing answers that
    nothing is missing and nothing is extra, which is the test the module makes
    before it sets up again. *)
Theorem Setup_settles (nics : list Configuration) (s : S) :
  kernel_wf (local s) → word P →
  Forall (λ w, word w.1 ∧ map_wf w.2) (omap wants (FilteredNICConfigs nics)) →
  ForallOrdPairs (λ w w', apart w' w) (omap wants (FilteredNICConfigs nics)) →
  Forall (λ w, available w.1 w.2 (local s)) (omap wants (FilteredNICConfigs nics)) →
  wp (Setup config nics)
    (λ err s', err = None ∧
       Forall (λ w, wp (MissingRoutes config w.1 w.2) (λ r s2, r = Ok [] ∧ local s2 = local s') s' ∧
                    wp (ExtraRoutes config w.1 w.2) (λ r s2, r = Ok [] ∧ local s2 = local s') s')
         (omap wants (FilteredNICConfigs nics))) s.
Proof.
  intros Hwf HP Hw Hap Hav. eapply wp_mono; [by apply wp_Setup|]. intros r s' [-> H']. split; [done|].
  destruct (reconcile_settles _ _ _ H' Hap Hav) as [Hset _]. pose proof (reconcile_wf _ _ _ H' Hwf Hw) as Hwf'.
  apply Forall_forall. intros w Hin. rewrite Forall_forall in Hw, Hset. destruct (Hw _ Hin). by apply settled_quiet; [..|apply Hset].
Qed.

(** ** Removing the agent's routes *)
Lemma wp_delete_all dev rs hs s :
  dev ≠ "" → NoDup rs.*1 → Forall2 (λ (r : string * kroute) h, found dev r.1 r.2 h) rs hs →
  (∀ d k, (d, k) ∈ rs → local s !! d = Some k ∧ k_dev k = dev) →
  wp (delete_all hs) (λ err s', err = None ∧
    ∀ d, local s' !! d = if bool_decide (d ∈ rs.*1) then None else local s !! d) s.
Proof.
  intros Hdev Hnd HF Hin. unfold delete_all. wp_step.
  apply (wp_mono _ (λ r s', r = inl tt ∧ ∀ d, local s' !! d = if bool_decide (d ∈ rs.*1) then None else local s !! d));
    [|intros r s' [-> H']; by apply wp_ret].
  revert s Hnd Hin. induction HF as [|[d k] h rs hs Hh HF IH]; intros s Hnd Hin.
  { apply wp_ret. split; [done|]. intros d. by rewrite bool_decide_false by apply not_elem_of_nil. }
  cbn [fmap list_fmap] in Hnd. apply NoDup_cons in Hnd as [Hd Hnd]. destruct (Hin d k) as [Hk Hkd]; [by left|].
  cbn [for_until]. wp_step. wp_step.
  eapply wp_mono; [apply (wp_Delete h d k); [by rewrite Hkd|by rewrite Hkd|done]|].
  intros err s1 [-> Hs1]. wp_step. cbn. eapply wp_mono; [apply IH; [done|]|].
  { intros d' k' Hin'. destruct (Hin d' k') as [H1 H2]; [by right|]. split; [|done]. rewrite Hs1, lookup_delete_ne; [done|].
    intros <-. apply Hd. by apply (list_elem_of_fmap_2 fst) in Hin'. }
  intros r s2 [-> H2]. split; [done|]. intros d'. rewrite H2, Hs1. cbn [fmap list_fmap fst].
  destruct (decide (d' = d)) as [->|Hne].
  - rewrite (bool_decide_true (_ ∈ _ :: _)) by (by left). rewrite lookup_delete_eq. by case_bool_decide.
  - rewrite lookup_delete_ne by done. destruct (bool_decide (d' ∈ rs.*1)) eqn:E.
    + apply bool_decide_eq_true in E. by rewrite bool_decide_true by (by right).
    + apply bool_decide_eq_false in E. by rewrite bool_decide_false by (by apply not_elem_of_cons).
Qed.

(** [RemoveRoutes] removes the agent's routes of the device, all of them,
    and no other route. *)
Theorem RemoveRoutes_removes (dev : string) (s : S) :
  kernel_wf (local s) → P ≠ "" → dev ≠ "" →
  wp (RemoveRoutes config dev)
    (λ err s', err = None ∧ ∀ d, local s' !! d =
       match local s !! d with
       | Some k => if bool_decide (k_dev k = dev ∧ k_proto k = P) then None else Some k
       | None => None
       end) s.
Proof.
  intros Hwf HP Hdev. unfold RemoveRoutes. wp_step. eapply wp_mono; [by apply wp_Find|].
  intros r s1 [Hs1 (rs & hs & -> & Hrs & HF)]. cbn beta iota. wp_step.
  assert (Hin : ∀ d k, (d, k) ∈ rs ↔ local s !! d = Some k ∧ k_dev k = dev ∧ k_proto k = P).
  { intros d k. rewrite Hrs, list_elem_of_filter, elem_of_map_to_list. unfold matches. cbn. naive_solver. }
  eapply wp_mono; [apply (wp_delete_all dev rs hs); [done|by eapply NoDup_matching|done|]|].
  { intros d k (? & ? & ?)%Hin. by rewrite Hs1. }
  intros err s2 [-> H2]. cbn beta iota. rewrite Hs1 in H2.
  assert (Hd : ∀ d, local s2 !! d = match local s !! d with
       | Some k => if bool_decide (k_dev k = dev ∧ k_proto k = P) then None else Some k | None => None end).
  { intros d. rewrite H2. destruct (local s !! d) as [k|] eqn:E.
    - erewrite (bool_decide_ext (d ∈ rs.*1)); [reflexivity|]. rewrite list_elem_of_fmap. split.
      + intros ([d' k'] & -> & (Hk' & ?)%Hin). cbn in E. rewrite E in Hk'. by injection Hk' as <-.
      + intros ?. exists (d, k). split; [done|]. by apply Hin.
    - by case_bool_decide. }
  wp_step. eapply wp_mono; [apply wp_Find|].
  { intros d k Hk. rewrite Hd in Hk. destruct (local s !! d) eqn:E; [|done]. by eapply Hwf. }
  intros r s3 [Hs3 (rs3 & hs3 & -> & Hrs3 & HF3)]. cbn beta iota.
  assert (rs3 = []) as ->.
  { destruct rs3 as [|[d k] rs3]; [done|]. exfalso.
    assert ((d, k) ∈ filter (λ r, matches dev P "host" r.2) (map_to_list (local s2))) as H' by (rewrite <-Hrs3; by left).
    apply list_elem_of_filter in H' as [(Hk1 & Hk2 & _) Hk%elem_of_map_to_list]. rewrite Hd in Hk.
    destruct (local s !! d) as [k'|]; [|done]. case_bool_decide as Hb; [done|]. injection Hk as <-. naive_solver. }
  apply Forall2_nil_inv_l in HF3 as ->. apply wp_ret. split; [done|]. intros d. by rewrite Hs3.
Qed.
End operations.

(** ** An implementation of [IpRoute] *)
Section kernel.

(** A system whose only state is the local table. *)
Abbreviation kernel := (gmap string kroute).

Definition route_ok (r : string * kroute) : Prop :=
  word r.1 ∧ word (k_dev r.2) ∧ word (k_proto r.2) ∧ word (k_scope r.2).

#[local] Instance route_ok_dec r : Decision (route_ok r).
Proof. unfold route_ok. apply _. Defined.

Definition kernel_local (m : kernel) : gmap string kroute := filter route_ok m.
Definition kernel_entry (r : string * kroute) : entry :=
  mkEntry true r.1 [("dev", k_dev r.2); ("proto", k_proto r.2); ("scope", k_scope r.2)].

Definition arg (args : list string) (key : string) : string := default "" (entry_pairs args ∅ !! key).

#[local] Instance kernel_run : Runner kernel := λ c m,
  Some (match Accounts.argv c with
        | "ip" :: "route" :: "list" :: args =>
            let rs := filter (λ r, matches (arg args "dev") (arg args "proto") (arg args "scope") r.2) (map_to_list (kernel_local m)) in
            (m, Accounts.RunOk (unlines (entry_line ∘ kernel_entry <$> rs)))
        | "ip" :: "route" :: "add" :: "to" :: _ :: d :: args =>
            if bool_decide (is_Some (kernel_local m !! d)) then (m, Accounts.RunExit 2)
            else (<[d := mkRoute (arg args "dev") (arg args "proto") "host"]> m, Accounts.RunOk "")
        | "ip" :: "route" :: "delete" :: "to" :: _ :: d :: args =>
            if bool_decide (is_Some (kernel_local m !! d)) then (delete d m, Accounts.RunOk "") else (m, Accounts.RunExit 2)
        | _ => (m, Accounts.RunExit 1)
        end).

Lemma list_args_arg scope proto dev key :
  arg (tail (tail (list_args (mkOptions "local" "local" scope proto dev)))) key =
    if bool_decide (key = "dev") then dev else if bool_decide (key = "proto") then proto
    else if bool_decide (key = "type") then "local" else if bool_decide (key = "scope") then scope
    else if bool_decide (key = "table") then "local" else "".
Proof.
  unfold arg, list_args, opt_args. cbn [o_Table o_Scope o_Type o_Proto o_Device app tail newArgs].
  repeat case_bool_decide; subst; cbn [app entry_pairs]; by rewrite ?lookup_insert_eq, ?lookup_insert_ne by done.
Qed.

Lemma kernel_list args inp m :
  run_with (Accounts.mkCommand ("ip" :: "route" :: "list" :: args) inp) m =
    Some (m, Accounts.RunOk (unlines (entry_line ∘ kernel_entry <$>
      filter (λ r, matches (arg args "dev") (arg args "proto") (arg args "scope") r.2) (map_to_list (kernel_local m))))).
Proof. reflexivity. Qed.

Lemma kernel_local_ok m r : r ∈ map_to_list (kernel_local m) → route_ok r.
Proof. destruct r as [d k]. intros [_ H]%elem_of_map_to_list%map_lookup_filter_Some. exact H. Qed.

Lemma kernel_entry_for r : route_ok r → entry_for (k_dev r.2) r.1 r.2 (kernel_entry r).
Proof.
  intros (Hd & Hdev & Hp & Hs). split; [done| |by left|].
  - repeat (constructor; [by first [done|split; [done|by repeat constructor]]|]). constructor.
  - repeat constructor; done.
Qed.

#[local] Program Instance kernel_IpRoute : IpRoute kernel :=
  {| local := kernel_local; scope_of := λ _, "host" |}.
Next Obligation.
  intros m scope proto dev. exists m.
  set (rs := filter (λ r, matches dev proto scope r.2) (map_to_list (kernel_local m))).
  exists rs, (kernel_entry <$> rs). split_and!; [|done|done|].
  - change (list_command scope proto dev) with (Accounts.mkCommand
      ("ip" :: "route" :: "list" :: tail (tail (list_args (mkOptions "local" "local" scope proto dev)))) "").
    rewrite kernel_list, !list_args_arg. cbn -[unlines]. fold rs. by rewrite <-list_fmap_compose.
  - apply Forall2_fmap_r, Forall_Forall2_diag, Forall_forall. intros r [(Hdev & _) Hr]%list_elem_of_filter.
    cbn. rewrite <-Hdev. by apply kernel_entry_for, (kernel_local_ok m).
Qed.
Next Obligation.
  intros m d dev proto Hd Hwd Hwdev Hwp. exists (<[d := mkRoute dev proto "host"]> m), "". split.
  - unfold run_with, kernel_run, add_command, ip_command, add_args, opt_args. cbn [newArgs app Accounts.argv].
    rewrite (bool_decide_false (is_Some _)) by (rewrite Hd; by intros []).
    rewrite (bool_decide_true (_ = _)), (bool_decide_false (dev = "")), (bool_decide_false (proto = "")) by (done || apply Hwdev || apply Hwp).
    unfold arg. cbn [app entry_pairs]. rewrite lookup_insert_eq, lookup_insert_ne, lookup_insert_eq by done. done.
  - unfold kernel_local. rewrite map_filter_insert_True; [done|]. split_and!; try done. split; [done|by repeat constructor].
Qed.
Next Obligation.
  intros m d dev proto Hd. exists m. split; [|done].
  unfold run_with, kernel_run, add_command, ip_command, add_args. cbn [newArgs app Accounts.argv].
  by rewrite (bool_decide_true (is_Some _)).
Qed.
Next Obligation.
  intros m d k scope proto Hd _ _. exists (delete d m), "". split.
  - unfold run_with, kernel_run, delete_command, ip_command, delete_args. cbn [newArgs app Accounts.argv].
    by rewrite (bool_decide_true (is_Some _)) by (by eexists).
  - apply map_filter_delete.
Qed.

(** A device with one of the agent's routes that is no longer wanted, one of
    the kernel's, and one of another program; two are wanted, one of them is
    the kernel's. *)
Definition example_kernel : kernel :=
  <["10.0.0.1" := mkRoute "ens4" "66" "host"]> (<["10.0.0.2" := mkRoute "ens4" "kernel" "host"]>
  (<["10.0.0.3" := mkRoute "eth9" "static" "host"]> ∅)).

Definition example_wanted : IPAddressMap := NewIPAddressMap ["10.0.0.2"; "10.0.0.4/32"] ∅.

Definition example_conf : Configuration :=
  mkConfiguration 0 false false "42:01:0a:00:00:02" (Some example_iface) [] (Some (mkExtra (Some example_wanted) None None)).

Definition kernel_wf_b (m : gmap string kroute) : bool :=
  forallb (λ r : string * kroute, match ParseIP r.1 with Ok a => bool_decide (addr_String a = r.1) | Err _ => false end) (map_to_list m).

Lemma kernel_wf_dec m : kernel_wf_b m = true → kernel_wf m.
Proof.
  unfold kernel_wf_b. rewrite forallb_forall. intros H d k Hk. specialize (H (d, k)).
  rewrite <-list_elem_of_In, elem_of_map_to_list in H. specialize (H Hk). cbn in H.
  destruct (ParseIP d) as [a|]; [|done]. apply bool_decide_eq_true in H. eauto.
Qed.

Lemma example_wants :
  omap wants (FilteredNICConfigs [example_conf]) = [("ens4", MergedMap (mkExtra (Some example_wanted) None None))].
Proof. reflexivity. Qed.

Lemma example_wanted_wf : map_wf (MergedMap (mkExtra (Some example_wanted) None None)).
Proof. rewrite MergedMap_parts. cbn [part Extra_IPAliases TargetInstanceIPs ForwardedIPs]. rewrite !(left_id ∅ (∪)). apply NewIPAddressMap_facts. Qed.

Definition available_b (dev : string) (W : IPAddressMap) (m : gmap string kroute) : bool :=
  forallb (λ r : string * kroute, bool_decide (W !! r.1 = None ∨ k_dev r.2 = dev)) (map_to_list m).

Lemma available_dec dev W m : available_b dev W m = true → available dev W m.
Proof.
  unfold available_b. rewrite forallb_forall. intros H d k HW Hk. specialize (H (d, k)).
  rewrite <-list_elem_of_In, elem_of_map_to_list, bool_decide_eq_true in H. destruct (H Hk) as [E|E]; [|exact E].
  cbn in E. rewrite E in HW. by destruct HW.
Qed.

Lemma example_word w : bool_decide (word w) = true → word w.
Proof. apply bool_decide_eq_true. Qed.

Lemma Setup_reconciles_witness :
  wp (Setup example_sections [example_conf])
    (λ err s', err = None ∧ reconcile_all example_sections (S := kernel) (omap wants (FilteredNICConfigs [example_conf]))
                 (kernel_local example_kernel) (kernel_local s')) example_kernel ∧
  (∃ s', Setup example_sections [example_conf] example_kernel = Some (s', None) ∧
     s' !! "10.0.0.1" = None ∧ s' !! "10.0.0.2" = Some (mkRoute "ens4" "kernel" "host") ∧
     s' !! "10.0.0.3" = Some (mkRoute "eth9" "static" "host") ∧ s' !! "10.0.0.4" = Some (mkRoute "ens4" "66" "host")).
Proof.
  split.
  - eapply wp_mono.
    + apply (Setup_reconciles example_sections [example_conf] example_kernel).
      * apply kernel_wf_dec. vm_compute. reflexivity.
      * apply example_word. vm_compute. reflexivity.
      * rewrite example_wants. constructor; [|constructor]. split; [apply example_word; vm_compute; reflexivity|exact example_wanted_wf].
    + intros err s' H. exact H.
  - eexists. split; [vm_compute; reflexivity|]. split_and!; vm_compute; reflexivity.
Defined.

Lemma Setup_settles_witness :
  wp (Setup example_sections [example_conf])
    (λ err s', err = None ∧
       wp (MissingRoutes example_sections "ens4" (MergedMap (mkExtra (Some example_wanted) None None))) (λ r _, r = Ok []) s') example_kernel.
Proof.
  eapply wp_mono.
  - apply (Setup_settles example_sections [example_conf] example_kernel); rewrite ?example_wants.
    + apply kernel_wf_dec. vm_compute. reflexivity.
    + apply example_word. vm_compute. reflexivity.
    + constructor; [|constructor]. split; [apply example_word; vm_compute; reflexivity|exact example_wanted_wf].
    + repeat constructor.
    + constructor; [|constructor]. apply available_dec. vm_compute. reflexivity.
  - intros err s' [He Hall]. split; [exact He|]. rewrite example_wants in Hall. apply Forall_cons in Hall as [[Hm _] _].
    eapply wp_mono; [exact Hm|]. by intros r s2 [Hr _].
Defined.

Lemma RemoveRoutes_removes_witness :
  wp (RemoveRoutes example_sections "ens4") (λ err s', err = None ∧ kernel_local s' !! "10.0.0.1" = None) example_kernel.
Proof.
  eapply wp_mono.
  - apply (RemoveRoutes_removes example_sections "ens4" example_kernel); [|done|done].
    apply kernel_wf_dec. vm_compute. reflexivity.
  - intros err s' [He Hd]. split; [exact He|]. etransitivity; [exact (Hd "10.0.0.1")|vm_compute; reflexivity].
Defined.
End kernel.
End RouteFacts.
