(* ===== verification/NetworkManager.v ===== *)
(** * cmd/core_plugin/network: the network module and its managers

    manager_linux.go (the choice of the active manager, the roll-back of the
    others, the order of a set-up) and network.go (the module that reacts to
    the metadata), over any list of managers: the back ends are records of
    operations.  wsfc_linux.go is always off.  The state is the system of the
    managers and of the routes, the package state of nic.go, and the module. *)
From S2P Require Import Prelude GoStrings GoStringFacts Lru Os Accounts SshUtil Metadata OsInfo NetAddr NetAddrFacts Address Nic Route RouteFacts.

Module NetworkManager.
Import Address Nic.

(** ** internal/network/service *)

(** A network manager: [None] for a nil [Configure]. *)
Record Manager (S : Type) := mkManager {
  ID : string;
  Configure : option (M S (option error));
  IsManaging : list Configuration → M S (result bool);
  Setup : list Configuration → bool → M S (option error);
  Rollback : list Configuration → bool → M S (bool * option error);
}.
Arguments mkManager {S}.
Arguments ID {S}.
Arguments Configure {S}.
Arguments IsManaging {S}.
Arguments Setup {S}.
Arguments Rollback {S}.

(** ** manager_linux.go *)
Record networkChanged := mkChanged { ch_networkInterfaces : bool; ch_routes : bool }.

Section managers.
Context {S : Type} (managers : list (Manager S)) (config : Sections).

Fixpoint activeManager (ms : list (Manager S)) (opts : list Configuration) : M S (result (Manager S)) :=
  match ms with
  | [] => mret (Err (ErrMsg "no linux network management service module found"))
  | manager :: ms =>
      r ← IsManaging manager opts;
      match r with
      | Ok true => mret (Ok manager)
      | _ => activeManager ms opts
      end
  end.

(** The names of the managers rolled back, and whether one that is not active
    undid something. *)
Definition rollback (ms : list (Manager S)) (skipID : string) (opts : list Configuration) : M S (list string * bool) :=
  for_acc ms ([], false) (λ '(rolledBack, reloadRequired) manager,
    let active := bool_decide (ID manager = skipID) in
    '(changed, _) ← Rollback manager opts active;
    mret (rolledBack ++ [ID manager], reloadRequired || (changed && negb active))).

Definition runManagerSetup (opts : list Configuration) : M S (option error) :=
  if bool_decide (FilteredNICConfigs opts = []) then mret None
  else
    r ← activeManager managers opts;
    match r with
    | Err e => mret (Some (ErrWrap "failed to get active manager" e))
    | Ok active =>
        err ← (match Configure active with Some configure => configure | None => mret None end);
        match err with
        | Some e => mret (Some (ErrWrap ("failed to configure active manager(" +:+ ID active +:+ ")") e))
        | None =>
            '(_, reloadRequired) ← rollback managers (ID active) opts;
            err ← Setup active opts reloadRequired;
            mret (match err with
                  | Some e => Some (ErrWrap ("failed to setup network configuration(" +:+ ID active +:+ ")") e)
                  | None => None
                  end)
        end
    end.

Definition managerSetup `{Route.Runner S} (nics : list Configuration) (changed : networkChanged) : M S (option error) :=
  err ← (if ch_networkInterfaces changed && cfg_Setup config then runManagerSetup nics else mret None);
  match err with
  | Some e => mret (Some (ErrWrap "failed to setup network configuration" e))
  | None =>
      err ← Route.Setup config nics;
      mret (match err with Some e => Some (ErrWrap "failed to setup routes" e) | None => None end)
  end.
End managers.

(** ** network.go *)

(** The descriptor as the module uses it. *)
Record Descriptor := mkDescriptor {
  d_attributes : Metadata.Descriptor;
  d_instance : Instance_;
}.

Record module := mkModule {
  prevMetadata : option Descriptor;
  wsfcEnabled : bool;
  failedConfiguration : bool;
}.

Definition initial_module : module := mkModule None false false.

Record state (S : Type) := mkNet {
  sys : S;
  nic_pkg : Nic.state;
  the_mod : module;
}.
Arguments mkNet {S}.
Arguments sys {S}.
Arguments nic_pkg {S}.
Arguments the_mod {S}.

(** [wsfc.Enabled] on Linux. *)
Definition wsfc_Enabled (mds : Descriptor) (config : Sections) : bool := false.

(** network_early_linux.go. *)
Definition platformEarlyInit : option error := None.

Section module.
Context {S : Type} `{Route.Runner S} `{NetInterfaces} `{VlanOrder}.
Context (managers : list (Manager S)) (config : Sections).

Definition on_sys {A} (m : M S A) : M (state S) A := zoom sys (λ t s, mkNet t (nic_pkg s) (the_mod s)) m.
Definition on_nics {A} (m : M Nic.state A) : M (state S) A := zoom nic_pkg (λ t s, mkNet (sys s) t (the_mod s)) m.
Definition set_mod (m : module) : M (state S) unit := modify (λ s, mkNet (sys s) (nic_pkg s) m).

(** [reflect.DeepEqual] is equality: slices keep nil apart from empty. *)
Definition networkMetadataChanged (m : module) (mds : Descriptor) : bool :=
  match prevMetadata m with
  | None => true
  | Some prev =>
      negb (Bool.eqb (wsfcEnabled m) (wsfc_Enabled mds config)) ||
      negb (bool_decide (NetworkInterfaces (d_instance prev) = NetworkInterfaces (d_instance mds))) ||
      negb (bool_decide (VlanInterfaces (d_instance prev) = VlanInterfaces (d_instance mds)))
  end.

(** [MergedMap] of a nil pointer panics. *)
Fixpoint routeChanged (nicConfigs : list Configuration) : M S bool :=
  match nicConfigs with
  | [] => mret false
  | nic :: rest =>
      match Invalid nic, Interface_ nic with
      | false, Some iface =>
          extra ← some_or_panic (ExtraAddresses_ nic);
          let wantedRoutes := MergedMap extra in
          missing ← Route.MissingRoutes config (Name iface) wantedRoutes;
          match missing with
          | Err _ => routeChanged rest
          | Ok (_ :: _) => mret true
          | Ok [] =>
              extra ← Route.ExtraRoutes config (Name iface) wantedRoutes;
              match extra with
              | Err _ => routeChanged rest
              | Ok (_ :: _) => mret true
              | Ok [] => routeChanged rest
              end
          end
      | _, _ => routeChanged rest
      end
  end.

(** The deferred function runs on every return. *)
Definition networkSetup (mds : Descriptor) : M (state S) (bool * option error) :=
  let return_ (failedSetup noop : bool) (err : option error) : M (state S) (bool * option error) :=
    m ← gets the_mod;
    _ ← set_mod (mkModule (Some mds) (wsfcEnabled m) failedSetup);
    mret (noop, err) in
  m ← gets the_mod;
  _ ← when (wsfc_Enabled mds config) (set_mod (mkModule (prevMetadata m) true (failedConfiguration m)));
  nicConfigs ← on_nics (NewConfigs (d_instance mds) config ∅);
  match nicConfigs with
  | Err e => return_ false false (Some (ErrFmt "failed to create nic configs" e))
  | Ok nicConfigs =>
      m ← gets the_mod;
      let metadataChanged := networkMetadataChanged m mds in
      changed ← on_sys (routeChanged nicConfigs);
      if negb metadataChanged && negb changed && negb (failedConfiguration m) then return_ false true None
      else
        err ← on_sys (managerSetup managers config nicConfigs (mkChanged metadataChanged changed));
        match err with
        | Some e => return_ true false (Some (ErrFmt "failed to setup network interfaces" e))
        | None => return_ false false None
        end
  end.

(** The subscriber: whether to renew it, whether nothing was done, the error. *)
Definition metadataSubscriber (data : option Descriptor) (data_error : option error) : M (state S) (bool * bool * option error) :=
  match data with
  | None => mret (false, true, Some (ErrMsg "event's data is not a metadata descriptor"))
  | Some desc =>
      match data_error with
      | Some e => mret (true, true, Some (ErrFmt "metadata event watcher reported error" e))
      | None =>
          if Metadata.AddressManagerDisabled (d_attributes desc) then mret (true, true, None)
          else
            '(noop, err) ← networkSetup desc;
            mret (true, noop, err)
      end
  end.

(** [setup] up to the subscription: an error, or whether the module subscribes.
    [fetched] is what the metadata client returned. *)
Definition setup (fetched : result Descriptor) : M (state S) (bool * option error) :=
  if negb (cfg_NetworkDaemon config) then mret (false, None)
  else match cfg_AddressManagerDisable config with
  | Some true => mret (false, None)
  | _ =>
      match fetched with
      | Err e => mret (false, Some (ErrFmt "failed to get metadata descriptor" e))
      | Ok desc =>
          if Metadata.AddressManagerDisabled (d_attributes desc) then mret (true, None)
          else
            match platformEarlyInit with
            | Some e => mret (false, Some (ErrFmt "failed to perform early network initialization" e))
            | None => _ ← networkSetup desc; mret (true, None)
            end
      end
  end.
End module.

(** ** What a set-up leaves behind *)
Section theorems.
Context {S : Type} `{Route.Runner S} `{NetInterfaces} `{VlanOrder} (config : Sections).

Definition remembers (mds : Descriptor) (s : state S) : Prop :=
  prevMetadata (the_mod s) = Some mds ∧ wsfcEnabled (the_mod s) = false.

Lemma on_sys_mod {A} (m : M S A) (s s' : state S) a :
  on_sys m s = Some (s', a) → the_mod s' = the_mod s ∧ nic_pkg s' = nic_pkg s ∧ m (sys s) = Some (sys s', a).
Proof. unfold on_sys, zoom. destruct (m (sys s)) as [[t b]|]; [|done]. by intros [= <- <-]. Qed.

Lemma on_nics_mod {A} (m : M Nic.state A) (s s' : state S) a :
  on_nics m s = Some (s', a) → the_mod s' = the_mod s ∧ sys s' = sys s ∧ m (nic_pkg s) = Some (nic_pkg s', a).
Proof. unfold on_nics, zoom. destruct (m (nic_pkg s)) as [[t b]|]; [|done]. by intros [= <- <-]. Qed.

(** Every return of [networkSetup] records the metadata. *)
Lemma networkSetup_remembers managers mds (s s1 : state S) r :
  wsfcEnabled (the_mod s) = false → networkSetup managers config mds s = Some (s1, r) → remembers mds s1.
Proof.
  intros Hw. unfold networkSetup, mbind, M_bind, gets, when, wsfc_Enabled, mret, M_ret, set_mod, modify. cbn.
  destruct (on_nics _ s) as [[s2 [nics|e]]|] eqn:E1; [|intros [= <- _]; by apply on_nics_mod in E1 as (-> & _)|done].
  apply on_nics_mod in E1 as (Em & _). destruct (on_sys (routeChanged _ _) s2) as [[s3 c]|] eqn:E2; [|done].
  apply on_sys_mod in E2 as (Em' & _). destruct (_ && _ && _).
  { intros [= <- _]. split; [done|]. cbn. by rewrite Em', Em. }
  destruct (on_sys (managerSetup _ _ _ _) s3) as [[s4 [e|]]|] eqn:E3; [..|done];
    apply on_sys_mod in E3 as (Em'' & _); intros [= <- _]; (split; [done|]); cbn; by rewrite Em'', Em', Em.
Qed.

(** Metadata that is remembered is no change, and the managers are not asked. *)
Lemma remembered_unchanged mds (s : state S) : remembers mds s → networkMetadataChanged config (the_mod s) mds = false.
Proof. intros [Hp Hw]. unfold networkMetadataChanged. rewrite Hp, Hw. by rewrite !bool_decide_true. Qed.

Lemma remembered_skips_managers managers managers' mds (s : state S) :
  remembers mds s → networkSetup managers config mds s = networkSetup managers' config mds s.
Proof.
  intros Hr. unfold networkSetup, mbind, M_bind, gets, when, wsfc_Enabled, mret, M_ret. cbn.
  destruct (on_nics _ s) as [[s2 [nics|e]]|] eqn:E1; [|done..].
  apply on_nics_mod in E1 as (Em & _). rewrite Em, remembered_unchanged by done.
  destruct (on_sys (routeChanged _ _) s2) as [[s3 c]|] eqn:E2; [|done]. destruct (_ && _ && _); [done|]. reflexivity.
Qed.

(** A set-up that fails, in a manager, in the routes or before that in
    building the configurations, is never tried again: it has recorded the
    metadata, so the next event with the same metadata, which
    [failedConfiguration] lets through, asks no network manager for anything:
    it does what it would do if there were none. *)
Theorem failed_setup_is_not_retried (managers : list (Manager S)) (mds : Descriptor) (s s1 : state S) (noop : bool) (e : error) :
  wsfcEnabled (the_mod s) = false →
  networkSetup managers config mds s = Some (s1, (noop, Some e)) →
  networkSetup managers config mds s1 = networkSetup [] config mds s1.
Proof. intros Hw E. by eapply remembered_skips_managers, networkSetup_remembers. Qed.

(** The VLANs of two NICs reach the descriptor in the order of a range over a
    map, and are compared as a slice. *)
Theorem vlan_order_is_a_change (attrs : Metadata.Descriptor) (i : instance) (k1 k2 : Z) (m1 m2 : gmap Z vlanInterface) (failed : bool) :
  i_VlanNetworkInterfaces i !! k1 = Some m1 → i_VlanNetworkInterfaces i !! k2 = Some m2 → m1 ≠ m2 →
  networkMetadataChanged config
    (mkModule (Some (mkDescriptor attrs (newInstance [k1; k2] i))) false failed)
    (mkDescriptor attrs (newInstance [k2; k1] i)) = true.
Proof.
  intros Hm1 Hm2 Hne. unfold networkMetadataChanged, newInstance. cbn. rewrite Hm1, Hm2.
  rewrite (bool_decide_false ([m1; m2] = _)) by congruence. by rewrite orb_true_r.
Qed.
End theorems.

(** ** Convergence *)
Section convergence.
Context {S : Type} `{RouteFacts.IpRoute S} `{NetInterfaces} `{VlanOrder} (config : Sections).
Import RouteFacts.
Local Notation P := (cfg_EthernetProtoID config).

Definition keeps_routes : relation S := λ s s', local s' = local s.

#[local] Instance keeps_routes_preorder : PreOrder keeps_routes.
Proof. split; [done|]. intros a b c ? ?. unfold keeps_routes in *. congruence. Qed.

(** Managers that leave the local table alone. *)
Record routes_apart (m : Manager S) : Prop := {
  ra_configure c : Configure m = Some c → respects keeps_routes c;
  ra_managing opts : respects keeps_routes (IsManaging m opts);
  ra_setup opts b : respects keeps_routes (Setup m opts b);
  ra_rollback opts b : respects keeps_routes (Rollback m opts b);
}.

Lemma respects_active ms opts :
  Forall routes_apart ms → respects keeps_routes (activeManager ms opts) ∧
  ∀ s s' m, activeManager ms opts s = Some (s', Ok m) → routes_apart m.
Proof.
  induction 1 as [|m ms Hm _ [IH1 IH2]]; cbn [activeManager].
  { split; [apply respects_ret; apply _|]. by intros s s' m [=]. }
  split.
  - apply respects_bind; [apply _|apply Hm|]. intros [[]|]; auto. apply respects_ret; apply _.
  - intros s s' m'. unfold mbind, M_bind. destruct (IsManaging m opts s) as [[s1 [[]|]]|]; [|by apply IH2|by apply IH2|done].
    by intros [= _ <-].
Qed.

Lemma respects_rollback ms skip opts : Forall routes_apart ms → respects keeps_routes (rollback ms skip opts).
Proof.
  intros Hms. unfold rollback. generalize ([] : list string, false). induction Hms as [|m ms Hm _ IH]; intros acc; cbn [for_acc].
  { apply respects_ret; apply _. }
  apply respects_bind; [apply _| |intros; apply IH]. destruct acc as [ids rr].
  apply respects_bind; [apply _|apply Hm|]. intros [c e]. apply respects_ret; apply _.
Qed.

Lemma respects_bind_post {A B} (R : relation S) `{!PreOrder R} (Q : A → Prop) (m : M S A) (f : A → M S B) :
  (∀ s s' a, m s = Some (s', a) → R s s' ∧ Q a) → (∀ a, Q a → respects R (f a)) → respects R (m ≫= f).
Proof.
  intros Hm Hf s s' b. unfold mbind, M_bind. destruct (m s) as [[s1 a]|] eqn:E; [|done].
  destruct (Hm _ _ _ E) as [HR HQ]. intros Hb. etrans; [exact HR|by eapply Hf].
Qed.

Lemma respects_runManagerSetup managers opts :
  Forall routes_apart managers → respects keeps_routes (runManagerSetup managers opts).
Proof.
  intros Hms. unfold runManagerSetup. case_bool_decide; [apply respects_ret; apply _|].
  destruct (respects_active managers opts Hms) as [Hact Hone].
  apply (respects_bind_post _ (λ r, match r with Ok m => routes_apart m | Err _ => True end)).
  { intros s s' r E. split; [by eapply Hact|]. destruct r; [by eapply Hone|done]. }
  intros [m|e] Hm; [|apply respects_ret; apply _]. apply respects_bind; [apply _| |].
  - destruct (Configure m) eqn:Ec; [by eapply ra_configure|apply respects_ret; apply _].
  - intros [e|]; [apply respects_ret; apply _|]. apply respects_bind; [apply _|by apply respects_rollback|].
    intros [ids rr]. apply respects_bind; [apply _|by apply ra_setup|]. intros err. apply respects_ret, _.
Qed.

(** The test of the routes changes nothing, and passes on a system that is set
    up. *)
Lemma wp_routeChanged nics s :
  kernel_wf (local s) → word P →
  Forall (λ c, ∃ x, ExtraAddresses_ c = Some x ∧ map_wf (MergedMap x)) nics →
  wp (routeChanged config nics)
    (λ b s', keeps_routes s s' ∧
       (Forall (λ w, settled config w.1 w.2 (local s)) (omap wants (FilteredNICConfigs nics)) → b = false)) s.
Proof.
  intros Hwf HP. revert s Hwf. induction nics as [|c nics IH]; intros s Hwf Hx; cbn [routeChanged]; [by apply wp_ret|].
  apply Forall_cons in Hx as [(extra & Ex & Hmap) Hx]. unfold FilteredNICConfigs in *.
  destruct (Invalid c) eqn:Ei; [rewrite filter_cons_False by congruence; by apply IH|rewrite filter_cons_True by done].
  destruct (Interface_ c) as [iface|] eqn:Ef.
  2: { eapply wp_mono; [by apply IH|]. intros b s' [? Hb]. split; [done|]. cbn [omap list_omap].
       assert (wants c = None) as -> by (unfold wants; by rewrite Ef). exact Hb. }
  rewrite Ex. set (W := MergedMap extra) in *. cbn [omap list_omap some_or_panic].
  assert (wants c = Some (Name iface, W)) as -> by (unfold wants; by rewrite Ef, Ex).
  wp_step. apply wp_ret. cbv zeta. wp_step. eapply wp_mono; [by apply wp_MissingRoutes|].
  intros r s1 [Hs1 (ms & -> & _ & Hms)]. cbn beta iota.
  destruct ms as [|a ms]; cbn [fmap list_fmap].
  2: { apply wp_ret. split; [exact Hs1|]. intros [Hset _]%Forall_cons. exfalso.
       destruct (Hset (addr_String a)) as [[] _]. apply Hms. by left. }
  wp_step. eapply wp_mono; [apply wp_ExtraRoutes; [by rewrite Hs1|apply HP]|]. intros r s2 [Hs2 (xs & -> & _ & Hxs)]. cbn beta iota.
  destruct xs as [|a xs]; cbn [fmap list_fmap].
  2: { apply wp_ret. split; [by unfold keeps_routes; rewrite Hs2|]. intros [Hset _]%Forall_cons. exfalso.
       destruct (Hset (addr_String a)) as [_ []]. rewrite <-Hs1. apply Hxs. by left. }
  assert (Hk : local s2 = local s) by (by rewrite Hs2).
  eapply wp_mono; [apply IH; [by rewrite Hk|done]|]. intros b s3 [Hs3 Hb]. split.
  - unfold keeps_routes in *. by rewrite Hs3.
  - intros [_ Hall]%Forall_cons. apply Hb. by rewrite Hk.
Qed.

Lemma extra_ok_wf nics :
  Forall (extra_ok config ∅) nics → Forall (λ c, ∃ x, ExtraAddresses_ c = Some x ∧ map_wf (MergedMap x)) nics.
Proof.
  intros HF. eapply Forall_impl; [exact HF|]. intros c [nic E]. eexists. split; [exact E|]. apply NewExtraAddresses_wf.
Qed.

Lemma wants_wf nics :
  Forall (λ c, ∃ x, ExtraAddresses_ c = Some x ∧ map_wf (MergedMap x)) nics →
  Forall (λ w, map_wf w.2) (omap wants (FilteredNICConfigs nics)).
Proof.
  rewrite !Forall_forall. intros HF w (c & Hc & Hw)%list_elem_of_omap. apply list_elem_of_filter in Hc as [_ Hc].
  destruct (HF _ Hc) as (x & Ex & Hx). unfold wants in Hw. destruct (Interface_ c); [|done]. rewrite Ex in Hw.
  by injection Hw as <-.
Qed.

Lemma wp_some {A} (m : M S A) (Q : A → S → Prop) s s' a : wp m Q s → m s = Some (s', a) → Q a s'.
Proof. unfold wp. intros Hq E. by rewrite E in Hq. Qed.

(** A set-up that is not quiet ends with the set-up of the routes, after
    whatever the managers did. *)
Lemma networkSetup_routes managers mds (s s1 : state S) p nics :
  wsfcEnabled (the_mod s) = false → kernel_wf (local (sys s)) → word P → Forall routes_apart managers →
  networkSetup managers config mds s = Some (s1, (false, None)) →
  NewConfigs (d_instance mds) config ∅ (nic_pkg s) = Some (p, Ok nics) →
  failedConfiguration (the_mod s1) = false ∧
  ∃ t, local t = local (sys s) ∧ Route.Setup config nics t = Some (sys s1, None).
Proof.
  intros Hw Hwf HP Hms E Hc.
  pose proof (extra_ok_wf _ (NewConfigs_extra _ _ _ _ _ _ Hc)) as Hx. revert E.
  unfold networkSetup, mbind, M_bind, gets, when, wsfc_Enabled, mret, M_ret, set_mod, modify. cbn.
  destruct (on_nics _ s) as [[s2 r2]|] eqn:E2; [|done]. apply on_nics_mod in E2 as (Em & Es & E2).
  rewrite Hc in E2. injection E2 as Ep <-.
  destruct (on_sys (routeChanged _ _) s2) as [[s3 c]|] eqn:E3; [|done]. apply on_sys_mod in E3 as (_ & _ & E3).
  apply (wp_some _ _ _ _ _ (wp_routeChanged nics (sys s2) ltac:(by rewrite Es) HP Hx)) in E3 as [Hk _].
  unfold keeps_routes in Hk. rewrite Es in Hk.
  destruct (_ && _ && _); [done|].
  destruct (on_sys (managerSetup _ _ _ _) s3) as [[s4 [e|]]|] eqn:E4; [done| |done]. apply on_sys_mod in E4 as (_ & _ & E4).
  intros [= <-]. split; [done|]. cbn [sys]. revert E4. unfold managerSetup, mbind, M_bind, mret, M_ret.
  destruct (ch_networkInterfaces _ && _).
  - destruct (runManagerSetup managers nics (sys s3)) as [[t [e|]]|] eqn:Er; [done| |done].
    destruct (Route.Setup config nics t) as [[t' [e|]]|] eqn:Et; [done| |done]. intros [= <-].
    exists t. split; [|exact Et]. apply respects_runManagerSetup in Er; [|done]. unfold keeps_routes in Er. by rewrite Er.
  - destruct (Route.Setup config nics (sys s3)) as [[t' [e|]]|] eqn:Et; [done| |done]. intros [= <-].
    exists (sys s3). by split.
Qed.

Lemma networkSetup_quiet managers mds (s : state S) p nics :
  remembers mds s → failedConfiguration (the_mod s) = false → kernel_wf (local (sys s)) → word P →
  NewConfigs (d_instance mds) config ∅ (nic_pkg s) = Some (p, Ok nics) →
  Forall (λ w, settled config w.1 w.2 (local (sys s))) (omap wants (FilteredNICConfigs nics)) →
  ∃ s', networkSetup managers config mds s = Some (s', (true, None)) ∧ local (sys s') = local (sys s).
Proof.
  intros Hr Hf Hwf HP Hc Hset.
  pose proof (extra_ok_wf _ (NewConfigs_extra _ _ _ _ _ _ Hc)) as Hx.
  pose proof (wp_routeChanged nics (sys s) Hwf HP Hx) as Hrc.
  unfold networkSetup, mbind, M_bind, gets, when, wsfc_Enabled, mret, M_ret, set_mod, modify, on_nics, on_sys, zoom. cbn.
  rewrite Hc. cbn. rewrite remembered_unchanged by done. unfold wp in Hrc.
  destruct (routeChanged config nics (sys s)) as [[t b]|]; [|done]. destruct Hrc as [Hk Hb]. rewrite Hb, Hf by done.
  eexists. split; [reflexivity|]. exact Hk.
Qed.

End convergence.

(** ** Examples *)
Section examples.
Import RouteFacts.
#[local] Existing Instances kernel_run kernel_IpRoute example_interfaces example_order.

(** A manager that does nothing, and one whose set-up fails. *)
Definition idle_manager (result : option error) : Manager (gmap string kroute) :=
  mkManager "idle" None (λ _, mret (Ok true)) (λ _ _, mret result) (λ _ _, mret (false, None)).

Definition no_metadata : Metadata.Descriptor := Metadata.mkDescriptor Metadata.no_attributes Metadata.no_attributes.
Definition example_mds : Descriptor := mkDescriptor no_metadata example_desc.
Definition example_start : state (gmap string kroute) := mkNet example_kernel Nic.initial initial_module.

Definition configs_of (p : Nic.state) : list Configuration :=
  match NewConfigs example_desc example_sections ∅ p with Some (_, Ok l) => l | _ => [] end.
Definition pkg_of (p : Nic.state) : Nic.state :=
  match NewConfigs example_desc example_sections ∅ p with Some (s, _) => s | _ => p end.
Definition after_setup (m : Manager (gmap string kroute)) : state (gmap string kroute) :=
  match networkSetup [m] example_sections example_mds example_start with Some (s, _) => s | None => example_start end.

Lemma Forall_by {A} (f : A → bool) (Q : A → Prop) l : (∀ x, f x = true → Q x) → forallb f l = true → Forall Q l.
Proof. intros Hf Hl. apply Forall_forall. intros x Hx. apply Hf. rewrite forallb_forall in Hl. by apply Hl, list_elem_of_In. Qed.

Lemma failed_setup_is_not_retried_witness :
  (∃ s1 e, networkSetup [idle_manager (Some (ErrMsg "no"))] example_sections example_mds example_start = Some (s1, (false, Some e)) ∧
     networkSetup [idle_manager (Some (ErrMsg "no"))] example_sections example_mds s1 = networkSetup [] example_sections example_mds s1) ∧
  (∃ s2, networkSetup [idle_manager (Some (ErrMsg "no"))] example_sections example_mds (after_setup (idle_manager (Some (ErrMsg "no")))) =
           Some (s2, (false, None))).
Proof.
  split.
  - assert (E : ∃ e, networkSetup [idle_manager (Some (ErrMsg "no"))] example_sections example_mds example_start =
                  Some (after_setup (idle_manager (Some (ErrMsg "no"))), (false, Some e))) by (eexists; vm_compute; reflexivity).
    destruct E as [e E]. do 2 eexists. split; [exact E|].
    apply (failed_setup_is_not_retried example_sections [idle_manager (Some (ErrMsg "no"))] example_mds example_start _ false e);
      [reflexivity|exact E].
  - eexists. vm_compute. reflexivity.
Defined.

End examples.
End NetworkManager.
