(* ===== verification/Regexp.v ===== *)
(** * Regular expressions of the agent

    The constructs of Go's [regexp] the network back ends use: sequences of
    repeated character classes and of literals with alternatives, some of them
    in named groups.  A match is the leftmost one, and among those the first
    in the order of preference: repetitions are greedy, alternatives are tried
    from the left.  [GroupsMap] is internal/utils/regex. *)
From S2P Require Import Prelude GoStrings.

Module Regexp.

(** One element, and the group it belongs to. *)
Inductive item :=
| Many (f : byte → bool)      (** a class followed by a star *)
| Many1 (f : byte → bool)     (** a class followed by a plus *)
| OneOf (alts : list bytes).  (** literals separated by bars *)

Definition pattern : Type := list (option string * item).

Definition any (b : byte) : bool := negb (beqb b nl).
Definition is_digit (b : byte) : bool := (48 <=? Ascii.N_of_ascii b)%N && (Ascii.N_of_ascii b <=? 57)%N.
Definition lit (s : string) : item := OneOf [to_bytes s].

(** The longest prefix in a class. *)
Fixpoint run_length (f : byte → bool) (l : bytes) : nat :=
  match l with
  | b :: l => if f b then S (run_length f l) else 0
  | [] => 0
  end.

(** [n], [n - 1], ..., 0. *)
Fixpoint down (n : nat) : list nat :=
  match n with 0 => [0] | S m => n :: down m end.

(** The lengths an element can take, in the order they are tried. *)
Definition lengths (it : item) (l : bytes) : list nat :=
  match it with
  | Many f => down (run_length f l)
  | Many1 f => filter (λ n, n ≠ 0) (down (run_length f l))
  | OneOf alts => length <$> filter (λ a, bprefix a l = true) alts
  end.

Fixpoint first_some {A B} (f : A → option B) (l : list A) : option B :=
  match l with
  | [] => None
  | x :: l => match f x with Some y => Some y | None => first_some f l end
  end.

(** The texts of the elements, matched at the start of [l]. *)
Fixpoint match_here (p : pattern) (l : bytes) : option (list bytes) :=
  match p with
  | [] => Some []
  | (_, it) :: p => first_some (λ n, cons (take n l) <$> match_here p (drop n l)) (lengths it l)
  end.

Fixpoint search (p : pattern) (l : bytes) : option (list bytes) :=
  match match_here p l with
  | Some texts => Some texts
  | None => match l with [] => None | _ :: l => search p l end
  end.

(** The text of a group is that of its elements. *)
Definition group_text (name : string) (p : pattern) (texts : list bytes) : string :=
  of_bytes (concat (omap (λ '(g, t), if bool_decide (g = Some name) then Some t else None) (zip p.*1 texts))).

(** [GroupsMap]: no group has a value when nothing matches. *)
Definition GroupsMap (p : pattern) (data : string) (name : string) : option string :=
  match search p (to_bytes data) with
  | Some texts => if bool_decide (Some name ∈ p.*1) then Some (group_text name p texts) else None
  | None => None
  end.

(** ** What a match is *)
Definition item_ok (it : item) (t : bytes) : Prop :=
  match it with
  | Many f => Forall (λ b, f b = true) t
  | Many1 f => t ≠ [] ∧ Forall (λ b, f b = true) t
  | OneOf alts => t ∈ alts
  end.

Definition texts_ok (p : pattern) (texts : list bytes) : Prop := Forall2 (λ it t, item_ok it.2 t) p texts.

Lemma first_some_Some {A B} (f : A → option B) l y : first_some f l = Some y → ∃ x, x ∈ l ∧ f x = Some y.
Proof.
  induction l as [|x l IH]; [done|]. simpl. destruct (f x) eqn:E.
  - intros [= <-]. exists x. split; [by left|done].
  - intros H. destruct (IH H) as (z & Hz & ?). exists z. split; [by right|done].
Qed.

Lemma first_some_None {A B} (f : A → option B) l x : first_some f l = None → x ∈ l → f x = None.
Proof.
  induction l as [|z l IH]; [by intros _ ?%elem_of_nil|]. simpl. destruct (f z) eqn:E; [done|].
  intros H [->|Hx]%elem_of_cons; auto.
Qed.

Lemma elem_of_down n m : m ∈ down n ↔ m ≤ n.
Proof.
  induction n as [|n IH]; simpl; [rewrite list_elem_of_singleton; lia|]. rewrite elem_of_cons, IH. lia.
Qed.

Lemma run_length_spec f l n : n ≤ run_length f l ↔ n ≤ length l ∧ Forall (λ b, f b = true) (take n l).
Proof.
  revert n. induction l as [|b l IH]; intros n; simpl.
  { rewrite take_nil. split; [|lia]. intros. split; [lia|done]. }
  destruct n as [|n]; [split; [split; [lia|done]|lia]|]. cbn [take]. rewrite Forall_cons.
  destruct (f b) eqn:E.
  - rewrite <-!Nat.succ_le_mono, IH. naive_solver.
  - split; [lia|]. intros (_ & ? & _). congruence.
Qed.

Lemma elem_of_lengths it l n : n ∈ lengths it l ↔ n ≤ length l ∧ item_ok it (take n l).
Proof.
  destruct it as [f|f|alts]; simpl.
  - by rewrite elem_of_down, run_length_spec.
  - rewrite list_elem_of_filter, elem_of_down, run_length_spec. split.
    + intros (Hn & Hl & HF). split; [done|split; [|done]]. intros Ht. apply (f_equal length) in Ht.
      rewrite length_take in Ht. simpl in Ht. lia.
    + intros (Hl & Ht & HF). split; [|done]. by intros ->.
  - rewrite list_elem_of_fmap. split.
    + intros (a & -> & Ha). apply list_elem_of_filter in Ha as [Ha Hin].
      apply bprefix_spec in Ha as [k ->]. rewrite length_app, take_app_length. split; [lia|done].
    + intros [Hn Hin]. exists (take n l). split; [rewrite length_take; lia|]. apply list_elem_of_filter. split; [|done].
      apply bprefix_spec. exists (drop n l). by rewrite take_drop.
Qed.

Lemma match_here_sound p l texts : match_here p l = Some texts → texts_ok p texts ∧ ∃ post, l = concat texts ++ post.
Proof.
  revert l texts. induction p as [|[g it] p IH]; intros l texts; simpl.
  { intros [= <-]. split; [constructor|by exists l]. }
  intros H. apply first_some_Some in H as (n & Hn & Hm). destruct (match_here p (drop n l)) as [ts|] eqn:E; [|done].
  injection Hm as <-. destruct (IH _ _ E) as [Hok [post Hp]]. apply elem_of_lengths in Hn as [Hl Hit]. split; [by constructor|].
  exists post. simpl. rewrite <-app_assoc, <-Hp. by rewrite take_drop.
Qed.

Lemma match_here_complete p texts post : texts_ok p texts → is_Some (match_here p (concat texts ++ post)).
Proof.
  revert texts. induction p as [|[g it] p IH]; intros texts Hok; [by eexists|].
  inversion Hok as [|? t ? ts Ht Hts]; subst. simpl. rewrite <-app_assoc.
  destruct (first_some _ _) eqn:E; [by eexists|]. exfalso.
  apply (first_some_None _ _ (length t)) in E.
  - cbv beta in E. rewrite drop_app_length in E. destruct (IH ts Hts) as [x Hx]. by rewrite Hx in E.
  - apply elem_of_lengths. rewrite take_app_length, length_app. split; [lia|done].
Qed.

(** A search finds a match exactly when there is one. *)
Lemma search_sound p l texts : search p l = Some texts → texts_ok p texts ∧ ∃ pre post, l = pre ++ concat texts ++ post.
Proof.
  revert texts. induction l as [|b l IH]; intros texts; simpl.
  - destruct (match_here p []) as [ts|] eqn:E; [|done]. intros [= <-].
    destruct (match_here_sound _ _ _ E) as [? [post ?]]. split; [done|]. by exists [], post.
  - destruct (match_here p (b :: l)) as [ts|] eqn:E.
    + intros [= <-]. destruct (match_here_sound _ _ _ E) as [? [post ?]]. split; [done|]. by exists [], post.
    + intros H. destruct (IH _ H) as [? (pre & post & ->)]. split; [done|]. by exists (b :: pre), post.
Qed.

Lemma search_complete p l pre texts post :
  texts_ok p texts → l = pre ++ concat texts ++ post → is_Some (search p l).
Proof.
  intros Hok ->. induction pre as [|b pre IH]; simpl.
  - destruct (match_here_complete p texts post Hok) as [ts Hts].
    destruct (concat texts ++ post); cbn [search]; rewrite Hts; by eexists.
  - destruct (match_here p _); [by eexists|done].
Qed.

Lemma search_None p l : search p l = None ↔ ∀ pre texts post, texts_ok p texts → l ≠ pre ++ concat texts ++ post.
Proof.
  split.
  - intros E pre texts post Hok Hl. destruct (search_complete _ _ _ _ _ Hok Hl) as [? ?]. congruence.
  - intros Hn. destruct (search p l) as [ts|] eqn:E; [|done]. destruct (search_sound _ _ _ E) as [Hok (pre & post & Hl)].
    by destruct (Hn _ _ _ Hok Hl).
Qed.

End Regexp.
