(* ===== verification/Paths.v ===== *)
(** * Names in a directory

    Joining a cleaned directory and a file name, the parent of the path, and
    the entries of a directory. *)
From S2P Require Import Prelude GoStrings GoStringFacts Os SafeWrite.

Module Paths.

(** An absolute, cleaned path that is not the root. *)
Definition clean_dir (d : string) : Prop := HasPrefix d "/" = true ∧ Clean d = d ∧ d ≠ "/".

(** A name without a slash that is no reference to a directory. *)
Definition simple_name (n : string) : Prop := lacks slash n ∧ n ≠ "" ∧ n ≠ "." ∧ n ≠ "..".

#[global] Instance clean_dir_dec d : Decision (clean_dir d).
Proof. unfold clean_dir. apply _. Defined.
#[global] Instance simple_name_dec n : Decision (simple_name n).
Proof. unfold simple_name. apply _. Defined.

Definition in_dir (d n : string) : string := d +:+ "/" +:+ n.

Lemma clean_dir_stack d :
  clean_dir d → let st := rev (foldl (clean_step true) [] (Split d slash)) in st ≠ [] ∧ d = "/" +:+ Join st "/".
Proof.
  intros (Hr & Hc & Hne). unfold Clean in Hc. case_bool_decide as E; [by subst|]. rewrite Hr in Hc. cbn zeta. split; [|done].
  intros Es. rewrite Es in Hc. by apply Hne.
Qed.

Lemma HasPrefix_app_l a b p : HasPrefix a p = true → HasPrefix (a +:+ b) p = true.
Proof. rewrite !HasPrefix_spec. intros [k ->]. exists (k +:+ b). by rewrite append_assoc. Qed.

Lemma Split_in_dir d n : lacks slash n → Split (in_dir d n) slash = Split d slash ++ [n].
Proof. apply Split_snoc. Qed.

Lemma bjoin_end_snoc sep ls x : ls ≠ [] → bjoin sep (ls ++ [x]) = bjoin sep ls ++ sep ++ x.
Proof.
  induction ls as [|y ls IH]; [done|]. intros _. destruct ls as [|z ls]; [done|].
  change (bjoin sep ((y :: z :: ls) ++ [x])) with (y ++ sep ++ bjoin sep ((z :: ls) ++ [x])).
  rewrite IH by done. cbn. by rewrite <-!app_assoc.
Qed.

Lemma Join_snoc ls x : ls ≠ [] → Join (ls ++ [x]) "/" = Join ls "/" +:+ "/" +:+ x.
Proof.
  intros Hne. apply to_bytes_eq. unfold Join. rewrite !to_bytes_app, !to_of_bytes, fmap_app.
  apply bjoin_end_snoc. by destruct ls.
Qed.

Lemma below_in_dir d n : below d (in_dir d n) = true.
Proof. unfold below. apply orb_true_iff. right. apply HasPrefix_spec. exists n. unfold in_dir. by rewrite append_assoc. Qed.

Lemma in_dir_ne d n : in_dir d n ≠ "".
Proof. unfold in_dir. by destruct d. Qed.

Lemma Clean_in_dir d n : clean_dir d → simple_name n → Clean (in_dir d n) = in_dir d n.
Proof.
  intros Hd (Hl & H1 & H2 & H3). pose proof (clean_dir_stack d Hd) as [Hst Ed]. destruct Hd as (Hr & _ & _).
  unfold Clean. rewrite bool_decide_false by apply in_dir_ne. assert (HasPrefix (in_dir d n) "/" = true) as -> by (by apply HasPrefix_app_l). cbv zeta.
  rewrite Split_in_dir by done. rewrite foldl_app. cbn [foldl]. unfold clean_step at 1.
  rewrite bool_decide_false by naive_solver. rewrite bool_decide_false by done. cbn [rev].
  rewrite Join_snoc by done. unfold in_dir. rewrite Ed at 2. by rewrite append_assoc.
Qed.

Lemma path_Join_name d n : clean_dir d → simple_name n → path_Join [d; n] = in_dir d n.
Proof.
  intros Hd Hn. cbn [path_Join]. rewrite bool_decide_false by (destruct Hd as (Hr & _); by intros ->).
  change (Join [d; n] "/") with (of_bytes (to_bytes d ++ to_bytes "/" ++ to_bytes n)).
  rewrite !of_bytes_app, !of_to_bytes. by apply Clean_in_dir.
Qed.

Lemma Clean_dir_slash d : clean_dir d → Clean (d +:+ "/") = d.
Proof.
  intros Hd. pose proof (clean_dir_stack d Hd) as [Hst Ed]. destruct Hd as (Hr & _ & _).
  unfold Clean. rewrite bool_decide_false by (by destruct d).
  assert (HasPrefix (d +:+ "/") "/" = true) as -> by (by apply HasPrefix_app_l). cbv zeta.
  assert (Split (d +:+ "/") slash = Split d slash ++ [""]) as ->.
  { rewrite <-Split_snoc by (unfold lacks; apply not_elem_of_nil). done. }
  rewrite foldl_app. cbn [foldl]. unfold clean_step at 1. rewrite bool_decide_true by auto. by symmetry.
Qed.

Lemma Dir_in_dir d n : clean_dir d → simple_name n → Dir (in_dir d n) = d.
Proof.
  intros Hd (Hl & _). unfold in_dir. change (d +:+ "/" +:+ n) with (d +:+ ("/" +:+ n)). rewrite <-append_assoc, SafeWrite.Dir_app by done.
  unfold Dir, LastIndex, slice_to. rewrite to_bytes_app.
  assert (blast_index slash (to_bytes d ++ to_bytes "/") = Some (length (to_bytes d))) as ->.
  { change (to_bytes "/") with [slash]. induction (to_bytes d) as [|b l IH]; [done|]. simpl. by rewrite IH. }
  rewrite take_ge by (rewrite length_app; simpl; lia). rewrite <-to_bytes_app, of_to_bytes. by apply Clean_dir_slash.
Qed.

Lemma in_dir_inj d n n' : in_dir d n = in_dir d n' → n = n'.
Proof.
  intros E. apply (f_equal to_bytes) in E. unfold in_dir in E. rewrite !to_bytes_app in E.
  apply app_inv_head, app_inv_head in E. by apply to_bytes_eq.
Qed.

(** ** Entries *)
Lemma TrimPrefix_app p n : TrimPrefix (p +:+ n) p = n.
Proof.
  unfold TrimPrefix. assert (HasPrefix (p +:+ n) p = true) as -> by (apply HasPrefix_spec; by exists n).
  unfold slice_from. rewrite to_bytes_app, drop_app_length. apply of_to_bytes.
Qed.

Lemma bcontains_single c l : bcontains [c] l = true ↔ c ∈ l.
Proof.
  induction l as [|b l IH].
  - cbn. split; [done|by intros ?%elem_of_nil].
  - cbn [bcontains]. rewrite orb_true_iff, IH, elem_of_cons. cbn. rewrite andb_true_r, beqb_spec. done.
Qed.

Lemma child_name_Some d p n : child_name d p = Some n ↔ p = in_dir d n ∧ n ≠ "" ∧ lacks slash n.
Proof.
  unfold child_name, in_dir. split.
  - destruct (HasPrefix p (d +:+ "/")) eqn:E; [|done]. apply HasPrefix_spec in E as [k ->]. rewrite TrimPrefix_app.
    case_bool_decide as E1; [done|]. destruct (Contains k "/") eqn:E2; [done|]. intros [= <-]. rewrite append_assoc.
    split; [done|split; [done|]]. intros Hin. apply bcontains_single in Hin. unfold Contains in E2. change (to_bytes "/") with [slash] in E2. congruence.
  - intros (-> & Hne & Hl). rewrite <-append_assoc. assert (HasPrefix ((d +:+ "/") +:+ n) (d +:+ "/") = true) as -> by (apply HasPrefix_spec; by exists n).
    rewrite TrimPrefix_app, bool_decide_false by done. destruct (Contains n "/") eqn:E; [|done].
    by apply bcontains_single in E.
Qed.

Lemma elem_of_dir_entries d m n nd :
  (n, nd) ∈ dir_entries d m ↔ m !! in_dir d n = Some nd ∧ n ≠ "" ∧ lacks slash n.
Proof.
  unfold dir_entries. rewrite list_elem_of_fmap. setoid_rewrite sort_Strings_perm. split.
  - intros (k & [= -> ->] & Hk). apply list_elem_of_fmap in Hk as ([k' x] & -> & Hk).
    apply list_elem_of_omap in Hk as ([p y] & Hp & Ec). apply elem_of_map_to_list in Hp. cbn in Ec.
    destruct (child_name d p) eqn:Ech; [|done]. injection Ec as -> ->. apply child_name_Some in Ech as (-> & ? & ?).
    cbn [fst]. unfold in_dir in *. by rewrite Hp.
  - intros (Hm & Hne & Hl). exists n. split; [unfold in_dir in Hm; by rewrite Hm|].
    apply list_elem_of_fmap. exists (n, nd). split; [done|]. apply list_elem_of_omap. exists (in_dir d n, nd).
    split; [by apply elem_of_map_to_list|]. cbn. by rewrite (proj2 (child_name_Some d _ n) (conj eq_refl (conj Hne Hl))).
Qed.

Lemma child_names_NoDup d (l : list (string * node)) : NoDup l.*1 → NoDup (omap (λ kv, child_name d kv.1) l).
Proof.
  induction l as [|[p nd] l IH]; cbn; [constructor|]. intros [Hp Hl]%NoDup_cons. destruct (child_name d p) as [n|] eqn:E; [|auto].
  apply NoDup_cons. split; [|auto]. intros ([p' nd'] & Hin & E')%list_elem_of_omap. cbn in E'.
  apply child_name_Some in E as (-> & _). apply child_name_Some in E' as (-> & _). apply Hp, list_elem_of_fmap. by exists (in_dir d n, nd').
Qed.

Lemma dir_entries_NoDup d m : NoDup (dir_entries d m).*1.
Proof.
  unfold dir_entries. rewrite <-list_fmap_compose. rewrite (list_fmap_ext _ id) by done. rewrite list_fmap_id, sort_Strings_perm.
  assert (∀ l : list (string * node), (omap (λ kv, match child_name d kv.1 with Some n => Some (n, kv.2) | None => None end) l).*1 =
            omap (λ kv, child_name d kv.1) l) as ->.
  { induction l as [|[p nd] l IH]; [done|]. cbn. destruct (child_name d p); cbn; by rewrite IH. }
  apply child_names_NoDup, NoDup_fst_map_to_list.
Qed.
End Paths.
