(* ===== verification/Ini.v ===== *)
(** * internal/utils/ini, and the commands of the network back ends

    The INI library is a parameter: the text of a struct, and a text loaded
    over a struct.  Also what the back ends share: looking up an executable,
    running a command for its effect, the interfaces they skip. *)
From S2P Require Import Prelude GoStrings Os Accounts Daemon OsInfo Address Nic.

Module Ini.
Import Accounts Address Nic.

(** internal/utils/ini over its library: the text of a struct, and a text
    read over a struct that may have values already. *)
Class IniFile (C : Type) := {
  ini_text : C → result string;
  ini_load : string → C → result C;
}.

Definition ErrNotFound : error := ErrMsg "executable file not found in $PATH".
Definition is_not_found (e : error) : bool :=
  errors_Is (λ e, match e with ErrMsg m => bool_decide (m = "executable file not found in $PATH") | _ => false end) e.

(** [execLookPath]. *)
Definition execLookPath `{LookPath} (name : string) : M host (result string) := λ h,
  Some (h, exec_LookPath (length (ran h)) name).

Section ini.
Context `{OsFaults} {C : Type} `{IniFile C}.

Definition WriteIniFile (filePath : string) (ptr : C) : M host (option error) :=
  match ini_text ptr with
  | Err e => mret (Some (ErrWrap "error marshalling file" e))
  | Ok text =>
      e ← os_WriteFile filePath text;
      mret (ErrWrap "error saving file" <$> e)
  end.

(** The option [Loose]: a file that does not exist is an empty one. *)
Definition ReadIniFile (source : string) (ptr : C) : M host (result C) :=
  r ← os_ReadFile source;
  match r with
  | Err e => if IsNotExist e then mret (ini_load "" ptr) else mret (Err (ErrWrap "failed to load file" e))
  | Ok text => mret (ini_load text ptr)
  end.
End ini.

(** The .network, .netdev and keyfiles are compared with what the agent would
    write: [false] also when the file cannot be read. *)
Section equals.
Context `{OsFaults} {C : Type} `{IniFile C} `{EqDecision C}.

Definition equals (zero c : C) (fPath : string) : M host bool :=
  x ← Exists fPath TypeFile;
  if negb x then mret false
  else
    old ← ReadIniFile fPath zero;
    mret (match old with Ok old => bool_decide (old = c) | Err _ => false end).
End equals.

(** [run.WithContext] for the effect of a command. *)
Section commands.
Context `{Commands}.

Definition run_command_ (msg : string) (args : list string) : M host (option error) :=
  r ← WithContext (mkCommand args "");
  mret (ErrWrap msg <$> Daemon.run_error r).

Definition run_output (args : list string) : M host (result string) :=
  r ← WithContext (mkCommand args "");
  mret (match r with
        | RunOk out => Ok out
        | RunExit _ => Err Daemon.exit_error
        | RunErr e => Err e
        end).
End commands.

(** The condition of the roll-backs: the active manager only rolls back a
    primary NIC it does not manage. *)
Definition keeps_nic `{OsFaults} `{OsInfo.Uname} (config : Sections) (active : bool) (nic : Configuration) : M host bool :=
  if negb active then mret false
  else if negb (Index nic =? 0)%Z then mret true
  else ShouldManage config nic.
End Ini.
