(* ===== verification/HostRules.v ===== *)
(** * Rules for the calls of the back ends when nothing fails

    A host keeps its file system and the commands it ran.  Each rule says what
    a call answers and what it does to the nodes; none of them runs a command
    but the last. *)
From S2P Require Import Prelude GoStrings Os Paths Accounts Daemon OsInfo Address Nic Ini.

Module HostRules.
Import Accounts Address Nic Ini Paths.

Abbreviation fsmap := (gmap string node).

Definition nodes_of (h : host) : fsmap := nodes (hfs h).

(** A call that may change the nodes and runs no command. *)
Definition quiet (h h' : host) : Prop := ran h' = ran h.
Definition same (h h' : host) : Prop := nodes_of h' = nodes_of h ∧ ran h' = ran h.

#[global] Instance quiet_preorder : PreOrder quiet.
Proof. split; [done|]. intros a b c ? ?. unfold quiet in *. congruence. Qed.
#[global] Instance same_preorder : PreOrder same.
Proof. split; [done|]. intros a b c [] []. split; congruence. Qed.

Lemma same_nodes h h' : same h h' → nodes_of h' = nodes_of h.
Proof. by intros []. Qed.

(** The file a path is, when it is no link. *)
Definition is_file (m : fsmap) (p : string) : bool :=
  match resolve m p with Some (_, NFile _) => true | _ => false end.

Definition content (m : fsmap) (p : string) : option string :=
  match resolve m p with Some (_, NFile d) => Some d | _ => None end.

Lemma resolve_link_not_link hops m p q nd : resolve_link hops m p = Some (q, nd) → m !! q = Some nd ∧ ∀ t, nd ≠ NLink t.
Proof.
  revert p. induction hops as [|n IH]; intros p; simpl; destruct (m !! p) as [[]|] eqn:E; try (by intros [= <- <-]); try done.
  apply IH.
Qed.

Lemma resolve_final m p q nd : resolve m p = Some (q, nd) → m !! q = Some nd ∧ ∀ t, nd ≠ NLink t.
Proof. apply resolve_link_not_link. Qed.

(** A path that is no link is what it is. *)
Definition no_link (m : fsmap) (p : string) : Prop := ∀ t, m !! p ≠ Some (NLink t).

Lemma resolve_direct m p : no_link m p → resolve m p = (λ nd, (p, nd)) <$> m !! p.
Proof.
  intros Hl. destruct (m !! p) as [nd|] eqn:E; cbn.
  - apply resolve_link_here; [done|]. intros t ->. by destruct (Hl t).
  - by apply resolve_none.
Qed.

Lemma content_direct m p : no_link m p → content m p = match m !! p with Some (NFile d) => Some d | _ => None end.
Proof. intros Hl. unfold content. rewrite resolve_direct by done. by destruct (m !! p) as [[]|]. Qed.

Lemma is_file_content m p : is_file m p = bool_decide (is_Some (content m p)).
Proof. unfold is_file, content. destruct (resolve m p) as [[q []]|]; done. Qed.

(** Whatever fails, a call that reads changes neither nodes nor commands. *)
Section reads.
Context `{OsFaults} `{OsInfo.Uname} (config : Sections).

Lemma respects_wp {A} (R : relation host) (m : M host A) : (∀ h, wp m (λ _ h', R h h') h) → respects R m.
Proof. intros Hw h h' a E. specialize (Hw h). unfold wp in Hw. by rewrite E in Hw. Qed.

Lemma respects_weaken {A} (R R' : relation host) (m : M host A) : (∀ h h', R h h' → R' h h') → respects R m → respects R' m.
Proof. intros HR Hm h h' a E. by eapply HR, Hm. Qed.

Lemma wp_reads {A} name p (onf : fault → fsmap → fsmap * A) k (Q : A → host → Prop) h :
  (∀ ft m, (onf ft m).1 = m) → (∀ m, (k m).1 = m) →
  (∀ ft h', same h h' → Q (onf ft (nodes_of h)).2 h') →
  (∀ h', same h h' → Q (k (nodes_of h)).2 h') → wp (with_fs name p onf k) Q h.
Proof.
  intros Ho Hk Hf HQ. apply wp_with_fs; intros; [apply Hf|apply HQ]; (split; [|done]); unfold nodes_of; cbn; [apply Ho|apply Hk].
Qed.

Lemma same_reads {A} name p (onf : fault → fsmap → fsmap * A) k :
  (∀ ft m, (onf ft m).1 = m) → (∀ m, (k m).1 = m) → respects same (with_fs name p onf k).
Proof. intros Ho Hk. apply respects_wp. intros h. by apply wp_reads. Qed.

Lemma same_ShouldManage nic : respects same (ShouldManage (S := host) config nic).
Proof.
  unfold ShouldManage, isUbuntu1804, OsInfo.Read, OsInfo.parseRelease.
  repeat first [by apply same_reads | apply respects_ret, _ | respects_step].
Qed.

Lemma total_ShouldManage nic : total (ShouldManage (S := host) config nic).
Proof. unfold ShouldManage, isUbuntu1804, OsInfo.Read, OsInfo.parseRelease. total_solve. Qed.

(** Without the option, only the primary NIC is left alone. *)
Lemma wp_ShouldManage nic h : cfg_ManagePrimaryNIC config = false →
  wp (ShouldManage config nic) (λ b h', same h h' ∧ b = negb (Index nic =? 0)%Z) h.
Proof.
  intros Hp. destruct (total_ShouldManage nic h) as [[h' b] E]. pose proof (same_ShouldManage nic h h' b E) as Hs.
  unfold wp. rewrite E. split; [exact Hs|]. revert E. unfold ShouldManage. rewrite Hp, orb_false_r.
  unfold mbind, M_bind. destruct (isUbuntu1804 h) as [[h1 []]|]; [..|done]; by intros [= _ <-].
Qed.

Lemma same_keeps_nic active nic : respects same (keeps_nic config active nic).
Proof. unfold keeps_nic. repeat first [apply same_ShouldManage | apply respects_ret, _ | respects_step]. Qed.

Lemma same_Exists p t : respects same (Exists (S := host) p t).
Proof. unfold Exists. repeat first [by apply same_reads | apply respects_ret, _ | respects_step]. Qed.

Lemma same_execLookPath `{LookPath} name : respects same (execLookPath name).
Proof. intros h h' a [= <- _]. done. Qed.

Lemma same_some_or_panic {A} (o : option A) : respects same (some_or_panic (S := host) o).
Proof. apply respects_some_or_panic, _. Qed.
End reads.
#[export] Hint Resolve same_ShouldManage same_keeps_nic same_Exists same_execLookPath same_some_or_panic : respects.

Section rules.
Context `{OsFaults} (fault_free : ∀ n op p, os_fault n op p = None).
Implicit Types (h : host).

(** Every call of package os. *)
Lemma wp_call {A} name p onf (k : fsmap → fsmap * A) (Q : A → host → Prop) h :
  (∀ h', nodes_of h' = (k (nodes_of h)).1 → ran h' = ran h → Q (k (nodes_of h)).2 h') →
  wp (with_fs name p onf k) Q h.
Proof.
  intros HQ. apply wp_with_fs; intros; [by rewrite fault_free in *|]. by apply HQ.
Qed.

Lemma wp_Stat p h : wp (os_Stat p) (λ r h', same h h' ∧ r = match resolve (nodes_of h) p with Some (_, nd) => Ok nd | None => Err ErrNotExist end) h.
Proof. by apply wp_call. Qed.

Lemma wp_Exists_file p h : wp (Exists p TypeFile) (λ b h', same h h' ∧ b = is_file (nodes_of h) p) h.
Proof.
  unfold Exists. wp_step. eapply wp_mono; [apply wp_Stat|]. intros r h' [Hs ->]. wp_step. split; [done|].
  unfold is_file. destruct (resolve _ p) as [[q nd]|] eqn:E; [|done]. apply resolve_final in E as [_ Hl]. destruct nd; [done..|].
  by destruct (Hl target).
Qed.

Lemma wp_Exists_dir p h :
  wp (Exists p TypeDir) (λ b h', same h h' ∧ b = match resolve (nodes_of h) p with Some (_, NDir) => true | _ => false end) h.
Proof.
  unfold Exists. wp_step. eapply wp_mono; [apply wp_Stat|]. intros r h' [Hs ->]. wp_step. split; [done|].
  by destruct (resolve _ p) as [[q []]|].
Qed.

Lemma wp_ReadFile p h :
  wp (os_ReadFile p) (λ r h', same h h' ∧ ∀ d, content (nodes_of h) p = Some d ↔ r = Ok d) h.
Proof.
  apply wp_call. intros h' Hn Hr. split; [done|]. intros d. unfold content. cbn [snd].
  destruct (resolve _ p) as [[q []]|]; naive_solver.
Qed.

Lemma wp_MkdirAll p h :
  wp (os_MkdirAll p) (λ e h', e = None ∧ nodes_of h' = mkdir_all p (nodes_of h) ∧ quiet h h') h.
Proof. by apply wp_call. Qed.

Lemma wp_RemoveAll p h :
  wp (os_RemoveAll p) (λ e h', e = None ∧ nodes_of h' = remove_below p (nodes_of h) ∧ quiet h h') h.
Proof. by apply wp_call. Qed.

Lemma wp_WriteFile p d h :
  wp (os_WriteFile p d) (λ e h', quiet h h' ∧
     match e with None => nodes_of h' = write_node (nodes_of h) p d | Some _ => nodes_of h' = nodes_of h end) h.
Proof.
  apply wp_call. intros h' Hn Hr. destruct (resolve (nodes_of h) p) as [[q []]|]; by split.
Qed.

(** A file or a link goes away. *)
Lemma wp_Remove_file p nd h :
  nodes_of h !! p = Some nd → nd ≠ NDir →
  wp (os_Remove p) (λ e h', e = None ∧ nodes_of h' = delete p (nodes_of h) ∧ quiet h h') h.
Proof. intros Hp Hnd. apply wp_call. intros h'. rewrite Hp. by destruct nd. Qed.

Lemma wp_ReadDir p h :
  nodes_of h !! p = Some NDir →
  wp (os_ReadDir p) (λ r h', same h h' ∧ r = Ok (dir_entries p (nodes_of h))) h.
Proof. intros Hp. apply wp_call. intros h'. rewrite (resolve_dir _ _ Hp). by split. Qed.

Lemma wp_equals {C : Type} `{IniFile C} `{EqDecision C} (zero c : C) p h :
  wp (equals zero c p) (λ b h', same h h' ∧
        (b = true ↔ ∃ d, content (nodes_of h) p = Some d ∧ ini_load d zero = Ok c)) h.
Proof.
  unfold equals, ReadIniFile. wp_step. eapply wp_mono; [apply wp_Exists_file|]. intros b h1 [Hs1 ->]. cbn.
  rewrite is_file_content. case_bool_decide as Ec; cbn.
  2: { apply wp_ret. split; [done|]. split; [done|]. intros (d & E & _). destruct Ec; rewrite E; by eexists. }
  destruct Ec as [d Ec]. wp_step. wp_step. eapply wp_mono; [apply wp_ReadFile|]. intros r h2 [Hs2 Hr]. rewrite (same_nodes _ _ Hs1) in Hr.
  apply Hr in Ec as Er. subst r. apply wp_ret. apply wp_ret. split; [by etrans|]. rewrite Ec. split.
  - destruct (ini_load d zero) as [old|] eqn:El; [|done]. rewrite bool_decide_eq_true. intros Eo. rewrite <-Eo. eauto.
  - intros (d' & [= <-] & ->). by apply bool_decide_eq_true.
Qed.
End rules.

(** A command moves no file. *)
Lemma wp_run_command_ `{Commands} msg args h :
  wp (run_command_ msg args) (λ e h', nodes_of h' = nodes_of h ∧ ran h' = ran h ++ [mkCommand args ""] ∧
    e = ErrWrap msg <$> Daemon.run_error (run_command (length (ran h)) (mkCommand args ""))) h.
Proof. done. Qed.

(** ** The nodes after a write *)

(** What a call keeps away from the path [p]: the nodes there are, also the
    fact that there is no link. *)
Definition keeps_but (p : string) (m m' : fsmap) : Prop :=
  ∀ q, q ≠ p → (∀ nd, m !! q = Some nd → m' !! q = Some nd) ∧ (m !! q = None → m' !! q = None ∨ m' !! q = Some NDir).

Lemma make_dir_keeps m p q : (∀ nd, m !! q = Some nd → make_dir m p !! q = Some nd) ∧
  (m !! q = None → make_dir m p !! q = None ∨ make_dir m p !! q = Some NDir).
Proof.
  unfold make_dir. destruct (m !! p) as [x|] eqn:E; [split; auto|]. destruct (decide (p = q)) as [->|Hne].
  - rewrite lookup_insert_eq. split; [congruence|auto].
  - rewrite lookup_insert_ne by done. auto.
Qed.

Lemma mkdir_all_keeps p m q : (∀ nd, m !! q = Some nd → mkdir_all p m !! q = Some nd) ∧
  (m !! q = None → mkdir_all p m !! q = None ∨ mkdir_all p m !! q = Some NDir).
Proof.
  unfold mkdir_all. revert m. induction (ancestors "" (Split p slash)) as [|c l IH]; intros m; cbn [foldl]; [auto|].
  destruct (make_dir_keeps m c q) as [A1 A2]. destruct (IH (make_dir m c)) as [B1 B2]. split; [auto|].
  intros E. destruct (A2 E) as [E'|E']; [auto|right; auto].
Qed.

Lemma write_node_direct m p d : no_link m p → write_node m p d = <[p := NFile d]> m.
Proof. intros Hl. unfold write_node. rewrite resolve_direct by done. by destruct (m !! p). Qed.

Lemma keeps_but_write m p d dir : no_link m p → keeps_but p m (write_node (mkdir_all dir m) p d) ∧
  content (write_node (mkdir_all dir m) p d) p = Some d ∧ no_link (write_node (mkdir_all dir m) p d) p.
Proof.
  intros Hl. assert (no_link (mkdir_all dir m) p) as Hl'.
  { intros t Ht. destruct (mkdir_all_keeps dir m p) as [A1 A2]. destruct (m !! p) as [nd|] eqn:E.
    - rewrite (A1 nd eq_refl) in Ht. injection Ht as ->. by destruct (Hl t).
    - destruct (A2 eq_refl) as [E'|E']; congruence. }
  rewrite write_node_direct by done. split_and!.
  - intros q Hq. rewrite lookup_insert_ne by done. apply mkdir_all_keeps.
  - rewrite content_direct; [by rewrite lookup_insert_eq|]. intros t. by rewrite lookup_insert_eq.
  - intros t. by rewrite lookup_insert_eq.
Qed.

Lemma keeps_but_delete m p : keeps_but p m (delete p m).
Proof. intros q Hq. rewrite lookup_delete_ne by done. auto. Qed.

Lemma keeps_but_refl p m : keeps_but p m m.
Proof. intros q Hq. auto. Qed.

Lemma keeps_but_no_link p q m m' : keeps_but p m m' → q ≠ p → no_link m q → no_link m' q.
Proof.
  intros Hk Hq Hl t Ht. destruct (Hk q Hq) as [A1 A2]. destruct (m !! q) as [nd|] eqn:E.
  - rewrite (A1 nd eq_refl) in Ht. injection Ht as ->. by destruct (Hl t).
  - destruct (A2 eq_refl); congruence.
Qed.

Lemma keeps_but_content p q m m' : keeps_but p m m' → q ≠ p → no_link m q → content m' q = content m q.
Proof.
  intros Hk Hq Hl. rewrite !content_direct by (done || by eapply keeps_but_no_link).
  destruct (Hk q Hq) as [A1 A2]. destruct (m !! q) as [nd|] eqn:E; [by rewrite (A1 nd eq_refl)|].
  destruct (A2 eq_refl) as [-> | ->]; done.
Qed.
End HostRules.
