(* ===== verification/Networkd.v ===== *)
(** * cmd/core_plugin/network/networkd: systemd-networkd

    networkd.go and networkd_linux.go: the .network and .netdev files of the
    NICs and of their VLANs, the drop-ins netplan asks for, their roll-back
    and the reload.  The INI library, the JSON of [networkctl] and the events
    of fsnotify are parameters. *)
From stdpp Require Import pretty.
From S2P Require Import Prelude GoStrings GoStringFacts Os Accounts Daemon OsInfo Regexp Address Nic Ini.

Module Networkd.
Import Accounts Address Nic Ini.

(** ** What the package relies on *)

(** [networkctl status --json]: the members of the object; [None] for a value
    that is not a string. *)
Class NetworkctlJson := json_members : string → result (gmap string (option string)).

(** What [fsnotify.NewWatcher] returns, and the events of the directory up to
    the time-out: whether each is a write. *)
Class FsNotify := {
  fs_watcher : host → option error;
  fs_events : host → list bool;
}.

(** ** networkd.go *)
Definition defaultSystemdNetworkdPriority : Z := 20.
Definition deprecatedPriority_ : Z := 1.
Definition minSupportedVersion : Z := 252.
Definition ServiceID : string := "systemd-networkd".
Definition DefaultDropinDir : string := "/run/systemd/network/".
Definition DefaultConfigDir : string := "/usr/lib/systemd/network".
Definition DefaultDHCPLeasesDir : string := "/run/systemd/netif/leases".
Definition DefaultNetworkCtlKeys : list string := ["AdministrativeState"; "SetupState"; "State"].

Record networkdMatchConfig := mkMatch { Match_Name : string; Match_Type : string }.
Record networkdLinkConfig := mkLink { MACAddress : string; MTUBytes : Z }.
Record networkdNetworkConfig := mkNetwork { DHCP : string; DNSDefaultRoute : bool; VLANS : list string }.
Record networkdDHCPConfig := mkDHCP { RoutesToDNS : bool; RoutesToNTP : bool }.
Record networkdConfig := mkConfig {
  Match : networkdMatchConfig;
  Network : networkdNetworkConfig;
  DHCPv4 : option networkdDHCPConfig;
  Link : option networkdLinkConfig;
}.

Record networkdNetdev := mkNetdev { Netdev_Name : string; Kind : string }.
Record networkdVlan := mkVlan { Vlan_ID : Z; ReorderHeader : bool }.
Record networkdNetdevConfig := mkNetdevConfig { NetDev : networkdNetdev; VLAN : networkdVlan }.

#[global] Instance networkdMatchConfig_eq_dec : EqDecision networkdMatchConfig. Proof. solve_decision. Defined.
#[global] Instance networkdLinkConfig_eq_dec : EqDecision networkdLinkConfig. Proof. solve_decision. Defined.
#[global] Instance networkdNetworkConfig_eq_dec : EqDecision networkdNetworkConfig. Proof. solve_decision. Defined.
#[global] Instance networkdDHCPConfig_eq_dec : EqDecision networkdDHCPConfig. Proof. solve_decision. Defined.
#[global] Instance networkdConfig_eq_dec : EqDecision networkdConfig. Proof. solve_decision. Defined.
#[global] Instance networkdNetdev_eq_dec : EqDecision networkdNetdev. Proof. solve_decision. Defined.
#[global] Instance networkdVlan_eq_dec : EqDecision networkdVlan. Proof. solve_decision. Defined.
#[global] Instance networkdNetdevConfig_eq_dec : EqDecision networkdNetdevConfig. Proof. solve_decision. Defined.

Definition zero_config : networkdConfig := mkConfig (mkMatch "" "") (mkNetwork "" false []) None None.
Definition zero_netdev : networkdNetdevConfig := mkNetdevConfig (mkNetdev "" "") (mkVlan 0 false).

Record Module := mkModule {
  configDir : string;
  dropinDir : string;
  dhcpLeasesDir : string;
  networkCtlKeys : list string;
  priority : Z;
  deprecatedPriority : Z;
  dhcpWaitErr : option error;
}.

Definition DefaultModule : Module :=
  mkModule DefaultConfigDir DefaultDropinDir DefaultDHCPLeasesDir DefaultNetworkCtlKeys
    defaultSystemdNetworkdPriority deprecatedPriority_ None.

Definition set_configDir (d : string) (m : Module) : Module :=
  mkModule d (dropinDir m) (dhcpLeasesDir m) (networkCtlKeys m) (priority m) (deprecatedPriority m) (dhcpWaitErr m).
Definition set_dhcpWaitErr (e : option error) (m : Module) : Module :=
  mkModule (configDir m) (dropinDir m) (dhcpLeasesDir m) (networkCtlKeys m) (priority m) (deprecatedPriority m) e.

Record state := mkState { sys : host; the_mod : Module }.

Definition on_host {A} (m : M host A) : M state A := zoom sys (λ h s, mkState h (the_mod s)) m.
Definition on_mod (f : Module → Module) : M state unit := modify (λ s, mkState (sys s) (f (the_mod s))).

(** ** The files *)
Definition config_name (priority : Z) (iface ext : string) : string :=
  pretty priority +:+ "-" +:+ iface +:+ "-google-guest-agent." +:+ ext.

Definition netdevFile (sn : Module) (iface : string) : string :=
  path_Join [configDir sn; config_name (priority sn) iface "netdev"].
Definition networkFile (sn : Module) (iface : string) : string :=
  path_Join [configDir sn; config_name (priority sn) iface "network"].
Definition deprecatedNetworkFile (sn : Module) (iface : string) : string :=
  path_Join [configDir sn; config_name (deprecatedPriority sn) iface "network"].
Definition dropinFile (sn : Module) (prefix iface : string) : string :=
  path_Join [dropinDir sn; prefix +:+ "-" +:+ iface +:+ ".network.d"; "override.conf"].

(** The pattern of the files of VLANs. *)
Definition vlan_file_regex : Regexp.pattern :=
  [(Some "priority", Regexp.Many1 Regexp.is_digit); (None, Regexp.lit "-");
   (Some "interface", Regexp.Many Regexp.any); (Some "interface", Regexp.lit "."); (Some "interface", Regexp.Many1 Regexp.is_digit);
   (None, Regexp.lit "-"); (Some "suffix", Regexp.Many Regexp.any); (None, Regexp.lit ".");
   (Some "extension", Regexp.OneOf [to_bytes "network"; to_bytes "netdev"])].

(** The VLAN interface a file of the agent is for. *)
Definition vlan_of_file (fileName : string) : option string :=
  match Regexp.GroupsMap vlan_file_regex fileName "interface", Regexp.GroupsMap vlan_file_regex fileName "suffix" with
  | Some currIface, Some suffix => if bool_decide (suffix = "google-guest-agent") then Some currIface else None
  | _, _ => None
  end.

(** ** Writing and rolling back files *)
Section files.
Context `{OsFaults} `{IniFile networkdConfig} `{IniFile networkdNetdevConfig}.

(** [networkdConfig.write]: whether the file was written. *)
Definition write_config (sc : networkdConfig) (fPath : string) : M host (bool * option error) :=
  same ← equals zero_config sc fPath;
  if (same : bool) then mret (false, None)
  else
    e ← os_MkdirAll (Dir fPath);
    match e with
    | Some e => mret (false, Some (ErrFmt ("error creating configuration directory " +:+ Dir fPath) e))
    | None =>
        e ← WriteIniFile fPath sc;
        match e with
        | Some e => mret (false, Some (ErrWrap ("error saving .network config: " +:+ fPath) e))
        | None => mret (true, None)
        end
    end.

(** [networkdNetdevConfig.write]. *)
Definition write_netdev (sn : Module) (nd : networkdNetdevConfig) (iface : string) : M host (bool * option error) :=
  same ← equals zero_netdev nd (netdevFile sn iface);
  if (same : bool) then mret (false, None)
  else
    e ← WriteIniFile (netdevFile sn iface) nd;
    match e with
    | Some e => mret (false, Some (ErrWrap ("error saving .netdev config for " +:+ iface) e))
    | None => mret (true, None)
    end.

Definition vlan_network (vic : VlanInterface) (iface : string) : networkdConfig :=
  mkConfig (mkMatch iface "vlan") (mkNetwork "yes" false []) None (Some (mkLink (vlan_MacAddr vic) (VlanMTU vic))).
Definition vlan_netdev (vic : VlanInterface) (iface : string) : networkdNetdevConfig :=
  mkNetdevConfig (mkNetdev iface "vlan") (mkVlan (VlanID vic) false).

Definition writeVlanConfig (sn : Module) (vic : VlanInterface) : M host (bool * option error) :=
  iface ← some_or_panic (InterfaceName vic);
  '(wroteNetwork, err) ← write_config (vlan_network vic iface) (networkFile sn iface);
  match err with
  | Some e => mret (false, Some (ErrWrap "failed to write networkd's vlan .network config" e))
  | None =>
      '(wroteNetdev, err) ← write_netdev sn (vlan_netdev vic iface) iface;
      match err with
      | Some e => mret (false, Some (ErrWrap "failed to write networkd's vlan .netdev config" e))
      | None => mret (wroteNetwork || wroteNetdev, None)
      end
  end.

Definition ethernet_config (iface : string) (ipv6 : bool) (vlans : list string) (primary : bool) : networkdConfig :=
  mkConfig (mkMatch iface "") (mkNetwork (if ipv6 then "yes" else "ipv4") primary vlans)
    (if primary then None else Some (mkDHCP false false)) None.

Definition writeEthernetConfig (nic : Configuration) (filePath : string) (primary : bool) : M host (bool * option error) :=
  iface ← some_or_panic (iface_name nic);
  vlans ← some_or_panic (VlanNames nic);
  '(wrote, err) ← write_config (ethernet_config iface (SupportsIPv6 nic) vlans primary) filePath;
  match err with
  | Some e => mret (false, Some (ErrWrap "failed to write networkd's ethernet interface config" e))
  | None => mret (wrote, None)
  end.

Definition rollbackConfiguration (configFile : string) : M host (bool * option error) :=
  x ← Exists configFile TypeFile;
  if negb x then mret (false, None)
  else
    e ← os_Remove configFile;
    match e with
    | Some e => mret (false, Some (ErrWrap ("failed to remove systemd-networkd config(" +:+ configFile +:+ ")") e))
    | None => mret (true, None)
    end.

(** The body of [cleanupVlanConfigs]' loop; [inr] leaves it. *)
Definition cleanup_file (sn : Module) (keepMe : list string) (requiresRestart : bool) (entry : string * node)
    : M host (bool + bool * error) :=
  let '(fileName, nd) := entry in
  if bool_decide (nd = NDir) then mret (inl requiresRestart)
  else
    match vlan_of_file fileName with
    | None => mret (inl requiresRestart)
    | Some currIface =>
        if bool_decide (currIface ∈ keepMe) then mret (inl requiresRestart)
        else
          e ← os_Remove (path_Join [configDir sn; fileName]);
          match e with
          | Some e => mret (inr (requiresRestart, ErrWrap ("failed to remove vlan interface config(" +:+ fileName +:+ ")") e))
          | None => mret (inl true)
          end
    end.

Definition cleanupVlanConfigs (sn : Module) (keepMe : list string) : M host (bool * option error) :=
  x ← Exists (configDir sn) TypeDir;
  if negb x then mret (false, None)
  else
    files ← os_ReadDir (configDir sn);
    match files with
    | Err e => mret (false, Some (ErrWrap ("failed to read content from " +:+ configDir sn) e))
    | Ok files =>
        r ← for_until files false (cleanup_file sn keepMe);
        mret (match r with inl b => (b, None) | inr (b, e) => (b, Some e) end)
    end.
End files.

(** ** The module *)
Section module.
Context `{Commands} `{LookPath} `{OsFaults} `{OsInfo.Uname} `{IniFile networkdConfig} `{IniFile networkdNetdevConfig}.
Context `{NetworkctlJson} `{FsNotify} (config : Sections) (systemdConfigDir : string).

(** [Configure]; [systemdConfigDir] is the option of the section Unstable. *)
Definition Configure : M state (option error) :=
  _ ← when (negb (bool_decide (systemdConfigDir = ""))) (on_mod (set_configDir systemdConfigDir));
  mret None.

(** The first line with one of the keys, in the order of the lines. *)
Definition interfaceConfiguredText (sn : Module) (iface : string) : M host (result bool) :=
  r ← run_output ["networkctl"; "status"; iface];
  mret (match r with
        | Err e => Err e
        | Ok out =>
            match list_find (λ line, existsb (λ key, Contains line (key +:+ ":")) (networkCtlKeys sn) = true) (Split out nl) with
            | Some (_, line) => Ok (Contains line "configured")
            | None => Err (ErrMsg "could not determine interface state(plain text output)")
            end
        end).

Definition interfaceConfiguredJSON (sn : Module) (iface : string) : M host (result bool) :=
  r ← run_output ["networkctl"; "status"; iface; "--json=short"];
  mret (match r with
        | Err e => Err (ErrWrap "error checking systemd-networkd network status(json output)" e)
        | Ok out =>
            match json_members out with
            | Err e => Err (ErrWrap "failed to unmarshal interface status" e)
            | Ok interfaceStatus =>
                match omap (λ key, interfaceStatus !! key) (networkCtlKeys sn) with
                | state :: _ => Ok (bool_decide (state = Some "configured"))
                | [] => Err (ErrMsg "could not determine interface state(json output)")
                end
            end
        end).

(** The second field of the first line; without one the index panics. *)
Definition version_field (out : string) : option string :=
  first ← Split out nl !! 0; Split first (byte_of 32) !! 1.

Definition check_interface (sn : Module) (iface : string) : M host (result bool) :=
  configured ← interfaceConfiguredJSON sn iface;
  match configured with
  | Ok b => mret (Ok b)
  | Err _ =>
      configured ← interfaceConfiguredText sn iface;
      mret (match configured with
            | Ok b => Ok b
            | Err e => Err (ErrWrap "failed to check interface state using plain text output" e)
            end)
  end.

Definition check_service (sn : Module) (iface : string) : M host (result bool) :=
  '(status, err) ← Daemon.UnitStatus "systemd-networkd.service";
  match err with
  | Some e => mret (Err (ErrWrap "error checking systemd-networkd service status" e))
  | None =>
      match status with
      | Daemon.Active => check_interface sn iface
      | _ => mret (Ok false)
      end
  end.

Definition IsManaging (opts : list Configuration) : M state (result bool) :=
  sn ← gets the_mod;
  match GetPrimaryNIC opts with
  | (_, Some e) => mret (Err (ErrWrap "failed to get primary NIC" e))
  | (ifaceNIC, None) =>
      iface ← some_or_panic (ifaceNIC ≫= iface_name);
      path ← on_host (execLookPath "networkctl");
      match path with
      | Err e => mret (if is_not_found e then Ok false else Err (ErrWrap "error looking up networkctl path" e))
      | Ok _ =>
          res ← on_host (run_output ["networkctl"; "--version"]);
          match res with
          | Err e => mret (Err (ErrWrap "failed to get networkctl version" e))
          | Ok out =>
              versionString ← some_or_panic (version_field out);
              match Atoi versionString with
              | None => mret (Err (ErrMsg "error parsing systemd version"))
              | Some version =>
                  if (version <? minSupportedVersion)%Z then mret (Ok false)
                  else on_host (check_service sn iface)
              end
          end
      end
  end.

(** The events of the lease directory until all interfaces have written, or
    the time-out. *)
Fixpoint wait_leases (events : list bool) (numWrites numInterfaces : Z) : option error :=
  match events with
  | [] => Some (ErrMsg "context deadline exceeded")
  | write :: events =>
      let numWrites := (numWrites + (if write then 1 else 0))%Z in
      if (numInterfaces <=? numWrites)%Z then None else wait_leases events numWrites numInterfaces
  end.

Definition Reload (numInterfaces : Z) : M state (option error) :=
  _ ← on_mod (set_dhcpWaitErr None);
  err ← on_host (run_command_ "error reloading systemd-networkd network configs" ["networkctl"; "reload"]);
  match err with
  | Some e => mret (Some e)
  | None =>
      sn ← gets the_mod;
      x ← on_host (Exists (dhcpLeasesDir sn) TypeDir);
      if negb x || (numInterfaces =? 0)%Z then mret None
      else
        h ← gets sys;
        match fs_watcher h with
        | Some _ => mret None
        | None =>
            match wait_leases (fs_events h) 0 numInterfaces with
            | Some e => _ ← on_mod (set_dhcpWaitErr (Some e)); mret None
            | None => mret None
            end
        end
  end.

(** The body of [WriteDropins]' loop. *)
Definition write_dropin (sn : Module) (filePrefix : string) (nic : Configuration) (changed : bool)
    : M host (bool + bool * error) :=
  manage ← ShouldManage config nic;
  if negb manage then mret (inl changed)
  else
    iface ← some_or_panic (iface_name nic);
    let filePath := dropinFile sn filePrefix iface in
    e ← os_MkdirAll (Dir filePath);
    match e with
    | Some e => mret (inr (changed, ErrFmt ("error creating drop-in directory " +:+ Dir filePath) e))
    | None =>
        '(wrote, err) ← writeEthernetConfig nic filePath (Index nic =? 0)%Z;
        mret (match err with
              | Some e => inr (changed, ErrFmt "error writing systemd-networkd drop-in configs" e)
              | None => inl (changed || wrote)
              end)
    end.

Definition left_by {A} (r : A + A * error) : A * option error :=
  match r with inl a => (a, None) | inr (a, e) => (a, Some e) end.

Definition WriteDropins (nics : list Configuration) (filePrefix : string) : M state (bool * option error) :=
  sn ← gets the_mod;
  r ← on_host (for_until nics false (λ changed nic, write_dropin sn filePrefix nic changed));
  mret (left_by r).

Definition rollback_dropin (sn : Module) (filePrefix : string) (active : bool) (nic : Configuration) : M host (unit + error) :=
  skip ← keeps_nic config active nic;
  if (skip : bool) then mret (inl tt)
  else
    iface ← some_or_panic (iface_name nic);
    let filePath := dropinFile sn filePrefix iface in
    '(_, err) ← rollbackConfiguration filePath;
    match err with
    | Some e => mret (inr (ErrWrap "error rolling back systemd-networkd drop-in config" e))
    | None =>
        e ← os_RemoveAll (Dir filePath);
        mret (match e with
              | Some e => inr (ErrWrap "error removing systemd-networkd drop-in directory" e)
              | None => inl tt
              end)
    end.

Definition RollbackDropins (nics : list Configuration) (filePrefix : string) (active : bool) : M state (option error) :=
  sn ← gets the_mod;
  r ← on_host (for_until nics tt (λ _ nic, rollback_dropin sn filePrefix active nic));
  mret (match r with inl _ => None | inr e => Some e end).

(** The VLANs of a NIC: their names are to be kept. *)
Definition setup_vlans (sn : Module) (vics : list VlanInterface) (keep : list string)
    : M host (list string * bool + error) :=
  for_until vics (keep, false) (λ '(keep, wroteVlan) vic,
    '(wrote, err) ← writeVlanConfig sn vic;
    match err with
    | Some e => mret (inr (ErrWrap "error writing vlan configs" e))
    | None =>
        name ← some_or_panic (InterfaceName vic);
        mret (inl (keep ++ [name], wroteVlan || wrote))
    end).

(** The body of [Setup]'s loop. *)
Definition setup_nic (sn : Module) (nic : Configuration) (keep : list string) (changed : bool)
    : M host (list string * bool + error) :=
  manage ← ShouldManage config nic;
  if negb manage then mret (inl (keep, changed))
  else
    iface ← some_or_panic (iface_name nic);
    '(wroteEthernet, err) ← writeEthernetConfig nic (networkFile sn iface) (Index nic =? 0)%Z;
    match err with
    | Some e => mret (inr (ErrFmt "error writing network configs" e))
    | None =>
        _ ← rollbackConfiguration (deprecatedNetworkFile sn iface);
        r ← setup_vlans sn (VlanInterfaces_ nic) keep;
        mret (match r with
              | inr e => inr e
              | inl (keep, wroteVlan) => inl (keep, changed || (wroteVlan || wroteEthernet))
              end)
    end.

Definition Setup (opts : list Configuration) (forceReload : bool) : M state (option error) :=
  let nicConfigs := FilteredNICConfigs opts in
  sn ← gets the_mod;
  r ← on_host (for_until nicConfigs ([], false) (λ '(keep, changed) nic, setup_nic sn nic keep changed));
  match r with
  | inr e => mret (Some e)
  | inl (keepVlanConfigs, changed) =>
      '(vlanCleanedup, err) ← on_host (cleanupVlanConfigs sn keepVlanConfigs);
      match err with
      | Some e => mret (Some (ErrWrap "error cleaning up vlan configs" e))
      | None =>
          if negb forceReload && negb changed && negb vlanCleanedup then mret None
          else
            err ← Reload (Z.of_nat (length nicConfigs));
            mret (ErrWrap "error reloading systemd-networkd daemon" <$> err)
      end
  end.

(** The loop of [Rollback]: what the last NIC of the loop needed. *)
Definition rollback_nic (sn : Module) (active : bool) (requires : bool) (nic : Configuration) : M host bool :=
  skip ← keeps_nic config active nic;
  if (skip : bool) then mret requires
  else
    iface ← some_or_panic (iface_name nic);
    '(reqRestart1, _) ← rollbackConfiguration (networkFile sn iface);
    '(reqRestart2, _) ← rollbackConfiguration (deprecatedNetworkFile sn iface);
    mret (reqRestart1 || reqRestart2).

Definition Rollback (opts : list Configuration) (active : bool) : M state (bool * option error) :=
  sn ← gets the_mod;
  ethernetRequiresReload ← on_host (for_acc (FilteredNICConfigs opts) false (rollback_nic sn active));
  '(vlanCleanedUp, err) ← on_host (cleanupVlanConfigs sn []);
  match err with
  | Some e => mret (false, Some (ErrWrap "error cleaning up vlan configs" e))
  | None =>
      if negb ethernetRequiresReload && negb vlanCleanedUp then mret (false, None)
      else if negb active then
        err ← Reload 0;
        mret (true, ErrWrap "error reloading systemd-networkd daemon" <$> err)
      else mret (true, None)
  end.

(** ** For netplan *)

(** The drop-in is read into [cfg] itself, and [reflect.DeepEqual] of a pointer
    and a struct is false. *)
Definition netplan_vlan_config (vlan : VlanInterface) (iface : string) : networkdConfig :=
  mkConfig (mkMatch iface "")
    (mkNetwork (if bool_decide (IPv6Addresses vlan = []) then "ipv4" else "yes") false [])
    (Some (mkDHCP false false)) None.

Definition netplan_vlan (sn : Module) (prefix : string) (vlan : VlanInterface) (configChanged : bool)
    : M host (bool + bool * error) :=
  iface ← some_or_panic (InterfaceName vlan);
  let path := dropinFile sn prefix iface in
  cfg ← ReadIniFile path (netplan_vlan_config vlan iface);
  match cfg with
  | Err e => mret (inr (configChanged, ErrWrap "failed to read networkd's vlan dropin" e))
  | Ok cfg =>
      '(_, err) ← write_config cfg path;
      mret (match err with
            | Some e => inr (configChanged, ErrWrap "failed to write networkd's vlan .network config" e)
            | None => inl true
            end)
  end.

Definition WriteNetplanVlanDropins (prefix : string) (nics : list Configuration) : M state (bool * option error) :=
  sn ← gets the_mod;
  r ← on_host (for_until nics false (λ configChanged nic,
        manage ← ShouldManage config nic;
        if negb manage then mret (inl configChanged)
        else for_until (VlanInterfaces_ nic) configChanged (λ configChanged vlan, netplan_vlan sn prefix vlan configChanged)));
  mret (left_by r).

(** [vlanDropins]: the keys of the map, in the order of the range over it. *)
Definition RollbackNetplanVlanDropins (vlanDropins : list string) (prefix : string) : M state (bool * option error) :=
  sn ← gets the_mod;
  r ← on_host (for_until vlanDropins false (λ configChanged vlan,
        let path := dropinFile sn prefix vlan in
        x ← Exists path TypeFile;
        if negb x then mret (inl configChanged)
        else
          e ← os_RemoveAll (Dir path);
          mret (match e with
                | Some e => inr (configChanged, ErrWrap "failed to remove systemd-networkd vlan dropin directory" e)
                | None => inl true
                end)));
  mret (left_by r).
End module.
End Networkd.
