(* ===== verification/NetworkdFacts.v ===== *)
(** * Theorems on the networkd module

    Which files the pattern of VLANs names, what a set-up leaves behind and
    when it reloads, what a roll-back removes and what it reports. *)
From Stdlib Require Import Ascii.
From stdpp Require Import pretty.
From S2P Require Import Prelude GoStrings GoStringFacts Os Paths Accounts Daemon OsInfo Regexp NetAddr Address Nic Ini HostRules Networkd.

Module NetworkdFacts.
Import Accounts Address Nic Ini Networkd Paths HostRules.

(** ** The names of the files *)
Definition dash : byte := byte_of 45.
Definition dot : byte := byte_of 46.

Lemma first_unique {A} (c : A) a b r e : c ∉ a → c ∉ b → a ++ c :: r = b ++ c :: e → a = b ∧ r = e.
Proof.
  revert b. induction a as [|x a IH]; intros [|y b] Ha Hb E; simplify_eq/=; [done|set_solver|set_solver|].
  destruct (IH b) as [-> ->]; [set_solver|set_solver|done|done].
Qed.

Lemma only_unique {A} (c : A) a b p q : c ∉ a → c ∉ b → p ++ c :: q = a ++ c :: b → p = a ∧ q = b.
Proof.
  revert a. induction p as [|x p IH]; intros [|y a] Ha Hb E; simplify_eq/=; [done|set_solver|set_solver|].
  destruct (IH a) as [-> ->]; [set_solver|done|done|done].
Qed.

Lemma first_split `{EqDecision A} (c : A) l : c ∈ l → ∃ a b, l = a ++ c :: b ∧ c ∉ a.
Proof.
  induction l as [|x l IH]; [by intros ?%elem_of_nil|]. destruct (decide (x = c)) as [->|Hne].
  - intros _. exists [], l. split; [done|apply not_elem_of_nil].
  - intros [->|Hin]%elem_of_cons; [done|]. destruct (IH Hin) as (a & b & -> & Ha). exists (x :: a), b. set_solver.
Qed.

Lemma last_not_digit (a d w : bytes) :
  d ≠ [] → Forall (λ b, Regexp.is_digit b = true) d → a ++ d = w → ∃ b, last w = Some b ∧ Regexp.is_digit b = true.
Proof.
  intros Hd HF <-. destruct (last d) as [b|] eqn:E.
  - exists b. rewrite last_app, E. split; [done|]. rewrite Forall_forall in HF. apply HF. by apply last_Some_elem_of.
  - by apply last_None in E.
Qed.

(** The texts of a match, element by element. *)
Lemma vlan_texts texts :
  Regexp.texts_ok vlan_file_regex texts →
  ∃ pr x d suf e, texts = [pr; [dash]; x; [dot]; d; [dash]; suf; [dot]; e] ∧
    d ≠ [] ∧ Forall (λ b, Regexp.is_digit b = true) d.
Proof.
  unfold Regexp.texts_ok, vlan_file_regex. intros Hok.
  repeat match goal with H : Forall2 _ (_ :: _) _ |- _ => apply Forall2_cons_inv_l in H as (? & ? & ? & H & ->) end.
  apply Forall2_nil_inv_l in Hok as ->. cbn [snd Regexp.item_ok Regexp.lit] in *.
  repeat match goal with H : _ ∈ [to_bytes _] |- _ => apply list_elem_of_singleton in H; subst end.
  do 5 eexists. split; [reflexivity|]. naive_solver.
Qed.

Lemma config_name_bytes p iface ext :
  to_bytes (config_name p iface ext) =
    to_bytes (pretty p) ++ dash :: to_bytes iface ++ dash :: (to_bytes "google" ++ dash :: to_bytes "guest" ++ dash :: to_bytes "agent" ++ dot :: to_bytes ext).
Proof.
  unfold config_name. rewrite !to_bytes_app. change (to_bytes "-") with [dash].
  change (to_bytes "-google-guest-agent.") with
    (dash :: to_bytes "google" ++ dash :: to_bytes "guest" ++ dash :: to_bytes "agent" ++ [dot]).
  cbn [app]. repeat (rewrite <-app_assoc; cbn [app]). done.
Qed.

Lemma digits_lack p c : (0 ≤ p)%Z → Regexp.is_digit c = false → c ∉ to_bytes (pretty p).
Proof.
  intros Hp Hc Hin. pose proof (pretty_digits p Hp) as HF. rewrite Forall_forall in HF. specialize (HF _ Hin).
  unfold is_digit, Regexp.is_digit in *. apply andb_false_iff in Hc as [?%N.leb_gt|?%N.leb_gt]; lia.
Qed.

Ltac lacks_by_compute := apply (bool_decide_unpack (_ ∉ _)); vm_compute; exact I.
Lemma google_dash : dash ∉ to_bytes "google". Proof. lacks_by_compute. Qed.
Lemma guest_dash : dash ∉ to_bytes "guest". Proof. lacks_by_compute. Qed.
Lemma agent_dash : dash ∉ to_bytes "agent". Proof. lacks_by_compute. Qed.
Lemma suffix_dot : dot ∉ to_bytes "google-guest-agent". Proof. lacks_by_compute. Qed.

Lemma agent_suffix : to_bytes "google-guest-agent" = to_bytes "google" ++ dash :: to_bytes "guest" ++ dash :: to_bytes "agent".
Proof. done. Qed.

Definition extension (ext : string) : Prop := ext = "network" ∨ ext = "netdev".

Lemma extension_dash ext : extension ext → dash ∉ to_bytes ext.
Proof. intros [->| ->]; lacks_by_compute. Qed.
Lemma extension_dot ext : extension ext → dot ∉ to_bytes ext.
Proof. intros [->| ->]; lacks_by_compute. Qed.

(** A dash after a digit in the name of a file of the agent ends the interface. *)
Lemma digit_dash (I d A R ext : bytes) :
  dash ∉ I → dash ∉ ext → d ≠ [] → Forall (λ b, Regexp.is_digit b = true) d →
  (A ++ d) ++ dash :: R = I ++ dash :: (to_bytes "google" ++ dash :: to_bytes "guest" ++ dash :: to_bytes "agent" ++ dot :: ext) →
  A ++ d = I ∧ R = to_bytes "google" ++ dash :: to_bytes "guest" ++ dash :: to_bytes "agent" ++ dot :: ext.
Proof.
  intros HI Hext Hd HF E.
  assert (Hlast : ∀ B w, A ++ d = B ++ dash :: w → dash ∉ w → w ≠ [] ∧ ∃ b, last w = Some b ∧ Regexp.is_digit b = true).
  { intros B w EB Hw. destruct (last_not_digit A d _ Hd HF EB) as (b & Hb & Hdig).
    destruct w as [|x w]; [rewrite last_app in Hb; injection Hb as <-; by vm_compute in Hdig|].
    split; [done|]. exists b. split; [|done]. rewrite last_app in Hb. by rewrite !last_cons in *; destruct (last w). }
  destruct (decide (dash ∈ A ++ d)) as [Hin|Hout]; [|by apply first_unique in E].
  apply first_split in Hin as (B1 & C1 & E1 & HB1). rewrite E1 in E. rewrite <-app_assoc in E. cbn [app] in E.
  apply first_unique in E as [-> E]; [|done..].
  destruct (decide (dash ∈ C1)) as [Hin|Hout].
  2: { apply first_unique in E as [-> _]; [|done|apply google_dash]. destruct (Hlast I _ E1 google_dash) as [_ (b & Hb & Hdig)].
       vm_compute in Hb. injection Hb as <-. by vm_compute in Hdig. }
  apply first_split in Hin as (B2 & C2 & -> & HB2). rewrite <-app_assoc in E. cbn [app] in E.
  apply first_unique in E as [-> E]; [|done|apply google_dash].
  destruct (decide (dash ∈ C2)) as [Hin|Hout].
  2: { apply first_unique in E as [-> _]; [|done|apply guest_dash].
       rewrite app_comm_cons, app_assoc in E1. destruct (Hlast _ _ E1 guest_dash) as [_ (b & Hb & Hdig)].
       vm_compute in Hb. injection Hb as <-. by vm_compute in Hdig. }
  apply first_split in Hin as (B3 & C3 & -> & HB3). rewrite <-app_assoc in E. cbn [app] in E.
  apply first_unique in E as [-> E]; [|done|apply guest_dash].
  exfalso. assert (Hn : dash ∈ C3 ++ dash :: R) by set_solver. rewrite E in Hn.
  pose proof agent_dash. set_solver.
Qed.

Lemma vlan_of_file_name p iface ext parent id :
  (0 ≤ p)%Z → (0 ≤ id)%Z → extension ext → lacks dash parent → lacks nl parent →
  iface = "gcp." +:+ parent +:+ "." +:+ pretty id →
  vlan_of_file (config_name p iface ext) = Some iface.
Proof.
  intros Hp Hid Hext Hpar Hnl Ei.
  assert (Hdash : dash ∉ to_bytes iface).
  { rewrite Ei, !to_bytes_app. pose proof (digits_lack id dash Hid eq_refl).
    assert (dash ∉ to_bytes "gcp.") by lacks_by_compute. assert (dash ∉ to_bytes ".") by lacks_by_compute.
    unfold lacks in Hpar. set_solver. }
  assert (Hs : ∃ texts, Regexp.search vlan_file_regex (to_bytes (config_name p iface ext)) = Some texts).
  { apply (Regexp.search_complete _ _ []
      [to_bytes (pretty p); [dash]; to_bytes ("gcp." +:+ parent); [dot]; to_bytes (pretty id); [dash];
       to_bytes "google-guest-agent"; [dot]; to_bytes ext] []).
    - assert (Hany : ∀ z, (0 ≤ z)%Z → Forall (λ b, Regexp.is_digit b = true) (to_bytes (pretty z))).
      { intros z Hz. eapply Forall_impl; [by apply pretty_digits|]. intros b [? ?]. apply andb_true_iff. split; by apply N.leb_le. }
      assert (Hne : ∀ z, (0 ≤ z)%Z → to_bytes (pretty z) ≠ []).
      { intros z Hz E. apply (f_equal of_bytes) in E. rewrite of_to_bytes in E. pose proof (Hany z Hz).
        destruct (decide (z = 0)%Z) as [->|]; [by vm_compute in E|]. rewrite pretty_N_to_Z in E by lia.
        destruct (digits_pretty_go (Z.to_N z) "") as [Ed _]. rewrite E in Ed. cbn in Ed. injection Ed. lia. }
      assert (Hline : ∀ l, nl ∉ l → Forall (λ b, Regexp.any b = true) l).
      { intros l Hl. apply Forall_forall. intros b Hb. unfold Regexp.any. rewrite negb_true_iff. apply beqb_ne. by intros ->. }
      unfold Regexp.texts_ok, vlan_file_regex. repeat apply Forall2_cons_2; cbn [snd Regexp.item_ok Regexp.lit];
        try (by apply list_elem_of_singleton); try (by split; auto); [..|by constructor].
      + apply Hline. rewrite to_bytes_app. assert (nl ∉ to_bytes "gcp.") by lacks_by_compute. unfold lacks in Hnl. set_solver.
      + apply Hline. lacks_by_compute.
      + destruct Hext as [->| ->]; set_solver.
    - cbn [app concat]. rewrite !app_nil_r, config_name_bytes, Ei, !to_bytes_app, agent_suffix. change (to_bytes ".") with [dot].
      cbn [app]. repeat (rewrite <-app_assoc; cbn [app]). done. }
  destruct Hs as [texts Hs]. destruct (Regexp.search_sound _ _ _ Hs) as [Hok (pre & post & E)].
  destruct (vlan_texts _ Hok) as (pr & x & d & suf & e & -> & Hd & Hdig).
  assert (HR : x ++ dot :: d = to_bytes iface ∧
      suf ++ dot :: e ++ post = to_bytes "google-guest-agent" ++ dot :: to_bytes ext).
  { rewrite config_name_bytes in E. cbn [concat] in E. rewrite !app_nil_r in E. cbn [app] in E.
    set (T := to_bytes "google" ++ _) in E.
    assert (ET : to_bytes "google-guest-agent" ++ dot :: to_bytes ext = T).
    { rewrite agent_suffix. repeat (rewrite <-app_assoc; cbn [app]). done. }
    rewrite ET. set (R := suf ++ dot :: e ++ post).
    assert (E' : to_bytes (pretty p) ++ dash :: (to_bytes iface ++ dash :: T) = (pre ++ pr) ++ dash :: ((x ++ dot :: d) ++ dash :: R)).
    { rewrite E. unfold R. repeat (rewrite <-app_assoc; cbn [app]). done. }
    clear E. pose proof (extension_dash _ Hext) as Hed. destruct (decide (dash ∈ pre ++ pr)) as [Hin|Hout].
    - exfalso. apply first_split in Hin as (B1 & B2 & EB & HB). rewrite EB, <-app_assoc in E'. cbn [app] in E'.
      apply first_unique in E' as [_ E']; [|by apply digits_lack|done].
      destruct (digit_dash (to_bytes iface) d (B2 ++ dash :: x ++ [dot]) R (to_bytes ext)) as [E1 _]; [done..| |].
      + fold T. rewrite E'. repeat (rewrite <-app_assoc; cbn [app]). done.
      + apply Hdash. rewrite <-E1. set_solver.
    - apply first_unique in E' as [_ E']; [|by apply digits_lack|done].
      destruct (digit_dash (to_bytes iface) d (x ++ [dot]) R (to_bytes ext)) as [E1 E2]; [done..| |].
      + fold T. rewrite E'. repeat (rewrite <-app_assoc; cbn [app]). done.
      + rewrite <-app_assoc in E1. by split. }
  destruct HR as [Hif Hsuf]. clear E.
  assert (suf = to_bytes "google-guest-agent") as ->.
  { apply only_unique in Hsuf as [-> _]; [done|apply suffix_dot|by apply extension_dot]. }
  unfold vlan_of_file, Regexp.GroupsMap. rewrite Hs.
  assert (Regexp.group_text "interface" vlan_file_regex
            [pr; [dash]; x; [dot]; d; [dash]; to_bytes "google-guest-agent"; [dot]; e] = iface) as ->.
  { transitivity (of_bytes (x ++ [dot] ++ d ++ [])); [reflexivity|]. rewrite app_nil_r. cbn [app]. rewrite Hif. apply of_to_bytes. }
  reflexivity.
Qed.

(** An interface without a dot has no file that looks like that of a VLAN. *)
Lemma vlan_of_file_plain p iface ext :
  (0 ≤ p)%Z → extension ext → lacks dot iface → vlan_of_file (config_name p iface ext) = None.
Proof.
  intros Hp Hext Hi. unfold vlan_of_file, Regexp.GroupsMap.
  destruct (Regexp.search vlan_file_regex _) as [texts|] eqn:Hs; [|done]. exfalso.
  destruct (Regexp.search_sound _ _ _ Hs) as [Hok (pre & post & E)].
  destruct (vlan_texts _ Hok) as (pr & x & d & suf & e & -> & Hd & Hdig).
  rewrite config_name_bytes in E. cbn [concat] in E. rewrite !app_nil_r in E. cbn [app] in E.
  assert (E' : (pre ++ pr ++ dash :: x) ++ dot :: (d ++ dash :: suf ++ dot :: e ++ post) =
     (to_bytes (pretty p) ++ dash :: to_bytes iface ++ dash :: to_bytes "google-guest-agent") ++ dot :: to_bytes ext).
  { rewrite agent_suffix. repeat (rewrite <-app_assoc in *; cbn [app] in * ). by rewrite <-E. }
  apply only_unique in E' as [_ E'].
  - destruct d as [|b d]; [done|]. apply Forall_cons in Hdig as [Hb _]. destruct Hext as [->| ->]; cbn in E'; injection E' as -> _; by vm_compute in Hb.
  - pose proof (digits_lack p dot Hp eq_refl). pose proof suffix_dot. unfold lacks in Hi.
    assert (dash ≠ dot) by (intros ?%(f_equal Ascii.N_of_ascii); done). set_solver.
  - by apply extension_dot.
Qed.

(** ** What a computation sets up

    A target is a name in the configuration directory with the file that is
    wanted there, or none.  A computation sets targets up when it makes them
    true unless it fails, touches nothing else, and does nothing when they are
    true already. *)
Section targets.
Context `{OsFaults} `{IniFile networkdConfig} `{IniFile networkdNetdevConfig}.
Context (cd : string) (Hcd : clean_dir cd) (fault_free : ∀ n op p, os_fault n op p = None).

Inductive want := Want_config (c : networkdConfig) | Want_netdev (c : networkdNetdevConfig) | Want_none.
Definition target : Type := string * want.

Definition free (m : fsmap) (n : string) : Prop := no_link m (in_dir cd n).

Definition good (m : fsmap) (t : target) : Prop :=
  free m t.1 ∧
  match t.2 with
  | Want_config c => ∃ d, content m (in_dir cd t.1) = Some d ∧ ini_load d zero_config = Ok c
  | Want_netdev c => ∃ d, content m (in_dir cd t.1) = Some d ∧ ini_load d zero_netdev = Ok c
  | Want_none => content m (in_dir cd t.1) = None
  end.

(** Nothing moves but the targets. *)
Definition keeps (ts : list target) (m m' : fsmap) : Prop :=
  ∀ q, (∀ t, t ∈ ts → q ≠ in_dir cd t.1) →
    (∀ nd, m !! q = Some nd → m' !! q = Some nd) ∧ (m !! q = None → m' !! q = None ∨ m' !! q = Some NDir).

Lemma keeps_refl ts m : keeps ts m m.
Proof. intros q _. auto. Qed.

Lemma keeps_trans ts1 ts2 m1 m2 m3 : keeps ts1 m1 m2 → keeps ts2 m2 m3 → keeps (ts1 ++ ts2) m1 m3.
Proof.
  intros Hk1 Hk2 q Hq. destruct (Hk1 q) as [A1 A2]; [set_solver|]. destruct (Hk2 q) as [B1 B2]; [set_solver|].
  split; [auto|]. intros E. destruct (A2 E) as [E'|E']; [auto|right; auto].
Qed.

Lemma keeps_but_one n w m m' : keeps_but (in_dir cd n) m m' → keeps [(n, w)] m m'.
Proof. intros Hk q Hq. apply Hk. apply (Hq (n, w)). by left. Qed.

Lemma keeps_free ts m m' n : keeps ts m m' → n ∉ ts.*1 → free m n → free m' n.
Proof.
  intros Hk Hn Hf t Ht. destruct (Hk (in_dir cd n)) as [A1 A2].
  { intros t' Hin Eq. apply in_dir_inj in Eq. apply Hn, list_elem_of_fmap. by exists t'. }
  destruct (m !! in_dir cd n) as [nd|] eqn:E.
  - rewrite (A1 _ eq_refl) in Ht. injection Ht as ->. by destruct (Hf t).
  - destruct (A2 eq_refl); congruence.
Qed.

Lemma keeps_content ts m m' n : keeps ts m m' → n ∉ ts.*1 → free m n → content m' (in_dir cd n) = content m (in_dir cd n).
Proof.
  intros Hk Hn Hf. pose proof (keeps_free _ _ _ _ Hk Hn Hf). rewrite !content_direct by done.
  destruct (Hk (in_dir cd n)) as [A1 A2].
  { intros t' Hin Eq. apply in_dir_inj in Eq. apply Hn, list_elem_of_fmap. by exists t'. }
  destruct (m !! in_dir cd n) as [nd|] eqn:E; [by rewrite (A1 _ eq_refl)|]. by destruct (A2 eq_refl) as [-> | ->].
Qed.

Lemma keeps_good ts m m' t : keeps ts m m' → t.1 ∉ ts.*1 → good m t → good m' t.
Proof.
  intros Hk Hn [Hf Hg]. split; [by eapply keeps_free|]. by rewrite (keeps_content _ _ _ _ Hk Hn Hf).
Qed.

Definition sets_up {A} (m : M host A) (post ok un : A → Prop) (ts : list target) : Prop := ∀ h,
  Forall (λ t : target, free (nodes_of h) t.1) ts →
  wp m (λ r h', quiet h h' ∧ keeps ts (nodes_of h) (nodes_of h') ∧ post r ∧
                (ok r → Forall (good (nodes_of h')) ts) ∧
                (Forall (good (nodes_of h)) ts → un r ∧ nodes_of h' = nodes_of h)) h.

Lemma sets_up_ret {A} (a : A) (post ok un : A → Prop) : post a → un a → sets_up (mret a) post ok un [].
Proof. intros Hp Hu h _. apply wp_ret. split_and!; [done|apply keeps_refl|done|constructor|done]. Qed.

(** A computation that only looks. *)
Lemma sets_up_read {A B} (m : M host A) (f : A → M host B) (P : A → Prop) post ok un ts :
  (∀ h, wp m (λ a h', same h h' ∧ P a) h) → (∀ a, P a → sets_up (f a) post ok un ts) → sets_up (m ≫= f) post ok un ts.
Proof.
  intros Hm Hf h Hfree. wp_step. eapply wp_mono; [apply Hm|]. intros a h1 [[Hn Hr] HP].
  eapply wp_mono; [apply (Hf a HP h1); by rewrite Hn|]. cbn. unfold quiet. rewrite Hn, Hr. done.
Qed.

Lemma sets_up_bind {A B} (m : M host A) (f : A → M host B) (post1 ok1 un1 : A → Prop) post ok un ts1 ts2
    `{∀ a, Decision (ok1 a)} :
  NoDup (ts1 ++ ts2).*1 →
  sets_up m post1 ok1 un1 ts1 → (∀ a, un1 a → ok1 a) →
  (∀ a, post1 a → ok1 a → sets_up (f a) post ok (λ b, un1 a → un b) ts2) →
  (∀ a, post1 a → ¬ ok1 a → ∃ b, f a = mret b ∧ post b ∧ ¬ ok b) →
  sets_up (m ≫= f) post ok un (ts1 ++ ts2).
Proof.
  intros Hnd Hm Hun Hf Hbad h [Hf1 Hf2]%Forall_app. rewrite fmap_app in Hnd. apply NoDup_app in Hnd as (_ & Hdis & _).
  wp_step. eapply wp_mono; [by apply Hm|]. intros a h1 (Hq & Hk & Hp & Hok & Hsame). destruct (decide (ok1 a)) as [Ha|Ha].
  - eapply wp_mono; [apply (Hf a Hp Ha h1)|].
    { rewrite Forall_forall in *. intros t Ht. eapply keeps_free; [exact Hk| |by apply Hf2].
      intros Hin. apply (Hdis _ Hin), list_elem_of_fmap. by exists t. }
    intros b h2 (Hq2 & Hk2 & Hp2 & Hok2 & Hsame2). split_and!; [by etrans|by eapply keeps_trans|done| |].
    + intros Hb. apply Forall_app. split; [|auto]. rewrite Forall_forall in *. intros t Ht.
      eapply keeps_good; [exact Hk2| |by apply Hok]. apply Hdis, list_elem_of_fmap. by exists t.
    + intros [Hg1 Hg2]%Forall_app. destruct (Hsame Hg1) as [Hu Hn]. rewrite Hn in Hsame2. destruct (Hsame2 Hg2) as [Hb Hn2].
      split; [auto|congruence].
  - destruct (Hbad a Hp Ha) as (b & -> & Hpb & Hnb). apply wp_ret. split_and!; [done| |done|done|].
    + intros q Hq2. apply Hk. set_solver.
    + intros [Hg1 _]%Forall_app. destruct (Hsame Hg1) as [Hu _]. by apply Hun in Hu.
Qed.

Lemma sets_up_weaken {A} (m : M host A) (post ok un post' ok' un' : A → Prop) ts :
  sets_up m post ok un ts → (∀ a, post a → post' a) → (∀ a, ok' a → ok a) → (∀ a, un a → un' a) → sets_up m post' ok' un' ts.
Proof. intros Hm Hp Ho Hu h Hf. eapply wp_mono; [by apply Hm|]. intros a h' (? & ? & ? & Hok & Hun). split_and!; [done|done|by apply Hp|by intros ?%Ho%Hok|].
  intros Hg. destruct (Hun Hg). auto. Qed.

(** The INI library reads back what it writes. *)
Context (config_roundtrip : ∀ c t, ini_text c = Ok t → ini_load t zero_config = Ok c).
Context (netdev_roundtrip : ∀ c t, ini_text c = Ok t → ini_load t zero_netdev = Ok c).

Lemma keeps_nodes n w m m' : (∀ q, (∀ nd, m !! q = Some nd → m' !! q = Some nd) ∧ (m !! q = None → m' !! q = None ∨ m' !! q = Some NDir)) →
  keeps [(n, w)] m m'.
Proof. intros Hk q _. apply Hk. Qed.

(** Writing one file that is not the wanted one yet. *)
Lemma sets_up_write {C : Type} `{IniFile C} (zero c : C) (w : want) n (dir : option string) (on_err : error → error) (on_dir : error → error)
    `{!EqDecision C} :
  (∀ m, good m (n, w) ↔ free m n ∧ ∃ d, content m (in_dir cd n) = Some d ∧ ini_load d zero = Ok c) →
  (∀ t, ini_text c = Ok t → ini_load t zero = Ok c) →
  sets_up (same ← equals zero c (in_dir cd n);
           if (same : bool) then mret (false, None)
           else
             e ← (match dir with Some d => os_MkdirAll d | None => mret None end);
             match e with
             | Some e => mret (false, Some (on_dir e))
             | None =>
                 e ← WriteIniFile (in_dir cd n) c;
                 match e with Some e => mret (false, Some (on_err e)) | None => mret (true, None) end
             end)
    (λ _, True) (λ r, r.2 = None) (λ r, r = (false, None)) [(n, w)].
Proof.
  intros Hw Hrt h Hfree. apply Forall_cons in Hfree as [Hfree _]. cbn in Hfree. wp_step. eapply wp_mono; [by apply wp_equals|].
  intros b h1 [[Hn Hr] Hb]. destruct b.
  { wp_step. unfold quiet. rewrite Hn. split_and!; [done|apply keeps_refl|done| |].
    - intros _. apply Forall_singleton, Hw. split; [exact Hfree|by apply Hb].
    - done. }
  assert (Hng : ¬ good (nodes_of h) (n, w)) by (intros [_ Hg]%Hw; by apply Hb in Hg).
  set (mk := match dir with Some d => os_MkdirAll d | None => mret None end).
  assert (Hmk : wp mk (λ e h2, e = None ∧ quiet h h2 ∧ ∃ d, nodes_of h2 = mkdir_all d (nodes_of h)) h1).
  { unfold mk. destruct dir as [d|].
    - eapply wp_mono; [by apply wp_MkdirAll|]. intros e h2 (-> & E2 & Hq). split; [done|]. split; [unfold quiet in *; congruence|].
      exists d. by rewrite E2, Hn.
    - apply wp_ret. split; [done|]. split; [unfold quiet; congruence|]. exists "". by rewrite Hn. }
  wp_step. eapply wp_mono; [exact Hmk|]. intros e h2 (-> & Hq2 & d & E2). cbn beta iota.
  assert (Hkd : keeps [(n, w)] (nodes_of h) (nodes_of h2)) by (apply keeps_nodes; intros q; rewrite E2; apply mkdir_all_keeps).
  unfold WriteIniFile. wp_step. destruct (ini_text c) as [t|e] eqn:Et.
  2: { wp_step. wp_step. split_and!; [done|done|done|done|]. by intros [Hg _]%Forall_cons. }
  wp_step. eapply wp_mono; [by apply wp_WriteFile|]. intros e h3 [Hq3 E3]. cbn beta. apply wp_ret. destruct e as [e|]; cbn.
  { split_and!; [unfold quiet in *; congruence|by rewrite E3|done|done|]. by intros [Hg _]%Forall_cons. }
  rewrite E2 in E3. destruct (keeps_but_write (nodes_of h) (in_dir cd n) t d Hfree) as (Hk & Hc & Hl). rewrite <-E3 in Hk, Hc, Hl.
  split_and!; [unfold quiet in *; congruence|by apply keeps_but_one|done| |by intros [Hg _]%Forall_cons].
  intros _. apply Forall_singleton, Hw. split; [done|]. exists t. auto.
Qed.

Lemma sets_up_write_config n c : simple_name n →
  sets_up (write_config c (in_dir cd n)) (λ _, True) (λ r, r.2 = None) (λ r, r = (false, None)) [(n, Want_config c)].
Proof.
  intros Hs. unfold write_config. rewrite Dir_in_dir by done.
  apply (sets_up_write zero_config c (Want_config c) n (Some cd)); [done|apply config_roundtrip].
Qed.

Lemma sets_up_write_netdev sn iface c : configDir sn = cd → simple_name (config_name (priority sn) iface "netdev") →
  sets_up (write_netdev sn c iface) (λ _, True) (λ r, r.2 = None) (λ r, r = (false, None))
    [(config_name (priority sn) iface "netdev", Want_netdev c)].
Proof.
  intros Hsn Hs. unfold write_netdev, netdevFile. rewrite Hsn, path_Join_name by done.
  apply (sets_up_write zero_netdev c (Want_netdev c) _ None (ErrWrap ("error saving .netdev config for " +:+ iface)) id); [done|apply netdev_roundtrip].
Qed.

Lemma sets_up_rollback n : simple_name n →
  sets_up (rollbackConfiguration (in_dir cd n)) (λ _, True) (λ _, True) (λ _, True) [(n, Want_none)].
Proof.
  intros Hs h Hfree. apply Forall_cons in Hfree as [Hfree _]. cbn in Hfree. unfold rollbackConfiguration. wp_step.
  eapply wp_mono; [by apply wp_Exists_file|]. intros b h1 [[Hn Hr] ->]. cbn. rewrite is_file_content.
  case_bool_decide as Ec; cbn.
  2: { unfold quiet. rewrite Hn. split_and!; [done|apply keeps_refl|done| |done]. intros _. apply Forall_singleton.
       split; [done|]. cbn. destruct (content _ _) eqn:E; [|done]. destruct Ec. by eexists. }
  assert (Hng : ¬ Forall (good (nodes_of h)) [(n, Want_none)]) by (intros [[_ Hg] _]%Forall_cons; cbn in Hg; destruct Ec; congruence).
  destruct Ec as [d Ec]. rewrite content_direct in Ec by done. rewrite <-Hn in Ec. destruct (nodes_of h1 !! in_dir cd n) as [nd|] eqn:E; [|done].
  wp_step. eapply wp_mono; [apply (wp_Remove_file fault_free _ nd _ E); by destruct nd|]. intros e h2 (-> & E2 & Hq). cbn beta iota.
  wp_step. rewrite E2, Hn. split_and!; [unfold quiet in *; congruence|apply keeps_but_one, keeps_but_delete|done| |done].
  intros _. apply Forall_singleton. split.
  - intros t. cbn. by rewrite lookup_delete_eq.
  - cbn. rewrite content_direct; [by rewrite lookup_delete_eq|]. intros t. by rewrite lookup_delete_eq.
Qed.

(** ** A set-up of NICs *)
Context (sn : Module) (Hsn : configDir sn = cd) `{OsInfo.Uname} (config : Sections) (Hprimary : cfg_ManagePrimaryNIC config = false).

Definition is_inl {A B} (r : A + B) : Prop := match r with inl _ => True | inr _ => False end.
#[global] Instance is_inl_dec {A B} (r : A + B) : Decision (is_inl r).
Proof. destruct r; apply _. Defined.

Definition keep_is (k : list string) (r : list string * bool + error) : Prop := ∀ k' w, r = inl (k', w) → k' = k.

Lemma sets_up_until {A} (l : list A) (body : list string * bool → A → M host (list string * bool + error))
    (ts : A → list target) (names : A → list string) keep ch :
  (∀ x keep ch, x ∈ l → sets_up (body (keep, ch) x) (keep_is (keep ++ names x)) is_inl (λ r, r = inl (keep ++ names x, ch)) (ts x)) →
  NoDup (l ≫= ts).*1 →
  sets_up (for_until l (keep, ch) body) (keep_is (keep ++ (l ≫= names))) is_inl (λ r, r = inl (keep ++ (l ≫= names), ch)) (l ≫= ts).
Proof.
  revert keep ch. induction l as [|x l IH]; intros keep ch Hb Hnd.
  - cbn. rewrite app_nil_r. apply sets_up_ret; [|done]. by intros k' w [= <- _].
  - rewrite !bind_cons, app_assoc in *. cbn [for_until].
    assert (Hnd' := Hnd). rewrite fmap_app in Hnd'. apply NoDup_app in Hnd' as (_ & _ & Hnd').
    apply (sets_up_bind _ _ (keep_is (keep ++ names x)) is_inl (λ r, r = inl (keep ++ names x, ch))); [intros; apply _|done| | | |].
    + apply Hb. by left.
    + by intros a ->.
    + intros [[k w]|e] Hk Hi; [|done]. assert (k = keep ++ names x) as -> by (by eapply Hk).
      eapply sets_up_weaken; [apply (IH (keep ++ names x) w)|done|done|].
      * intros y k' ch' Hy. apply Hb. by right.
      * done.
      * cbn. intros a -> [= ->]. done.
    + intros [[k w]|e] Hk Hi; [by destruct Hi|]. exists (inr e). split_and!; [done|by intros k' w|by intros []].
Qed.

Context (Hprio : (0 ≤ priority sn)%Z) (Hdep : (0 ≤ deprecatedPriority sn)%Z).

Definition nic_name (nic : Configuration) : string := default "" (iface_name nic).
Definition vlan_name (vic : VlanInterface) : string := default "" (InterfaceName vic).
Definition net_name (iface : string) : string := config_name (priority sn) iface "network".
Definition netdev_name (iface : string) : string := config_name (priority sn) iface "netdev".
Definition dep_name (iface : string) : string := config_name (deprecatedPriority sn) iface "network".

Definition vlan_targets (vic : VlanInterface) : list target :=
  [(net_name (vlan_name vic), Want_config (vlan_network vic (vlan_name vic)));
   (netdev_name (vlan_name vic), Want_netdev (vlan_netdev vic (vlan_name vic)))].

(** The files of a NIC: the primary one is not managed. *)
Definition nic_targets (nic : Configuration) : list target :=
  if (Index nic =? 0)%Z then []
  else [(net_name (nic_name nic), Want_config (ethernet_config (nic_name nic) (SupportsIPv6 nic) (vlan_name <$> VlanInterfaces_ nic) false));
        (dep_name (nic_name nic), Want_none)] ++ (VlanInterfaces_ nic ≫= vlan_targets).
Definition nic_keep (nic : Configuration) : list string :=
  if (Index nic =? 0)%Z then [] else vlan_name <$> VlanInterfaces_ nic.

(** An interface with a plain name, the parent of its VLANs. *)
Record well_named (nic : Configuration) : Prop := {
  wn_iface : iface_name nic = Some (nic_name nic);
  wn_slash : lacks slash (nic_name nic);
  wn_dash : lacks dash (nic_name nic);
  wn_dot : lacks dot (nic_name nic);
  wn_nl : lacks nl (nic_name nic);
  wn_vlans : Forall (λ v, Parent v = Interface_ nic ∧ (0 ≤ VlanID v)%Z) (VlanInterfaces_ nic);
}.

Lemma simple_config_name p iface ext :
  (0 ≤ p)%Z → lacks slash iface → extension ext → simple_name (config_name p iface ext).
Proof.
  intros Hp Hi Hext. assert (Hd : dash ∈ to_bytes (config_name p iface ext)) by (rewrite config_name_bytes; set_solver).
  split.
  - unfold lacks. rewrite config_name_bytes. pose proof (digits_lack p slash Hp eq_refl). unfold lacks in Hi.
    assert (slash ∉ to_bytes "google") by lacks_by_compute. assert (slash ∉ to_bytes "guest") by lacks_by_compute.
    assert (slash ∉ to_bytes "agent") by lacks_by_compute. assert (slash ∉ to_bytes ext) by (destruct Hext as [->| ->]; lacks_by_compute).
    assert (slash ≠ dash) by (intros ?%(f_equal Ascii.N_of_ascii); done). assert (slash ≠ dot) by (intros ?%(f_equal Ascii.N_of_ascii); done).
    set_solver.
  - split_and!; intros E; rewrite E in Hd; revert Hd; lacks_by_compute.
Qed.

Lemma vlan_name_facts nic v : well_named nic → v ∈ VlanInterfaces_ nic →
  InterfaceName v = Some (vlan_name v) ∧ vlan_name v = "gcp." +:+ nic_name nic +:+ "." +:+ pretty (VlanID v) ∧
  lacks slash (vlan_name v) ∧ (0 ≤ VlanID v)%Z.
Proof.
  intros Hw Hv. pose proof (wn_vlans _ Hw) as HF. rewrite Forall_forall in HF. destruct (HF _ Hv) as [Hp Hid].
  pose proof (wn_iface _ Hw) as Hi. unfold iface_name in Hi. destruct (Interface_ nic) as [x|] eqn:Ex; [|done]. cbn in Hi. injection Hi as Hx.
  unfold vlan_name, InterfaceName. rewrite Hp. cbn. rewrite Hx. split_and!; [done|done| |done].
  unfold lacks. rewrite !to_bytes_app. pose proof (wn_slash _ Hw) as Hs. unfold lacks in Hs.
  pose proof (digits_lack (VlanID v) slash Hid eq_refl). assert (slash ∉ to_bytes "gcp.") by lacks_by_compute.
  assert (slash ∉ to_bytes ".") by lacks_by_compute. set_solver.
Qed.

Lemma networkFile_name iface : lacks slash iface → networkFile sn iface = in_dir cd (net_name iface).
Proof. intros Hs. unfold networkFile. rewrite Hsn. apply path_Join_name; [done|]. apply simple_config_name; [done..|by left]. Qed.

Lemma deprecatedFile_name iface : lacks slash iface → deprecatedNetworkFile sn iface = in_dir cd (dep_name iface).
Proof. intros Hs. unfold deprecatedNetworkFile. rewrite Hsn. apply path_Join_name; [done|]. apply simple_config_name; [done..|by left]. Qed.

Lemma sets_up_writeVlanConfig v : InterfaceName v = Some (vlan_name v) → lacks slash (vlan_name v) → NoDup (vlan_targets v).*1 →
  sets_up (writeVlanConfig sn v) (λ _, True) (λ r, r.2 = None) (λ r, r = (false, None)) (vlan_targets v).
Proof.
  intros Hv Hs Hnd. unfold writeVlanConfig. rewrite Hv.
  apply (sets_up_read _ _ (λ a, a = vlan_name v)); [intros h; by apply wp_ret|]. intros ? ->. rewrite networkFile_name by done.
  change (vlan_targets v) with ([(net_name (vlan_name v), Want_config (vlan_network v (vlan_name v)))] ++
    [(netdev_name (vlan_name v), Want_netdev (vlan_netdev v (vlan_name v)))]).
  assert (Hsimple : ∀ ext, extension ext → simple_name (config_name (priority sn) (vlan_name v) ext)) by (intros; by apply simple_config_name).
  eapply (sets_up_bind _ _ _ (λ r, r.2 = None)); [intros; apply _|done|apply sets_up_write_config, Hsimple; by left|by intros ? ->|..].
  - intros [w e] _ Hok. cbn in Hok. subst e. rewrite <-(app_nil_r [_]).
    eapply (sets_up_bind _ _ _ (λ r, r.2 = None)); [intros; apply _|cbn; apply NoDup_singleton|apply sets_up_write_netdev; [done|apply Hsimple; by right]|by intros ? ->|..].
    + intros [w2 e2] _ Hok. cbn in Hok. subst e2. apply sets_up_ret; [done|]. by intros [= ->] [= ->].
    + intros [w2 [e2|]] _ Hok; [|done]. eexists. split; [reflexivity|]. done.
  - intros [w [e|]] _ Hok; [|done]. eexists. split; [reflexivity|]. done.
Qed.

Lemma VlanNames_named nic : well_named nic → VlanNames nic = Some (vlan_name <$> VlanInterfaces_ nic).
Proof.
  intros Hw. unfold VlanNames. apply mapM_Some. rewrite Forall2_fmap_r. apply Forall_Forall2_diag, Forall_forall.
  intros v Hv. by apply (vlan_name_facts nic v).
Qed.

Lemma sets_up_writeEthernet nic : well_named nic →
  sets_up (writeEthernetConfig nic (networkFile sn (nic_name nic)) false) (λ _, True) (λ r, r.2 = None) (λ r, r = (false, None))
    [(net_name (nic_name nic), Want_config (ethernet_config (nic_name nic) (SupportsIPv6 nic) (vlan_name <$> VlanInterfaces_ nic) false))].
Proof.
  intros Hw. unfold writeEthernetConfig. rewrite (wn_iface _ Hw), VlanNames_named, networkFile_name by (done || apply Hw).
  apply (sets_up_read _ _ (λ a, a = nic_name nic)); [intros h; by apply wp_ret|]. intros ? ->.
  apply (sets_up_read _ _ (λ a, a = vlan_name <$> VlanInterfaces_ nic)); [intros h; by apply wp_ret|]. intros ? ->.
  rewrite <-(app_nil_r [_]).
  eapply (sets_up_bind _ _ _ (λ r, r.2 = None)); [intros; apply _|cbn; apply NoDup_singleton|apply sets_up_write_config|by intros ? ->|..].
  - apply simple_config_name; [done|apply Hw|by left].
  - intros [w e] _ Hok. cbn in Hok. subst e. apply sets_up_ret; [done|]. by intros [= ->].
  - intros [w [e|]] _ Hok; [|done]. eexists. split; [reflexivity|]. done.
Qed.

Lemma NoDup_targets {A} (l : list A) (ts : A → list target) x : x ∈ l → NoDup (l ≫= ts).*1 → NoDup (ts x).*1.
Proof.
  intros (l1 & l2 & ->)%list_elem_of_split. rewrite bind_app, fmap_app. intros (_ & _ & Hnd)%NoDup_app.
  rewrite bind_cons, fmap_app in Hnd. by apply NoDup_app in Hnd as (? & _ & _).
Qed.

Lemma sets_up_vlans nic keep : well_named nic → NoDup (VlanInterfaces_ nic ≫= vlan_targets).*1 →
  sets_up (setup_vlans sn (VlanInterfaces_ nic) keep) (keep_is (keep ++ (vlan_name <$> VlanInterfaces_ nic))) is_inl
    (λ r, r = inl (keep ++ (vlan_name <$> VlanInterfaces_ nic), false)) (VlanInterfaces_ nic ≫= vlan_targets).
Proof.
  intros Hw Hnd. unfold setup_vlans.
  assert (Hnames : vlan_name <$> VlanInterfaces_ nic = VlanInterfaces_ nic ≫= (λ v, [vlan_name v])).
  { induction (VlanInterfaces_ nic) as [|v l IH]; [done|]. cbn. by f_equal. }
  rewrite Hnames. apply sets_up_until; [|done]. intros v k w Hv. destruct (vlan_name_facts nic v Hw Hv) as (Hn & _ & Hsl & _).
  rewrite <-(app_nil_r (vlan_targets v)).
  eapply (sets_up_bind _ _ _ (λ r, r.2 = None)); [intros; apply _| |apply sets_up_writeVlanConfig; [done|done|]|by intros ? ->|..].
  - rewrite app_nil_r. by eapply NoDup_targets.
  - by eapply NoDup_targets.
  - intros [w' e] _ Hok. cbn in Hok. subst e. cbn beta iota. rewrite Hn.
    apply (sets_up_read _ _ (λ a, a = vlan_name v)); [intros h; by apply wp_ret|]. intros ? ->. apply sets_up_ret.
    + by intros k' w2 [= <- _].
    + intros [= ->]. by rewrite orb_false_r.
  - intros [w' [e|]] _ Hok; [|done]. eexists. split; [reflexivity|]. split; [by intros k' w2|by intros []].
Qed.

Lemma sets_up_nic nic keep ch : (Index nic =? 0)%Z = false → well_named nic → NoDup (nic_targets nic).*1 →
  sets_up (setup_nic config sn nic keep ch) (keep_is (keep ++ nic_keep nic)) is_inl (λ r, r = inl (keep ++ nic_keep nic, ch)) (nic_targets nic).
Proof.
  intros Hi Hw Hnd. unfold setup_nic, nic_targets, nic_keep in *. rewrite Hi in *.
  apply (sets_up_read _ _ (λ b, b = true)); [intros h; eapply wp_mono; [apply wp_ShouldManage, Hprimary|]; intros b h' [Hs ->]; by rewrite Hi|].
  intros ? ->. cbn [negb]. rewrite (wn_iface _ Hw).
  apply (sets_up_read _ _ (λ a, a = nic_name nic)); [intros h; by apply wp_ret|]. intros ? ->.
  set (vts := VlanInterfaces_ nic ≫= vlan_targets) in *. cbn in Hnd. apply NoDup_cons in Hnd as [Hn1 Hnd].
  match goal with |- sets_up _ _ _ _ ([?a; ?b] ++ _) => change ([a; b] ++ vts) with ([a] ++ ([b] ++ vts)) end.
  assert (Hvts : NoDup vts.*1) by (by apply NoDup_cons in Hnd as [_ ?]).
  eapply (sets_up_bind _ _ _ (λ r, r.2 = None)); [intros; apply _|cbn; by apply NoDup_cons|by apply sets_up_writeEthernet|by intros ? ->|..].
  - intros [w e] _ Hok. cbn in Hok. subst e. cbn beta iota.
    eapply (sets_up_bind _ _ (λ _, True) (λ _, True) (λ _, True)); [intros; apply _|done| |done|..|by intros ? _ []].
    + rewrite deprecatedFile_name by apply Hw. apply sets_up_rollback, simple_config_name; [done|apply Hw|by left].
    + intros _ _ _. rewrite <-(app_nil_r vts).
      eapply (sets_up_bind _ _ _ is_inl); [intros; apply _|by rewrite app_nil_r|by apply sets_up_vlans|by intros ? ->|..].
      * intros [[k wv]|e] Hk Hin; [|done]. apply sets_up_ret.
        -- intros k' w2 [= <- _]. by eapply Hk.
        -- intros [= -> ->] _ [= ->]. by rewrite orb_false_r.
      * intros [[k wv]|e] Hk Hin; [by destruct Hin|]. eexists. split; [reflexivity|]. split; [by intros ??|by intros []].
  - intros [w [e|]] _ Hok; [|done]. eexists. split; [reflexivity|]. split; [by intros ??|by intros []].
Qed.

Lemma sets_up_nics nics keep ch : Forall (λ nic, Index nic = 0%Z ∨ well_named nic) nics → NoDup (nics ≫= nic_targets).*1 →
  sets_up (for_until nics (keep, ch) (λ '(keep, changed) nic, setup_nic config sn nic keep changed))
    (keep_is (keep ++ (nics ≫= nic_keep))) is_inl (λ r, r = inl (keep ++ (nics ≫= nic_keep), ch)) (nics ≫= nic_targets).
Proof.
  intros HF Hnd. apply sets_up_until; [|done]. intros nic k w Hin. rewrite Forall_forall in HF.
  destruct (Index nic =? 0)%Z eqn:Hi.
  - unfold setup_nic, nic_keep, nic_targets. rewrite Hi, app_nil_r.
    apply (sets_up_read _ _ (λ b, b = false)); [intros h; eapply wp_mono; [apply wp_ShouldManage, Hprimary|]; intros b h' [Hs ->]; by rewrite Hi|].
    intros ? ->. apply sets_up_ret; [|done]. by intros k' w' [= <- _].
  - apply Z.eqb_neq in Hi as Hne. destruct (HF _ Hin) as [?|Hw]; [done|]. apply sets_up_nic; [done..|by eapply NoDup_targets].
Qed.

(** ** The files of VLANs that are gone *)
Definition stale (keep : list string) (e : string * node) : bool :=
  negb (bool_decide (e.2 = NDir)) &&
  match vlan_of_file e.1 with Some v => negb (bool_decide (v ∈ keep)) | None => false end.

Lemma stale_simple keep d m e : e ∈ dir_entries d m → stale keep e = true → simple_name e.1.
Proof.
  destruct e as [n nd]. rewrite elem_of_dir_entries. intros (_ & Hne & Hl) Hs. unfold stale in Hs. cbn in *.
  split_and!; [done|done|..]; intros ->; vm_compute in Hs; by destruct nd.
Qed.

(** The stale entries are gone, and nothing else. *)
Definition cleans (keep : list string) (es : list (string * node)) (m m' : fsmap) : Prop :=
  (∀ e, e ∈ es → stale keep e = true → m' !! in_dir cd e.1 = None) ∧
  ∀ q, (∀ e, e ∈ es → stale keep e = true → q ≠ in_dir cd e.1) → m' !! q = m !! q.

Lemma wp_cleanup_files keep es b h :
  NoDup es.*1 → (∀ e, e ∈ es → nodes_of h !! in_dir cd e.1 = Some e.2 ∧ (stale keep e = true → simple_name e.1)) →
  wp (for_until es b (cleanup_file sn keep))
    (λ r h', quiet h h' ∧ r = inl (b || existsb (stale keep) es) ∧ cleans keep es (nodes_of h) (nodes_of h')) h.
Proof.
  revert b h. induction es as [|[n nd] es IH]; intros b h Hnd Hes; cbn [for_until].
  { apply wp_ret. split_and!; [done|by rewrite orb_false_r|]. split; [by intros e ?%elem_of_nil|done]. }
  cbn in Hnd. apply NoDup_cons in Hnd as [Hn Hnd]. destruct (Hes (n, nd)) as [Hm Hsimple]; [by left|]. cbn in Hm, Hsimple.
  assert (Hskip : stale keep (n, nd) = false →
    wp (for_until es b (cleanup_file sn keep)) (λ r h', quiet h h' ∧ r = inl (b || existsb (stale keep) ((n, nd) :: es)) ∧ cleans keep ((n, nd) :: es) (nodes_of h) (nodes_of h')) h).
  { intros Hf. eapply wp_mono; [apply IH; [done|]; intros; apply Hes; by right|]. intros r h' (Hq & -> & Hc1 & Hc2).
    split_and!; [done|cbn; by rewrite Hf|]. split.
    - intros e [->|He]%elem_of_cons; [congruence|by apply Hc1].
    - intros q Hq'. apply Hc2. intros e He. apply Hq'. by right. }
  apply wp_bind. unfold cleanup_file at 1. case_bool_decide as End_; [apply wp_ret, Hskip; unfold stale; cbn; by rewrite bool_decide_true by done|].
  destruct (vlan_of_file n) as [v|] eqn:Ev; [|apply wp_ret, Hskip; unfold stale; cbn; by rewrite Ev, andb_false_r].
  case_bool_decide as Ek; [apply wp_ret, Hskip; unfold stale; cbn; by rewrite Ev, (bool_decide_true (v ∈ keep)), andb_false_r by done|].
  assert (Hst : stale keep (n, nd) = true) by (unfold stale; cbn; by rewrite Ev, !bool_decide_false by done).
  rewrite Hsn, path_Join_name by auto. wp_step. eapply wp_mono; [by apply (wp_Remove_file fault_free _ nd)|].
  intros e h1 (-> & E1 & Hq1). apply wp_ret. cbn beta iota.
  assert (Hother : ∀ e, e ∈ es → in_dir cd e.1 ≠ in_dir cd n).
  { intros e He Eq. apply in_dir_inj in Eq. apply Hn. rewrite <-Eq. by apply list_elem_of_fmap_2. }
  eapply wp_mono; [apply IH; [done|]|].
  { intros e He. rewrite E1, lookup_delete_ne by (intros Eq; by eapply Hother). apply Hes. by right. }
  intros r h' (Hq & -> & Hc1 & Hc2). rewrite Hst, orb_true_r. split_and!; [by etrans|done|]. split.
  - intros e [->|He]%elem_of_cons Hse; [|by apply Hc1]. cbn. rewrite Hc2; [by rewrite E1, lookup_delete_eq|].
    intros e He _ Eq. by apply (Hother e He).
  - intros q Hq'. rewrite Hc2 by (intros e He; apply Hq'; by right). rewrite E1, lookup_delete_ne; [done|].
    intros Eq. apply (Hq' (n, nd)); [by left|done|done].
Qed.

Lemma wp_cleanup keep h :
  nodes_of h !! cd = Some NDir →
  wp (cleanupVlanConfigs sn keep) (λ r h', quiet h h' ∧ r = (existsb (stale keep) (dir_entries cd (nodes_of h)), None) ∧
    cleans keep (dir_entries cd (nodes_of h)) (nodes_of h) (nodes_of h')) h.
Proof.
  intros Hd. unfold cleanupVlanConfigs. rewrite Hsn. wp_step. eapply wp_mono; [by apply wp_Exists_dir|].
  intros b h1 [[Hn Hr] ->]. rewrite (resolve_dir _ _ Hd). cbn [negb]. wp_step.
  eapply wp_mono; [apply wp_ReadDir; [done|by rewrite Hn]|]. intros r h2 [[Hn2 Hr2] ->]. cbn beta iota. wp_step.
  eapply wp_mono; [apply wp_cleanup_files; [apply dir_entries_NoDup|]|].
  { intros [n nd] He. rewrite Hn2. split; [by apply elem_of_dir_entries in He as (? & _)|]. intros Hs. cbn. by eapply (stale_simple keep cd _ (n, nd)). }
  intros r h3 (Hq3 & -> & Hc). apply wp_ret. cbn. rewrite Hn2, Hn in *. split_and!; [unfold quiet in *; congruence|done|done].
Qed.

Lemma cleans_nothing keep es m m' : (∀ e, e ∈ es → stale keep e = false) → cleans keep es m m' → m' = m.
Proof. intros Hs [_ Hc]. apply map_eq. intros q. apply Hc. intros e He Hst. by rewrite (Hs e He) in Hst. Qed.

Lemma in_dir_ne_dir n : cd ≠ in_dir cd n.
Proof.
  intros E. apply (f_equal (λ s, length (to_bytes s))) in E. unfold in_dir in E. rewrite !to_bytes_app, !length_app in E.
  change (length (to_bytes "/")) with 1 in E. lia.
Qed.

(** ** A set-up settles *)
Context (nics : list Configuration).
Context (Hnames : Forall (λ nic, Index nic = 0%Z ∨ well_named nic) nics) (Hdistinct : NoDup (nics ≫= nic_targets).*1).

Local Notation targets := (nics ≫= nic_targets).
Local Notation kept := (nics ≫= nic_keep).

(** The files are the wanted ones, and there is none of a VLAN that is gone. *)
Record settled (m : fsmap) : Prop := {
  st_dir : m !! cd = Some NDir;
  st_good : Forall (good m) targets;
  st_clean : ∀ e, e ∈ dir_entries cd m → stale kept e = false;
}.

Lemma target_not_stale t nd : t ∈ targets → stale kept (t.1, nd) = false.
Proof.
  intros (nic & Ht & Hnic)%list_elem_of_bind. rewrite Forall_forall in Hnames.
  assert (Hk : ∀ v, v ∈ nic_keep nic → v ∈ kept) by (intros v Hv; apply list_elem_of_bind; eauto).
  unfold nic_targets, nic_keep in *. destruct (Index nic =? 0)%Z eqn:Hi; [by apply elem_of_nil in Ht|]. apply Z.eqb_neq in Hi.
  destruct (Hnames _ Hnic) as [?|Hw]; [done|].
  assert (Hplain : ∀ p, (0 ≤ p)%Z → stale kept (config_name p (nic_name nic) "network", nd) = false).
  { intros p Hp. unfold stale. cbn. by rewrite (vlan_of_file_plain p) by (done || (by left) || apply Hw); rewrite andb_false_r. }
  assert (Hvlan : ∀ v ext, v ∈ VlanInterfaces_ nic → extension ext → stale kept (config_name (priority sn) (vlan_name v) ext, nd) = false).
  { intros v ext Hv Hext. destruct (vlan_name_facts nic v Hw Hv) as (_ & En & _ & Hid). unfold stale. cbn.
    rewrite (vlan_of_file_name (priority sn) (vlan_name v) ext (nic_name nic) (VlanID v)) by (done || apply Hw).
    rewrite (bool_decide_true (vlan_name v ∈ kept)); [by rewrite andb_false_r|]. apply Hk, list_elem_of_fmap. eauto. }
  apply elem_of_app in Ht as [[->|[->|[]%elem_of_nil]%elem_of_cons]%elem_of_cons|(v & Ht & Hv)%list_elem_of_bind]; [by apply Hplain..|].
  apply elem_of_cons in Ht as [->|[->|[]%elem_of_nil]%elem_of_cons]; apply Hvlan; (done || (by left) || by right).
Qed.

Lemma good_same m m' t : m' !! in_dir cd t.1 = m !! in_dir cd t.1 → good m t → good m' t.
Proof.
  intros E [Hf Hg]. assert (Hf' : free m' t.1) by (intros x; rewrite E; apply Hf).
  split; [done|]. rewrite !content_direct in * by done. by rewrite E.
Qed.

Lemma cleans_settled m m' :
  m !! cd = Some NDir → Forall (good m) targets → cleans kept (dir_entries cd m) m m' → settled m'.
Proof.
  intros Hd Hg [Hc1 Hc2]. split.
  - rewrite Hc2; [done|]. intros e _ _. apply in_dir_ne_dir.
  - rewrite Forall_forall in *. intros t Ht. eapply good_same; [|by apply Hg]. apply Hc2.
    intros [n nd] He Hs Eq. cbn in Eq. apply in_dir_inj in Eq. subst n. by rewrite (target_not_stale t nd Ht) in Hs.
  - intros [n nd] He. destruct (stale kept (n, nd)) eqn:Es; [|done]. exfalso.
    apply elem_of_dir_entries in He as (Hm & Hne & Hl).
    destruct (m !! in_dir cd n) as [nd0|] eqn:E0.
    + assert (He0 : (n, nd0) ∈ dir_entries cd m) by (by apply elem_of_dir_entries).
      destruct (stale kept (n, nd0)) eqn:Es0; [specialize (Hc1 _ He0 Es0); cbn in Hc1; congruence|].
      rewrite Hc2 in Hm; [congruence|]. intros [n' nd'] He' Hs' Eq. cbn in Eq. apply in_dir_inj in Eq. subst n'.
      apply elem_of_dir_entries in He' as (E' & _). congruence.
    + rewrite Hc2 in Hm; [congruence|]. intros [n' nd'] He' _ Eq. cbn in Eq. apply in_dir_inj in Eq. subst n'.
      apply elem_of_dir_entries in He' as (E' & _). congruence.
Qed.

Context `{Commands} `{FsNotify}.

Lemma wp_on_host {A} (m : M host A) (Q : A → state → Prop) s :
  wp m (λ a h, Q a (mkState h (the_mod s))) (sys s) → wp (on_host m) Q s.
Proof. apply (wp_zoom sys (λ h s, mkState h (the_mod s))). Qed.

(** A reload moves no file; the module forgets or keeps its last error. *)
Definition remembers (s s' : state) : Prop := ∃ e, the_mod s' = set_dhcpWaitErr e (the_mod s).

Lemma remembers_same s s' : the_mod s' = the_mod s → remembers s s'.
Proof. intros E. exists (dhcpWaitErr (the_mod s)). rewrite E. by destruct (the_mod s). Qed.

Lemma wp_Reload n s : wp (Reload n) (λ _ s', nodes_of (sys s') = nodes_of (sys s) ∧ remembers s s') s.
Proof.
  unfold Reload. wp_step. apply wp_modify. cbn beta. wp_step. apply wp_on_host.
  eapply wp_mono; [apply wp_run_command_|]. intros e h1 (Hn1 & _ & _). cbn in Hn1.
  destruct e; [apply wp_ret; split; [done|by eexists]|].
  wp_step. apply wp_gets. cbn beta. wp_step. apply wp_on_host.
  eapply wp_mono; [by apply wp_Exists_dir|]. intros b h2 [[Hn2 _] ->]. cbn [sys] in *.
  assert (nodes_of h2 = nodes_of (sys s)) as E by congruence.
  assert (∀ e, remembers s (mkState h2 (set_dhcpWaitErr e (set_dhcpWaitErr None (the_mod s))))) as R by (by eexists).
  destruct (negb _ || _); [apply wp_ret; split; [exact E|apply (R None)]|].
  wp_step. apply wp_gets. cbn beta. destruct (fs_watcher _); [apply wp_ret; split; [exact E|apply (R None)]|].
  destruct (wait_leases _ _ _); [|apply wp_ret; split; [exact E|apply (R None)]].
  wp_step. apply wp_modify. apply wp_ret. split; [exact E|by eexists].
Qed.

(** The first set-up: without an error the files are the wanted ones. *)
Lemma wp_first_Setup force (opts : list Configuration) s :
  FilteredNICConfigs opts = nics → the_mod s = sn → nodes_of (sys s) !! cd = Some NDir →
  Forall (λ t : target, free (nodes_of (sys s)) t.1) targets →
  wp (Setup config opts force) (λ r s', r = None → settled (nodes_of (sys s')) ∧ remembers s s') s.
Proof.
  intros Hopts Hmod Hdir Hfree. unfold Setup. rewrite Hopts. wp_step. apply wp_gets. rewrite Hmod. cbn beta. wp_step. apply wp_on_host.
  eapply wp_mono; [by apply sets_up_nics|]. intros r h1 (_ & Hk & Hkeep & Hok & _).
  destruct r as [[keep changed]|e]; [|by apply wp_ret].
  assert (keep = kept) as -> by (by eapply Hkeep). specialize (Hok I).
  assert (nodes_of h1 !! cd = Some NDir) as Hd1 by (apply Hk; [|done]; intros; apply in_dir_ne_dir).
  wp_step. apply wp_on_host. cbn [sys]. eapply wp_mono; [by apply wp_cleanup|]. intros r h2 (_ & -> & Hc). cbn beta iota.
  pose proof (cleans_settled _ _ Hd1 Hok Hc) as Hs. case_match; [apply wp_ret; split; [exact Hs|by apply remembers_same]|].
  wp_step. eapply wp_mono; [apply wp_Reload|]. intros e s' [Hn Hr]. apply wp_ret. intros _. rewrite Hn. by split.
Qed.

(** A settled host is left alone, and nothing is reloaded. *)
Lemma wp_second_Setup (opts : list Configuration) s :
  FilteredNICConfigs opts = nics → the_mod s = sn → settled (nodes_of (sys s)) →
  wp (Setup config opts false) (λ r s', r = None ∧ nodes_of (sys s') = nodes_of (sys s) ∧ ran (sys s') = ran (sys s)) s.
Proof.
  intros Hopts Hmod [Hdir Hgood Hclean]. unfold Setup. rewrite Hopts. wp_step. apply wp_gets. rewrite Hmod. cbn beta. wp_step. apply wp_on_host.
  eapply wp_mono; [apply sets_up_nics; [done..|]|].
  { eapply Forall_impl; [exact Hgood|]. by intros t []. }
  intros r h1 (Hq & _ & _ & _ & Hun). destruct (Hun Hgood) as [-> Hn1]. cbn [app].
  wp_step. apply wp_on_host. cbn [sys]. eapply wp_mono; [apply wp_cleanup; by rewrite Hn1|].
  intros r h2 (Hq2 & -> & Hc). rewrite Hn1 in *. cbn beta iota. apply cleans_nothing in Hc; [|done].
  assert (existsb (stale kept) (dir_entries cd (nodes_of (sys s))) = false) as ->.
  { apply not_true_iff_false. rewrite existsb_exists. intros (e & He%list_elem_of_In & Hst). by rewrite (Hclean e He) in Hst. }
  cbn. apply wp_ret. cbn. split_and!; [done|done|]. unfold quiet in *. congruence.
Qed.
End targets.

(** What a set-up starts from: the directory is there, the files it writes are
    no links, and the interfaces have plain names, each its own files. *)
Record ready (sn : Module) (nics : list Configuration) (m : fsmap) : Prop := {
  rd_clean : clean_dir (configDir sn);
  rd_priority : (0 ≤ priority sn)%Z;
  rd_deprecated : (0 ≤ deprecatedPriority sn)%Z;
  rd_names : Forall (λ nic, Index nic = 0%Z ∨ well_named nic) nics;
  rd_distinct : NoDup (nics ≫= nic_targets sn).*1;
  rd_dir : m !! configDir sn = Some NDir;
  rd_free : Forall (λ t : target, free (configDir sn) m t.1) (nics ≫= nic_targets sn);
}.

Section theorems.
Context `{OsFaults} `{OsInfo.Uname} `{Commands} `{FsNotify} `{IniFile networkdConfig} `{IniFile networkdNetdevConfig} (config : Sections).

End theorems.

(** ** On concrete hosts *)
Module Examples.

(** A library that writes a mark and the bits of an encoding; an empty text
    sets nothing. *)
Fixpoint bits (p : positive) : string :=
  match p with xH => "" | xO p => String "0"%char (bits p) | xI p => String "1"%char (bits p) end.
Fixpoint unbits (s : string) : positive :=
  match s with EmptyString => xH | String c s => if bool_decide (c = "0"%char) then xO (unbits s) else xI (unbits s) end.

Lemma unbits_bits p : unbits (bits p) = p.
Proof. induction p as [p IH|p IH|]; cbn; [by rewrite IH..|done]. Qed.

Definition bits_ini {C} `{Countable C} : IniFile C := {|
  ini_text c := Ok (String "#" (bits (encode c)));
  ini_load t z :=
    match t with
    | EmptyString => Ok z
    | String _ t => match decode (unbits t) with Some c => Ok c | None => Err (ErrMsg "bits") end
    end;
|}.

Lemma codec_roundtrip {C} `{Countable C} (z c : C) t : ini_text (IniFile := bits_ini) c = Ok t → ini_load (IniFile := bits_ini) t z = Ok c.
Proof. intros [= <-]. cbn. by rewrite unbits_bits, decode_encode. Qed.

#[local] Instance config_countable : Countable networkdConfig.
Proof.
  refine (inj_countable'
    (λ c, (Match_Name (Match c), Match_Type (Match c), (DHCP (Network c), DNSDefaultRoute (Network c), VLANS (Network c)),
           (λ d, (RoutesToDNS d, RoutesToNTP d)) <$> DHCPv4 c, (λ l, (MACAddress l, MTUBytes l)) <$> Link c))
    (λ '(n, ty, (d, r, v), dh, l), mkConfig (mkMatch n ty) (mkNetwork d r v)
           ((λ d, mkDHCP d.1 d.2) <$> dh) ((λ l, mkLink l.1 l.2) <$> l)) _).
  by intros [[] [] [[]|] [[]|]].
Defined.

#[local] Instance netdev_countable : Countable networkdNetdevConfig.
Proof.
  refine (inj_countable' (λ c, (Netdev_Name (NetDev c), Kind (NetDev c), Vlan_ID (VLAN c), ReorderHeader (VLAN c)))
    (λ '(n, k, i, r), mkNetdevConfig (mkNetdev n k) (mkVlan i r)) _).
  by intros [[] []].
Defined.

#[local] Instance config_ini : IniFile networkdConfig := bits_ini.
#[local] Instance netdev_ini : IniFile networkdNetdevConfig := bits_ini.
Lemma config_rt (c : networkdConfig) t : ini_text c = Ok t → ini_load t zero_config = Ok c.
Proof. apply codec_roundtrip. Qed.
Lemma netdev_rt (c : networkdNetdevConfig) t : ini_text c = Ok t → ini_load t zero_netdev = Ok c.
Proof. apply codec_roundtrip. Qed.
#[local] Instance no_fault : OsFaults := no_faults.
#[local] Instance no_uname : OsInfo.Uname := None.
Lemma no_fault_at : ∀ n op p, os_fault n op p = None.
Proof. done. Qed.
#[local] Instance commands_work : Commands := {| run_command _ _ := RunOk ""; dir_owner _ _ := Ok (0, 0)%Z |}.
#[local] Instance no_events : FsNotify := {| fs_watcher _ := None; fs_events _ := [] |}.

Definition config : Sections := mkSections true true true "66" true false true true None false "".
Definition ens (n : string) (i : Z) : Interface := mkInterface n [66; 1; 10; 0; 0; i]%Z 1460 i.
Definition vlan (parent : Interface) (id : Z) : VlanInterface := mkVlanInterface (Some parent) "42:01:0a:00:00:03" id 1460 None [] None None.
Definition nic (index : Z) (i : Interface) (vlans : list VlanInterface) : Configuration :=
  mkConfiguration index false false "42:01:0a:00:00:02" (Some i) vlans None.

(** The primary NIC, a second one with a VLAN, a third one. *)
Definition ens4 := ens "ens4" 2.
Definition ens5 := ens "ens5" 3.
Definition ens6 := ens "ens6" 4.
Definition nics : list Configuration := [nic 0 ens4 []; nic 1 ens5 [vlan ens5 7]; nic 2 ens6 []].

(** An empty directory but for the file of a VLAN that is gone. *)
Definition gone : string := "/usr/lib/systemd/network/20-gcp.ens6.9-google-guest-agent.network".
Definition host_of (m : gmap string node) : host := mkHost (mkFs m 0) [].
Definition start : state := mkState (host_of {["/usr/lib/systemd/network" := NDir; gone := NFile ""]}) DefaultModule.

Lemma start_ready : ready DefaultModule nics (nodes_of (sys start)).
Proof.
  assert (forall n, lacks slash (Name n) → lacks dash (Name n) → lacks dot (Name n) → lacks nl (Name n) → ∀ i ids, Forall (λ id, 0 ≤ id)%Z ids →
    well_named (nic i n (vlan n <$> ids))) as Hn.
  { intros n H1 H2 H3 H4 i ids Hids. constructor; [done..|]. apply Forall_fmap. eapply Forall_impl; [exact Hids|]. by intros id Hid. }
  constructor; [apply (bool_decide_unpack (clean_dir _)); vm_compute; exact I|done|done| | |vm_compute; reflexivity|].
  - constructor; [by left|]. constructor; [right; apply (Hn ens5) with (ids := [7%Z]); [lacks_by_compute..|by repeat constructor]|].
    constructor; [right; apply (Hn ens6) with (ids := []); [lacks_by_compute..|constructor]|constructor].
  - apply (bool_decide_unpack (NoDup _)). vm_compute. exact I.
  - repeat (constructor; [intros t; vm_compute; discriminate|]). constructor.
Qed.

Definition set_up_once : bool :=
  match Setup config nics false start with
  | Some (s1, None) => bool_decide (nodes_of (sys s1) !! gone = None) && bool_decide (length (ran (sys s1)) = 1)
  | _ => false
  end.
Lemma set_up_once_true : set_up_once = true.
Proof. vm_compute. reflexivity. Qed.


(** [Rollback] keeps what its last NIC answered: here the file of [ens5] is
    removed, [ens6] has none, so no reload and the answer that nothing was
    rolled back. *)
Definition file_of_ens5 : string := "/usr/lib/systemd/network/20-ens5-google-guest-agent.network".

Definition rollback_forgets : bool :=
  match Rollback config nics false (mkState (host_of {["/usr/lib/systemd/network" := NDir; file_of_ens5 := NFile ""]}) DefaultModule) with
  | Some (s1, (false, None)) => bool_decide (nodes_of (sys s1) !! file_of_ens5 = None) && bool_decide (ran (sys s1) = [])
  | _ => false
  end.

Example networkd_Rollback_forgets : rollback_forgets = true.
Proof. vm_compute. reflexivity. Qed.

(** The active manager's roll-back removes the files of its own VLANs, so that
    each event of the network manager (a roll-back, then a set-up) writes them
    again and reloads the daemon. *)
Definition rolled_back_once : bool :=
  match Setup config nics false start with
  | Some (s1, None) =>
      match Rollback config nics true s1 with
      | Some (s2, (true, None)) =>
          match Setup config nics false s2 with
          | Some (s3, None) =>
              bool_decide (nodes_of (sys s3) = nodes_of (sys s1)) && negb (bool_decide (nodes_of (sys s2) = nodes_of (sys s1))) &&
              bool_decide (length (ran (sys s3)) = S (length (ran (sys s1))))
          | _ => false
          end
      | _ => false
      end
  | _ => false
  end.

Example networkd_Rollback_of_active_manager : rolled_back_once = true.
Proof. vm_compute. reflexivity. Qed.

(** A NIC with a VLAN makes every run of [WriteNetplanVlanDropins] report a change. *)
Definition dropins_twice : bool :=
  match WriteNetplanVlanDropins config "10-netplan" nics start with
  | Some (s1, (true, None)) =>
      match WriteNetplanVlanDropins config "10-netplan" nics s1 with
      | Some (s2, (true, None)) => bool_decide (nodes_of (sys s2) = nodes_of (sys s1))
      | _ => false
      end
  | _ => false
  end.

Example WriteNetplanVlanDropins_always_changes : dropins_twice = true.
Proof. vm_compute. reflexivity. Qed.

(** An output of [networkctl --version] without a second field panics. *)
Definition works_with (out : string) : Commands := {| run_command _ _ := RunOk out; dir_owner _ _ := Ok (0, 0)%Z |}.

Example networkd_version_panics `{NetworkctlJson} `{OsInfo.Uname} :
  IsManaging (H := works_with "systemd") (H0 := λ _ _, Ok "/usr/bin/networkctl") nics start = None.
Proof. reflexivity. Qed.
End Examples.
End NetworkdFacts.
