(* ===== verification/Wicked.v ===== *)
(** * cmd/core_plugin/network/wicked: wicked

    wicked.go and wicked_linux.go: the ifcfg files of the NICs and of their
    VLANs, the files the agent left behind, the commands to bring interfaces
    up and down. *)
From stdpp Require Import pretty.
From S2P Require Import Prelude GoStrings GoStringFacts Os Accounts Daemon OsInfo Regexp Address Nic Ini.

Module Wicked.
Import Accounts Address Nic Ini.

Definition serviceID : string := "wicked".
Definition dhclientEthernetRoutePriority : Z := 10100.
Definition dhclientVlanRoutePriority : Z := 20200.
Definition googleComment : string := "# Added by Google Compute Engine Guest Agent.".
Definition defaultWickedConfigDir : string := "/etc/sysconfig/network".

(** A double quote. *)
Definition dquote : string := String (byte_of 34) "".

Definition newline : string := String nl "".

(** ** The files *)
Section files.
Context (configDir : string).

Definition ifcfgFilePath (iface : string) : string := path_Join [configDir; "ifcfg-" +:+ iface].

Definition vlan_lines (vic : VlanInterface) (priority : Z) : option (list string) :=
  iface ← InterfaceName vic;
  parent ← Parent vic;
  Some [googleComment; "BOOTPROTO=dhcp"; "VLAN=yes"; "ETHTOOL_OPTIONS=reorder_hdr off";
        "DEVICE=" +:+ iface; "MTU=" +:+ pretty (VlanMTU vic); "LLADDR=" +:+ vlan_MacAddr vic;
        "ETHERDEVICE=" +:+ Name parent; "VLAN_ID=" +:+ pretty (VlanID vic);
        "DHCLIENT_ROUTE_PRIORITY=" +:+ pretty priority].

Definition ethernet_lines (setFQDN : bool) : list string :=
  [googleComment; "STARTMODE=hotplug"; "BOOTPROTO=dhcp";
   "DHCLIENT_ROUTE_PRIORITY=" +:+ pretty dhclientEthernetRoutePriority] ++
  (if setFQDN then ["POST_UP_SCRIPT=" +:+ dquote +:+ "compat:suse:google_up.sh" +:+ dquote] else []).

Section writing.
Context `{OsFaults}.

(** [os.Create]. *)
Definition os_Create (p : string) : M host (option error) :=
  with_fs "create" p fail_err (λ m,
    match resolve m p with
    | Some (_, NDir) => (m, Some ErrIsDir)
    | _ => (write_node m p "", None)
    end).

(** A file created and written in one go: a short write is an error of the
    write. *)
Definition create_and_write (p content : string) : M host (option error * option error) :=
  e ← os_Create p;
  match e with
  | Some e => mret (Some e, None)
  | None => e ← os_WriteFile p content; mret (None, e)
  end.

Definition writeVlanConfig (vic : VlanInterface) (priority : Z) (filePath : string) : M host (option error) :=
  configLines ← some_or_panic (vlan_lines vic priority);
  '(created, written) ← create_and_write filePath (Join configLines newline);
  mret (match created, written with
        | Some e, _ => Some (ErrWrap ("failed to create vlan's ifcfg file: " +:+ filePath) e)
        | None, Some e => Some (ErrWrap ("error writing vlan's icfg file: " +:+ filePath) e)
        | None, None => None
        end).

Definition writeEthernetConfig (setFQDN : bool) (nic : Configuration) (filePath : string) : M host (option error) :=
  '(created, written) ← create_and_write filePath (Join (ethernet_lines setFQDN) newline);
  match created, written with
  | Some e, _ => mret (Some (ErrWrap "failed to create wicked config file" e))
  | None, Some e =>
      name ← some_or_panic (iface_name nic);
      mret (Some (ErrWrap ("error wicked ifcfg file: " +:+ name) e))
  | None, None => mret None
  end.

(** The first bytes of a file, as a read of that many bytes gives them. *)
Definition managedByGuestAgent (filePath : string) : M host (result bool) :=
  info ← os_Stat filePath;
  match info with
  | Err e => mret (if IsNotExist e then Ok false else Err (ErrFmt "failed to stat wicked ifcfg file" e))
  | Ok nd =>
      let small := match nd with NFile d => bool_decide (length (to_bytes d) < length (to_bytes googleComment)) | _ => false end in
      if small then mret (Ok false)
      else
        r ← os_ReadFile filePath;
        mret (match r with
              | Err e => Err (ErrFmt "failed to open wicked ifcfg file" e)
              | Ok d => Ok (bool_decide (take (length (to_bytes googleComment)) (to_bytes d) = to_bytes googleComment))
              end)
  end.

(** [true] for a file of the agent, which is removed unless it is primary. *)
Definition removeInterface (filePath : string) (isPrimary : bool) : M host (result bool) :=
  shouldRemove ← managedByGuestAgent filePath;
  match shouldRemove with
  | Err e => mret (Err (ErrWrap "failed to check if file is managed by guest agent" e))
  | Ok false => mret (Ok false)
  | Ok true =>
      if isPrimary then mret (Ok true)
      else
        e ← os_Remove filePath;
        mret (match e with
              | Some e => Err (ErrFmt ("error deleting config file: " +:+ filePath) e)
              | None => Ok true
              end)
  end.
End writing.

(** [ifcfg], a dash, the parent, a dot, the VLAN. *)
Definition ifcfg_regex : Regexp.pattern :=
  [(Some "prefix", Regexp.lit "ifcfg"); (None, Regexp.lit "-"); (Some "parent", Regexp.Many Regexp.any);
   (None, Regexp.lit "."); (Some "vlan", Regexp.Many Regexp.any)].

(** The interface an ifcfg file of a VLAN is for. *)
Definition vlan_iface (fileName : string) : option string :=
  parent ← Regexp.GroupsMap ifcfg_regex fileName "parent";
  vlan ← Regexp.GroupsMap ifcfg_regex fileName "vlan";
  Some (parent +:+ "." +:+ vlan).

(** ** The service *)
Section service.
Context `{Commands} `{LookPath} `{OsFaults} `{OsInfo.Uname} (config : Sections) (setFQDN : bool).

Definition check_interface (opts : list Configuration) : M host (result bool) :=
  match GetPrimaryNIC opts with
  | (_, Some e) => mret (Err (ErrWrap "failed to get primary nic" e))
  | (primaryNIC, None) =>
      iface ← some_or_panic (primaryNIC ≫= iface_name);
      res ← run_output ["wicked"; "ifstatus"; "--brief"; iface];
      mret (match res with
            | Err _ => Err (ErrMsg "failed to check status of wicked configuration")
            | Ok out =>
                match Fields out with
                | [_; state] => Ok (bool_decide (state = "up" ∨ state = "setup-in-progress"))
                | _ => Ok false
                end
            end)
  end.

Definition IsManaging (opts : list Configuration) : M host (result bool) :=
  path ← execLookPath "wicked";
  match path with
  | Err e => mret (if is_not_found e then Ok false else Err (ErrWrap "error checking for wicked binary" e))
  | Ok _ =>
      '(status, err) ← Daemon.UnitStatus "wicked.service";
      match err with
      | Some e => mret (Err (ErrWrap "failed to check status of wicked.service" e))
      | None =>
          match status with
          | Daemon.Active => check_interface opts
          | _ => mret (Ok false)
          end
      end
  end.

Definition reloadInterfaces (interfaces : list string) : M host (option error) :=
  run_command_ "error reloading interfaces" (["wicked"; "ifreload"] ++ interfaces).

(** The body of [cleanupVlanInterfaces]' loop; [inr] leaves it. *)
Definition cleanup_file (keepMe : list string) (fileName : string) (nd : node) : M host (unit + error) :=
  if bool_decide (nd = NDir) then mret (inl tt)
  else
    match vlan_iface fileName with
    | None => mret (inl tt)
    | Some iface =>
        if bool_decide (iface ∈ keepMe) then mret (inl tt)
        else
          removed ← removeInterface (path_Join [configDir; fileName]) false;
          match removed with
          | Err e => mret (inr (ErrFmt "failed to remove vlan interface" e))
          | Ok false => mret (inl tt)
          | Ok true =>
              err ← run_command_ "error disabling interfaces" ["wicked"; "ifdown"; iface];
              mret (match err with Some e => inr e | None => inl tt end)
          end
    end.

Definition cleanupVlanInterfaces (keepMe : list string) : M host (option error) :=
  files ← os_ReadDir configDir;
  match files with
  | Err e => mret (Some (ErrFmt ("failed to read content from: " +:+ configDir) e))
  | Ok files =>
      r ← for_until files tt (λ _ '(fileName, nd), cleanup_file keepMe fileName nd);
      mret (match r with inl _ => None | inr e => Some e end)
  end.

(** The interfaces to bring up, the VLANs to keep, the next priority. *)
Definition setup_vlans (vics : list VlanInterface) (ifup vlans : list string) : M host (list string * list string * Z + error) :=
  for_until vics (ifup, vlans, dhclientVlanRoutePriority) (λ '(ifup, vlans, priority) vic,
    name ← some_or_panic (InterfaceName vic);
    err ← writeVlanConfig vic priority (ifcfgFilePath name);
    mret (match err with
          | Some e => inr e
          | None => inl (ifup ++ [name], vlans ++ [name], (priority + 100)%Z)
          end)).

Definition setup_ethernet (nic : Configuration) (ifup : list string) : M host (list string + error) :=
  iface ← some_or_panic (iface_name nic);
  let fPath := ifcfgFilePath iface in
  x ← Exists fPath TypeFile;
  if (x : bool) then mret (inl ifup)
  else
    err ← writeEthernetConfig setFQDN nic fPath;
    mret (match err with Some e => inr e | None => inl (ifup ++ [iface]) end).

Definition setup_nic (nic : Configuration) (ifup vlans : list string) : M host (list string * list string + error) :=
  manage ← ShouldManage config nic;
  if negb manage then mret (inl (ifup, vlans))
  else
    r ← setup_ethernet nic ifup;
    match r with
    | inr e => mret (inr e)
    | inl ifup =>
        r ← setup_vlans (VlanInterfaces_ nic) ifup vlans;
        mret (match r with inr e => inr e | inl (ifup, vlans, _) => inl (ifup, vlans) end)
    end.

Definition Setup (opts : list Configuration) (forceReload : bool) : M host (option error) :=
  r ← for_until (FilteredNICConfigs opts) ([], []) (λ '(ifup, vlans) nic, setup_nic nic ifup vlans);
  match r with
  | inr e => mret (Some e)
  | inl (ifupInterfaces, vlanInterfaces) =>
      if bool_decide (ifupInterfaces = []) then mret None
      else
        err ← cleanupVlanInterfaces vlanInterfaces;
        match err with
        | Some e => mret (Some (ErrWrap "failed to cleanup vlan interfaces" e))
        | None =>
            err ← reloadInterfaces ifupInterfaces;
            mret (ErrWrap "failed to reload interfaces" <$> err)
        end
  end.

Definition rollback_nic (active : bool) (reload : list string) (nic : Configuration) : M host (list string + error) :=
  skip ← keeps_nic config active nic;
  if (skip : bool) then mret (inl reload)
  else
    iface ← some_or_panic (iface_name nic);
    removed ← removeInterface (ifcfgFilePath iface) (Index nic =? 0)%Z;
    mret (match removed with
          | Err e => inr (ErrWrap "failed to remove wicked config file" e)
          | Ok true => inl (reload ++ [iface])
          | Ok false => inl reload
          end).

Definition Rollback (opts : list Configuration) (active : bool) : M host (bool * option error) :=
  x ← Exists configDir TypeDir;
  if negb x then mret (false, None)
  else
    r ← for_until (FilteredNICConfigs opts) [] (rollback_nic active);
    match r with
    | inr e => mret (false, Some e)
    | inl reload =>
        err ← cleanupVlanInterfaces [];
        match err with
        | Some e => mret (false, Some (ErrWrap "failed to cleanup vlan interfaces" e))
        | None =>
            if bool_decide (reload = []) then mret (false, None)
            else
              path ← execLookPath "wicked";
              match path with
              | Err _ => mret (true, None)
              | Ok _ =>
                  if negb active then
                    err ← reloadInterfaces reload;
                    mret (true, ErrWrap "failed to reload interfaces" <$> err)
                  else mret (true, None)
              end
        end
    end.
End service.
End files.
End Wicked.
