(* ===== verification/NmService.v ===== *)
(** * cmd/core_plugin/network/nm: NetworkManager

    nm.go and nm_linux.go: the keyfiles of the NICs and of their VLANs, the
    commands of [nmcli], the roll-back. *)
From stdpp Require Import pretty.
From S2P Require Import Prelude GoStrings GoStringFacts Os Accounts Daemon OsInfo Regexp Address Nic Ini.

Module NmService.
Import Accounts Address Nic Ini.

Definition serviceID : string := "NetworkManager".
Definition defaultNetworkManagerConfigDir : string := "/etc/NetworkManager/system-connections".
Definition defaultNetworkScriptsDir : string := "/etc/sysconfig/network-scripts".
Definition defaultAutoconnectPriority : Z := 100.

Record nmConnectionSection := mkConnection {
  Connection_InterfaceName : string;
  Connection_ID : string;
  ConnType : string;
  Autoconnect : bool;
  AutoconnectPriority : Z;
}.
Record nmIPSection := mkIP { Method : string }.
Record nmVlan := mkVlan { Flags : Z; Vlan_ID : Z; Vlan_Parent : string }.
Record nmConfig := mkConfig {
  Connection : nmConnectionSection;
  Ipv4 : nmIPSection;
  Ipv6 : nmIPSection;
  Vlan : option nmVlan;
}.

Record serviceNetworkManager := mkService { networkScriptsDir : string; configDir : string }.

Definition defaultModule : serviceNetworkManager :=
  mkService defaultNetworkScriptsDir defaultNetworkManagerConfigDir.

Section service.
Context (sn : serviceNetworkManager).

Definition connectionID (iface : string) : string := "google-guest-agent-" +:+ iface.
Definition configFilePath (iface : string) : string :=
  path_Join [configDir sn; "google-guest-agent-" +:+ iface +:+ ".nmconnection"].
Definition ifcfgFilePath (iface : string) : string := path_Join [networkScriptsDir sn; "ifcfg-" +:+ iface].

Definition vlan_config (vic : VlanInterface) : option nmConfig :=
  iface ← InterfaceName vic;
  parent ← Parent vic;
  Some (mkConfig (mkConnection iface (connectionID iface) "vlan" false 0) (mkIP "auto") (mkIP "auto")
          (Some (mkVlan 1 (VlanID vic) (Name parent)))).

Definition ethernet_config (iface : string) : nmConfig :=
  mkConfig (mkConnection iface (connectionID iface) "ethernet" true defaultAutoconnectPriority)
    (mkIP "auto") (mkIP "auto") None.

(** The pattern of the keyfiles of VLANs. *)
Definition keyfile_regex : Regexp.pattern :=
  [(Some "prefix", Regexp.lit "google-guest-agent"); (None, Regexp.lit "-");
   (Some "interface", Regexp.Many Regexp.any); (Some "interface", Regexp.lit "."); (Some "interface", Regexp.Many1 Regexp.is_digit);
   (None, Regexp.lit "."); (Some "extension", Regexp.lit "nmconnection")].

(** The VLAN interface a keyfile of the agent is for. *)
Definition vlan_of_file (fileName : string) : option string :=
  match Regexp.GroupsMap keyfile_regex fileName "interface", Regexp.GroupsMap keyfile_regex fileName "prefix" with
  | Some currIface, Some prefix => if bool_decide (prefix = "google-guest-agent") then Some currIface else None
  | _, _ => None
  end.

Section operations.
Context `{Commands} `{LookPath} `{OsFaults} `{OsInfo.Uname} `{IniFile nmConfig} (config : Sections).

(** Permissions are not part of the file system: a call that may fail. *)
Definition os_Chmod (p : string) : M host (option error) :=
  with_fs "chmod" p fail_err (λ m, (m, match resolve m p with Some _ => None | None => Some ErrNotExist end)).

(** The first line that starts with the name decides; a line without a colon
    panics. *)
Definition device_line (iface out : string) : option (option string) :=
  match list_find (λ line, HasPrefix line iface = true) (Split out nl) with
  | None => Some None
  | Some (_, line) => Some <$> (Split line (byte_of 58) !! 1)
  end.

Definition IsManaging (opts : list Configuration) : M host (result bool) :=
  path ← execLookPath "nmcli";
  match path with
  | Err e => mret (if is_not_found e then Ok false else Err (ErrWrap "error checking for nmcli" e))
  | Ok _ =>
      '(status, err) ← Daemon.UnitStatus "NetworkManager.service";
      match err, status with
      | Some e, _ => mret (Err (ErrWrap "error checking status of NetworkManager.service" e))
      | None, Daemon.Active =>
          res ← run_output ["nmcli"; "-t"; "-f"; "DEVICE,STATE"; "dev"; "status"];
          match res with
          | Err e => mret (Err (ErrWrap "error checking status of devices on NetworkManager" e))
          | Ok out =>
              match GetPrimaryNIC opts with
              | (_, Some e) => mret (Err (ErrFmt "failed to get primary NIC" e))
              | (primaryNIC, None) =>
                  iface ← some_or_panic (primaryNIC ≫= iface_name);
                  state ← some_or_panic (device_line iface out);
                  mret (Ok (bool_decide (state = Some "connected")))
              end
          end
      | None, _ => mret (Ok false)
      end
  end.

Definition writeVlanConfig (vic : VlanInterface) (filePath : string) : M host (option error) :=
  cfg ← some_or_panic (vlan_config vic);
  err ← WriteIniFile filePath cfg;
  match err with
  | Some e => mret (Some (ErrFmt "error writing NetworkManager VLAN config file" e))
  | None =>
      err ← os_Chmod filePath;
      mret (ErrWrap ("error updating permissions for " +:+ Connection_InterfaceName (Connection cfg) +:+ " VLAN connection config") <$> err)
  end.

Definition writeEthernetConfig (nic : Configuration) (filePath : string) : M host (option error) :=
  iface ← some_or_panic (iface_name nic);
  match ini_text (ethernet_config iface) with
  | Err e => mret (Some (ErrWrap "error marshalling ini file" (ErrWrap "error marshalling file" e)))
  | Ok inicfg =>
      err ← os_WriteFile filePath inicfg;
      match err with
      | Some e => mret (Some (ErrFmt "error writing NetworkManager config file" e))
      | None =>
          err ← os_Chmod filePath;
          match err with
          | Some e => mret (Some (ErrWrap ("error updating permissions for " +:+ iface +:+ " connection config") e))
          | None =>
              err ← os_RemoveAll (ifcfgFilePath iface);
              mret (ErrWrap ("failed to remove previously managed ifcfg file(" +:+ ifcfgFilePath iface +:+ ")") <$> err)
          end
      end
  end.

(** The loop of [cleanupVlanConfigs]. *)
Definition cleanup_files (keepMe : list string) (files : list (string * node)) : M host (unit + error) :=
  for_until files tt (λ _ '(fileName, nd),
    if bool_decide (nd = NDir) then mret (inl tt)
    else
      match vlan_of_file fileName with
      | None => mret (inl tt)
      | Some currIface =>
          if bool_decide (currIface ∈ keepMe) then mret (inl tt)
          else
            e ← os_Remove (path_Join [configDir sn; fileName]);
            mret (match e with
                  | Some e => inr (ErrWrap ("failed to remove vlan interface config(" +:+ fileName +:+ ")") e)
                  | None => inl tt
                  end)
      end).

Definition cleanupVlanConfigs (keepMe : list string) : M host (option error) :=
  x ← Exists (configDir sn) TypeDir;
  if negb x then mret None
  else
    files ← os_ReadDir (configDir sn);
    match files with
    | Err e => mret (Some (ErrWrap ("failed to read content from " +:+ configDir sn) e))
    | Ok files =>
        r ← cleanup_files keepMe files;
        mret (match r with inl _ => None | inr e => Some e end)
    end.

Definition reloadInterfaces : M host (option error) :=
  run_command_ "error reloading NetworkManager config cache" ["nmcli"; "conn"; "reload"].

Definition setup_vlans (vics : list VlanInterface) (keep : list string) : M host (list string + error) :=
  for_until vics keep (λ keep vic,
    name ← some_or_panic (InterfaceName vic);
    err ← writeVlanConfig vic (configFilePath name);
    mret (match err with Some e => inr e | None => inl (keep ++ [name]) end)).

Definition setup_nic (nic : Configuration) (keep : list string) : M host (list string + error) :=
  manage ← ShouldManage config nic;
  if negb manage then mret (inl keep)
  else
    iface ← some_or_panic (iface_name nic);
    err ← writeEthernetConfig nic (configFilePath iface);
    match err with
    | Some e => mret (inr e)
    | None => setup_vlans (VlanInterfaces_ nic) keep
    end.

(** Bringing the connections up. *)
Definition connect_nics (nicConfigs : list Configuration) : M host (unit + error) :=
  for_until nicConfigs tt (λ _ nic,
    manage ← ShouldManage config nic;
    if negb manage then mret (inl tt)
    else
      iface ← some_or_panic (iface_name nic);
      let connID := connectionID iface in
      err ← run_command_ ("error enabling NetworkManager connection(" +:+ connID +:+ ")") ["nmcli"; "conn"; "up"; "id"; connID];
      mret (match err with Some e => inr e | None => inl tt end)).

Definition Setup (opts : list Configuration) (forceReload : bool) : M host (option error) :=
  let nicConfigs := FilteredNICConfigs opts in
  r ← for_until nicConfigs [] (λ keep nic, setup_nic nic keep);
  match r with
  | inr e => mret (Some e)
  | inl keepVlanConfigs =>
      err ← cleanupVlanConfigs keepVlanConfigs;
      match err with
      | Some e => mret (Some (ErrWrap "failed to cleanup vlan configs" e))
      | None =>
          err ← reloadInterfaces;
          match err with
          | Some e => mret (Some (ErrWrap "failed to reload NetworkManager interfaces" e))
          | None =>
              r ← connect_nics nicConfigs;
              mret (match r with inl _ => None | inr e => Some e end)
          end
      end
  end.

(** What to remove: whether it is the primary NIC's, its name, its file. *)
Record removeOp := mkRemove { op_primary : bool; op_name : string; op_configFile : string }.

Definition nic_ops (active : bool) (deleteMe : list removeOp) (nic : Configuration) : M host (list removeOp) :=
  skip ← keeps_nic config active nic;
  if (skip : bool) then mret deleteMe
  else
    iface ← some_or_panic (iface_name nic);
    vlans ← some_or_panic (VlanNames nic);
    mret (deleteMe ++ [mkRemove (Index nic =? 0)%Z iface (configFilePath iface)] ++
          ((λ v, mkRemove false "" (configFilePath v)) <$> vlans)).

(** Whether something was removed, and the primary NIC whose file was. *)
Definition remove_ops (deleteMe : list removeOp) : M host ((bool * option string) + (bool * error)) :=
  for_until deleteMe (false, None) (λ '(rolledBack, reconnect) op,
    err ← os_Remove (op_configFile op);
    mret (match err with
          | None => inl (true, if op_primary op then Some (op_name op) else reconnect)
          | Some e =>
              if IsNotExist e then inl (rolledBack, reconnect)
              else inr (rolledBack, ErrFmt ("error deleting NetworkManager config file(" +:+ op_configFile op +:+ ")") e)
          end)).

Definition Rollback (opts : list Configuration) (active : bool) : M host (bool * option error) :=
  deleteMe ← for_acc (FilteredNICConfigs opts) [] (nic_ops active);
  r ← remove_ops deleteMe;
  match r with
  | inr (rolledBack, e) => mret (rolledBack, Some e)
  | inl (rolledBack, reconnect) =>
      path ← execLookPath "nmcli";
      match path with
      | Err _ => mret (rolledBack, None)
      | Ok _ =>
          if negb active then
            err ← reloadInterfaces;
            mret (rolledBack, ErrWrap "failed to reload NetworkManager interfaces" <$> err)
          else
            match reconnect with
            | Some name =>
                if cfg_ManagePrimaryNIC config then mret (rolledBack, None)
                else
                  err ← run_command_ ("error reconnecting device(" +:+ name +:+ ")") ["nmcli"; "device"; "connect"; name];
                  mret (rolledBack, err)
            | None => mret (rolledBack, None)
            end
      end
  end.
End operations.
End service.
End NmService.
