(* ===== verification/Netplan.v ===== *)
(** * cmd/core_plugin/network/netplan: netplan over systemd-networkd

    netplan.go and netplan_linux.go: the drop-in files of the NICs and of the
    VLANs, the drop-ins of the backend, which is networkd's module, the
    exceptions for two releases, the roll-back.  YAML is a parameter, and so
    is the order of a range over a set of VLANs. *)
From stdpp Require Import pretty gmap.
From S2P Require Import Prelude GoStrings GoStringFacts Os Accounts Daemon OsInfo Address Nic Ini Networkd.

Module Netplan.
Import Accounts Address Nic Ini.

Definition serviceID : string := "netplan".
Definition debian12EthernetNamePrefix : string := "a".
Definition netplanDropinIdentifier : string := "google-guest-agent".
Definition netplanEthernetSuffix : string := "-ethernet".
Definition netplanVlanSuffix : string := "-vlan".
Definition netplanConfigVersion : Z := 2.
Definition backendDropinPrefix : string := "10-netplan".
Definition defaultPriority : Z := 20.
Definition defaultNetplanConfigDir : string := "/run/netplan".
Definition defaultConfigPath : string := "/etc/netplan/90-default.yaml".

Definition default_lines : list string :=
  [""; "network:"; "  version: 2"; "  ethernets:";
   "    all-en:"; "      match:"; "        name: en*"; "      dhcp4: true"; "      dhcp4-overrides:"; "        use-domains: true";
   "      dhcp6: true"; "      dhcp6-overrides:"; "        use-domains: true";
   "    all-eth:"; "      match:"; "        name: eth*"; "      dhcp4: true"; "      dhcp4-overrides:"; "        use-domains: true";
   "      dhcp6: true"; "      dhcp6-overrides:"; "        use-domains: true"; ""].
Definition defaultConfig : string := Join default_lines (String nl "").

Record netplanDHCPOverrides := mkOverrides { UseDomains : option bool }.
Record netplanMatch := mkMatch { Match_Name : string }.
Record netplanEthernet := mkEthernet {
  Match : netplanMatch;
  DHCPv4 : option bool;
  DHCP4Overrides : option netplanDHCPOverrides;
  DHCPv6 : option bool;
  DHCP6Overrides : option netplanDHCPOverrides;
}.
Record netplanVlan := mkVlan {
  Vlan_ID : Z;
  Vlan_Link : string;
  Vlan_DHCPv4 : option bool;
  Vlan_DHCPv6 : option bool;
  OverrideMacAddress : string;
  Vlan_MTU : Z;
  Vlan_DHCP4Overrides : option netplanDHCPOverrides;
  Vlan_DHCP6Overrides : option netplanDHCPOverrides;
}.

#[global] Instance netplanDHCPOverrides_eq_dec : EqDecision netplanDHCPOverrides. Proof. solve_decision. Defined.
#[global] Instance netplanMatch_eq_dec : EqDecision netplanMatch. Proof. solve_decision. Defined.
#[global] Instance netplanEthernet_eq_dec : EqDecision netplanEthernet. Proof. solve_decision. Defined.
#[global] Instance netplanVlan_eq_dec : EqDecision netplanVlan. Proof. solve_decision. Defined.

(** A nil map ([None]) is not deeply equal to an empty one. *)
Record netplanNetwork := mkNetwork {
  Version : Z;
  Ethernets : option (gmap string netplanEthernet);
  Vlans : option (gmap string netplanVlan);
}.
Record netplanDropin := mkDropin { Network : netplanNetwork }.

#[global] Instance netplanNetwork_eq_dec : EqDecision netplanNetwork. Proof. solve_decision. Defined.
#[global] Instance netplanDropin_eq_dec : EqDecision netplanDropin. Proof. solve_decision. Defined.

(** gopkg.in/yaml.v3 on a drop-in. *)
Class Yaml := {
  yaml_Marshal : netplanDropin → result string;
  yaml_Unmarshal : string → result netplanDropin;
}.

(** A range over a set of names. *)
Class KeyOrder := {
  key_order : gset string → list string;
  key_order_perm : ∀ X, key_order X ≡ₚ elements X;
}.

(** [backend]: whether it is set; networkd is the only one. *)
Record serviceNetplan := mkService {
  backend : bool;
  backendReload : bool;
  priority : Z;
  netplanConfigDir : string;
  ethernetDropinIdentifier : string;
  ethernetSuffix : string;
  ethernetNamePrefix : string;
  configPath : string;
}.

Definition defaultConfig_ (sn : serviceNetplan) : serviceNetplan :=
  mkService false true defaultPriority defaultNetplanConfigDir netplanDropinIdentifier netplanEthernetSuffix
    (ethernetNamePrefix sn) defaultConfigPath.

Definition defaultModule : serviceNetplan := defaultConfig_ (mkService false false 0 "" "" "" "" "").

Definition set_backend (b : bool) (sn : serviceNetplan) : serviceNetplan :=
  mkService b (backendReload sn) (priority sn) (netplanConfigDir sn) (ethernetDropinIdentifier sn) (ethernetSuffix sn)
    (ethernetNamePrefix sn) (configPath sn).
Definition set_backendReload (b : bool) (sn : serviceNetplan) : serviceNetplan :=
  mkService (backend sn) b (priority sn) (netplanConfigDir sn) (ethernetDropinIdentifier sn) (ethernetSuffix sn)
    (ethernetNamePrefix sn) (configPath sn).
Definition set_namePrefix (p : string) (sn : serviceNetplan) : serviceNetplan :=
  mkService (backend sn) (backendReload sn) (priority sn) (netplanConfigDir sn) (ethernetDropinIdentifier sn) (ethernetSuffix sn)
    p (configPath sn).

Definition setOSFlags (osInfo : OsInfo.OSInfo) (sn : serviceNetplan) : serviceNetplan :=
  let sn := if bool_decide (OsInfo.OS osInfo = "debian" ∧ OsInfo.Major (OsInfo.Version osInfo) = 12%Z)
            then set_namePrefix debian12EthernetNamePrefix sn else sn in
  if bool_decide (OsInfo.OS osInfo = "ubuntu" ∧ OsInfo.Major (OsInfo.Version osInfo) = 18%Z ∧ OsInfo.Minor (OsInfo.Version osInfo) = 4%Z)
  then set_backendReload false sn else sn.

Definition addPrefix (sn : serviceNetplan) (name : string) (after : bool) : string :=
  if bool_decide (ethernetNamePrefix sn = "") then name
  else if after then name +:+ "-" +:+ ethernetNamePrefix sn
  else ethernetNamePrefix sn +:+ "-" +:+ name.

Definition ethernetDropinFile (sn : serviceNetplan) : string :=
  path_Join [netplanConfigDir sn; pretty (priority sn) +:+ "-" +:+ ethernetDropinIdentifier sn +:+ ethernetSuffix sn +:+ ".yaml"].
Definition vlanDropinFile (sn : serviceNetplan) : string :=
  path_Join [netplanConfigDir sn; pretty (priority sn) +:+ "-" +:+ ethernetDropinIdentifier sn +:+ netplanVlanSuffix +:+ ".yaml"].

(** The service, and its backend with the host. *)
Record state := mkState { the_backend : Networkd.state; the_sn : serviceNetplan }.

Definition on_backend {A} (m : M Networkd.state A) : M state A := zoom the_backend (λ b s, mkState b (the_sn s)) m.
Definition on_host {A} (m : M host A) : M state A := on_backend (Networkd.on_host m).
Definition on_sn (f : serviceNetplan → serviceNetplan) : M state unit := modify (λ s, mkState (the_backend s) (f (the_sn s))).

(** ** The drop-in files *)
Section files.
Context `{OsFaults} `{OsInfo.Uname} `{Yaml} (config : Sections).

Definition isUbuntu1804 : M host bool :=
  info ← OsInfo.Read;
  mret (bool_decide (OsInfo.OS info = "ubuntu" ∧ OsInfo.VersionID info = "18.04")).

(** [netplanDropin.equals]; its error only means that the file is written. *)
Definition equals (nd : netplanDropin) (cfgPath : string) : M host bool :=
  x ← Exists cfgPath TypeFile;
  if negb x then mret false
  else
    data ← os_ReadFile cfgPath;
    mret (match data with
          | Err _ => false
          | Ok data => match yaml_Unmarshal data with Ok cfg => bool_decide (nd = cfg) | Err _ => false end
          end).

Definition write (nd : netplanDropin) (dropinFile : string) : M host (bool * option error) :=
  e ← os_MkdirAll (Dir dropinFile);
  match e with
  | Some e => mret (false, Some (ErrWrap "error creating netplan drop-in directory" e))
  | None =>
      same ← equals nd dropinFile;
      if (same : bool) then mret (false, None)
      else
        match yaml_Marshal nd with
        | Err e => mret (false, Some (ErrWrap "error marshalling netplan drop-in yaml file" e))
        | Ok data =>
            e ← os_WriteFile dropinFile data;
            match e with
            | Some e => mret (false, Some e)
            | None => mret (true, None)
            end
        end
  end.

Definition presentVlanNICs (cfgPath : string) : M host (result (gset string)) :=
  x ← Exists cfgPath TypeFile;
  if negb x then mret (Ok ∅)
  else
    data ← os_ReadFile cfgPath;
    mret (match data with
          | Err e => Err (ErrWrap "error reading netplan drop-in file" e)
          | Ok data =>
              match yaml_Unmarshal data with
              | Err e => Err (ErrWrap "error unmarshalling netplan drop-in yaml file" e)
              | Ok cfg => Ok (match Vlans (Network cfg) with Some m => dom m | None => ∅ end)
              end
          end).

Definition ethernet_entry (nic : Configuration) (iface : string) : netplanEthernet :=
  let useDomains := Some (mkOverrides (Some (Index nic =? 0)%Z)) in
  mkEthernet (mkMatch iface) (Some true) useDomains (if SupportsIPv6 nic then Some true else None) useDomains.

Definition vlan_entry (sn : serviceNetplan) (iface : string) (vlan : VlanInterface) : netplanVlan :=
  let overrides := Some (mkOverrides (Some false)) in
  Netplan.mkVlan (VlanID vlan) (addPrefix sn iface false) (Some true)
    (if bool_decide (IPv6Addresses vlan = []) then None else Some true)
    (vlan_MacAddr vlan) (VlanMTU vlan) overrides overrides.

Definition writeDropin (sn : serviceNetplan) (nics : list Configuration) : M host (bool * option error) :=
  if bool_decide (nics = []) then mret (false, None)
  else
    ethernets ← for_acc nics (∅ : gmap string netplanEthernet) (λ ethernets nic,
      manage ← ShouldManage config nic;
      if negb manage then mret ethernets
      else
        iface ← some_or_panic (iface_name nic);
        mret (<[addPrefix sn iface false := ethernet_entry nic iface]> ethernets));
    '(update, err) ← write (mkDropin (mkNetwork netplanConfigVersion (Some ethernets) None)) (ethernetDropinFile sn);
    match err with
    | Some e => mret (false, Some (ErrWrap "error writing netplan dropin" e))
    | None => mret (update, None)
    end.

(** The VLANs of a NIC: the entries, and the names that are not to be deleted. *)
Definition vlan_entries (sn : serviceNetplan) (nic : Configuration) (acc : gmap string netplanVlan * gset string)
    : M host (gmap string netplanVlan * gset string) :=
  for_acc (VlanInterfaces_ nic) acc (λ '(vlans, deleteMe) vlan,
    name ← some_or_panic (InterfaceName vlan);
    iface ← some_or_panic (iface_name nic);
    mret (<[name := vlan_entry sn iface vlan]> vlans, deleteMe ∖ {[name]})).

(** Whether the drop-in changed, and the VLANs to delete. *)
Definition writeVlanDropin (sn : serviceNetplan) (nics : list Configuration) : M host (bool * gset string * option error) :=
  deleteMe ← presentVlanNICs (vlanDropinFile sn);
  match deleteMe with
  | Err e => mret (false, ∅, Some (ErrWrap "failed to check if netplan vlan drop-in config is present" e))
  | Ok deleteMe =>
      '(vlans, deleteMe) ← for_acc nics (∅ : gmap string netplanVlan, deleteMe) (λ acc nic,
        manage ← ShouldManage config nic;
        if negb manage then mret acc else vlan_entries sn nic acc);
      if bool_decide (vlans = ∅) then
        x ← Exists (vlanDropinFile sn) TypeFile;
        if negb x then mret (false, ∅, None)
        else
          e ← os_Remove (vlanDropinFile sn);
          mret (match e with
                | Some e => (false, ∅, Some (ErrWrap "error removing netplan vlan dropin" e))
                | None => (true, deleteMe, None)
                end)
      else
        '(wrote, err) ← write (mkDropin (mkNetwork netplanConfigVersion None (Some vlans))) (vlanDropinFile sn);
        mret (match err with
              | Some e => (false, ∅, Some (ErrFmt "failed to write netplan vlan drop-in config" e))
              | None => (wrote, deleteMe, None)
              end)
  end.

Definition restoreDefaultConfig (sn : serviceNetplan) : M host (option error) :=
  if negb (cfg_RestoreDebian12NetplanConfig config) then mret None
  else
    osDesc ← OsInfo.Read;
    if negb (bool_decide (OsInfo.OS osDesc = "debian" ∧ OsInfo.Major (OsInfo.Version osDesc) = 12%Z)) then mret None
    else
      x ← Exists (configPath sn) TypeFile;
      if (x : bool) then mret None
      else
        e ← os_WriteFile (configPath sn) defaultConfig;
        mret (ErrWrap "error writing default netplan configuration" <$> e).

(** A drop-in is removed when it exists. *)
Definition remove_dropin (msg path : string) : M host (bool * option error) :=
  x ← Exists path TypeFile;
  if negb x then mret (false, None)
  else
    e ← os_Remove path;
    mret (match e with Some e => (false, Some (ErrWrap msg e)) | None => (true, None) end).
End files.

(** ** The service *)
Section service.
Context `{Commands} `{LookPath} `{OsFaults} `{OsInfo.Uname} `{IniFile Networkd.networkdConfig}.
Context `{Networkd.NetworkctlJson} `{Networkd.FsNotify} `{Yaml} `{KeyOrder} (config : Sections).

Definition IsManaging (opts : list Configuration) : M state (result bool) :=
  _ ← on_sn defaultConfig_;
  old ← on_host isUbuntu1804;
  if (old : bool) then mret (Ok false)
  else
    path ← on_host (execLookPath "netplan");
    match path with
    | Err e => mret (if is_not_found e then Ok false else Err (ErrWrap "error looking up dhclient path" e))
    | Ok _ =>
        res ← on_backend (Networkd.IsManaging opts);
        match res with
        | Ok true =>
            _ ← on_sn (set_backend true);
            info ← on_host OsInfo.Read;
            _ ← on_sn (setOSFlags info);
            mret (Ok true)
        | _ => mret (Ok false)
        end
    end.

Definition generateConfigs : M host (option error) :=
  run_command_ "error reloading netplan changes" ["netplan"; "generate"].

Definition removeOrphanedVlans (deleteMe : gset string) : M host unit :=
  _ ← run_command_ "" (["networkctl"; "delete"] ++ key_order deleteMe);
  mret tt.

(** A method of a nil backend panics. *)
Definition need_backend (sn : serviceNetplan) : M state unit := if backend sn then mret tt else panic.

(** [Setup] after the drop-ins of the VLANs. *)
Definition setup_backend (nicConfigs : list Configuration) (forceReload planChanged : bool) : M state (option error) :=
  sn ← gets the_sn;
  '(backendChanged, err) ← on_backend (Networkd.WriteDropins config nicConfigs (addPrefix sn backendDropinPrefix true));
  match err with
  | Some e => mret (Some e)
  | None =>
      err ← (if forceReload || planChanged then on_host generateConfigs else mret None);
      match err with
      | Some e => mret (Some (ErrWrap "error applying netplan changes" e))
      | None =>
          if (forceReload || planChanged || backendChanged) && backendReload sn then
            err ← on_backend (Networkd.Reload (Z.of_nat (length nicConfigs)));
            mret (ErrFmt ("error reloading backend(" +:+ Networkd.ServiceID +:+ ") configs") <$> err)
          else mret None
      end
  end.

Definition Setup (opts : list Configuration) (forceReload : bool) : M state (option error) :=
  let nicConfigs := FilteredNICConfigs opts in
  sn ← gets the_sn;
  '(netplanChanged, err) ← on_host (writeDropin config sn nicConfigs);
  match err with
  | Some e => mret (Some (ErrWrap "error writing netplan dropin" e))
  | None =>
      '(netplanVlanChanged, vlanDeleteMe, err) ← on_host (writeVlanDropin config sn nicConfigs);
      match err with
      | Some e => mret (Some (ErrWrap "error writing netplan vlan dropin" e))
      | None =>
          _ ← need_backend sn;
          '(backendVlanChanged, err) ← on_backend (Networkd.WriteNetplanVlanDropins config backendDropinPrefix nicConfigs);
          match err with
          | Some e => mret (Some (ErrWrap "error writing backend vlan dropin" e))
          | None =>
              '(backendVlanCleanedup, err) ←
                on_backend (Networkd.RollbackNetplanVlanDropins (key_order vlanDeleteMe) backendDropinPrefix);
              match err with
              | Some e => mret (Some (ErrWrap "error rolling back backend vlan dropin" e))
              | None =>
                  err ← setup_backend nicConfigs forceReload
                    (netplanChanged || netplanVlanChanged || backendVlanChanged || backendVlanCleanedup);
                  _ ← (if bool_decide (vlanDeleteMe = ∅) then mret tt else on_host (removeOrphanedVlans vlanDeleteMe));
                  mret err
              end
          end
      end
  end.

(** [Rollback] after the files. *)
Definition rollback_reload (rolledBack : bool) : M state (bool * option error) :=
  path ← on_host (execLookPath "netplan");
  match path with
  | Err e => mret (rolledBack, if is_not_found e then None else Some (ErrWrap "error looking up netplan path" e))
  | Ok _ =>
      sn ← gets the_sn;
      if negb (backend sn) then mret (rolledBack, None)
      else
        err ← on_host generateConfigs;
        match err with
        | Some e => mret (rolledBack, Some (ErrWrap "error reloading netplan changes" e))
        | None =>
            err ← on_backend (Networkd.Reload 0);
            mret (rolledBack, ErrFmt ("error reloading backend(" +:+ Networkd.ServiceID +:+ ") configs") <$> err)
        end
  end.

Definition Rollback (opts : list Configuration) (active : bool) : M state (bool * option error) :=
  sn ← gets the_sn;
  err ← on_backend (Networkd.RollbackDropins config (FilteredNICConfigs opts) backendDropinPrefix active);
  match err with
  | Some e => mret (false, Some e)
  | None =>
      '(removed1, err) ← (if active then mret (false, None)
                          else on_host (remove_dropin "error removing netplan dropin" (ethernetDropinFile sn)));
      match err with
      | Some e => mret (false, Some e)
      | None =>
          '(removed2, err) ← (if active then mret (false, None)
                              else on_host (remove_dropin "error removing netplan vlan dropin" (vlanDropinFile sn)));
          match err with
          | Some e => mret (removed1, Some e)
          | None =>
              let rolledBack := removed1 || removed2 in
              err ← on_host (restoreDefaultConfig config sn);
              match err with
              | Some e => mret (rolledBack, Some (ErrWrap "error restoring default netplan configuration" e))
              | None => if negb active then rollback_reload rolledBack else mret (rolledBack, None)
              end
          end
      end
  end.
End service.
End Netplan.
