(* ===== verification/Dhclient.v ===== *)
(** * cmd/core_plugin/network/dhclient: dhclient

    dhclient.go and dhclient_linux.go: the leases of the NICs, the VLAN
    interfaces made with the command ip, the roll-back; and the command
    templates of internal/run/run_batch.go.  The processes and the interfaces
    of the system are parameters. *)
From stdpp Require Import pretty gmap.
From S2P Require Import Prelude GoStrings GoStringFacts Os Accounts Daemon OsInfo NetAddr Address Nic Ini Retry.

Module Dhclient.
Import Accounts NetAddr Address Nic Ini.

(** ** internal/run: command templates *)

Definition ErrCommandTemplate : error := ErrMsg "invalid command format template".

(** A template is what it expands to on its data; [None] when a field of the
    data cannot be reached. *)
Record CommandSpec (D : Type) := mkSpec { Command : D → option string; Error : D → option string }.
Arguments mkSpec {D}.
Arguments Command {D}.
Arguments Error {D}.

Section batch.
Context `{Commands} {D : Type}.

Definition spec_WithContext (c : CommandSpec D) (data : D) : M host (option error) :=
  match Command c data with
  | None => mret (Some ErrCommandTemplate)
  | Some text =>
      match Error c data with
      | None => mret (Some (ErrMsg "invalid error format template"))
      | Some errorMsg =>
          r ← WithContext (mkCommand (Split text (byte_of 32)) "");
          mret (ErrWrap errorMsg <$> Daemon.run_error r)
      end
  end.

Fixpoint set_WithContext (s : list (CommandSpec D)) (data : D) : M host (option error) :=
  match s with
  | [] => mret None
  | curr :: s =>
      err ← spec_WithContext curr data;
      match err with Some e => mret (Some e) | None => set_WithContext s data end
  end.
End batch.

(** ** dhclient.go *)
Definition defaultBaseDhclientDir : string := "/run".
Definition tentativeIPCommandAttempts : Z := 5.
Definition serviceID : string := "dhclient".

Record ipVersion := mkVersion { Desc : string; Flag : string }.
Definition ipv4 : ipVersion := mkVersion "ipv4" "-4".
Definition ipv6 : ipVersion := mkVersion "ipv6" "-6".

#[global] Instance ipVersion_eq_dec : EqDecision ipVersion.
Proof. solve_decision. Defined.

Inductive dhclientOperation := obtainLease | releaseLease.

(** The data of the address commands; the commands go beside it. *)
Record vlanIPConfig := mkIPConfig {
  ip_Interface : VlanInterface;
  IPVersion : ipVersion;
  ip_IPAddress : option IPAddr;
}.

(** A template prints a nil address as [<nil>]. *)
Definition print_addr (a : option IPAddr) : string := match a with Some a => addr_String a | None => "<nil>" end.

Definition on_vlan (f : VlanInterface → string → string → option string) (vic : VlanInterface) : option string :=
  iface ← InterfaceName vic; parent ← Parent vic; f vic iface (Name parent).
Definition on_config (f : vlanIPConfig → string → string) (c : vlanIPConfig) : option string :=
  f c <$> InterfaceName (ip_Interface c).

Definition vlanDeleteLinkCmd : CommandSpec VlanInterface :=
  mkSpec (on_vlan (λ _ iface _, Some ("ip link delete " +:+ iface)))
    (on_vlan (λ _ iface _, Some ("vlan(" +:+ iface +:+ "): failed to delete link"))).

Definition vlanIfaceCommonSet : list (CommandSpec VlanInterface) :=
  [mkSpec (on_vlan (λ vic iface parent, Some ("ip link add link " +:+ parent +:+ " name " +:+ iface +:+ " type vlan id " +:+ pretty (VlanID vic) +:+ " reorder_hdr off")))
     (on_vlan (λ _ iface _, Some ("vlan(" +:+ iface +:+ "): failed to add link")));
   mkSpec (on_vlan (λ vic iface _, Some ("ip link set dev " +:+ iface +:+ " address " +:+ vlan_MacAddr vic)))
     (on_vlan (λ _ iface _, Some ("vlan(" +:+ iface +:+ "): failed to set interface's mac address")));
   mkSpec (on_vlan (λ vic iface _, Some ("ip link set dev " +:+ iface +:+ " mtu " +:+ pretty (VlanMTU vic))))
     (on_vlan (λ _ iface _, Some ("vlan(" +:+ iface +:+ "): failed to set interface's MTU")));
   mkSpec (on_vlan (λ _ iface _, Some ("ip link set up " +:+ iface)))
     (on_vlan (λ _ iface _, Some ("vlan(" +:+ iface +:+ "): failed to bring interface up")))].

(** The addresses and the gateway are those of the interface, not the one the
    data carries. *)
Definition ipAddressSet : list (CommandSpec vlanIPConfig) :=
  [mkSpec (on_config (λ c iface, "ip " +:+ Flag (IPVersion c) +:+ " addr add dev " +:+ iface +:+ " " +:+ print_addr (IPAddress (ip_Interface c))))
     (on_config (λ c iface, "vlan(" +:+ iface +:+ "): failed to set ip address " +:+ print_addr (IPAddress (ip_Interface c))))].
Definition commonRouteSet : list (CommandSpec vlanIPConfig) :=
  [mkSpec (on_config (λ c iface, "ip " +:+ Flag (IPVersion c) +:+ " route add " +:+ print_addr (Gateway (ip_Interface c)) +:+ " dev " +:+ iface))
     (on_config (λ c iface, "vlan(" +:+ iface +:+ "): failed to add " +:+ Desc (IPVersion c) +:+ " route to gateway " +:+ print_addr (Gateway (ip_Interface c))))].
Definition ipv4RouteCommand : list (CommandSpec vlanIPConfig) :=
  [mkSpec (on_config (λ c _, "ip route add " +:+ print_addr (IPAddress (ip_Interface c)) +:+ " via " +:+ print_addr (Gateway (ip_Interface c))))
     (on_config (λ c iface, "vlan(" +:+ iface +:+ "): failed to set gateway route"))].

(** ** The system *)

(** The command lines of the processes that match [.*dhclient.*], the
    interfaces, and whether the context is done. *)
Class Processes := dhclient_processes : host → result (list (list string)).
Class HostInterfaces := host_interfaces : host → result (list Interface).
Class Context_ := ctx_done : host → option error.

Record interfacePartitions := mkPartitions {
  obtainIpv4 : list Configuration;
  obtainIpv6 : list Configuration;
  releaseIpv6 : list Configuration;
  ipv6Interfaces : list Configuration;
}.

Section service.
Context `{Commands} `{LookPath} `{OsFaults} `{OsInfo.Uname} `{Processes} `{HostInterfaces} `{Context_}.
Context (config : Sections) (baseDhclientDir : string).

(** Whether a process is the client of an interface for a version: an IPv4
    one need not have its flag. *)
Definition is_client (iface : string) (v : ipVersion) (commandLine : list string) : bool :=
  bool_decide (iface ∈ commandLine) &&
  ((bool_decide (v = ipv6) && bool_decide (Flag v ∈ commandLine)) ||
   (bool_decide (v = ipv4) && negb (bool_decide (Flag ipv6 ∈ commandLine)))).

Definition dhclientProcessExists (nicConfig : Configuration) (v : ipVersion) : M host (result bool) :=
  iface ← some_or_panic (iface_name nicConfig);
  processes ← gets dhclient_processes;
  mret (match processes with
        | Err e => Err (ErrWrap "error finding dhclient process" e)
        | Ok processes => Ok (existsb (is_client iface v) processes)
        end).

Definition dhclientInstalled : M host (result bool) :=
  path ← execLookPath "dhclient";
  mret (match path with
        | Ok _ => Ok true
        | Err e => if is_not_found e then Ok false else Err (ErrWrap "error looking up dhclient path" e)
        end).

Definition IsManaging (opts : list Configuration) : M host (result bool) := dhclientInstalled.

Definition pidFilePath (iface : string) (v : ipVersion) : string :=
  path_Join [baseDhclientDir; "dhclient.google-guest-agent." +:+ iface +:+ "." +:+ Desc v +:+ ".pid"].
Definition leaseFilePath (iface : string) (v : ipVersion) : string :=
  path_Join [baseDhclientDir; "dhclient.google-guest-agent." +:+ iface +:+ "." +:+ Desc v +:+ ".lease"].

Definition dhclient_args (nicName : string) (v : ipVersion) (op : dhclientOperation) : list string :=
  ["dhclient"; Flag v; "-pf"; pidFilePath nicName v; "-lf"; leaseFilePath nicName v] ++
  match op with releaseLease => ["-r"; nicName] | obtainLease => [nicName] end.

Definition runDhclient (nicName : string) (v : ipVersion) (op : dhclientOperation) : M host (option error) :=
  run_command_ (match op with releaseLease => "error releasing lease for " | obtainLease => "error obtaining lease for " end +:+ nicName)
    (dhclient_args nicName v op).

(** Whether the command of the configuration was run, and its error. *)
Definition runConfiguredCommand : M host (bool * option error) :=
  if bool_decide (cfg_DHCPCommand config = "") then mret (false, None)
  else
    err ← run_command_ "error running dhclient command" (Split (cfg_DHCPCommand config) (byte_of 32));
    mret (true, err).

Definition add_partition (p : interfacePartitions) (nic : Configuration) (v4 v6 : bool) : interfacePartitions :=
  let add (b : bool) l := if b then l ++ [nic] else l in
  mkPartitions (add (negb v4) (obtainIpv4 p)) (add (SupportsIPv6 nic && negb v6) (obtainIpv6 p))
    (add (negb (SupportsIPv6 nic) && v6) (releaseIpv6 p)) (add (SupportsIPv6 nic) (ipv6Interfaces p)).

Definition newInterfacePartitions (nics : list Configuration) : M host (interfacePartitions + error) :=
  for_until nics (mkPartitions [] [] [] []) (λ p nic,
    manage ← ShouldManage config nic;
    if negb manage then mret (inl p)
    else
      v4 ← dhclientProcessExists nic ipv4;
      match v4 with
      | Err e => mret (inr e)
      | Ok v4 =>
          v6 ← dhclientProcessExists nic ipv6;
          mret (match v6 with Err e => inr e | Ok v6 => inl (add_partition p nic v4 v6) end)
      end).

(** A command per NIC, up to the first that fails. *)
Definition run_each (msg : string) (v : ipVersion) (op : dhclientOperation) (nics : list Configuration) : M host (unit + error) :=
  for_until nics tt (λ _ nic,
    iface ← some_or_panic (iface_name nic);
    err ← runDhclient iface v op;
    mret (match err with Some e => inr (ErrWrap msg e) | None => inl tt end)).

Definition wait (d : Z) : M host (option error) := gets ctx_done.

Definition tentative_policy : Retry.Policy := Retry.constant_policy tentativeIPCommandAttempts Retry.Second.

Definition runTentative (primaryInterface : string) : M host (option error) :=
  r ← WithContext (mkCommand ["ip"; "-6"; "-o"; "a"; "s"; "dev"; primaryInterface; "scope"; "link"; "tentative"] "");
  mret (ErrFmt "failed to run ip" <$> Daemon.run_error r).

Definition setupIPV6Interfaces (opts : list Configuration) (partitions : interfacePartitions) : M host (option error) :=
  match GetPrimaryNIC opts with
  | (_, Some e) => mret (Some (ErrWrap "failed to get primary NIC" e))
  | (primaryNIC, None) =>
      primaryInterface ← some_or_panic (primaryNIC ≫= iface_name);
      r ← Retry.Run wait (Z.to_nat tentativeIPCommandAttempts) tentative_policy (Some (runTentative primaryInterface));
      err ← some_or_panic r;
      match err with
      | Some e => mret (Some (ErrWrap ("tentative IP setup for interface: " +:+ primaryInterface +:+ "; error") e))
      | None =>
          r ← for_until (ipv6Interfaces partitions) tt (λ _ nic,
                iface ← some_or_panic (iface_name nic);
                r ← WithContext (mkCommand ["sysctl"; "net.ipv6.conf." +:+ iface +:+ ".accept_ra_rt_info_max_plen=128"] "");
                mret (match Daemon.run_error r with Some e => inr e | None => inl tt end));
          match r with
          | inr e => mret (Some e)
          | inl _ =>
              r ← run_each "failed to obtain lease" ipv6 obtainLease (obtainIpv6 partitions);
              mret (match r with inr e => Some e | inl _ => None end)
          end
      end
  end.

Definition setupEthernet (opts : list Configuration) : M host (option error) :=
  '(ok, err) ← runConfiguredCommand;
  if (ok : bool) then mret err
  else
    r ← newInterfacePartitions (FilteredNICConfigs opts);
    match r with
    | inr e => mret (Some (ErrWrap "error partitioning interfaces" e))
    | inl partitions =>
        r ← run_each "failed to run dhclient" ipv6 releaseLease (releaseIpv6 partitions);
        match r with
        | inr e => mret (Some e)
        | inl _ =>
            r ← run_each "failed to run dhclient" ipv4 obtainLease (obtainIpv4 partitions);
            match r with
            | inr e => mret (Some e)
            | inl _ =>
                if bool_decide (ipv6Interfaces partitions = []) then mret None
                else
                  err ← setupIPV6Interfaces opts partitions;
                  mret (ErrWrap "failed to setup IPv6 interfaces" <$> err)
            end
        end
    end.

(** ** VLANs *)

(** [keepMe] holds pointers: the positions of the VLANs of the NIC. *)
Definition removeVlanInterfaces (nic : Configuration) (keepMe : list nat) : M host (option error) :=
  r ← for_until (imap pair (VlanInterfaces_ nic)) tt (λ _ '(i, vlan),
        if bool_decide (i ∈ keepMe) then mret (inl tt)
        else
          err ← spec_WithContext vlanDeleteLinkCmd vlan;
          mret (match err with
                | Some e => inr (ErrWrap "failed to remove no longer wanted vlan interface" e)
                | None => inl tt
                end));
  mret (match r with inl _ => None | inr e => Some e end).

(** The address commands of a VLAN, in order. *)
Definition vlan_batch (vlan : VlanInterface) : list (vlanIPConfig * list (CommandSpec vlanIPConfig)) :=
  (match IPAddress vlan with
   | Some a => (λ set, (mkIPConfig vlan ipv4 (Some a), set)) <$> [ipAddressSet; commonRouteSet; ipv4RouteCommand]
   | None => []
   end) ++
  (IPv6Addresses vlan ≫= λ a, (λ set, (mkIPConfig vlan ipv6 a, set)) <$> [ipAddressSet; commonRouteSet]).

(** A VLAN that is new, or whose address or MTU changed. *)
Definition create_vlan (vlan : VlanInterface) (found : bool) : M host (option error) :=
  err ← (if found then spec_WithContext vlanDeleteLinkCmd vlan else mret None);
  match err with
  | Some e => mret (Some (ErrWrap "failed to remove pre existing vlan interface" e))
  | None =>
      err ← set_WithContext vlanIfaceCommonSet vlan;
      match err with
      | Some e => mret (Some e)
      | None =>
          r ← for_until (vlan_batch vlan) tt (λ _ '(data, set),
                err ← set_WithContext set data;
                mret (match err with Some e => inr (ErrWrap "failed to setup vlan interface commands" e) | None => inl tt end));
          mret (match r with inl _ => None | inr e => Some e end)
      end
  end.

Definition setup_vlan (interfaceMap : gmap string Interface) (keepMe : list nat) (iv : nat * VlanInterface) : M host (list nat + error) :=
  let '(i, vlan) := iv in
  name ← some_or_panic (InterfaceName vlan);
  let existingIface := interfaceMap !! name in
  let unchanged := match existingIface with
                   | Some x => bool_decide (HardwareAddr_String (HardwareAddr x) = vlan_MacAddr vlan ∧ MTU x = VlanMTU vlan)
                   | None => false
                   end in
  if (unchanged : bool) then mret (inl (keepMe ++ [i]))
  else
    err ← create_vlan vlan (bool_decide (is_Some existingIface));
    mret (match err with Some e => inr e | None => inl (keepMe ++ [i]) end).

Definition setupVlanInterfaces (nic : Configuration) : M host (option error) :=
  _ ← some_or_panic (iface_name nic);
  sysInterfaces ← gets host_interfaces;
  match sysInterfaces with
  | Err e => mret (Some (ErrWrap "failed to list systems interfaces" e))
  | Ok sysInterfaces =>
      let interfaceMap := foldl (λ m i, <[Name i := i]> m) ∅ sysInterfaces in
      r ← for_until (imap pair (VlanInterfaces_ nic)) [] (setup_vlan interfaceMap);
      match r with
      | inr e => mret (Some e)
      | inl keepMe =>
          err ← removeVlanInterfaces nic keepMe;
          mret (ErrWrap "failed to remove uninstalled vlan interfaces" <$> err)
      end
  end.

Definition Setup (opts : list Configuration) (forceReload : bool) : M host (option error) :=
  err ← setupEthernet opts;
  match err with
  | Some e => mret (Some e)
  | None =>
      r ← for_until (FilteredNICConfigs opts) tt (λ _ nic,
            err ← setupVlanInterfaces nic;
            mret (match err with Some e => inr e | None => inl tt end));
      mret (match r with inl _ => None | inr e => Some e end)
  end.

(** ** Roll-back *)

(** The lease of a version is released when it has a process. *)
Definition release (iface : string) (nic : Configuration) (v : ipVersion) (rolledBack : bool) : M host (bool + bool * error) :=
  exists_ ← dhclientProcessExists nic v;
  match exists_ with
  | Err e => mret (inr (rolledBack, ErrWrap ("failed to check if process exists for " +:+ iface) e))
  | Ok false => mret (inl rolledBack)
  | Ok true =>
      err ← runDhclient iface v releaseLease;
      mret (match err with
            | Some e => inr (rolledBack, ErrWrap ("failed to release lease for " +:+ iface) e)
            | None => inl true
            end)
  end.

(** The VLANs go when a process is left. *)
Definition release_vlans (iface : string) (nic : Configuration) (rolledBack : bool) : M host (bool + bool * error) :=
  v6 ← dhclientProcessExists nic ipv6;
  match v6 with
  | Err e => mret (inr (rolledBack, ErrWrap ("failed to check if IPv6 dhclient process exists for " +:+ iface) e))
  | Ok v6 =>
      v4 ← dhclientProcessExists nic ipv4;
      match v4 with
      | Err e => mret (inr (rolledBack, ErrWrap ("failed to check if IPv4 dhclient process exists for " +:+ iface) e))
      | Ok v4 =>
          if v6 || v4 then
            err ← removeVlanInterfaces nic [];
            mret (match err with
                  | Some e => inr (rolledBack, ErrWrap "failed to remove vlan interfaces" e)
                  | None => inl true
                  end)
          else mret (inl rolledBack)
      end
  end.

Definition rollback_nic (rolledBack : bool) (nic : Configuration) : M host (bool + bool * error) :=
  iface ← some_or_panic (iface_name nic);
  r ← release iface nic ipv4 rolledBack;
  match r with
  | inr e => mret (inr e)
  | inl rolledBack =>
      r ← (if SupportsIPv6 nic then release iface nic ipv6 rolledBack else mret (inl rolledBack));
      match r with
      | inr e => mret (inr e)
      | inl rolledBack => release_vlans iface nic rolledBack
      end
  end.

(** Also the active manager rolls back. *)
Definition Rollback (opts : list Configuration) (active : bool) : M host (bool * option error) :=
  installed ← dhclientInstalled;
  match installed with
  | Ok true =>
      r ← for_until (FilteredNICConfigs opts) false rollback_nic;
      mret (match r with inl b => (b, None) | inr (b, e) => (b, Some e) end)
  | _ => mret (false, None)
  end.
End service.
End Dhclient.
