(* ===== verification/BackendFacts.v ===== *)
(** * Theorems on wicked, dhclient, netplan and NetworkManager

    Which files a roll-back of wicked can touch, which clients dhclient starts
    and stops, and where the set-ups and roll-backs of the back ends do not
    meet. *)
From stdpp Require Import pretty.
From S2P Require Import Prelude GoStrings GoStringFacts Os Paths Accounts Daemon OsInfo Regexp NetAddr Address Nic Retry Ini HostRules Networkd NetworkdFacts Wicked NmService Netplan Dhclient.

Module BackendFacts.
Import Accounts Address Nic Ini HostRules.

(** ** wicked: whose files are removed *)
Section wicked.
Context `{Commands} `{LookPath} `{OsFaults} `{OsInfo.Uname} (config : Sections) (configDir : string).
Import Wicked.

(** A file of the agent starts with its comment. *)
Definition own_file (d : string) : Prop := take (length (to_bytes googleComment)) (to_bytes d) = to_bytes googleComment.

(** The files of others stay as they are. *)
Definition spares (h h' : host) : Prop :=
  ∀ p d, nodes_of h !! p = Some (NFile d) → ¬ own_file d → nodes_of h' !! p = Some (NFile d).

#[local] Instance spares_preorder : PreOrder spares.
Proof. split; [by intros h p d|intros a b c Hab Hbc p d Hp Hd]. exact (Hbc p d (Hab p d Hp Hd) Hd). Qed.

Lemma spares_nodes h h' : nodes_of h' = nodes_of h → spares h h'.
Proof. intros E p d Hp _. by rewrite E. Qed.

(** A file it says to be the agent's starts with the comment. *)
Lemma wp_managedByGuestAgent p h :
  wp (managedByGuestAgent p) (λ r h', nodes_of h' = nodes_of h ∧
    (r = Ok true → ∃ q d, resolve (nodes_of h) p = Some (q, NFile d) ∧ own_file d)) h.
Proof.
  unfold managedByGuestAgent. wp_step. unfold os_Stat. apply wp_reads; [done|done| |].
  { intros ft h1 [E1 _]. cbn. apply wp_ret. split; [done|]. by destruct (IsNotExist _). }
  intros h1 [E1 _]. cbn. destruct (resolve (nodes_of h) p) as [[q nd]|] eqn:Er; [|by apply wp_ret].
  cbn beta iota. destruct nd as [d| |t]; cbn; (case_bool_decide || idtac); try (by apply wp_ret).
  all: wp_step; unfold os_ReadFile; apply wp_reads; [done|done|by intros ft h2 [E2 _]; apply wp_ret; split; [congruence|]|].
  all: intros h2 [E2 _]; cbn; rewrite E1, Er; apply wp_ret; split; [congruence|]; try done.
  intros [= Ht%bool_decide_eq_true]. by exists q, d.
Qed.

Lemma respects_removeInterface p b : respects spares (removeInterface p b).
Proof.
  apply respects_wp. intros h. unfold removeInterface. wp_step. eapply wp_mono; [apply wp_managedByGuestAgent|].
  intros r h1 [E1 Hr]. destruct r as [[]|e]; [|by apply wp_ret, spares_nodes..].
  destruct b; [by apply wp_ret, spares_nodes|]. destruct (Hr eq_refl) as (q & d & Hq & Hown). wp_step.
  apply wp_with_fs; intros.
  - apply wp_ret. by apply spares_nodes.
  - apply wp_ret. intros p' d' Hp' Hd'. unfold nodes_of at 1. cbn. fold (nodes_of h1). rewrite E1.
    assert (p' ≠ p).
    { intros ->. apply Hd'. rewrite resolve_direct in Hq by (intros t Ht; congruence). rewrite Hp' in Hq. by injection Hq as <- <-. }
    destruct (nodes_of h !! p) as [[]|]; [|case_bool_decide|..]; cbn; rewrite ?lookup_delete_ne by done; done.
Qed.

Lemma respects_run_command_ msg args : respects spares (run_command_ msg args).
Proof. apply respects_wp. intros h. eapply wp_mono; [apply wp_run_command_|]. intros e h' (E & _). by apply spares_nodes. Qed.

Lemma spares_reads {A} (m : M host A) : respects same m → respects spares m.
Proof. apply respects_weaken. intros h h' [E _]. by apply spares_nodes. Qed.

Lemma respects_cleanup keep : respects spares (cleanupVlanInterfaces configDir keep).
Proof.
  unfold cleanupVlanInterfaces. apply respects_bind; [apply _|by apply spares_reads, same_reads|]. intros [files|e]; [|apply respects_ret, _].
  apply respects_bind; [apply _| |intros; apply respects_ret, _]. apply respects_for_until; [apply _|]. intros _ [name nd]. unfold cleanup_file.
  case_bool_decide; [apply respects_ret, _|]. destruct (vlan_iface name); [|apply respects_ret, _]. case_bool_decide; [apply respects_ret, _|].
  apply respects_bind; [apply _|apply respects_removeInterface|]. intros [[]|e]; [|apply respects_ret, _..].
  apply respects_bind; [apply _|apply respects_run_command_|]. intros; apply respects_ret, _.
Qed.

Lemma respects_rollback_nic active reload nic : respects spares (rollback_nic configDir config active reload nic).
Proof.
  unfold rollback_nic. apply respects_bind; [apply _|apply spares_reads, same_keeps_nic|]. intros []; [apply respects_ret, _|].
  apply respects_bind; [apply _|apply spares_reads, same_some_or_panic|]. intros iface.
  apply respects_bind; [apply _|apply respects_removeInterface|]. intros r; apply respects_ret, _.
Qed.

(** wicked: whatever fails, and whether or not wicked is the active manager,
    a roll-back neither removes nor changes a file that does not start with the
    comment of the agent. *)
Theorem wicked_Rollback_spares (opts : list Configuration) (active : bool) :
  respects spares (Rollback configDir config opts active).
Proof.
  unfold Rollback. apply respects_bind; [apply _|apply spares_reads, same_Exists|]. intros []; [|apply respects_ret, _].
  apply respects_bind; [apply _|apply respects_for_until; [apply _|]; intros; apply respects_rollback_nic|].
  intros [reload|e]; [|apply respects_ret, _]. apply respects_bind; [apply _|apply respects_cleanup|]. intros [e|]; [apply respects_ret, _|].
  case_bool_decide; [apply respects_ret, _|]. apply respects_bind; [apply _|apply spares_reads, same_execLookPath|].
  intros [path|e]; [|apply respects_ret, _]. destruct active; [apply respects_ret, _|].
  apply respects_bind; [apply _|apply respects_run_command_|]. intros; apply respects_ret, _.
Qed.
End wicked.

(** ** dhclient: the clients that run *)
Lemma Forall_filter_keeps {A} (Q P : A → Prop) `{∀ x, Decision (P x)} l : Forall Q l → Forall Q (filter P l).
Proof. rewrite !Forall_forall. intros HQ x [_ Hx]%list_elem_of_filter. by apply HQ. Qed.

Section dhclient.
Import Dhclient.
Context `{Commands} `{LookPath} `{OsFaults} `{OsInfo.Uname} `{Processes} `{HostInterfaces} `{Context_}.
Context (config : Sections) (dir : string).

Definition name_of (nic : Configuration) : string := default "" (iface_name nic).

(** The NICs with an interface that are not the primary one. *)
Definition managed (nics : list Configuration) : list Configuration := filter (λ nic, Index nic ≠ 0%Z) nics.

Section clients.
Context (procs : list (list string)).

Definition has (v : ipVersion) (nic : Configuration) : Prop := existsb (is_client (name_of nic) v) procs = true.
#[global] Instance has_dec v nic : Decision (has v nic).
Proof. unfold has. apply _. Defined.

Definition parts (nics : list Configuration) : interfacePartitions :=
  mkPartitions (filter (λ nic, ¬ has ipv4 nic) nics) (filter (λ nic, SupportsIPv6 nic = true ∧ ¬ has ipv6 nic) nics)
    (filter (λ nic, SupportsIPv6 nic = false ∧ has ipv6 nic) nics) (filter (λ nic, SupportsIPv6 nic = true) nics).

Definition client_command (v : ipVersion) (op : dhclientOperation) (nic : Configuration) : command :=
  mkCommand (dhclient_args dir (name_of nic) v op) "".
Definition tentative_command (primary : string) : command :=
  mkCommand ["ip"; "-6"; "-o"; "a"; "s"; "dev"; primary; "scope"; "link"; "tentative"] "".
Definition sysctl_command (nic : Configuration) : command :=
  mkCommand ["sysctl"; "net.ipv6.conf." +:+ name_of nic +:+ ".accept_ra_rt_info_max_plen=128"] "".

(** The commands of a set-up, in their order. *)
Definition lease_commands (primary : string) (p : interfacePartitions) : list command :=
  (client_command ipv6 releaseLease <$> releaseIpv6 p) ++ (client_command ipv4 obtainLease <$> obtainIpv4 p) ++
  match ipv6Interfaces p with
  | [] => []
  | l => tentative_command primary :: (sysctl_command <$> l) ++ (client_command ipv6 obtainLease <$> obtainIpv6 p)
  end.

Lemma filter_snoc_bool {A} (P : A → Prop) `{∀ x, Decision (P x)} (b : bool) l x :
  (b = true ↔ P x) → (if b then filter P l ++ [x] else filter P l) = filter P (l ++ [x]).
Proof.
  intros Hb. rewrite filter_app. destruct b.
  - by rewrite filter_cons_True by (by apply Hb).
  - rewrite filter_cons_False by (by intros ?%Hb). by rewrite app_nil_r.
Qed.

Lemma parts_snoc nics nic :
  add_partition (parts nics) nic (existsb (is_client (name_of nic) ipv4) procs) (existsb (is_client (name_of nic) ipv6) procs) = parts (nics ++ [nic]).
Proof.
  unfold parts, add_partition. cbn [obtainIpv4 obtainIpv6 releaseIpv6 ipv6Interfaces].
  f_equal; apply filter_snoc_bool; unfold has; destruct (SupportsIPv6 nic), (existsb (is_client (name_of nic) ipv4) procs), (existsb (is_client (name_of nic) ipv6) procs);
    cbn; naive_solver.
Qed.

Context (Hprimary : cfg_ManagePrimaryNIC config = false).

Lemma wp_partitions nics l h :
  Forall (λ nic, is_Some (iface_name nic)) nics → (∀ h', same h h' → dhclient_processes h' = Ok procs) →
  wp (for_until nics (parts l) (λ p nic,
      manage ← ShouldManage config nic;
      if negb manage then mret (inl p)
      else
        v4 ← dhclientProcessExists nic ipv4;
        match v4 with
        | Err e => mret (inr e)
        | Ok v4 =>
            v6 ← dhclientProcessExists nic ipv6;
            mret (match v6 with Err e => inr e | Ok v6 => inl (add_partition p nic v4 v6) end)
        end)) (λ r h', same h h' ∧ r = inl (parts (l ++ managed nics))) h.
Proof.
  revert l h. induction nics as [|nic nics IH]; intros l h Hf Hp; cbn [for_until].
  { apply wp_ret. by rewrite app_nil_r. }
  apply Forall_cons in Hf as [[name Hname] Hf]. wp_step. wp_step. eapply wp_mono; [apply wp_ShouldManage, Hprimary|].
  intros b h1 [Hs ->]. cbn beta. unfold managed. destruct (Index nic =? 0)%Z eqn:Ei; cbn [negb].
  - apply Z.eqb_eq in Ei. rewrite filter_cons_False by auto. apply wp_ret. eapply wp_mono; [apply IH; [done|]; intros; apply Hp; by etrans|].
    intros r h2 [Hs2 ->]. split; [by etrans|done].
  - apply Z.eqb_neq in Ei. rewrite filter_cons_True by done. unfold dhclientProcessExists. rewrite Hname. cbn [some_or_panic].
    wp_step. wp_step. apply wp_ret. wp_step. apply wp_gets. rewrite (Hp h1 Hs). apply wp_ret. cbn beta iota.
    wp_step. wp_step. apply wp_ret. wp_step. apply wp_gets. rewrite (Hp h1 Hs). apply wp_ret. apply wp_ret. cbn beta iota.
    pose proof (parts_snoc l nic) as Ea. unfold name_of in Ea. rewrite Hname in Ea. cbn in Ea. rewrite Ea.
    eapply wp_mono; [apply IH; [done|]; intros; apply Hp; by etrans|]. intros r h2 [Hs2 ->]. split; [by etrans|].
    by rewrite <-app_assoc.
Qed.

Context (commands_work : ∀ n c, Daemon.run_error (run_command n c) = None).

Lemma wp_works msg args h : wp (run_command_ msg args) (λ e h', e = None ∧ nodes_of h' = nodes_of h ∧ ran h' = ran h ++ [mkCommand args ""]) h.
Proof. eapply wp_mono; [apply wp_run_command_|]. intros e h' (Hn & Hr & ->). by rewrite commands_work. Qed.

(** A loop of one command per NIC. *)
Lemma wp_each_command (body : unit → Configuration → M host (unit + error)) (cmd : Configuration → command) nics h :
  (∀ nic h, nic ∈ nics → wp (body tt nic) (λ r h', r = inl tt ∧ nodes_of h' = nodes_of h ∧ ran h' = ran h ++ [cmd nic]) h) →
  wp (for_until nics tt body) (λ r h', r = inl tt ∧ nodes_of h' = nodes_of h ∧ ran h' = ran h ++ (cmd <$> nics)) h.
Proof.
  revert h. induction nics as [|nic nics IH]; intros h Hb; cbn [for_until]; [apply wp_ret; cbn; by rewrite app_nil_r|].
  wp_step. eapply wp_mono; [apply Hb; by left|]. intros r h1 (-> & Hn1 & Hr1). cbn beta iota.
  eapply wp_mono; [apply IH; intros; apply Hb; by right|]. intros r h2 (-> & Hn2 & Hr2). split_and!; [done|congruence|].
  rewrite Hr2, Hr1, <-app_assoc. done.
Qed.

Lemma wp_run_each msg v op nics h : Forall (λ nic, is_Some (iface_name nic)) nics →
  wp (run_each dir msg v op nics) (λ r h', r = inl tt ∧ nodes_of h' = nodes_of h ∧ ran h' = ran h ++ (client_command v op <$> nics)) h.
Proof.
  intros Hf. apply wp_each_command. intros nic h1 Hin. rewrite Forall_forall in Hf. destruct (Hf _ Hin) as [name Hname].
  unfold client_command, name_of. rewrite Hname. cbn. wp_step. apply wp_ret. wp_step. eapply wp_mono; [apply wp_works|].
  intros e h2 (-> & Hn & Hr). by apply wp_ret.
Qed.

(** Waiting for the tentative addresses succeeds at once. *)
Lemma wp_tentative primary h :
  wp (Retry.Run wait (Z.to_nat tentativeIPCommandAttempts) tentative_policy (Some (runTentative primary)))
    (λ r h', r = Some None ∧ nodes_of h' = nodes_of h ∧ ran h' = ran h ++ [tentative_command primary]) h.
Proof.
  change (Z.to_nat tentativeIPCommandAttempts) with 5. unfold Retry.Run, Retry.RunWithResponse. cbn [Retry.retry_loop].
  unfold runTentative, WithContext, wp, mbind, M_bind, mret, M_ret. cbn. by rewrite commands_work.
Qed.

Lemma wp_setupIPV6 opts p primary name h :
  GetPrimaryNIC opts = (Some primary, None) → iface_name primary = Some name →
  Forall (λ nic, is_Some (iface_name nic)) (ipv6Interfaces p) → Forall (λ nic, is_Some (iface_name nic)) (obtainIpv6 p) →
  wp (setupIPV6Interfaces dir opts p) (λ e h', e = None ∧ nodes_of h' = nodes_of h ∧
    ran h' = ran h ++ tentative_command name :: (sysctl_command <$> ipv6Interfaces p) ++ (client_command ipv6 obtainLease <$> obtainIpv6 p)) h.
Proof.
  intros Hg Hname H6 Ho. unfold setupIPV6Interfaces. rewrite Hg. cbn [mbind option_bind]. rewrite Hname. wp_step. apply wp_ret. wp_step.
  eapply wp_mono; [apply wp_tentative|]. intros r h1 (-> & Hn1 & Hr1). wp_step. apply wp_ret. cbn beta iota. wp_step.
  eapply wp_mono; [apply (wp_each_command _ sysctl_command)|].
  { intros nic h' Hin. rewrite Forall_forall in H6. destruct (H6 _ Hin) as [n Hn]. unfold sysctl_command, name_of. rewrite Hn. cbn.
    wp_step. apply wp_ret. unfold WithContext, wp, mbind, M_bind, mret, M_ret. cbn. by rewrite commands_work. }
  intros r h2 (-> & Hn2 & Hr2). cbn beta iota. wp_step. eapply wp_mono; [by apply wp_run_each|].
  intros r h3 (-> & Hn3 & Hr3). apply wp_ret. split_and!; [done|congruence|]. rewrite Hr3, Hr2, Hr1, <-!app_assoc. done.
Qed.
End clients.

(** dhclient: with no command of its own configured, a set-up of the
    interfaces runs exactly the commands that bring each managed NIC to the
    leases it should have, in this order: release the IPv6 lease where a client
    runs that is not wanted any more, obtain an IPv4 lease where no client
    runs, and, when some NIC supports IPv6, wait for the addresses of the
    primary one, let each such NIC accept routes and obtain the IPv6 leases
    that have no client.  A NIC whose clients are right gets no client command. *)
Theorem dhclient_setupEthernet_commands (procs : list (list string)) (opts : list Configuration) (primary : Configuration) (name : string) (h : host) :
  cfg_ManagePrimaryNIC config = false → cfg_DHCPCommand config = "" →
  (∀ n c, Daemon.run_error (run_command n c) = None) →
  (∀ h', same h h' → dhclient_processes h' = Ok procs) →
  Forall (λ nic, is_Some (iface_name nic)) (FilteredNICConfigs opts) →
  GetPrimaryNIC opts = (Some primary, None) → iface_name primary = Some name →
  wp (setupEthernet config dir opts)
    (λ e h', e = None ∧ nodes_of h' = nodes_of h ∧
       ran h' = ran h ++ lease_commands name (parts procs (managed (FilteredNICConfigs opts)))) h.
Proof.
  intros Hp Hcmd Hwork Hprocs Hif Hg Hname. unfold setupEthernet, runConfiguredCommand. rewrite bool_decide_true by done.
  wp_step. apply wp_ret. cbn beta iota. wp_step. unfold newInterfacePartitions.
  change (mkPartitions [] [] [] []) with (parts procs []). eapply wp_mono; [by eapply wp_partitions|]. intros r h1 [[Hn1 Hr1] ->]. cbn [app].
  set (l := managed (FilteredNICConfigs opts)).
  assert (Hl : Forall (λ nic, is_Some (iface_name nic)) l) by (apply Forall_filter_keeps, Hif).
  assert (Hall : let ok := Forall (λ nic, is_Some (iface_name nic)) in
    ok (releaseIpv6 (parts procs l)) ∧ ok (obtainIpv4 (parts procs l)) ∧ ok (obtainIpv6 (parts procs l)) ∧ ok (ipv6Interfaces (parts procs l)))
    by (split_and!; by apply Forall_filter_keeps).
  revert Hall. generalize (parts procs l). intros p (Ha & Hb & Hc & Hd).
  wp_step. eapply wp_mono; [by apply wp_run_each|]. intros r h2 (-> & Hn2 & Hr2). cbn beta iota.
  wp_step. eapply wp_mono; [by apply wp_run_each|]. intros r h3 (-> & Hn3 & Hr3). cbn beta iota.
  unfold lease_commands. case_bool_decide as E6.
  - rewrite E6. apply wp_ret. split_and!; [done|congruence|]. rewrite Hr3, Hr2, Hr1, <-app_assoc. by rewrite app_nil_r.
  - wp_step. eapply wp_mono; [by eapply wp_setupIPV6|].
    intros e h4 (-> & Hn4 & Hr4). apply wp_ret. split_and!; [done|congruence|].
    destruct (ipv6Interfaces p) eqn:E; [done|]. by rewrite Hr4, Hr3, Hr2, Hr1, <-!app_assoc.
Qed.

(** ** dhclient: the VLANs *)
Lemma removeVlanInterfaces_kept nic h :
  removeVlanInterfaces nic (seq 0 (length (VlanInterfaces_ nic))) h = Some (h, None).
Proof.
  unfold removeVlanInterfaces.
  assert (Hl : ∀ l : list (nat * VlanInterface), Forall (λ iv, iv.1 < length (VlanInterfaces_ nic)) l →
    for_until l tt (λ _ '(i, vlan),
        if bool_decide (i ∈ seq 0 (length (VlanInterfaces_ nic))) then mret (inl tt)
        else
          err ← spec_WithContext vlanDeleteLinkCmd vlan;
          mret (match err with
                | Some e => inr (ErrWrap "failed to remove no longer wanted vlan interface" e)
                | None => inl tt
                end)) h = Some (h, inl tt)).
  { induction 1 as [|[i v] l Hi _ IH]; [done|]. cbn [for_until]. cbn in Hi.
    rewrite bool_decide_true by (apply elem_of_seq; lia). unfold mbind at 1, M_bind. cbn. exact IH. }
  unfold mbind, M_bind. rewrite Hl; [done|]. apply Forall_lookup. intros k [i v] Hk. rewrite list_lookup_imap in Hk.
  destruct (VlanInterfaces_ nic !! k) eqn:E; [|done]. injection Hk as <- _. by eapply lookup_lt_Some.
Qed.

(** Every VLAN of the NIC is kept. *)
Lemma setup_vlans_keep m (l : list VlanInterface) n keep h h' r :
  for_until (imap (λ i v, (n + i, v)) l) keep (setup_vlan m) h = Some (h', inl r) → r = keep ++ seq n (length l).
Proof.
  revert n keep h. induction l as [|v l IH]; intros n keep h; cbn [imap for_until].
  { intros [= _ <-]. by rewrite app_nil_r. }
  unfold mbind at 1, M_bind. destruct (setup_vlan m keep (n + 0, v) h) as [[h1 [k|e]]|] eqn:E; [|done|done].
  assert (k = keep ++ [n]) as ->.
  { unfold setup_vlan, mbind, M_bind in E. destruct (some_or_panic _ h) as [[h2 name]|]; [|done]. rewrite Nat.add_0_r in E.
    match type of E with (if ?b then _ else _) _ = _ => destruct b end; [by injection E as _ <-|].
    match type of E with match ?x with _ => _ end = _ => destruct x as [[h3 [e|]]|] end; [done|by injection E as _ <-|done]. }
  rewrite (imap_ext _ (λ i v, (S n + i, v))) by (intros; cbn; f_equal; lia). intros Hr. apply IH in Hr as ->. by rewrite <-app_assoc.
Qed.

(** dhclient: the step of the set-up that removes the VLAN interfaces which are
    no longer wanted never removes anything: it looks for them among the VLANs
    the set-up was just asked for, all of which it keeps.  So what the set-up of
    a NIC does is what it does without that step, and the interface of a VLAN
    that is gone from the metadata stays. *)
Theorem dhclient_removes_no_vlan (nic : Configuration) (interfaces : list Interface) (h : host) :
  is_Some (iface_name nic) → host_interfaces h = Ok interfaces →
  setupVlanInterfaces nic h =
    (r ← for_until (imap pair (VlanInterfaces_ nic)) [] (setup_vlan (foldl (λ m i, <[Name i := i]> m) ∅ interfaces));
     mret (match r with inr e => Some e | inl _ => None end)) h.
Proof.
  intros [name Hname] Hi. unfold setupVlanInterfaces. rewrite Hname. unfold mbind, M_bind, gets, some_or_panic, mret, M_ret. cbn. rewrite Hi.
  destruct (for_until _ _ _ h) as [[h1 [keep|e]]|] eqn:E; [|done|done].
  apply (setup_vlans_keep _ _ 0) in E as ->. cbn [app]. by rewrite removeVlanInterfaces_kept.
Qed.
End dhclient.

(** ** On concrete hosts *)
Section examples.
Import NetworkdFacts.Examples Dhclient.

#[local] Instance ex_faults : OsFaults := no_faults.
#[local] Instance ex_uname : OsInfo.Uname := None.
#[local] Instance ex_commands : Commands := {| run_command _ _ := RunOk ""; dir_owner _ _ := Ok (0, 0)%Z |}.
#[local] Instance ex_installed : LookPath := λ _ name, Ok ("/usr/sbin/" +:+ name).
#[local] Instance ex_interfaces : HostInterfaces := λ _, Ok [ens4; ens5].
#[local] Instance ex_context : Context_ := λ _, None.

Definition v6_nic (index : Z) (i : Interface) : Configuration := mkConfiguration index false true "" (Some i) [] None.
Definition empty_host : host := host_of ∅.

(** The clients of [ens5] are started; [ens6] has them. *)
Section witness.
#[local] Instance ex_processes : Processes := λ _, Ok [["dhclient"; "ens6"]; ["dhclient"; "-6"; "ens6"]].

Lemma dhclient_setupEthernet_commands_witness :
  wp (setupEthernet config "/run" [nic 0 ens4 []; v6_nic 1 ens5; nic 2 ens6 []])
    (λ e h', e = None ∧ (argv <$> ran h') =
       [["dhclient"; "-6"; "-pf"; "/run/dhclient.google-guest-agent.ens6.ipv6.pid"; "-lf"; "/run/dhclient.google-guest-agent.ens6.ipv6.lease"; "-r"; "ens6"];
        ["dhclient"; "-4"; "-pf"; "/run/dhclient.google-guest-agent.ens5.ipv4.pid"; "-lf"; "/run/dhclient.google-guest-agent.ens5.ipv4.lease"; "ens5"];
        ["ip"; "-6"; "-o"; "a"; "s"; "dev"; "ens4"; "scope"; "link"; "tentative"];
        ["sysctl"; "net.ipv6.conf.ens5.accept_ra_rt_info_max_plen=128"];
        ["dhclient"; "-6"; "-pf"; "/run/dhclient.google-guest-agent.ens5.ipv6.pid"; "-lf"; "/run/dhclient.google-guest-agent.ens5.ipv6.lease"; "ens5"]]) empty_host.
Proof.
  eapply wp_mono.
  - apply (dhclient_setupEthernet_commands config "/run" [["dhclient"; "ens6"]; ["dhclient"; "-6"; "ens6"]]
             [nic 0 ens4 []; v6_nic 1 ens5; nic 2 ens6 []] (nic 0 ens4 []) "ens4" empty_host).
    + reflexivity.
    + reflexivity.
    + intros n c. reflexivity.
    + intros h' _. reflexivity.
    + repeat constructor; eexists; reflexivity.
    + reflexivity.
    + reflexivity.
  - intros e h' (He & _ & Hr). split; [exact He|]. rewrite Hr. vm_compute. reflexivity.
Defined.
End witness.

Lemma dhclient_removes_no_vlan_witness :
  setupVlanInterfaces (nic 1 ens5 []) empty_host = Some (empty_host, None).
Proof.
  rewrite (dhclient_removes_no_vlan (nic 1 ens5 []) [ens4; ens5] empty_host); [reflexivity|eexists; reflexivity|reflexivity].
Defined.

(** An address of the second version reaches no command: the templates print
    the address and the gateway of the first. *)
Example dhclient_ipv6_address_unused (vlan : VlanInterface) (a b : option IPAddr) :
  Command (hd (mkSpec (λ _, None) (λ _, None)) ipAddressSet) (mkIPConfig vlan ipv6 a) =
  Command (hd (mkSpec (λ _, None) (λ _, None)) ipAddressSet) (mkIPConfig vlan ipv6 b).
Proof. reflexivity. Qed.

(** A released client is gone, so the roll-back, which then looks for a client
    to decide whether dhclient managed the NIC, leaves its VLANs. *)
Section rollback.
#[local] Instance client_until_released : Processes := λ h,
  Ok (if existsb (λ c, bool_decide ("-r" ∈ argv c)) (ran h) then [] else [["dhclient"; "-4"; "ens5"]]).

Definition rollback_leaves_vlans : bool :=
  match Rollback "/run" [nic 1 ens5 [vlan ens5 7]] false empty_host with
  | Some (h, (true, None)) => negb (existsb (λ c, bool_decide ("link" ∈ argv c)) (ran h))
  | _ => false
  end.

Example dhclient_Rollback_leaves_vlans : rollback_leaves_vlans = true.
Proof. vm_compute. reflexivity. Qed.
End rollback.

(** wicked returns before the clean-up when no interface is to be brought up:
    the file of a VLAN that is gone stays. *)
Definition gone_vlan : string := "/etc/sysconfig/network/ifcfg-gcp.ens5.7".
Definition wicked_start : host := host_of {[
  "/etc/sysconfig/network" := NDir; "/etc/sysconfig/network/ifcfg-ens5" := NFile ""; gone_vlan := NFile Wicked.googleComment]}.

Definition wicked_leaves_vlan : bool :=
  match Wicked.Setup "/etc/sysconfig/network" config false [nic 1 ens5 []] false wicked_start with
  | Some (h, None) => bool_decide (nodes_of h !! gone_vlan = Some (NFile Wicked.googleComment))
  | _ => false
  end.

Example wicked_Setup_leaves_vlan : wicked_leaves_vlan = true.
Proof. vm_compute. reflexivity. Qed.

(** NetworkManager: the line of [ens10] is taken for that of [ens1]; a line
    without a colon panics. *)
Example nm_device_prefix : NmService.device_line "ens1" ("ens10:disconnected" +:+ String nl "ens1:connected") = Some (Some "disconnected").
Proof. vm_compute. reflexivity. Qed.

(** netplan: a drop-in without NICs is written again by every set-up, since the
    empty map it is compared with is never read back ([omitempty]). *)
Section yaml.
#[local] Instance ex_yaml : Netplan.Yaml := {|
  Netplan.yaml_Marshal d := Ok "network: {version: 2}";
  Netplan.yaml_Unmarshal _ := Ok (Netplan.mkDropin (Netplan.mkNetwork 2 None None));
|}.

Definition netplan_writes_twice : bool :=
  match Netplan.writeDropin config Netplan.defaultModule [nic 0 ens4 []] empty_host with
  | Some (h1, (true, None)) =>
      match Netplan.writeDropin config Netplan.defaultModule [nic 0 ens4 []] h1 with
      | Some (h2, (true, None)) => bool_decide (nodes_of h2 = nodes_of h1)
      | _ => false
      end
  | _ => false
  end.

Example netplan_writeDropin_always_changes : netplan_writes_twice = true.
Proof. vm_compute. reflexivity. Qed.
End yaml.
End examples.
End BackendFacts.
