(* ===== verification/Hostname.v ===== *)
(** * cmd/core_plugin/network/hostname: the name of the instance

    hostname.go and hostname_linux.go: the host name and the FQDN of the
    metadata are given to the kernel, to the network services and to the hosts
    file.  Parameters: the kernel's host name, the interfaces, the owner of a
    file, JSON and the commands. *)
From S2P Require Import Prelude GoStrings GoStringFacts Os SafeWrite Accounts Daemon NetAddr NetAddrFacts Address HostRules.

Module Hostname.
Import Accounts NetAddr NetAddrFacts HostRules.

Definition hostnameModuleID : string := "hostname".
Definition ReconfigureHostnameCommand : string := "agent.hostname.reconfigurehostname".
Definition disallowedConfigurations : list string := [""; "metadata.google.internal"].
Definition platformHostsFile : string := "/etc/hosts".

(** The section Unstable of the configuration. *)
Class HostnameConfig := {
  SetHostname : bool;
  SetFQDN : bool;
  FQDNAsHostname : bool;
  FQDNAddressInterfaceIndex : Z;
  AdditionalAliases : string;
}.

(** The system calls that fail, the interfaces with the text of their
    addresses, the mode and the owner of a file. *)
Class HostnameSystem := {
  sethostname_error : string → option error;
  gethostname_error : option error;
  interface_addrs : result (list (result (list string)));
  file_mode : string → Z;
  file_owner : string → SafeWrite.GUID;
}.

(** The variables of the package, the name the kernel has, the handlers of the
    command monitor, and the host. *)
Record state := mkState {
  hostname : string;
  fqdn : string;
  kernel_name : string;
  handlers : list string;
  sys : host;
}.

Definition set_names h f (s : state) := mkState h f (kernel_name s) (handlers s) (sys s).
Definition set_kernel_name k (s : state) := mkState (hostname s) (fqdn s) k (handlers s) (sys s).
Definition set_handlers l (s : state) := mkState (hostname s) (fqdn s) (kernel_name s) l (sys s).
Definition set_sys h (s : state) := mkState (hostname s) (fqdn s) (kernel_name s) (handlers s) h.

(** The message of a response is the texts of its errors. *)
Record ReconfigureHostnameResponse := mkResponse {
  Status : Z;
  StatusMessage : list error;
  Hostname : string;
  Fqdn : string;
}.

Definition comma : byte := byte_of 44.
Definition dot : byte := byte_of 46.

(** ** The hosts file *)
Definition google_mark : string := "# Added by Google".

(** A line [writeHosts] does not take over. *)
Definition dropped (l : string) : bool := HasSuffix l google_mark || bool_decide (l = "").

Definition kept_lines (hosts : string) : list string := filter (λ l, dropped l = false) (Split hosts nl).

Definition alias_text (aliases : string) : string := foldr (λ a r, (a +:+ " ") +:+ r) "" (Split aliases comma).

(** [IP.IsLoopback]. *)
Definition IsLoopback (ip : IP) : bool :=
  match To4 ip with
  | Some p4 => bool_decide (head p4 = Some 127%Z)
  | None => bool_decide (ip = replicate 15 0%Z ++ [1%Z])
  end.

Definition metadata_line : string := "169.254.169.254 metadata.google.internal # Added by Google".

Definition address_line (hostname fqdn aliases : string) (ip : IP) : string :=
  IP_String ip +:+ " " +:+ fqdn +:+ " " +:+ hostname +:+ " " +:+ aliases +:+ " # Added by Google".

(** The addresses that get a line. *)
Definition routable (addr : string) : option IP :=
  '(ip, _) ← net_ParseCIDR addr;
  if IsLoopback ip then None else Some ip.

Definition google_lines (hostname fqdn aliases : string) (addrs : list string) : list string :=
  metadata_line :: (address_line hostname fqdn (alias_text aliases) <$> omap routable addrs).

Definition gcehosts (hostname fqdn aliases : string) (addrs : list string) (hosts : string) : string :=
  unlines (kept_lines hosts ++ google_lines hostname fqdn aliases addrs).

Section operations.
Context `{HostnameConfig} `{HostnameSystem} `{Commands} `{LookPath} `{OsFaults} `{SafeWrite.TempNames}.

Definition on_host {A} (m : M host A) : M state A := zoom sys set_sys m.

Definition overwrite (dst contents : string) : M host (option error) :=
  st ← os_Stat dst;
  match st with
  | Err e => mret (Some e)
  | Ok _ => SafeWrite.SaferWriteFile contents dst (SafeWrite.mkOptions (file_mode dst) (Some (file_owner dst)))
  end.

Definition writeHosts (hostname fqdn hostsFile : string) (addrs : list string) : M host (option error) :=
  hosts ← os_ReadFile hostsFile;
  match hosts with
  | Err e => mret (Some e)
  | Ok hosts => overwrite hostsFile (gcehosts hostname fqdn AdditionalAliases addrs hosts)
  end.

(** An index is only checked from above. *)
Definition setFQDN (hostname fqdn : string) : M host (option error) :=
  match interface_addrs with
  | Err e => mret (Some (ErrWrap "could not get interfaces" e))
  | Ok interfaces =>
      let idx := FQDNAddressInterfaceIndex in
      if (Z.of_nat (length interfaces) <=? idx)%Z then mret (Some (ErrMsg "can't set FQDN using address"))
      else if (idx <? 0)%Z then panic
      else
        iface ← some_or_panic (interfaces !! Z.to_nat idx);
        match iface with
        | Err e => mret (Some (ErrWrap "could not get addrs for interface" e))
        | Ok addrs => writeHosts hostname fqdn platformHostsFile addrs
        end
  end.

Definition look_path (name : string) : M host (result string) := λ h, Some (h, exec_LookPath (length (ran h)) name).

(** The kernel, then the services that would set the name back. *)
Definition setHostname (name : string) : M state (option error) :=
  match sethostname_error name with
  | Some e => mret (Some e)
  | None =>
      _ ← modify (set_kernel_name name);
      on_host (
        nmcli ← look_path "nmcli";
        _ ← (match nmcli with
             | Ok _ => _ ← WithContext (mkCommand ["nmcli"; "general"; "hostname"; name] ""); mret tt
             | Err _ => mret tt
             end);
        hostnamectl ← look_path "hostnamectl";
        _ ← (match hostnamectl with
             | Ok _ =>
                 r ← WithContext (mkCommand ["hostnamectl"; "hostname"; name] "");
                 match Daemon.run_error r with
                 | Some _ => _ ← WithContext (mkCommand ["hostnamectl"; "set-hostname"; name] ""); mret tt
                 | None => mret tt
                 end
             | Err _ => mret tt
             end);
        systemctl ← look_path "systemctl";
        match systemctl with
        | Ok _ =>
            '(ok, err) ← Daemon.CheckUnitExists "rsyslog";
            match (err : option error) with
            | Some e => mret (Some (ErrFmt "failed to check for rsyslog" e))
            | None => if (ok : bool) then Daemon.RestartService "rsyslog" Daemon.Restart else mret None
            end
        | Err _ =>
            r ← WithContext (mkCommand ["pkill"; "-HUP"; "syslogd"] "");
            mret (ErrFmt "failed to send SIGHUP to syslogd" <$> Daemon.run_error r)
        end)
  end.

(** [os.Hostname]. *)
Definition os_Hostname : M state (result string) :=
  k ← gets kernel_name;
  mret (match gethostname_error with Some e => Err e | None => Ok k end).

Definition reconfigure_hostname (resp : ReconfigureHostnameResponse) : M state ReconfigureHostnameResponse :=
  if negb SetHostname then mret resp
  else
    name ← gets hostname;
    if bool_decide (name ∈ disallowedConfigurations) then
      mret (mkResponse (Status resp + 1) (StatusMessage resp ++ [ErrMsg ("Disallowed hostname: " +:+ name)]) (Hostname resp) (Fqdn resp))
    else
      err ← setHostname name;
      mret (match err with
            | Some e => mkResponse (Status resp + 1) (StatusMessage resp ++ [e]) (Hostname resp) (Fqdn resp)
            | None => mkResponse (Status resp) (StatusMessage resp) name (Fqdn resp)
            end).

Definition reconfigure_fqdn (resp : ReconfigureHostnameResponse) : M state ReconfigureHostnameResponse :=
  if negb SetFQDN then mret resp
  else
    h ← os_Hostname;
    name ← gets fqdn;
    let h := if bool_decide (name ∈ disallowedConfigurations) then Err (ErrMsg ("Disallowed fqdn: " +:+ name)) else h in
    err ← (match h with
           | Err e => mret (Some e)
           | Ok h => on_host (setFQDN h name)
           end);
    mret (match err with
          | Some e => mkResponse (Status resp + 2) (StatusMessage resp ++ [e]) (Hostname resp) (Fqdn resp)
          | None => mkResponse (Status resp) (StatusMessage resp) (Hostname resp) name
          end).

(** The response before it is marshaled. *)
Definition ReconfigureHostname : M state ReconfigureHostnameResponse :=
  resp ← reconfigure_hostname (mkResponse 0 [] "" "");
  reconfigure_fqdn resp.

(** [RegisterHandler] and [UnregisterHandler] of the command monitor, by name. *)
Definition register (cmd : string) : M state (option error) :=
  l ← gets handlers;
  if bool_decide (cmd ∈ l) then mret (Some (ErrMsg ("cmd " +:+ cmd +:+ " is already handled")))
  else _ ← modify (set_handlers (cmd :: l)); mret None.

Definition unregister (cmd : string) : M state unit :=
  l ← gets handlers; modify (set_handlers (filter (λ c, c ≠ cmd) l)).

Definition module_enabled : bool := SetHostname || SetFQDN.

(** [desc] is the host name of the metadata, if the data is a descriptor. *)
Definition moduleSetup (desc : option string) : M state (option error) :=
  match desc with
  | None => mret (Some (ErrMsg "expected metadata descriptor data in moduleSetup call"))
  | Some name =>
      _ ← modify (set_names (if FQDNAsHostname then name else (Cut name dot).1.1) name);
      _ ← ReconfigureHostname;
      err ← register ReconfigureHostnameCommand;
      mret (ErrFmt "failed to register command handler" <$> err)
  end.

Definition moduleClose : M state unit := unregister ReconfigureHostnameCommand.
End operations.

(** ** The lines of the hosts file *)
Definition one_line (s : string) : Prop := lacks nl s.

Lemma one_line_app a b : one_line a → one_line b → one_line (a +:+ b).
Proof. unfold one_line, lacks. intros. rewrite to_bytes_app. by apply not_elem_of_app. Qed.

Lemma IP_one_line addr ip : routable addr = Some ip → one_line (IP_String ip).
Proof.
  unfold routable, net_ParseCIDR. destruct (Cut addr slash) as [[a m] []]; [|done]. cbn [negb].
  destruct (ParseAddr a) as [ad|] eqn:Ea; [|done]. cbn [mbind option_bind]. case_bool_decide; [done|].
  destruct (dtoi m) as [n|]; [|done]. cbn [mbind option_bind]. destruct (_ || _)%Z; [done|]. cbn.
  destruct (IsLoopback _); [done|]. intros [= <-]. pose proof (Address.As16_ok _ _ Ea) as Hok.
  pose proof (IP_String_bytes (As16 ad) (λ c, c ≠ nl) Hok) as HF. unfold one_line, lacks. intros Hin.
  rewrite Forall_forall in HF. by apply (HF ltac:(by intros c Hc ->) ltac:(done) ltac:(done) nl).
Qed.

Lemma bsplit_sub c (l x : bytes) b : x ∈ bsplit c l → b ∈ x → b ∈ l.
Proof.
  revert x. induction l as [|y l IH]; intros x; simpl; [by intros ->%list_elem_of_singleton|].
  destruct (beqb y c); [intros [->|Hx]%elem_of_cons; [by intros ?%elem_of_nil|right; by eapply IH]|].
  destruct (bsplit c l) as [|z zs] eqn:El; [by apply bsplit_nonempty in El|].
  intros [->|Hx]%elem_of_cons Hb; [|right; eapply IH; [by right|done]].
  apply elem_of_cons in Hb as [->|Hb]; [by left|]. right. eapply IH; [by left|done].
Qed.

Lemma alias_one_line a : one_line a → one_line (alias_text a).
Proof.
  intros Ha. unfold alias_text. assert (HF : Forall one_line (Split a comma)).
  { apply Forall_forall. intros x Hx Hin. apply Ha. unfold Split in Hx. apply list_elem_of_fmap in Hx as (y & -> & Hy).
    rewrite to_of_bytes in Hin. by eapply bsplit_sub. }
  induction HF as [|x l Hx _ IH]; [by intros ?%elem_of_nil|]. cbn. apply one_line_app; [|done]. apply one_line_app; [done|].
  by apply (bool_decide_unpack _).
Qed.

Lemma google_one_line h f a addrs : one_line h → one_line f → one_line a → Forall one_line (google_lines h f a addrs).
Proof.
  intros Hh Hf Ha. constructor; [by apply (bool_decide_unpack _)|].
  induction addrs as [|addr addrs IH]; [by constructor|]. cbn. destruct (routable addr) as [ip|] eqn:E; [|done]. cbn. constructor; [|done].
  unfold address_line. pose proof (IP_one_line _ _ E). pose proof (alias_one_line a Ha).
  repeat apply one_line_app; (done || by apply (bool_decide_unpack _)).
Qed.

Lemma google_dropped h f a addrs : Forall (λ l, HasSuffix l google_mark = true) (google_lines h f a addrs).
Proof.
  constructor; [done|]. apply Forall_fmap, Forall_true. intros ip. apply HasSuffix_spec.
  exists (IP_String ip +:+ " " +:+ f +:+ " " +:+ h +:+ " " +:+ alias_text a +:+ " ").
  unfold address_line, google_mark. rewrite !append_assoc. reflexivity.
Qed.

Lemma kept_spec hosts : Forall (λ l, dropped l = false) (kept_lines hosts) ∧ Forall one_line (kept_lines hosts).
Proof.
  split; [apply Forall_forall; intros l [Hl _]%list_elem_of_filter; done|].
  apply Forall_forall. intros l [_ Hl]%list_elem_of_filter. pose proof (Split_lacks hosts nl) as HF. rewrite Forall_forall in HF. by apply HF.
Qed.

Lemma filter_true {A} (P : A → Prop) `{!∀ x, Decision (P x)} l : Forall P l → filter P l = l.
Proof. induction 1 as [|x l Hx _ IH]; [done|]. by rewrite filter_cons_True, IH. Qed.

Lemma filter_false {A} (P : A → Prop) `{!∀ x, Decision (P x)} l : Forall (λ x, ¬ P x) l → filter P l = [].
Proof. induction 1 as [|x l Hx _ IH]; [done|]. by rewrite filter_cons_False. Qed.

(** The file that is written, line by line. *)
Lemma Split_gcehosts h f a addrs hosts : one_line h → one_line f → one_line a →
  Split (gcehosts h f a addrs hosts) nl = kept_lines hosts ++ google_lines h f a addrs ++ [""].
Proof.
  intros Hh Hf Ha. unfold gcehosts. rewrite Split_unlines; [by rewrite <-app_assoc|].
  apply Forall_app. split; [apply kept_spec|by apply google_one_line].
Qed.

Lemma kept_gcehosts h f a addrs hosts : one_line h → one_line f → one_line a →
  kept_lines (gcehosts h f a addrs hosts) = kept_lines hosts.
Proof.
  intros Hh Hf Ha. unfold kept_lines at 1. rewrite Split_gcehosts, !filter_app by done.
  rewrite (filter_true _ (kept_lines hosts)) by apply kept_spec.
  rewrite (filter_false _ (google_lines _ _ _ _)); [by rewrite app_nil_r|].
  eapply Forall_impl; [apply google_dropped|]. intros l Hl. unfold dropped. rewrite Hl. done.
Qed.

(** The last call decides: the lines the agent added before are gone, those of
    others stay in their order, blank lines excepted. *)
Theorem writeHosts_last (h f a h' f' a' : string) (addrs addrs' : list string) (hosts : string) :
  one_line h → one_line f → one_line a →
  gcehosts h' f' a' addrs' (gcehosts h f a addrs hosts) = gcehosts h' f' a' addrs' hosts.
Proof. intros. unfold gcehosts at 1. by rewrite kept_gcehosts. Qed.

Section theorems.
Context `{HostnameConfig} `{HostnameSystem} `{Commands} `{LookPath} `{OsFaults} `{SafeWrite.TempNames}.

Definition same_files (h h' : host) : Prop := hfs h' = hfs h.
#[local] Instance same_files_preorder : PreOrder same_files.
Proof. split; [done|]. intros a b c ? ?. unfold same_files in *. congruence. Qed.

Lemma same_files_run c : respects same_files (WithContext c).
Proof. by intros h h' a [= <- _]. Qed.
Lemma same_files_look n : respects same_files (look_path n).
Proof. by intros h h' a [= <- _]. Qed.
Lemma total_run c : total (WithContext c).
Proof. intros h. by eexists. Qed.
Lemma total_look n : total (look_path n).
Proof. intros h. by eexists. Qed.
#[local] Hint Resolve same_files_run same_files_look : respects.
#[local] Hint Resolve total_run total_look : total.

(** What setting the host name changes: the kernel's name, when the system call
    succeeds, and the commands that ran. *)
Lemma wp_setHostname name s :
  wp (setHostname name) (λ e s',
    hostname s' = hostname s ∧ fqdn s' = fqdn s ∧ handlers s' = handlers s ∧ hfs (sys s') = hfs (sys s) ∧
    kernel_name s' = (match sethostname_error name with None => name | Some _ => kernel_name s end) ∧
    (is_Some (sethostname_error name) → is_Some e)) s.
Proof.
  unfold setHostname. destruct (sethostname_error name) as [e|]; [by apply wp_ret|]. wp_step. wp_step.
  unfold on_host. apply wp_zoom. set (m := _ ≫= _).
  assert (Hr : respects same_files m) by (unfold m, Daemon.CheckUnitExists, Daemon.RestartService, Daemon.simple, Daemon.systemctl; respects_solve).
  assert (Ht : total m) by (unfold m, Daemon.CheckUnitExists, Daemon.RestartService, Daemon.simple, Daemon.systemctl; total_solve).
  destruct (Ht (sys s)) as [[h' e] E]. unfold wp. cbn [sys set_kernel_name]. rewrite E. cbn.
  specialize (Hr _ _ _ E). split_and!; try done.
Qed.

Hypothesis suffix_ok : ∀ t n, SafeWrite.temp_suffix t n ≠ "" ∧ lacks slash (SafeWrite.temp_suffix t n).

Definition hosts_node (s : host) : option node := nodes (hfs s) !! platformHostsFile.

(** What a call leaves of the files: the hosts file as stated, and the others. *)
Definition hosts_become (nd : option node) (s s' : host) : Prop :=
  hosts_node s' = nd ∧ ∀ q x, q ≠ platformHostsFile → nodes (hfs s) !! q = Some x → nodes (hfs s') !! q = Some x.

Lemma wp_writeHosts h f addrs d s : hosts_node s = Some (NFile d) →
  wp (writeHosts h f platformHostsFile addrs) (λ e,
    hosts_become (Some (NFile (match e with None => gcehosts h f AdditionalAliases addrs d | Some _ => d end))) s) s.
Proof.
  intros Hd. unfold writeHosts. wp_step. apply wp_reads; [done|done|intros ft|]; intros s1 [Hn _]; cbn [fst snd fail_result].
  { wp_step. split; unfold hosts_node, nodes_of in *; by rewrite Hn. }
  unfold nodes_of in Hn. unfold hosts_node in Hd. unfold nodes_of. rewrite (resolve_file _ _ _ Hd). cbn. unfold overwrite. wp_step.
  apply wp_reads; [done|done|intros ft|]; intros s2 [Hn2 _]; cbn [fst snd fail_result]; unfold nodes_of in Hn2.
  { wp_step. split; unfold hosts_node; by rewrite Hn2, Hn. }
  unfold nodes_of. rewrite Hn. rewrite (resolve_file _ _ _ Hd). cbn.
  eapply wp_mono; [apply (SafeWrite.wp_SaferWriteFile suffix_ok)|].
  { vm_compute. split; [reflexivity|set_solver]. }
  intros e s' [Ho Hk]. cbn [fs_of host_HasFS] in *. split.
  - unfold hosts_node. rewrite Ho, Hn2, Hn, Hd. by destruct e.
  - intros q x Hq Hx. apply Hk; [done|]. by rewrite Hn2, Hn.
Qed.

(** The addresses of the interface the configuration names. *)
Definition chosen (addrs : list string) : Prop :=
  ∃ ifs, interface_addrs = Ok ifs ∧ ifs !! Z.to_nat FQDNAddressInterfaceIndex = Some (Ok addrs).

Lemma wp_setFQDN h f d s : (0 ≤ FQDNAddressInterfaceIndex)%Z → hosts_node s = Some (NFile d) →
  wp (setFQDN h f) (λ e s', ∃ nd, hosts_become (Some (NFile nd)) s s' ∧
    match e with None => ∃ addrs, chosen addrs ∧ nd = gcehosts h f AdditionalAliases addrs d | Some _ => nd = d end) s.
Proof.
  intros Hi Hd. assert (Hsame : hosts_become (Some (NFile d)) s s) by (split; done).
  unfold setFQDN, chosen. destruct interface_addrs as [ifs|e]; [|apply wp_ret; eauto].
  destruct (Z.leb_spec (Z.of_nat (length ifs)) FQDNAddressInterfaceIndex); [apply wp_ret; eauto|].
  destruct (Z.ltb_spec FQDNAddressInterfaceIndex 0); [lia|]. wp_step.
  destruct (lookup_lt_is_Some_2 ifs (Z.to_nat FQDNAddressInterfaceIndex)) as [r Hr]; [lia|]. rewrite Hr. cbn. apply wp_ret.
  destruct r as [addrs|e]; [|apply wp_ret; eauto]. eapply wp_mono; [by apply wp_writeHosts|].
  intros e s' Hs. destruct e as [e|]; [by exists d|]. eexists. split; [exact Hs|]. eauto 6.
Qed.

(** The part of a response a failure adds to. *)
Definition failed (wanted : bool) (result : string) : Z := if wanted && bool_decide (result = "") then 1 else 0.

Lemma wp_reconfigure_hostname s :
  wp (reconfigure_hostname (mkResponse 0 [] "" "")) (λ r s',
    hostname s' = hostname s ∧ fqdn s' = fqdn s ∧ handlers s' = handlers s ∧ hfs (sys s') = hfs (sys s) ∧ Fqdn r = "" ∧
    Status r = failed SetHostname (Hostname r) ∧ Z.of_nat (length (StatusMessage r)) = Status r ∧
    (Hostname r ≠ "" → Hostname r = hostname s ∧ hostname s ∉ disallowedConfigurations ∧ kernel_name s' = hostname s) ∧
    (SetHostname = false → kernel_name s' = kernel_name s)) s.
Proof.
  unfold reconfigure_hostname, failed. destruct SetHostname; cbn; [|by apply wp_ret].
  wp_step. wp_step. case_bool_decide as Hd; [by apply wp_ret|]. wp_step. eapply wp_mono; [apply wp_setHostname|].
  intros e s' (? & ? & ? & ? & Hk & He). apply wp_ret. destruct e as [e|]; cbn; split_and!; try done.
  - rewrite bool_decide_false; [done|]. intros Hn. rewrite Hn in Hd. set_solver.
  - intros _. split_and!; try done. rewrite Hk. destruct (sethostname_error _); [|done]. by destruct He.
Qed.

Lemma wp_reconfigure_fqdn r d s :
  (0 ≤ FQDNAddressInterfaceIndex)%Z → hosts_node (sys s) = Some (NFile d) → Fqdn r = "" →
  wp (reconfigure_fqdn r) (λ r' s',
    set_sys (sys s) s' = s ∧ Hostname r' = Hostname r ∧ Status r' = (Status r + 2 * failed SetFQDN (Fqdn r'))%Z ∧
    Z.of_nat (length (StatusMessage r')) = (Z.of_nat (length (StatusMessage r)) + failed SetFQDN (Fqdn r'))%Z ∧
    ∃ nd, hosts_become (Some (NFile nd)) (sys s) (sys s') ∧
      (Fqdn r' = "" → nd = d) ∧
      (Fqdn r' ≠ "" → Fqdn r' = fqdn s ∧ fqdn s ∉ disallowedConfigurations ∧ ∃ addrs, chosen addrs ∧ nd = gcehosts (kernel_name s) (fqdn s) AdditionalAliases addrs d)) s.
Proof.
  intros Hi Hd Hf. assert (Hsame : hosts_become (Some (NFile d)) (sys s) (sys s)) by (split; done).
  assert (Heta : set_sys (sys s) s = s) by (by destruct s).
  unfold reconfigure_fqdn, failed. destruct SetFQDN; cbn [negb andb].
  2: { apply wp_ret. rewrite Hf. split_and!; [done..|lia|lia|]. exists d. split; [done|]. by split. }
  unfold os_Hostname. do 6 wp_step.
  match goal with |- wp (match ?x with Ok _ => _ | Err _ => _ end ≫= _) _ _ => set (h := x) end. assert (Hh : ∀ k, h = Ok k → k = kernel_name s ∧ fqdn s ∉ disallowedConfigurations).
  { unfold h. intros k. case_bool_decide; [done|]. destruct gethostname_error; [done|]. by intros [= <-]. }
  destruct h as [k|e]; wp_step.
  - destruct (Hh k eq_refl) as [-> Hn]. apply wp_zoom. eapply wp_mono; [by apply (wp_setFQDN _ _ d)|].
    intros e h' (nd & Hb & He). apply wp_ret. destruct e as [e|]; cbn.
    + rewrite Hf, bool_decide_true, length_app by done. cbn. split_and!; [done|done|lia|lia|]. exists nd. subst nd. by split_and!.
    + assert (Hne : fqdn s ≠ "") by (intros Hx; rewrite Hx in Hn; set_solver).
      rewrite bool_decide_false by done. split_and!; [done|done|lia|lia|]. exists nd. split; [done|]. split; [done|].
      intros _. split_and!; done.
  - apply wp_ret. apply wp_ret. cbn. rewrite Hf, bool_decide_true, length_app by done. cbn. split_and!; [done|done|lia|lia|].
    exists d. by split_and!.
Qed.

Definition names_reported (d : string) (s : state) (r : ReconfigureHostnameResponse) (s' : state) : Prop :=
    hostname s' = hostname s ∧ fqdn s' = fqdn s ∧ handlers s' = handlers s ∧
    Status r = (failed SetHostname (Hostname r) + 2 * failed SetFQDN (Fqdn r))%Z ∧
    Z.of_nat (length (StatusMessage r)) = (failed SetHostname (Hostname r) + failed SetFQDN (Fqdn r))%Z ∧
    (Hostname r ≠ "" → Hostname r = hostname s ∧ hostname s ∉ disallowedConfigurations ∧ kernel_name s' = hostname s) ∧
    (SetHostname = false → kernel_name s' = kernel_name s) ∧
    ∃ nd, hosts_become (Some (NFile nd)) (sys s) (sys s') ∧
      (Fqdn r = "" → nd = d) ∧
      (Fqdn r ≠ "" → Fqdn r = fqdn s ∧ fqdn s ∉ disallowedConfigurations ∧
         ∃ addrs, chosen addrs ∧ nd = gcehosts (kernel_name s') (fqdn s) AdditionalAliases addrs d).

Lemma wp_ReconfigureHostname (d : string) (s : state) :
  (0 ≤ FQDNAddressInterfaceIndex)%Z → hosts_node (sys s) = Some (NFile d) → wp ReconfigureHostname (names_reported d s) s.
Proof.
  intros Hi Hd. unfold ReconfigureHostname. wp_step. eapply wp_mono; [apply wp_reconfigure_hostname|].
  intros r s1 (? & Hfq & ? & Hfs & ? & ? & ? & ? & ?).
  assert (Hd1 : hosts_node (sys s1) = Some (NFile d)) by (unfold hosts_node; by rewrite Hfs).
  eapply wp_mono; [by apply (wp_reconfigure_fqdn r d)|]. intros r' s2 (Hs & E1 & E2 & E3 & nd & Hb & Hno & Hyes).
  assert (hostname s2 = hostname s1 ∧ fqdn s2 = fqdn s1 ∧ handlers s2 = handlers s1 ∧ kernel_name s2 = kernel_name s1)
    as (E4 & E5 & E6 & E7) by (rewrite <-Hs; by destruct s2).
  unfold names_reported. rewrite E4, E5, E6, E7, E1. split_and!; try done; try lia. exists nd. split; [|split].
  - destruct Hb as [Hb1 Hb2]. split; [done|]. intros q x Hq Hx. apply Hb2; [done|]. by rewrite Hfs.
  - done.
  - rewrite <-Hfq. done.
Qed.

(** C40. The response to a request to set the names says what was done, whatever
    fails.  Its status is 1 for the host name plus 2 for the FQDN, each when it
    was to be set and its field is empty, with one message each.  A host name
    that is reported is that of the metadata, not a forbidden one, and the
    kernel has it.  The hosts file is as it was, unless an FQDN is reported,
    which is that of the metadata: then it has the lines of others, the
    metadata server, and a line with the names for each address of the
    configured interface.  No other file that existed changes. *)
Theorem ReconfigureHostname_reports (d : string) (s : state) :
  (0 ≤ FQDNAddressInterfaceIndex)%Z → hosts_node (sys s) = Some (NFile d) →
  wp ReconfigureHostname (λ r s',
    hostname s' = hostname s ∧ fqdn s' = fqdn s ∧ handlers s' = handlers s ∧
    Status r = (failed SetHostname (Hostname r) + 2 * failed SetFQDN (Fqdn r))%Z ∧
    Z.of_nat (length (StatusMessage r)) = (failed SetHostname (Hostname r) + failed SetFQDN (Fqdn r))%Z ∧
    (Hostname r ≠ "" → Hostname r = hostname s ∧ hostname s ∉ disallowedConfigurations ∧ kernel_name s' = hostname s) ∧
    (SetHostname = false → kernel_name s' = kernel_name s) ∧
    ∃ nd, hosts_become (Some (NFile nd)) (sys s) (sys s') ∧
      (Fqdn r = "" → nd = d) ∧
      (Fqdn r ≠ "" → Fqdn r = fqdn s ∧ fqdn s ∉ disallowedConfigurations ∧
         ∃ addrs, chosen addrs ∧ nd = gcehosts (kernel_name s') (fqdn s) AdditionalAliases addrs d)) s.
Proof. apply wp_ReconfigureHostname. Qed.

(** The set-up of the module registers the command, whatever becomes of the
    names, and fails only when the command has a handler already. *)
Theorem moduleSetup_registers (name d : string) (s : state) :
  (0 ≤ FQDNAddressInterfaceIndex)%Z → hosts_node (sys s) = Some (NFile d) →
  wp (moduleSetup (Some name)) (λ e s',
    fqdn s' = name ∧ hostname s' = (if FQDNAsHostname then name else (Cut name dot).1.1) ∧
    ReconfigureHostnameCommand ∈ handlers s' ∧ (e = None ↔ ReconfigureHostnameCommand ∉ handlers s)) s.
Proof.
  intros Hi Hd. unfold moduleSetup. do 3 wp_step.
  eapply wp_mono; [by apply (wp_ReconfigureHostname d)|]. intros r s1 (Hh & Hf & Hl & _). cbn in Hh, Hf, Hl.
  wp_step. unfold register. do 2 wp_step. rewrite Hl. case_bool_decide; [do 2 wp_step|do 4 wp_step]; cbn; rewrite ?Hl; split_and!; try done; try set_solver.
Qed.
End theorems.

(** ** Examples *)
Section examples.
#[local] Instance example_config : HostnameConfig := {|
  SetHostname := true; SetFQDN := true; FQDNAsHostname := false; FQDNAddressInterfaceIndex := 1%Z; AdditionalAliases := "db,db1"
|}.
#[local] Instance example_system : HostnameSystem := {|
  sethostname_error _ := None; gethostname_error := None;
  interface_addrs := Ok [Ok ["127.0.0.1/8"]; Ok ["10.1.2.3/32"; "nonsense"; "fe80::1/64"]];
  file_mode _ := 420%Z; file_owner _ := SafeWrite.mkGUID 0 0;
|}.
#[local] Instance example_commands : Commands := {| run_command _ _ := RunOk ""; dir_owner _ _ := Err ErrNotExist |}.
#[local] Instance example_paths : LookPath := λ _ _, Err ErrNotExist.
#[local] Existing Instance no_faults.
#[local] Existing Instance SafeWrite.numbered.

Definition example_hosts : string := unlines ["127.0.0.1 localhost"; ""; "10.9.9.9 old.name old # Added by Google"; "10.8.8.8 friend"].
Definition example_state : state :=
  mkState "vm" "vm.c.project.internal" "localhost" []
    (mkHost (mkFs {["/etc" := NDir; platformHostsFile := NFile example_hosts]} 0) []).

Definition example_written : string :=
  unlines ["127.0.0.1 localhost"; "10.8.8.8 friend";
           "169.254.169.254 metadata.google.internal # Added by Google";
           "10.1.2.3 vm.c.project.internal vm db db1  # Added by Google";
           "fe80::1 vm.c.project.internal vm db db1  # Added by Google"].

Definition example_response : option (ReconfigureHostnameResponse * string * option node) :=
  '(s, r) ← ReconfigureHostname example_state; Some (r, kernel_name s, hosts_node (sys s)).

Example ReconfigureHostname_ex :
  example_response = Some (mkResponse 0 [] "vm" "vm.c.project.internal", "vm", Some (NFile example_written)).
Proof. vm_compute. reflexivity. Qed.

Lemma ReconfigureHostname_reports_witness :
  wp ReconfigureHostname (λ r s', Hostname r ≠ "" → kernel_name s' = "vm") example_state.
Proof.
  eapply wp_mono; [apply (ReconfigureHostname_reports SafeWrite.numbered_ok example_hosts example_state)|].
  - cbn. lia.
  - vm_compute. reflexivity.
  - intros r s' (_ & _ & _ & _ & _ & Hh & _) Hne. by destruct (Hh Hne) as (_ & _ & ->).
Defined.

Lemma moduleSetup_registers_witness :
  wp (moduleSetup (Some "vm2.example.com")) (λ e _, e = None) example_state.
Proof.
  eapply wp_mono; [apply (moduleSetup_registers SafeWrite.numbered_ok "vm2.example.com" example_hosts example_state)|].
  - cbn. lia.
  - vm_compute. reflexivity.
  - intros e s' (_ & _ & _ & He). apply He. vm_compute. set_solver.
Defined.

Lemma writeHosts_last_witness :
  gcehosts "vm" "vm.b" "" [] (gcehosts "old" "old.a" "" ["10.1.2.3/32"] example_hosts) = gcehosts "vm" "vm.b" "" [] example_hosts.
Proof. apply writeHosts_last; by apply (bool_decide_unpack _). Defined.
End examples.

(** A negative index of the configuration passes the check and panics. *)
Section negative_index.
#[local] Instance negative_config : HostnameConfig := {|
  SetHostname := false; SetFQDN := true; FQDNAsHostname := false; FQDNAddressInterfaceIndex := (-1)%Z; AdditionalAliases := ""
|}.
#[local] Existing Instance example_system.
#[local] Existing Instance example_commands.
#[local] Existing Instance example_paths.
#[local] Existing Instance no_faults.
#[local] Existing Instance SafeWrite.numbered.

Example negative_index_panics : ReconfigureHostname example_state = None.
Proof. vm_compute. reflexivity. Qed.
End negative_index.
End Hostname.
