(* ===== verification/Snapshot.v ===== *)
(** * cmd/core_plugin/snapshot: scripts around the snapshots of a disk

    snapshot_linux.go: the requests of the snapshot service, the scripts that
    freeze and thaw the guest's file systems, and the watchdog that thaws them
    when the service does not ask for it.  The goroutines of the requests and
    of the watchdogs interleave in a step relation whose steps are the stages
    of the code.  Parameters: the scripts, the connection to the service, the
    devices the glob finds. *)
From stdpp Require Import pretty.
From S2P Require Import Prelude GoStrings Os Retry Lru.

Module Snapshot.

Definition defaultScriptsDir : string := "/etc/google/snapshots/".
Definition maxIDCacheSize : nat := 128.
Definition responseMaxAttempts : Z := 10.
Definition defaultNguidGlobPattern : string := "/sys/class/block/nvme*n*/nguid".
Definition defaultPostSnapshotWatchdogTimeout : Z := 300 * Second.

Record clientOptions := mkOptions {
  protocol : string;
  address : string;
  timeout : Z;
  postSnapshotWatchdogTimeout : Z;
  scriptDir : string;
}.

(** The messages of the service. *)
Inductive OperationType := PRE_SNAPSHOT | POST_SNAPSHOT | OtherOperation (n : Z).
Inductive AgentErrorCode := NO_ERROR | SCRIPT_NOT_FOUND | SCRIPT_TIMED_OUT | UNHANDLED_SCRIPT_ERROR.

#[global] Instance OperationType_eq_dec : EqDecision OperationType.
Proof. solve_decision. Defined.
#[global] Instance AgentErrorCode_eq_dec : EqDecision AgentErrorCode.
Proof. solve_decision. Defined.

Record SnapshotRequest := mkRequest {
  Type_ : OperationType;
  OperationId : Z;
  NguidList : string;
  DiskList : string;
}.

Record SnapshotResponse := mkResponse {
  resp_OperationId : Z;
  resp_Type : OperationType;
  ScriptsReturnCode : Z;
  AgentReturnCode : AgentErrorCode;
}.

#[global] Instance SnapshotResponse_eq_dec : EqDecision SnapshotResponse.
Proof. solve_decision. Defined.

Definition int32 (z : Z) : Z := (z + 2 ^ 31) mod 2 ^ 32 - 2 ^ 31.

(** How the run of a script ends: the errors [run.AsTimeoutError] and
    [run.AsExitError] tell apart, and the others. *)
Inductive script_result := Succeeded | TimedOut | Exited (code : Z) | NotRun (e : error).

(** The [n]-th script, glob, connection, call of the service and wait. *)
Class SnapshotWorld := {
  script_outcome : nat → list string → script_result;
  glob : string → result (list string);
  dial_error : nat → string → option error;
  HandleResponsesFromGuest : nat → SnapshotResponse → option error;
  wait_done : nat → option error;
}.

Record env := mkEnv {
  efs : fs;
  ran : list (list string);            (* the scripts that were run *)
  dials : nat;
  sent : list SnapshotResponse;        (* the calls of HandleResponsesFromGuest *)
  waits : nat;
}.

#[global] Instance env_HasFS : HasFS env :=
  {| fs_of := efs; set_fs f e := mkEnv f (ran e) (dials e) (sent e) (waits e) |}.
#[global] Instance env_LawfulFS : LawfulFS env.
Proof. split; [done|done|by intros []]. Qed.

Definition hyphen : byte := byte_of 45.
Definition comma : byte := byte_of 44.

(** [strings.ReplaceAll(s, "-", "")]. *)
Definition without_hyphens (s : string) : string := of_bytes (filter (λ b, b ≠ hyphen) (to_bytes s)).

(** [fullAddress]. *)
Definition fullAddress (op : clientOptions) : string :=
  if bool_decide (protocol op = "unix") then protocol op +:+ ":///" +:+ address op else address op.

(** ** Scripts and devices *)
Section scripts.
Context `{SnapshotWorld} `{OsFaults}.

(** The loop over the files the pattern matches. *)
Fixpoint match_device (targetNguid : string) (matches : list string) : M env (option string) :=
  match matches with
  | [] => mret None
  | m :: rest =>
      content ← os_ReadFile m;
      match content with
      | Err _ => match_device targetNguid rest
      | Ok content =>
          if bool_decide (without_hyphens (TrimSpace content) = targetNguid) then mret (Some ("/dev/" +:+ Base (Dir m)))
          else match_device targetNguid rest
      end
  end.

Definition findDeviceByNguidWithPattern (targetNguid pattern : string) : M env (result string) :=
  match glob pattern with
  | Err e => mret (Err (ErrWrap ("error globbing pattern " +:+ pattern) e))
  | Ok [] => mret (Err (ErrMsg "no nvme devices found"))
  | Ok matches =>
      device ← match_device targetNguid matches;
      mret (match device with
            | Some d => Ok d
            | None => Err (ErrMsg ("no device found with Nguid: " +:+ targetNguid))
            end)
  end.

Definition findDeviceByNguid (targetNguid : string) : M env (result string) :=
  findDeviceByNguidWithPattern targetNguid defaultNguidGlobPattern.

(** [run.WithContext] on a script, and what both callers make of its error: an
    error that is neither a timeout nor an exit is taken for a success. *)
Definition run_WithContext (cmd : list string) : M env script_result := λ e,
  Some (mkEnv (efs e) (ran e ++ [cmd]) (dials e) (sent e) (waits e), script_outcome (length (ran e)) cmd).

Definition execute (cmd : list string) : M env (Z * AgentErrorCode) :=
  r ← run_WithContext cmd;
  mret (match r with
        | TimedOut => (-1, SCRIPT_TIMED_OUT)
        | Exited code => (code, UNHANDLED_SCRIPT_ERROR)
        | NotRun _ | Succeeded => (0, NO_ERROR)
        end)%Z.

Definition runScript (scriptPath disks : string) : M env (Z * AgentErrorCode) :=
  found ← Exists scriptPath TypeFile;
  if negb found then mret ((-1)%Z, SCRIPT_NOT_FOUND) else execute [scriptPath; disks].

Definition disk_names (nguids : list string) : M env (list string) :=
  for_acc nguids [] (λ names nguid,
    r ← findDeviceByNguid nguid;
    mret (match r with Ok d => names ++ [d] | Err _ => names end)).

Definition runScriptWithNguid (scriptPath nguids : string) : M env (Z * AgentErrorCode) :=
  found ← Exists scriptPath TypeFile;
  if negb found then mret ((-1)%Z, SCRIPT_NOT_FOUND)
  else
    diskNames ← disk_names (Split nguids comma);
    match diskNames with
    | [] => mret ((-1)%Z, UNHANDLED_SCRIPT_ERROR)
    | _ => execute [scriptPath; Join diskNames ","]
    end.

(** The script of a request, by the list it carries. *)
Definition run_request (scriptPath : string) (request : SnapshotRequest) : M env (Z * AgentErrorCode) :=
  if negb (bool_decide (NguidList request = "")) then runScriptWithNguid scriptPath (NguidList request)
  else runScript scriptPath (DiskList request).

(** ** The response *)
Definition dial (a : string) : M env (option error) := λ e,
  Some (mkEnv (efs e) (ran e) (S (dials e)) (sent e) (waits e), dial_error (dials e) a).

Definition send (response : SnapshotResponse) : M env (option error) := λ e,
  Some (mkEnv (efs e) (ran e) (dials e) (sent e ++ [response]) (waits e), HandleResponsesFromGuest (length (sent e)) response).

Definition wait (d : Z) : M env (option error) := λ e,
  Some (mkEnv (efs e) (ran e) (dials e) (sent e) (S (waits e)), wait_done (waits e)).

Definition response_policy : Retry.Policy := Retry.mkPolicy responseMaxAttempts (float_of_Z 1) Second None 0.

Definition sendResponse (op : clientOptions) (response : SnapshotResponse) : M env (option error) :=
  err ← dial (fullAddress op);
  match err with
  | Some e => mret (Some (ErrWrap "failed to connect to snapshot service to send response" e))
  | None =>
      r ← Retry.Run wait (Z.to_nat responseMaxAttempts) response_policy (Some (send response));
      r ← some_or_panic r;
      mret (ErrWrap "failed to send snapshot response" <$> r)
  end.
End scripts.

(** ** The client *)

(** A watchdog: what it guards, whether its context was canceled, and where its
    goroutine is: in the select, at the four stages after the timer, gone. *)
Inductive wpc := WSelect | WFired | WMark | WScript | WRunning | WDone.
#[global] Instance wpc_eq_dec : EqDecision wpc.
Proof. solve_decision. Defined.
Record watchdog := mkWatchdog { w_request : SnapshotRequest; w_canceled : bool; w_pc : wpc }.

Definition cancel (w : watchdog) : watchdog := mkWatchdog (w_request w) true (w_pc w).
Definition set_w_pc (pc : wpc) (w : watchdog) : watchdog := mkWatchdog (w_request w) (w_canceled w) pc.

(** The beginning of a script and its end, as they happen. *)
Inductive event :=
| Begin (t : OperationType) (id : Z)
| Finish (t : OperationType) (id : Z) (code : AgentErrorCode).

#[global] Instance event_eq_dec : EqDecision event.
Proof. solve_decision. Defined.

(** [pendingWatchdogs] has indices into the watchdogs started so far. *)
Record snapshotClient := mkClient {
  seenPreOperationIDS : Lru.Handle Z bool;
  seenPostOperationIDS : Lru.Handle Z bool;
  options : clientOptions;
  pendingWatchdogs : gmap Z nat;
  watchdogs : list watchdog;
  log : list event;
  world : env;
}.

Definition newClient (op : clientOptions) (e : env) : snapshotClient :=
  let op := if (postSnapshotWatchdogTimeout op <=? 0)%Z
            then mkOptions (protocol op) (address op) (timeout op) defaultPostSnapshotWatchdogTimeout (scriptDir op)
            else op in
  mkClient (Lru.New (Z.of_nat maxIDCacheSize)) (Lru.New (Z.of_nat maxIDCacheSize)) op ∅ [] [] e.

Definition set_pre c (s : snapshotClient) :=
  mkClient c (seenPostOperationIDS s) (options s) (pendingWatchdogs s) (watchdogs s) (log s) (world s).
Definition set_post c (s : snapshotClient) :=
  mkClient (seenPreOperationIDS s) c (options s) (pendingWatchdogs s) (watchdogs s) (log s) (world s).
Definition set_pending m (s : snapshotClient) :=
  mkClient (seenPreOperationIDS s) (seenPostOperationIDS s) (options s) m (watchdogs s) (log s) (world s).
Definition set_watchdogs l (s : snapshotClient) :=
  mkClient (seenPreOperationIDS s) (seenPostOperationIDS s) (options s) (pendingWatchdogs s) l (log s) (world s).
Definition set_log l (s : snapshotClient) :=
  mkClient (seenPreOperationIDS s) (seenPostOperationIDS s) (options s) (pendingWatchdogs s) (watchdogs s) l (world s).
Definition set_world e (s : snapshotClient) :=
  mkClient (seenPreOperationIDS s) (seenPostOperationIDS s) (options s) (pendingWatchdogs s) (watchdogs s) (log s) e.

(** [snapshotOperation]: the cache of the type and its script. *)
Definition cache_of (t : OperationType) (s : snapshotClient) : option (Lru.Handle Z bool) :=
  match t with
  | PRE_SNAPSHOT => Some (seenPreOperationIDS s)
  | POST_SNAPSHOT => Some (seenPostOperationIDS s)
  | OtherOperation _ => None
  end.

Definition set_cache (t : OperationType) c (s : snapshotClient) : snapshotClient :=
  match t with PRE_SNAPSHOT => set_pre c s | POST_SNAPSHOT => set_post c s | OtherOperation _ => s end.

Definition scriptFileName (t : OperationType) : string :=
  match t with PRE_SNAPSHOT => "pre.sh" | _ => "post.sh" end.

Section client.
Context `{SnapshotWorld} `{OsFaults}.

Definition on_world {A} (m : M env A) : M snapshotClient A := zoom world set_world m.

Definition record (e : event) : M snapshotClient unit := modify (λ s, set_log (log s ++ [e]) s).

Definition cancelWatchdog (opID : Z) : M snapshotClient unit := modify (λ s,
  match pendingWatchdogs s !! opID with
  | Some w => set_pending (delete opID (pendingWatchdogs s)) (set_watchdogs (alter cancel w (watchdogs s)) s)
  | None => s
  end).

Definition startWatchdog (request : SnapshotRequest) : M snapshotClient unit := modify (λ s,
  set_pending (<[OperationId request := length (watchdogs s)]> (pendingWatchdogs s))
    (set_watchdogs (watchdogs s ++ [mkWatchdog request false WSelect]) s)).

(** [cache.Get] and [cache.Put]. *)
Definition seen (t : OperationType) (id : Z) : M snapshotClient (option bool) := λ s,
  c ← cache_of t s; let '(c', v) := Lru.Get id c in Some (set_cache t c' s, v).

Definition mark (t : OperationType) (id : Z) : M snapshotClient unit := λ s,
  c ← cache_of t s; c' ← Lru.Put id true c; Some (set_cache t c' s, tt).

Definition script (t : OperationType) (request : SnapshotRequest) : M snapshotClient (Z * AgentErrorCode) :=
  op ← gets options;
  r ← on_world (run_request (path_Join [scriptDir op; scriptFileName t]) request);
  _ ← record (Finish t (OperationId request) r.2);
  mret r.

Definition arm (request : SnapshotRequest) (errCode : AgentErrorCode) : M snapshotClient unit :=
  when (bool_decide (Type_ request = PRE_SNAPSHOT) && bool_decide (errCode = NO_ERROR)) (startWatchdog request).

Definition respond (request : SnapshotRequest) (r : Z * AgentErrorCode) : M snapshotClient (option error) :=
  op ← gets options;
  err ← on_world (sendResponse op (mkResponse (OperationId request) (Type_ request) (int32 r.1) r.2));
  mret (ErrWrap "failed to send snapshot response" <$> err).

Definition unhandled : error := ErrMsg "unhandled operation type".
Definition duplicate (request : SnapshotRequest) : error := ErrMsg "duplicate snapshot request operation id".

(** [handleRequest] of a goroutine that runs alone. *)
Definition handleRequest (request : SnapshotRequest) : M snapshotClient (option error) :=
  match Type_ request with
  | OtherOperation _ => mret (Some unhandled)
  | t =>
      found ← seen t (OperationId request);
      match (found : option bool) with
      | Some _ => mret (Some (duplicate request))
      | None =>
          _ ← mark t (OperationId request);
          _ ← cancelWatchdog (OperationId request);
          _ ← record (Begin t (OperationId request));
          r ← script t request;
          _ ← arm request r.2;
          respond request r
      end
  end.

(** ** The stages of the goroutines *)
Inductive pc :=
| AtSeen | AtMark | AtCancel | AtScript | AtRunning
| AtArm (r : Z * AgentErrorCode)
| AtSend (r : Z * AgentErrorCode)
| Returned (e : option error).

(** What a goroutine does up to the next point where others may run: each
    stage takes a lock or calls the outside. *)
Definition stage (request : SnapshotRequest) (at_ : pc) : M snapshotClient pc :=
  let t := Type_ request in
  match at_ with
  | AtSeen =>
      match t with
      | OtherOperation _ => mret (Returned (Some unhandled))
      | _ =>
          found ← seen t (OperationId request);
          mret (if (found : option bool) then Returned (Some (duplicate request)) else AtMark)
      end
  | AtMark => _ ← mark t (OperationId request); mret AtCancel
  | AtCancel => _ ← cancelWatchdog (OperationId request); mret AtScript
  | AtScript => _ ← record (Begin t (OperationId request)); mret AtRunning
  | AtRunning => r ← script t request; mret (AtArm r)
  | AtArm r => _ ← arm request r.2; mret (AtSend r)
  | AtSend r => e ← respond request r; mret (Returned e)
  | Returned e => mret (Returned e)
  end.

(** The goroutine of a watchdog after its timer. *)
Definition dog_stage (request : SnapshotRequest) (at_ : wpc) : M snapshotClient wpc :=
  match at_ with
  | WFired => _ ← modify (λ s, set_pending (delete (OperationId request) (pendingWatchdogs s)) s); mret WMark
  | WMark => _ ← mark POST_SNAPSHOT (OperationId request); mret WScript
  | WScript => _ ← record (Begin POST_SNAPSHOT (OperationId request)); mret WRunning
  | WRunning => _ ← script POST_SNAPSHOT request; mret WDone
  | WSelect | WDone => mret at_
  end.

Record thread := mkThread { t_request : SnapshotRequest; t_pc : pc }.
Record system := mkSystem { client : snapshotClient; threads : list thread; ctx_done : bool }.

Definition start (op : clientOptions) (e : env) : system := mkSystem (newClient op e) [] false.

Definition set_client c (s : system) := mkSystem c (threads s) (ctx_done s).
Definition set_dog (i : nat) (pc : wpc) (c : snapshotClient) : snapshotClient :=
  set_watchdogs (alter (set_w_pc pc) i (watchdogs c)) c.

(** The context of a watchdog is the client's, and can be canceled by itself. *)
Definition dog_ctx_done (w : watchdog) (s : system) : bool := w_canceled w || ctx_done s.

Inductive step : system → system → Prop :=
| step_receive s request :
    step s (mkSystem (client s) (threads s ++ [mkThread request AtSeen]) (ctx_done s))
| step_stage s i th c pc' :
    threads s !! i = Some th → (∀ e, t_pc th ≠ Returned e) →
    stage (t_request th) (t_pc th) (client s) = Some (c, pc') →
    step s (mkSystem c (<[i := mkThread (t_request th) pc']> (threads s)) (ctx_done s))
| step_canceled s i w :
    watchdogs (client s) !! i = Some w → w_pc w = WSelect → dog_ctx_done w s = true →
    step s (set_client (set_dog i WDone (client s)) s)
| step_timer s i w :
    watchdogs (client s) !! i = Some w → w_pc w = WSelect →
    step s (set_client (set_dog i WFired (client s)) s)
| step_dog s i w c pc' :
    watchdogs (client s) !! i = Some w → w_pc w ≠ WSelect → w_pc w ≠ WDone →
    dog_stage (w_request w) (w_pc w) (client s) = Some (c, pc') →
    step s (set_client (set_dog i pc' c) s)
| step_ctx_done s : step s (mkSystem (client s) (threads s) true).
End client.

(** ** The stages, run one after the other *)
Section stages.
Context `{SnapshotWorld} `{OsFaults}.

Fixpoint run_stages (n : nat) (request : SnapshotRequest) (at_ : pc) : M snapshotClient pc :=
  match n with
  | 0 => mret at_
  | S n => at' ← stage request at_; run_stages n request at'
  end.

(** A goroutine that runs alone does what [handleRequest] does. *)
Theorem handleRequest_stages (request : SnapshotRequest) (s : snapshotClient) :
  run_stages 7 request AtSeen s = (λ '(s', e), (s', Returned e)) <$> handleRequest request s.
Proof.
  cbn [run_stages]. unfold handleRequest. destruct (Type_ request) eqn:Et.
  3: { unfold stage. rewrite Et. reflexivity. }
  all: unfold mbind, M_bind, mret, M_ret, fmap, option_fmap, option_map; cbn [stage]; rewrite ?Et.
  all: unfold mbind, M_bind, mret, M_ret, fmap, option_fmap, option_map.
  all: destruct (seen _ (OperationId request) s) as [[s1 [b|]]|]; cbn [stage]; try reflexivity.
  all: rewrite ?Et; unfold mbind, M_bind, mret, M_ret.
  all: destruct (mark _ (OperationId request) s1) as [[s2 []]|]; cbn [stage]; try reflexivity.
  all: unfold mbind, M_bind, mret, M_ret; destruct (cancelWatchdog _ s2) as [[s3 []]|]; cbn [stage]; try reflexivity.
  all: rewrite ?Et; unfold mbind, M_bind, mret, M_ret; destruct (record _ s3) as [[s4 []]|]; cbn [stage]; try reflexivity.
  all: rewrite ?Et; unfold mbind, M_bind, mret, M_ret; destruct (script _ request s4) as [[s5 r]|]; cbn [stage]; try reflexivity.
  all: unfold mbind, M_bind, mret, M_ret; destruct (arm request _ s5) as [[s6 []]|]; cbn [stage]; try reflexivity.
  all: unfold mbind, M_bind, mret, M_ret; destruct (respond request r s6) as [[s7 e]|]; reflexivity.
Qed.

(** What the stages do to the watchdogs and the log. *)
Definition view (c : snapshotClient) := (pendingWatchdogs c, watchdogs c, log c).

Lemma view_seen t id c c' v : seen t id c = Some (c', v) → view c' = view c.
Proof.
  unfold seen. destruct (cache_of t c); [|done]. cbn. destruct (Lru.Get _ _). intros [= <- <-]. by destruct t.
Qed.

Lemma view_mark t id c c' : mark t id c = Some (c', tt) → view c' = view c ∧ is_Some (cache_of t c).
Proof.
  unfold mark. destruct (cache_of t c); [|done]. cbn. destruct (Lru.Put _ _ _); [|done]. intros [= <-]. by destruct t.
Qed.

Lemma view_script t request c c' r :
  script t request c = Some (c', r) →
  pendingWatchdogs c' = pendingWatchdogs c ∧ watchdogs c' = watchdogs c ∧ log c' = log c ++ [Finish t (OperationId request) r.2].
Proof.
  unfold script, gets, on_world, zoom, record, modify, mbind, M_bind. destruct (run_request _ _ _) as [[e x]|]; [|done].
  by intros [= <- <-].
Qed.

Lemma view_respond request x c c' e : respond request x c = Some (c', e) → view c' = view c.
Proof.
  unfold respond, gets, on_world, zoom, mbind, M_bind. destruct (sendResponse _ _ _) as [[w y]|]; [|done]. by intros [= <- <-].
Qed.

Definition past (p : pc) : Prop := match p with AtArm _ | AtSend _ | Returned _ => True | _ => False end.

Lemma stage_past request p c c' p' : stage request p c = Some (c', p') → past p → past p'.
Proof.
  destruct p; try done; cbn [stage]; unfold mbind, M_bind, mret, M_ret.
  - destruct (arm _ _ _) as [[]|]; [|done]. by intros [= <- <-].
  - destruct (respond _ _ _) as [[]|]; [|done]. by intros [= <- <-].
  - by intros [= <- <-].
Qed.

(** ** Every freeze is followed by a thaw *)

(** Whether the last thing that happened to an operation is a freeze: a pre
    script that succeeded, with no post script begun after it. *)
Definition freeze (id : Z) (b : bool) (e : event) : bool :=
  match e with
  | Finish PRE_SNAPSHOT id' NO_ERROR => b || bool_decide (id' = id)
  | Begin POST_SNAPSHOT id' => b && negb (bool_decide (id' = id))
  | _ => b
  end.
Definition frozen (id : Z) (l : list event) : bool := foldl (freeze id) false l.
#[local] Arguments frozen : simpl never.

Lemma frozen_snoc id l e : frozen id (l ++ [e]) = freeze id (frozen id l) e.
Proof. unfold frozen. by rewrite foldl_app. Qed.

Definition has (s : system) (t : OperationType) (id : Z) (P : pc → Prop) : Prop :=
  ∃ i th, threads s !! i = Some th ∧ Type_ (t_request th) = t ∧ OperationId (t_request th) = id ∧ P (t_pc th).

Definition will_fire (d : watchdog) : Prop :=
  (w_pc d = WSelect ∧ w_canceled d = false) ∨ w_pc d ∈ [WFired; WMark; WScript].

Definition guarded (id : Z) (s : system) : Prop :=
  has s PRE_SNAPSHOT id (λ p, ∃ z, p = AtArm (z, NO_ERROR)) ∨
  (∃ w d, watchdogs (client s) !! w = Some d ∧ OperationId (w_request d) = id ∧ will_fire d) ∨
  has s POST_SNAPSHOT id (λ p, p = AtScript).

(** At most one request to freeze came with each operation ID. *)
Definition single (s : system) : Prop := ∀ i j a b,
  threads s !! i = Some a → threads s !! j = Some b →
  Type_ (t_request a) = PRE_SNAPSHOT → Type_ (t_request b) = PRE_SNAPSHOT →
  OperationId (t_request a) = OperationId (t_request b) → i = j.

Record inv (s : system) : Prop := mkInv {
  inv_pending : ∀ id w, pendingWatchdogs (client s) !! id = Some w →
    ∃ d, watchdogs (client s) !! w = Some d ∧ OperationId (w_request d) = id;
  inv_type : ∀ i th n, threads s !! i = Some th → Type_ (t_request th) = OtherOperation n →
    t_pc th = AtSeen ∨ ∃ e, t_pc th = Returned e;
  inv_ran : ∀ id, frozen id (log (client s)) = true → has s PRE_SNAPSHOT id past;
  inv_guard : ctx_done s = false → ∀ id, frozen id (log (client s)) = true → guarded id s;
}.

(** A stage by its effect on the watchdogs and the log. *)
Lemma stage_view request p c c' p' :
  stage request p c = Some (c', p') →
  match p with
  | AtSeen => view c' = view c ∧ ((p' = AtMark ∧ ∀ n, Type_ request ≠ OtherOperation n) ∨ ∃ e, p' = Returned e)
  | AtMark => view c' = view c ∧ p' = AtCancel
  | AtCancel => cancelWatchdog (OperationId request) c = Some (c', tt) ∧ p' = AtScript
  | AtScript => c' = set_log (log c ++ [Begin (Type_ request) (OperationId request)]) c ∧ p' = AtRunning
  | AtRunning => ∃ r, p' = AtArm r ∧ pendingWatchdogs c' = pendingWatchdogs c ∧ watchdogs c' = watchdogs c ∧
      log c' = log c ++ [Finish (Type_ request) (OperationId request) r.2]
  | AtArm r => arm request r.2 c = Some (c', tt) ∧ p' = AtSend r
  | AtSend r => view c' = view c ∧ ∃ e, p' = Returned e
  | Returned e => True
  end.
Proof.
  destruct p; cbn [stage]; unfold mbind, M_bind, mret, M_ret; try done.
  - destruct (Type_ request) eqn:Et; [| |intros [= <- <-]; eauto].
    all: destruct (seen _ _ c) as [[c1 v]|] eqn:E; [|done]; intros [= <- <-]; apply view_seen in E; split; [done|];
      destruct v; [right; eauto|left; by split].
  - destruct (mark _ _ c) as [[c1 []]|] eqn:E; [|done]. intros [= <- <-]. by apply view_mark in E as [? _].
  - destruct (cancelWatchdog _ c) as [[c1 []]|] eqn:E; [|done]. by intros [= <- <-].
  - by intros [= <- <-].
  - destruct (script _ _ c) as [[c1 r]|] eqn:E; [|done]. intros [= <- <-]. apply view_script in E. eauto.
  - destruct (arm _ _ c) as [[c1 []]|] eqn:E; [|done]. by intros [= <- <-].
  - destruct (respond _ _ c) as [[c1 e]|] eqn:E; [|done]. intros [= <- <-]. apply view_respond in E. eauto.
Qed.

(** Threads only move forward. *)
Lemma has_update s i th p' t id (P Q : pc → Prop) c b :
  has s t id P → threads s !! i = Some th → (P (t_pc th) → Q p') → (∀ p, P p → Q p) →
  has (mkSystem c (<[i := mkThread (t_request th) p']> (threads s)) b) t id Q.
Proof.
  intros (j & u & Hj & Ht & Hid & HP) Hi Hp HPQ. destruct (decide (i = j)) as [<-|Hne].
  - rewrite Hi in Hj. injection Hj as ->. exists i, (mkThread (t_request u) p'). cbn.
    rewrite list_lookup_insert_eq by (by eapply lookup_lt_Some). eauto 6.
  - exists j, u. cbn. rewrite list_lookup_insert_ne by done. eauto 6.
Qed.

Lemma has_self s i th p' c b (Q : pc → Prop) :
  threads s !! i = Some th → Q p' →
  has (mkSystem c (<[i := mkThread (t_request th) p']> (threads s)) b) (Type_ (t_request th)) (OperationId (t_request th)) Q.
Proof.
  intros Hi HQ. exists i, (mkThread (t_request th) p'). cbn. rewrite list_lookup_insert_eq by (by eapply lookup_lt_Some). eauto.
Qed.

Lemma has_app s th t id P c b : has s t id P → has (mkSystem c (threads s ++ [th]) b) t id P.
Proof. intros (j & u & Hj & ?). exists j, u. cbn. split; [by apply lookup_app_l_Some|done]. Qed.

Lemma has_client s c b t id P : has s t id P → has (mkSystem c (threads s) b) t id P.
Proof. done. Qed.

Lemma single_update s i th p' c b :
  threads s !! i = Some th → single (mkSystem c (<[i := mkThread (t_request th) p']> (threads s)) b) → single s.
Proof.
  intros Hi Hs j k x y Hj Hk Tx Ty E.
  assert (Hx : ∀ j x, threads s !! j = Some x →
    ∃ x', <[i := mkThread (t_request th) p']> (threads s) !! j = Some x' ∧ t_request x' = t_request x).
  { intros j' x' Hj'. destruct (decide (i = j')) as [<-|Hne].
    - rewrite Hi in Hj'. injection Hj' as <-. rewrite list_lookup_insert_eq by (by eapply lookup_lt_Some). by eexists.
    - rewrite list_lookup_insert_ne by done. by eexists. }
  destruct (Hx _ _ Hj) as (x' & Hj' & Ex), (Hx _ _ Hk) as (y' & Hk' & Ey).
  eapply (Hs j k x' y'); cbn; rewrite ?Ex, ?Ey; done.
Qed.

(** A change of a watchdog's place. *)
Lemma alter_lookup (f : watchdog → watchdog) (i : nat) (l : list watchdog) w d :
  l !! w = Some d → alter f i l !! w = Some (if decide (i = w) then f d else d).
Proof.
  intros Hd. destruct (decide (i = w)) as [<-|Hne]; [by rewrite list_lookup_alter_eq, Hd|by rewrite list_lookup_alter_ne].
Qed.

Definition pending_ok (m : gmap Z nat) (l : list watchdog) : Prop :=
  ∀ id w, m !! id = Some w → ∃ d, l !! w = Some d ∧ OperationId (w_request d) = id.

Lemma pending_alter (f : watchdog → watchdog) (i : nat) m (l : list watchdog) :
  (∀ d, w_request (f d) = w_request d) → pending_ok m l → pending_ok m (alter f i l).
Proof.
  intros Hf Hm id w Hw. destruct (Hm _ _ Hw) as (d & Hd & Hid). rewrite (alter_lookup _ _ _ _ _ Hd).
  eexists. split; [done|]. destruct (decide (i = w)); [by rewrite Hf|done].
Qed.

Lemma pending_delete id m l : pending_ok m l → pending_ok (delete id m) l.
Proof. intros Hm id' w [_ Hw]%lookup_delete_Some. by apply Hm. Qed.

Lemma guard_dog id s i w pc' c b :
  watchdogs (client s) !! i = Some w → watchdogs c = watchdogs (client s) →
  (OperationId (w_request w) = id → will_fire w → will_fire (set_w_pc pc' w)) →
  guarded id s → guarded id (mkSystem (set_dog i pc' c) (threads s) b).
Proof.
  intros Hi Hc Hf [Hg|[(v & d & Hv & Hid & Hd)|Hg]]; [by left| |by right; right].
  right; left. exists v. cbn. rewrite Hc, (alter_lookup _ _ _ _ _ Hv). eexists. split; [done|].
  destruct (decide (i = v)) as [<-|]; [|done]. rewrite Hi in Hv. injection Hv as ->. split; [done|]. by apply Hf.
Qed.

(** A guard survives a stage of a thread that leaves the watchdogs alone. *)
Lemma guard_stage id s i th p' c :
  threads s !! i = Some th → watchdogs c = watchdogs (client s) →
  (∀ r, t_pc th ≠ AtArm r) → (OperationId (t_request th) = id → Type_ (t_request th) = POST_SNAPSHOT → t_pc th ≠ AtScript) →
  guarded id s → guarded id (mkSystem c (<[i := mkThread (t_request th) p']> (threads s)) (ctx_done s)).
Proof.
  intros Hi Hc Ha Hs [Hg|[Hg|(j & u & Hj & Ht & Hid & HP)]].
  - left. eapply has_update; [done|done| |done]. intros [z E]. by destruct (Ha (z, NO_ERROR)).
  - right; left. cbn. by rewrite Hc.
  - right; right. exists j, u. cbn. rewrite list_lookup_insert_ne; [done|]. intros <-. rewrite Hi in Hj. injection Hj as ->. by apply Hs.
Qed.

Lemma inv_start op e : inv (start op e).
Proof. constructor; cbn; [intros ?? []%lookup_empty_Some|done|done|done]. Qed.

Lemma snapshot_receive s request : inv s → inv (mkSystem (client s) (threads s ++ [mkThread request AtSeen]) (ctx_done s)).
Proof.
  intros [Hp Ht Hr Hg]. constructor; cbn.
  - done.
  - intros i th n [Hi|[_ Hi]]%lookup_app_Some; [by apply (Ht i)|]. apply list_lookup_singleton_Some in Hi as [_ <-]. by left.
  - intros id Hf. by apply has_app, Hr.
  - intros Hc id Hf. destruct (Hg Hc id Hf) as [H1|[H1|H1]]; [left|right; left|right; right]; [by apply has_app|done|by apply has_app].
Qed.

(** The types of the threads after a stage. *)
Lemma type_update s i th p' c b :
  (∀ n, Type_ (t_request th) = OtherOperation n → p' = AtSeen ∨ ∃ e, p' = Returned e) →
  inv s → threads s !! i = Some th →
  ∀ j u n, threads (mkSystem c (<[i := mkThread (t_request th) p']> (threads s)) b) !! j = Some u →
    Type_ (t_request u) = OtherOperation n → t_pc u = AtSeen ∨ ∃ e, t_pc u = Returned e.
Proof.
  intros Hp Hinv Hi j u n. cbn. destruct (decide (i = j)) as [<-|Hne].
  - rewrite list_lookup_insert_eq by (by eapply lookup_lt_Some). intros [= <-]. by apply Hp.
  - rewrite list_lookup_insert_ne by done. by apply inv_type.
Qed.

Lemma type_live s i th : inv s → threads s !! i = Some th → t_pc th ≠ AtSeen → (∀ e, t_pc th ≠ Returned e) →
  ∀ n, Type_ (t_request th) ≠ OtherOperation n.
Proof. intros Hinv Hi H1 H2 n Hn. destruct (inv_type s Hinv _ _ _ Hi Hn) as [E|[e E]]; [done|by apply (H2 e)]. Qed.

(** A stage that neither touches the watchdogs nor the log. *)
Lemma inv_quiet_stage s i th c p' :
  inv s → threads s !! i = Some th → view c = view (client s) →
  (∀ n, Type_ (t_request th) = OtherOperation n → p' = AtSeen ∨ ∃ e, p' = Returned e) →
  (past (t_pc th) → past p') → (∀ r, t_pc th ≠ AtArm r) → t_pc th ≠ AtScript →
  inv (mkSystem c (<[i := mkThread (t_request th) p']> (threads s)) (ctx_done s)).
Proof.
  intros Hinv Hi Hv Hty Hpast Ha Hs. unfold view in Hv. injection Hv as Hp Hw Hl.
  constructor; [cbn| |cbn|cbn].
  - rewrite Hp, Hw. apply Hinv.
  - by apply type_update.
  - intros id. rewrite Hl. intros Hf. eapply has_update; [by apply Hinv|done|done|done].
  - intros Hc id. rewrite Hl. intros Hf. apply guard_stage; [done|done|done|done|by apply (inv_guard s Hinv)].
Qed.

Lemma inv_cancel s i th c :
  inv s → single s → threads s !! i = Some th → t_pc th = AtCancel →
  cancelWatchdog (OperationId (t_request th)) (client s) = Some (c, tt) →
  inv (mkSystem c (<[i := mkThread (t_request th) AtScript]> (threads s)) (ctx_done s)).
Proof.
  intros Hinv Hsg Hi Hpc E. pose proof (inv_pending s Hinv) as Hpend.
  assert (Hty : ∀ n, Type_ (t_request th) ≠ OtherOperation n) by (apply (type_live s i th); [done|done|congruence|congruence]).
  assert (Hlog : log c = log (client s) ∧ pending_ok (pendingWatchdogs c) (watchdogs c) ∧
    ∀ w d, watchdogs (client s) !! w = Some d → OperationId (w_request d) ≠ OperationId (t_request th) → watchdogs c !! w = Some d).
  { unfold cancelWatchdog, modify in E. injection E as <-. destruct (pendingWatchdogs (client s) !! _) as [w|] eqn:Ew; [|done].
    split; [done|]. split; [by apply pending_delete, pending_alter|]. intros v d Hv Hne. cbn. rewrite (alter_lookup _ _ _ _ _ Hv).
    destruct (decide (w = v)) as [<-|]; [|done]. destruct (Hpend _ _ Ew) as (d' & Hd' & Hid). congruence. }
  destruct Hlog as (Hl & Hpo & Hothers). constructor; [exact Hpo| |cbn|cbn].
  - apply type_update; [|done|done]. intros n Hn. by destruct (Hty n).
  - intros id. rewrite Hl. intros Hf. eapply has_update; [by apply Hinv|done| |done]. by rewrite Hpc.
  - intros Hc id. rewrite Hl. intros Hf. destruct (decide (OperationId (t_request th) = id)) as [<-|Hne].
    + destruct (Type_ (t_request th)) eqn:Et; [| |by destruct (Hty n)].
      * destruct (inv_ran s Hinv _ Hf) as (j & u & Hj & Htu & Hid & Hpast).
        assert (i = j) as <- by (by eapply Hsg; [exact Hi|exact Hj| | |]). rewrite Hi in Hj. injection Hj as ->. by rewrite Hpc in Hpast.
      * right; right. rewrite <-Et. by apply has_self.
    + destruct (inv_guard s Hinv Hc id Hf) as [Hg|[(v & d & Hv & Hid & Hd)|Hg]].
      * left. eapply has_update; [done|done| |done]. rewrite Hpc. by intros [].
      * right; left. exists v, d. split; [|done]. apply Hothers; [done|congruence].
      * right; right. eapply has_update; [done|done| |done]. by rewrite Hpc.
Qed.

Lemma inv_begin s i th :
  inv s → threads s !! i = Some th → t_pc th = AtScript →
  inv (mkSystem (set_log (log (client s) ++ [Begin (Type_ (t_request th)) (OperationId (t_request th))]) (client s))
         (<[i := mkThread (t_request th) AtRunning]> (threads s)) (ctx_done s)).
Proof.
  intros Hinv Hi Hpc.
  assert (Hty : ∀ n, Type_ (t_request th) ≠ OtherOperation n) by (apply (type_live s i th); [done|done|congruence|congruence]).
  constructor; [by apply Hinv| |cbn|cbn].
  - apply type_update; [|done|done]. intros n Hn. by destruct (Hty n).
  - intros id. rewrite frozen_snoc. intros Hf. eapply has_update; [apply Hinv|done| |done]; [|by rewrite Hpc].
    destruct (Type_ (t_request th)); cbn in Hf; [done|by apply andb_true_iff in Hf as [? _]|done].
  - intros Hc id. rewrite frozen_snoc. intros Hf.
    assert (Hf' : frozen id (log (client s)) = true ∧ (Type_ (t_request th) = POST_SNAPSHOT → OperationId (t_request th) ≠ id)).
    { destruct (Type_ (t_request th)); cbn in Hf; [done| |done]. apply andb_true_iff in Hf as [? Hn]. split; [done|].
      intros _ E. by rewrite bool_decide_true in Hn. }
    destruct Hf' as [Hf' Hne]. apply guard_stage; [done|done|by rewrite Hpc| |by apply Hinv].
    intros E Et _. by apply Hne.
Qed.

Lemma inv_finish s i th c r :
  inv s → threads s !! i = Some th → t_pc th = AtRunning →
  pendingWatchdogs c = pendingWatchdogs (client s) → watchdogs c = watchdogs (client s) →
  log c = log (client s) ++ [Finish (Type_ (t_request th)) (OperationId (t_request th)) r.2] →
  inv (mkSystem c (<[i := mkThread (t_request th) (AtArm r)]> (threads s)) (ctx_done s)).
Proof.
  intros Hinv Hi Hpc Hp Hw Hl.
  assert (Hty : ∀ n, Type_ (t_request th) ≠ OtherOperation n) by (apply (type_live s i th); [done|done|congruence|congruence]).
  assert (Hfr : ∀ id, frozen id (log c) = true → frozen id (log (client s)) = true ∨
    (Type_ (t_request th) = PRE_SNAPSHOT ∧ OperationId (t_request th) = id ∧ r.2 = NO_ERROR)).
  { intros id. rewrite Hl, frozen_snoc. destruct (Type_ (t_request th)), r.2; cbn; try (by left).
    intros [?|Hb]%orb_true_iff; [by left|]. right. by apply bool_decide_eq_true in Hb. }
  constructor; [cbn; rewrite Hp, Hw; apply Hinv| |cbn|cbn].
  - apply type_update; [|done|done]. intros n Hn. by destruct (Hty n).
  - intros id [Hf|(Et & <- & _)]%Hfr; [eapply has_update; [by apply Hinv|done| |done]; by rewrite Hpc|].
    rewrite <-Et. by apply has_self.
  - intros Hc id [Hf|(Et & <- & Hr)]%Hfr.
    + apply guard_stage; [done|done|by rewrite Hpc|by rewrite Hpc|by apply Hinv].
    + left. rewrite <-Et. apply has_self; [done|]. exists r.1. by rewrite <-Hr, <-surjective_pairing.
Qed.

Lemma inv_arm s i th c r :
  inv s → single s → threads s !! i = Some th → t_pc th = AtArm r → arm (t_request th) r.2 (client s) = Some (c, tt) →
  inv (mkSystem c (<[i := mkThread (t_request th) (AtSend r)]> (threads s)) (ctx_done s)).
Proof.
  intros Hinv Hsg Hi Hpc E.
  assert (Hty : ∀ n, Type_ (t_request th) ≠ OtherOperation n) by (apply (type_live s i th); [done|done|congruence|congruence]).
  set (armed := bool_decide (Type_ (t_request th) = PRE_SNAPSHOT) && bool_decide (r.2 = NO_ERROR)).
  assert (Hc : log c = log (client s) ∧ pending_ok (pendingWatchdogs c) (watchdogs c) ∧
    (∀ w d, watchdogs (client s) !! w = Some d → watchdogs c !! w = Some d) ∧
    (armed = true → watchdogs c !! length (watchdogs (client s)) = Some (mkWatchdog (t_request th) false WSelect))).
  { unfold arm in E. fold armed in E. destruct armed; cbn in E; injection E as <-; [|split_and!; [done|exact (inv_pending s Hinv)|done|done]].
    cbn. split_and!; [done| |by intros; apply lookup_app_l_Some|intros _; by apply list_lookup_middle].
    intros id w [[<- <-]|[_ Hw]]%lookup_insert_Some; [eexists; split; [by apply list_lookup_middle|done]|].
    destruct (inv_pending s Hinv _ _ Hw) as (d & Hd & ?). exists d. split; [by apply lookup_app_l_Some|done]. }
  destruct Hc as (Hl & Hpo & Hw & Ha). constructor; [exact Hpo| |cbn|cbn].
  - apply type_update; [|done|done]. intros n Hn. by destruct (Hty n).
  - intros id. rewrite Hl. intros Hf. by eapply has_update; [by apply Hinv|done| |done].
  - intros Hcx id. rewrite Hl. intros Hf. destruct (inv_guard s Hinv Hcx id Hf) as [(j & u & Hj & Ht & Hid & z & Hz)|[(v & d & Hv & ?)|Hg]].
    + destruct (decide (i = j)) as [<-|Hne].
      * rewrite Hi in Hj. injection Hj as ->. rewrite Hpc in Hz. injection Hz as ->. right; left.
        eexists _, _. split; [apply Ha; unfold armed; by rewrite Ht|]. split; [done|]. by left.
      * left. exists j, u. cbn. rewrite list_lookup_insert_ne by done. eauto 6.
    + right; left. exists v, d. split; [by apply Hw|done].
    + right; right. eapply has_update; [done|done| |done]. by rewrite Hpc.
Qed.

Lemma inv_stage s i th c p' :
  inv s → single s → threads s !! i = Some th → (∀ e, t_pc th ≠ Returned e) →
  stage (t_request th) (t_pc th) (client s) = Some (c, p') →
  inv (mkSystem c (<[i := mkThread (t_request th) p']> (threads s)) (ctx_done s)).
Proof.
  intros Hinv Hsg Hi Hne E. pose proof (stage_past _ _ _ _ _ E) as Hpast. apply stage_view in E. destruct (t_pc th) as [| | | | |r|r|e] eqn:Hpc.
  - destruct E as [Hv Hp]. apply inv_quiet_stage; rewrite ?Hpc; try done.
    intros n Hn. destruct Hp as [[_ Hp]|Hp]; [by destruct (Hp n)|by right].
  - destruct E as [Hv ->]. apply inv_quiet_stage; rewrite ?Hpc; try done.
    intros n Hn. exfalso. apply (type_live s i th Hinv Hi) with n; congruence.
  - destruct E as [E ->]. by apply inv_cancel.
  - destruct E as [-> ->]. by apply inv_begin.
  - destruct E as (r & -> & ? & ? & ?). by apply inv_finish.
  - destruct E as [E ->]. by apply inv_arm.
  - destruct E as [Hv [e ->]]. apply inv_quiet_stage; rewrite ?Hpc; try done. right. by eexists.
  - by destruct (Hne e).
Qed.

Lemma inv_dog_move s i w pc' c :
  inv s → watchdogs (client s) !! i = Some w → watchdogs c = watchdogs (client s) →
  pending_ok (pendingWatchdogs c) (watchdogs (client s)) →
  (∀ id, frozen id (log c) = true → frozen id (log (client s)) = true ∧
     (ctx_done s = false → OperationId (w_request w) = id → will_fire w → will_fire (set_w_pc pc' w))) →
  inv (set_client (set_dog i pc' c) s).
Proof.
  intros Hinv Hi Hw Hp Hl. constructor; [cbn; rewrite Hw; by apply pending_alter|by apply Hinv| |].
  - intros id Hf. by apply Hinv, Hl.
  - intros Hc id Hf. destruct (Hl id Hf) as [Hf' Hd]. eapply guard_dog; [done|done| |by apply Hinv]. by apply Hd.
Qed.

Lemma inv_dog_stage s i w c pc' :
  inv s → watchdogs (client s) !! i = Some w → w_pc w ≠ WSelect → w_pc w ≠ WDone →
  dog_stage (w_request w) (w_pc w) (client s) = Some (c, pc') → inv (set_client (set_dog i pc' c) s).
Proof.
  intros Hinv Hi H1 H2 E. pose proof (inv_pending s Hinv) as Hp. unfold dog_stage, mbind, M_bind, mret, M_ret in E.
  assert (Hkeep : ∀ pc'', will_fire (set_w_pc pc'' w) ↔ pc'' = WSelect ∧ w_canceled w = false ∨ pc'' ∈ [WFired; WMark; WScript]) by done.
  destruct (w_pc w) eqn:Hpc; try done.
  - injection E as <- <-. apply (inv_dog_move s i w); [done|done|done|by apply pending_delete|]. intros id Hf. split; [done|].
    intros _ _ _. right. set_solver.
  - destruct (mark _ _ _) as [[c1 []]|] eqn:Em; [|done]. injection E as <- <-. apply view_mark in Em as [Hv _]. injection Hv as Ep Ew El.
    apply (inv_dog_move s i w); [done|done|done|by rewrite Ep|]. intros id. rewrite El. split; [done|]. intros _ _ _. right. set_solver.
  - injection E as <- <-. apply (inv_dog_move s i w); [done|done|done|done|]. cbn. intros id. rewrite frozen_snoc. cbn.
    intros [Hf Hn]%andb_true_iff. split; [done|]. intros _ Hid. by rewrite bool_decide_true in Hn.
  - destruct (script _ _ _) as [[c1 r]|] eqn:Em; [|done]. injection E as <- <-. apply view_script in Em as (Ep & Ew & El).
    apply (inv_dog_move s i w); [done|done|done|by rewrite Ep|]. intros id. rewrite El, frozen_snoc. cbn. split; [done|].
    intros _ _ Hfire. unfold will_fire in Hfire. rewrite Hpc in Hfire. destruct Hfire as [[? _]|?]; [done|set_solver].
Qed.

Lemma snapshot_inv_step s s' : inv s → single s → step s s' → inv s'.
Proof.
  intros Hinv Hsg Hs. destruct Hs as [s request|s i th c pc' Hi Hne E|s i w Hi Hpc Hd|s i w Hi Hpc|s i w c pc' Hi H1 H2 E|s].
  - by apply snapshot_receive.
  - by apply inv_stage.
  - apply (inv_dog_move s i w); [done|done|done|exact (inv_pending s Hinv)|]. intros id Hf. split; [done|].
    unfold dog_ctx_done in Hd. intros Hx _ [[_ Hw]|Hw]; [by rewrite Hw, Hx in Hd|rewrite Hpc in Hw; set_solver].
  - apply (inv_dog_move s i w); [done|done|done|exact (inv_pending s Hinv)|]. intros id Hf. split; [done|]. intros _ _ _. right. cbn. set_solver.
  - by eapply inv_dog_stage.
  - destruct Hinv. by constructor.
Qed.

Lemma single_step s s' : step s s' → single s' → single s.
Proof.
  intros Hs. destruct Hs as [s request|s i th c pc' Hi Hne E|s i w Hi Hpc Hd|s i w Hi Hpc|s i w c pc' Hi H1 H2 E|s]; try done.
  - intros H1 j k a b Hj Hk. apply (H1 j k); cbn; by apply lookup_app_l_Some.
  - by apply single_update.
Qed.

Lemma inv_reachable op e s : rtc step (start op e) s → single s → inv s.
Proof.
  intros Hr. revert s Hr. apply (rtc_ind_r (λ s, single s → inv s)); [intros _; apply inv_start|].
  intros y z _ Hs IH Hsg. apply (single_step _ _ Hs) in Hsg. by apply (snapshot_inv_step y); [apply IH| |].
Qed.

(** Nothing is left to do. *)
Definition quiescent (s : system) : Prop :=
  Forall (λ th, ∃ e, t_pc th = Returned e) (threads s) ∧ Forall (λ d, w_pc d = WDone) (watchdogs (client s)).

Lemma freeze_has_guard op e s id :
  rtc step (start op e) s → single s → ctx_done s = false → quiescent s → frozen id (log (client s)) = true → False.
Proof.
  intros Hr Hsg Hc [Ht Hd] Hf.
  rewrite Forall_lookup in Ht. rewrite Forall_lookup in Hd.
  destruct (inv_guard s (inv_reachable _ _ _ Hr Hsg) Hc id Hf) as [(i & th & Hi & _ & _ & z & Hp)|[(w & d & Hw & _ & Hp)|(i & th & Hi & _ & _ & Hp)]].
  - destruct (Ht _ _ Hi). congruence.
  - apply Hd in Hw. destruct Hp as [[Hp _]|Hp]; rewrite Hw in Hp; [done|set_solver].
  - destruct (Ht _ _ Hi). congruence.
Qed.


(** ** The goroutines end *)
Definition cache_ok (c : Lru.Handle Z bool) : Prop := ∃ ts, Lru.slots maxIDCacheSize c ts.
Definition caches_ok (c : snapshotClient) : Prop := cache_ok (seenPreOperationIDS c) ∧ cache_ok (seenPostOperationIDS c).

Lemma cache_new : cache_ok (Lru.New (Z.of_nat maxIDCacheSize)).
Proof.
  exists []. split; cbn; try done; [|constructor|constructor|unfold maxIDCacheSize; lia].
  intros k node. rewrite lookup_empty. set_solver.
Qed.

Lemma cache_Get k c : cache_ok c → cache_ok (Lru.Get k c).1.
Proof.
  intros [ts Hs]. destruct (Lru.run_call_slots maxIDCacheSize c ts (Lru.CallGet k)) as (c' & ts' & E & Hs' & _); [unfold maxIDCacheSize; lia|done|].
  cbn in E. destruct (Lru.Get k c) as [c1 v]. injection E as <- _. by exists ts'.
Qed.

Lemma cache_Put k c : cache_ok c → ∃ c', Lru.Put k true c = Some c' ∧ cache_ok c'.
Proof.
  intros [ts Hs]. destruct (Lru.run_call_slots maxIDCacheSize c ts (Lru.CallPut k true)) as (c' & ts' & E & Hs' & _); [unfold maxIDCacheSize; lia|done|].
  cbn in E. destruct (Lru.Put k true c) as [c1|]; [|done]. cbn in E. injection E as <-. exists c1. split; [done|]. by exists ts'.
Qed.

Definition keeps_caches (c c' : snapshotClient) : Prop := caches_ok c → caches_ok c'.

(** A computation that returns and leaves sound caches. *)
Definition goes_on {A} (m : M snapshotClient A) : Prop := ∀ c, caches_ok c → ∃ c' a, m c = Some (c', a) ∧ caches_ok c'.

Lemma goes_on_bind {A B} (m : M snapshotClient A) (f : A → M snapshotClient B) : goes_on m → (∀ a, goes_on (f a)) → goes_on (m ≫= f).
Proof. intros Hm Hf c Hc. unfold mbind, M_bind. destruct (Hm c Hc) as (c1 & a & -> & H1). by apply Hf. Qed.

Lemma goes_on_ret {A} (a : A) : goes_on (mret a).
Proof. intros c Hc. by exists c, a. Qed.

Lemma goes_on_modify f : (∀ c, seenPreOperationIDS (f c) = seenPreOperationIDS c ∧ seenPostOperationIDS (f c) = seenPostOperationIDS c) →
  goes_on (modify f).
Proof. intros Hf c [H1 H2]. exists (f c), tt. split; [done|]. unfold caches_ok. destruct (Hf c) as [-> ->]. done. Qed.

Lemma goes_on_gets {A} (f : snapshotClient → A) : goes_on (gets f).
Proof. intros c Hc. by exists c, (f c). Qed.

Lemma goes_on_world {A} (m : M env A) : total m → goes_on (on_world m).
Proof. intros Hm c Hc. unfold on_world, zoom. destruct (Hm (world c)) as [[e a] ->]. by exists (set_world e c), a. Qed.

Lemma goes_on_seen t id : (∀ n, t ≠ OtherOperation n) → goes_on (seen t id).
Proof.
  intros Ht c [H1 H2]. unfold seen. destruct t; cbn; [| |by destruct (Ht n)];
    [pose proof (cache_Get id _ H1)|pose proof (cache_Get id _ H2)]; destruct (Lru.Get id _) as [c' v]; eexists _, _; (split; [done|]); by split.
Qed.

Lemma goes_on_mark t id : (∀ n, t ≠ OtherOperation n) → goes_on (mark t id).
Proof.
  intros Ht c [H1 H2]. unfold mark. destruct t; cbn; [| |by destruct (Ht n)];
    [destruct (cache_Put id _ H1) as (c' & -> & Hc)|destruct (cache_Put id _ H2) as (c' & -> & Hc)];
    eexists _, _; (split; [done|]); by split.
Qed.

Lemma total_device n l : total (match_device n l).
Proof. induction l as [|m l IH]; cbn; [apply total_ret|]. apply total_bind; [apply total_with_fs|]. intros [d|e]; [|done]. by destruct (bool_decide _); [apply total_ret|]. Qed.

Lemma total_run_request p request : total (run_request p request).
Proof.
  assert (Hrun : ∀ cmd, total (execute cmd)) by (intros cmd e; by eexists).
  assert (Hex : ∀ q, total (S := env) (Exists q TypeFile)) by (intros q; unfold Exists; total_solve; apply total_with_fs).
  unfold run_request, runScriptWithNguid, runScript, disk_names, findDeviceByNguid, findDeviceByNguidWithPattern.
  total_solve; try apply Hrun; try apply Hex; try apply total_device; total_solve.
Qed.

Lemma total_sendResponse op r : total (sendResponse op r).
Proof.
  intros e. unfold sendResponse, dial, mbind at 1, M_bind at 1. destruct (dial_error _ _); [by eexists|].
  match goal with |- is_Some (_ ?e0) => set (e1 := e0) end. cbn [Retry.Run]. unfold Retry.Run.
  assert (Hw : wp (Retry.RunWithResponse tt wait (Z.to_nat responseMaxAttempts) response_policy (Some (e ← send r; mret (tt, e))))
    (λ o _, is_Some o) e1).
  { unfold Retry.RunWithResponse. eapply wp_mono; [apply (Retry.wp_retry_loop wait (λ _ _, True) (λ _, True))|].
    - intros e2 _. unfold wp, send, mbind, M_bind, mret, M_ret. cbn. destruct (HandleResponsesFromGuest _ _); done.
    - intros d e2 x _ _. unfold wp, wait. by destruct (wait_done _).
    - done.
    - done.
    - done.
    - done.
    - by intros ? ? (x & -> & _). }
  unfold wp in Hw. unfold mbind, M_bind. destruct (Retry.RunWithResponse _ _ _ _ _ e1) as [[e2 o]|]; [|done].
  destruct Hw as [x ->]. cbn. by eexists.
Qed.

Lemma goes_on_script t request : goes_on (script t request).
Proof.
  unfold script. apply goes_on_bind; [apply goes_on_gets|intros op]. apply goes_on_bind; [apply goes_on_world, total_run_request|intros r].
  apply goes_on_bind; [by apply goes_on_modify|intros _; apply goes_on_ret].
Qed.

Definition left (p : pc) : nat :=
  match p with AtSeen => 7 | AtMark => 6 | AtCancel => 5 | AtScript => 4 | AtRunning => 3 | AtArm _ => 2 | AtSend _ => 1 | Returned _ => 0 end.
Definition dog_left (p : wpc) : nat :=
  match p with WSelect => 5 | WFired => 4 | WMark => 3 | WScript => 2 | WRunning => 1 | WDone => 0 end.

Lemma goes_on_stage request p : (∀ n, Type_ request = OtherOperation n → p = AtSeen ∨ ∃ e, p = Returned e) → goes_on (stage request p).
Proof.
  intros Ht. assert (Hlive : p = AtSeen ∨ (∃ e, p = Returned e) ∨ ∀ n, Type_ request ≠ OtherOperation n).
  { destruct (Type_ request) eqn:E; [by right; right|by right; right|]. destruct (Ht n eq_refl); auto. }
  destruct p; cbn [stage].
  - destruct (Type_ request) eqn:E; [| |apply goes_on_ret]; (apply goes_on_bind; [by apply goes_on_seen|intros v; apply goes_on_ret]).
  - apply goes_on_bind; [|intros _; apply goes_on_ret]. apply goes_on_mark. by destruct Hlive as [|[[]|]].
  - apply goes_on_bind; [|intros _; apply goes_on_ret]. apply goes_on_modify. intros c. by destruct (pendingWatchdogs c !! _).
  - apply goes_on_bind; [by apply goes_on_modify|intros _; apply goes_on_ret].
  - apply goes_on_bind; [apply goes_on_script|intros x; apply goes_on_ret].
  - apply goes_on_bind; [|intros _; apply goes_on_ret]. unfold arm, when. destruct (_ && _); [by apply goes_on_modify|apply goes_on_ret].
  - apply goes_on_bind; [|intros x; apply goes_on_ret]. unfold respond. apply goes_on_bind; [apply goes_on_gets|intros op].
    apply goes_on_bind; [apply goes_on_world, total_sendResponse|intros x; apply goes_on_ret].
  - apply goes_on_ret.
Qed.

Lemma stage_left request p c c' p' : stage request p c = Some (c', p') → (∀ e, p ≠ Returned e) → left p' < left p.
Proof.
  intros E Hne. apply stage_view in E. destruct p; cbn in *.
  - destruct E as [_ [[-> _]|[e ->]]]; cbn; lia.
  - destruct E as [_ ->]; cbn; lia.
  - destruct E as [_ ->]; cbn; lia.
  - destruct E as [_ ->]; cbn; lia.
  - destruct E as (r & -> & _); cbn; lia.
  - destruct E as [_ ->]; cbn; lia.
  - destruct E as [_ [x ->]]; cbn; lia.
  - by destruct (Hne e).
Qed.

Lemma dog_progress request p c : p ≠ WSelect → p ≠ WDone → caches_ok c →
  ∃ c' p', dog_stage request p c = Some (c', p') ∧ caches_ok c' ∧ dog_left p' < dog_left p ∧ p' ≠ WSelect ∧ watchdogs c' = watchdogs c.
Proof.
  intros H1 H2 Hc. unfold dog_stage, mbind, M_bind, mret, M_ret. destruct p; try done.
  - eexists _, _. split; [reflexivity|]. split_and!; [done|cbn; lia|done|done].
  - destruct (goes_on_mark POST_SNAPSHOT (OperationId request) ltac:(done) c Hc) as (c1 & [] & E & Hc1). rewrite E.
    apply view_mark in E as [Hv _]. injection Hv as _ Hw _. eexists _, _. split; [reflexivity|]. split_and!; [done|cbn; lia|done|done].
  - eexists _, _. split; [reflexivity|]. split_and!; [done|cbn; lia|done|done].
  - destruct (goes_on_script POST_SNAPSHOT request c Hc) as (c1 & r & E & Hc1). rewrite E.
    apply view_script in E as (_ & Hw & _). eexists _, _. split; [reflexivity|]. split_and!; [done|cbn; lia|done|done].
Qed.

Lemma sum_list_with_insert {A} (f : A → nat) l i x y : l !! i = Some x → sum_list_with f (<[i:=y]> l) + f x = sum_list_with f l + f y.
Proof.
  intros Hi. rewrite insert_take_drop by (by eapply lookup_lt_Some).
  assert (Hl : sum_list_with f l = sum_list_with f (take i l) + (f x + sum_list_with f (drop (S i) l))).
  { rewrite <-(take_drop_middle l i x Hi) at 1. by rewrite sum_list_with_app. }
  rewrite sum_list_with_app, Hl. cbn. lia.
Qed.

Lemma alter_insert_same {A} (f : A → A) (l : list A) i x : l !! i = Some x → alter f i l = <[i := f x]> l.
Proof.
  intros Hi. apply list_eq. intros j. destruct (decide (i = j)) as [<-|Hne].
  - by rewrite list_lookup_alter_eq, Hi, list_lookup_insert_eq by (by eapply lookup_lt_Some).
  - by rewrite list_lookup_alter_ne, list_lookup_insert_ne.
Qed.

(** What a state needs to go on, and what going on keeps. *)
Definition sound (s : system) : Prop :=
  caches_ok (client s) ∧ ∀ i th n, threads s !! i = Some th → Type_ (t_request th) = OtherOperation n →
    t_pc th = AtSeen ∨ ∃ e, t_pc th = Returned e.

Definition alike (s s' : system) : Prop := ctx_done s' = ctx_done s ∧ t_request <$> threads s' = t_request <$> threads s.

Lemma threads_settle n s : sound s → sum_list_with (left ∘ t_pc) (threads s) ≤ n →
  ∃ s', rtc step s s' ∧ sound s' ∧ alike s s' ∧ Forall (λ th, ∃ e, t_pc th = Returned e) (threads s').
Proof.
  revert s. induction n as [|n IH]; intros s Hs Hn.
  all: destruct (decide (List.Exists (λ th, left (t_pc th) ≠ 0) (threads s))) as [He|He];
    [|exists s; split; [apply rtc_refl|split; [done|split; [done|]]]; apply not_Exists_Forall in He; [|apply _]; eapply Forall_impl; [exact He|];
      intros th Hth; unfold compose in Hth; destruct (t_pc th); cbn in Hth; first [by eexists | by destruct Hth]].
  all: apply Exists_exists in He as (th & [i Hi]%list_elem_of_lookup & Hth).
  - exfalso. pose proof (sum_list_with_insert (left ∘ t_pc) _ _ _ (mkThread (t_request th) (Returned None)) Hi) as E. cbn in E. lia.
  - destruct Hs as [Hc Hty]. destruct (goes_on_stage (t_request th) (t_pc th) ltac:(intros; by eapply Hty) (client s) Hc) as (c & p' & E & Hc').
    assert (Hne : ∀ e, t_pc th ≠ Returned e) by (intros e Hx; by rewrite Hx in Hth).
    pose proof (stage_left _ _ _ _ _ E Hne) as Hlt.
    destruct (IH (mkSystem c (<[i := mkThread (t_request th) p']> (threads s)) (ctx_done s))) as (s' & Hr & Hs' & [Ha1 Ha2] & Hf).
    + split; [exact Hc'|]. intros j u m. cbn. destruct (decide (i = j)) as [<-|Hij]; [|rewrite list_lookup_insert_ne by done; apply Hty].
      rewrite list_lookup_insert_eq by (by eapply lookup_lt_Some). intros [= <-] Ht. cbn in Ht |- *.
      destruct (Hty _ _ _ Hi Ht) as [Ex|[e Ex]]; [|by destruct (Hne e)]. rewrite Ex in E. cbn [stage] in E. rewrite Ht in E. injection E as _ <-. eauto.
    + cbn. pose proof (sum_list_with_insert (left ∘ t_pc) _ _ _ (mkThread (t_request th) p') Hi) as Hsum. cbn in Hsum. lia.
    + exists s'. split_and!; [|done| |done].
      * eapply rtc_l; [|exact Hr]. by eapply step_stage.
      * split; [done|]. rewrite Ha2. cbn. rewrite list_fmap_insert. cbn. apply list_insert_id. by rewrite list_lookup_fmap, Hi.
Qed.

Lemma dogs_settle n s : sound s → Forall (λ th, ∃ e, t_pc th = Returned e) (threads s) →
  sum_list_with (dog_left ∘ w_pc) (watchdogs (client s)) ≤ n →
  ∃ s', rtc step s s' ∧ alike s s' ∧ quiescent s'.
Proof.
  revert s. induction n as [|n IH]; intros s Hs Ht Hn.
  all: destruct (decide (List.Exists (λ d, dog_left (w_pc d) ≠ 0) (watchdogs (client s)))) as [He|He];
    [|exists s; split; [apply rtc_refl|split; [done|split; [done|]]]; apply not_Exists_Forall in He; [|apply _]; eapply Forall_impl; [exact He|];
      intros d Hd; unfold compose in Hd; destruct (w_pc d); cbn in Hd; first [done | by destruct Hd]].
  all: apply Exists_exists in He as (d & [i Hi]%list_elem_of_lookup & Hd).
  - exfalso. pose proof (sum_list_with_insert (dog_left ∘ w_pc) _ _ _ (set_w_pc WDone d) Hi) as E. cbn in E. lia.
  - assert (Hstep : ∃ c p', caches_ok c ∧ watchdogs c = watchdogs (client s) ∧ dog_left p' < dog_left (w_pc d) ∧
      step s (set_client (set_dog i p' c) s)).
    { destruct (decide (w_pc d = WSelect)) as [E|E].
      - exists (client s), WFired. destruct Hs. split_and!; [done|done|rewrite E; cbn; lia|by eapply step_timer].
      - assert (w_pc d ≠ WDone) by (intros Hx; by rewrite Hx in Hd).
        destruct (dog_progress (w_request d) (w_pc d) (client s)) as (c & p' & Es & ? & ? & ? & ?); [done|done|by destruct Hs|].
        exists c, p'. split_and!; [done|done|done|by eapply step_dog]. }
    destruct Hstep as (c & p' & Hc & Hw & Hlt & Hst). destruct (IH (set_client (set_dog i p' c) s)) as (s' & Hr & [Ha1 Ha2] & Hq).
    + destruct Hs as [_ Hty]. by split.
    + done.
    + cbn. rewrite Hw. assert (alter (set_w_pc p') i (watchdogs (client s)) = <[i := set_w_pc p' d]> (watchdogs (client s))) as ->
        by (by apply alter_insert_same).
      pose proof (sum_list_with_insert (dog_left ∘ w_pc) _ _ _ (set_w_pc p' d) Hi) as Hsum. cbn in Hsum. lia.
    + exists s'. split; [by eapply rtc_l|by split].
Qed.

Lemma sound_stage s i th c p' :
  sound s → threads s !! i = Some th → stage (t_request th) (t_pc th) (client s) = Some (c, p') →
  sound (mkSystem c (<[i := mkThread (t_request th) p']> (threads s)) (ctx_done s)).
Proof.
  intros [Hc Hty] Hi E. destruct (goes_on_stage (t_request th) (t_pc th) ltac:(intros; by eapply Hty) (client s) Hc) as (c1 & p1 & E1 & Hc1).
  rewrite E in E1. injection E1 as <- <-. split; [exact Hc1|]. intros j u m. cbn.
  destruct (decide (i = j)) as [<-|Hij]; [|rewrite list_lookup_insert_ne by done; apply Hty].
  rewrite list_lookup_insert_eq by (by eapply lookup_lt_Some). intros [= <-] Ht. cbn in Ht |- *.
  destruct (Hty _ _ _ Hi Ht) as [Ex|[e Ex]]; rewrite Ex in E; cbn [stage] in E; [rewrite Ht in E|]; injection E as _ <-; eauto.
Qed.

Lemma sound_step s s' : sound s → step s s' → sound s'.
Proof.
  intros Hs Hst. destruct Hst as [s request|s i th c pc' Hi Hne E|s i w Hi Hpc Hd|s i w Hi Hpc|s i w c pc' Hi H1 H2 E|s]; try exact Hs.
  - destruct Hs as [Hc Hty]. split; [done|]. intros i th n. cbn.
    intros [Hi|[_ Hi]]%lookup_app_Some; [by apply (Hty i)|]. apply list_lookup_singleton_Some in Hi as [_ <-]. by left.
  - by apply sound_stage.
  - destruct Hs as [Hc Hty]. destruct (dog_progress (w_request w) (w_pc w) (client s) H1 H2 Hc) as (c1 & p1 & E1 & Hc1 & _).
    rewrite E in E1. injection E1 as <- <-. by split.
Qed.

Lemma sound_reachable op e s : rtc step (start op e) s → sound s.
Proof. apply rtc_invariant; [intros; by eapply sound_step|]. split; [split; apply cache_new|done]. Qed.

Lemma settles s : sound s → ∃ s', rtc step s s' ∧ alike s s' ∧ quiescent s'.
Proof.
  intros Hs. destruct (threads_settle _ s Hs (le_n _)) as (s1 & Hr1 & Hs1 & [A1 A2] & Hf).
  destruct (dogs_settle _ s1 Hs1 Hf (le_n _)) as (s2 & Hr2 & [B1 B2] & Hq).
  exists s2. split; [by etrans|]. split; [split; congruence|done].
Qed.

(** No goroutine of the client is ever stuck, panics included: from every
    state it can reach, with no further request, all of them come to their
    end, and unless the context ends no operation is then left frozen. *)
Theorem client_settles (op : clientOptions) (e : env) (s : system) :
  rtc step (start op e) s →
  ∃ s', rtc step s s' ∧ ctx_done s' = ctx_done s ∧ t_request <$> threads s' = t_request <$> threads s ∧ quiescent s' ∧
    (single s → ctx_done s = false → ∀ id, frozen id (log (client s')) = false).
Proof.
  intros Hr. destruct (settles s (sound_reachable _ _ _ Hr)) as (s' & Hr' & [H1 H2] & Hq).
  exists s'. split_and!; [done..|]. intros Hsg Hc id.
  assert (Hsg' : single s').
  { intros i j a b Ha Hb Ta Tb E.
    assert (Hx : ∀ k x, threads s' !! k = Some x → ∃ y, threads s !! k = Some y ∧ t_request y = t_request x).
    { intros k x Hk. assert ((t_request <$> threads s) !! k = Some (t_request x)) as Hy by (by rewrite <-H2, list_lookup_fmap, Hk).
      apply list_lookup_fmap_Some in Hy as (y & Hy1 & Hy2). eauto. }
    destruct (Hx _ _ Ha) as (a' & Ha' & Ea), (Hx _ _ Hb) as (b' & Hb' & Eb). eapply Hsg; [exact Ha'|exact Hb'|..]; congruence. }
  destruct (frozen id (log (client s'))) eqn:Hf; [|done]. exfalso.
  apply (freeze_has_guard op e s' id); [by etrans|done|congruence|done|done].
Qed.
End stages.

(** ** One request, from its arrival to its response *)
Section request.
Context `{SnapshotWorld} `{OsFaults}.

(** What a response says of a script, by how its run ended: a script that could
    not be started counts as one that succeeded. *)
Lemma execute_codes (cmd : list string) (e : env) :
  execute cmd e = Some (mkEnv (efs e) (ran e ++ [cmd]) (dials e) (sent e) (waits e),
    match script_outcome (length (ran e)) cmd with
    | TimedOut => (-1, SCRIPT_TIMED_OUT)
    | Exited code => (code, UNHANDLED_SCRIPT_ERROR)
    | Succeeded | NotRun _ => (0, NO_ERROR)
    end)%Z.
Proof. unfold execute, mbind, M_bind, run_WithContext. cbn. by destruct (script_outcome _ _). Qed.

(** Every attempt sends the same response, and none runs a script. *)
Lemma wp_sendResponse op r e :
  wp (sendResponse op r) (λ err e', ∃ n, sent e' = sent e ++ replicate n r ∧ ran e' = ran e ∧ efs e' = efs e ∧
    (err = None → ∃ m, n = S m ∧ HandleResponsesFromGuest (length (sent e) + m) r = None)) e.
Proof.
  unfold sendResponse. apply wp_bind. unfold wp at 1, dial. destruct (dial_error _ _).
  { apply wp_ret. exists 0. cbn. rewrite app_nil_r. split_and!; done. }
  set (e1 := mkEnv _ _ _ _ _). apply wp_bind. unfold Retry.Run, Retry.RunWithResponse. apply wp_bind.
  set (sent_so_far := λ (e' : env) n, sent e' = sent e ++ replicate n r ∧ ran e' = ran e ∧ efs e' = efs e).
  eapply wp_mono; [apply (Retry.wp_retry_loop wait
    (λ x e', ∃ n, sent_so_far e' n ∧ (x.2 = None → ∃ m, n = S m ∧ HandleResponsesFromGuest (length (sent e) + m) r = None))
    (λ e', ∃ n, sent_so_far e' n))|].
  - intros e2 (n & Hs & Hr & Hf). unfold wp, send, mbind, M_bind, mret, M_ret. cbn. rewrite Hs, length_app, length_replicate.
    assert (Hn : sent_so_far (mkEnv (efs e2) (ran e2) (dials e2) ((sent e ++ replicate n r) ++ [r]) (waits e2)) (S n)).
    { split_and!; [|done|done]. cbn [sent]. rewrite <-app_assoc. f_equal. by rewrite <-replicate_S_end. }
    split; [by exists (S n)|]. destruct (HandleResponsesFromGuest _ _) eqn:E; cbn; [by eexists|]. exists (S n). split; [done|]. eauto.
  - intros d e2 x HI HQ. unfold wp, wait. split; [by destruct HI as (n & ?); exists n|].
    destruct (wait_done _) as [ce|]; [|done]. destruct (HQ ce) as (n & Hn & _). exists n. split; [exact Hn|done].
  - done.
  - done.
  - done.
  - exists 0. split_and!; [|done|done]. cbn. by rewrite app_nil_r.
  - intros o e2 ([[] x] & -> & n & (Hs & Hr & Hf) & Hx). apply wp_ret. apply wp_bind. unfold wp. cbn.
    exists n. split_and!; [done..|]. intros E. apply Hx. by destruct x.
Qed.

Lemma put_then_get (k : Z) c c' : Lru.Put k true c = Some c' → (Lru.Get k c').2 = Some true.
Proof.
  unfold Lru.Put, Lru.Get. destruct (Lru.lookupTable c !! k) as [node|]; [intros [= <-]; cbn; by rewrite lookup_insert_eq|].
  destruct (_ =? _)%Z; cbn; [destruct (Lru.Back _); [|done]; cbn|]; intros [= <-]; cbn; by rewrite lookup_insert_eq.
Qed.

(** What follows the check of the cache. *)
Definition process (t : OperationType) (request : SnapshotRequest) : M snapshotClient (option error) :=
  _ ← cancelWatchdog (OperationId request);
  _ ← record (Begin t (OperationId request));
  r ← script t request;
  _ ← arm request r.2;
  respond request r.

Definition processed (request : SnapshotRequest) (c : snapshotClient) (err : option error) (c' : snapshotClient) : Prop :=
  let t := Type_ request in let id := OperationId request in
  ∃ r e1 n,
    run_request (path_Join [scriptDir (options c); scriptFileName t]) request (world c) = Some (e1, r) ∧
    log c' = log c ++ [Begin t id; Finish t id r.2] ∧
    sent (world c') = sent e1 ++ replicate n (mkResponse id t (int32 r.1) r.2) ∧ ran (world c') = ran e1 ∧
    (err = None → 0 < n) ∧
    (is_Some (pendingWatchdogs c' !! id) ↔ t = PRE_SNAPSHOT ∧ r.2 = NO_ERROR) ∧
    (∀ id', id' ≠ id → pendingWatchdogs c' !! id' = pendingWatchdogs c !! id') ∧
    seenPreOperationIDS c' = seenPreOperationIDS c ∧ seenPostOperationIDS c' = seenPostOperationIDS c.

Lemma wp_process request c : wp (process (Type_ request) request) (processed request c) c.
Proof.
  unfold process, processed. set (t := Type_ request). set (id := OperationId request). apply wp_bind. unfold cancelWatchdog. apply wp_modify. fold id.
  match goal with |- wp _ _ ?x => set (c1 := x) end.
  assert (Hc1 : log c1 = log c ∧ options c1 = options c ∧ world c1 = world c ∧ pendingWatchdogs c1 !! id = None ∧
    (∀ id', id' ≠ id → pendingWatchdogs c1 !! id' = pendingWatchdogs c !! id') ∧
    seenPreOperationIDS c1 = seenPreOperationIDS c ∧ seenPostOperationIDS c1 = seenPostOperationIDS c).
  { unfold c1. destruct (pendingWatchdogs c !! id) eqn:E; [|done]. cbn. split_and!; try done; [by rewrite lookup_delete_eq|].
    intros id' Hne. by rewrite lookup_delete_ne. }
  clearbody c1. destruct Hc1 as (Hl & Ho & Hw & Hp & Hp' & Hpre & Hpost).
  apply wp_bind. unfold record at 1. apply wp_modify. apply wp_bind. unfold script. apply wp_bind, wp_gets, wp_bind, wp_zoom.
  cbn [world options set_log]. rewrite Hw, Ho. destruct (total_run_request (path_Join [scriptDir (options c); scriptFileName t]) request (world c)) as [[e1 r] Erun].
  unfold wp at 1. rewrite Erun. apply wp_bind. unfold record. apply wp_modify, wp_ret, wp_bind. unfold arm. fold t. set (b := bool_decide (t = PRE_SNAPSHOT) && bool_decide (r.2 = NO_ERROR)).
  match goal with |- wp _ _ ?x => set (c2 := x) end.
  assert (Harm : wp (when b (startWatchdog request)) (λ _ c3, log c3 = log c2 ∧ options c3 = options c2 ∧ world c3 = world c2 ∧
    (is_Some (pendingWatchdogs c3 !! id) ↔ b = true) ∧ (∀ id', id' ≠ id → pendingWatchdogs c3 !! id' = pendingWatchdogs c2 !! id') ∧
    seenPreOperationIDS c3 = seenPreOperationIDS c2 ∧ seenPostOperationIDS c3 = seenPostOperationIDS c2) c2).
  { destruct b; cbn [when].
    - apply wp_modify. cbn. split_and!; try done; [by rewrite lookup_insert_eq|]. intros id' Hne. by rewrite lookup_insert_ne.
    - apply wp_ret. split_and!; try done. cbn. rewrite Hp. split; [by intros []|done]. }
  eapply wp_mono; [exact Harm|]. intros _ c3 (Hl3 & Ho3 & Hw3 & Hp3 & Hp3' & Hpre3 & Hpost3).
  unfold respond. apply wp_bind, wp_gets, wp_bind, wp_zoom. rewrite Hw3. cbn [world set_world set_log c2].
  eapply wp_mono; [apply wp_sendResponse|]. intros err e' (n & Hs & Hr & _ & He). apply wp_ret. cbn.
  exists r, e1, n. split_and!; try done.
  - rewrite Hl3. cbn. by rewrite Hl, <-app_assoc.
  - destruct err; [done|]. intros _. destruct (He eq_refl) as (m & -> & _). lia.
  - rewrite Hp3. unfold b. rewrite andb_true_iff, !bool_decide_eq_true. done.
  - intros id' Hne. rewrite Hp3' by done. by apply Hp'.
  - by rewrite Hpre3.
  - by rewrite Hpost3.
Qed.

(** A request of an unknown type or with an operation ID the cache of its
    type still has is refused, and changes neither watchdogs nor scripts.  Any
    other request runs its script once, with the devices it names, and the
    script's outcome is what every attempt to answer sends.  Afterwards the
    operation has a watchdog exactly if the script was the pre script and
    succeeded, the watchdogs of other operations are as before, and the ID is
    in the cache. *)
Theorem handleRequest_outcome (request : SnapshotRequest) (c : snapshotClient) :
  caches_ok c →
  let t := Type_ request in let id := OperationId request in
  wp (handleRequest request) (λ err c',
    match cache_of t c with
    | None => err = Some unhandled ∧ c' = c
    | Some cache =>
        match (Lru.Get id cache).2 with
        | Some _ => err = Some (duplicate request) ∧ view c' = view c ∧ world c' = world c
        | None =>
            processed request (set_cache t (default cache (Lru.Put id true (Lru.Get id cache).1)) c) err c' ∧
            ∃ cache', cache_of t c' = Some cache' ∧ (Lru.Get id cache').2 = Some true
        end
    end) c.
Proof.
  intros Hok t id. unfold handleRequest. fold t id.
  destruct (cache_of t c) as [ca|] eqn:Eca.
  2: { by destruct t. }
  assert (Hca : cache_ok ca ∧ ∀ ca', cache_of t (set_cache t ca' c) = Some ca' ∧ view (set_cache t ca' c) = view c ∧ world (set_cache t ca' c) = world c ∧
    ∀ ca'', set_cache t ca'' (set_cache t ca' c) = set_cache t ca'' c).
  { destruct Hok. destruct t; cbn in Eca |- *; simplify_eq; split_and!; done. }
  destruct Hca as [Hca Hset]. pose proof (cache_Get id ca Hca) as Hget.
  assert (Hseen : seen t id c = Some (set_cache t (Lru.Get id ca).1 c, (Lru.Get id ca).2)).
  { unfold seen. rewrite Eca. cbn. by destruct (Lru.Get id ca). }
  destruct (Lru.Get id ca) as [ca1 v]. cbn [fst snd] in *.
  destruct (Hset ca1) as (E1 & E2 & E3 & E4). destruct (cache_Put id ca1 Hget) as (ca2 & Hput & _).
  assert (Hmark : mark t id (set_cache t ca1 c) = Some (set_cache t ca2 c, tt)).
  { unfold mark. rewrite E1. cbn. rewrite Hput. cbn. by rewrite E4. }
  assert (Hrest : wp (process t request) (λ err c', processed request (set_cache t ca2 c) err c' ∧ ∃ cache', cache_of t c' = Some cache' ∧ (Lru.Get id cache').2 = Some true) (set_cache t ca2 c)).
  { eapply wp_mono; [apply wp_process|]. intros err c' Hp. split; [exact Hp|]. destruct Hp as (r & e1 & n & _ & _ & _ & _ & _ & _ & _ & Hpre & Hpost).
    exists ca2. split; [|by eapply put_then_get]. destruct (Hset ca2) as [Hx _]. rewrite <-Hx. destruct t; cbn; by rewrite ?Hpre, ?Hpost. }
  destruct t; [| |done]; apply wp_bind; unfold wp at 1; rewrite Hseen; (destruct v as [b|]; [apply wp_ret; by split_and!|]);
    apply wp_bind; unfold wp at 1; rewrite Hmark, Hput; exact Hrest.
Qed.
End request.

(** ** The module and its loop *)

(** What the loop meets at its [n]-th connection: the ways it can fail, or the
    requests the stream gives before its error; and when the context ends. *)
Inductive connection := DialFailed (e : error) | CreateFailed (e : error) | Stream (requests : list SnapshotRequest).
Class Connections := { connect : nat → string → connection; context_cause : nat → option error }.

Section loop.
Context `{OsFaults} `{Connections}.

(** The requests the loop starts goroutines for, and how it ends. *)
Fixpoint listen (fuel n : nat) (op : clientOptions) (started : list SnapshotRequest) : option (list SnapshotRequest * option error) :=
  match fuel with
  | 0 => None
  | S fuel =>
      match context_cause n with
      | Some _ => Some (started, None)
      | None =>
          match connect n (fullAddress op) with
          | DialFailed e => Some (started, Some (ErrWrap "failed to connect to snapshot service" e))
          | CreateFailed _ => listen fuel (S n) op started
          | Stream requests => listen fuel (S n) op (started ++ requests)
          end
      end
  end.

Definition run (fuel : nat) (op : clientOptions) : M env (list SnapshotRequest * option error) :=
  found ← Exists (scriptDir op) TypeDir;
  err ← (if negb found then os_MkdirAll (scriptDir op) else mret None);
  match err with
  | Some e => mret ([], Some (ErrWrap "failed to create scripts directory" e))
  | None =>
      r ← some_or_panic (listen fuel 0 op []);
      mret (match r.2 with
            | Some e => (r.1, Some (ErrWrap "failed to listen for snapshot requests" e))
            | None => r
            end)
  end.

Definition module_options (SnapshotServiceIP : string) (SnapshotServicePort TimeoutInSeconds : Z) : clientOptions :=
  mkOptions "tcp" (SnapshotServiceIP +:+ ":" +:+ pretty SnapshotServicePort) (int64_wrap (TimeoutInSeconds * Second)) 0 defaultScriptsDir.

(** The loop ends with its context, or at the first address that cannot be
    dialed; until then a lost connection or stream is only replaced, and every
    request of every stream gets a goroutine, in order. *)
Theorem listen_ends (op : clientOptions) (k fuel n : nat) (started : list SnapshotRequest) :
  (∀ i, n ≤ i < n + k → context_cause i = None ∧ ∀ e, connect i (fullAddress op) ≠ DialFailed e) →
  is_Some (context_cause (n + k)) → k < fuel →
  listen fuel n op started =
    Some (started ++ mjoin ((λ i, match connect i (fullAddress op) with Stream l => l | _ => [] end) <$> seq n k), None).
Proof.
  revert fuel n started. induction k as [|k IH]; intros fuel n started Hk He Hf; (destruct fuel as [|fuel]; [lia|]); cbn.
  - rewrite Nat.add_0_r in He. destruct He as [x ->]. by rewrite app_nil_r.
  - destruct (Hk n) as [-> Hd]; [lia|]. rewrite <-Nat.add_succ_comm in He.
    destruct (connect n _) as [e|e|l] eqn:E; [by destruct (Hd e)| |].
    + rewrite (IH fuel (S n) started); [done|intros i Hi; apply Hk; lia|done|lia].
    + rewrite (IH fuel (S n) (started ++ l)); [by rewrite <-app_assoc|intros i Hi; apply Hk; lia|done|lia].
Qed.
End loop.

(** ** Executions *)
Inductive action := Receive (r : SnapshotRequest) | Stage (i : nat) | Timer (i : nat) | Canceled (i : nat) | Dog (i : nat).

Section executions.
Context `{SnapshotWorld} `{OsFaults}.

Definition is_returned (p : pc) : bool := match p with Returned _ => true | _ => false end.

Definition act (a : action) (s : system) : option system :=
  match a with
  | Receive r => Some (mkSystem (client s) (threads s ++ [mkThread r AtSeen]) (ctx_done s))
  | Stage i =>
      th ← threads s !! i;
      if is_returned (t_pc th) then None
      else '(c, p) ← stage (t_request th) (t_pc th) (client s);
        Some (mkSystem c (<[i := mkThread (t_request th) p]> (threads s)) (ctx_done s))
  | Timer i =>
      w ← watchdogs (client s) !! i;
      if decide (w_pc w = WSelect) then Some (set_client (set_dog i WFired (client s)) s) else None
  | Canceled i =>
      w ← watchdogs (client s) !! i;
      if decide (w_pc w = WSelect) then
        if dog_ctx_done w s then Some (set_client (set_dog i WDone (client s)) s) else None
      else None
  | Dog i =>
      w ← watchdogs (client s) !! i;
      if decide (w_pc w = WSelect) then None
      else if decide (w_pc w = WDone) then None
      else '(c, p) ← dog_stage (w_request w) (w_pc w) (client s); Some (set_client (set_dog i p c) s)
  end.

Lemma act_step a s s' : act a s = Some s' → step s s'.
Proof.
  destruct a as [r|i|i|i|i]; cbn.
  - intros [= <-]. apply step_receive.
  - destruct (threads s !! i) as [th|] eqn:Hi; [|done]. cbn. destruct (is_returned (t_pc th)) eqn:Er; [done|].
    destruct (stage _ _ _) as [[c p]|] eqn:E; [|done]. intros [= <-]. eapply step_stage; [done| |done]. intros e He. by rewrite He in Er.
  - destruct (watchdogs (client s) !! i) as [w|] eqn:Hi; [|done]. cbn. destruct (decide _); [|done]. intros [= <-]. by eapply step_timer.
  - destruct (watchdogs (client s) !! i) as [w|] eqn:Hi; [|done]. cbn. destruct (decide _); [|done].
    destruct (dog_ctx_done w s) eqn:Ed; [|done]. intros [= <-]. by eapply step_canceled.
  - destruct (watchdogs (client s) !! i) as [w|] eqn:Hi; [|done]. cbn. destruct (decide (w_pc w = WSelect)); [done|].
    destruct (decide (w_pc w = WDone)); [done|]. destruct (dog_stage _ _ _) as [[c p]|] eqn:E; [|done]. intros [= <-]. by eapply step_dog.
Qed.

Fixpoint acts (l : list action) (s : system) : option system :=
  match l with
  | [] => Some s
  | a :: l => s' ← act a s; acts l s'
  end.

Lemma acts_rtc l s s' : acts l s = Some s' → rtc step s s'.
Proof.
  revert s. induction l as [|a l IH]; intros s; cbn; [intros [= ->]; apply rtc_refl|].
  destruct (act a s) as [s1|] eqn:E; [|done]. intros Hl. eapply rtc_l; [by apply act_step in E|by apply IH].
Qed.
End executions.

Section examples.
#[local] Instance example_world : SnapshotWorld := {|
  script_outcome _ cmd := Succeeded;
  glob _ := Ok ["/sys/class/block/nvme0n1/nguid"; "/sys/class/block/nvme0n2/nguid"];
  dial_error _ _ := None;
  HandleResponsesFromGuest n _ := if Nat.eqb n 0 then Some (ErrMsg "unavailable") else None;
  wait_done _ := None;
|}.
#[local] Existing Instance no_faults.

Definition example_fs : fs := mkFs
  {["/etc/google/snapshots" := NDir; "/etc/google/snapshots/pre.sh" := NFile "fsfreeze"; "/etc/google/snapshots/post.sh" := NFile "thaw";
    "/sys/class/block/nvme0n1/nguid" := NFile "dead-beef
"; "/sys/class/block/nvme0n2/nguid" := NFile "cafe-0001
"]} 0.
Definition example_env : env := mkEnv example_fs [] 0 [] 0.
Definition example_options : clientOptions := module_options "169.254.169.254" 8081 60.
Definition example_start : system := start example_options example_env.
Definition pre7 : SnapshotRequest := mkRequest PRE_SNAPSHOT 7 "cafe0001,0000" "".
Definition post7 : SnapshotRequest := mkRequest POST_SNAPSHOT 7 "" "sda".

(** The request names the second device; the first attempt to answer fails. *)
Definition example_handled : bool :=
  match handleRequest pre7 (newClient example_options example_env) with
  | Some (c, None) =>
      bool_decide (ran (world c) = [["/etc/google/snapshots/pre.sh"; "/dev/nvme0n2"]]) &&
      bool_decide (sent (world c) = replicate 2 (mkResponse 7 PRE_SNAPSHOT 0 NO_ERROR)) &&
      bool_decide (log c = [Begin PRE_SNAPSHOT 7; Finish PRE_SNAPSHOT 7 NO_ERROR])
  | _ => false
  end.

Example handleRequest_ex : example_handled = true.
Proof. vm_compute. reflexivity. Qed.

Lemma handleRequest_outcome_witness :
  ∃ c' err, handleRequest pre7 (newClient example_options example_env) = Some (c', err) ∧ example_handled = true.
Proof.
  pose proof (handleRequest_outcome pre7 (newClient example_options example_env) (conj cache_new cache_new)) as Hw.
  cbv zeta in Hw. unfold wp in Hw. destruct (handleRequest pre7 _) as [[c' err]|]; [|destruct Hw].
  exists c', err. split; [reflexivity|exact handleRequest_ex].
Defined.

Definition stages_of (i n : nat) : list action := replicate n (Stage i).
Definition dogs_of (i n : nat) : list action := Timer i :: replicate n (Dog i).

(** The service asks for the freeze and never for the thaw. *)
Definition forgotten : list action := Receive pre7 :: stages_of 0 7 ++ dogs_of 0 4.

Definition reaches (l : list action) (check : system → bool) : bool :=
  match acts l example_start with Some s => check s | None => false end.

Lemma reaches_rtc l check : reaches l check = true → ∃ s, rtc step example_start s ∧ check s = true.
Proof.
  unfold reaches. destruct (acts l example_start) as [s|] eqn:E; [|done]. intros Hc. exists s. split; [by apply acts_rtc in E|done].
Qed.

#[local] Instance quiescent_dec s : Decision (Forall (λ th, is_returned (t_pc th) = true) (threads s) ∧ Forall (λ d, w_pc d = WDone) (watchdogs (client s))).
Proof. apply _. Defined.

Definition done_with (l : list event) (s : system) : bool :=
  bool_decide (Forall (λ th, is_returned (t_pc th) = true) (threads s) ∧ Forall (λ d, w_pc d = WDone) (watchdogs (client s))) &&
  negb (ctx_done s) && bool_decide (length (threads s) ≤ 1) && bool_decide (log (client s) = l).

Lemma done_with_spec l s : done_with l s = true → quiescent s ∧ ctx_done s = false ∧ single s ∧ log (client s) = l.
Proof.
  unfold done_with. rewrite !andb_true_iff, !bool_decide_eq_true, negb_true_iff. intros [[[[Ht Hd] Hc] Hs] Hl]. split_and!; [|done| |done].
  - split; [|done]. eapply Forall_impl; [exact Ht|]. cbn. intros th. destruct (t_pc th); try done. eauto.
  - intros i j a b Hi%lookup_lt_Some Hj%lookup_lt_Some. lia.
Qed.


Lemma client_settles_witness :
  ∃ s s', rtc step example_start s ∧ frozen 7 (log (client s)) = true ∧ rtc step s s' ∧ quiescent s'.
Proof.
  destruct (reaches_rtc (Receive pre7 :: stages_of 0 5) (λ s, frozen 7 (log (client s)))) as (s & Hr & Hf); [vm_compute; reflexivity|].
  destruct (client_settles example_options example_env s Hr) as (s' & Hs' & _ & _ & Hq & _). by exists s, s'.
Defined.

(** Two copies of a request that arrive together both pass the cache, which is
    read and written in two steps. *)
Theorem duplicate_runs_twice : ∃ s, rtc step example_start s ∧ log (client s) = [Begin PRE_SNAPSHOT 7; Begin PRE_SNAPSHOT 7].
Proof.
  destruct (reaches_rtc ([Receive pre7; Receive pre7; Stage 0; Stage 1] ++ stages_of 0 3 ++ stages_of 1 3)
    (λ s, bool_decide (log (client s) = [Begin PRE_SNAPSHOT 7; Begin PRE_SNAPSHOT 7]))) as (s & Hr & Hl); [vm_compute; reflexivity|].
  exists s. split; [done|]. by apply bool_decide_eq_true in Hl.
Qed.

(** A request to thaw that arrives while the pre script runs finds no watchdog
    to cancel: the watchdog started afterwards runs the post script again. *)
Theorem early_thaw_runs_twice : ∃ s, rtc step example_start s ∧
  log (client s) = [Begin PRE_SNAPSHOT 7; Begin POST_SNAPSHOT 7; Finish POST_SNAPSHOT 7 NO_ERROR; Finish PRE_SNAPSHOT 7 NO_ERROR; Begin POST_SNAPSHOT 7].
Proof.
  destruct (reaches_rtc ([Receive pre7; Receive post7] ++ stages_of 0 4 ++ stages_of 1 7 ++ stages_of 0 3 ++ dogs_of 0 3)
    (λ s, bool_decide (log (client s) = [Begin PRE_SNAPSHOT 7; Begin POST_SNAPSHOT 7; Finish POST_SNAPSHOT 7 NO_ERROR; Finish PRE_SNAPSHOT 7 NO_ERROR; Begin POST_SNAPSHOT 7])))
    as (s & Hr & Hl); [vm_compute; reflexivity|].
  exists s. split; [done|]. by apply bool_decide_eq_true in Hl.
Qed.
End examples.
End Snapshot.
