(* ===== verification/ScriptRunner.v ===== *)
(** * cmd/gce_metadata_script_runner: the scripts of the metadata

    scriptrunner.go: which scripts of the metadata an event runs, how a script
    is fetched, written to a temporary directory, run and removed, and which
    URLs are objects of Cloud Storage.  Parameters: the metadata, the network,
    the storage library, the parser of URLs, JSON and the scripts. *)
From S2P Require Import Prelude GoStrings GoStringFacts Os Retry SafeWrite Regexp Paths.

Module ScriptRunner.
Import Regexp Paths.

Definition storageURL : string := "storage.googleapis.com".
Definition defaultUniverseDomain : string := "googleapis.com".
Definition powerShellArgs : list string := ["-NoProfile"; "-NoLogo"; "-ExecutionPolicy"; "Unrestricted"; "-File"].
Definition defaultRetryPolicy : Retry.Policy := Retry.mkPolicy 3 (float_of_Z 1) Second None 0.

(** ** Cloud Storage URLs *)
Definition alnum (b : byte) : bool :=
  let n := Ascii.N_of_ascii b in ((97 <=? n) && (n <=? 122) || (48 <=? n) && (n <=? 57))%N.
(** The class [-_.a-z0-9]. *)
Definition bucket_char (b : byte) : bool :=
  alnum b || beqb b (byte_of 45) || beqb b (byte_of 95) || beqb b (byte_of 46).

Definition all_bytes : bytes := byte_of ∘ N.of_nat <$> seq 0 256.

(** [bucketRegex] and [objectRegex], the first and the second group. *)
Definition bucketRegex : pattern :=
  [(Some "1", OneOf ((λ b, [b]) <$> filter (λ b, alnum b = true) all_bytes)); (Some "1", Many bucket_char)].
Definition objectRegex : pattern := [(Some "2", Many1 any)].

Definition text (s : string) : pattern := [(None, lit s)].
Definition maybe (s : string) : pattern := [(None, OneOf [to_bytes s; []])].

Definition gsRegex : pattern := text "gs://" ++ bucketRegex ++ text "/" ++ objectRegex.

Definition http : pattern := text "http" ++ maybe "s" ++ text "://".

Definition supportedStorageURLRegexx (universeDomain : string) : list pattern :=
  [http ++ bucketRegex ++ text (".storage." +:+ universeDomain +:+ "/") ++ objectRegex;
   http ++ text ("storage.cloud." +:+ universeDomain +:+ "/") ++ bucketRegex ++ text "/" ++ objectRegex;
   http ++ maybe "commondata" ++ text ("storage." +:+ universeDomain +:+ "/") ++ bucketRegex ++ text "/" ++ objectRegex] ++
  if bool_decide (universeDomain = defaultUniverseDomain)
  then [http ++ text "storage.cloud.google.com/" ++ bucketRegex ++ text "/" ++ objectRegex] else [].

(** A pattern between [^] and [$]. *)
Fixpoint match_full (p : pattern) (l : bytes) : option (list bytes) :=
  match p with
  | [] => match l with [] => Some [] | _ => None end
  | (_, it) :: p => first_some (λ n, cons (take n l) <$> match_full p (drop n l)) (lengths it l)
  end.

Definition FindStringSubmatch (p : pattern) (s : string) : option (string * string) :=
  texts ← match_full p (to_bytes s); Some (group_text "1" p texts, group_text "2" p texts).

Definition parseGCS (universeDomain path : string) : string * string :=
  default ("", "") (first_some (λ re, FindStringSubmatch re path) (gsRegex :: supportedStorageURLRegexx universeDomain)).

(** ** Keys *)
Class ScriptConfig := {
  GOOS : string;
  RunDir : string;
  TempDir : string;
  DefaultShell : string;
  SysprepSpecialize : bool;
  Startup : bool;
  StartupWindows : bool;
  Shutdown : bool;
  ShutdownWindows : bool;
}.

Section keys.
Context `{ScriptConfig}.

Definition windows (os : string) : bool := bool_decide (os = "windows").

Definition event_prefix (prefix os : string) : result string :=
  if bool_decide (prefix = "specialize") then
    if negb SysprepSpecialize then Err (ErrMsg "sysprep-specialize scripts disabled in instance config")
    else Ok "sysprep-specialize"
  else if bool_decide (prefix = "startup") then
    if windows os then
      if negb StartupWindows then Err (ErrMsg "windows startup scripts disabled in instance config") else Ok ("windows-" +:+ prefix)
    else if negb Startup then Err (ErrMsg "startup scripts disabled in instance config") else Ok prefix
  else if bool_decide (prefix = "shutdown") then
    if windows os then
      if negb ShutdownWindows then Err (ErrMsg "windows shutdown scripts disabled in instance config") else Ok ("windows-" +:+ prefix)
    else if negb Shutdown then Err (ErrMsg "shutdown scripts disabled in instance config") else Ok prefix
  else Err (ErrMsg ("unsupported event type " +:+ prefix)).

Definition mdsScriptKeys (prefix os : string) : result (list string) :=
  match event_prefix prefix os with
  | Err e => Err e
  | Ok prefix =>
      let suffixes := if windows os then ["ps1"; "cmd"; "bat"; "url"] else ["url"] in
      Ok ((if windows os then [] else [prefix +:+ "-script"]) ++ ((λ suffix, prefix +:+ "-script-" +:+ suffix) <$> suffixes))
  end.
End keys.

(** An empty value counts as none. *)
Definition parseMetadata (md : gmap string string) (wanted : list string) : gmap string string :=
  foldl (λ found key, match md !! key with
                      | Some val => if bool_decide (val = "") then found else <[key := val]> found
                      | None => found
                      end) ∅ wanted.

Definition normalizeFilePathForWindows (filePath metadataKey : string) (gcsScriptURL : option string) : string :=
  match list_find (λ ext, HasSuffix metadataKey ("-" +:+ ext) || match gcsScriptURL with
                                                                 | Some path => HasSuffix path ("." +:+ ext)
                                                                 | None => false
                                                                 end = true) ["bat"; "cmd"; "ps1"; "exe"] with
  | Some (_, ext) => filePath +:+ "." +:+ ext
  | None => filePath
  end.

(** [strings.TrimLeft] of blanks. *)
Definition is_blank (b : byte) : bool :=
  bool_decide (b ∈ [byte_of 32; nl; byte_of 11; byte_of 12; byte_of 9; byte_of 13]).
Fixpoint drop_blanks (l : bytes) : bytes :=
  match l with b :: rest => if is_blank b then drop_blanks rest else l | [] => [] end.
Definition TrimLeft (s : string) : string := of_bytes (drop_blanks (to_bytes s)).

(** ** The world *)

(** What a body gives before its end or its error. *)
Record reader := mkReader { rd_data : string; rd_err : option error }.

Class ScriptWorld := {
  newStorageClient : nat → string → option error;
  NewReader : nat → string → string → result reader;
  http_Get : nat → string → result (Z * reader);
  LookupHost : nat → string → option error;
  wait_done : nat → option error;
  url_Parse : string → result string;             (* the path of the URL *)
  GetKeyRecursive : nat → string → result string;
  unmarshal_attributes : string → result (gmap string string);
  GetKey : nat → string → result string;
  run_stream : nat → list string → result (option error);
}.

(** The commands that ran, each with the file it was given as it was then. *)
Record env := mkEnv {
  efs : fs;
  ran : list (list string * option node);
  calls : nat;
}.

#[global] Instance env_HasFS : HasFS env := {| fs_of := efs; set_fs f e := mkEnv f (ran e) (calls e) |}.
#[global] Instance env_LawfulFS : LawfulFS env.
Proof. split; [done|done|by intros []]. Qed.

Section runner.
Context `{ScriptConfig} `{ScriptWorld} `{OsFaults} `{SafeWrite.TempNames}.

Definition ext {A} (f : nat → A) : M env A := λ e, Some (mkEnv (efs e) (ran e) (S (calls e)), f (calls e)).

Definition wait (d : Z) : M env (option error) := ext wait_done.

Definition retry {T} (zero : T) (policy : Retry.Policy) (f : M env (T * option error)) : M env (T * option error) :=
  r ← Retry.RunWithResponse zero wait (Z.to_nat (Retry.MaxAttempts policy)) policy (Some f); some_or_panic r.

Definition retry_result {T} (zero : T) (policy : Retry.Policy) (f : M env (result T)) : M env (result T) :=
  '(x, e) ← retry zero policy (r ← f; mret (match r with Ok x => (x, None) | Err e => (zero, Some e) end));
  mret (match e with Some e => Err e | None => Ok x end).

(** ** Downloads *)
Definition append_node (m : gmap string node) (p d : string) : gmap string node :=
  match resolve m p with
  | Some (q, NFile old) => <[q := NFile (old +:+ d)]> m
  | _ => m
  end.

(** [io.Copy] to a file that is open at its end. *)
Definition io_Copy (p : string) (r : reader) : M env (option error) :=
  with_fs "copy" p
    (λ ft m, (match fault_left ft with Some d => append_node m p d | None => m end, Some (fault_err ft)))
    (λ m, (append_node m p (rd_data r), rd_err r)).

Definition no_reader : reader := mkReader "" None.

Definition downloadGSURL (universeDomain bucket object file : string) : M env (option error) :=
  err ← ext (λ n, newStorageClient n universeDomain);
  match err with
  | Some e => mret (Some (ErrWrap "unable to create storage client" e))
  | None =>
      r ← retry_result no_reader defaultRetryPolicy (ext (λ n, NewReader n bucket object));
      match r with
      | Err e => mret (Some e)
      | Ok r => io_Copy file r
      end
  end.

Definition downloadURL (url file : string) : M env (option error) :=
  res ← retry_result no_reader defaultRetryPolicy
    (ext (λ n, match http_Get n url with
               | Err e => Err e
               | Ok (status, body) => if (status =? 200)%Z then Ok body else Err (ErrMsg "bad status")
               end));
  match res with
  | Err e => mret (Some e)
  | Ok body => io_Copy file body
  end.

(** [errors.Join] of an error and one that may be nil. *)
Definition join_errors (urlErr : error) (gcsErr : option error) : error := ErrJoin (urlErr :: option_list gcsErr).

Definition downloadScript (universeDomain path file : string) : M env (option error) :=
  let '(bucket, object) := parseGCS universeDomain path in
  let is_object := negb (bool_decide (bucket = "")) && negb (bool_decide (object = "")) in
  gcs ← (if is_object then (e ← downloadGSURL universeDomain bucket object file; mret (Some e)) else mret None);
  match gcs with
  | Some None => mret None
  | _ =>
      let gcsErr := ErrWrap "downloading object from GCS bucket" <$> mjoin gcs in
      let path := if is_object then "https://" +:+ storageURL +:+ "/" +:+ bucket +:+ "/" +:+ object else path in
      err ← downloadURL path file;
      mret ((λ e, join_errors (ErrWrap ("downloading from URL " +:+ path) e) gcsErr) <$> err)
  end.

Definition waitForDNS : M env (option error) :=
  '(_, e) ← retry tt (Retry.mkPolicy 20 (float_of_Z 1) (Second * 5) None 0) (e ← ext (λ n, LookupHost n storageURL); mret (tt, e));
  mret e.

(** [os.OpenFile] for writing, creating or truncating. *)
Definition open_truncate (p : string) : M env (option error) :=
  with_fs "open" p fail_err (λ m,
    match resolve m p with
    | Some (_, NDir) => (m, Some ErrIsDir)
    | _ => (write_node m p "", None)
    end).

Definition file_Close (p : string) : M env (option error) := with_fs "close" p fail_err (λ m, (m, None)).

Definition writeScriptToFile (universeDomain value filePath : string) (gcsScriptURL : option string) : M env (option error) :=
  match gcsScriptURL with
  | Some _ =>
      e ← waitForDNS;
      match e with
      | Some e => mret (Some (ErrFmt "error waiting for DNS" e))
      | None =>
          e ← open_truncate filePath;
          match e with
          | Some e => mret (Some (ErrFmt "error opening temp file" e))
          | None =>
              e ← downloadScript universeDomain value filePath;
              c ← file_Close filePath;
              mret (match e with
                    | Some e => Some e
                    | None => ErrWrap "error closing temp file" <$> c
                    end)
          end
      end
  | None =>
      e ← os_WriteFile filePath (TrimLeft value);
      mret (ErrWrap "error writing temp file" <$> e)
  end.

(** ** Running a script *)
Definition script_command (filePath : string) : list string :=
  if HasSuffix filePath ".ps1" then "powershell.exe" :: powerShellArgs ++ [filePath]
  else if windows GOOS then [filePath]
  else [DefaultShell; "-c"; filePath].

Definition runScript (filePath metadataKey : string) : M env (option error) := λ e,
  let cmd := script_command filePath in
  Some (mkEnv (efs e) (ran e ++ [(cmd, nodes (efs e) !! filePath)]) (S (calls e)),
    match run_stream (calls e) cmd with
    | Err x => Some (ErrFmt ("run script failed " +:+ metadataKey) x)
    | Ok result => result
    end).

(** [os.MkdirTemp]: the random names are those of [os.CreateTemp]. *)
Definition os_MkdirTemp (dir pattern : string) : M env (result string) :=
  t ← gets (λ s, ticks (efs s));
  let dir := if bool_decide (dir = "") then TempDir else dir in
  with_fs "mkdirtemp" dir fail_result (λ m,
    match SafeWrite.free_name m (dir +:+ "/" +:+ pattern) t 0 SafeWrite.temp_tries with
    | Some p => (<[p := NDir]> m, Ok p)
    | None => (m, Err ErrExist)
    end).

Definition setupAndRunScript (universeDomain metadataKey value : string) : M env (option error) :=
  let is_url := HasSuffix metadataKey "-url" in
  let value := if is_url then TrimSpace value else value in
  let parsed := if is_url then match url_Parse value with Ok u => Ok (Some u) | Err e => Err e end else Ok None in
  match parsed with
  | Err e => mret (Some (ErrFmt "unable to parse URL" e))
  | Ok gcsScriptURL =>
      tmpDir ← os_MkdirTemp RunDir "metadata-scripts";
      match tmpDir with
      | Err e => mret (Some e)
      | Ok tmpDir =>
          let tmpFile := path_Join [tmpDir; metadataKey] in
          let tmpFile := if windows GOOS then normalizeFilePathForWindows tmpFile metadataKey gcsScriptURL else tmpFile in
          err ← writeScriptToFile universeDomain value tmpFile gcsScriptURL;
          err ← (match err with
                 | Some e => mret (Some (ErrFmt "unable to write script to file" e))
                 | None => runScript tmpFile metadataKey
                 end);
          _ ← os_RemoveAll tmpDir;
          mret err
      end
  end.

(** ** An event *)
Definition getMetadataAttributes (key : string) : M env (result (gmap string string)) :=
  resp ← ext (λ n, GetKeyRecursive n key);
  mret (match resp with
        | Err e => Err (ErrWrap ("unable to get metadata attributes for key " +:+ key) e)
        | Ok resp => unmarshal_attributes resp
        end).

(** The first level of attributes that has any of the keys. *)
Definition readExistingKeys (wanted : list string) : M env (result (gmap string string)) :=
  r ← for_until ["/instance/attributes"; "/project/attributes"] tt (λ _ attrs,
    md ← getMetadataAttributes attrs;
    mret (match md with
          | Err e => inr (Err e)
          | Ok md => let found := parseMetadata md wanted in if bool_decide (found = ∅) then inl tt else inr (Ok found)
          end));
  mret (match r with inl _ => Ok ∅ | inr x => x end).

Definition handleEvent (event : string) : M env (option error) :=
  match mdsScriptKeys event GOOS with
  | Err e => mret (Some (ErrWrap "unable to read keys for event" e))
  | Ok wantedKeys =>
      scripts ← readExistingKeys wantedKeys;
      match scripts with
      | Err e => mret (Some (ErrWrap "unable to read keys" e))
      | Ok scripts =>
          if bool_decide (scripts = ∅) then mret None
          else
            domain ← ext (λ n, GetKey n "universe/universe-domain");
            let universeDomain := match domain with Ok d => d | Err _ => defaultUniverseDomain end in
            _ ← for_each wantedKeys (λ key,
              match scripts !! key with
              | None => mret tt
              | Some value => _ ← setupAndRunScript universeDomain key value; mret tt
              end);
            mret None
      end
  end.
End runner.

(** ** Which URLs are objects *)
Lemma match_full_sound p l texts : match_full p l = Some texts → texts_ok p texts ∧ l = concat texts.
Proof.
  revert l texts. induction p as [|[g it] p IH]; intros l texts; simpl.
  { destruct l; [|done]. intros [= <-]. split; [constructor|done]. }
  intros Hm. apply first_some_Some in Hm as (n & Hn & Hm). destruct (match_full p (drop n l)) as [ts|] eqn:E; [|done].
  injection Hm as <-. destruct (IH _ _ E) as [Hok Hp]. apply elem_of_lengths in Hn as [Hl Hit]. split; [by constructor|].
  simpl. rewrite <-Hp. by rewrite take_drop.
Qed.

Lemma match_full_complete p texts : texts_ok p texts → is_Some (match_full p (concat texts)).
Proof.
  revert texts. induction p as [|[g it] p IH]; intros texts Hok; [inversion Hok; by eexists|].
  inversion Hok as [|? t ? ts Ht Hts]; subst. simpl.
  destruct (first_some _ _) eqn:E; [by eexists|]. exfalso.
  apply (first_some_None _ _ (length t)) in E.
  - cbn beta in E. rewrite take_app_length, drop_app_length in E. destruct (IH ts Hts) as [x Hx]. by rewrite Hx in E.
  - apply elem_of_lengths. rewrite length_app, take_app_length. split; [lia|done].
Qed.

Definition valid_bucket (b : string) : Prop :=
  match to_bytes b with c :: rest => alnum c = true ∧ Forall (λ x, bucket_char x = true) rest | [] => False end.
Definition valid_object (o : string) : Prop := o ≠ "" ∧ lacks nl o.

#[global] Instance valid_bucket_dec b : Decision (valid_bucket b).
Proof. unfold valid_bucket. destruct (to_bytes b); apply _. Defined.

Lemma alnum_alternatives c : alnum c = true → [c] ∈ (λ b, [b]) <$> filter (λ b, alnum b = true) all_bytes.
Proof.
  intros Hc. apply list_elem_of_fmap. exists c. split; [done|]. apply list_elem_of_filter. split; [done|]. unfold all_bytes, compose.
  apply list_elem_of_fmap. exists (N.to_nat (Ascii.N_of_ascii c)). rewrite N2Nat.id. split; [symmetry; apply Ascii.ascii_N_embedding|].
  apply elem_of_seq. pose proof (Ascii.N_ascii_bounded c). lia.
Qed.

#[local] Opaque all_bytes.

Lemma alternatives_alnum t : t ∈ (λ b, [b]) <$> filter (λ b, alnum b = true) all_bytes → ∃ c, t = [c] ∧ alnum c = true.
Proof. intros (c & -> & Hc)%list_elem_of_fmap. apply list_elem_of_filter in Hc as [Hc _]. eauto. Qed.

Lemma bucket_texts (c : byte) rest : alnum c = true → Forall (λ x, bucket_char x = true) rest → texts_ok bucketRegex [[c]; rest].
Proof. intros Hc Hr. unfold bucketRegex. constructor; [by apply alnum_alternatives|]. constructor; [exact Hr|constructor]. Qed.

Lemma object_texts o : valid_object o → texts_ok objectRegex [to_bytes o].
Proof.
  intros [Hne Hl]. unfold objectRegex. constructor; [|constructor]. cbn. split.
  - intros E. apply Hne, to_bytes_eq. by rewrite E.
  - apply Forall_forall. intros b Hb. unfold any. apply negb_true_iff, beqb_ne. by intros ->.
Qed.

Lemma texts_ok_app p q ts us : texts_ok p ts → texts_ok q us → texts_ok (p ++ q) (ts ++ us).
Proof. apply Forall2_app. Qed.

Lemma texts_ok_app_inv p q ts : texts_ok (p ++ q) ts → ∃ a b, ts = a ++ b ∧ texts_ok p a ∧ texts_ok q b.
Proof. intros Ht. apply Forall2_app_inv_l in Ht as (a & b & Ha & Hb & ->). eauto. Qed.

(** The groups of a match that ends with a bucket, a text and an object. *)
Lemma bucket_char_slash : bucket_char slash = false ∧ alnum slash = false.
Proof. done. Qed.

Lemma valid_bucket_slash c rest : alnum c = true → Forall (λ x, bucket_char x = true) rest → slash ∉ c :: rest.
Proof.
  intros Hc Hr Hin. apply elem_of_cons in Hin as [<-|Hin]; [done|]. rewrite Forall_forall in Hr. by specialize (Hr _ Hin).
Qed.

Lemma split_unique (a a' b b' : bytes) (c : byte) : c ∉ a → c ∉ a' → a ++ c :: b = a' ++ c :: b' → a = a' ∧ b = b'.
Proof.
  revert a'. induction a as [|x a IH]; intros [|y a'] Ha Ha' E; cbn in E.
  - by injection E as ->.
  - injection E as -> _. exfalso. apply Ha'. by left.
  - injection E as -> _. exfalso. apply Ha. by left.
  - injection E as -> E. apply not_elem_of_cons in Ha as [_ Ha], Ha' as [_ Ha']. by destruct (IH a' Ha Ha' E) as [-> ->].
Qed.

(** A Cloud Storage URL is taken apart as it was put together: a bucket name
    of the characters buckets have, and an object name of any characters but
    line feeds, slashes included. *)
Theorem parseGCS_gs (universeDomain b o : string) :
  valid_bucket b → valid_object o → parseGCS universeDomain ("gs://" +:+ b +:+ "/" +:+ o) = (b, o).
Proof.
  intros Hb Ho. unfold valid_bucket in Hb. destruct (to_bytes b) as [|c rest] eqn:Eb; [done|]. destruct Hb as [Hc Hr].
  assert (Hok : texts_ok gsRegex ([to_bytes "gs://"] ++ [[c]; rest] ++ [to_bytes "/"] ++ [to_bytes o])).
  { unfold gsRegex. apply texts_ok_app; [repeat constructor|]. apply texts_ok_app; [by apply bucket_texts|].
    apply texts_ok_app; [repeat constructor|by apply object_texts]. }
  assert (Hpath : to_bytes ("gs://" +:+ b +:+ "/" +:+ o) = concat ([to_bytes "gs://"] ++ [[c]; rest] ++ [to_bytes "/"] ++ [to_bytes o])).
  { rewrite !to_bytes_app, Eb. cbn. by rewrite <-?app_assoc, app_nil_r. }
  unfold parseGCS. cbn [first_some]. unfold FindStringSubmatch at 1. rewrite Hpath.
  destruct (match_full_complete _ _ Hok) as [texts Hm]. rewrite Hm. cbn [mbind option_bind].
  apply match_full_sound in Hm as [Ht El]. clear Hok Hpath.
  unfold gsRegex, text, bucketRegex, objectRegex, texts_ok in Ht. cbn [app] in Ht.
  inversion Ht as [|? t1 ? ? H1 T1]; subst. inversion T1 as [|? t2 ? ? H2 T2]; subst. inversion T2 as [|? t3 ? ? H3 T3]; subst.
  inversion T3 as [|? t4 ? ? H4 T4]; subst. inversion T4 as [|? t5 ? ? H5 T5]; subst. inversion T5; subst. clear Ht T1 T2 T3 T4 T5.
  cbn in H1, H2, H3, H4, H5. apply list_elem_of_singleton in H1, H4. subst t1 t4. apply alternatives_alnum in H2 as (c' & -> & Hc').
  cbn in El. apply (app_inv_head (to_bytes "gs://")) in El. rewrite !app_nil_r in El.
  destruct (split_unique (c :: rest) (c' :: t3) (to_bytes o) t5 slash) as [E1 E2]; [by apply valid_bucket_slash..|exact El|].
  injection E1 as <- <-. subst t5. cbn. unfold group_text. cbn.
  repeat first [rewrite bool_decide_true by done|rewrite bool_decide_false by done]. cbn.
  rewrite !app_nil_r, of_to_bytes. f_equal. change (of_bytes (c :: rest) = b). rewrite <-Eb. apply of_to_bytes.
Qed.

(** ** A script leaves nothing behind *)
Section runs.
Context `{ScriptConfig} `{ScriptWorld} `{OsFaults} `{SafeWrite.TempNames}.
Hypothesis suffix_ok : ∀ t n, SafeWrite.temp_suffix t n ≠ "" ∧ lacks slash (SafeWrite.temp_suffix t n).

(** Outside of [dir] the nodes are as in [m0], and [f] is no link. *)
Definition inside (dir f : string) (m0 m : gmap string node) : Prop :=
  (∀ q, below dir q = false → m !! q = m0 !! q) ∧ ∀ t, m !! f ≠ Some (NLink t).

Definition stays (dir f : string) (m0 : gmap string node) : relation env := λ s s',
  ran s' = ran s ∧ (inside dir f m0 (nodes (efs s)) → inside dir f m0 (nodes (efs s'))).

#[local] Instance stays_preorder dir f m0 : PreOrder (stays dir f m0).
Proof. split; [done|]. intros a b c [E1 H1'] [E2 H2']. split; [congruence|auto]. Qed.

Lemma inside_insert dir f m0 m d : below dir f = true → inside dir f m0 m → inside dir f m0 (<[f := NFile d]> m).
Proof.
  intros Hf [Hm Hl]. split.
  - intros q Hq. rewrite lookup_insert_ne by congruence. by apply Hm.
  - intros t. by rewrite lookup_insert_eq.
Qed.

Lemma inside_resolve dir f m0 m q nd : inside dir f m0 m → resolve m f = Some (q, nd) → q = f.
Proof.
  intros [_ Hl] Hr. destruct (m !! f) as [x|] eqn:E; [|by rewrite resolve_none in Hr].
  unfold resolve in Hr. rewrite (resolve_link_here 40 m f x) in Hr; [by injection Hr as <- _|done|]. intros t ->. by apply (Hl t).
Qed.

Lemma inside_write dir f m0 m d : below dir f = true → inside dir f m0 m → inside dir f m0 (write_node m f d).
Proof.
  intros Hf Hm. unfold write_node. destruct (resolve m f) as [[q nd]|] eqn:E; [|by apply inside_insert].
  apply (inside_resolve dir f m0) in E as ->; [|done]. by apply inside_insert.
Qed.

Lemma inside_append dir f m0 m d : below dir f = true → inside dir f m0 m → inside dir f m0 (append_node m f d).
Proof.
  intros Hf Hm. unfold append_node. destruct (resolve m f) as [[q []]|] eqn:E; try done.
  apply (inside_resolve dir f m0) in E as ->; [|done]. by apply inside_insert.
Qed.

Lemma stays_fs {A} dir f m0 name p onf (k : gmap string node → gmap string node * A) :
  (∀ ft m, inside dir f m0 m → inside dir f m0 (onf ft m).1) → (∀ m, inside dir f m0 m → inside dir f m0 (k m).1) →
  respects (stays dir f m0) (with_fs name p onf k).
Proof.
  intros Hf Hk s s' a. unfold with_fs. destruct (os_fault _ _ _) as [ft|].
  - specialize (Hf ft (nodes (efs s))). cbn. destruct (onf ft _). intros [= <- _]. by split.
  - specialize (Hk (nodes (efs s))). cbn. destruct (k _). intros [= <- _]. by split.
Qed.

Lemma stays_ext {A} dir f m0 (g : nat → A) : respects (stays dir f m0) (ext g).
Proof. intros s s' a [= <- _]. by split. Qed.

Lemma total_ext_call {A} (g : nat → A) : total (ext g).
Proof. intros s. by eexists. Qed.

Lemma stays_retry {T} dir f m0 (zero : T) policy g : respects (stays dir f m0) g → respects (stays dir f m0) (retry zero policy g).
Proof.
  intros Hg. unfold retry. apply respects_bind; [apply _| |intros o; apply respects_some_or_panic; apply _].
  apply Retry.respects_RunWithResponse; [apply _|done|]. intros d. apply stays_ext.
Qed.

Lemma total_retry {T} (zero : T) policy g : total g → (0 < Retry.MaxAttempts policy < 2 ^ 63)%Z → total (retry zero policy g).
Proof.
  intros Hg Hp s. unfold retry, mbind, M_bind.
  assert (Hw : wp (Retry.RunWithResponse zero wait (Z.to_nat (Retry.MaxAttempts policy)) policy (Some g)) (λ o _, is_Some o) s).
  { unfold Retry.RunWithResponse. eapply wp_mono; [apply (Retry.wp_retry_loop wait (λ _ _, True) (λ _, True))|]; try done; try lia.
    - intros s1 _. unfold wp. destruct (Hg s1) as [[s2 r] ->]. split; [done|]. by destruct r.2.
    - intros d s1 x _ _. unfold wp, wait, ext. by destruct (wait_done _).
    - by intros ? ? (x & -> & _). }
  unfold wp in Hw. destruct (Retry.RunWithResponse _ _ _ _ _ s) as [[s2 o]|]; [|done]. destruct Hw as [x ->]. by eexists.
Qed.

Section place.
Variables (dir f : string) (m0 : gmap string node).
Hypothesis f_below : below dir f = true.
Abbreviation R := (stays dir f m0).

Lemma stays_retry_result {T} (zero : T) policy g : respects R g → respects R (retry_result zero policy g).
Proof.
  intros Hg. unfold retry_result. apply respects_bind; [apply _| |intros []; apply respects_ret; apply _]. apply stays_retry.
  apply respects_bind; [apply _|done|]. intros []; apply respects_ret; apply _.
Qed.

Lemma stays_Copy r : respects R (io_Copy f r).
Proof. apply stays_fs; intros; cbn; [destruct (fault_left _); [by apply inside_append|done]|by apply inside_append]. Qed.

Lemma stays_download dom path : respects R (downloadScript dom path f).
Proof.
  unfold downloadScript. destruct (parseGCS dom path) as [b o]. unfold downloadGSURL, downloadURL.
  respects_solve; first [apply stays_ext|apply stays_retry_result, stays_ext|apply stays_Copy].
Qed.

Lemma stays_write dom value url : respects R (writeScriptToFile dom value f url).
Proof.
  unfold writeScriptToFile, waitForDNS, open_truncate, file_Close. destruct url as [u|].
  - apply respects_bind; [apply _| |intros [e|]; [apply respects_ret; apply _|]].
    { apply respects_bind; [apply _| |intros []; apply respects_ret; apply _]. apply stays_retry.
      apply respects_bind; [apply _|apply stays_ext|intros; apply respects_ret; apply _]. }
    apply respects_bind; [apply _| |intros [e|]; [apply respects_ret; apply _|]].
    { apply stays_fs; [done|]. intros m Hm. destruct (resolve m f) as [[q []]|]; cbn; try done; by apply inside_write. }
    apply respects_bind; [apply _|apply stays_download|intros e]. apply respects_bind; [apply _|by apply stays_fs|].
    intros c. apply respects_ret; apply _.
  - apply respects_bind; [apply _| |intros; apply respects_ret; apply _]. unfold os_WriteFile. apply stays_fs.
    + intros ft m Hm. cbn. destruct (fault_left ft); [by apply inside_write|done].
    + intros m Hm. destruct (resolve m f) as [[q []]|]; cbn; try done; by apply inside_write.
Qed.
End place.

Lemma total_write dom value f url : total (writeScriptToFile dom value f url).
Proof.
  assert (Hrr : ∀ {T} (zero : T) g, total g → total (retry_result zero defaultRetryPolicy g)).
  { intros T zero g Hg. unfold retry_result. apply total_bind; [|intros []; apply total_ret]. apply total_retry; [|done].
    apply total_bind; [done|]. intros []; apply total_ret. }
  unfold writeScriptToFile, waitForDNS, downloadScript, downloadGSURL, downloadURL, open_truncate, file_Close, io_Copy, os_WriteFile.
  total_solve; try apply total_with_fs; try apply total_ext_call; try (apply Hrr; total_solve; apply total_ext_call).
  all: apply total_retry; [|done]; total_solve; apply total_ext_call.
Qed.
End runs.

(** ** One script *)
Section script.
Context `{ScriptConfig} `{ScriptWorld} `{OsFaults} `{SafeWrite.TempNames}.
Hypothesis suffix_ok : ∀ t n, SafeWrite.temp_suffix t n ≠ "" ∧ lacks slash (SafeWrite.temp_suffix t n).
Hypothesis unix : windows GOOS = false.
(** Removing the temporary directory does not fail. *)
Hypothesis removes : ∀ n p, os_fault n "removeall" p = None.

Definition temp_root : string := if bool_decide (RunDir = "") then TempDir else RunDir.
Hypothesis root_clean : clean_dir temp_root.

(** Nothing is below a path that does not exist. *)
Definition rooted (m : gmap string node) : Prop := ∀ p q, p ≠ "" → m !! p = None → below p q = true → m !! q = None.

Lemma temp_dir_clean t n : clean_dir (in_dir temp_root ("metadata-scripts" +:+ SafeWrite.temp_suffix t n)).
Proof.
  destruct (suffix_ok t n) as [Hne Hl]. assert (Hs : simple_name ("metadata-scripts" +:+ SafeWrite.temp_suffix t n)).
  { split_and!; try done. unfold lacks in *. rewrite to_bytes_app. apply not_elem_of_app. split; [by apply (bool_decide_unpack _)|done]. }
  split_and!; [apply HasPrefix_app_l, root_clean|by apply Clean_in_dir|].
  unfold in_dir. intros E. apply (f_equal to_bytes) in E. rewrite !to_bytes_app in E. apply (f_equal length) in E. rewrite !length_app in E. cbn in E. lia.
Qed.

Lemma free_name_temp m t n tries p :
  SafeWrite.free_name m (temp_root +:+ "/" +:+ "metadata-scripts") t n tries = Some p →
  m !! p = None ∧ clean_dir p.
Proof.
  revert n. induction tries as [|tries IH]; intros n; [done|]. cbn [SafeWrite.free_name].
  set (q := _ +:+ SafeWrite.temp_suffix t n). destruct (m !! q) eqn:E; [apply IH|]. intros Hp. injection Hp as <-. split; [done|]. unfold q.
  replace (_ +:+ SafeWrite.temp_suffix t n) with (in_dir temp_root ("metadata-scripts" +:+ SafeWrite.temp_suffix t n)); [apply temp_dir_clean|].
  unfold in_dir. by rewrite !append_assoc.
Qed.

(** Writing a script that is not a URL. *)
Lemma wp_write_bare dom value f s : nodes (efs s) !! f = None →
  wp (writeScriptToFile dom value f None) (λ e s', e = None → nodes (efs s') !! f = Some (NFile (TrimLeft value))) s.
Proof.
  intros Hf. unfold writeScriptToFile. apply wp_bind. unfold os_WriteFile. apply wp_with_fs; intros; apply wp_ret; cbn; [done|].
  intros _. cbn in Hf. rewrite resolve_none by done. cbn. unfold write_node. rewrite resolve_none by done. apply lookup_insert_eq.
Qed.

Definition ran_once (key value : string) (s : env) (err : option error) (s' : env) : Prop :=
  (ran s' = ran s ∧ is_Some err) ∨
  ∃ dir nd, ran s' = ran s ++ [(script_command (in_dir dir key), nd)] ∧
    (HasSuffix key "-url" = false → nd = Some (NFile (TrimLeft value))).

Lemma wp_setupAndRunScript dom key value s : simple_name key → rooted (nodes (efs s)) →
  wp (setupAndRunScript dom key value) (λ err s', nodes (efs s') = nodes (efs s) ∧ ran_once key value s err s') s.
Proof.
  intros Hkey Hroot. unfold setupAndRunScript.
  set (value' := if HasSuffix key "-url" then TrimSpace value else value).
  assert (Hparsed : ∃ parsed, (if HasSuffix key "-url" then match url_Parse value' with Ok u => Ok (Some u) | Err e => Err e end else Ok None) = parsed ∧
    ∀ u, parsed = Ok u → HasSuffix key "-url" = false → u = None ∧ value' = value).
  { eexists. split; [done|]. unfold value'. intros u. destruct (HasSuffix key "-url"); [done|]. by intros [= <-]. }
  destruct Hparsed as (parsed & -> & Hurl). destruct parsed as [u|e]; [|apply wp_ret; split; [done|by left]].
  apply wp_bind. unfold os_MkdirTemp. apply wp_bind, wp_gets. fold temp_root.
  apply wp_with_fs; intros; cbn [fst snd fail_result]; [apply wp_ret; split; [done|by left]|].
  change (nodes (fs_of s)) with (nodes (efs s)). set (m := nodes (efs s)). destruct (SafeWrite.free_name _ _ _ _ _) as [p|] eqn:Ef; cbn [fst snd];
    [|apply wp_ret; split; [done|by left]].
  apply free_name_temp in Ef as [Hp Hclean]. rewrite unix. rewrite path_Join_name by done. set (f := in_dir p key).
  assert (Hb : below p f = true) by apply below_in_dir.
  assert (Hpne : p ≠ "") by (intros ->; by destruct Hclean).
  assert (Hfp : f ≠ p).
  { unfold f, in_dir. intros E. apply (f_equal to_bytes) in E. rewrite !to_bytes_app in E. apply (f_equal length) in E. rewrite !length_app in E. cbn in E. lia. }
  assert (Hf0 : <[p:=NDir]> m !! f = None) by (rewrite lookup_insert_ne by done; by apply (Hroot p f)).
  set (s1 := set_fs _ s). assert (Hin1 : inside p f m (nodes (efs s1))).
  { split; [|intros t; cbn; by rewrite Hf0]. intros q Hq. cbn. rewrite lookup_insert_ne; [done|]. intros ->.
    unfold below in Hq. by rewrite bool_decide_true in Hq. }
  apply wp_bind. destruct (total_write dom value' f u s1) as [[s2 err] Ew]. unfold wp. rewrite Ew.
  destruct (stays_write p f m Hb dom value' u _ _ _ Ew) as [Hran Hstay]. specialize (Hstay Hin1).
  assert (Hnd : err = None → HasSuffix key "-url" = false → nodes (efs s2) !! f = Some (NFile (TrimLeft value))).
  { intros -> Hs. destruct (Hurl _ eq_refl Hs) as [-> Ev]. pose proof (wp_write_bare dom value f s1 Hf0) as Hw. unfold wp in Hw.
    rewrite Ev in Ew. rewrite Ew in Hw. by apply Hw. }
  assert (Hend : ∀ s3 (err3 : option error), nodes (efs s3) = nodes (efs s2) → ran_once key value s err3 s3 →
    wp (_ ← os_RemoveAll p; mret err3) (λ err s', nodes (efs s') = nodes (efs s) ∧ ran_once key value s err s') s3).
  { intros s3 err3 Hn Hr. apply wp_bind. apply wp_with_fs; intros; [by rewrite removes in *|]. apply wp_ret. split; [|exact Hr].
    cbn. rewrite Hn. apply map_eq. intros q. unfold remove_below. destruct (below p q) eqn:Eq.
    - transitivity (None : option node); [|symmetry; by apply (Hroot p q)].
      apply map_lookup_filter_None. right. intros x _. cbn. by rewrite Eq.
    - destruct Hstay as [Ho _]. fold m. rewrite <-(Ho q Eq). destruct (nodes (efs s2) !! q) as [x|] eqn:Ex.
      + by apply map_lookup_filter_Some.
      + apply map_lookup_filter_None. by left. }
  apply wp_bind. destruct err as [e|].
  - apply wp_ret, Hend; [done|]. left. by rewrite Hran.
  - unfold wp at 1, runScript. apply Hend; [done|]. right. exists p, (nodes (efs s2) !! f). cbn. rewrite Hran. split; [done|].
    intros Hs. by apply Hnd.
Qed.

(** ** Events *)

(** The keys an event reads are those of its prefix, in their order. *)
Lemma mdsScriptKeys_unix event keys : mdsScriptKeys event GOOS = Ok keys →
  (keys = ["startup-script"; "startup-script-url"] ∧ event = "startup" ∧ Startup = true) ∨
  (keys = ["shutdown-script"; "shutdown-script-url"] ∧ event = "shutdown" ∧ Shutdown = true) ∨
  (keys = ["sysprep-specialize-script"; "sysprep-specialize-script-url"] ∧ event = "specialize" ∧ SysprepSpecialize = true).
Proof.
  unfold mdsScriptKeys, event_prefix. rewrite unix. intros Hk.
  repeat case_bool_decide; repeat case_match; try done; simplify_eq/=; rewrite ?negb_false_iff in *; tauto.
Qed.

Lemma mdsScriptKeys_simple event keys : mdsScriptKeys event GOOS = Ok keys → Forall simple_name keys.
Proof.
  intros [(-> & _)|[(-> & _)|(-> & _)]]%mdsScriptKeys_unix; repeat constructor; by apply (bool_decide_unpack _).
Qed.

Definition attributes (n : nat) (level : string) : result (gmap string string) :=
  match GetKeyRecursive n level with
  | Err e => Err (ErrWrap ("unable to get metadata attributes for key " +:+ level) e)
  | Ok resp => unmarshal_attributes resp
  end.

(** The scripts an event finds: those of the instance, and only if it has none
    those of the project. *)
Definition finds (n : nat) (wanted : list string) (scripts : gmap string string) : Prop :=
  ∃ md, attributes n "/instance/attributes" = Ok md ∧
    (scripts = parseMetadata md wanted ∨
     (parseMetadata md wanted = ∅ ∧
      ∃ md', attributes (S n) "/project/attributes" = Ok md' ∧ scripts = parseMetadata md' wanted)).

Lemma wp_readExistingKeys wanted s :
  wp (readExistingKeys wanted) (λ r s', efs s' = efs s ∧ ran s' = ran s ∧ ∀ scripts, r = Ok scripts → finds (calls s) wanted scripts ∨ scripts = ∅) s.
Proof.
  unfold readExistingKeys. cbn [for_until]. apply wp_bind.
  assert (Hget : ∀ s1 l (Q : result (gmap string string) → env → Prop), Q (attributes (calls s1) l) (mkEnv (efs s1) (ran s1) (S (calls s1))) →
    wp (getMetadataAttributes l) Q s1) by done.
  apply wp_bind, wp_bind, Hget. destruct (attributes (calls s) "/instance/attributes") as [md|e] eqn:E1; [|by apply wp_ret].
  apply wp_ret. cbv zeta. case_bool_decide as Hd.
  2: { apply wp_ret, wp_ret. split_and!; [done..|]. intros ? [= <-]. left. exists md. auto. }
  cbn [for_until]. apply wp_bind, wp_bind, Hget. cbn [calls efs ran].
  destruct (attributes (S (calls s)) "/project/attributes") as [md'|e] eqn:E2; [|by apply wp_ret].
  apply wp_ret. cbv zeta. case_bool_decide as Hd'; repeat apply wp_ret; (split_and!; [done..|]); intros ? [= <-]; [by right|].
  left. exists md. eauto 10.
Qed.

(** Runs of some of the keys, in their order. *)
Fixpoint key_runs (scripts : gmap string string) (keys : list string) (l : list (list string * option node)) : Prop :=
  match keys with
  | [] => l = []
  | key :: keys =>
      key_runs scripts keys l ∨
      ∃ value dir nd l', scripts !! key = Some value ∧ l = (script_command (in_dir dir key), nd) :: l' ∧
        (HasSuffix key "-url" = false → nd = Some (NFile (TrimLeft value))) ∧ key_runs scripts keys l'
  end.

Lemma wp_scripts dom scripts keys s : Forall simple_name keys → rooted (nodes (efs s)) →
  wp (for_each keys (λ key, match scripts !! key with
                            | None => mret tt
                            | Some value => _ ← setupAndRunScript dom key value; mret tt
                            end))
     (λ _ s', nodes (efs s') = nodes (efs s) ∧ ∃ l, ran s' = ran s ++ l ∧ key_runs scripts keys l) s.
Proof.
  revert s. induction keys as [|key keys IH]; intros s Hk Hr; [apply wp_ret; split; [done|]; exists []; by rewrite app_nil_r|].
  apply Forall_cons in Hk as [Hkey Hk]. cbn [for_each]. apply wp_bind. destruct (scripts !! key) as [value|] eqn:E.
  - apply wp_bind. eapply wp_mono; [by apply wp_setupAndRunScript|]. intros err s1 [Hn Hrun]. apply wp_ret. rewrite <-Hn in Hr.
    eapply wp_mono; [by apply IH|]. intros _ s2 [Hn2 (l & El & Hl)]. split; [congruence|].
    destruct Hrun as [[E1 _]|(dir & nd & E1 & Hnd)]; rewrite E1 in El.
    + exists l. split; [done|]. by left.
    + exists ((script_command (in_dir dir key), nd) :: l). rewrite <-app_assoc in El. split; [done|]. right. eauto 10.
  - apply wp_ret. eapply wp_mono; [by apply IH|]. intros _ s2 [Hn2 (l & El & Hl)]. split; [done|]. exists l. split; [done|]. by left.
Qed.

Lemma wp_handleEvent event s : rooted (nodes (efs s)) →
  wp (handleEvent event) (λ err s', nodes (efs s') = nodes (efs s) ∧
    (ran s' = ran s ∨
     ∃ keys scripts l, mdsScriptKeys event GOOS = Ok keys ∧ finds (calls s) keys scripts ∧
       ran s' = ran s ++ l ∧ key_runs scripts keys l ∧ err = None)) s.
Proof.
  intros Hr. unfold handleEvent. destruct (mdsScriptKeys event GOOS) as [keys|e] eqn:Ek; [|apply wp_ret; auto].
  apply wp_bind. eapply wp_mono; [apply wp_readExistingKeys|].
  intros r s1 (Ee & Er & Hf). destruct r as [scripts|e]; [|apply wp_ret; rewrite Ee; auto].
  case_bool_decide as Hd; [apply wp_ret; rewrite Ee; auto|]. destruct (Hf _ eq_refl) as [Hfinds|]; [|done].
  apply wp_bind. unfold wp at 1, ext. cbn beta iota. rewrite <-Ee in Hr. apply wp_bind. eapply wp_mono.
  - apply wp_scripts; [by eapply mdsScriptKeys_simple|exact Hr].
  - intros _ s2 [Hn (l & El & Hl)]. apply wp_ret. cbn in Hn, El. rewrite Hn, El, Ee, Er. split; [done|]. right. eauto 10.
Qed.

(** ** The theorems *)

(** Running a script leaves no file behind, whatever fails before the
    removal: at most one command runs, none unless the script was fetched and
    written, and the command of a bare script has the value of the key in its
    file. *)
Theorem setupAndRunScript_leaves_nothing dom key value s : simple_name key → rooted (nodes (efs s)) →
  ∃ s' err, setupAndRunScript dom key value s = Some (s', err) ∧ nodes (efs s') = nodes (efs s) ∧ ran_once key value s err s'.
Proof.
  intros Hk Hr. pose proof (wp_setupAndRunScript dom key value s Hk Hr) as Hw. unfold wp in Hw.
  destruct (setupAndRunScript dom key value s) as [[s' err]|]; [|done]. destruct Hw. eauto.
Qed.

End script.

(** ** Examples *)
Definition demo_config : ScriptConfig := {|
  GOOS := "linux"; RunDir := ""; TempDir := "/tmp"; DefaultShell := "/bin/bash"; SysprepSpecialize := true;
  Startup := true; StartupWindows := true; Shutdown := false; ShutdownWindows := true |}.

(** The storage breaks off in the middle of the object, the web does not. *)
Definition broken_storage : ScriptWorld := {|
  newStorageClient := λ _ _, None;
  NewReader := λ _ _ _, Ok (mkReader "#!/bin/sh; rm -r /sra" (Some (ErrMsg "unexpected EOF")));
  http_Get := λ _ _, Ok (200%Z, mkReader "#!/bin/sh; echo hi" None);
  LookupHost := λ _ _, None;
  wait_done := λ _, None;
  url_Parse := λ _, Ok "/s.sh";
  GetKeyRecursive := λ _ l, if bool_decide (l = "/instance/attributes") then Ok "instance" else Ok "project";
  unmarshal_attributes := λ t, Ok (if bool_decide (t = "project")
    then {["startup-script" := " echo one"; "startup-script-url" := "gs://bucket/s.sh"]} else ∅);
  GetKey := λ _ _, Err (ErrMsg "404");
  run_stream := λ _ _, Ok (Some (ErrMsg "exit status 1")) |}.

Definition demo : env := mkEnv (mkFs {["/tmp" := NDir]} 0) [] 0.

#[local] Instance : SafeWrite.TempNames := SafeWrite.numbered.
#[local] Instance : OsFaults := no_faults.

Lemma rooted_demo : rooted (nodes (efs demo)).
Proof.
  intros p q Hp Hn Hb. cbn in *. apply lookup_singleton_None in Hn. apply lookup_singleton_None. intros <-.
  unfold below in Hb. apply orb_true_iff in Hb as [Hb|Hb]; [by apply bool_decide_eq_true in Hb|].
  apply HasPrefix_spec in Hb as [r Hr]. destruct p as [|a [|b [|c [|d [|e p]]]]]; try done; cbn in Hr; injection Hr; intros; subst; try done.
Qed.

Lemma parseGCS_gs_witness : parseGCS "googleapis.com" "gs://my.bucket-1/a dir/s.sh" = ("my.bucket-1", "a dir/s.sh").
Proof. apply (parseGCS_gs "googleapis.com" "my.bucket-1" "a dir/s.sh"); apply (bool_decide_unpack _); vm_compute; exact I. Defined.

Lemma setupAndRunScript_leaves_nothing_witness :
  ∃ s' err, @setupAndRunScript demo_config broken_storage _ _ "googleapis.com" "startup-script" " echo" demo = Some (s', err) ∧
    nodes (efs s') = {["/tmp" := NDir]} ∧
    @ran_once demo_config "startup-script" " echo" demo err s'.
Proof.
  refine (@setupAndRunScript_leaves_nothing demo_config broken_storage _ _ SafeWrite.numbered_ok eq_refl (λ _ _, eq_refl) _
    "googleapis.com" "startup-script" " echo" demo _ rooted_demo).
  - apply (bool_decide_unpack (clean_dir _)). vm_compute. exact I.
  - repeat split; try done. by apply (bool_decide_unpack _).
Defined.


(** The fall-back to the web writes behind what the storage gave before its
    error: the script that runs is neither of the two. *)
Example downloadScript_appends :
  (λ r, snd <$> ran r.1) <$> @handleEvent demo_config broken_storage _ _ "startup" demo =
  Some [Some (NFile "echo one"); Some (NFile "#!/bin/sh; rm -r /sra#!/bin/sh; echo hi")].
Proof. vm_compute. reflexivity. Qed.
End ScriptRunner.
