(* ===== verification/Mwlid.v ===== *)
(** * cmd/mwlid_extension: the credentials of the workload identity

    refresher.go, refresher_linux.go and certrefresh.go: each refresh writes a
    directory of its own and turns the symbolic link of the credentials to it.
    Parameters: the metadata server, the gRPC service, JSON, the order of
    ranges over maps, the clock. *)
From stdpp Require Import gmap strings list.
From S2P Require Import Prelude GoStrings GoStringFacts Os Retry Paths HostRules.

Module Mwlid.
Import Paths HostRules.

Definition trustAnchorsKey : string := "instance/gce-workload-certificates/trust-anchors".
Definition workloadIdentitiesKey : string := "instance/gce-workload-certificates/workload-identities".
Definition configStatusKey : string := "instance/gce-workload-certificates/config-status".
Definition enableWorkloadCertsKey : string := "instance/attributes/enable-workload-certificate".
Definition contentDirPrefix : string := "/run/secrets/workload-spiffe-contents".
Definition tempSymlinkPrefix : string := "/run/secrets/workload-spiffe-symlink".
Definition symlink_path : string := "/run/secrets/workload-spiffe-credentials".

Inductive Status := ServiceUnknown | ServiceUnavailable | ServiceAvailable.
#[global] Instance Status_eq_dec : EqDecision Status.
Proof. solve_decision. Defined.

Record outputOpts := mkOpts { opt_contentDirPrefix : string; opt_tempSymlinkPrefix : string; symlink : string }.

Record workloadCredential := mkCredential { CertificatePem : string; PrivateKeyPem : string }.
Record certificates := mkCerts { GetPrivateKeyPem : string; GetCertificateChainPem : string }.

(** The gRPC codes the code tells apart. *)
Inductive Code := FailedPrecondition | Internal | DataLoss | Unknown | InvalidArgument | Unauthenticated | PermissionDenied | Unimplemented | OtherCode.
#[global] Instance Code_eq_dec : EqDecision Code.
Proof. solve_decision. Defined.

(** [RefresherJob]: the status and the cached client. *)
Record RefresherJob := mkJob { status : Status; grpcClient : bool }.

Record env := mkEnv { efs : fs; job : RefresherJob; calls : nat }.
#[global] Instance env_HasFS : HasFS env := {| fs_of := efs; set_fs f e := mkEnv f (job e) (calls e) |}.
#[global] Instance env_LawfulFS : LawfulFS env.
Proof. split; [done|done|by intros []]. Qed.

Class MwlidConfig := { MWLIDEnabled : bool; ServiceAddress : string; retryPolicy : Retry.Policy }.

Class MwlidWorld := {
  GetKey : nat → string → result string;
  NewClient : nat → string → option error;
  GetWorkloadCertificates : nat → result certificates;
  GetWorkloadTrustBundles : nat → result string;
  status_FromError : error → option Code;
  timer_wait : nat → option error;
  unmarshal_identities : string → result (gmap string workloadCredential);
  unmarshal_anchors : string → result (gmap string string);
  (** The orders in which Go may range over a map. *)
  range_identities : gmap string workloadCredential → list string;
  range_anchors : gmap string string → list string;
}.

Section refresher.
Context `{MwlidConfig} `{MwlidWorld} `{OsFaults}.

Definition ext {A} (f : nat → A) : M env A := λ e, Some (mkEnv (efs e) (job e) (S (calls e)), f (calls e)).
Definition set_job (f : RefresherJob → RefresherJob) : M env unit := modify (λ e, mkEnv (efs e) (f (job e)) (calls e)).
Definition setStatus (s : Status) : M env unit := set_job (λ j, mkJob s (grpcClient j)).
Definition serverStatus : M env Status := gets (λ e, status (job e)).

Definition readMetadata (key : string) : M env (result string) :=
  resp ← ext (λ n, GetKey n key);
  mret (match resp with Err e => Err (ErrWrap ("failed to GET " +:+ key) e) | Ok r => Ok r end).

(** [bytes.EqualFold] with ["true"]: no other letters fold to these. *)
Definition fold_byte (b : byte) : N := let n := Ascii.N_of_ascii b in if ((65 <=? n) && (n <=? 90))%N then (n + 32)%N else n.
Definition EqualFold_true (s : string) : bool := bool_decide ((fold_byte <$> to_bytes s) = (fold_byte <$> to_bytes "true")).

Definition isMDSServiceEnabled : M env bool :=
  resp ← readMetadata enableWorkloadCertsKey;
  mret (match resp with Err _ => false | Ok r => EqualFold_true r end).

Definition newClient : M env (option error) :=
  cached ← gets (λ e, grpcClient (job e));
  if cached : bool then mret None
  else
    err ← ext (λ n, NewClient n ServiceAddress);
    match err with
    | Some e => mret (Some (ErrWrap "failed to create gRPC client for MWLID service" e))
    | None => _ ← set_job (λ j, mkJob (status j) true); mret None
    end.

Definition closeClient : M env unit := set_job (λ j, mkJob (status j) false).

Definition isGRPCServiceEnabled : M env bool :=
  if negb MWLIDEnabled then mret false
  else
    currStatus ← serverStatus;
    if negb (bool_decide (currStatus = ServiceUnknown)) then mret (bool_decide (currStatus = ServiceAvailable))
    else
      err ← newClient;
      match err with
      | Some _ => mret false
      | None =>
          r ← ext GetWorkloadCertificates;
          match r with
          | Ok _ => _ ← setStatus ServiceAvailable; mret true
          | Err e =>
              if bool_decide (status_FromError e = Some FailedPrecondition) then _ ← setStatus ServiceUnavailable; mret false
              else mret true
          end
      end.

Definition isEnabled : M env bool :=
  g ← isGRPCServiceEnabled;
  if g : bool then mret true else isMDSServiceEnabled.

(** [status.Code]: [Unknown] for an error that is no status. *)
Definition shouldRetryGRPC (err : error) : bool :=
  match default Unknown (status_FromError err) with
  | Internal | DataLoss | Unknown => false
  | FailedPrecondition | InvalidArgument | Unauthenticated | PermissionDenied | Unimplemented => false
  | OtherCode => true
  end.

Definition getGRPCRetryPolicy : Retry.Policy :=
  let p := retryPolicy in
  Retry.mkPolicy
    (if Retry.MaxAttempts p =? 0 then 5 else Retry.MaxAttempts p)%Z
    (if SpecFloat.SFeqb (Retry.BackoffFactor p) (float_of_Z 0) then float_of_Z 1 else Retry.BackoffFactor p)
    (if Retry.Jitter p =? 0 then Second else Retry.Jitter p)%Z
    (match Retry.ShouldRetry p with None => Some shouldRetryGRPC | f => f end)
    (Retry.MaximumBackoff p).

Definition retry_rpc {T} (zero : T) (f : nat → result T) : M env (result T) :=
  let policy := getGRPCRetryPolicy in
  r ← Retry.RunWithResponse zero (λ _, ext timer_wait) (Z.to_nat (Retry.MaxAttempts policy)) policy
        (Some (r ← ext f; mret (match r with Ok x => (x, None) | Err e => (zero, Some e) end)));
  r ← some_or_panic r;
  mret (match r with (_, Some e) => Err e | (x, None) => Ok x end).

(** Writes that are wrapped on error. *)
Definition write (what dir name data : string) : M env (option error) :=
  e ← os_WriteFile (path_Join [dir; name]) data; mret (ErrWrap what <$> e).

Definition refreshCredsWithGRPC (contentDir : string) : M env (option error) :=
  err ← newClient;
  match err with
  | Some e => mret (Some (ErrWrap "failed to connect to snapshot service" e))
  | None =>
      certs ← retry_rpc (mkCerts "" "") GetWorkloadCertificates;
      match certs with
      | Err e => _ ← closeClient; mret (Some (ErrWrap "failed to get workload certificates" e))
      | Ok certs =>
          bundle ← retry_rpc "" GetWorkloadTrustBundles;
          match bundle with
          | Err e => _ ← closeClient; mret (Some (ErrWrap "failed to get workload trust bundles" e))
          | Ok bundle =>
              err ← os_MkdirAll contentDir;
              match err with
              | Some e => mret (Some (ErrWrap "error creating contents dir" e))
              | None =>
                  err ← (if bool_decide (GetPrivateKeyPem certs = "") then mret None
                         else write "error writing private_key.pem" contentDir "private_key.pem" (GetPrivateKeyPem certs));
                  match err with
                  | Some e => mret (Some e)
                  | None =>
                      err ← write "error writing certificates.pem" contentDir "certificates.pem" (GetCertificateChainPem certs);
                      match err with
                      | Some e => mret (Some e)
                      | None => write "error writing trust_bundles.json" contentDir "trust_bundles.json" bundle
                      end
                  end
              end
          end
      end
  end.

(** ** The metadata server *)
Definition findDomain (anchors : gmap string string) (spiffeID : string) : result string :=
  match list_find (λ k, bool_decide (size anchors = 1) || Contains spiffeID k = true) (range_anchors anchors) with
  | Some (_, k) => Ok k
  | None => Err (ErrMsg "no matching trust anchor found")
  end.

Definition writeTrustAnchors (wtrcsMd destDir spiffeID : string) : M env (option error) :=
  match unmarshal_anchors wtrcsMd with
  | Err e => mret (Some (ErrWrap "error unmarshaling workload trusted root certs" e))
  | Ok anchors =>
      match findDomain anchors spiffeID with
      | Err e => mret (Some e)
      | Ok domain => os_WriteFile (path_Join [destDir; "ca_certificates.pem"]) (default "" (anchors !! domain))
      end
  end.

Definition writeWorkloadIdentities (destDir wisMd : string) : M env (result string) :=
  match unmarshal_identities wisMd with
  | Err e => mret (Err (ErrWrap "error unmarshaling workload identities response" e))
  | Ok wis =>
      let spiffeID := default "" (head (range_identities wis)) in
      let cred := default (mkCredential "" "") (wis !! spiffeID) in
      err ← write "error writing certificates.pem" destDir "certificates.pem" (CertificatePem cred);
      match err with
      | Some e => mret (Err e)
      | None =>
          err ← (if bool_decide (PrivateKeyPem cred = "") then mret None
                 else write "error writing private_key.pem" destDir "private_key.pem" (PrivateKeyPem cred));
          mret (match err with Some e => Err e | None => Ok spiffeID end)
      end
  end.

Definition writeCredsFromMDS (contentDir symlink : string) : M env (option error) :=
  certConfigStatus ← readMetadata configStatusKey;
  match certConfigStatus with
  | Err _ => mret None
  | Ok certConfigStatus =>
      err ← os_MkdirAll contentDir;
      match err with
      | Some e => mret (Some (ErrWrap "error creating contents dir" e))
      | None =>
          err ← write "error writing config_status" contentDir "config_status" certConfigStatus;
          match err with
          | Some e => mret (Some e)
          | None =>
              st ← os_Stat symlink;
              err ← (match st with
                     | Err e => if IsNotExist e then (e ← os_Symlink contentDir symlink; mret (ErrWrap "error creating symlink" <$> e)) else mret None
                     | Ok _ => mret None
                     end);
              match err with
              | Some e => mret (Some e)
              | None =>
                  wisMd ← readMetadata workloadIdentitiesKey;
                  match wisMd with
                  | Err e => mret (Some (ErrWrap "error getting workload-identities" e))
                  | Ok wisMd =>
                      spiffeID ← writeWorkloadIdentities contentDir wisMd;
                      match spiffeID with
                      | Err e => mret (Some (ErrWrap "failed to write workload identities with error" e))
                      | Ok spiffeID =>
                          wtrcsMd ← readMetadata trustAnchorsKey;
                          match wtrcsMd with
                          | Err e => mret (Some (ErrWrap "error getting workload-trust-anchors" e))
                          | Ok wtrcsMd => e ← writeTrustAnchors wtrcsMd contentDir spiffeID; mret (ErrWrap "failed to write trust anchors" <$> e)
                          end
                      end
                  end
              end
          end
      end
  end.

(** ** A refresh *)
Definition generateTmpDirNames (opts : outputOpts) (now : string) : string * string :=
  (opt_contentDirPrefix opts +:+ "-" +:+ now, opt_tempSymlinkPrefix opts +:+ "-" +:+ now).

(** After the old link is removed. *)
Definition rotate_end (tempSymlink link oldTarget : string) : M env (option error) :=
  err ← os_Rename tempSymlink link;
  match err with
  | Some e => mret (Some (ErrWrap "error rotating target link" e))
  | None =>
      newTarget ← os_Readlink link;
      match newTarget with
      | Err e => mret (Some (ErrWrap "error reading new symlink" e))
      | Ok newTarget =>
          if bool_decide (oldTarget = newTarget) then mret None
          else
            err ← (if bool_decide (oldTarget = "") then mret None else os_RemoveAll oldTarget);   (* nothing for the empty path *)
            mret (ErrWrap "failed to remove old symlink target" <$> err)
      end
  end.

(** The link is turned to the new directory. *)
Definition rotate (contentDir tempSymlink link : string) : M env (option error) :=
  err ← os_Symlink contentDir tempSymlink;
  match err with
  | Some e => mret (Some (ErrWrap "error creating temporary link" e))
  | None =>
      oldTarget ← os_Readlink link;
      let oldTarget := match oldTarget with Ok t => t | Err _ => "" end in
      err ← os_Remove link;
      match err with
      | Some e =>
          if IsNotExist e then rotate_end tempSymlink link oldTarget
          else mret (Some (ErrWrap "error removing symlink" e))
      | None => rotate_end tempSymlink link oldTarget
      end
  end.

Definition refreshCreds (opts : outputOpts) (now : string) : M env (option error) :=
  let '(contentDir, tempSymlink) := generateTmpDirNames opts now in
  grpc ← isGRPCServiceEnabled;
  if grpc : bool then
    err ← refreshCredsWithGRPC contentDir;
    match err with
    | Some e => mret (Some (ErrWrap "refresh creds with gRPC error" e))
    | None => rotate contentDir tempSymlink (symlink opts)
    end
  else
    mds ← isMDSServiceEnabled;
    if mds : bool then
      err ← writeCredsFromMDS contentDir (symlink opts);
      match err with
      | Some e => mret (Some (ErrWrap "refresh creds with MDS error" e))
      | None => rotate contentDir tempSymlink (symlink opts)
      end
    else mret None.

(** [runRefresher]: [None] when not enabled, else the new [lastError]. *)
Definition runRefresher (opts : outputOpts) (now : string) : M env (option (option error)) :=
  enabled ← isEnabled;
  if negb enabled then mret None else (err ← refreshCreds opts now; mret (Some err)).

(** ** The watch of the identity *)

(** One answer of the long poll: the UUID it remembers and whether a refresh is
    asked for. *)
Definition watch_step (prevUUID : string) (desc : option string) : string * bool :=
  match desc with
  | None => (prevUUID, false)
  | Some currUUID =>
      if bool_decide (prevUUID = "") then (currUUID, false)
      else if bool_decide (prevUUID = currUUID) then (prevUUID, false)
      else (currUUID, true)
  end.

Fixpoint watchIdentity (prevUUID : string) (descs : list (option string)) : list bool :=
  match descs with
  | [] => []
  | d :: descs => let '(prev, b) := watch_step prevUUID d in b :: watchIdentity prev descs
  end.
End refresher.

(** ** The extension *)

(** The contexts of [Start] are numbered; [cancel] holds the one to cancel. *)
Inductive context_ := NilContext | Background | Live (id : nat).

Record Extension := mkExtension {
  cancel : option nat;
  ectx : context_;
  lastError : option error;
  cancelled : list nat;
  loops : list nat;            (* the core loops that were started *)
}.

Definition new_extension : Extension := mkExtension None NilContext None [] [].

Definition ctx_Err (e : Extension) : option error :=
  match ectx e with
  | Live id => if bool_decide (id ∈ cancelled e) then Some (ErrMsg "context canceled") else None
  | _ => None
  end.

Definition Start (e : Extension) : Extension :=
  match cancel e with
  | Some _ => e
  | None => let id := length (loops e) in mkExtension (Some id) (Live id) (lastError e) (cancelled e) (loops e ++ [id])
  end.

Definition Stop (e : Extension) : Extension * option error :=
  match cancel e with
  | None => (e, None)
  | Some id =>
      match ctx_Err e with
      | Some err => (e, Some err)
      | None => (mkExtension None Background (lastError e) (cancelled e ++ [id]) (loops e), None)
      end
  end.

Inductive health := Healthy | Unhealthy (results : error).

(** The status and the error of the call, which makes the agent restart the
    extension. *)
Definition GetStatus (e : Extension) : health * option error :=
  match ctx_Err e with
  | Some err => (Unhealthy err, Some err)
  | None => match lastError e with Some err => (Unhealthy err, None) | None => (Healthy, None) end
  end.

Definition set_lastError (err : option error) (e : Extension) : Extension :=
  mkExtension (cancel e) (ectx e) err (cancelled e) (loops e).

(** ** Generations of credentials *)
Definition certificates_pem (d : string) : string := in_dir d "certificates.pem".
Definition trust_bundles_json (d : string) : string := in_dir d "trust_bundles.json".

Definition complete (d : string) (m : gmap string node) : Prop :=
  ∃ c t, m !! certificates_pem d = Some (NFile c) ∧ m !! trust_bundles_json d = Some (NFile t).

(** Whoever follows the link finds credentials. *)
Definition creds_ok (link : string) (m : gmap string node) : Prop := ∀ d, m !! link = Some (NLink d) → complete d m.

Lemma below_same_length d c q : length (to_bytes d) = length (to_bytes c) → below d q = true → below c q = true → d = c.
Proof.
  assert (Hpre : ∀ x y r, below x (y +:+ r) = true → length (to_bytes x) = length (to_bytes y) → (r = "" ∨ ∃ r', r = "/" +:+ r') → x = y).
  { intros x y r Hb Hl Hr. unfold below in Hb. apply orb_true_iff in Hb as [Hb|Hb].
    - apply bool_decide_eq_true in Hb. apply (f_equal to_bytes) in Hb. rewrite to_bytes_app in Hb. apply to_bytes_eq.
      apply (f_equal length) in Hb as Hlen. rewrite length_app in Hlen.
      assert (Hz : length (to_bytes r) = 0) by lia. apply nil_length_inv in Hz. by rewrite Hz, app_nil_r in Hb.
    - apply HasPrefix_spec in Hb as [z Hz]. rewrite append_assoc in Hz. apply (f_equal to_bytes) in Hz. rewrite !to_bytes_app in Hz.
      apply to_bytes_eq. eapply app_inj_1 in Hz as [Hz _]; [by symmetry|]. done. }
  intros Hl Hd Hc. unfold below in Hc. apply orb_true_iff in Hc as [Hc|Hc].
  - apply bool_decide_eq_true in Hc as ->. replace c with (c +:+ "") in Hd by (apply to_bytes_eq; by rewrite to_bytes_app, app_nil_r). eapply Hpre; [exact Hd|done|by left].
  - apply HasPrefix_spec in Hc as [z ->]. rewrite append_assoc in Hd. eapply Hpre; [exact Hd|done|right; by eexists].
Qed.

Section refreshes.
Context `{MwlidConfig} `{MwlidWorld} `{OsFaults}.

(** ** The new directory *)

(** What existed elsewhere is as it was; new outside are only directories. *)
Definition fills (c : string) (m m' : gmap string node) : Prop :=
  (∀ q, below c q = false → (∀ nd, m !! q = Some nd → m' !! q = Some nd) ∧ (m !! q = None → m' !! q = None ∨ m' !! q = Some NDir)) ∧
  ∀ q, below c q = true → no_link m' q.

Lemma fills_mkdir c m m' p : fills c m m' → fills c m (mkdir_all p m').
Proof.
  intros [Hf Hl]. split.
  - intros q Hq. destruct (Hf q Hq) as [F1 F2], (mkdir_all_keeps p m' q) as [K1 K2]. split; [auto|].
    intros E. destruct (F2 E) as [E'|E']; [auto|right; auto].
  - intros q Hq t Ht. destruct (mkdir_all_keeps p m' q) as [K1 K2]. destruct (m' !! q) as [nd|] eqn:E.
    + rewrite (K1 nd eq_refl) in Ht. injection Ht as ->. by apply (Hl q Hq t).
    + destruct (K2 eq_refl) as [E'|E']; congruence.
Qed.

Lemma fills_write c m m' n d : fills c m m' → fills c m (write_node m' (in_dir c n) d).
Proof.
  intros [Hf Hl]. rewrite write_node_direct by apply Hl, below_in_dir. split.
  - intros q Hq. rewrite lookup_insert_ne; [by apply Hf|]. intros <-. by rewrite below_in_dir in Hq.
  - intros q Hq t. destruct (decide (q = in_dir c n)) as [->|Hne]; [by rewrite lookup_insert_eq|].
    rewrite lookup_insert_ne by done. by apply Hl.
Qed.

(** Network calls leave the files alone. *)
Definition same_fs (s s' : env) : Prop := efs s' = efs s.
#[local] Instance same_fs_preorder : PreOrder same_fs.
Proof. split; [done|]. unfold same_fs. intros a b c. congruence. Qed.

Lemma same_ext {A} (f : nat → A) : respects same_fs (ext f).
Proof. intros s s' a [= <- _]. done. Qed.
Lemma same_job f : respects same_fs (set_job f).
Proof. intros s s' a [= <- _]. done. Qed.

Lemma same_newClient : respects same_fs newClient.
Proof. unfold newClient. respects_solve; first [apply same_ext|apply same_job]. Qed.

Lemma same_retry_rpc {T} (zero : T) f : respects same_fs (retry_rpc zero f).
Proof.
  unfold retry_rpc. apply respects_bind; [apply _| |intros; respects_solve].
  apply Retry.respects_RunWithResponse; [apply _| |intros; apply same_ext]. respects_solve; apply same_ext.
Qed.

Hypothesis policy_ok : (0 < Retry.MaxAttempts getGRPCRetryPolicy < 2 ^ 63)%Z.

Lemma total_ext_ {A} (f : nat → A) : total (ext f).
Proof. intros s. by eexists. Qed.

Lemma total_retry_rpc {T} (zero : T) f : total (retry_rpc zero f).
Proof.
  intros s. unfold retry_rpc. cbv zeta. unfold mbind at 1, M_bind.
  assert (Hw : wp (Retry.RunWithResponse zero (λ _, ext timer_wait) (Z.to_nat (Retry.MaxAttempts getGRPCRetryPolicy)) getGRPCRetryPolicy
    (Some (r ← ext f; mret (match r with Ok x => (x, None) | Err e => (zero, Some e) end)))) (λ o _, is_Some o) s).
  { unfold Retry.RunWithResponse. eapply wp_mono; [apply (Retry.wp_retry_loop _ (λ _ _, True) (λ _, True))|]; try done; try lia.
    - intros s1 _. unfold wp, ext, mbind, M_bind. cbn. by destruct (f _).
    - intros d s1 r _ _. unfold wp, ext. by destruct (timer_wait _).
    - by intros ? ? (x & -> & _). }
  unfold wp in Hw. destruct (Retry.RunWithResponse _ _ _ _ _ s) as [[s2 o]|]; [|done]. destruct Hw as [[x e] ->]. by eexists.
Qed.

Section generation.
Variable c : string.
Hypothesis c_clean : clean_dir c.

Definition written (m : gmap string node) (s : env) : Prop := fills c m (nodes (efs s)).

Lemma wp_write m what n d s : simple_name n → written m s →
  wp (write what c n d) (λ e s', written m s' ∧ ticks (efs s) < ticks (efs s') ∧
    (e = None → nodes (efs s') !! in_dir c n = Some (NFile d) ∧ ∀ q, q ≠ in_dir c n → nodes (efs s') !! q = nodes (efs s) !! q)) s.
Proof.
  intros Hn Hw. unfold write. rewrite path_Join_name by done. apply wp_bind. apply wp_with_fs; intros; apply wp_ret; cbn.
  - split; [|split; [lia|done]]. destruct (fault_left ft); [|done]. by apply fills_write.
  - destruct Hw as [Hf Hl]. assert (Hnl : no_link (nodes (efs s)) (in_dir c n)) by apply Hl, below_in_dir.
    rewrite resolve_direct by done. destruct (nodes (efs s) !! in_dir c n) as [[]|] eqn:E; cbn;
      rewrite ?write_node_direct by done; (split; [first [by apply (fills_write c m _ n d)|rewrite <-(write_node_direct _ _ d Hnl); by apply fills_write|done]|split; [lia|]]);
      try done; intros _; (split; [apply lookup_insert_eq|intros q Hq; by apply lookup_insert_ne]).
Qed.

Lemma below_refl p : below p p = true.
Proof. unfold below. by rewrite bool_decide_true. Qed.

Lemma written_same m s s' : same_fs s s' → written m s → written m s'.
Proof. unfold written. by intros ->. Qed.

Lemma wp_same {A} (x : M env A) (Q : A → env → Prop) s : total x → respects same_fs x → (∀ a s', same_fs s s' → Q a s') → wp x Q s.
Proof. intros Ht Hr HQ. eapply wp_total_respects; [apply Ht|exact Hr|done]. Qed.

Lemma wp_mkdir m s (Q : option error → env → Prop) : written m s →
  (∀ e s', written m s' → Q e s') → wp (os_MkdirAll c) Q s.
Proof. intros Hw HQ. apply wp_with_fs; intros; cbn; apply HQ; [done|]. by apply fills_mkdir. Qed.

Lemma pem_names : simple_name "private_key.pem" ∧ simple_name "certificates.pem" ∧ simple_name "trust_bundles.json".
Proof. split_and!; apply (bool_decide_unpack _); vm_compute; exact I. Qed.

Lemma wp_refreshCredsWithGRPC m s : written m s →
  wp (refreshCredsWithGRPC c) (λ err s', written m s' ∧ (err = None → complete c (nodes (efs s')))) s.
Proof.
  destruct pem_names as (Hn1 & Hn2 & Hn3). intros Hw. unfold refreshCredsWithGRPC. apply wp_bind, wp_same; [unfold newClient; total_solve; first [apply total_ext_|apply total_modify]|apply same_newClient|].
  intros err s1 Hs1. pose proof (written_same _ _ _ Hs1 Hw) as Hw1. destruct err as [x|]; [by apply wp_ret|].
  apply wp_bind, wp_same; [apply total_retry_rpc|apply same_retry_rpc|]. intros certs s2 Hs2. pose proof (written_same _ _ _ Hs2 Hw1) as Hw2.
  destruct certs as [certs|x]; [|by apply wp_bind, wp_modify, wp_ret].
  apply wp_bind, wp_same; [apply total_retry_rpc|apply same_retry_rpc|]. intros bundle s3 Hs3. pose proof (written_same _ _ _ Hs3 Hw2) as Hw3.
  destruct bundle as [bundle|x]; [|by apply wp_bind, wp_modify, wp_ret].
  apply wp_bind, (wp_mkdir m); [done|]. intros err s4 Hw4. destruct err as [x|]; [by apply wp_ret|].
  apply wp_bind, (wp_mono _ (λ _ s', written m s')).
  { case_bool_decide; [by apply wp_ret|]. eapply wp_mono; [by apply (wp_write m)|]. by intros e s5 [Hw5 _]. }
  intros err s5 Hw5. destruct err as [x|]; [by apply wp_ret|]. apply wp_bind. eapply wp_mono; [by apply (wp_write m)|].
  intros err s6 (Hw6 & _ & Hc). destruct err as [x|]; [by apply wp_ret|]. destruct (Hc eq_refl) as [Hc1 _].
  eapply wp_mono; [by apply (wp_write m)|]. intros err s7 (Hw7 & _ & Ht). split; [done|]. intros ->. destruct (Ht eq_refl) as [Ht1 Ht2].
  exists (GetCertificateChainPem certs), bundle. split; [|done]. unfold certificates_pem. rewrite Ht2; [done|].
  unfold in_dir. intros E. apply (f_equal to_bytes) in E. rewrite !to_bytes_app in E. apply app_inv_head, app_inv_head in E. done.
Qed.

(** ** Turning the link *)
Variables (t link : string).
Hypothesis t_link : t ≠ link.

Inductive turned (m : gmap string node) (err : option error) (m' : gmap string node) : Prop :=
| turned_not : is_Some err → (∀ q, q ≠ t → m' !! q = m !! q) → turned m err m'
| turned_gap : is_Some err → m' !! link = None → (∀ q, q ≠ t → q ≠ link → m' !! q = m !! q) → turned m err m'
| turned_new : m' !! link = Some (NLink c) →
    (∀ q, q ≠ t → q ≠ link → m' !! q = m !! q ∨
       ∃ old, m !! link = Some (NLink old) ∧ old ≠ c ∧ below old q = true) →
    turned m err m'.

Lemma wp_rotate_end m s old :
  (∀ q, q ≠ t → q ≠ link → nodes (efs s) !! q = m !! q) → nodes (efs s) !! t = Some (NLink c) →
  (nodes (efs s) !! link = None ∨ nodes (efs s) !! link = m !! link) →
  (old = "" ∨ (m !! link = Some (NLink old) ∧ below old link = false)) →
  wp (rotate_end t link old) (λ err s', turned m err (nodes (efs s'))) s.
Proof.
  intros Hm Ht Hlink Hold. assert (Hfail : ∀ x s', nodes (efs s') = nodes (efs s) → turned m (Some x) (nodes (efs s'))).
  { intros x s' ->. destruct Hlink as [Hl|Hl]; [by apply turned_gap|]. apply turned_not; [done|]. intros q Hq.
    destruct (decide (q = link)) as [->|Hne]; [done|by apply Hm]. }
  unfold rotate_end. apply wp_bind. apply wp_with_fs; intros; cbn; [by apply wp_ret, Hfail|].
  change (fs_of s) with (efs s). rewrite Ht.
  destruct (decide (nodes (efs s) !! link = Some NDir)) as [Ed|Ed].
  { rewrite Ed. cbn. by apply wp_ret, Hfail. }
  assert (Er : (match nodes (efs s) !! link with
                | Some NDir => (nodes (efs s), Some ErrExist)
                | _ => (<[link:=NLink c]> (delete t (nodes (efs s))), None)
                end) = (<[link:=NLink c]> (delete t (nodes (efs s))), None)) by (destruct (nodes (efs s) !! link) as [[]|]; done).
  rewrite Er. cbn. apply wp_bind.
  set (m2 := <[link:=NLink c]> (delete t (nodes (efs s)))). assert (Hl2 : m2 !! link = Some (NLink c)) by apply lookup_insert_eq.
  assert (Hq2 : ∀ q, q ≠ t → q ≠ link → m2 !! q = m !! q).
  { intros q N1 N2. unfold m2. rewrite lookup_insert_ne, lookup_delete_ne by done. by apply Hm. }
  apply wp_with_fs; intros; cbn.
  { apply wp_ret. cbn. apply turned_new; [done|]. intros q N1 N2. left. by apply Hq2. }
  rewrite Hl2. cbn. case_bool_decide as Ho.
  { apply wp_ret. cbn. apply turned_new; [done|]. intros q N1 N2. left. by apply Hq2. }
  apply wp_bind. case_bool_decide as He.
  { apply wp_ret, wp_ret. cbn. apply turned_new; [done|]. intros q N1 N2. left. by apply Hq2. }
  destruct Hold as [->|[Hold Hb]]; [done|]. apply wp_with_fs; intros; apply wp_ret; cbn.
  - apply turned_new; [done|]. intros q N1 N2. left. by apply Hq2.
  - apply turned_new; [by rewrite lookup_remove_below, Hb|]. intros q N1 N2. rewrite lookup_remove_below.
    destruct (below old q) eqn:Eb; [|left; by apply Hq2]. right. by exists old.
Qed.

Lemma wp_rotate s : (∀ old, nodes (efs s) !! link = Some (NLink old) → below old link = false) →
  wp (rotate c t link) (λ err s', turned (nodes (efs s)) err (nodes (efs s'))) s.
Proof.
  intros Hsep. unfold rotate. apply wp_bind. apply wp_with_fs; intros; cbn; [apply wp_ret; by apply turned_not|].
  destruct (nodes (efs s) !! t) as [x|] eqn:Et; cbn; [apply wp_ret; by apply turned_not|]. set (m := nodes (efs s)) in *.
  set (m1 := <[t:=NLink c]> m). assert (Hl1 : m1 !! link = m !! link) by (by apply lookup_insert_ne).
  assert (Hq1 : ∀ q, q ≠ t → m1 !! q = m !! q) by (intros; by apply lookup_insert_ne).
  apply wp_bind, (wp_mono _ (λ r s', nodes (efs s') = m1 ∧ ∀ old, r = Ok old → m !! link = Some (NLink old))).
  { apply wp_with_fs; intros; cbn; (split; [done|]); [done|]. cbn in Hl1. rewrite Hl1. destruct (m !! link) as [[]|]; try done. by intros ? [= <-]. }
  intros r s2 [E2 Hr]. set (old := match r with Ok t0 => t0 | Err _ => "" end).
  assert (Hold : old = "" ∨ (m !! link = Some (NLink old) ∧ below old link = false)).
  { destruct r as [o|]; [|by left]. right. specialize (Hr o eq_refl). split; [done|]. by apply Hsep. }
  cbv zeta. fold old. apply wp_bind.
  apply (wp_mono _ (λ err s', (nodes (efs s') = m1 ∨ nodes (efs s') = delete link m1) ∧
    (nodes (efs s') = delete link m1 ∧ nodes (efs s') ≠ m1 → err = None))).
  - apply wp_with_fs; intros; cbn; [naive_solver|]. change (fs_of s2) with (efs s2). rewrite E2.
    destruct (m1 !! link) as [[]|]; cbn; try naive_solver. case_bool_decide; cbn; naive_solver.
  - intros err s3 [H3 H4].
    assert (Hend : wp (rotate_end t link old) (λ err s', turned m err (nodes (efs s'))) s3).
    { apply wp_rotate_end; [| | |done].
      - intros q Hq1' Hq2. destruct H3 as [-> | ->]; [|rewrite lookup_delete_ne by done]; by apply Hq1.
      - destruct H3 as [-> | ->]; [|rewrite lookup_delete_ne by done]; apply lookup_insert_eq.
      - destruct H3 as [-> | ->]; [right; by rewrite Hl1|left; apply lookup_delete_eq]. }
    destruct err as [x|]; [|done]. destruct (IsNotExist x); [done|]. apply wp_ret.
    apply turned_not; [done|]. destruct H3 as [-> | E3]; [done|].
    destruct (decide (delete link m1 = m1)) as [E|Hne]; [intros q Hq; rewrite E3, E; by apply Hq1|]. assert (Some x = None) by (apply H4; split; [done|by rewrite E3]). done.
Qed.
End generation.

(** ** Whole refreshes *)
Record placed (c t link : string) (m : gmap string node) : Prop := {
  p_clean : clean_dir c;
  p_t : t ≠ link;
  p_link : below c link = false;
  p_t_out : below c t = false;
  (** The names of this refresh are new. *)
  p_new : ∀ q, below c q = true → m !! q = None;
  p_t_new : m !! t = None;
  (** The generation in use is another directory, without the link in it. *)
  p_other : ∀ old, m !! link = Some (NLink old) → below old link = false ∧ ∀ q, below c q = true → below old q = false;
}.

Lemma complete_kept d m m' : complete d m → (∀ q x, m !! q = Some (NFile x) → below d q = true → m' !! q = Some (NFile x)) → complete d m'.
Proof. intros (x & y & Hx & Hy) Hk. exists x, y. split; (apply Hk; [done|apply below_in_dir]). Qed.

(** What a refresh leaves of [m]. *)
Definition refreshed (c link : string) (m : gmap string node) (err : option error) (m' : gmap string node) : Prop :=
  creds_ok link m' ∧
  (err = None → m' !! link = Some (NLink c)) ∧
  (∀ d, m' !! link = Some (NLink d) → d ≠ c → m !! link = Some (NLink d) ∧
     ∀ q x, below d q = true → m !! q = Some (NFile x) → m' !! q = Some (NFile x)) ∧
  (m' !! link = None → m !! link = None ∨ is_Some err).

Lemma fills_start c m : placed c "" "" m ∨ (∀ q, below c q = true → m !! q = None) → fills c m m.
Proof.
  intros [Hp|Hp]; (split; [intros q _; auto|]); intros q Hq tt Ht; [rewrite (p_new _ _ _ _ Hp q Hq) in Ht|rewrite (Hp q Hq) in Ht]; done.
Qed.

(** The files of a generation are apart from the new names. *)
Lemma fills_link c link m m1 d : fills c m m1 → below c link = false → m1 !! link = Some (NLink d) → m !! link = Some (NLink d).
Proof.
  intros [Hf _] Hl Hd. destruct (Hf link Hl) as [F1 F2]. destruct (m !! link) as [nd|] eqn:E.
  - rewrite (F1 nd eq_refl) in Hd. congruence.
  - destruct (F2 eq_refl) as [E'|E']; congruence.
Qed.

Lemma fills_file c t link m m1 q x : placed c t link m → fills c m m1 → m !! q = Some (NFile x) → m1 !! q = Some (NFile x).
Proof.
  intros Hp [Hf _] Hq. destruct (below c q) eqn:Eb; [by rewrite (p_new _ _ _ _ Hp q Eb) in Hq|]. by apply (Hf q Eb).
Qed.

Lemma filled_refreshed c t link m m1 err : placed c t link m → creds_ok link m → fills c m m1 → is_Some err →
  refreshed c link m err m1.
Proof.
  intros Hp Hok Hf He. assert (Hlink : ∀ d, m1 !! link = Some (NLink d) → m !! link = Some (NLink d)).
  { intros d. eapply fills_link; [done|apply Hp]. }
  split_and!; [|intros ->; by destruct He| |by right].
  - intros d Hd. eapply complete_kept; [by apply Hok, Hlink|]. intros q x Hq _. by eapply fills_file.
  - intros d Hd _. split; [by apply Hlink|]. intros q x _ Hq. by eapply fills_file.
Qed.

Lemma turned_refreshed c t link m m1 err m' : placed c t link m → creds_ok link m → fills c m m1 → complete c m1 →
  turned c t link m1 err m' → refreshed c link m err m'.
Proof.
  intros Hp Hok Hf Hc Ht. assert (Hlink : ∀ d, m1 !! link = Some (NLink d) → m !! link = Some (NLink d)).
  { intros d. eapply fills_link; [done|apply Hp]. }
  assert (Hnt : ∀ q x, m !! q = Some (NFile x) → q ≠ t) by (intros q x Hq ->; by rewrite (p_t_new _ _ _ _ Hp) in Hq).
  destruct Ht as [He Hsame|He Hgone Hsame|Hnew Hrest].
  - assert (Hl : m' !! link = m1 !! link) by (apply Hsame, not_eq_sym, Hp).
    assert (Hfile : ∀ q x, m !! q = Some (NFile x) → m' !! q = Some (NFile x)).
    { intros q x Hq. rewrite Hsame by (by eapply Hnt). by eapply fills_file. }
    split_and!; [|intros ->; by destruct He| |by right].
    + intros d Hd. rewrite Hl in Hd. eapply complete_kept; [by apply Hok, Hlink|]. intros q x Hq _. by apply Hfile.
    + intros d Hd _. rewrite Hl in Hd. split; [by apply Hlink|]. intros q x _. by apply Hfile.
  - split_and!; [intros d Hd; congruence|intros ->; by destruct He|intros d Hd; congruence|by right].
  - split_and!; [|done| |intros E; congruence].
    + intros d Hd. assert (d = c) as -> by congruence. eapply complete_kept; [exact Hc|]. intros q x Hq Hb.
      assert (q ≠ t) by (intros ->; by rewrite (p_t_out _ _ _ _ Hp) in Hb).
      assert (q ≠ link) by (intros ->; by rewrite (p_link _ _ _ _ Hp) in Hb).
      destruct (Hrest q) as [E|(old & Ho & _ & Hb')]; [done|done|by rewrite E|].
      destruct (p_other _ _ _ _ Hp old (Hlink _ Ho)) as [_ Hsep]. by rewrite (Hsep q Hb) in Hb'.
    + intros d Hd Hne. congruence.
Qed.

Lemma wp_refreshCreds_grpc opts now s :
  let c := (generateTmpDirNames opts now).1 in let t := (generateTmpDirNames opts now).2 in
  MWLIDEnabled = true → status (job s) = ServiceAvailable → placed c t (symlink opts) (nodes (efs s)) → creds_ok (symlink opts) (nodes (efs s)) →
  wp (refreshCreds opts now) (λ err s', refreshed c (symlink opts) (nodes (efs s)) err (nodes (efs s'))) s.
Proof.
  intros c t He Hs Hp Hok. unfold refreshCreds. change (generateTmpDirNames opts now) with (c, t). cbv iota beta.
  apply wp_bind. unfold isGRPCServiceEnabled. rewrite He. cbn [negb]. apply wp_bind, wp_gets. cbn beta. rewrite Hs. apply wp_ret.
  assert (Hw : written c (nodes (efs s)) s) by (apply fills_start; right; apply Hp).
  apply wp_bind. eapply wp_mono; [apply (wp_refreshCredsWithGRPC c (p_clean _ _ _ _ Hp) (nodes (efs s)) s Hw)|].
  intros err s1 [Hw1 Hc]. destruct err as [x|]; [apply wp_ret; by eapply filled_refreshed|].
  assert (Hsep : ∀ old, nodes (efs s1) !! symlink opts = Some (NLink old) → below old (symlink opts) = false).
  { intros old Ho. destruct (p_other _ _ _ _ Hp old) as [Hb _]; [|exact Hb]. exact (fills_link c _ _ _ _ Hw1 (p_link _ _ _ _ Hp) Ho). }
  eapply wp_mono; [apply (wp_rotate c t (symlink opts) (p_t _ _ _ _ Hp) s1 Hsep)|].
  intros err s2 Ht. eapply turned_refreshed; [done|done|exact Hw1|by apply Hc|done].
Qed.


(** ** The watch *)

(** From a known identity on, no refresh is asked for exactly while it stays. *)
Lemma watchIdentity_quiet prev descs : prev ≠ "" →
  true ∉ watchIdentity prev descs ↔ Forall (λ d : option string, match d with Some u => u = prev | None => True end) descs.
Proof.
  intros Hp. induction descs as [|d descs IH]; [split; [constructor|intros _; by apply not_elem_of_nil]|].
  cbn [watchIdentity]. unfold watch_step. rewrite Forall_cons. destruct d as [u|].
  - rewrite bool_decide_false by done. case_bool_decide as Hu.
    + subst u. rewrite not_elem_of_cons, IH. naive_solver.
    + rewrite not_elem_of_cons. naive_solver.
  - rewrite not_elem_of_cons, IH. naive_solver.
Qed.
End refreshes.

(** ** The extension *)
Inductive command := CStart | CStop | CReport (err : option error).
Definition execute (c : command) (e : Extension) : Extension :=
  match c with CStart => Start e | CStop => (Stop e).1 | CReport err => set_lastError err e end.

(** One loop runs at most: the one that can be cancelled. *)
Definition one_loop (e : Extension) : Prop :=
  (∀ id, id ∈ loops e → id ∉ cancelled e → cancel e = Some id) ∧
  match cancel e with
  | Some id => id ∈ loops e ∧ id ∉ cancelled e ∧ ectx e = Live id
  | None => ∀ id, ectx e ≠ Live id
  end ∧ (∀ id, id ∈ loops e → id < length (loops e)) ∧ ∀ id, id ∈ cancelled e → id < length (loops e).

(** Whatever the order of starts, stops and reports, at most one core loop is
    not cancelled; a stop never fails and cancels it, a start starts one
    exactly when there is none, and the status is never an error, which would
    restart the extension. *)
Theorem extension_one_loop cs : let e := foldl (λ e c, execute c e) new_extension cs in
  one_loop e ∧ (Stop e).2 = None ∧ (GetStatus e).2 = None.
Proof.
  intros e. assert (Ho : one_loop e); [|].
  - unfold e. clear e. assert (Hn : one_loop new_extension).
    { split_and!; try done; intros id Hid; by apply elem_of_nil in Hid. }
    revert Hn. generalize new_extension as e. induction cs as [|c cs IH]; intros e He; [done|]. apply IH. clear IH.
    destruct He as (H1 & H2 & H3 & H4). destruct c as [| |err]; cbn [execute].
    + unfold Start. destruct (cancel e) as [id|] eqn:Ec; [unfold one_loop; rewrite Ec; exact (conj H1 (conj H2 (conj H3 H4)))|]. unfold one_loop. cbn. split_and!.
      * intros id [Hid|Hid%list_elem_of_singleton]%elem_of_app Hn; [by specialize (H1 id Hid Hn)|by subst].
      * apply elem_of_app. right. by apply list_elem_of_singleton.
      * intros Hid. specialize (H4 _ Hid). lia.
      * done.
      * rewrite length_app. cbn. intros id [Hid|Hid%list_elem_of_singleton]%elem_of_app; [specialize (H3 _ Hid)|]; lia.
      * rewrite length_app. cbn. intros id Hid. specialize (H4 _ Hid). lia.
    + unfold Stop. destruct (cancel e) as [id|] eqn:Ec; [|unfold one_loop; cbn; rewrite Ec; exact (conj H1 (conj H2 (conj H3 H4)))].
      destruct H2 as (Hl & Hc & Hx). unfold ctx_Err. rewrite Hx, bool_decide_false by done. unfold one_loop. cbn. split_and!; try done.
      * intros id' Hid Hn. apply not_elem_of_app in Hn as [Hn1 Hn2]. specialize (H1 id' Hid Hn1).
        assert (id' = id) by congruence. subst. by destruct Hn2; apply list_elem_of_singleton.
      * intros id' [Hid|Hid%list_elem_of_singleton]%elem_of_app; [auto|subst; auto].
    + exact (conj H1 (conj H2 (conj H3 H4))).
  - split; [done|]. destruct Ho as (_ & H2 & _). destruct (cancel e) as [id|] eqn:Ec.
    + destruct H2 as (_ & Hc & Hx). unfold Stop, GetStatus, ctx_Err. rewrite Ec, Hx, bool_decide_false by done. by destruct (lastError e).
    + unfold Stop, GetStatus, ctx_Err. rewrite Ec. destruct (ectx e) as [| |id] eqn:Ex; [by destruct (lastError e)..|]. by destruct (H2 id).
Qed.

(** ** Examples *)
Definition linux_opts : outputOpts := mkOpts contentDirPrefix tempSymlinkPrefix symlink_path.
Definition old_dir : string := "/run/secrets/workload-spiffe-contents-T1".
Definition new_dir : string := "/run/secrets/workload-spiffe-contents-T2".

#[local] Instance demo_config : MwlidConfig := {| MWLIDEnabled := true; ServiceAddress := "10.0.0.1:50051"; retryPolicy := Retry.mkPolicy 0 (float_of_Z 0) 0 None 0 |}.

(** The metadata server cannot read the status before call [status_from]. *)
Definition demo_world (status_from : nat) : MwlidWorld := {|
  GetKey := λ n key, if bool_decide (key = enableWorkloadCertsKey) then Ok "True"
                     else if bool_decide (key = configStatusKey) then (if decide (n < status_from) then Err (ErrMsg "503") else Ok "OK") else Ok key;
  NewClient := λ _ _, None;
  GetWorkloadCertificates := λ n, if decide (n = 1) then Err (ErrMsg "UNAVAILABLE") else Ok (mkCerts "" "chain-2");
  GetWorkloadTrustBundles := λ _, Ok "bundle-2";
  status_FromError := λ _, Some OtherCode;
  timer_wait := λ _, None;
  unmarshal_identities := λ _, Ok {["spiffe://pool/ns/a" := mkCredential "cert" "key"]};
  unmarshal_anchors := λ _, Ok {["pool" := "anchor"]};
  range_identities := λ m, (map_to_list m).*1;
  range_anchors := λ m, (map_to_list m).*1 |}.

Definition demo (st : Status) : env :=
  mkEnv (mkFs {["/run/secrets" := NDir; old_dir := NDir; certificates_pem old_dir := NFile "chain-1";
                trust_bundles_json old_dir := NFile "bundle-1"; symlink_path := NLink old_dir]} 0) (mkJob st false) 0.

Lemma generations_apart q : below new_dir q = true → below old_dir q = false.
Proof.
  intros Hq. destruct (below old_dir q) eqn:Eb; [|reflexivity]. exfalso.
  assert (Hl : length (to_bytes old_dir) = length (to_bytes new_dir)) by (vm_compute; reflexivity).
  pose proof (below_same_length old_dir new_dir q Hl Eb Hq) as E. apply (f_equal (String.get 39)) in E. vm_compute in E. discriminate E.
Qed.

Definition rename_fails : OsFaults := λ _ op _, if bool_decide (op = "rename") then Some (mkFault (ErrMsg "I/O error") None) else None.


(** With the metadata server as the source, one failed read of the status is
    taken for success: the link is turned to a directory that was never made
    and the credentials in use are removed. *)
Example failed_status_destroys_credentials :
  (λ r, (r.2, nodes (efs r.1) !! symlink_path, nodes (efs r.1) !! new_dir, nodes (efs r.1) !! certificates_pem old_dir)) <$>
    @refreshCreds demo_config (demo_world 9) no_faults linux_opts "T2" (demo ServiceUnavailable) =
  Some (None, Some (NLink new_dir), None, None).
Proof. vm_compute. reflexivity. Qed.

(** After it every refresh fails: the dangling link does not exist for Stat but
    is in the way of Symlink. *)
Example and_never_recovers :
  @mbind _ _ _ _ (λ r, snd <$> @refreshCreds demo_config (demo_world 0) no_faults linux_opts "T3" r.1)
    (@refreshCreds demo_config (demo_world 9) no_faults linux_opts "T2" (demo ServiceUnavailable)) =
  Some (Some (ErrWrap "refresh creds with MDS error" (ErrWrap "error creating symlink" ErrExist))).
Proof. vm_compute. reflexivity. Qed.

(** A rename that fails leaves no link at all. *)
Example failed_rename_leaves_no_link :
  (λ r, (bool_decide (r.2 = None), nodes (efs r.1) !! symlink_path)) <$>
    @refreshCreds demo_config (demo_world 0) rename_fails linux_opts "T2" (demo ServiceAvailable) = Some (false, None).
Proof. vm_compute. reflexivity. Qed.

(** The first identity an instance gets while it runs is not noticed. *)
Example first_identity_unnoticed : watchIdentity "" [Some ""; Some "uuid-1"; Some "uuid-1"] = [false; false; false].
Proof. reflexivity. Qed.
End Mwlid.
