(* ===== verification/FirstBoot.v ===== *)
(** * cmd/core_plugin/firstboot: what is done once per instance

    firstboot.go and firstboot_linux.go: the file of the instance ID, the host
    keys of ssh and the configuration of boto.  Parameters: the commands with
    their effect on the files, the guest attributes of the metadata server, the
    INI library, the order of the range over the key types. *)
From stdpp Require Import gmap strings list.
From S2P Require Import Prelude GoStrings GoStringFacts Os FileUtil SafeWrite Paths.

Module FirstBoot.
Import Paths.

Definition firstbootModuleID : string := "firstboot".
Definition instanceIDFile : string := "google_instance_id".
Definition hostKeyFilePrefix : string := "ssh_host_".
Definition hostKeyFileSuffix : string := "_key".
Definition botoConfigFile : string := "/etc/boto.cfg".

Class FirstBootConfig := {
  InstanceIDDir : string;
  InstanceID : string;
  SetHostKeys : bool;
  SetBotoConfig : bool;
  HostKeyDir : string;
  HostKeyTypes : string;
}.

(** Sections and keys of an INI file. *)
Definition ini := gmap (string * string) string.

Class FirstBootWorld := {
  run_command : nat → list string → gmap string node → gmap string node * option error;
  LookPath : nat → string → option error;
  WriteGuestAttributes : nat → string → string → option error;
  ini_Load : list (option string) → result ini;
  ini_Print : ini → string;
  range_types : gset string → list string;
}.

(** [uploads]: the guest attributes that were written, or tried. *)
Record env := mkEnv { efs : fs; ran : list (list string); uploads : list (string * string); calls : nat }.
#[global] Instance env_HasFS : HasFS env := {| fs_of := efs; set_fs f e := mkEnv f (ran e) (uploads e) (calls e) |}.
#[global] Instance env_LawfulFS : LawfulFS env.
Proof. split; [done|done|by intros []]. Qed.

Section firstboot.
Context `{FirstBootConfig} `{FirstBootWorld} `{OsFaults}.

Definition ext {A} (f : nat → A) : M env A := λ e, Some (mkEnv (efs e) (ran e) (uploads e) (S (calls e)), f (calls e)).

Definition WithContext (cmd : list string) : M env (option error) := λ e,
  let '(m, err) := run_command (calls e) cmd (nodes (efs e)) in
  Some (mkEnv (mkFs m (ticks (efs e))) (ran e ++ [cmd]) (uploads e) (S (calls e)), err).

(** [os.OpenFile] for writing, creating or truncating, and a write to it. *)
Definition os_OpenFile (p : string) : M env (option error) :=
  with_fs "open" p fail_err (λ m,
    match resolve m p with
    | Some (_, NDir) => (m, Some ErrIsDir)
    | _ => (write_node m p "", None)
    end).
Definition file_WriteString (p d : string) : M env (option error) :=
  with_fs "writestring" p
    (λ ft m, (match fault_left ft with Some d' => write_node m p d' | None => m end, Some (fault_err ft)))
    (λ m, (write_node m p d, None)).

(** [os.Open] of a directory. *)
Definition os_Open (p : string) : M env (option error) :=
  with_fs "open" p fail_err (λ m, (m, match resolve m p with Some _ => None | None => Some ErrNotExist end)).

(** ** firstboot.go *)
Definition instance_file : string := path_Join [InstanceIDDir; instanceIDFile].

Definition firstbootRun (instanceID : string) : M env (result bool) :=
  let fPath := instance_file in
  present ← Exists fPath TypeFile;
  data ← (if present : bool then os_ReadFile fPath else mret (Ok ""));
  match data with
  | Err e => mret (Err (ErrWrap "failed to read instance id file" e))
  | Ok data =>
      let currentInstanceID := if present : bool then TrimSpace data else "" in
      let currentInstanceID := if bool_decide (currentInstanceID = "") then InstanceID else currentInstanceID in
      mret (Ok (negb (bool_decide (currentInstanceID = instanceID))))
  end.

Definition writeInstanceID (newInstanceID : string) : M env (option error) :=
  err ← os_MkdirAll InstanceIDDir;
  match err with
  | Some e => mret (Some (ErrWrap "failed to create instance id file" e))
  | None =>
      err ← os_OpenFile instance_file;
      match err with
      | Some e => mret (Some (ErrWrap "failed to open instance id file" e))
      | None => err ← file_WriteString instance_file newInstanceID; mret (ErrWrap "failed to write instance id file" <$> err)
      end
  end.

(** ** firstboot_linux.go *)
Definition writeBotoConfig (projectID : string) : M env (option error) :=
  let templatePath := botoConfigFile +:+ ".template" in
  boto ← os_ReadFile botoConfigFile;
  template ← os_ReadFile templatePath;
  let source (r : result string) := match r with Ok d => Some (Some d) | Err e => if IsNotExist e then Some None else None end in
  match mapM source [boto; template] with
  | None => mret (Some (ErrMsg "failed to load boto config"))
  | Some sources =>
      match ini_Load sources with
      | Err e => mret (Some (ErrWrap "failed to load boto config" e))
      | Ok botoCfg =>
          let botoCfg := <[("GSUtil", "default_project_id") := projectID]> botoCfg in
          let botoCfg := <[("GSUtil", "default_api_version") := "2"]> botoCfg in
          let botoCfg := <[("GoogleCompute", "service_account") := "default"]> botoCfg in
          err ← os_WriteFile botoConfigFile (ini_Print botoCfg);
          mret (ErrWrap "failed to save boto config" <$> err)
      end
  end.

Definition hostKeyFile (fName : string) : bool :=
  HasPrefix fName hostKeyFilePrefix && HasSuffix fName hostKeyFileSuffix &&
  Nat.ltb (String.length (hostKeyFilePrefix +:+ hostKeyFileSuffix)) (String.length fName).

Definition keytype_of (file : string) : string := TrimSuffix (TrimPrefix file hostKeyFilePrefix) hostKeyFileSuffix.

Definition comma : byte := byte_of 44.
Definition space : byte := byte_of 32.

(** The types of the keys on disk and of those in the configuration. *)
Definition key_types (files : list string) : gset string :=
  list_to_set (keytype_of <$> filter (λ f, hostKeyFile f = true) files) ∪ list_to_set (Split HostKeyTypes comma).

Definition key_path (keytype : string) : string := path_Join [HostKeyDir; hostKeyFilePrefix +:+ keytype +:+ hostKeyFileSuffix].

(** One round of the loop; an error is logged and ends the round. *)
Definition generate_key (keytype : string) : M env unit :=
  let keyfile := key_path keytype in
  let pubKeyFile := keyfile +:+ ".pub" in
  let tmpKeyFile := keyfile +:+ ".temp" in
  let tmpPubKeyFile := keyfile +:+ ".temp.pub" in
  err ← WithContext ["ssh-keygen"; "-t"; keytype; "-f"; tmpKeyFile; "-N"; ""; "-q"];
  match err with Some _ => mret tt | None =>
  err ← SafeWrite.os_Chmod tmpKeyFile 384;
  match err with Some _ => mret tt | None =>
  err ← SafeWrite.os_Chmod tmpPubKeyFile 420;
  match err with Some _ => mret tt | None =>
  err ← os_Rename tmpKeyFile keyfile;
  match err with Some _ => mret tt | None =>
  err ← os_Rename tmpPubKeyFile pubKeyFile;
  match err with Some _ => mret tt | None =>
  pubKey ← os_ReadFile pubKeyFile;
  match pubKey with Err _ => mret tt | Ok pubKey =>
  match Split pubKey space with
  | v0 :: v1 :: _ =>
      _ ← ext (λ n, WriteGuestAttributes n ("hostkeys/" +:+ v0) v1);
      modify (λ e, mkEnv (efs e) (ran e) (uploads e ++ [("hostkeys/" +:+ v0, v1)]) (calls e))
  | _ => mret tt
  end end end end end end end.

Definition writeSSHKeys : M env (option error) :=
  err ← os_Open HostKeyDir;
  match err with
  | Some e => mret (Some (ErrWrap "failed to open host key dir" e))
  | None =>
      files ← os_ReadDir HostKeyDir;
      match files with
      | Err e => mret (Some (ErrWrap "failed to read host key dir" e))
      | Ok files =>
          _ ← for_each (range_types (key_types files.*1)) generate_key;
          err ← ext (λ n, LookPath n "restorecon");
          match err with
          | Some _ => mret None
          | None => err ← WithContext ["restorecon"; "-FR"; HostKeyDir]; mret (ErrWrap "failed to restore SELinux context" <$> err)
          end
      end
  end.

Definition platformSetup (projectID : string) : M env (option error) :=
  err ← (if SetHostKeys then writeSSHKeys else mret None);
  match err with
  | Some e => mret (Some e)
  | None => if SetBotoConfig then writeBotoConfig projectID else mret None
  end.

Definition runFirstboot (instanceID projectID : string) : M env (option error) :=
  isFirstboot ← firstbootRun instanceID;
  match isFirstboot with
  | Err e => mret (Some (ErrFmt "failed to check if we are in firstboot" e))
  | Ok false => mret None
  | Ok true =>
      err ← writeInstanceID instanceID;
      match err with
      | Some e => mret (Some e)
      | None => err ← platformSetup projectID; mret (ErrFmt "failed to setup instance id" <$> err)
      end
  end.

(** The descriptor: the instance ID and the project ID. *)
Definition moduleSetup (data : option (string * string)) : M env (option error) :=
  match data with
  | None => mret (Some (ErrMsg "firstboot module expects a metadata descriptor in the data pointer"))
  | Some (instanceID, projectID) => err ← runFirstboot instanceID projectID; mret (ErrFmt "failed to run firstboot" <$> err)
  end.

(** [metadata.New().Get] when the early stage has no descriptor yet. *)
Definition moduleSetupEarly (get : nat → result (string * string)) (data : option (string * string)) : M env (option error) :=
  desc ← (match data with Some d => mret (Ok d) | None => ext get end);
  match desc with
  | Err _ => mret None
  | Ok d => _ ← moduleSetup (Some d); mret None
  end.
End firstboot.

(** ** The host keys *)
Section keys.
Context `{FirstBootConfig} `{FirstBootWorld} `{OsFaults}.

(** The files a command may write: ssh-keygen the key it is asked for. *)
Definition targets (cmd : list string) : list string :=
  match cmd with
  | ["ssh-keygen"; "-t"; _; "-f"; f; "-N"; ""; "-q"] => [f; f +:+ ".pub"]
  | _ => []
  end.

Hypothesis commands_ok : ∀ n cmd m q, q ∉ targets cmd → (run_command n cmd m).1 !! q = m !! q.
Hypothesis dir_clean : clean_dir HostKeyDir.
Hypothesis range_ok : ∀ s t, t ∈ range_types s → t ∈ s.
(** The configured types are names. *)
Hypothesis types_ok : Forall (lacks slash) (Split HostKeyTypes comma).

Definition key_prefix : string := in_dir HostKeyDir hostKeyFilePrefix.
Definition keygen (t : string) : list string := ["ssh-keygen"; "-t"; t; "-f"; key_path t +:+ ".temp"; "-N"; ""; "-q"].

(** What a successful ssh-keygen left for a key. *)
Definition from_keygen (q : string) (nd : option node) : Prop :=
  ∃ n t m1 m2, q = key_path t ∧ run_command n (keygen t) m1 = (m2, None) ∧ nd = m2 !! (q +:+ ".temp").

Definition keys_whole (m m' : gmap string node) : Prop := ∀ q, HasSuffix q "_key" = true → m' !! q = m !! q ∨ from_keygen q (m' !! q).
Definition only_keys (m m' : gmap string node) : Prop := ∀ q, HasPrefix q key_prefix = false → m' !! q = m !! q.

Lemma key_path_name t : lacks slash t → key_path t = key_prefix +:+ t +:+ "_key".
Proof.
  intros Ht. unfold key_path. rewrite path_Join_name; [|done|].
  - unfold in_dir, key_prefix, in_dir. by rewrite !append_assoc.
  - split; [|split_and!].
    + unfold lacks in *. rewrite !to_bytes_app. intros [Hin|[Hin|Hin]%elem_of_app]%elem_of_app; [|done|].
      * revert Hin. by apply (bool_decide_unpack _).
      * revert Hin. by apply (bool_decide_unpack _).
    + done.
    + done.
    + done.
Qed.

Lemma keylike_ne q x c : HasSuffix q "_key" = true → c ≠ byte_of 121 → q ≠ x +:+ of_bytes [c].
Proof.
  intros Hq Hc ->. apply HasSuffix_spec in Hq as [k Hk]. apply (f_equal to_bytes) in Hk. rewrite !to_bytes_app, to_of_bytes in Hk.
  change (to_bytes "_key") with ([byte_of 95; byte_of 107; byte_of 101] ++ [byte_of 121]) in Hk. rewrite app_assoc in Hk.
  apply app_inj_tail in Hk as [_ Hk]. by apply Hc.
Qed.

Lemma keylike_temp q x : HasSuffix q "_key" = true → q ≠ x +:+ ".temp" ∧ q ≠ x +:+ ".temp.pub" ∧ q ≠ x +:+ ".pub".
Proof.
  intros Hq. split_and!.
  - change ".temp" with (".tem" +:+ of_bytes [byte_of 112]). rewrite <-append_assoc. by apply keylike_ne.
  - change ".temp.pub" with (".temp.pu" +:+ of_bytes [byte_of 98]). rewrite <-append_assoc. by apply keylike_ne.
  - change ".pub" with (".pu" +:+ of_bytes [byte_of 98]). rewrite <-append_assoc. by apply keylike_ne.
Qed.

Lemma prefix_key t s : lacks slash t → HasPrefix (key_path t +:+ s) key_prefix = true.
Proof. intros Ht. apply HasPrefix_spec. exists (t +:+ "_key" +:+ s). by rewrite key_path_name, !append_assoc. Qed.

Lemma append_nil_r s : s +:+ "" = s.
Proof. apply to_bytes_eq. by rewrite to_bytes_app, app_nil_r. Qed.

(** What one round keeps, from its start [m]. *)
Definition round_ok (m m' : gmap string node) : Prop := keys_whole m m' ∧ only_keys m m'.

Lemma round_refl m : round_ok m m.
Proof. split; intros q Hq; auto. Qed.

Lemma round_trans a b c : round_ok a b → round_ok b c → round_ok a c.
Proof.
  intros [K1 O1] [K2 O2]. split.
  - intros q Hq. destruct (K2 q Hq) as [E|E]; [rewrite E; by apply K1|by right].
  - intros q Hq. rewrite O2 by done. by apply O1.
Qed.

Lemma round_rename t m2 m n : lacks slash t → run_command n (keygen t) m = (m2, None) → ∀ nd, m2 !! (key_path t +:+ ".temp") = Some nd →
  round_ok m (<[key_path t := nd]> (delete (key_path t +:+ ".temp") m2)).
Proof.
  intros Ht Hrun nd Hnd. split.
  - intros q Hq. destruct (keylike_temp q (key_path t) Hq) as (N1 & N2 & N3). destruct (decide (q = key_path t)) as [->|Hne].
    + right. rewrite lookup_insert_eq. exists n, t, m, m2. split_and!; [done|done|by rewrite Hnd].
    + left. rewrite lookup_insert_ne, lookup_delete_ne by done. pose proof (commands_ok n (keygen t) m q) as Hc. rewrite Hrun in Hc. apply Hc.
      unfold keygen, targets. rewrite append_assoc. change (".temp" +:+ ".pub") with ".temp.pub". set_solver.
  - intros q Hq. assert (q ≠ key_path t ∧ q ≠ key_path t +:+ ".temp" ∧ q ≠ key_path t +:+ ".temp.pub") as (N1 & N2 & N3).
    { pose proof (prefix_key t "" Ht) as P1. rewrite append_nil_r in P1. split_and!; intros ->; [congruence|by rewrite prefix_key in Hq..]. }
    rewrite lookup_insert_ne, lookup_delete_ne by done. pose proof (commands_ok n (keygen t) m q) as Hc. rewrite Hrun in Hc. apply Hc.
    unfold keygen, targets. rewrite append_assoc. change (".temp" +:+ ".pub") with ".temp.pub". set_solver.
Qed.

Lemma round_command t m m2 e n : lacks slash t → run_command n (keygen t) m = (m2, e) → round_ok m m2.
Proof.
  intros Ht Hrun. assert (Hc : ∀ q, q ≠ key_path t +:+ ".temp" → q ≠ key_path t +:+ ".temp.pub" → m2 !! q = m !! q).
  { intros q N1 N2. pose proof (commands_ok n (keygen t) m q) as Hc. rewrite Hrun in Hc. apply Hc.
    unfold keygen, targets. rewrite append_assoc. change (".temp" +:+ ".pub") with ".temp.pub". set_solver. }
  split.
  - intros q Hq. left. destruct (keylike_temp q (key_path t) Hq) as (N1 & N2 & _). by apply Hc.
  - intros q Hq. apply Hc; intros ->; by rewrite prefix_key in Hq.
Qed.

(** A rename among the other names of a key. *)
Lemma round_pub t m nd : lacks slash t → round_ok m (<[key_path t +:+ ".pub" := nd]> (delete (key_path t +:+ ".temp.pub") m)).
Proof.
  intros Ht. split.
  - intros q Hq. left. destruct (keylike_temp q (key_path t) Hq) as (N1 & N2 & N3). by rewrite lookup_insert_ne, lookup_delete_ne.
  - intros q Hq. assert (q ≠ key_path t +:+ ".pub" ∧ q ≠ key_path t +:+ ".temp.pub") as (N1 & N2) by (split; intros ->; by rewrite prefix_key in Hq).
    by rewrite lookup_insert_ne, lookup_delete_ne.
Qed.

#[local] Arguments key_path : simpl never.
Notation kept_from m := (λ (_ : unit) (s' : env), round_ok m (nodes (efs s'))).

Lemma wp_chmod p mode (Q : option error → env → Prop) s :
  (∀ e s', nodes (efs s') = nodes (efs s) → Q e s') → wp (SafeWrite.os_Chmod p mode) Q s.
Proof. intros HQ. apply wp_with_fs; intros; by apply HQ. Qed.

Lemma wp_generate_key t s : lacks slash t → wp (generate_key t) (kept_from (nodes (efs s))) s.
Proof.
  intros Ht. set (m := nodes (efs s)). unfold generate_key. cbv zeta.
  apply wp_bind. unfold WithContext at 1. unfold wp at 1. fold (keygen t). fold m.
  destruct (run_command (calls s) (keygen t) m) as [m2 err] eqn:Hrun.
  assert (R2 : round_ok m m2) by (by eapply round_command). destruct err as [e|]; [by apply wp_ret|].
  apply wp_bind, wp_chmod. cbn [nodes efs]. intros err s3 E3. destruct err as [e|]; [apply wp_ret; by rewrite E3|].
  apply wp_bind, wp_chmod. intros err s4 E4. rewrite E3 in E4. destruct err as [e|]; [apply wp_ret; by rewrite E4|].
  apply wp_bind. apply (wp_mono _ (λ _ s', round_ok m (nodes (efs s')))).
  { apply wp_with_fs; intros; cbn; change (fs_of s4) with (efs s4); rewrite E4; [done|].
    destruct (m2 !! (key_path t +:+ ".temp")) as [nd|] eqn:End; [|done].
    destruct (m2 !! key_path t) as [[]|]; try done; by eapply round_rename. }
  intros err s5 R5. destruct err as [e|]; [by apply wp_ret|]. apply wp_bind. apply (wp_mono _ (λ _ s', round_ok m (nodes (efs s')))).
  { apply wp_with_fs; intros; cbn; [done|]. change (fs_of s5) with (efs s5).
    destruct (nodes (efs s5) !! (key_path t +:+ ".temp.pub")) as [nd|] eqn:End; [|done].
    destruct (nodes (efs s5) !! (key_path t +:+ ".pub")) as [[]|]; try done; (eapply round_trans; [done|by apply round_pub]). }
  intros err s6 R6. destruct err as [e|]; [by apply wp_ret|]. apply wp_bind. unfold os_ReadFile. apply wp_with_fs; intros; [by apply wp_ret|].
  cbn [fst snd]. destruct (resolve _ _) as [[? []]|]; try by apply wp_ret. destruct (Split data space) as [|v0 [|v1 rest]]; by apply wp_ret.
Qed.

(** The types are names: those on disk are parts of a file name. *)
Lemma TrimPrefix_lacks c f p : lacks c f → lacks c (TrimPrefix f p).
Proof.
  intros Hf. unfold TrimPrefix. destruct (HasPrefix f p); [|done]. unfold lacks in *. rewrite to_of_bytes.
  intros Hin. apply Hf. rewrite <-(take_drop (length (to_bytes p)) (to_bytes f)). apply elem_of_app. by right.
Qed.

Lemma TrimSuffix_lacks c f p : lacks c f → lacks c (TrimSuffix f p).
Proof.
  intros Hf. unfold TrimSuffix. destruct (HasSuffix f p); [|done]. unfold lacks in *. rewrite to_of_bytes.
  intros Hin. apply Hf. rewrite <-(take_drop (length (to_bytes f) - length (to_bytes p)) (to_bytes f)). apply elem_of_app. by left.
Qed.

Lemma key_types_lack files t : Forall (lacks slash) files → t ∈ key_types files → lacks slash t.
Proof.
  intros Hf. unfold key_types. rewrite elem_of_union, !elem_of_list_to_set, list_elem_of_fmap. intros [(f & -> & Hin)|Hin].
  - apply list_elem_of_filter in Hin as [_ Hin]. apply TrimSuffix_lacks, TrimPrefix_lacks. by eapply Forall_forall.
  - by apply (proj1 (Forall_forall _ _) types_ok).
Qed.

Lemma wp_writeSSHKeys s : wp writeSSHKeys (λ _ s', round_ok (nodes (efs s)) (nodes (efs s'))) s.
Proof.
  unfold writeSSHKeys. apply wp_bind. apply wp_with_fs; intros; cbn [fst snd fail_err]; [apply wp_ret; apply round_refl|].
  destruct (resolve _ _); [|apply wp_ret; apply round_refl]. apply wp_bind.
  apply (wp_mono _ (λ files s', nodes (efs s') = nodes (efs s) ∧ ∀ l, files = Ok l → Forall (lacks slash) l.*1)).
  { unfold os_ReadDir. apply wp_with_fs; intros; cbn [fst snd fail_result]; (split; [done|]); [done|]. intros l.
    destruct (resolve _ _) as [[q []]|]; try done. intros [= <-]. apply Forall_forall. intros n ([n' nd] & -> & Hin)%list_elem_of_fmap.
    apply elem_of_dir_entries in Hin as [_ Hin]. by naive_solver. }
  intros files s2 [E2 Hl]. destruct files as [l|e]; [|apply wp_ret; rewrite E2; apply round_refl]. specialize (Hl l eq_refl).
  apply wp_bind. eapply wp_mono.
  { apply (wp_for_each (λ ts s', Forall (lacks slash) ts ∧ round_ok (nodes (efs s)) (nodes (efs s')))).
    - split; [|rewrite E2; apply round_refl]. apply Forall_forall. intros t Hin%range_ok. by eapply key_types_lack.
    - intros t ts s3 [[Ht Hts]%Forall_cons R3]. eapply wp_mono; [by apply wp_generate_key|]. intros [] s4 R4. split; [done|]. by eapply round_trans. }
  cbn beta. intros _ s3 [_ R3]. apply wp_bind. unfold ext, wp at 1. destruct (LookPath _ _); [by apply wp_ret|].
  apply wp_bind. unfold WithContext, wp at 1. cbn [efs nodes calls]. destruct (run_command _ _ _) as [m2 err] eqn:Hrun. apply wp_ret. cbn.
  eapply round_trans; [exact R3|]. assert (Hc : ∀ q, m2 !! q = nodes (efs s3) !! q).
  { intros q. pose proof (commands_ok (S (calls s3)) ["restorecon"; "-FR"; HostKeyDir] (nodes (efs s3)) q) as Hc. cbn in Hrun. rewrite Hrun in Hc. apply Hc. set_solver. }
  split; intros q Hq; auto.
Qed.

(** C26. Whatever fails in between - the key generation, a chmod, a rename, a
    read, the upload - [writeSSHKeys] returns, and every file of the machine
    that ends in "_key" is then either the one that was there before, or what
    a run of ssh-keygen that succeeded left under the temporary name of that very key: there is
    never a half-written or a missing host key where there was one.  And no
    file outside the "ssh_host_" names of the key directory has changed. *)
Theorem host_keys_whole s : ∃ s' err, writeSSHKeys s = Some (s', err) ∧
  keys_whole (nodes (efs s)) (nodes (efs s')) ∧ only_keys (nodes (efs s)) (nodes (efs s')).
Proof.
  pose proof (wp_writeSSHKeys s) as Hw. unfold wp in Hw. destruct (writeSSHKeys s) as [[s' err]|]; [|done].
  exists s', err. by destruct Hw.
Qed.
End keys.

(** ** Once per instance ID *)
Section once.
Context `{FirstBootConfig} `{FirstBootWorld} `{OsFaults}.
Context (fault_free : ∀ n op p, os_fault n op p = None).

(** The file holds the ID, whatever space is around it. *)
Theorem same_instance_idle instanceID projectID d s :
  nodes (efs s) !! instance_file = Some (NFile d) → TrimSpace d = instanceID → instanceID ≠ "" →
  ∃ s', runFirstboot instanceID projectID s = Some (s', None) ∧ nodes (efs s') = nodes (efs s) ∧ ran s' = ran s ∧ uploads s' = uploads s.
Proof.
  intros Hf Hd Hne. assert (Hw : wp (runFirstboot instanceID projectID)
    (λ r s', r = None ∧ nodes (efs s') = nodes (efs s) ∧ ran s' = ran s ∧ uploads s' = uploads s) s).
  { unfold runFirstboot, firstbootRun. cbv zeta. do 2 apply wp_bind. unfold wp at 1. rewrite (run_Exists_file (S := env) fault_free instance_file d s) by exact Hf.
    apply wp_bind. unfold wp at 1. rewrite (run_ReadFile_file (S := env) fault_free instance_file d) by (rewrite nodes_after; exact Hf).
    apply wp_ret. rewrite Hd, (bool_decide_false (instanceID = "")), (bool_decide_true (instanceID = instanceID)) by done. by apply wp_ret. }
  unfold wp in Hw. destruct (runFirstboot _ _ s) as [[s' r]|]; [|done]. destruct Hw as (-> & ?). by exists s'.
Qed.

(** A new ID, with the file system working: the file holds it before anything else is done. *)
Lemma run_writeInstanceID instanceID s (Hf : nodes (efs s) !! instance_file = None) (Hd : instance_file ∉ ancestors "" (Split InstanceIDDir slash)) :
  ∃ s', writeInstanceID instanceID s = Some (s', None) ∧ nodes (efs s') !! instance_file = Some (NFile instanceID) ∧ ran s' = ran s.
Proof.
  assert (Hw : wp (writeInstanceID instanceID) (λ r s', r = None ∧ nodes (efs s') !! instance_file = Some (NFile instanceID) ∧ ran s' = ran s) s).
  { unfold writeInstanceID. apply wp_bind, wp_with_fs; intros; [by rewrite fault_free in *|]. cbn [fst snd].
    assert (Hm : mkdir_all InstanceIDDir (nodes (fs_of s)) !! instance_file = None) by (etrans; [apply FileUtil.foldl_make_dir_other; exact Hd|exact Hf]).
    apply wp_bind, wp_with_fs; intros; [by rewrite fault_free in *|]. rewrite !fs_of_set_fs. cbn [nodes]. rewrite (resolve_none _ _ Hm). cbn [fst snd].
    apply wp_bind, wp_with_fs; intros; [by rewrite fault_free in *|]. rewrite !fs_of_set_fs. cbn [nodes].
    apply wp_ret. cbn [fst snd]. unfold write_node. rewrite (resolve_none _ _ Hm), (resolve_file _ _ "") by apply lookup_insert_eq. split; [done|]. cbn. by rewrite lookup_insert_eq. }
  unfold wp in Hw. destruct (writeInstanceID _ s) as [[s' r]|]; [|done]. destruct Hw as (-> & ?). by exists s'.
Qed.
End once.

(** ** A machine *)
Section example.
Definition toy_run (n : nat) (cmd : list string) (m : gmap string node) : gmap string node * option error :=
  (foldr (λ q m, <[q := NFile "ssh-ed25519 AAAA root"]> m) m (targets cmd), None).
#[local] Instance toy_config : FirstBootConfig :=
  {| InstanceIDDir := "/etc"; InstanceID := ""; SetHostKeys := true; SetBotoConfig := false; HostKeyDir := "/etc/ssh"; HostKeyTypes := "ecdsa,ed25519" |}.
#[local] Instance toy_world : FirstBootWorld :=
  {| run_command := toy_run; LookPath _ _ := Some (ErrMsg "not found"); WriteGuestAttributes _ _ _ := None;
     ini_Load _ := Ok ∅; ini_Print _ := ""; range_types := elements |}.

Definition machine (files : list (string * node)) : env := mkEnv (mkFs (list_to_map files) 0) [] [] 0.
Definition old_keys : env :=
  machine [("/etc", NDir); ("/etc/ssh", NDir); ("/etc/ssh/ssh_host_rsa_key", NFile "old"); ("/etc/ssh/ssh_host_rsa_key.pub", NFile "ssh-rsa OLD root")].

Lemma toy_commands n cmd m q : q ∉ targets cmd → (toy_run n cmd m).1 !! q = m !! q.
Proof.
  unfold toy_run. cbn [fst]. induction (targets cmd) as [|x l IH]; [done|]. intros [Hx Hl]%not_elem_of_cons. cbn.
  rewrite lookup_insert_ne by done. by apply IH.
Qed.

(** The second rename of the third key that is made fails, or none. *)
#[local] Definition broken_pub : OsFaults := λ n op p,
  if (String.eqb op "rename" && String.eqb p "/etc/ssh/ssh_host_rsa_key.temp.pub")%bool then Some (mkFault (ErrMsg "no space") None) else None.

Lemma host_keys_whole_witness : ∃ s' err, @writeSSHKeys _ _ broken_pub old_keys = Some (s', err) ∧
  keys_whole (nodes (efs old_keys)) (nodes (efs s')) ∧ only_keys (nodes (efs old_keys)) (nodes (efs s')).
Proof.
  apply (@host_keys_whole _ _ broken_pub).
  - intros n cmd m q. apply toy_commands.
  - by apply (bool_decide_unpack _).
  - intros s t. apply elem_of_elements.
  - by apply (bool_decide_unpack _).
Defined.

(** A failed second rename leaves the new private key with the old public one. *)
Example key_pair_mismatch :
  match @writeSSHKeys _ _ broken_pub old_keys with
  | Some (s', err) => (err, nodes (efs s') !! "/etc/ssh/ssh_host_rsa_key", nodes (efs s') !! "/etc/ssh/ssh_host_rsa_key.pub")
  | None => (None, None, None)
  end = (None, Some (NFile "ssh-ed25519 AAAA root"), Some (NFile "ssh-rsa OLD root")).
Proof. by vm_compute. Qed.

(** The early stage fails for want of the directory of the keys; once it is
    there, the late stage finds the instance ID written and makes no key. *)
Definition create_dir (s : env) : env := mkEnv (mkFs (<["/etc/ssh" := NDir]> (nodes (efs s))) (ticks (efs s))) (ran s) (uploads s) (calls s).

Example failed_setup_not_retried :
  match @moduleSetup _ _ no_faults (Some ("1234", "project")) (machine [("/etc", NDir)]) with
  | Some (s1, err1) =>
      match @moduleSetup _ _ no_faults (Some ("1234", "project")) (create_dir s1) with
      | Some (s2, err2) => (bool_decide (is_Some err1), err2, nodes (efs s2) !! "/etc/google_instance_id", ran s2)
      | None => (false, None, None, [])
      end
  | None => (false, None, None, [])
  end = (true, None, Some (NFile "1234"), []).
Proof. by vm_compute. Qed.

(** A stat of the instance file that fails makes new keys. *)
Example failed_stat_regenerates :
  match @runFirstboot _ _ (λ n op p, if String.eqb op "stat" then Some (mkFault (ErrMsg "interrupted") None) else None) "1234" "project"
    (machine [("/etc", NDir); ("/etc/ssh", NDir); ("/etc/google_instance_id", NFile "1234"); ("/etc/ssh/ssh_host_rsa_key", NFile "old")]) with
  | Some (s', _) => nodes (efs s') !! "/etc/ssh/ssh_host_rsa_key"
  | None => None
  end = Some (NFile "ssh-ed25519 AAAA root").
Proof. by vm_compute. Qed.

Lemma same_instance_idle_witness : ∃ s', @runFirstboot _ _ no_faults "1234" "project" (machine [("/etc/google_instance_id", NFile "1234")]) = Some (s', None) ∧
  nodes (efs s') = nodes (efs (machine [("/etc/google_instance_id", NFile "1234")])) ∧ ran s' = [] ∧ uploads s' = [].
Proof. apply (@same_instance_idle _ _ no_faults (λ _ _ _, eq_refl) "1234" "project" "1234"); [by vm_compute|by vm_compute|done]. Defined.
End example.
End FirstBoot.
