(* ===== verification/Scheduler.v ===== *)
(** * internal/scheduler: recurring jobs

    scheduler.go twice: as the sequential operations on the table of jobs that
    other components call ([ScheduleJob], [UnscheduleJob], a timer tick of
    [runOnSchedule], [Stop]), over any state with such a table (the interface
    [SchedState]) and any type of jobs (Go's [Job] interface is the class
    [Job]); and as a system of threads around the mutex and the unbuffered
    interrupt channels, for what the locking allows. *)
From S2P Require Import Prelude.

Module Scheduler.

(** Go's [Job] interface, for jobs of type [J] acting on a state [S]. *)
Class Job (S J : Type) := {
  ID : S → J → string;
  (** [None] is [MODULE_UNSPECIFIED]. *)
  MetricName : J → option string;
  Interval : S → J → Z * bool;
  ShouldEnable : J → M S bool;
  Run : J → M S (bool * option error);
}.

Record jobConfig (J : Type) := mkJob { job : J; markedRemoved : bool }.
Arguments mkJob {J} job markedRemoved.
Arguments job {J} _.
Arguments markedRemoved {J} _.

(** What [s.run] reports of one execution. *)
Record module_metric := mkMetric { metric_name : string; metric_error : option error }.

(** A state with a scheduler in it. *)
Class SchedState (S J : Type) := {
  jobs : S → gmap string (jobConfig J);
  set_jobs : gmap string (jobConfig J) → S → S;
  enableMetricRecording : M S unit;
  metrics_Record : module_metric → M S unit;
}.

Section operations.
Context {S J : Type} `{SchedState S J} `{Job S J}.

Definition add (id : string) (j : jobConfig J) : M S unit :=
  modify (λ s, set_jobs (<[id := j]> (jobs s)) s).

Definition remove (id : string) : M S unit :=
  modify (λ s, set_jobs (delete id (jobs s)) s).

Definition IsScheduled (id : string) : M S bool :=
  gets (λ s, bool_decide (is_Some (jobs s !! id))).

Definition run (j : J) : M S bool :=
  '(ok, err) ← Run j;
  match MetricName j with
  | None => mret ok
  | Some name =>
      _ ← metrics_Record (mkMetric name err);
      mret ok
  end.

Definition ScheduleJob (j : J) : M S (option error) :=
  _ ← enableMetricRecording;
  id ← gets (λ s, ID s j);
  scheduled ← IsScheduled id;
  if (scheduled : bool) then mret None
  else
    enabled ← ShouldEnable j;
    if negb enabled then mret (Some (ErrMsg "ShouldEnable() returned false, cannot schedule job"))
    else
      '(_, startNow) ← gets (λ s, Interval s j);
      again ← (if (startNow : bool) then run j else mret true);
      if negb again then mret None
      else
        id ← gets (λ s, ID s j);
        _ ← add id (mkJob j false);
        mret None.

(** The ticker of the task [t] of [runOnSchedule] fires. *)
Definition tick (t : jobConfig J) : M S unit :=
  if markedRemoved t then mret tt
  else
    again ← run (job t);
    if negb again then
      id ← gets (λ s, ID s (job t));
      remove id
    else mret tt.

(** The runner of the job takes the interrupt, then the entry is deleted. *)
Definition UnscheduleJob (id : string) : M S unit :=
  scheduled ← IsScheduled id;
  if negb scheduled then mret tt else remove id.

Definition Stop : M S unit :=
  modify (λ s, set_jobs (filter (λ kv, markedRemoved kv.2 = true) (jobs s)) s).

(** [ScheduleJobs] runs the calls in goroutines: their order is a parameter. *)
Definition ScheduleJobs (js : list J) : M S unit :=
  for_each js (λ j, _ ← ScheduleJob j; mret tt).

End operations.

(** ** The locking

    Each job has a runner goroutine; [UnscheduleJob] and [Stop] send on the
    job's unbuffered channel while they hold [mu], and a runner leaving its
    loop needs [mu] to remove its entry. *)
Inductive runner :=
| Selecting            (* at the [select] *)
| Executing            (* in [s.run] *)
| Removing             (* waiting for [mu] in [s.remove] *)
| Exited.

Inductive caller :=
| Outside
| Sending (id : string)   (* holds [mu], blocked on [task.interrupt <- true] *)
| Done.

Record system := mkSystem {
  runners : gmap string runner;
  table : gset string;
  unscheduler : caller;
}.

(** Who holds [mu]: only the caller keeps it across a blocking operation. *)
Definition mu_held (s : system) : bool :=
  match unscheduler s with Sending _ => true | _ => false end.

Inductive step : system → system → Prop :=
| step_fire s id :
    runners s !! id = Some Selecting →
    step s (mkSystem (<[id := Executing]> (runners s)) (table s) (unscheduler s))
| step_again s id :                       (* the job returned true *)
    runners s !! id = Some Executing →
    step s (mkSystem (<[id := Selecting]> (runners s)) (table s) (unscheduler s))
| step_finish s id :                      (* the job returned false *)
    runners s !! id = Some Executing →
    step s (mkSystem (<[id := Removing]> (runners s)) (table s) (unscheduler s))
| step_cancel s id :                      (* the context is done *)
    runners s !! id = Some Selecting →
    step s (mkSystem (<[id := Removing]> (runners s)) (table s) (unscheduler s))
| step_remove s id :
    runners s !! id = Some Removing → mu_held s = false →
    step s (mkSystem (<[id := Exited]> (runners s)) (table s ∖ {[id]}) (unscheduler s))
| step_lock s id :                        (* [UnscheduleJob]: lock, then send *)
    unscheduler s = Outside → id ∈ table s →
    step s (mkSystem (runners s) (table s) (Sending id))
| step_interrupt s id :                   (* the rendezvous on the channel *)
    unscheduler s = Sending id → runners s !! id = Some Selecting →
    step s (mkSystem (<[id := Exited]> (runners s)) (table s ∖ {[id]}) Done).

(** Nobody can move, and the caller is still inside [UnscheduleJob]. *)
Definition deadlocked (s : system) : Prop :=
  mu_held s = true ∧ ∀ s', ¬ step s s'.

Definition one_job (id : string) : system :=
  mkSystem {[id := Selecting]} {[id]} Outside.

(** Every runner's entry stays in the table until it exited. *)
Definition table_ok (s : system) : Prop :=
  ∀ id, id ∈ table s → ∃ r, runners s !! id = Some r ∧ r ≠ Exited.

(** ** Lemmas *)
Section sequential.
Context {S J : Type} `{SchedState S J} `{Job S J}.

Lemma IsScheduled_run id (s : S) :
  IsScheduled id s = Some (s, bool_decide (is_Some (jobs s !! id))).
Proof. done. Qed.

End sequential.

Lemma table_ok_step s s' : table_ok s → step s s' → table_ok s'.
Proof.
  intros Hok Hs. inversion Hs; subst; clear Hs; intros k Hk; simpl in *;
    try (destruct (decide (k = id)) as [->|];
         [rewrite lookup_insert_eq; eauto|rewrite lookup_insert_ne by done; by apply Hok]); try by apply Hok.
  all: destruct (decide (k = id)) as [->|]; [set_solver|].
  all: rewrite lookup_insert_ne by done; apply Hok; set_solver.
Qed.

(** ** Locking theorems *)

(** The scheduler can deadlock: when a job finishes for good (it returned
    false, or its context is done) while another goroutine is unscheduling it,
    the runner waits for the mutex and the unscheduler, holding the mutex,
    waits for the runner to take the interrupt; no thread can move again. *)
Theorem scheduler_can_deadlock (id : string) :
  ∃ s, rtc step (one_job id) s ∧ deadlocked s.
Proof.
  exists (mkSystem {[id := Removing]} {[id]} (Sending id)). split.
  - eapply rtc_l; [apply (step_fire _ id), lookup_singleton_eq|].
    eapply rtc_l; [apply (step_lock _ id); [done|set_solver]|].
    eapply rtc_l; [apply (step_finish _ id); simpl; apply lookup_insert_eq|].
    unfold one_job; simpl. by rewrite !insert_singleton_eq.
  - split; [done|]. intros s' Hs. inversion Hs; simplify_eq/=; try done.
    all: repeat match goal with
      | Hl : {[_ := _]} !! _ = Some _ |- _ => apply lookup_singleton_Some in Hl as [? ?]; simplify_eq
      end.
Qed.



End Scheduler.
