(* ===== verification/Events.v ===== *)
(** * internal/events: watchers, subscribers and the event manager

    events.go in two parts.  The subscriptions and the delivery of one event
    to its subscribers are sequential operations on [bus].  The goroutines
    (one per watcher and event type with its removal helper, the callers of
    [RemoveWatcher], and the control loop of [Run]) are a step relation on
    [system]: one step is what happens between two synchronisations, and a
    send on an unbuffered channel is a joint step with its receiver. *)
From S2P Require Import Prelude.

Module Events.

(** ** Subscribers *)
Section bus.
Context {cb data : Type}.

Record EventSubscriber := mkSub {
  Name : string;
  Callback : cb;
  (** [None] is [MODULE_UNSPECIFIED]: nothing is recorded. *)
  MetricName : option string;
}.

Record EventData := mkData { Data : data; Error : option error }.

Record metric := mkMetric { metric_name : string; metric_error : option error }.

Record bus := mkBus {
  subscribers : gmap string (list EventSubscriber);
  metrics : list metric;
  (** The callbacks run so far, by event type and subscriber. *)
  calls : list (string * string);
}.

Definition set_subscribers (m : gmap string (list EventSubscriber)) (s : bus) : bus :=
  mkBus m (metrics s) (calls s).
Definition record_metric (x : metric) (s : bus) : bus :=
  mkBus (subscribers s) (metrics s ++ [x]) (calls s).
Definition add_call (c : string * string) (s : bus) : bus :=
  mkBus (subscribers s) (metrics s) (calls s ++ [c]).

(** A callback returns whether to renew, whether it was a no-op, an error. *)
Class Callbacks :=
  callback : cb → string → EventData → M bus (bool * bool * option error).

Context `{Callbacks}.

Definition IsSubscribed (evType subID : string) : M bus bool :=
  gets (λ s, match subscribers s !! evType with
             | None => false
             | Some subs => existsb (λ c, bool_decide (Name c = subID)) subs
             end).

Definition Subscribe (evType : string) (sub : EventSubscriber) : M bus unit :=
  modify (λ s, set_subscribers
    (<[evType := default [] (subscribers s !! evType) ++ [sub]]> (subscribers s)) s).

(** The subscriptions of an event type; an empty list leaves the map. *)
Definition put (evType : string) (subs : list EventSubscriber)
    (m : gmap string (list EventSubscriber)) : gmap string (list EventSubscriber) :=
  match subs with [] => delete evType m | _ => <[evType := subs]> m end.

Definition Unsubscribe (evType subscriber : string) : M bus unit :=
  modify (λ s, set_subscribers
    (put evType (filter (λ c, Name c ≠ subscriber) (default [] (subscribers s !! evType)))
       (subscribers s)) s).

(** One iteration of the loop over the subscribers. *)
Definition deliver (evType : string) (d : EventData) (deleteMe : list EventSubscriber)
    (curr : EventSubscriber) : M bus (list EventSubscriber) :=
  _ ← modify (add_call (evType, Name curr));
  '(renew, noop, err) ← callback (Callback curr) evType d;
  _ ← (match MetricName curr with
       | Some n => when (negb noop) (modify (record_metric (mkMetric n err)))
       | None => mret tt
       end);
  mret (if (renew : bool) then deleteMe else deleteMe ++ [curr]).

(** The event processing goroutine's handling of one message of the bus. *)
Definition dispatch (evType : string) (d : EventData) : M bus unit :=
  subs ← gets (λ s, subscribers s !! evType);
  match subs with
  | None => mret tt
  | Some subs =>
      deleteMe ← for_acc subs [] (deliver evType d);
      for_each deleteMe (λ c, Unsubscribe evType (Name c))
  end.

End bus.

#[global] Arguments EventSubscriber : clear implicits.
#[global] Arguments EventData : clear implicits.
#[global] Arguments bus : clear implicits.
#[global] Arguments Callbacks : clear implicits.

(** ** Watchers *)

(** A watcher's goroutine, [runWatcher]. *)
Inductive wstate :=
| WIdle                   (* added, the manager is not running *)
| WRun                    (* in [watcher.Run] *)
| WSend (renew : bool)    (* blocked on [dataBus <-] *)
| WCheck                  (* left the loop, before reading [abort] *)
| WRemoved                (* blocked on [removed <- true] *)
| WDone                   (* blocked on [watcherDone <-] *)
| WExit.

#[global] Instance wstate_eq_dec : EqDecision wstate.
Proof. solve_decision. Defined.

(** The goroutine that waits for the removal. *)
Inductive helper :=
| HWait                   (* blocked on [<-removed] *)
| HGot                    (* received, before [abort.Store] *)
| HAbort                  (* stored, before [cancel] *)
| HCancel.

Record WatcherEventType := mkEntry {
  watcher : string;       (* [watcher.ID()] *)
  evType : string;
  wst : wstate;
  hst : helper;
  (** Launched by [AddWatcher] on its own context, not by [Run] on its. *)
  late : bool;
}.

Definition set_wst (w : wstate) (e : WatcherEventType) : WatcherEventType :=
  mkEntry (watcher e) (evType e) w (hst e) (late e).
Definition set_hst (h : helper) (e : WatcherEventType) : WatcherEventType :=
  mkEntry (watcher e) (evType e) (wst e) h (late e).

(** [abort.Load()]. *)
Definition aborted (e : WatcherEventType) : bool :=
  match hst e with HAbort | HCancel => true | _ => false end.

(** A call of [RemoveWatcher]; at [RAt] and [RSend] it holds the mutex of
    [removingWatcherEvents]. *)
Inductive remover :=
| RWait (id : string)
| RAt (id : string) (i n : nat)     (* at the [i]-th of the [n] entries it ranges over *)
| RSend (id : string) (i n : nat)   (* blocked on [curr.removed <- true] *)
| RRet (id : string).

Definition holds (r : remover) : bool :=
  match r with RAt _ _ _ | RSend _ _ _ => true | _ => false end.

(** Why the context of [Run] is done. *)
Inductive context := Live | AllDone | External.

(** The loop of [Run] that reaps watchers. *)
Inductive control :=
| Outside                         (* [Run] was not called *)
| Loop
| Got (ev : string) (len : nat)   (* [len] watchers left, [ev] to forget *)
| Left.

Record system := mkSystem {
  watcherEvents : list WatcherEventType;
  watchersMap : gset string;
  removing : gset string;
  queue : gset string;
  removers : list remover;
  ctl : control;
  ctx : context;
  (** The event goroutine of [Run] still receives. *)
  listening : bool;
  (** The entries whose events were delivered, in order. *)
  delivered : list nat;
}.

Definition set_entry (i : nat) (e : WatcherEventType) (s : system) : system :=
  mkSystem (<[i := e]> (watcherEvents s)) (watchersMap s) (removing s) (queue s) (removers s)
    (ctl s) (ctx s) (listening s) (delivered s).
Definition set_remover (k : nat) (r : remover) (s : system) : system :=
  mkSystem (watcherEvents s) (watchersMap s) (removing s) (queue s) (<[k := r]> (removers s))
    (ctl s) (ctx s) (listening s) (delivered s).
Definition set_removing (m : gset string) (s : system) : system :=
  mkSystem (watcherEvents s) (watchersMap s) m (queue s) (removers s) (ctl s) (ctx s) (listening s) (delivered s).
Definition set_watchersMap (m : gset string) (s : system) : system :=
  mkSystem (watcherEvents s) m (removing s) (queue s) (removers s) (ctl s) (ctx s) (listening s) (delivered s).
Definition set_ctl (c : control) (q : gset string) (x : context) (s : system) : system :=
  mkSystem (watcherEvents s) (watchersMap s) (removing s) q (removers s) c x (listening s) (delivered s).
Definition add_remover (id : string) (s : system) : system :=
  mkSystem (watcherEvents s) (watchersMap s) (removing s) (queue s) (removers s ++ [RWait id])
    (ctl s) (ctx s) (listening s) (delivered s).
Definition add_delivered (i : nat) (s : system) : system :=
  mkSystem (watcherEvents s) (watchersMap s) (removing s) (queue s) (removers s)
    (ctl s) (ctx s) (listening s) (delivered s ++ [i]).

Definition is_running (s : system) : bool := match ctl s with Outside => false | _ => true end.
Definition is_live (s : system) : bool := match ctx s with Live => true | _ => false end.
Definition lock_free (s : system) : bool := forallb (λ r, negb (holds r)) (removers s).

(** [nCtx.Err() != nil]: cancelled by the helper, or with the parent context. *)
Definition cancelled (s : system) (e : WatcherEventType) : bool :=
  match hst e, ctx s with
  | HCancel, _ => true
  | _, External => true
  | _, AllDone => negb (late e)
  | _, Live => false
  end.

Definition newManager : system := mkSystem [] ∅ ∅ ∅ [] Outside Live false [].

(** [AddWatcher]: the watcher is launched when the manager is running. *)
Definition AddWatcher (id : string) (evs : list string) (s : system) : system * option error :=
  if bool_decide (id ∈ watchersMap s) then (s, Some (ErrMsg "watcher was previously added"))
  else
    let w := if is_running s then WRun else WIdle in
    (mkSystem (watcherEvents s ++ ((λ ev, mkEntry id ev w HWait (is_running s)) <$> evs)) ({[id]} ∪ watchersMap s)
       (removing s) (if is_running s then list_to_set evs ∪ queue s else queue s)
       (removers s) (ctl s) (ctx s) (listening s) (delivered s), None).

(** The start of [Run]: all watchers are launched; with none the control loop
    ends at once, without cancelling the context. *)
Definition start (s : system) : system :=
  let es := set_wst WRun <$> watcherEvents s in
  let q : gset string := list_to_set (evType <$> es) in
  mkSystem es (watchersMap s) (removing s) q (removers s)
    (if bool_decide (q = ∅) then Left else Loop) (ctx s) true (delivered s).

(** [RemoveWatcher] once it has the mutex: the watcher is forgotten, and the
    search of its entries begins. *)
Definition begin_removal (k : nat) (id : string) (s : system) : system :=
  if bool_decide (id ∈ watchersMap s)
  then set_remover k (RAt id 0 (length (watcherEvents s))) (set_watchersMap (watchersMap s ∖ {[id]}) s)
  else set_remover k (RRet id) s.

(** The entry at position [i] of the loop of [RemoveWatcher]. *)
Definition visit (k : nat) (id : string) (i n : nat) (e : WatcherEventType) (s : system) : system :=
  if bool_decide (evType e ∈ removing s) then set_remover k (RAt id (S i) n) s
  else if bool_decide (watcher e = id) then
    set_remover k (if is_running s then RSend id i n else RAt id (S i) n)
      (set_removing ({[evType e]} ∪ removing s) s)
  else set_remover k (RAt id (S i) n) s.

(** After the loop's body the control loop forgets the removal, and leaves
    when no watcher is left or the context is done. *)
Definition reaped (ev : string) (len : nat) (s : system) : system :=
  set_removing (removing s ∖ {[ev]})
    (set_ctl (match len, ctx s with 0, _ => Left | _, Live => Loop | _, _ => Left end) (queue s)
       (match len, ctx s with 0, Live => AllDone | _, c => c end) s).

Inductive step : system → system → Prop :=
| step_add s id evs :
    (AddWatcher id evs s).2 = None → step s (AddWatcher id evs s).1
| step_start s : ctl s = Outside → step s (start s)
| step_cancel s : is_live s = true → step s (set_ctl (ctl s) (queue s) External s)
| step_return s i e renew :          (* [watcher.Run] returns *)
    watcherEvents s !! i = Some e → wst e = WRun →
    step s (set_entry i (set_wst
      (if aborted e || cancelled s e then WCheck else WSend renew) e) s)
| step_deliver s i e renew :         (* the event goroutine takes the event *)
    watcherEvents s !! i = Some e → wst e = WSend renew → listening s = true →
    step s (add_delivered i (set_entry i (set_wst (if renew then WRun else WCheck) e) s))
| step_check s i e :
    watcherEvents s !! i = Some e → wst e = WCheck →
    step s (set_entry i (set_wst (if aborted e then WDone else WRemoved) e) s)
| step_self_remove s i e :           (* [removed <- true], taken by the helper *)
    watcherEvents s !! i = Some e → wst e = WRemoved → hst e = HWait →
    step s (set_entry i (set_hst HGot (set_wst WDone e)) s)
| step_abort s i e :
    watcherEvents s !! i = Some e → hst e = HGot → step s (set_entry i (set_hst HAbort e) s)
| step_helper_cancel s i e :
    watcherEvents s !! i = Some e → hst e = HAbort → step s (set_entry i (set_hst HCancel e) s)
| step_done s i e :                  (* [watcherDone <-], taken by the control loop *)
    watcherEvents s !! i = Some e → wst e = WDone → ctl s = Loop →
    step s (set_ctl (Got (evType e) (size (queue s ∖ {[evType e]}))) (queue s ∖ {[evType e]}) (ctx s)
             (set_entry i (set_wst WExit e) s))
| step_reap s ev len :               (* [deleteRemovingEvent] needs the mutex *)
    ctl s = Got ev len → lock_free s = true → step s (reaped ev len s)
| step_bus_leave s :
    is_live s = false → step s (mkSystem (watcherEvents s) (watchersMap s) (removing s) (queue s)
                                  (removers s) (ctl s) (ctx s) false (delivered s))
| step_leave s : ctl s = Loop → is_live s = false → step s (set_ctl Left (queue s) (ctx s) s)
| step_remove s id : step s (add_remover id s)
| step_lock s k id :
    removers s !! k = Some (RWait id) → lock_free s = true → step s (begin_removal k id s)
| step_visit s k id i n e :
    removers s !! k = Some (RAt id i n) → i < n → watcherEvents s !! i = Some e → step s (visit k id i n e s)
| step_remove_send s k id i n e :      (* [curr.removed <- true], taken by the helper *)
    removers s !! k = Some (RSend id i n) → watcherEvents s !! i = Some e → hst e = HWait →
    step s (set_remover k (RAt id (S i) n) (set_entry i (set_hst HGot e) s))
| step_removed s k id i n :
    removers s !! k = Some (RAt id i n) → n ≤ i → step s (set_remover k (RRet id) s).

(** ** Subscriptions *)
Section delivery.
Context {cb data : Type} `{Callbacks cb data}.

(** The subscribers of a delivery that do not renew, by the callbacks'
    outcome. *)
Variable outcome : cb → string → EventData data → bool * bool * option error.

Definition declined (ev : string) (d : EventData data) (l : list (EventSubscriber cb)) :=
  filter (λ c, (outcome (Callback c) ev d).1.1 = false) l.

Definition recorded (ev : string) (d : EventData data) (l : list (EventSubscriber cb)) : list metric :=
  omap (λ c, match MetricName c, outcome (Callback c) ev d with
             | Some n, (_, false, err) => Some (mkMetric n err)
             | _, _ => None
             end) l.

Hypothesis callbacks : ∀ c ev d s, callback c ev d s = Some (s, outcome c ev d).

Lemma run_deliver ev d l acc (s : bus cb) :
  for_acc l acc (deliver ev d) s =
    Some (mkBus (subscribers s) (metrics s ++ recorded ev d l)
            (calls s ++ ((λ c, (ev, Name c)) <$> l)),
          acc ++ declined ev d l).
Proof.
  revert acc s. induction l as [|c l IH]; intros acc s; cbn [for_acc].
  { destruct s. simpl. by rewrite !app_nil_r. }
  unfold mbind at 1, M_bind at 1, deliver. unfold mbind, M_bind, modify. rewrite callbacks.
  unfold declined, recorded. rewrite filter_cons. cbn [fmap list_fmap omap list_omap].
  destruct (outcome (Callback c) ev d) as [[renew noop] err]. simpl.
  destruct (MetricName c) as [n|], noop, renew; simpl; rewrite IH; simpl;
    rewrite <-?app_assoc; try done.
Qed.

Lemma lookup_put ev (l : list (EventSubscriber cb)) m :
  default [] (put ev l m !! ev) = l ∧ put ev l m !! ev ≠ Some [].
Proof. destruct l; simpl; [by rewrite lookup_delete_eq|by rewrite lookup_insert_eq]. Qed.

Lemma put_put ev (l l' : list (EventSubscriber cb)) m : put ev l (put ev l' m) = put ev l m.
Proof.
  destruct l, l'; simpl; by rewrite ?delete_delete_eq, ?delete_insert_eq, ?insert_delete_eq, ?insert_insert_eq.
Qed.

Lemma put_id ev (l : list (EventSubscriber cb)) m :
  m !! ev ≠ Some [] → default [] (m !! ev) = l → put ev l m = m.
Proof.
  intros Hne <-. destruct (m !! ev) as [[|c l]|] eqn:E; simpl; [done|by apply insert_id|by apply delete_id].
Qed.

Lemma filter_none_out (l : list (EventSubscriber cb)) :
  filter (λ c, Name c ∉ ([] : list string)) l = l.
Proof. induction l as [|c l IH]; [done|]. by rewrite filter_cons_True, IH by apply not_elem_of_nil. Qed.

Lemma run_unsubscribes ev (names : list (EventSubscriber cb)) (s : bus cb) :
  subscribers s !! ev ≠ Some [] →
  for_each names (λ c, Unsubscribe ev (Name c)) s =
    Some (set_subscribers
      (put ev (filter (λ c, Name c ∉ Name <$> names) (default [] (subscribers s !! ev))) (subscribers s)) s, tt).
Proof.
  revert s. induction names as [|c names IH]; intros s Hne; cbn [for_each fmap list_fmap].
  { rewrite put_id; [by destruct s|done|]. symmetry. apply filter_none_out. }
  unfold mbind at 1, M_bind at 1. unfold Unsubscribe at 1, modify. rewrite IH by apply lookup_put. simpl.
  destruct (lookup_put ev (filter (λ c0, Name c0 ≠ Name c) (default [] (subscribers s !! ev))) (subscribers s))
    as [-> _]. rewrite put_put, list_filter_filter.
  rewrite (list_filter_iff _ (λ x, Name x ∉ Name c :: (Name <$> names))); [done|].
  intros x. rewrite not_elem_of_cons. tauto.
Qed.

(** Delivering an event runs the callback of every subscriber of the event
    type once, in the order of subscription, on the subscriptions as they were
    when the event was taken; it records a metric for exactly the subscribers
    that have one and did not report a no-op, with the callback's error; and
    afterwards exactly the subscriptions of that event type under the name of
    a subscriber that did not renew are gone, those of other event types
    untouched. *)
Theorem dispatch_delivers (ev : string) (d : EventData data) (s : bus cb) :
  subscribers s !! ev ≠ Some [] →
  let l := default [] (subscribers s !! ev) in
  ∃ s', dispatch ev d s = Some (s', tt) ∧
    calls s' = calls s ++ ((λ c, (ev, Name c)) <$> l) ∧
    metrics s' = metrics s ++ recorded ev d l ∧
    (∀ ev', ev' ≠ ev → subscribers s' !! ev' = subscribers s !! ev') ∧
    ∀ c, c ∈ default [] (subscribers s' !! ev) ↔ c ∈ l ∧ Name c ∉ Name <$> declined ev d l.
Proof.
  intros Hne l. unfold dispatch, gets, mbind at 1, M_bind at 1. destruct (subscribers s !! ev) as [subs|] eqn:E.
  - unfold mbind, M_bind. rewrite run_deliver. simpl.
    rewrite run_unsubscribes by (simpl; by rewrite E). eexists. split; [done|]. simpl.
    rewrite E. simpl. split_and!; try done.
    + intros ev' Hev. destruct (filter _ subs); simpl;
        [by rewrite lookup_delete_ne|by rewrite lookup_insert_ne].
    + intros c. destruct (lookup_put ev (filter (λ c, Name c ∉ Name <$> declined ev d subs) subs) (subscribers s))
        as [-> _]. rewrite list_elem_of_filter. unfold l. simpl. tauto.
  - exists s. rewrite E. unfold l. simpl. rewrite !app_nil_r. split_and!; try done.
    intros c. set_solver.
Qed.

End delivery.

(** ** Watchers *)
Section watchers.
Implicit Types (s : system) (e : WatcherEventType).

(** Updating one entry of the list. *)
Lemma lookup_set_entry i j e e0 s :
  watcherEvents s !! i = Some e0 →
  watcherEvents (set_entry i e s) !! j = if bool_decide (j = i) then Some e else watcherEvents s !! j.
Proof.
  intros Hi. simpl. case_bool_decide as Hj; [subst|by apply list_lookup_insert_ne].
  apply list_lookup_insert_eq. by eapply lookup_lt_Some.
Qed.

(** Deliveries of an entry's events. *)
Definition count (i : nat) (l : list nat) : nat := length (filter (λ j, j = i) l).

Definition due e : nat := match wst e with WSend _ => 1 | _ => 0 end.

Definition rank (h : helper) : nat :=
  match h with HWait => 0 | HGot => 1 | HAbort => 2 | HCancel => 3 end.

(** How one entry evolves in a step: it keeps its watcher and event type, its
    helper only advances, it delivers events only by sending them, and once it
    is aborted it sends no new one. *)
Definition evolves (i : nat) (s s' : system) e e' : Prop :=
  watcher e' = watcher e ∧ evType e' = evType e ∧ rank (hst e) ≤ rank (hst e') ∧
  (aborted e = true → count i (delivered s') + due e' ≤ count i (delivered s) + due e).

Lemma evolves_same i s s' e : delivered s' = delivered s → evolves i s s' e e.
Proof. intros Hd. unfold evolves. by rewrite Hd. Qed.

(** Steps that leave the entries alone. *)
Lemma unchanged_entry i s s' e :
  watcherEvents s !! i = Some e → watcherEvents s' = watcherEvents s → delivered s' = delivered s →
  ∃ e', watcherEvents s' !! i = Some e' ∧ evolves i s s' e e'.
Proof. intros He Hw Hd. exists e. rewrite Hw. split; [done|by apply evolves_same]. Qed.

(** Steps of one entry that deliver nothing. *)
Lemma moved_entry i j s s' e e0 e1 :
  watcherEvents s !! i = Some e → watcherEvents s !! j = Some e0 →
  watcherEvents s' = <[j := e1]> (watcherEvents s) → delivered s' = delivered s →
  watcher e1 = watcher e0 → evType e1 = evType e0 → rank (hst e0) ≤ rank (hst e1) →
  (aborted e0 = true → due e1 ≤ due e0) →
  ∃ e', watcherEvents s' !! i = Some e' ∧ evolves i s s' e e'.
Proof.
  intros Hi Hj Hw Hd H1 H2 H3 H4. rewrite Hw. destruct (decide (i = j)) as [->|Hne].
  - exists e1. simplify_eq. split; [apply list_lookup_insert_eq; by eapply lookup_lt_Some|].
    unfold evolves. rewrite Hd. split_and!; try done. intros Ha. specialize (H4 Ha). lia.
  - exists e. rewrite list_lookup_insert_ne by done. split; [done|by apply evolves_same].
Qed.

Lemma visit_entries k id i n e s :
  watcherEvents (visit k id i n e s) = watcherEvents s ∧ delivered (visit k id i n e s) = delivered s ∧
  ctl (visit k id i n e s) = ctl s ∧ ctx (visit k id i n e s) = ctx s ∧ queue (visit k id i n e s) = queue s.
Proof. unfold visit. by repeat case_bool_decide. Qed.

Lemma begin_entries k id s :
  watcherEvents (begin_removal k id s) = watcherEvents s ∧ delivered (begin_removal k id s) = delivered s ∧
  ctl (begin_removal k id s) = ctl s ∧ ctx (begin_removal k id s) = ctx s ∧
  queue (begin_removal k id s) = queue s.
Proof. unfold begin_removal. by case_bool_decide. Qed.

Lemma entry_step i s s' e :
  step s s' → watcherEvents s !! i = Some e →
  ∃ e', watcherEvents s' !! i = Some e' ∧ evolves i s s' e e'.
Proof.
  intros Hs He. inversion Hs; subst; clear Hs;
    try (by apply unchanged_entry);
    try (eapply (moved_entry i _ _ _ e); [exact He|eassumption|reflexivity|reflexivity|reflexivity|reflexivity|..];
         unfold aborted, due, set_wst, set_hst; simpl;
         repeat match goal with E : hst _ = _ |- _ => rewrite E | E : wst _ = _ |- _ => rewrite E end;
         simpl; try lia; intros Ha; unfold aborted in *; try rewrite Ha in *; simpl; repeat case_match; simpl in *; try done; lia).
  - unfold AddWatcher in *. case_bool_decide; [done|]. simpl. exists e. split; [|by apply evolves_same].
    rewrite lookup_app_l; [done|by eapply lookup_lt_Some].
  - exists (set_wst WRun e). simpl. rewrite list_lookup_fmap, He. split; [done|].
    unfold evolves. simpl. split_and!; try done. intros _. unfold due at 1. simpl. lia.
  - simpl. destruct (decide (i = i0)) as [->|Hne].
    + simplify_eq. eexists. split; [apply list_lookup_insert_eq; by eapply lookup_lt_Some|].
      unfold evolves. simpl. split_and!; try done. intros _. unfold count, due. rewrite filter_app, length_app.
      rewrite filter_cons_True by done.
      match goal with E : wst _ = WSend _ |- _ => rewrite E end. destruct renew; simpl; lia.
    + exists e. rewrite list_lookup_insert_ne by done. split; [done|]. unfold evolves. simpl.
      split_and!; try done. intros _. unfold count. rewrite filter_app, length_app, filter_cons_False by done.
      simpl. lia.
  - destruct (begin_entries k id s) as (Hw & Hd & _). by apply unchanged_entry.
  - destruct (visit_entries k id i0 n e0 s) as (Hw & Hd & _). by apply unchanged_entry.
Qed.

Lemma entry_steps i s s' e :
  rtc step s s' → watcherEvents s !! i = Some e →
  ∃ e', watcherEvents s' !! i = Some e' ∧ evolves i s s' e e'.
Proof.
  intros Hr. revert e. induction Hr as [s|s1 s2 s3 Hs _ IH]; intros e He.
  { exists e. split; [done|by apply evolves_same]. }
  destruct (entry_step i _ _ _ Hs He) as (e2 & He2 & W2 & V2 & R2 & D2).
  destruct (IH _ He2) as (e3 & He3 & W3 & V3 & R3 & D3). exists e3. split; [done|].
  split_and!; [congruence|congruence|lia|]. intros Ha.
  assert (Ha2 : aborted e2 = true) by (unfold aborted in *; destruct (hst e), (hst e2); simpl in *; try done; lia).
  specialize (D2 Ha). specialize (D3 Ha2). lia.
Qed.

(** A watcher the removal reached stops: once its removal has been noted,
    whatever runs next and however often its [Run] still returns events, it
    delivers at most one more event, the one it was already sending. *)
Theorem removed_watcher_stops (i : nat) (s s' : system) (e : WatcherEventType) :
  rtc step s s' → watcherEvents s !! i = Some e → aborted e = true →
  count i (delivered s') ≤ count i (delivered s) + due e.
Proof.
  intros Hr He Ha. destruct (entry_steps i s s' e Hr He) as (e' & _ & _ & _ & _ & Hd).
  specialize (Hd Ha). lia.
Qed.

(** A removal blocked on an entry whose helper already received: nobody will
    ever receive from that channel again. *)
Definition hung (k : nat) (id : string) (i n : nat) (s : system) : Prop :=
  removers s !! k = Some (RSend id i n) ∧ (∃ e, watcherEvents s !! i = Some e ∧ hst e ≠ HWait) ∧
  ctx s ≠ AllDone.

Lemma lookup_remover k k' r s :
  k' ≠ k → removers (set_remover k' r s) !! k = removers s !! k.
Proof. intros Hne. simpl. by apply list_lookup_insert_ne. Qed.

Lemma hung_lock k id i n s : removers s !! k = Some (RSend id i n) → lock_free s = false.
Proof.
  intros Hk. apply not_true_iff_false. intros Hf. unfold lock_free in Hf.
  rewrite forallb_forall in Hf. apply list_elem_of_lookup_2, list_elem_of_In, Hf in Hk. done.
Qed.

Lemma hung_step k id i n s s' : hung k id i n s → step s s' → hung k id i n s'.
Proof.
  intros (Hk & (e & He & Hh) & Hc) Hs. pose proof (hung_lock _ _ _ _ _ Hk) as Hlock.
  destruct (entry_step i s s' e Hs He) as (e' & He' & _ & _ & Hr & _).
  split; [|split; [exists e'; split; [done|]; by destruct (hst e), (hst e'); simpl in Hr; try done; lia|]].
  - inversion Hs; subst; clear Hs He'; try done;
      try (rewrite lookup_remover; [done|intros ->; congruence]); try congruence.
    + unfold AddWatcher in *. case_bool_decide; done.
    + simpl. rewrite lookup_app_l; [done|by eapply lookup_lt_Some].
    + unfold visit. repeat case_bool_decide; (rewrite lookup_remover; [done|intros ->; congruence]).
  - inversion Hs; subst; clear Hs He'; try done; try congruence.
    + unfold AddWatcher in *. case_bool_decide; done.
    + unfold visit. by repeat case_bool_decide.
Qed.

(** Takes one step to a computed state. *)
Tactic Notation "take" "step" uconstr(st) :=
  eapply rtc_l; [eapply st; first [reflexivity | apply Nat.ltb_lt; reflexivity]|];
  match goal with
  | |- rtc _ ?s _ => let s' := eval vm_compute in s in replace s with s' by (vm_compute; reflexivity)
  end.

(** Two watchers, of which "w" finished by itself before it was removed. *)
Definition finished_watcher : system :=
  mkSystem [mkEntry "w" "e" WExit HGot false; mkEntry "v" "f" WRun HWait false] {["v"]} {["e"]} {["f"]}
    [RSend "w" 0 2] Loop Live true [0].

(** Removing a watcher that already finished hangs: the send on its
    [removed] channel has no receiver any more, so [RemoveWatcher] never
    returns and never releases the mutex it holds; no later removal gets it,
    and the control loop, which needs it for every watcher it reaps, never
    lets [Run] return for lack of watchers. *)
Theorem RemoveWatcher_can_hang :
  rtc step newManager finished_watcher ∧
  ∀ s', rtc step finished_watcher s' →
    removers s' !! 0 = Some (RSend "w" 0 2) ∧ lock_free s' = false ∧ ctx s' ≠ AllDone.
Proof.
  split.
  - take step (step_add _ "w" ["e"]). take step (step_add _ "v" ["f"]). take step step_start.
    take step (step_return _ 0 _ false). take step (step_deliver _ 0 _ false).
    take step (step_check _ 0). take step (step_self_remove _ 0). take step (step_done _ 0).
    take step step_reap. take step (step_remove _ "w"). take step (step_lock _ 0).
    take step (step_visit _ 0 _ 0).
    vm_compute. apply rtc_refl.
  - intros s' Hr. assert (Hh : hung 0 "w" 0 2 s').
    { apply (rtc_invariant step (hung 0 "w" 0 2) finished_watcher s'); [|split_and!|exact Hr].
      - intros a b. apply hung_step.
      - done.
      - eexists. split; [reflexivity|discriminate].
      - discriminate. }
    destruct Hh as (Hk & _ & Hc). split_and!; [done|by eapply hung_lock|done].
Qed.

(** ** When [Run] ends *)

(** The queue holds the event types of the watchers that are not finished. *)
Definition queue_ok s : Prop :=
  NoDup (evType <$> watcherEvents s) ∧
  (ctl s = Outside → ctx s ≠ AllDone) ∧
  (is_running s = true → ∀ i e, watcherEvents s !! i = Some e → (wst e ≠ WExit ↔ evType e ∈ queue s)) ∧
  (∀ ev len, ctl s = Got ev len → len = size (queue s)) ∧
  (ctx s = AllDone → queue s = ∅).

(** Steps that do not look like the end of a watcher. *)
Lemma queue_ok_quiet s s' :
  queue_ok s → queue s' = queue s → ctl s' = ctl s → (ctx s' = AllDone → ctx s = AllDone) →
  evType <$> watcherEvents s' = evType <$> watcherEvents s →
  (∀ i e', watcherEvents s' !! i = Some e' →
     ∃ e, watcherEvents s !! i = Some e ∧ evType e' = evType e ∧ (wst e' = WExit ↔ wst e = WExit)) →
  queue_ok s'.
Proof.
  intros (Hnd & Ho & Hq & Hg & Ha) Eq Ec Ex Ev He. unfold queue_ok, is_running in *.
  rewrite Eq, Ec, Ev. split_and!; [done|by intros ? ?%Ex; apply Ho| |done|by intros ?%Ex; apply Ha].
  intros Hrun i e' He'. destruct (He i e' He') as (e & Hi & Ht & Hw). rewrite Ht, <-(Hq Hrun i e Hi). tauto.
Qed.

Lemma moved_quiet i e e1 s :
  watcherEvents s !! i = Some e → evType e1 = evType e → (wst e1 = WExit ↔ wst e = WExit) →
  let l := <[i := e1]> (watcherEvents s) in
  evType <$> l = evType <$> watcherEvents s ∧
  ∀ j e', l !! j = Some e' →
    ∃ e0, watcherEvents s !! j = Some e0 ∧ evType e' = evType e0 ∧ (wst e' = WExit ↔ wst e0 = WExit).
Proof.
  intros Hi Ht Hw l. split.
  - unfold l. rewrite list_fmap_insert, Ht. apply list_insert_id. by rewrite list_lookup_fmap, Hi.
  - intros j e'. unfold l. destruct (decide (j = i)) as [->|Hne].
    + rewrite list_lookup_insert_eq by (by eapply lookup_lt_Some). intros [= <-]. by exists e.
    + rewrite list_lookup_insert_ne by done. intros He'. by exists e'.
Qed.

Lemma queue_ok_done s i e :
  queue_ok s → watcherEvents s !! i = Some e → wst e = WDone → ctl s = Loop →
  queue_ok (set_ctl (Got (evType e) (size (queue s ∖ {[evType e]}))) (queue s ∖ {[evType e]}) (ctx s)
              (set_entry i (set_wst WExit e) s)).
Proof.
  intros (Hnd & Ho & Hq & Hg & Ha) Hi Hw Hc. unfold queue_ok, is_running in *. simpl. rewrite Hc in *.
  replace (evType <$> <[i := set_wst WExit e]> (watcherEvents s)) with (evType <$> watcherEvents s).
  2: { rewrite list_fmap_insert. symmetry. apply list_insert_id. by rewrite list_lookup_fmap, Hi. }
  split_and!; [done|done| |by intros ?? [= <- <-]|intros ->%Ha; set_solver].
  intros _ j e'. destruct (decide (j = i)) as [->|Hne].
  - rewrite list_lookup_insert_eq by (by eapply lookup_lt_Some). intros [= <-]. simpl. set_solver.
  - rewrite list_lookup_insert_ne by done. intros He'. rewrite (Hq eq_refl j e' He').
    assert (evType e' ≠ evType e); [|set_solver]. intros Ht. apply Hne.
    eapply (NoDup_lookup (evType <$> watcherEvents s)); [done| |]; rewrite list_lookup_fmap.
    + by rewrite He'.
    + rewrite Hi. simpl. by rewrite Ht.
Qed.

Lemma queue_ok_step s s' :
  queue_ok s → step s s' → length (watcherEvents s') = length (watcherEvents s) → queue_ok s'.
Proof.
  intros Hok Hs Hlen. inversion Hs; subst; clear Hs.
  all: try (eapply queue_ok_quiet; [exact Hok|done|done|done|done|]; intros j e' He'; by exists e').
  all: try match goal with Hi : watcherEvents ?s !! ?i = Some ?e |- queue_ok ?s' =>
    match s' with context [set_entry i ?e1] =>
      edestruct (moved_quiet i e e1 s) as [Hq1 Hq2]; [exact Hi|reflexivity|simpl|
        by apply (queue_ok_quiet s)]
    end end.
  all: try (split; done).
  all: try (match goal with E : wst _ = _ |- _ => rewrite E end; repeat case_match; split; discriminate).
  - unfold AddWatcher in *. case_bool_decide; [done|]. simpl in *. rewrite length_app, length_fmap in Hlen.
    destruct evs; [|simpl in Hlen; lia]. simpl. rewrite app_nil_r.
    eapply queue_ok_quiet; [exact Hok|simpl; case_match; set_solver|done|done|done|].
    intros j e' He'; by exists e'.
  - destruct Hok as (Hnd & Ho & _). unfold queue_ok, start. simpl.
    assert (Ht : evType <$> (set_wst WRun <$> watcherEvents s) = evType <$> watcherEvents s)
      by (rewrite <-list_fmap_compose; by apply list_fmap_ext).
    rewrite Ht. split_and!; [done|by intros _; apply Ho| | |by intros ?%Ho].
    + intros _ i e. rewrite list_lookup_fmap. intros (e0 & He0 & ->)%fmap_Some_1. simpl. split; [|done].
      intros _. apply elem_of_list_to_set, list_elem_of_fmap. exists e0. split; [done|].
      by eapply list_elem_of_lookup_2.
    + by case_bool_decide.
  - by apply (queue_ok_done s i e).
  - destruct Hok as (Hnd & Ho & Hq & Hg & Ha). unfold queue_ok, reaped, is_running in *. simpl.
    rewrite H in *. specialize (Hg _ _ eq_refl). split_and!; try done; try (by repeat case_match).
    destruct len; [|by destruct (ctx s)]. intros _. symmetry in Hg. by apply size_empty_inv in Hg as ->%leibniz_equiv.
  - destruct Hok as (Hnd & Ho & Hq & Hg & Ha). unfold queue_ok, is_running in *. simpl.
    rewrite H in *. by split_and!.
  - destruct (begin_entries k id s) as (E1 & _ & E2 & E3 & E4).
    eapply queue_ok_quiet; [exact Hok|done|done|by rewrite E3|by rewrite E1|].
    rewrite E1. intros j e' He'; by exists e'.
  - destruct (visit_entries k id i n e s) as (E1 & _ & E2 & E3 & E4).
    eapply queue_ok_quiet; [exact Hok|done|done|by rewrite E3|by rewrite E1|].
    rewrite E1. intros j e' He'; by exists e'.
Qed.

Lemma step_length s s' : step s s' → length (watcherEvents s) ≤ length (watcherEvents s').
Proof.
  intros Hs. destruct (decide (length (watcherEvents s) ≤ length (watcherEvents s'))) as [|Hlt]; [done|].
  destruct (lookup_lt_is_Some_2 (watcherEvents s) (length (watcherEvents s'))) as [e He]; [lia|].
  destruct (entry_step _ s s' e Hs He) as (e' & He' & _). apply lookup_lt_Some in He'. lia.
Qed.

(** With distinct event types and no watcher added meanwhile, [Run] ends
    for lack of watchers (its own cancellation of the context) only when the
    goroutine of every watcher and event type has finished. *)
Theorem Run_waits_for_watchers (s s' : system) :
  ctl s = Outside → ctx s = Live → NoDup (evType <$> watcherEvents s) →
  rtc step s s' → length (watcherEvents s') = length (watcherEvents s) →
  ctx s' = AllDone → Forall (λ e, wst e = WExit) (watcherEvents s').
Proof.
  intros Hc Hx Hnd Hr Hlen Hd.
  assert (Hinv : length (watcherEvents s) ≤ length (watcherEvents s') ∧
                 (length (watcherEvents s') = length (watcherEvents s) → queue_ok s')).
  { apply (rtc_invariant step (λ a, length (watcherEvents s) ≤ length (watcherEvents a) ∧
             (length (watcherEvents a) = length (watcherEvents s) → queue_ok a)) s s'); [| |done].
    - intros a b [Hle Hok] Hs. pose proof (step_length a b Hs). split; [lia|]. intros Hb.
      apply (queue_ok_step a); [apply Hok; lia|done|lia].
    - split; [done|]. intros _. unfold queue_ok, is_running. rewrite Hc, Hx. by split_and!. }
  destruct Hinv as [_ Hok]. destruct (Hok Hlen) as (_ & Ho & Hq & _ & Ha).
  apply Forall_lookup. intros i e He. destruct (ctl s') eqn:Ec; try (destruct (Ho eq_refl Hd)).
  all: destruct (decide (wst e = WExit)) as [|Hne]; [done|]; exfalso.
  all: apply (Hq ltac:(unfold is_running; by rewrite Ec) i e He) in Hne; rewrite (Ha Hd) in Hne; set_solver.
Qed.

(** Two watchers of the same event type: the first to finish ends [Run]. *)
Definition same_event : system :=
  mkSystem [mkEntry "w" "e" WExit HGot false; mkEntry "v" "e" WRun HWait false] {["w"; "v"]} ∅ ∅
    [] Left AllDone true [0].

(** The queue of running watchers is keyed by event type: with two watchers
    of one event type, [Run] cancels its context when the first of them is
    done, while the other is still running. *)
Theorem Run_can_leave_early :
  ∃ s e, rtc step newManager s ∧ ctx s = AllDone ∧ removers s = [] ∧
    watcherEvents s !! 1 = Some e ∧ wst e = WRun.
Proof.
  eexists same_event, _. split; [|by split_and!].
  take step (step_add _ "w" ["e"]). take step (step_add _ "v" ["e"]). take step step_start.
  take step (step_return _ 0 _ false). take step (step_deliver _ 0 _ false).
  take step (step_check _ 0). take step (step_self_remove _ 0). take step (step_done _ 0).
  take step step_reap. vm_compute. apply rtc_refl.
Qed.

(** ** Concrete runs *)
Definition one_watcher : system :=
  mkSystem [mkEntry "w" "e" (WSend true) HAbort false] ∅ {["e"]} {["e"]} [RRet "w"] Loop Live true [].

Lemma removed_watcher_stops_witness :
  rtc step one_watcher (add_delivered 0 (set_entry 0 (mkEntry "w" "e" WRun HAbort false) one_watcher)) ∧
  count 0 (delivered (add_delivered 0 (set_entry 0 (mkEntry "w" "e" WRun HAbort false) one_watcher))) ≤ 1.
Proof.
  assert (Hr : rtc step one_watcher
    (add_delivered 0 (set_entry 0 (mkEntry "w" "e" WRun HAbort false) one_watcher))).
  { apply rtc_once.
    apply (step_deliver one_watcher 0 (mkEntry "w" "e" (WSend true) HAbort false) true); reflexivity. }
  split; [exact Hr|].
  exact (removed_watcher_stops 0 one_watcher _ (mkEntry "w" "e" (WSend true) HAbort false) Hr eq_refl eq_refl).
Defined.

Definition added : system := (AddWatcher "w" ["e"] newManager).1.
Definition all_done : system :=
  mkSystem [mkEntry "w" "e" WExit HGot false] {["w"]} ∅ ∅ [] Left AllDone true [0].

Lemma added_runs : rtc step added all_done.
Proof.
  unfold added. take step step_start. take step (step_return _ 0 _ false).
  take step (step_deliver _ 0 _ false). take step (step_check _ 0). take step (step_self_remove _ 0).
  take step (step_done _ 0). take step step_reap. vm_compute. apply rtc_refl.
Qed.

Lemma Run_waits_for_watchers_witness :
  ctx all_done = AllDone ∧ Forall (λ e, wst e = WExit) (watcherEvents all_done).
Proof.
  split; [reflexivity|].
  apply (Run_waits_for_watchers added all_done); [reflexivity|reflexivity| |exact added_runs|reflexivity|reflexivity].
  vm_compute. apply NoDup_singleton.
Defined.
End watchers.

(** A subscriber that declines once. *)
#[local] Instance declining : Callbacks bool unit := λ c ev d s, Some (s, (c, false, None)).
Definition two_subscribers : bus bool :=
  mkBus {["e" := [mkSub "a" true None; mkSub "b" false (Some "B")]]} [] [].

Lemma dispatch_delivers_witness :
  ∃ s', dispatch "e" (mkData tt None) two_subscribers = Some (s', tt) ∧
    calls s' = [("e", "a"); ("e", "b")] ∧ metrics s' = [mkMetric "B" None] ∧
    IsSubscribed "e" "b" s' = Some (s', false) ∧ IsSubscribed "e" "a" s' = Some (s', true).
Proof.
  destruct (dispatch_delivers (λ c _ _, (c, false, None)) (λ c ev d s, eq_refl) "e" (mkData tt None)
    two_subscribers) as (s' & Hd & Hc & Hm & _); [discriminate|].
  exists s'. split; [exact Hd|]. split; [exact Hc|]. split; [exact Hm|].
  vm_compute in Hd. injection Hd as <-. split; reflexivity.
Defined.

End Events.
