(* ===== verification/SshCA.v ===== *)
(** * internal/pipewatcher and the certificate authorities of OS Login

    pipewatcher.go and pipewatcher_linux.go: the watcher of a named pipe, whose
    [Run] and cancelation goroutine are a step relation, since both block in
    the open of the pipe and on a channel.  oslogin_sshca_linux.go: the
    subscriber that writes the trusted keys to the pipe.  The metadata server,
    JSON and the writes to the pipe are parameters. *)
From S2P Require Import Prelude GoStrings Os Accounts Daemon Events.

(** ** internal/pipewatcher *)
Module PipeWatcher.
Import Accounts.

Record Options := mkOptions { PipePath : string; ReadEventID : string }.

Record Handle := mkHandle { watcherID : string; options : Options; waitingWrite : bool }.

Definition New (id : string) (opts : Options) : Handle := mkHandle id opts false.
Definition ID (hdl : Handle) : string := watcherID hdl.
Definition Events (hdl : Handle) : list string := [ReadEventID (options hdl)].
Definition setWaitingWrite (b : bool) (hdl : Handle) : Handle := mkHandle (watcherID hdl) (options hdl) b.
Definition isWaitingWrite (hdl : Handle) : bool := waitingWrite hdl.
Definition finishedCb (hdl : Handle) : Handle := setWaitingWrite false hdl.

Section create.
Context `{Commands} `{LookPath} `{OsFaults}.

(** A named pipe is an empty file of the model. *)
Definition Mkfifo (p : string) : M host (option error) :=
  with_fs "mkfifo" p fail_err (λ m,
    match m !! p with
    | Some _ => (m, Some (ErrMsg "file exists"))
    | None => (<[p := NFile ""]> m, None)
    end).

Definition restorecon (pipePath : string) : M host (option error) :=
  path ← (λ h, Some (h, exec_LookPath (length (ran h)) "restorecon"));
  match path with
  | Err _ => mret None
  | Ok path =>
      r ← WithContext (mkCommand [path; pipePath] "");
      mret (ErrWrap ("failed to restore SELinux context of: " +:+ pipePath) <$> Daemon.run_error r)
  end.

Definition createNamedPipe (pipePath : string) : M host (option error) :=
  let pipeDir := Dir pipePath in
  st ← os_Stat pipeDir;
  err ← (match st with
         | Err e => if IsNotExist e then os_MkdirAll pipeDir else mret None
         | Ok _ => mret None
         end);
  match err with
  | Some e => mret (Some e)
  | None =>
      st ← os_Stat pipePath;
      err ← (match st with
             | Ok _ => mret None
             | Err e =>
                 if IsNotExist e then
                   err ← Mkfifo pipePath;
                   mret (ErrFmt "failed to create named pipe" <$> err)
                 else mret (Some (ErrMsg ("failed to stat file: " +:+ pipePath)))
             end);
      match err with
      | Some e => mret (Some e)
      | None => restorecon pipePath
      end
  end.
End create.

(** *** [Run] and its goroutine *)

(** What [Run] returned: whether to renew the watcher, and the event. *)
Inductive outcome := Opened | Failed | Canceled.

Definition renew (o : outcome) : bool := match o with Canceled => false | _ => true end.

(** Where [Run] is: the loop over [isWaitingWrite], creating the pipe, the
    blocking open for writing, the test of [canceled], the send on
    [cancelContext], or back in the event manager. *)
Inductive main := MWait | MCreate | MOpen | MCheck | MSend | MReturned (o : outcome).

(** Where the cancelation goroutine is: not started, in the select, in the
    blocking open for reading, with the pipe open, gone. *)
Inductive canceler := CNone | CSelect | COpen | CReading | CExit.

Record run := mkRun {
  hdl : Handle;
  at_main : main;
  at_canceler : canceler;
  ctx_done : bool;
  canceled : bool;
  closed : bool;          (* cancelContext is closed *)
  readers : nat;          (* other processes with the pipe open for reading *)
  outstanding : nat;      (* pipe data handed out and not finished *)
}.

Definition start (h : Handle) : run := mkRun h MWait CNone false false false 0 0.

Definition set_main (m : main) (s : run) : run :=
  mkRun (hdl s) m (at_canceler s) (ctx_done s) (canceled s) (closed s) (readers s) (outstanding s).
Definition set_canceler (c : canceler) (s : run) : run :=
  mkRun (hdl s) (at_main s) c (ctx_done s) (canceled s) (closed s) (readers s) (outstanding s).
Definition set_canceled (s : run) : run :=
  mkRun (hdl s) (at_main s) (at_canceler s) (ctx_done s) true (closed s) (readers s) (outstanding s).
Definition close (o : outcome) (s : run) : run :=
  mkRun (hdl s) (MReturned o) (at_canceler s) (ctx_done s) (canceled s) true (readers s) (outstanding s).

(** One step of [Run], of its goroutine, or of the world around them. *)
Inductive step : run → run → Prop :=
| step_wait s :
    at_main s = MWait → isWaitingWrite (hdl s) = false →
    step s (set_canceler CSelect (set_main MCreate s))
| step_created s : at_main s = MCreate → step s (set_main MOpen s)
| step_create_failed s : at_main s = MCreate → step s (close Failed s)
| step_open_failed s : at_main s = MOpen → step s (close Failed s)
| step_opened s : at_main s = MOpen → 0 < readers s → step s (set_main MCheck s)
| step_check_canceled s : at_main s = MCheck → canceled s = true → step s (close Canceled s)
| step_check_live s : at_main s = MCheck → canceled s = false → step s (set_main MSend s)
  (* cancelContext <- true: a joint step; then setWaitingWrite(true) *)
| step_send s :
    at_main s = MSend → at_canceler s = CSelect →
    step s (mkRun (setWaitingWrite true (hdl s)) (MReturned Opened) CExit (ctx_done s) (canceled s) true (readers s) (S (outstanding s)))
| step_select_closed s : at_canceler s = CSelect → closed s = true → step s (set_canceler CExit s)
| step_select_done s : at_canceler s = CSelect → ctx_done s = true → step s (set_canceled (set_canceler COpen s))
  (* both ends of the pipe meet *)
| step_meet s : at_main s = MOpen → at_canceler s = COpen → step s (set_canceler CReading (set_main MCheck s))
| step_reader_open s : at_canceler s = COpen → at_main s ∈ [MCheck; MSend] → step s (set_canceler CReading s)
| step_reader_failed s : at_canceler s = COpen → step s (set_canceler CExit s)
| step_reader_closed s : at_canceler s = CReading → step s (set_canceler CExit s)
  (* the world *)
| step_cancel s : step s (mkRun (hdl s) (at_main s) (at_canceler s) true (canceled s) (closed s) (readers s) (outstanding s))
| step_readers s n : step s (mkRun (hdl s) (at_main s) (at_canceler s) (ctx_done s) (canceled s) (closed s) n (outstanding s))
| step_finished s n :
    outstanding s = S n →
    step s (mkRun (finishedCb (hdl s)) (at_main s) (at_canceler s) (ctx_done s) (canceled s) (closed s) (readers s) n)
  (* the event manager runs the watcher again *)
| step_again s o :
    at_main s = MReturned o → renew o = true →
    step s (mkRun (hdl s) MWait CNone (ctx_done s) false false (readers s) (outstanding s)).

(** ** One event at a time *)
Section theorems.
Implicit Types (s : run).

(** Past the loop nothing is outstanding, until the event is handed out. *)
Record inv s : Prop := {
  inv_waiting : waitingWrite (hdl s) = bool_decide (outstanding s = 1);
  inv_one : outstanding s ≤ 1;
  inv_inside : at_main s ∈ [MCreate; MOpen; MCheck; MSend] → outstanding s = 0;
}.

Lemma pipe_inv_start h : waitingWrite h = false → inv (start h).
Proof. intros E. constructor; cbn; [done|lia|done]. Qed.

Lemma pipe_inv_step s s' : inv s → step s s' → inv s'.
Proof.
  intros [Hw Ho Hi] Hs. destruct Hs; constructor; cbn in *; try done; try lia.
  all: try (intros Hin; first [by apply Hi | exfalso; set_solver]).
  - intros _. unfold isWaitingWrite in *. rewrite Hw in *. destruct (decide (outstanding s = 1)) as [E|E]; [by rewrite bool_decide_true in * by done|lia].
  - intros _. apply Hi. rewrite H. set_solver.
  - intros _. apply Hi. rewrite H. set_solver.
  - intros _. apply Hi. rewrite H. set_solver.
  - by rewrite (Hi ltac:(rewrite H; set_solver)).
  - rewrite (Hi ltac:(rewrite H; set_solver)). lia.
  - intros _. apply Hi. rewrite H. set_solver.
  - symmetry. apply bool_decide_eq_false. lia.
Qed.

(** The watcher of the pipe hands out one pipe at a time: in every reachable
    state at most one is not finished, [waitingWrite] says whether there is
    one, and while [Run] creates, opens or tests the pipe there is none. *)
Theorem one_pipe_outstanding (h : Handle) s :
  waitingWrite h = false → rtc step (start h) s →
  outstanding s ≤ 1 ∧ waitingWrite (hdl s) = bool_decide (outstanding s = 1) ∧
  (at_main s ∈ [MCreate; MOpen; MCheck; MSend] → outstanding s = 0).
Proof.
  intros Hh Hs. assert (Hinv : inv s); [|by destruct Hinv].
  assert (Hgen : ∀ a b, rtc step a b → inv a → inv b).
  { induction 1; [done|]. intros Ha. apply IHrtc. by eapply pipe_inv_step. }
  eapply Hgen; [exact Hs|by apply pipe_inv_start].
Qed.

(** Nobody receives any more from [cancelContext]. *)
Definition hung s : Prop := at_main s = MSend ∧ at_canceler s ∈ [COpen; CReading; CExit].

Lemma hung_in_send_step s s' : hung s → step s s' → hung s'.
Proof.
  intros [Hm Hc] Hs. destruct Hs; unfold hung; cbn in *; split; try congruence; try done; try set_solver.
  all: match goal with E : at_canceler _ = CSelect |- _ => rewrite E in Hc end; set_solver.
Qed.

(** The context may be canceled after [Run] has tested [canceled] and before
    its send on the unbuffered [cancelContext]: the goroutine then has left
    its select, and [Run] hangs in the send for ever, whatever happens. *)
Theorem Run_can_hang (h : Handle) :
  waitingWrite h = false → ∃ s, rtc step (start h) s ∧ hung s ∧ ∀ s', rtc step s s' → hung s'.
Proof.
  intros Hh.
  exists (mkRun h MSend COpen true true false 1 0). split; [|split; [split; [done|set_solver]|]].
  - eapply rtc_l; [by apply step_wait|]. eapply rtc_l; [by apply step_created|]. eapply rtc_l; [by apply (step_readers _ 1)|].
    eapply rtc_l; [apply step_opened; [done|cbn; lia]|]. eapply rtc_l; [by apply step_check_live|].
    eapply rtc_l; [by apply step_cancel|]. eapply rtc_l; [by apply step_select_done|]. apply rtc_refl.
  - assert (Hgen : ∀ a b, rtc step a b → hung a → hung b).
    { induction 1; [done|]. intros Ha. apply IHrtc. by eapply hung_in_send_step. }
    intros s' Hs'. eapply Hgen; [exact Hs'|]. split; [done|set_solver].
Qed.

(** While an event is not finished, [Run] stays in its loop, canceled or not. *)
Theorem waiting_ignores_cancel s s' :
  at_main s = MWait → 0 < outstanding s → inv s → step s s' → outstanding s' = outstanding s → at_main s' = MWait.
Proof.
  intros Hm Ho [Hw H1 _] Hs. destruct Hs; cbn in *; try congruence; try done.
  unfold isWaitingWrite in *. rewrite Hw in H0. apply bool_decide_eq_false in H0. lia.
Qed.
End theorems.

Definition example_handle : Handle := New "oslogin-sshca-pipe-event-watcher" (mkOptions "/etc/ssh/oslogin_trustedca.pub" "read").

Lemma one_pipe_outstanding_witness :
  ∃ s, rtc step (start example_handle) s ∧ at_main s = MReturned Opened ∧ outstanding s = 1 ∧ waitingWrite (hdl s) = true.
Proof.
  exists (mkRun (setWaitingWrite true example_handle) (MReturned Opened) CExit false false true 1 1).
  assert (Hs : rtc step (start example_handle) (mkRun (setWaitingWrite true example_handle) (MReturned Opened) CExit false false true 1 1)).
  { eapply rtc_l; [by apply step_wait|]. eapply rtc_l; [by apply step_created|]. eapply rtc_l; [by apply (step_readers _ 1)|].
    eapply rtc_l; [apply step_opened; [done|cbn; lia]|]. eapply rtc_l; [by apply step_check_live|].
    eapply rtc_l; [by apply step_send|]. apply rtc_refl. }
  split; [exact Hs|]. destruct (one_pipe_outstanding example_handle _ eq_refl Hs) as (_ & Hw & _). split; [reflexivity|]. split; [reflexivity|exact Hw].
Defined.

Lemma Run_can_hang_witness : ∃ s, rtc step (start example_handle) s ∧ hung s.
Proof. destruct (Run_can_hang example_handle eq_refl) as (s & Hs & Hh & _). by exists s. Defined.

Lemma waiting_ignores_cancel_witness :
  ∃ s s', at_main s = MWait ∧ step s s' ∧ ctx_done s' = true ∧ at_main s' = MWait.
Proof.
  set (s := mkRun (setWaitingWrite true example_handle) MWait CNone false false false 0 1).
  exists s, (mkRun (hdl s) (at_main s) (at_canceler s) true (canceled s) (closed s) (readers s) (outstanding s)).
  split; [reflexivity|]. split; [apply step_cancel|]. split; [reflexivity|].
  apply (waiting_ignores_cancel s); [reflexivity|cbn; lia|constructor; cbn; [reflexivity|lia|set_solver]|apply step_cancel|reflexivity].
Defined.
End PipeWatcher.

(** ** cmd/core_plugin/oslogin/oslogin_sshca_linux.go *)
Module SshCA.

(** The key of the metadata server, the public keys of its JSON, and what of a
    text reaches the pipe. *)
Class Outside := {
  mds_GetKey : string → result string;
  certs_Unmarshal : string → result (list string);
  pipe_WriteString : string → string * option error;
  pipe_CloseFile : option error;
}.

(** [PipeData]: the text written, whether the file is open, the calls of the
    callback. *)
Record PipeData := mkPipe { written : string; file_open : bool; finished : nat }.

Definition newPipeData : PipeData := mkPipe "" true 0.

(** The data of an event: a pipe or something else. *)
Inductive event_data := PipeEvent | OtherData.

Section handler.
Context `{Outside}.

Definition WriteString (data : string) : M PipeData (option error) := λ pd,
  let '(text, err) := pipe_WriteString data in
  Some (mkPipe (written pd +:+ text) (file_open pd) (finished pd), err).

Definition Close : M PipeData (option error) := λ pd,
  if negb (file_open pd) then Some (pd, None)
  else match pipe_CloseFile with
       | Some e => Some (pd, Some e)
       | None => Some (mkPipe (written pd) false (finished pd), None)
       end.

Definition Finished : M PipeData unit := modify (λ pd, mkPipe (written pd) (file_open pd) (S (finished pd))).

Definition osloginMDSCertificates : result (list string) :=
  match mds_GetKey "oslogin/certificates" with
  | Err e => Err (ErrWrap "failed to get certificate from metadata server" e)
  | Ok certificate =>
      match certs_Unmarshal certificate with
      | Err e => Err (ErrWrap "failed to unmarshal certificate json" e)
      | Ok certs => Ok certs
      end
  end.

(** [writeFile] before the deferred function. *)
Definition write_certificates : M PipeData (bool * bool * option error) :=
  match osloginMDSCertificates with
  | Err e => mret (true, false, Some (ErrWrap "unable to get certificates from MDS" e))
  | Ok certs =>
      err ← WriteString (Join certs (String nl ""));
      mret (true, false, ErrWrap "failed to write certificate to the write end of the pipe" <$> err)
  end.

(** Whether to renew the subscription, whether it was a no-op, the error. *)
Definition writeFile (data : event_data) (data_error : option error) : M PipeData (bool * bool * option error) :=
  match data_error with
  | Some e => mret (false, true, Some (ErrFmt "ssh trusted ca cert event watcher reported error" e))
  | None =>
      match data with
      | OtherData => mret (false, true, Some (ErrMsg "ssh ca event data is not a pipe data"))
      | PipeEvent =>
          r ← write_certificates;
          _ ← Close;
          _ ← Finished;
          mret r
      end
  end.

(** Every pipe the handler is given is finished exactly once, whatever fails,
    so the watcher goes on, and the subscription is renewed; the pipe is closed
    unless closing it fails; what is written is the public keys of the
    metadata, one per line, as far as the pipe took them, and without the keys
    nothing is written and the error reported.  An event with an error or
    without a pipe touches nothing and ends the subscription. *)
Theorem writeFile_finishes (data : event_data) (data_error : option error) :
  wp (writeFile data data_error) (λ '(renew, noop, err) pd,
    (renew = true ↔ data = PipeEvent ∧ data_error = None) ∧ noop = negb renew ∧
    (renew = false → pd = newPipeData ∧ is_Some err) ∧
    (renew = true →
       finished pd = 1 ∧ (pipe_CloseFile = None → file_open pd = false) ∧
       match osloginMDSCertificates with
       | Ok certs =>
           let '(text, werr) := pipe_WriteString (Join certs (String nl "")) in
           written pd = text ∧ (err = None ↔ werr = None)
       | Err _ => written pd = "" ∧ is_Some err
       end)) newPipeData.
Proof.
  unfold writeFile, write_certificates. destruct data_error as [e|]; [apply wp_ret; naive_solver|].
  destruct data; [|apply wp_ret; naive_solver].
  unfold wp, mbind, M_bind, Close, WriteString, Finished, modify, mret, M_ret.
  destruct osloginMDSCertificates as [certs|e]; cbn.
  - destruct (pipe_WriteString _) as [text werr] eqn:Ew; cbn. destruct pipe_CloseFile, werr; cbn; naive_solver.
  - destruct pipe_CloseFile; cbn; naive_solver.
Qed.
End handler.

(** ** With the event manager *)
Section subscription.
Context `{Outside}.

#[local] Instance sshca_callbacks : Events.Callbacks unit event_data := λ _ _ d,
  match writeFile (Events.Data d) (Events.Error d) newPipeData with
  | Some (_, r) => mret r
  | None => panic
  end.

Definition sub : Events.EventSubscriber unit := Events.mkSub "sshca-pipe-handler" tt (Some "OS_LOGIN_INITIALIZATION").
Definition subscribed (ev : string) (s : Events.bus unit) : Prop := Events.subscribers s !! ev = Some [sub].

(** One error of the watcher ends the subscription: the pipes of later events
    are given to nobody, so they are neither closed nor finished, and the
    watcher, which renews itself after the error, waits for ever for the first
    of them (by [waiting_ignores_cancel]). *)
Theorem error_ends_service (ev : string) (s : Events.bus unit) (e : error) :
  subscribed ev s →
  wp (Events.dispatch ev (Events.mkData OtherData (Some e)))
    (λ _ s1, wp (Events.dispatch ev (Events.mkData PipeEvent None)) (λ _ s2, Events.calls s2 = Events.calls s1) s1) s.
Proof.
  intros Hs. destruct s as [subs ms cs]. unfold subscribed in Hs. simpl in Hs.
  unfold wp, Events.dispatch, mbind, M_bind, gets, Events.deliver, mbind, M_bind, Events.callback. simpl.
  rewrite Hs. simpl. unfold mbind, M_bind. simpl. rewrite Hs. simpl. by rewrite lookup_delete_eq.
Qed.
End subscription.

Section examples.
#[local] Instance example_outside : Outside := {|
  mds_GetKey _ := Ok "json";
  certs_Unmarshal _ := Ok ["ssh-ed25519 A"; "ssh-ed25519 B"];
  pipe_WriteString s := (s, None);
  pipe_CloseFile := None;
|}.

Example writeFile_ex :
  writeFile PipeEvent None newPipeData = Some (mkPipe ("ssh-ed25519 A" +:+ String nl "ssh-ed25519 B") false 1, (true, false, None)).
Proof. vm_compute. reflexivity. Qed.

#[local] Existing Instance sshca_callbacks.

Lemma error_ends_service_witness :
  ∃ s s1 : Events.bus unit, Events.dispatch "read" (Events.mkData OtherData (Some (ErrMsg "mkfifo"))) s = Some (s1, tt) ∧
    wp (Events.dispatch "read" (Events.mkData PipeEvent None)) (λ _ s2, Events.calls s2 = Events.calls s1) s1.
Proof.
  pose proof (error_ends_service "read" (Events.mkBus {["read" := [sub]]} [] []) (ErrMsg "mkfifo") eq_refl) as Hw.
  exists (Events.mkBus {["read" := [sub]]} [] []). unfold wp at 1 in Hw.
  destruct (Events.dispatch _ _ (Events.mkBus {["read" := [sub]]} [] [])) as [[s1 []]|] eqn:E; [|destruct Hw].
  exists s1. split; [reflexivity|exact Hw].
Defined.
End examples.
End SshCA.
