(* ===== verification/ModuleManager.v ===== *)
(** * cmd/core_plugin/manager: the module manager of the core plugin

    manager.go: [Module], [ModuleMetric] and the manager's tables, with a heap
    for the metrics, which the code shares by pointer; [Register], [List],
    [NotifyQuit], [RunBlocking], [Shutdown] run in the state monad.  A module's
    functions act on a world [W] the manager knows nothing of, except that it
    has a clock.  [RunConcurrent] starts a goroutine per module, so it is the
    step relation [cstep] over the goroutines that are running; the result
    every [Setup] has in the run at hand is a parameter.  The theorems: what
    [RunBlocking] and [RunConcurrent] report, and in which order the blocking
    modules touch the world. *)
From stdpp Require Import base gmap list strings sorting.
From S2P Require Import Prelude.

Module ModuleManager.

Inductive ModuleStage := EarlyStage | LateStage.
Inductive InitType := BlockingInit | ConcurrentInit.
Inductive ModuleStatus := StatusUnset | StatusSkipped | StatusFailed | StatusSucceeded.

#[global] Instance ModuleStage_eq_dec : EqDecision ModuleStage.
Proof. solve_decision. Defined.
#[global] Instance ModuleStatus_eq_dec : EqDecision ModuleStatus.
Proof. solve_decision. Defined.

Section manager.
(** [W] is what the modules act on, [now] its clock, [D] the data the stage
    passes to its modules. *)
Context {W D : Type} (now : W → Z).

Record Module_ := mkModule {
  Enabled : option bool;
  ID : string;
  Description : string;
  NoNetworkRequired : bool;
  Setup : option (D → M W (option error));
  BlockSetup : option (D → M W (option error));
  Quit : option (M W unit);
}.

Record ModuleMetric := mkMetric {
  metric_Module : Module_;
  metric_Stage : ModuleStage;
  metric_Start : Z;
  metric_End : option Z;
  metric_Err : option error;
  metric_Status : ModuleStatus;
  metric_InitType : InitType;
}.

(** [metrics] maps a module's identification to a metric, by pointer. *)
Record moduleManager := mkManager {
  modules : ModuleStage → list Module_;
  metrics : gmap string nat;
  heap : list ModuleMetric;
  world : W;
  networkEnabled : bool;
}.

Definition set_modules f s := mkManager f (metrics s) (heap s) (world s) (networkEnabled s).
Definition set_world w s := mkManager (modules s) (metrics s) (heap s) w (networkEnabled s).
Definition set_heap h s := mkManager (modules s) (metrics s) h (world s) (networkEnabled s).

Definition on_world {A} : M W A → M moduleManager A := zoom world set_world.

Definition Display (mod_ : Module_) : string :=
  let desc := if decide (Description mod_ = "") then "No description available" else Description mod_ in
  let id := if decide (ID mod_ = "") then "No ID available" else ID mod_ in
  id +:+ ": " +:+ desc +:+ ".".

Definition modulesLen (stage : ModuleStage) : M moduleManager nat := gets (λ s, length (modules s stage)).

(** A nil pointer is [None]. *)
Definition is_enabled (mod_ : option Module_) : bool :=
  match mod_ with
  | None => false
  | Some m => match Enabled m with Some false => false | _ => true end
  end.

Definition append_module (stage : ModuleStage) (m : Module_) (s : moduleManager) : moduleManager :=
  set_modules (λ st, if decide (st = stage) then modules s st ++ [m] else modules s st) s.

Definition Register (mods : list (option Module_)) (stage : ModuleStage) : M moduleManager unit :=
  for_each mods (λ o,
    match o with
    | None => mret tt
    | Some m => if is_enabled (Some m) then modify (append_module stage m) else mret tt
    end).

Definition List (stage : ModuleStage) : M moduleManager (list Module_) := gets (λ s, modules s stage).

(** [stages.InitModulesSlice] on the modules the constructors returned. *)
Fixpoint InitModulesSlice (mods : list (option Module_)) : list (option Module_) :=
  match mods with
  | [] => []
  | o :: mods' => if is_enabled o then o :: InitModulesSlice mods' else InitModulesSlice mods'
  end.

Definition newMetric (stage : ModuleStage) (it : InitType) (m : Module_) (s : moduleManager) : moduleManager :=
  mkManager (modules s) (<[ID m := length (heap s)]> (metrics s))
    (heap s ++ [mkMetric m stage (now (world s)) None None StatusUnset it]) (world s) (networkEnabled s).

Definition newModuleMetric (m : Module_) (stage : ModuleStage) (it : InitType) : M moduleManager nat :=
  ptr ← gets (λ s, length (heap s));
  _ ← modify (newMetric stage it m);
  mret ptr.

Definition finished (status : ModuleStatus) (err : option error) (t : Z) (mm : ModuleMetric) : ModuleMetric :=
  mkMetric (metric_Module mm) (metric_Stage mm) (metric_Start mm) (Some t) err status (metric_InitType mm).

Definition finishMetric ptr status err (s : moduleManager) : moduleManager :=
  set_heap (alter (finished status err (now (world s))) ptr (heap s)) s.

Definition finish (ptr : nat) (status : ModuleStatus) (err : option error) : M moduleManager unit :=
  modify (finishMetric ptr status err).

Definition Metrics : M moduleManager (gmap string ModuleMetric) :=
  gets (λ s, omap (λ ptr, heap s !! ptr) (metrics s)).

Definition NotifyQuit (stage : ModuleStage) : M moduleManager unit :=
  mods ← List stage;
  for_each mods (λ m,
    match Quit m with
    | None => mret tt
    | Some quit => on_world quit
    end).

(** A module whose network is missing is skipped. *)
Definition lacks_network (m : Module_) (enabled : bool) : bool := negb (NoNetworkRequired m) && negb enabled.

Definition init_error (m : Module_) (err : error) : error :=
  ErrWrap ("failed to initialize module(" +:+ ID m +:+ ")") err.

(** The body of the loop of [RunBlocking]. *)
Definition runOneBlocking (stage : ModuleStage) (data : D) (m : Module_) : M moduleManager (unit + error) :=
  metric ← newModuleMetric m stage BlockingInit;
  match BlockSetup m with
  | None => _ ← finish metric StatusSkipped None; mret (inl tt)
  | Some setup =>
      network ← gets networkEnabled;
      if lacks_network m network then _ ← finish metric StatusSkipped None; mret (inl tt)
      else
        r ← on_world (setup data);
        match r with
        | Some err =>
            _ ← finish metric StatusFailed (Some err);
            mret (inr (init_error m err))
        | None => _ ← finish metric StatusSucceeded None; mret (inl tt)
        end
  end.

Definition RunBlocking (stage : ModuleStage) (data : D) : M moduleManager (option error) :=
  mods ← List stage;
  r ← for_until mods tt (λ _, runOneBlocking stage data);
  mret (match r with inl _ => None | inr e => Some e end).

Definition Shutdown : M moduleManager unit := modify (set_modules (λ _, [])).

(** ** [RunConcurrent]

    [Errors] is the list of the errors reported, in the order of the reports. *)
Definition Errors : Type := list (Module_ * error).

Definition Each {A} (errs : Errors) (fc : string → error → A) : list A :=
  (λ me, fc (ID me.1) me.2) <$> errs.
Definition join (errs : Errors) : option error := errors_Join (Some ∘ snd <$> errs).

(** A goroutine is in its module's [Setup], or has added its error. *)
Inductive phase := InSetup | Reported (err : error).

Record system := mkSystem {
  todo : list Module_;
  goroutines : list (Module_ * nat * phase);
  errs : Errors;
  mgr : moduleManager;
}.

Context (outcome : Module_ → option error).

(** Whether the loop starts a goroutine for the module. *)
Definition starts (s : moduleManager) (m : Module_) : bool :=
  match Setup m with None => false | Some _ => negb (lacks_network m (networkEnabled s)) end.

Inductive cstep (stage : ModuleStage) : system → system → Prop :=
| cstep_skip m ms gs es s :
    starts s m = false →
    cstep stage (mkSystem (m :: ms) gs es s)
      (mkSystem ms gs es (finishMetric (length (heap s)) StatusSkipped None (newMetric stage ConcurrentInit m s)))
| cstep_go m ms gs es s :
    starts s m = true →
    cstep stage (mkSystem (m :: ms) gs es s)
      (mkSystem ms ((m, length (heap s), InSetup) :: gs) es (newMetric stage ConcurrentInit m s))
| cstep_world ms gs es s w :             (* the modules at work *)
    gs ≠ [] →
    cstep stage (mkSystem ms gs es s) (mkSystem ms gs es (set_world w s))
| cstep_succeeds ms gs1 gs2 m ptr es s :
    outcome m = None →
    cstep stage (mkSystem ms (gs1 ++ (m, ptr, InSetup) :: gs2) es s)
      (mkSystem ms (gs1 ++ gs2) es (finishMetric ptr StatusSucceeded None s))
| cstep_reports ms gs1 gs2 m ptr err es s :
    outcome m = Some err →
    cstep stage (mkSystem ms (gs1 ++ (m, ptr, InSetup) :: gs2) es s)
      (mkSystem ms (gs1 ++ (m, ptr, Reported err) :: gs2) (es ++ [(m, err)]) s)
| cstep_fails ms gs1 gs2 m ptr err es s :
    cstep stage (mkSystem ms (gs1 ++ (m, ptr, Reported err) :: gs2) es s)
      (mkSystem ms (gs1 ++ gs2) es (finishMetric ptr StatusFailed (Some err) s)).

(** The call: the mutex is held throughout, [wg.Wait] lets it return when no
    goroutine is left, and no error is a nil result. *)
Definition concurrent_start (stage : ModuleStage) (s : moduleManager) : system :=
  mkSystem (modules s stage) [] [] s.

Definition concurrent_done (sys : system) : Prop := todo sys = [] ∧ goroutines sys = [].

Definition RunConcurrent (stage : ModuleStage) (s s' : moduleManager) (res : option Errors) : Prop :=
  ∃ sys, rtc (cstep stage) (concurrent_start stage s) sys ∧ concurrent_done sys ∧
    mgr sys = s' ∧ res = match errs sys with [] => None | es => Some es end.

(** ** What the modules did

    The blocking modules of a stage, run on the world alone: the modules
    reached, each with what became of it. *)
Definition log : Type := list (Module_ * ModuleStatus * option error).

Definition runnable (net : bool) (m : Module_) : option (D → M W (option error)) :=
  if lacks_network m net then None else BlockSetup m.

Fixpoint blocking_log (net : bool) (data : D) (ms : list Module_) : M W log :=
  match ms with
  | [] => mret []
  | m :: ms' =>
      match runnable net m with
      | None => rest ← blocking_log net data ms'; mret ((m, StatusSkipped, None) :: rest)
      | Some setup =>
          r ← setup data;
          match r with
          | Some err => mret [(m, StatusFailed, Some err)]
          | None => rest ← blocking_log net data ms'; mret ((m, StatusSucceeded, None) :: rest)
          end
      end
  end.

Definition failure (l : log) : option error :=
  match last l with
  | Some (m, _, Some err) => Some (init_error m err)
  | _ => None
  end.

(** A metric records an entry of the log. *)
Definition records (stage : ModuleStage) (it : InitType) (e : Module_ * ModuleStatus * option error)
    (mm : ModuleMetric) : Prop :=
  metric_Module mm = e.1.1 ∧ metric_Status mm = e.1.2 ∧ metric_Err mm = e.2 ∧
  metric_Stage mm = stage ∧ metric_InitType mm = it ∧ is_Some (metric_End mm).

(** The table after metrics were added for the modules, from pointer [n]. *)
Fixpoint index_metrics (ms : list Module_) (n : nat) (t : gmap string nat) : gmap string nat :=
  match ms with
  | [] => t
  | m :: ms' => index_metrics ms' (S n) (<[ID m := n]> t)
  end.

(** What a concurrent stage makes of a module. *)
Definition verdict (s : moduleManager) (m : Module_) : Module_ * ModuleStatus * option error :=
  if starts s m then
    match outcome m with
    | None => (m, StatusSucceeded, None)
    | Some err => (m, StatusFailed, Some err)
    end
  else (m, StatusSkipped, None).

Definition reported (s : moduleManager) (m : Module_) : option (Module_ * error) :=
  if starts s m then (m,.) <$> outcome m else None.

End manager.

Arguments Module_ : clear implicits.
Arguments ModuleMetric : clear implicits.
Arguments moduleManager : clear implicits.
Arguments system : clear implicits.
Arguments log : clear implicits.

(** ** Blocking stages *)
Section blocking.
Context {W D : Type} (now : W → Z).
Implicit Types (s : moduleManager W D) (m : Module_ W D).

Lemma alter_snoc {A} (f : A → A) (l : list A) x : alter f (length l) (l ++ [x]) = l ++ [f x].
Proof. induction l as [|y l IH]; [done|]. cbn. by f_equal. Qed.

(** One iteration, whatever the module does. *)
Lemma finish_new stage it m status err s w :
  finishMetric now (length (heap s)) status err (set_world w (newMetric now stage it m s)) =
  mkManager (modules s) (<[ID m := length (heap s)]> (metrics s))
    (heap s ++ [mkMetric m stage (now (world s)) (Some (now w)) err status it]) w (networkEnabled s).
Proof. unfold finishMetric, set_heap. cbn. by rewrite alter_snoc. Qed.

Lemma skip_new stage it m s :
  finishMetric now (length (heap s)) StatusSkipped None (newMetric now stage it m s) =
  mkManager (modules s) (<[ID m := length (heap s)]> (metrics s))
    (heap s ++ [mkMetric m stage (now (world s)) (Some (now (world s))) None StatusSkipped it])
    (world s) (networkEnabled s).
Proof. exact (finish_new stage it m StatusSkipped None s (world s)). Qed.

Lemma runOneBlocking_spec stage data m s :
  runOneBlocking now stage data m s =
  match runnable (networkEnabled s) m with
  | None =>
      Some (finishMetric now (length (heap s)) StatusSkipped None (newMetric now stage BlockingInit m s), inl tt)
  | Some setup =>
      match setup data (world s) with
      | None => None
      | Some (w, Some err) =>
          Some (finishMetric now (length (heap s)) StatusFailed (Some err)
                  (set_world w (newMetric now stage BlockingInit m s)), inr (init_error m err))
      | Some (w, None) =>
          Some (finishMetric now (length (heap s)) StatusSucceeded None
                  (set_world w (newMetric now stage BlockingInit m s)), inl tt)
      end
  end.
Proof.
  unfold runOneBlocking, newModuleMetric, runnable, mbind, M_bind, gets, modify, mret, M_ret. cbn.
  destruct (BlockSetup m) as [setup|]; [|by destruct (lacks_network _ _)].
  destruct (lacks_network _ _); [done|].
  unfold on_world, zoom. cbn. by destruct (setup data (world s)) as [[w [err|]]|].
Qed.

(** The loop over the modules that are left, against the log. *)
Lemma blocking_loop stage data ms s :
  match blocking_log (networkEnabled s) data ms (world s) with
  | None => for_until ms tt (λ _, runOneBlocking now stage data) s = None
  | Some (w, l) =>
      ∃ new,
        for_until ms tt (λ _, runOneBlocking now stage data) s =
        Some (mkManager (modules s) (index_metrics (l.*1.*1) (length (heap s)) (metrics s))
                (heap s ++ new) w (networkEnabled s),
              match failure l with Some e => inr e | None => inl tt end) ∧
        Forall2 (records stage BlockingInit) l new
  end.
Proof.
  revert s. induction ms as [|m ms IH]; intros s.
  { cbn. exists []. split; [|constructor]. rewrite app_nil_r. by destruct s. }
  cbn [blocking_log for_until]. unfold mbind, M_bind. rewrite runOneBlocking_spec.
  destruct (runnable (networkEnabled s) m) as [setup|].
  - destruct (setup data (world s)) as [[w [err|]]|]; [| |done].
    + rewrite finish_new. cbn. eexists. split; [done|]. by repeat constructor.
    + rewrite finish_new.
      specialize (IH (mkManager (modules s) (<[ID m := length (heap s)]> (metrics s))
        (heap s ++ [mkMetric m stage (now (world s)) (Some (now w)) None StatusSucceeded BlockingInit]) w
        (networkEnabled s))). cbn in IH |- *.
      destruct (blocking_log _ data ms w) as [[w' l]|]; [|done]. cbn.
      destruct IH as (new & E & HF). eexists (_ :: new). split.
      * rewrite E. rewrite length_app, Nat.add_comm, <-app_assoc. cbn. do 2 f_equal.
        unfold failure. by destruct l.
      * by constructor.
  - rewrite skip_new. cbn.
    specialize (IH (mkManager (modules s) (<[ID m := length (heap s)]> (metrics s))
        (heap s ++ [mkMetric m stage (now (world s)) (Some (now (world s))) None StatusSkipped BlockingInit]) (world s)
        (networkEnabled s))). cbn in IH |- *.
    destruct (blocking_log _ data ms (world s)) as [[w' l]|]; [|done]. cbn.
    destruct IH as (new & E & HF). eexists (_ :: new). split.
    * rewrite E. rewrite length_app, Nat.add_comm, <-app_assoc. cbn. do 2 f_equal.
      unfold failure. by destruct l.
    * by constructor.
Qed.

(** The log stops at the first failure, and covers the stage otherwise. *)
Lemma blocking_log_prefix net data ms w w' (l : log W D) :
  blocking_log net data ms w = Some (w', l) →
  l.*1.*1 `prefix_of` ms ∧ (failure l = None → l.*1.*1 = ms) ∧
  (∀ i m st err, l !! i = Some (m, st, Some err) → S i = length l).
Proof.
  revert w l. induction ms as [|m ms IH]; intros w l; cbn [blocking_log].
  { intros [= <- <-]. by split_and!. }
  assert (Hrest : ∀ w1 st,
    (rest ← blocking_log net data ms; mret ((m, st, None) :: rest)) w1 = Some (w', l) →
    l.*1.*1 `prefix_of` m :: ms ∧ (failure l = None → l.*1.*1 = m :: ms) ∧
    (∀ i m st err, l !! i = Some (m, st, Some err) → S i = length l)).
  { intros w1 st. unfold mbind, M_bind, mret, M_ret.
    destruct (blocking_log net data ms w1) as [[w2 l2]|] eqn:E; [|done]. intros [= <- <-].
    destruct (IH _ _ E) as (Hp & Hn & Hi). split_and!.
    - by apply prefix_cons.
    - intros Hf. cbn. f_equal. apply Hn. unfold failure in *. by destruct l2.
    - intros [|i] m' st' err Hl; [done|]. cbn. f_equal. by eapply Hi. }
  destruct (runnable net m) as [setup|]; [|apply Hrest].
  unfold mbind at 1, M_bind at 1. destruct (setup data w) as [[w1 [err|]]|]; [| |done].
  - intros [= <- <-]. split_and!; [apply prefix_cons, prefix_nil|done|].
    intros [|i] ? ? ?; [done|]. by destruct i.
  - apply Hrest.
Qed.

(** The status of a module that did not fail. *)
Definition passed (net : bool) m : ModuleStatus :=
  match runnable net m with None => StatusSkipped | Some _ => StatusSucceeded end.

Lemma blocking_log_passed net data ms w w' (l : log W D) m st :
  blocking_log net data ms w = Some (w', l) → (m, st, None) ∈ l → st = passed net m.
Proof.
  revert w l. induction ms as [|m' ms IH]; intros w l; cbn [blocking_log].
  { intros [= <- <-] []%not_elem_of_nil. }
  assert (Hrest : ∀ w1,
    (rest ← blocking_log net data ms; mret ((m', passed net m', None) :: rest)) w1 = Some (w', l) →
    (m, st, None) ∈ l → st = passed net m).
  { intros w1. unfold mbind, M_bind, mret, M_ret.
    destruct (blocking_log net data ms w1) as [[w2 l2]|] eqn:E; [|done]. intros [= <- <-].
    intros [[= -> ->]|Hin]%elem_of_cons; [done|]. by eapply IH. }
  unfold passed in *. destruct (runnable net m') as [setup|] eqn:Er; [|apply Hrest].
  unfold mbind at 1, M_bind at 1. destruct (setup data w) as [[w1 [err|]]|]; [|apply Hrest|done].
  intros [= <- <-] [[=]|[]%not_elem_of_nil]%elem_of_cons.
Qed.

(** A stage without failures passed all its modules. *)
Lemma failure_none net data ms w w' (l : log W D) :
  blocking_log net data ms w = Some (w', l) → failure l = None →
  l = (λ m, (m, passed net m, None)) <$> ms.
Proof.
  intros Hl Hf. destruct (blocking_log_prefix _ _ _ _ _ _ Hl) as (_ & Hms & Hlast).
  rewrite <-(Hms Hf). rewrite <-!list_fmap_compose. transitivity (list_fmap _ _ id l); [by rewrite list_fmap_id|].
  apply list_fmap_ext. intros i [[m st] o] Hi. cbn. destruct o as [err|].
  - exfalso. unfold failure in Hf. rewrite last_lookup in Hf. rewrite <-(Hlast _ _ _ _ Hi) in Hf. cbn in Hf.
    by rewrite Hi in Hf.
  - by rewrite <-(blocking_log_passed _ _ _ _ _ _ _ _ Hl (list_elem_of_lookup_2 _ _ _ Hi)).
Qed.

Lemma RunBlocking_run stage data s w l :
  blocking_log (networkEnabled s) data (modules s stage) (world s) = Some (w, l) →
  ∃ new,
    RunBlocking now stage data s =
    Some (mkManager (modules s) (index_metrics (l.*1.*1) (length (heap s)) (metrics s))
            (heap s ++ new) w (networkEnabled s), failure l) ∧
    Forall2 (records stage BlockingInit) l new.
Proof.
  intros Hl. pose proof (blocking_loop stage data (modules s stage) s) as Hloop. rewrite Hl in Hloop.
  destruct Hloop as (new & E & HF). exists new. split; [|done].
  unfold RunBlocking, List, mbind, M_bind, gets. rewrite E. by destruct (failure l).
Qed.

(** The blocking stage initialises its modules one after the other, in the
    order they were registered.  Whatever the modules do, [RunBlocking] acts on
    the world exactly as running their [BlockSetup] functions in sequence up to
    the first that fails; a module without one, or that needs a network the
    configuration disables, is passed over.  The modules reached are a prefix
    of the stage's, the whole of it when no error is returned; only the last
    can have failed and the error returned wraps that failure; each of them has
    a new metric with its status and error, found under its identification,
    and the metrics recorded before are untouched. *)
Theorem RunBlocking_settles stage data s w l :
  blocking_log (networkEnabled s) data (modules s stage) (world s) = Some (w, l) →
  ∃ s' new,
    RunBlocking now stage data s = Some (s', failure l) ∧
    world s' = w ∧ modules s' = modules s ∧ heap s' = heap s ++ new ∧
    metrics s' = index_metrics (l.*1.*1) (length (heap s)) (metrics s) ∧
    Forall2 (records stage BlockingInit) l new ∧
    l.*1.*1 `prefix_of` modules s stage ∧ (failure l = None → l.*1.*1 = modules s stage) ∧
    (∀ i m st err, l !! i = Some (m, st, Some err) → S i = length l).
Proof.
  intros Hl. destruct (RunBlocking_run _ _ _ _ _ Hl) as (new & E & HF). eexists _, new. split; [exact E|].
  repeat (split; [done|]). by eapply blocking_log_prefix.
Qed.

(** [Register] adds the enabled modules, in order. *)
Definition enabled (mods : list (option (Module_ W D))) : list (Module_ W D) :=
  omap (λ o, if is_enabled o then o else None) mods.

Lemma InitModulesSlice_enabled (mods : list (option (Module_ W D))) : enabled (InitModulesSlice mods) = enabled mods.
Proof.
  unfold enabled in *. induction mods as [|o mods IH]; [done|]. cbn [InitModulesSlice].
  destruct (is_enabled o) eqn:E; cbn; rewrite E; [by rewrite IH|done].
Qed.

Lemma Register_spec mods stage s :
  ∃ s', Register mods stage s = Some (s', tt) ∧
    (∀ st, modules s' st = if decide (st = stage) then modules s st ++ enabled mods else modules s st) ∧
    metrics s' = metrics s ∧ heap s' = heap s ∧ world s' = world s ∧ networkEnabled s' = networkEnabled s.
Proof.
  revert s. induction mods as [|o mods IH]; intros s.
  { exists s. split_and!; try done. intros st. rewrite app_nil_r. by destruct (decide _). }
  unfold Register in *. cbn [for_each]. unfold mbind, M_bind.
  destruct o as [m|]; [|by apply IH]. cbn [enabled omap list_omap].
  destruct (is_enabled (Some m)).
  - destruct (IH (append_module stage m s)) as (s' & E & Hm & Hrest). exists s'. split; [exact E|]. split; [|exact Hrest].
    intros st. rewrite Hm. cbn. destruct (decide (st = stage)) as [->|]; [|done].
    rewrite <-app_assoc. done.
  - apply IH.
Qed.

(** A module that panics takes the core plugin with it. *)
Lemma RunBlocking_panics stage data s :
  blocking_log (networkEnabled s) data (modules s stage) (world s) = None →
  RunBlocking now stage data s = None.
Proof.
  intros Hl. pose proof (blocking_loop stage data (modules s stage) s) as Hloop. rewrite Hl in Hloop.
  unfold RunBlocking, List, mbind, M_bind, gets. by rewrite Hloop.
Qed.

End blocking.

(** ** Concurrent stages *)
Section concurrent.
Context {W D : Type} (now : W → Z) (outcome : Module_ W D → option error).
Implicit Types (s : moduleManager W D) (m : Module_ W D) (sys : system W D).

(** The metric of the [i]-th module of the stage, once it is started. *)
Definition started_metric stage m (mm : ModuleMetric W D) : Prop :=
  metric_Module mm = m ∧ metric_Stage mm = stage ∧ metric_InitType mm = ConcurrentInit.

Definition at_work s0 m (ph : phase) : Prop :=
  starts s0 m = true ∧ match ph with InSetup => True | Reported err => outcome m = Some err end.

Definition unreported (g : Module_ W D * nat * phase) : option (Module_ W D) :=
  match g.2 with InSetup => Some g.1.1 | Reported _ => None end.

(** The invariant of a run from the manager state [s0]: [ran] are the modules
    the loop has passed. *)
Record running stage s0 (ran : list (Module_ W D)) sys : Prop := mkRunning {
  run_split : modules s0 stage = ran ++ todo sys;
  run_mods : modules (mgr sys) = modules s0;
  run_net : networkEnabled (mgr sys) = networkEnabled s0;
  run_length : length (heap (mgr sys)) = length (heap s0) + length ran;
  run_old j : j < length (heap s0) → heap (mgr sys) !! j = heap s0 !! j;
  run_work m ptr ph : (m, ptr, ph) ∈ goroutines sys →
    ∃ i, ptr = length (heap s0) + i ∧ ran !! i = Some m ∧ at_work s0 m ph;
  run_metric i m : ran !! i = Some m →
    ∃ mm, heap (mgr sys) !! (length (heap s0) + i) = Some mm ∧ started_metric stage m mm ∧
      ((∃ ph, (m, length (heap s0) + i, ph) ∈ goroutines sys) ∨
       records stage ConcurrentInit (verdict outcome s0 m) mm);
  run_index i m : NoDup (ID <$> modules s0 stage) → ran !! i = Some m →
    metrics (mgr sys) !! ID m = Some (length (heap s0) + i);
  run_errs : errs sys ++ omap (reported outcome s0) (omap unreported (goroutines sys) ++ todo sys)
    ≡ₚ omap (reported outcome s0) (modules s0 stage);
}.

Lemma omap_none {A B} (f : A → option B) (l : list A) : (∀ x, x ∈ l → f x = None) → omap f l = [].
Proof.
  induction l as [|x l IH]; intros Hf; [done|]. cbn. rewrite (Hf x) by left. apply IH. intros y Hy.
  apply Hf. by right.
Qed.

Lemma starts_same s s' m : networkEnabled s = networkEnabled s' → starts s m = starts s' m.
Proof. unfold starts. by intros ->. Qed.

Lemma lookup_alter_snoc {A} (f : A → A) (l : list A) x j :
  alter f (length l) (l ++ [x]) !! j = (l ++ [f x]) !! j.
Proof. by rewrite alter_snoc. Qed.

(** The loop passes a module: its metric is new, and it is either skipped or
    has a goroutine now. *)
Lemma running_pass stage s0 ran m ms gs es s mm gs' :
  running stage s0 ran (mkSystem (m :: ms) gs es s) →
  started_metric stage m mm →
  (gs' = (m, length (heap s), InSetup) :: gs ∧ starts s m = true ∨
   gs' = gs ∧ starts s m = false ∧ records stage ConcurrentInit (verdict outcome s0 m) mm) →
  running stage s0 (ran ++ [m]) (mkSystem ms gs' es
    (mkManager (modules s) (<[ID m := length (heap s)]> (metrics s)) (heap s ++ [mm]) (world s) (networkEnabled s))).
Proof.
  intros [Hs Hm Hn Hl Ho Hw Hme Hi He] Hmm Hgs. cbn in *.
  assert (Hincl : ∀ g, g ∈ gs → g ∈ gs').
  { intros g Hg. destruct Hgs as [[-> _]|[-> _]]; [by right|done]. }
  split; cbn.
  - by rewrite Hs, <-app_assoc.
  - done.
  - done.
  - rewrite !length_app. cbn. lia.
  - intros j Hj. rewrite lookup_app_l by lia. by apply Ho.
  - intros m' ptr ph Hg. assert (Hcase : (m', ptr, ph) ∈ gs ∨ (m', ptr, ph) = (m, length (heap s), InSetup) ∧ starts s m = true).
    { destruct Hgs as [[-> Hst]|[-> _]]; [|by left]. apply elem_of_cons in Hg as [?|?]; auto. }
    destruct Hcase as [Hin|[[= -> -> ->] Hst]].
    + destruct (Hw _ _ _ Hin) as (i & -> & Hri & Hat). exists i. split; [done|]. split; [|done].
      by apply lookup_app_l_Some.
    + exists (length ran). split; [done|]. split; [by apply list_lookup_middle|]. split; [|done].
      by rewrite <-(starts_same s).
  - intros i m' [Hri|[Hle Hri]]%lookup_app_Some.
    + destruct (Hme _ _ Hri) as (mm' & Hh & Hst & Hor). exists mm'. split; [by apply lookup_app_l_Some|].
      split; [done|]. destruct Hor as [[ph Hg]|Hr]; [left; exists ph; by apply Hincl|by right].
    + apply list_lookup_singleton_Some in Hri as [Hz <-]. assert (i = length ran) as -> by lia.
      exists mm. split; [apply list_lookup_middle; lia|]. split; [done|].
      destruct Hgs as [[-> _]|(-> & _ & Hr)]; [left; exists InSetup; rewrite <-Hl; by left|by right].
  - intros i m' Hnd [Hri|[Hle Hri]]%lookup_app_Some.
    + rewrite lookup_insert_ne; [by apply Hi|]. intros E. rewrite Hs, fmap_app in Hnd.
      apply NoDup_app in Hnd as (_ & Hd & _). apply (Hd (ID m')).
      * apply list_elem_of_fmap_2. by eapply list_elem_of_lookup_2.
      * rewrite <-E. by left.
    + apply list_lookup_singleton_Some in Hri as [Hz <-]. assert (i = length ran) as -> by lia.
      by rewrite lookup_insert_eq, Hl.
  - rewrite <-He. destruct Hgs as [[-> Hst]|(-> & Hst & _)].
    + cbn. rewrite !omap_app. apply Permutation_app_head. cbn.
      destruct (reported outcome s0 m); [by rewrite Permutation_middle|done].
    + rewrite !omap_app. cbn. unfold reported at 4. by rewrite <-(starts_same s), Hst.
Qed.

(** A goroutine leaves, with the status its module deserves. *)
Lemma running_finish stage s0 ran ms gs1 gs2 m ptr ph es s status err :
  running stage s0 ran (mkSystem ms (gs1 ++ (m, ptr, ph) :: gs2) es s) →
  verdict outcome s0 m = (m, status, err) →
  omap (reported outcome s0) (omap unreported [(m, ptr, ph)]) = [] →
  running stage s0 ran (mkSystem ms (gs1 ++ gs2) es (finishMetric now ptr status err s)).
Proof.
  intros [Hs Hm Hn Hl Ho Hw Hme Hi He] Hv Hu. cbn in *.
  destruct (Hw m ptr ph ltac:(set_solver)) as (k & -> & Hk & Hat).
  split; cbn; try done.
  - by rewrite length_alter.
  - intros j Hj. rewrite list_lookup_alter_ne by lia. by apply Ho.
  - intros m' ptr' ph' Hg. apply Hw. set_solver.
  - intros i m' Hi'. destruct (Hme _ _ Hi') as (mm & Hh & (Hmod & Hst & Hit) & Hor).
    destruct (decide (i = k)) as [->|Hne].
    + rewrite list_lookup_alter_eq, Hh. eexists. split; [done|].
      assert (m' = m) as -> by congruence. split; [done|]. right. rewrite Hv. by repeat (split; [done|]).
    + rewrite list_lookup_alter_ne by lia. exists mm. split; [done|]. split; [done|].
      destruct Hor as [[ph' Hg]|Hr]; [left; exists ph'|by right].
      apply elem_of_app in Hg as [Hg|Hg]; [set_solver|].
      apply elem_of_cons in Hg as [[=]|Hg]; [lia|set_solver].
  - rewrite <-He. rewrite !omap_app in *. cbn in *. destruct (unreported (m, _, ph)); cbn in *; [|done].
    by destruct (reported outcome s0 _).
Qed.

(** A goroutine adds its module's error. *)
Lemma running_report stage s0 ran ms gs1 gs2 m ptr es s err :
  running stage s0 ran (mkSystem ms (gs1 ++ (m, ptr, InSetup) :: gs2) es s) →
  outcome m = Some err →
  running stage s0 ran (mkSystem ms (gs1 ++ (m, ptr, Reported err) :: gs2) (es ++ [(m, err)]) s).
Proof.
  intros [Hs Hm Hn Hl Ho Hw Hme Hi He] Hout. cbn in *.
  destruct (Hw m ptr InSetup ltac:(set_solver)) as (k & -> & Hk & Hst & _).
  split; cbn; try done.
  - intros m' ptr' ph' Hg. apply elem_of_app in Hg as [Hg|Hg]; [apply Hw; set_solver|].
    apply elem_of_cons in Hg as [[= -> -> ->]|Hg]; [by exists k|]. apply Hw. set_solver.
  - intros i m' Hi'. destruct (Hme _ _ Hi') as (mm & Hh & Hstm & Hor).
    exists mm. split; [done|]. split; [done|]. destruct Hor as [[ph' Hg]|Hr]; [left|by right].
    apply elem_of_app in Hg as [Hg|Hg]; [exists ph'; set_solver|].
    apply elem_of_cons in Hg as [[= -> ? ->]|Hg]; [|exists ph'; set_solver].
    exists (Reported err). assert (i = k) as -> by lia. set_solver.
  - rewrite <-He. rewrite !omap_app. cbn.
    assert (reported outcome s0 m = Some (m, err)) as -> by (unfold reported; by rewrite Hst, Hout).
    rewrite <-!app_assoc. apply Permutation_app_head. cbn. apply Permutation_middle.
Qed.

Lemma running_step stage s0 ran sys sys' :
  running stage s0 ran sys → cstep now outcome stage sys sys' → ∃ ran', running stage s0 ran' sys'.
Proof.
  intros Hr Hstep. destruct Hstep as [m ms gs es s Hst|m ms gs es s Hst|ms gs es s w _|ms gs1 gs2 m ptr es s Ho
    |ms gs1 gs2 m ptr err es s Ho|ms gs1 gs2 m ptr err es s].
  - exists (ran ++ [m]). rewrite skip_new. eapply running_pass; [exact Hr|done|].
    right. split; [done|]. split; [done|]. unfold verdict.
    by rewrite <-(starts_same s), Hst by apply (run_net _ _ _ _ Hr).
  - exists (ran ++ [m]). eapply running_pass; [exact Hr|done|]. by left.
  - exists ran. by destruct Hr; split.
  - exists ran. eapply running_finish; [exact Hr| |].
    + destruct (run_work _ _ _ _ Hr m ptr InSetup ltac:(set_solver)) as (? & _ & _ & Hst & _).
      unfold verdict. by rewrite Hst, Ho.
    + unfold reported. cbn. rewrite Ho. by destruct (starts s0 m).
  - exists ran. by apply running_report.
  - exists ran. eapply running_finish; [exact Hr| |done].
    destruct (run_work _ _ _ _ Hr m ptr (Reported err) ltac:(set_solver)) as (? & _ & _ & Hst & Ho).
    unfold verdict. by rewrite Hst, Ho.
Qed.

Lemma running_start stage s : running stage s [] (concurrent_start stage s).
Proof. split; cbn; try done; first [lia|set_solver]. Qed.

Lemma running_reachable stage s sys :
  rtc (cstep now outcome stage) (concurrent_start stage s) sys → ∃ ran, running stage s ran sys.
Proof.
  apply (rtc_invariant (cstep now outcome stage) (λ sys, ∃ ran, running stage s ran sys)).
  - intros a b [ran Hr] Hstep. by eapply running_step.
  - exists []. apply running_start.
Qed.

Lemma RunConcurrent_frame stage s s' res :
  RunConcurrent now outcome stage s s' res →
  modules s' = modules s ∧ ∀ j, j < length (heap s) → heap s' !! j = heap s !! j.
Proof.
  intros (sys & Hrtc & _ & <- & ->). by destruct (running_reachable _ _ _ Hrtc) as [ran []].
Qed.

(** However the goroutines of a concurrent stage interleave, when
    [RunConcurrent] returns every module of the stage has a finished metric:
    skipped when it has no [Setup] or lacks its network, succeeded when its
    [Setup] returned nil, failed with the error it returned otherwise (found
    under its identification when those are distinct).  The errors it returns
    are exactly those of the failing modules, each once, and nil stands for
    none; the metrics of earlier stages and the tables of modules are as
    before. *)
Theorem RunConcurrent_settles stage s s' res :
  RunConcurrent now outcome stage s s' res →
  modules s' = modules s ∧
  (∀ j, j < length (heap s) → heap s' !! j = heap s !! j) ∧
  (∀ i m, modules s stage !! i = Some m →
     ∃ mm, heap s' !! (length (heap s) + i) = Some mm ∧
       records stage ConcurrentInit (verdict outcome s m) mm ∧
       (NoDup (ID <$> modules s stage) → metrics s' !! ID m = Some (length (heap s) + i))) ∧
  default [] res ≡ₚ omap (reported outcome s) (modules s stage) ∧
  (res = None ↔ ∀ m, m ∈ modules s stage → reported outcome s m = None).
Proof.
  intros (sys & Hrtc & [Htodo Hgs] & <- & ->).
  destruct (running_reachable _ _ _ Hrtc) as [ran [Hs Hm Hn Hl Ho Hw Hme Hi He]].
  rewrite Htodo, app_nil_r in Hs. rewrite Htodo, Hgs in He. cbn in He. rewrite app_nil_r in He.
  split; [done|]. split; [done|]. split; [|split].
  - intros i m Him. rewrite Hs in Him. destruct (Hme _ _ Him) as (mm & Hh & _ & [[ph Hg]|Hr]).
    { rewrite Hgs in Hg. by apply not_elem_of_nil in Hg. }
    exists mm. split; [done|]. split; [done|]. intros Hnd. by apply Hi.
  - rewrite <-He. by destruct (errs sys).
  - transitivity (errs sys = []); [by destruct (errs sys)|].
    split.
    + intros Hnil m Hin. rewrite Hnil in He. apply Permutation_nil_l in He.
      destruct (reported outcome s m) as [x|] eqn:E; [|done].
      assert (Hx : x ∈ omap (reported outcome s) (modules s stage)) by (apply list_elem_of_omap; eauto).
      rewrite <-He in Hx. by apply not_elem_of_nil in Hx.
    + intros Hnone. apply Permutation_nil_r. rewrite He.
      by rewrite omap_none.
Qed.

(** No interleaving gets stuck: the run can always be brought to its end. *)
Lemma concurrent_finishes stage sys : ∃ sys', rtc (cstep now outcome stage) sys sys' ∧ concurrent_done sys'.
Proof.
  destruct sys as [ms gs es s]. revert gs es s.
  assert (Hgs : ∀ gs es s, ∃ sys', rtc (cstep now outcome stage) (mkSystem [] gs es s) sys' ∧ concurrent_done sys').
  { induction gs as [|[[m ptr] ph] gs IH]; intros es s; [by eexists|].
    destruct ph as [|err].
    - destruct (outcome m) as [err|] eqn:Ho.
      + destruct (IH (es ++ [(m, err)]) (finishMetric now ptr StatusFailed (Some err) s)) as (sys' & Hr & Hd).
        exists sys'. split; [|done]. eapply rtc_l; [by apply (cstep_reports _ _ _ _ [])|].
        eapply rtc_l; [by apply (cstep_fails _ _ _ _ [])|done].
      + destruct (IH es (finishMetric now ptr StatusSucceeded None s)) as (sys' & Hr & Hd).
        exists sys'. split; [|done]. eapply rtc_l; [by apply (cstep_succeeds _ _ _ _ [])|done].
    - destruct (IH es (finishMetric now ptr StatusFailed (Some err) s)) as (sys' & Hr & Hd).
      exists sys'. split; [|done]. eapply rtc_l; [by apply (cstep_fails _ _ _ _ [])|done]. }
  induction ms as [|m ms IH]; intros gs es s; [apply Hgs|].
  destruct (starts s m) eqn:Hst.
  - edestruct IH as (sys' & Hr & Hd). exists sys'. split; [|exact Hd]. eapply rtc_l; [by apply cstep_go|exact Hr].
  - edestruct IH as (sys' & Hr & Hd). exists sys'. split; [|exact Hd]. eapply rtc_l; [by apply cstep_skip|exact Hr].
Qed.

End concurrent.

(** ** A small core plugin

    The world is a clock that every module advances. *)
Section example.

Definition tick_setup (n : Z) (r : option error) : unit → M Z (option error) := λ _ w, Some ((w + n)%Z, r).

Definition example_module (id : string) (net : bool) (setup block : option (unit → M Z (option error))) :
    Module_ Z unit := mkModule None id "" net setup block None.

Definition ex_network := example_module "network" true None (Some (tick_setup 5 None)).
Definition ex_iosched := example_module "iosched" false None (Some (tick_setup 7 None)).
Definition ex_clock := example_module "clock" true None (Some (tick_setup 2 (Some (ErrMsg "no clock")))).
Definition ex_late := example_module "oslogin" true (Some (tick_setup 1 None)) None.

Definition example_manager (ms : list (Module_ Z unit)) : moduleManager Z unit :=
  mkManager (λ _, ms) ∅ [] 100%Z false.

Lemma RunBlocking_settles_witness :
  let s := example_manager [ex_network; ex_iosched; ex_clock; ex_late] in
  let l := [(ex_network, StatusSucceeded, None); (ex_iosched, StatusSkipped, None);
            (ex_clock, StatusFailed, Some (ErrMsg "no clock"))] in
  ∃ s' new,
    RunBlocking (λ w, w) EarlyStage tt s = Some (s', failure l) ∧
    world s' = 107%Z ∧ modules s' = modules s ∧ heap s' = heap s ++ new ∧
    metrics s' = index_metrics (l.*1.*1) (length (heap s)) (metrics s) ∧
    Forall2 (records EarlyStage BlockingInit) l new ∧
    l.*1.*1 `prefix_of` modules s EarlyStage ∧ (failure l = None → l.*1.*1 = modules s EarlyStage) ∧
    (∀ i m st err, l !! i = Some (m, st, Some err) → S i = length l).
Proof. intros s l. apply (RunBlocking_settles (λ w, w) EarlyStage tt s 107%Z l). reflexivity. Defined.

Definition ex_ok := example_module "clock" true (Some (tick_setup 1 None)) None.
Definition ex_bad := example_module "oslogin" true (Some (tick_setup 1 None)) None.
Definition ex_outcome (m : Module_ Z unit) : option error :=
  if decide (ID m = "oslogin") then Some (ErrMsg "no pam") else None.

Lemma RunConcurrent_settles_witness :
  let s := example_manager [ex_bad; ex_ok; ex_network] in
  ∃ s', RunConcurrent (λ w, w) ex_outcome LateStage s s' (Some [(ex_bad, ErrMsg "no pam")]) ∧
    (∀ i m, modules s LateStage !! i = Some m →
       ∃ mm, heap s' !! i = Some mm ∧ records LateStage ConcurrentInit (verdict ex_outcome s m) mm ∧
         (NoDup (ID <$> modules s LateStage) → metrics s' !! ID m = Some i)).
Proof.
  intros s. eexists.
  match goal with |- ?P ∧ _ => assert (H : P) end.
  { eexists. split.
    - eapply rtc_l; [by apply cstep_go|]. eapply rtc_l; [by apply cstep_go|].
      eapply rtc_l; [by apply (cstep_succeeds _ _ _ _ [])|].
      eapply rtc_l; [by apply (cstep_reports _ _ _ _ [])|].
      eapply rtc_l; [by apply cstep_skip|].
      eapply rtc_l; [by apply (cstep_fails _ _ _ _ [])|apply rtc_refl].
    - split; [split; reflexivity|split; reflexivity]. }
  split; [exact H|]. exact (proj1 (proj2 (proj2 (RunConcurrent_settles _ _ _ _ _ _ H)))).
Defined.

End example.
End ModuleManager.
