(* ===== verification/CorePlugin.v ===== *)
(** * cmd/core_plugin: the core plugin's stages and its RPC server

    early.go, late.go and service.go.  [early_Run] is the early
    stage over the module manager, [late_begin] the late one up to its concurrent
    modules, [Start], [Stop], [GetStatus] and [Apply]
    the RPC handlers over the state [plugin] of the process, and [cp_step] the
    process as a whole: the RPCs the guest agent sends, the goroutine of
    [runAgent] that [Start] creates, and the event manager it ends up in.  The
    modules of the stages, the metadata client and the JSON decoder are
    parameters.  The theorem is the order of the stages as the guest agent
    observes it. *)
From stdpp Require Import base gmap list strings.
From S2P Require Import Prelude.
From S2P Require Import Retry.
From S2P Require Import Events.
From S2P Require Import ModuleManager.

Module CorePlugin.
Import ModuleManager.

Definition WatcherID : string := "metadata-watcher".
Definition LongpollEvent : string := "metadata-watcher,longpoll".
Definition initStatusRequest : string := "early-initialization".
Definition VMEventCmd : string := "VmEvent".

(** [metadataMaxAttempts], and the retry policy of the late stage. *)
Definition metadataMaxAttempts : Z := 30.
Definition mdsRetryPolicy : Retry.Policy := Retry.constant_policy metadataMaxAttempts Second.

Section plugin.
(** [D] is the metadata descriptor; a stage without data passes nil. *)
Context {W D : Type} (now : W → Z).
Local Notation Mod := (Module_ W (option D)).
Local Notation manager := (moduleManager W (option D)).
Context (early_modules late_modules : list (option Mod)).
Context (Get : M W (option D * option error)) (wait : Z → M W (option error)).
Context (outcome : Mod → option error).
(** The [Command] of a request and the [Event] of a VM event, if they decode. *)
Context (unmarshal_command unmarshal_event : string → option string).

(** ** The stages *)
Definition early_Run : M (manager * bool) (option error) :=
  _ ← zoom fst (λ m s, (m, s.2)) (Register (InitModulesSlice early_modules) EarlyStage);
  err ← zoom fst (λ m s, (m, s.2)) (RunBlocking now EarlyStage None);
  match err with
  | Some e => mret (Some (ErrWrap "early initialization module's registration failed" e))
  | None => _ ← modify (λ s, (s.1, true)); mret None
  end.

(** [getDescriptor] assigns the variable it captures. *)
Definition getDescriptor : M (W * option D) (option error) :=
  '(d, err) ← zoom fst (λ w s, (w, s.2)) Get;
  _ ← modify (λ s, (s.1, d));
  mret err.

Definition retry_descriptor : M W (option D * option (option error)) := λ w,
  match Retry.Run (λ t, zoom fst (λ w s, (w, s.2)) (wait t)) (Z.to_nat metadataMaxAttempts) mdsRetryPolicy
          (Some getDescriptor) (w, None) with
  | Some ((w', d), r) => Some (w', (d, r))
  | None => None
  end.

Definition late_Register : M manager unit := Register (InitModulesSlice late_modules) LateStage.

(** The late stage up to the goroutines: the descriptor, or the error. *)
Definition late_begin : M manager (option D * option error) :=
  _ ← late_Register;
  '(d, r) ← on_world retry_descriptor;
  match r with
  | None | Some None => mret (d, None)
  | Some (Some e) => mret (d, Some (ErrWrap "getting metadata descriptor" e))
  end.

(** ** The process *)
Inductive agent_phase := AEarly | ALate | AEvents | AGone.

Record agent := mkAgent { agent_ctx : nat; agent_phase_of : agent_phase }.

Record plugin := mkPlugin {
  mgr : manager;
  earlyInitDone : bool;
  events : Events.system;
  (** The contexts [Start] made: whether each is cancelled. *)
  contexts : list bool;
  (** [ps.cancel]: which of them it cancels. *)
  cancel : option nat;
  (** The goroutines of [runAgent]. *)
  agents : list agent;
  (** [logAndExit] or a panic ended the process. *)
  exited : option string;
}.

Definition newPlugin (m : manager) : plugin := mkPlugin m false Events.newManager [] None [] None.

Definition set_events e p := mkPlugin (mgr p) (earlyInitDone p) e (contexts p) (cancel p) (agents p) (exited p).
Definition set_agent k a p :=
  mkPlugin (mgr p) (earlyInitDone p) (events p) (contexts p) (cancel p) (<[k := a]> (agents p)) (exited p).
Definition set_mgr m d p := mkPlugin m d (events p) (contexts p) (cancel p) (agents p) (exited p).
Definition logAndExit msg p := mkPlugin (mgr p) (earlyInitDone p) (events p) (contexts p) (cancel p) (agents p) (Some msg).

(** A gRPC status: code and message. *)
Definition status : Type := Z * string.

Definition Start (p : plugin) : plugin * option status :=
  let c := length (contexts p) in
  let p := mkPlugin (mgr p) (earlyInitDone p) (events p) (contexts p ++ [false]) (Some c) (agents p) (exited p) in
  let '(ev, err) := Events.AddWatcher WatcherID [LongpollEvent] (events p) in
  match err with
  | Some _ => (set_events ev p, Some (1%Z, "failed to add metadata watcher"))
  | None =>
      (mkPlugin (mgr p) (earlyInitDone p) ev (contexts p) (cancel p) (agents p ++ [mkAgent c AEarly]) (exited p), None)
  end.

(** [ps.cancel()] panics when it is nil. *)
Definition Stop (p : plugin) : option plugin :=
  match cancel p with
  | Some c =>
      Some (mkPlugin (mgr p) (earlyInitDone p) (events p) (<[c := true]> (contexts p)) (cancel p) (agents p) (exited p))
  | None => None
  end.

Definition GetStatus (data : string) (p : plugin) : status :=
  if decide (data = initStatusRequest) then
    if earlyInitDone p then (0%Z, "successfully completed early initialization")
    else (1%Z, "still working...")
  else (0%Z, "core-plugin-alive, running ok").

Definition handleVMEvent (req : string) (p : plugin) : option (plugin * option error) :=
  match unmarshal_event req with
  | None => Some (p, Some (ErrMsg "unmarshal VM event request"))
  | Some ev =>
      if decide (ev = "shutdown") then p' ← Stop p; Some (p', None)
      else Some (p, None)
  end.

Definition Apply (config : string) (p : plugin) : option (plugin * option status) :=
  match unmarshal_command config with
  | None => Some (p, Some (1%Z, "failed to unmarshal apply request"))
  | Some cmd =>
      if decide (cmd = VMEventCmd) then '(p', _) ← handleVMEvent config p; Some (p', None)
      else Some (p, Some (1%Z, "unsupported command"))
  end.

(** ** The process, step by step *)
Definition at_phase (k : nat) (ph : agent_phase) (p : plugin) : Prop :=
  ∃ c, agents p !! k = Some (mkAgent c ph).
Definition to_phase (k : nat) (ph : agent_phase) (p : plugin) : plugin :=
  mkPlugin (mgr p) (earlyInitDone p) (events p) (contexts p) (cancel p)
    (alter (λ a, mkAgent (agent_ctx a) ph) k (agents p)) (exited p).

(** The event manager starts to run when an agent calls it, nothing removes
    the metadata watcher. *)
Definition events_allowed (p : plugin) (e : Events.system) : Prop :=
  (Events.is_running e = true → Events.is_running (events p) = true ∨ ∃ k, at_phase k AEvents p) ∧
  (WatcherID ∈ Events.watchersMap (events p) → WatcherID ∈ Events.watchersMap e).

Inductive cp_action : plugin → plugin → Prop :=
| cp_start p : cp_action p (Start p).1
| cp_stop p p' : Stop p = Some p' → cp_action p p'
| cp_apply p p' config r : Apply config p = Some (p', r) → cp_action p p'
| cp_early p k m d :
    at_phase k AEarly p → early_Run (mgr p, earlyInitDone p) = Some ((m, d), None) →
    cp_action p (to_phase k ALate (set_mgr m d p))
| cp_early_fails p k m d e :
    at_phase k AEarly p → early_Run (mgr p, earlyInitDone p) = Some ((m, d), Some e) →
    cp_action p (to_phase k AGone (logAndExit "Failed to run early initialization" (set_mgr m d p)))
| cp_late p k m m' desc res :
    at_phase k ALate p → late_begin (mgr p) = Some (m, (desc, None)) →
    RunConcurrent now outcome LateStage m m' res →
    cp_action p (to_phase k AEvents (set_mgr m' (earlyInitDone p) p))
| cp_late_fails p k m desc e :
    at_phase k ALate p → late_begin (mgr p) = Some (m, (desc, Some e)) →
    cp_action p (to_phase k AGone (logAndExit "Failed to run late initialization" (set_mgr m (earlyInitDone p) p)))
| cp_events p e :
    Events.step (events p) e → events_allowed p e →
    cp_action p (set_events e p)
| cp_leaves p k :
    at_phase k AEvents p → Events.ctl (events p) = Events.Left →
    cp_action p (to_phase k AGone p).

(** Nothing happens once the process has exited. *)
Definition cp_step (p p' : plugin) : Prop := exited p = None ∧ cp_action p p'.

(** The early stage as it should have gone: its metrics are those of the
    enabled modules, all of them passed. *)
Definition early_ok (net : bool) (m : manager) : Prop :=
  modules m EarlyStage = enabled early_modules ∧
  ∀ x, x ∈ enabled early_modules →
    ∃ mm, mm ∈ heap m ∧ metric_Module mm = x ∧ metric_Stage mm = EarlyStage ∧
      metric_Status mm = passed net x ∧ metric_Err mm = None.

Definition late_started (m : manager) : Prop := ∃ mm, mm ∈ heap m ∧ metric_Stage mm = LateStage.

(** ** Lemmas *)

Lemma early_Run_spec m d m' d' r :
  (∀ st, modules m st = []) → heap m = [] →
  early_Run (m, d) = Some ((m', d'), r) →
  ¬ late_started m' ∧
  match r with
  | None => d' = true ∧ early_ok (networkEnabled m) m'
  | Some _ => d' = d
  end.
Proof.
  intros Hm Hh. unfold early_Run, mbind, M_bind, zoom. cbn.
  destruct (Register_spec (InitModulesSlice early_modules) EarlyStage m) as (m1 & -> & Hm1 & _ & Hh1 & Hw1 & Hn1).
  rewrite InitModulesSlice_enabled in Hm1. cbn [fst snd].
  destruct (blocking_log (networkEnabled m1) None (modules m1 EarlyStage) (world m1)) as [[w l]|] eqn:El; cycle 1.
  { rewrite (RunBlocking_panics now _ _ _ El). done. }
  destruct (RunBlocking_run now _ _ _ _ _ El) as (new & E & HF). rewrite E. cbn. rewrite Hh1, Hh. cbn.
  assert (Hlate : ∀ mm, mm ∈ new → metric_Stage mm = EarlyStage).
  { intros mm [i Hi]%list_elem_of_lookup.
    destruct (Forall2_lookup_r _ _ _ _ _ HF Hi) as (e & _ & He). by destruct He as (_ & _ & _ & ? & _). }
  assert (Hm1e : modules m1 EarlyStage = enabled early_modules) by (rewrite Hm1, Hm; by rewrite decide_True).
  destruct (failure l) as [e|] eqn:Ef; intros [= <- <- <-]; cbn.
  - split; [|done]. intros (mm & Hin & Hst). cbn in Hin. by rewrite (Hlate mm Hin) in Hst.
  - split; [|split; [done|split; [exact Hm1e|]]].
    + intros (mm & Hin & Hst). cbn in Hin. by rewrite (Hlate mm Hin) in Hst.
    + rewrite (failure_none _ _ _ _ _ _ El Ef), Hm1e, Hn1 in HF. intros x [i Hi]%list_elem_of_lookup.
      destruct (Forall2_lookup_l _ _ _ i (x, passed (networkEnabled m) x, None) HF) as (mm & Hmm & Hr).
      { by rewrite list_lookup_fmap, Hi. }
      exists mm. split; [by eapply list_elem_of_lookup_2|]. by destruct Hr as (? & ? & ? & ? & _).
Qed.

Lemma late_begin_spec m m' o : late_begin m = Some (m', o) →
  heap m' = heap m ∧ modules m' EarlyStage = modules m EarlyStage.
Proof.
  unfold late_begin, late_Register, mbind, M_bind, on_world, zoom.
  destruct (Register_spec (InitModulesSlice late_modules) LateStage m) as (m1 & -> & Hm1 & _ & Hh1 & _).
  destruct (retry_descriptor (world m1)) as [[w [desc r]]|]; [|done].
  intros E. assert (m' = set_world w m1) as -> by (destruct r as [[]|]; by injection E).
  split; [exact Hh1|]. cbn. by rewrite Hm1, decide_False.
Qed.

Lemma early_ok_mono net m m' :
  modules m' EarlyStage = modules m EarlyStage → (∀ j, j < length (heap m) → heap m' !! j = heap m !! j) →
  early_ok net m → early_ok net m'.
Proof.
  intros Hm Hh [He Hx]. split; [congruence|]. intros x Hin. destruct (Hx x Hin) as (mm & [j Hj]%list_elem_of_lookup & ?).
  exists mm. split; [|done]. apply (list_elem_of_lookup_2 _ j). rewrite Hh; [done|]. by eapply lookup_lt_Some.
Qed.

(** The invariant of the process, from an empty manager [m0]. *)
Record inv (m0 : manager) (p : plugin) : Prop := mkInv {
  inv_one : length (agents p) ≤ 1;
  inv_watch : agents p ≠ [] → WatcherID ∈ Events.watchersMap (events p);
  inv_fresh : (agents p = [] ∨ ∃ k, at_phase k AEarly p) → mgr p = m0 ∧ earlyInitDone p = false;
  inv_done : earlyInitDone p = true → early_ok (networkEnabled m0) (mgr p);
  inv_late : late_started (mgr p) → earlyInitDone p = true;
  inv_phase k : at_phase k ALate p ∨ at_phase k AEvents p → earlyInitDone p = true;
}.

Lemma at_phase_unique p k k' ph ph' :
  length (agents p) ≤ 1 → at_phase k ph p → at_phase k' ph' p → k = k' ∧ ph = ph'.
Proof.
  intros Hl [c Hc] [c' Hc']. pose proof (lookup_lt_Some _ _ _ Hc). pose proof (lookup_lt_Some _ _ _ Hc').
  assert (k = k') as -> by lia. split; [done|]. congruence.
Qed.

(** The agent's goroutine moves on to [ph], with a new manager state. *)
Lemma inv_agent m0 p k ph0 ph m d ex :
  inv m0 p → at_phase k ph0 p → ph ≠ AEarly →
  (d = true → early_ok (networkEnabled m0) m) → (late_started m → d = true) →
  (ph = AGone ∨ d = true) →
  inv m0 (to_phase k ph (mkPlugin m d (events p) (contexts p) (cancel p) (agents p) ex)).
Proof.
  intros Hi Hk Hph Hok Hlate Hd.
  assert (Hat : ∀ k' ph', at_phase k' ph' (to_phase k ph (mkPlugin m d (events p) (contexts p) (cancel p) (agents p) ex)) → ph' = ph).
  { intros k' ph' [c Hc]. cbn in Hc. destruct (decide (k' = k)) as [->|Hne].
    - destruct Hk as [c0 Hc0]. rewrite list_lookup_alter_eq, Hc0 in Hc. cbn in Hc. congruence.
    - rewrite list_lookup_alter_ne in Hc by done.
      destruct (at_phase_unique p k k' ph0 ph' (inv_one _ _ Hi) Hk ltac:(by exists c)). done. }
  split; cbn [mgr earlyInitDone events contexts cancel agents exited to_phase]; try done.
  - rewrite length_alter. apply Hi.
  - intros _. apply (inv_watch _ _ Hi). destruct Hk as [c Hc]. by destruct (agents p).
  - intros [Hnil|[k' Hk']]; [|by destruct Hph; rewrite (Hat _ _ Hk')].
    destruct Hk as [c Hc]. apply lookup_lt_Some in Hc.
    assert (length (alter (λ a, mkAgent (agent_ctx a) ph) k (agents p)) = 0) as Hz by by rewrite Hnil.
    rewrite length_alter in Hz. lia.
  - intros k' [Hk'|Hk']; apply Hat in Hk'; subst ph; by destruct Hd.
Qed.

Lemma inv_same m0 p p' :
  inv m0 p → mgr p' = mgr p → earlyInitDone p' = earlyInitDone p → agents p' = agents p →
  (WatcherID ∈ Events.watchersMap (events p) → WatcherID ∈ Events.watchersMap (events p')) →
  inv m0 p'.
Proof.
  intros [] Hm Hd Ha Hw. unfold at_phase in *.
  split; unfold at_phase; rewrite ?Hm, ?Hd, ?Ha; auto.
Qed.

Lemma Stop_same p p' :
  Stop p = Some p' → mgr p' = mgr p ∧ earlyInitDone p' = earlyInitDone p ∧ agents p' = agents p ∧ events p' = events p.
Proof. unfold Stop. by destruct (cancel p); intros [= <-]. Qed.

Lemma Apply_same p p' config r :
  Apply config p = Some (p', r) →
  mgr p' = mgr p ∧ earlyInitDone p' = earlyInitDone p ∧ agents p' = agents p ∧ events p' = events p.
Proof.
  unfold Apply, handleVMEvent. destruct (unmarshal_command config) as [cmd|]; [|by intros [= <- _]].
  destruct (decide _); [|by intros [= <- _]].
  destruct (unmarshal_event config) as [ev|]; [|by intros [= <- _]].
  destruct (decide _); [|by intros [= <- _]]. cbn.
  destruct (Stop p) as [p1|] eqn:E; [|done]. intros [= <- _]. by apply Stop_same.
Qed.

Lemma inv_Start m0 p : inv m0 p → inv m0 (Start p).1.
Proof.
  intros Hi. unfold Start, Events.AddWatcher. cbn [events].
  destruct (bool_decide_reflect (WatcherID ∈ Events.watchersMap (events p))) as [Hin|Hin].
  { by apply (inv_same m0 p). }
  assert (Hnil : agents p = []).
  { destruct (agents p) eqn:E; [done|]. destruct Hin. apply (inv_watch _ _ Hi). by rewrite E. }
  destruct (inv_fresh _ _ Hi (or_introl Hnil)) as [Hm Hd].
  split; cbn [fst mgr earlyInitDone events contexts cancel agents exited]; rewrite ?Hnil; cbn.
  - lia.
  - intros _. set_solver.
  - done.
  - apply Hi.
  - apply Hi.
  - unfold at_phase. cbn. intros [|k] [[c Hc]|[c Hc]]; try done; by rewrite lookup_nil in Hc.
Qed.

Lemma inv_step m0 p p' :
  (∀ st, modules m0 st = []) → heap m0 = [] → inv m0 p → cp_step p p' → inv m0 p'.
Proof.
  intros Hm0 Hh0 Hi [_ Hstep]. destruct Hstep as [p|p p' Hs|p p' config r Ha|p k m d Hk He|p k m d e Hk He
    |p k m m' desc res Hk Hl Hc|p k m desc e Hk Hl|p e _ [_ He]|p k Hk _].
  - by apply inv_Start.
  - destruct (Stop_same _ _ Hs) as (? & ? & ? & Hev). apply (inv_same m0 p); try done. by rewrite Hev.
  - destruct (Apply_same _ _ _ _ Ha) as (? & ? & ? & Hev). apply (inv_same m0 p); try done. by rewrite Hev.
  - destruct (inv_fresh _ _ Hi) as [Hm Hd]; [by eauto|]. rewrite Hm, Hd in He.
    destruct (early_Run_spec _ _ _ _ _ Hm0 Hh0 He) as [Hlate [-> Hok]].
    eapply (inv_agent m0 p); [done|done|done|done|done|by right].
  - destruct (inv_fresh _ _ Hi) as [Hm Hd]; [by eauto|]. rewrite Hm, Hd in He.
    destruct (early_Run_spec _ _ _ _ _ Hm0 Hh0 He) as [Hlate ->].
    eapply (inv_agent m0 p); [done|done|done|done|done|by left].
  - assert (Hd := inv_phase _ _ Hi k (or_introl Hk)).
    destruct (late_begin_spec _ _ _ Hl) as [Hh Hm]. destruct (RunConcurrent_frame _ _ _ _ _ _ Hc) as [Hm' Hh'].
    eapply (inv_agent m0 p); [done|done|done| |done|by right]. intros _.
    apply (early_ok_mono _ (mgr p)); [by rewrite Hm', Hm| |by apply (inv_done _ _ Hi)].
    intros j Hj. rewrite <-Hh in Hj |- *. by apply Hh'.
  - assert (Hd := inv_phase _ _ Hi k (or_introl Hk)).
    destruct (late_begin_spec _ _ _ Hl) as [Hh Hm].
    eapply (inv_agent m0 p); [done|done|done| |done|by left]. intros _.
    apply (early_ok_mono _ (mgr p)); [done|intros j Hj; cbn; by rewrite Hh|by apply (inv_done _ _ Hi)].
  - by apply (inv_same m0 p).
  - eapply (inv_agent m0 p); [done|done|done|by apply Hi|by apply Hi|by left].
Qed.

Lemma inv_new m0 : (∀ st, modules m0 st = []) → heap m0 = [] → inv m0 (newPlugin m0).
Proof.
  intros Hm Hh. split; cbn; try done; [lia| |].
  - intros (mm & Hin & _). rewrite Hh in Hin. by apply not_elem_of_nil in Hin.
  - intros k [[c Hc]|[c Hc]]; cbn in Hc; by rewrite lookup_nil in Hc.
Qed.

(** The guest agent takes the answer of [GetStatus] to the early
    initialization request as the readiness of the instance.  Whatever RPCs
    arrive and however they interleave with the initialisation, that answer is
    zero only once every enabled module of the early stage has run, in a
    network-less configuration only those that need none, and each without an
    error; no module of the late stage is started before; and at most one
    initialisation ever runs, however often [Start] is called. *)
Theorem early_before_late m0 p :
  (∀ st, modules m0 st = []) → heap m0 = [] →
  rtc cp_step (newPlugin m0) p →
  ((GetStatus initStatusRequest p).1 = 0%Z → early_ok (networkEnabled m0) (mgr p)) ∧
  (late_started (mgr p) → (GetStatus initStatusRequest p).1 = 0%Z) ∧
  length (agents p) ≤ 1.
Proof.
  intros Hm Hh Hr.
  assert (Hi : inv m0 p).
  { eapply (rtc_invariant cp_step (inv m0)); [|by apply inv_new|done]. intros a b. by apply inv_step. }
  unfold GetStatus. rewrite decide_True by done. split; [|split].
  - intros Hs. apply (inv_done _ _ Hi). by destruct (earlyInitDone p).
  - intros Hl. by rewrite (inv_late _ _ Hi Hl).
  - apply (inv_one _ _ Hi).
Qed.

(** A second [Start] is refused but has replaced [ps.cancel]: the [Stop] that
    follows cancels a context nobody uses, and the initialisation that runs
    keeps the one it has. *)
Lemma second_start_loses_cancel m0 :
  let p1 := (Start (newPlugin m0)).1 in
  let '(p2, r) := Start p1 in
  is_Some r ∧ agents p2 = [mkAgent 0 AEarly] ∧
  ∃ p3, Stop p2 = Some p3 ∧ contexts p3 = [false; true].
Proof. cbn. split; [by eexists|]. split; [done|]. by eexists. Qed.

(** A [Stop] before any [Start] calls a nil function. *)
Lemma stop_before_start_panics m0 : Stop (newPlugin m0) = None.
Proof. done. Qed.

End plugin.

Arguments plugin : clear implicits.

(** ** A run of a small core plugin *)
Lemma early_before_late_witness :
  let m0 : moduleManager Z (option unit) := mkManager (λ _, []) ∅ [] 100%Z true in
  let setup := λ (n : Z) (_ : option unit) (w : Z), Some ((w + n)%Z, @None error) in
  let early := [Some (mkModule None "network" "" true None (Some (setup 5%Z)) None); None;
                Some (mkModule (Some false) "iosched" "" true None (Some (setup 7%Z)) None)] in
  let late := [Some (mkModule None "clock" "" true (Some (setup 1%Z)) None None)] in
  let step := cp_step (λ w, w) early late (λ w, Some (w, (Some tt, None))) (λ _ w, Some (w, None)) (λ _, None)
                (λ _, None) (λ _, None) in
  ∃ p, rtc step (newPlugin m0) p ∧ (GetStatus initStatusRequest p).1 = 0%Z ∧
    ((GetStatus initStatusRequest p).1 = 0%Z → early_ok early (networkEnabled m0) (mgr p)) ∧
    (late_started (mgr p) → (GetStatus initStatusRequest p).1 = 0%Z) ∧
    length (agents p) ≤ 1.
Proof.
  intros m0 setup early late step. eexists.
  match goal with |- ?P ∧ _ => assert (H : P) end.
  { eapply rtc_l; [split; [|apply cp_start]; reflexivity|].
    eapply rtc_l; [split; [reflexivity|]; eapply (cp_early _ _ _ _ _ _ _ _ _ 0); [by eexists|vm_compute; reflexivity]|].
    apply rtc_refl. }
  split; [exact H|]. split; [reflexivity|].
  eapply (early_before_late (λ w, w) early late); [done|done|exact H].
Defined.

End CorePlugin.
