(* ===== verification/CommandMonitor.v ===== *)
(** * internal/command: the command monitor

    command_monitor.go and the registry of command.go.  [Monitor] is the registry of handlers with the server
    [Setup] started; [serve] is the goroutine of one connection, over a script
    [conn] of what its reads return and the list of what it wrote; [getOption]
    walks the configuration by reflection, whose panics are those of the
    [reflect] package.  JSON is a parameter: which requests decode, and how
    responses are encoded.  A computation that yields [None] panicked, and the
    goroutines of the server do not recover. *)
From stdpp Require Import base gmap list strings.
From S2P Require Import Prelude.
From S2P Require Import GoStrings.

Module CommandMonitor.

(** ** Responses *)
Record Response := mkResponse { Status : Z; StatusMessage : string }.

Definition CmdNotFoundError := mkResponse 101 "Could not find a handler for the requested command".
Definition BadRequestError := mkResponse 102 "Could not parse valid JSON from request".
Definition ConnError := mkResponse 103 "Connection error".
Definition TimeoutError := mkResponse 104 "Connection timeout before reading valid request".
Definition HandlerError := mkResponse 105 "The command handler encountered an error processing your request".
Definition quote : Ascii.ascii := Ascii.ascii_of_nat 34.
(** The literal of the source, with its quotes written as the character 34. *)
Definition quoted (s : string) : string := String quote s +:+ String quote "".
Definition internalError : string :=
  "{" +:+ quoted "Status" +:+ ":106," +:+ quoted "StatusMessage" +:+ ":" +:+
  quoted "The command server encountered an internal error trying to respond to your request" +:+ "}".

Inductive KnownListeners := ListenerGuestAgent | ListenerCorePlugin.
Definition listener_String (l : KnownListeners) : string :=
  match l with ListenerGuestAgent => "guestagent" | ListenerCorePlugin => "coreplugin" end.

(** ** Connections *)

(** What a [Read] of at most 1024 bytes returns. *)
Inductive read := Chunk (b : string) | DeadlineExceeded | Failed.

Record conn := mkConn { inbox : list read; outbox : list string }.

(** A peer that sends nothing more is cut off by the deadline. *)
Definition Read : M conn read := λ c,
  match inbox c with
  | [] => Some (c, DeadlineExceeded)
  | r :: rest => Some (mkConn rest (outbox c), r)
  end.

Definition Write (b : string) : M conn unit := modify (λ c, mkConn (inbox c) (outbox c ++ [b])).

(** ** Configuration values, as [reflect] sees them *)

(** A scalar is what [%v] prints; a field that is not exported cannot be
    turned into an interface. *)
Inductive value :=
| VScalar (printed : string)
| VStruct (fields : list (string * bool * value))
| VPtr (target : option value).

(** [reflect.Indirect]; [None] is the zero [Value]. *)
Definition Indirect (v : value) : option value :=
  match v with VPtr t => t | _ => Some v end.

Fixpoint find_field (k : string) (fields : list (string * bool * value)) : option (bool * value) :=
  match fields with
  | [] => None
  | (n, exported, v) :: rest => if decide (n = k) then Some (exported, v) else find_field k rest
  end.

(** [FieldByName] panics on anything but a struct; [None] inside is the zero
    [Value] of a missing field. *)
Definition FieldByName (v : option value) (k : string) : option (option (bool * value)) :=
  match v with
  | Some (VStruct fields) => Some (find_field k fields)
  | _ => None
  end.

(** The regular expression of [validKey]: an upper-case letter, then letters,
    one at least. *)
Definition is_upper (a : Ascii.ascii) : bool := let n := Ascii.nat_of_ascii a in (65 <=? n) && (n <=? 90).
Definition is_letter (a : Ascii.ascii) : bool :=
  is_upper a || let n := Ascii.nat_of_ascii a in (97 <=? n) && (n <=? 122).
Definition validKey (k : string) : bool :=
  match to_bytes k with
  | a :: b :: rest => is_upper a && forallb is_letter (b :: rest)
  | _ => false
  end.

Record getOptionResponse := mkOption { opt_Response : Response; opt_Option : string; opt_Value : string }.

Inductive lookup_result := Invalid | Missing | Found (v : value).

(** The loop over the keys; [None] is a panic. *)
Fixpoint walk (opt : value) (keys : list string) : option lookup_result :=
  match keys with
  | [] => Some (Found opt)
  | k :: rest =>
      if negb (validKey k) then Some Invalid
      else
        field ← FieldByName (Indirect opt) k;
        match field with
        | None => Some Missing
        | Some (exported, v) => if (exported : bool) then walk v rest else None
        end
  end.

(** [getOption] once the request is decoded; [printed] is [%v]. *)
Definition getOption_of (cfg : value) (printed : value → string) (option_ : string) : option getOptionResponse :=
  if decide (option_ = "") then Some (mkOption (mkResponse 2 "No option specified") option_ "")
  else
    r ← walk cfg (Split option_ (Ascii.ascii_of_nat 46));
    Some match r with
         | Invalid => mkOption (mkResponse 3 "Invalid option, key names must start with uppercase") option_ ""
         | Missing => mkOption (mkResponse 1 "Option does not exist") option_ ""
         | Found v => mkOption (mkResponse 0 "") option_ (printed v)
         end.

(** The handler: [unmarshal] yields the request's [Option], or its error. *)
Definition getOption {W} (cfg : value) (printed : value → string) (unmarshal : string → string + string)
    (marshal : getOptionResponse → string + string) (b : string) : M W (string * option string) :=
  match unmarshal b with
  | inr err => mret ("", Some err)
  | inl o =>
      resp ← some_or_panic (getOption_of cfg printed o);
      mret match marshal resp with inl j => (j, None) | inr err => ("", Some err) end
  end.

(** ** The monitor *)
Section monitor.
Context {W : Type}.

(** A handler gets the whole message and returns its response, or the message
    of its error; it may change the world or panic. *)
Definition Handler : Type := string → M W (string * option string).

Record Server := mkServer {
  pipe : string;
  timeout : Z;
  pipeMode : Z;
  pipeGroup : string;
  (** [c.srv]: the listener, once it listens. *)
  listening : bool;
}.

Record Monitor := mkMonitor {
  srv : option Server;
  handlers : gmap string Handler;
}.

Definition set_srv o (m : Monitor) := mkMonitor o (handlers m).
Definition set_handlers h (m : Monitor) := mkMonitor (srv m) h.

Definition RegisterHandler (cmd : string) (f : Handler) (m : Monitor) : Monitor * option error :=
  match handlers m !! cmd with
  | Some _ => (m, Some (ErrMsg ("cmd " +:+ cmd +:+ " is already handled")))
  | None => (set_handlers (<[cmd := f]> (handlers m)) m, None)
  end.

Definition UnregisterHandler (cmd : string) (m : Monitor) : Monitor * option error :=
  match handlers m !! cmd with
  | None => (m, Some (ErrMsg ("cmd " +:+ cmd +:+ " is not registered")))
  | Some _ => (set_handlers (delete cmd (handlers m)) m, None)
  end.

(** What the configuration says, the durations and modes parsed. *)
Record config := mkConfig {
  CommandMonitorEnabled : bool;
  CommandPipePath : string;
  CommandRequestTimeout : option Z;
  CommandPipeMode : option Z;
  CommandPipeGroup : string;
}.

Definition fallbackTimeout : Z := 10 * 1000000000.
Definition fallbackPipeMode : Z := 504. (* 0770 *)
Definition parseTimeoutFromCfg (c : config) : Z := default fallbackTimeout (CommandRequestTimeout c).
Definition parsePipemodeFromCfg (c : config) : Z := default fallbackPipeMode (CommandPipeMode c).
Definition PipeName (c : config) (l : KnownListeners) : string :=
  path_Join [CommandPipePath c; listener_String l].

(** [listen] is the operating system's: the pipe comes up or it does not. *)
Context (listen : Server → W → option error).
Context (getOption_ : Handler).
Definition getOptionCommand : string := "agent.config.getoption".

Definition server_start (s : Server) (w : W) : Server * option error :=
  if listening s then (s, Some (ErrMsg "server already listening"))
  else match listen s w with
       | Some e => (s, Some e)
       | None => (mkServer (pipe s) (timeout s) (pipeMode s) (pipeGroup s) true, None)
       end.

Definition Setup (c : config) (l : KnownListeners) (m : Monitor) (w : W) : Monitor * option error :=
  if negb (CommandMonitorEnabled c) then (m, None)
  else match srv m with
  | Some _ => (m, Some (ErrMsg "command monitor is already running"))
  | None =>
      let '(m1, _) := RegisterHandler getOptionCommand getOption_ m in
      let s := mkServer (PipeName c l) (parseTimeoutFromCfg c) (parsePipemodeFromCfg c) (CommandPipeGroup c) false in
      let '(s', err) := server_start s w in
      (set_srv (Some s') m1, err)
  end.

(** [Close]; the errors of the listener are only logged. *)
Definition Close (m : Monitor) : Monitor :=
  let '(m1, _) := UnregisterHandler getOptionCommand m in
  match srv m1 with Some _ => set_srv None m1 | None => m1 end.

(** ** One connection *)

(** [json.Unmarshal] of a message into a [Request]: its [Command]. *)
Context (unmarshal : string → option string).
(** [json.Marshal] of a [Response]. *)
Context (marshal : Response → option string).

Definition marshal_or_internal (r : Response) : string := default internalError (marshal r).

Definition readOrError : M conn (option string) :=
  r ← Read;
  match r with
  | Chunk b => mret (Some b)
  | DeadlineExceeded => _ ← Write (marshal_or_internal TimeoutError); mret None
  | Failed => _ ← Write (marshal_or_internal ConnError); mret None
  end.

(** The loop that reads until the message decodes: one more read per turn. *)
Fixpoint read_request (fuel : nat) (message : string) : M conn (option (string * string)) :=
  match unmarshal message with
  | Some cmd => mret (Some (cmd, message))
  | None =>
      match fuel with
      | 0 => mret None
      | S fuel' =>
          b ← readOrError;
          match b with
          | None => mret None
          | Some b => read_request fuel' (message +:+ b)
          end
      end
  end.

(** The response to a request that was read. *)
Definition respond (hs : gmap string Handler) (cmd message : string) : M W string :=
  match hs !! cmd with
  | None => mret (marshal_or_internal CmdNotFoundError)
  | Some handler =>
      '(resp, err) ← handler message;
      match err with
      | None => mret resp
      | Some e => mret (marshal_or_internal (mkResponse (Status HandlerError) e))
      end
  end.

Definition serve (m : Monitor) (deadline_set : bool) : M (W * conn) unit :=
  if negb deadline_set then mret tt
  else
    let on_conn {A} : M conn A → M (W * conn) A := zoom snd (λ c s, (s.1, c)) in
    n ← gets (λ s, length (inbox s.2));
    first ← on_conn readOrError;
    match first with
    | None => mret tt
    | Some message =>
        r ← on_conn (read_request (S n) message);
        match r with
        | None => mret tt
        | Some (cmd, message) =>
            resp ← zoom fst (λ w s, (w, s.2)) (respond (handlers m) cmd message);
            on_conn (Write resp)
        end
    end.

End monitor.

(** ** Lemmas on one connection *)
Section serve.
Context {W : Type} (unmarshal : string → option string) (marshal : Response → option string).
Implicit Types (m : Monitor (W := W)) (w : W).

(** A message of which no proper prefix is a request: JSON objects are such. *)
Definition complete (message : string) : Prop :=
  ∀ p q, message = p +:+ q → q ≠ "" → unmarshal p = None.

Definition nonempty (b : string) : Prop := b ≠ "".

Lemma string_app_nil_r (b : string) : b +:+ "" = b.
Proof.
  induction b as [|a b IH]; [done|]. change (String a b +:+ "") with (String a (b +:+ "")). by rewrite IH.
Qed.

Lemma concat_empty_cons b bs : String.concat "" (b :: bs) = b +:+ String.concat "" bs.
Proof. destruct bs; [cbn; by rewrite string_app_nil_r|done]. Qed.

Lemma concat_cons_nonempty b bs : Forall nonempty (b :: bs) → String.concat "" (b :: bs) ≠ "".
Proof.
  intros [Hb _]%Forall_cons. unfold nonempty in Hb. rewrite concat_empty_cons. destruct b as [|a b]; [done|].
  change (String a b +:+ String.concat "" bs) with (String a (b +:+ String.concat "" bs)). done.
Qed.

(** Reading a complete message that arrives in non-empty chunks. *)
Lemma read_chunks fuel acc chunks rest out cmd :
  unmarshal (acc +:+ String.concat "" chunks) = Some cmd →
  complete (acc +:+ String.concat "" chunks) → Forall nonempty chunks → length chunks ≤ fuel →
  read_request unmarshal marshal fuel acc (mkConn ((Chunk <$> chunks) ++ rest) out) =
  Some (mkConn rest out, Some (cmd, acc +:+ String.concat "" chunks)).
Proof.
  revert acc fuel. induction chunks as [|b bs IH]; intros acc fuel Hu Hc Hne Hf.
  - cbn in Hu |- *. rewrite string_app_nil_r in *. destruct fuel; cbn; by rewrite Hu.
  - destruct fuel as [|fuel]; [cbn in Hf; lia|].
    assert (Hnone : unmarshal acc = None).
    { apply (Hc acc (String.concat "" (b :: bs))); [done|by apply concat_cons_nonempty]. }
    rewrite concat_empty_cons in Hu, Hc |- *. rewrite <-append_assoc in Hu, Hc |- *. cbn [read_request]. rewrite Hnone.
    unfold readOrError, mbind, M_bind, Read. cbn.
    apply IH; [done|done|by inversion Hne|cbn in Hf; lia].
Qed.

(** Reading fails after chunks that do not make a request. *)
Lemma read_fails fuel acc chunks r rest out :
  (∀ pre, pre `prefix_of` chunks → unmarshal (acc +:+ String.concat "" pre) = None) →
  length chunks < fuel → r = DeadlineExceeded ∨ r = Failed →
  read_request unmarshal marshal fuel acc (mkConn ((Chunk <$> chunks) ++ r :: rest) out) =
  Some (mkConn rest (out ++ [marshal_or_internal marshal (if r is DeadlineExceeded then TimeoutError else ConnError)]), None).
Proof.
  revert acc fuel. induction chunks as [|b bs IH]; intros acc fuel Hu Hf Hr; (destruct fuel as [|fuel]; [cbn in Hf; lia|]).
  - pose proof (Hu [] (prefix_nil _)) as H0. cbn in H0. rewrite string_app_nil_r in H0.
    cbn [read_request]. rewrite H0. unfold readOrError, mbind, M_bind, Read. cbn. by destruct Hr as [-> | ->].
  - pose proof (Hu [] (prefix_nil _)) as H0. cbn in H0. rewrite string_app_nil_r in H0.
    cbn [read_request]. rewrite H0. unfold readOrError, mbind, M_bind, Read. cbn.
    apply IH; [|cbn in Hf; lia|done]. intros pre Hpre.
    rewrite append_assoc, <-concat_empty_cons. apply Hu. by apply prefix_cons.
Qed.

Lemma serve_request_run m w chunks rest out message cmd :
  String.concat "" chunks = message → Forall nonempty chunks →
  unmarshal message = Some cmd → complete message → message ≠ "" →
  serve unmarshal marshal m true (w, mkConn ((Chunk <$> chunks) ++ rest) out) =
  match respond marshal (handlers m) cmd message w with
  | None => None
  | Some (w', resp) => Some ((w', mkConn rest (out ++ [resp])), tt)
  end.
Proof.
  intros Hm Hne Hu Hc Hmne. destruct chunks as [|b bs]; [by subst|].
  rewrite concat_empty_cons in Hm. apply Forall_cons in Hne as [_ Hbs].
  unfold serve. cbn [negb]. unfold mbind at 1, M_bind at 1, gets. unfold mbind at 1, M_bind at 1.
  unfold zoom at 1, readOrError, mbind at 1, M_bind at 1, Read. cbn -[read_request].
  unfold mbind at 1, M_bind at 1. unfold zoom at 1. cbn [snd].
  rewrite (read_chunks _ _ _ _ _ cmd); rewrite ?Hm; try done; [|rewrite length_app, length_fmap; lia].
  unfold mbind, M_bind, zoom. cbn.
  by destruct (respond marshal (handlers m) cmd message w) as [[w' resp]|].
Qed.

(** How the bytes of a request are spread over the reads does not matter:
    a message that decodes, no proper prefix of which does, and that arrives in
    any split into non-empty chunks, is answered exactly once, with what the
    handler registered for its command returns on the whole message: its
    response, the error response with the message of its error, or the
    not-found response when there is no handler.  What follows the request on
    the connection is not read, and the world changes as the handler changes
    it. *)
Theorem serve_request m w chunks rest out message cmd :
  String.concat "" chunks = message → Forall nonempty chunks →
  unmarshal message = Some cmd → complete message → message ≠ "" →
  serve unmarshal marshal m true (w, mkConn ((Chunk <$> chunks) ++ rest) out) =
  match handlers m !! cmd with
  | None => Some ((w, mkConn rest (out ++ [marshal_or_internal marshal CmdNotFoundError])), tt)
  | Some handler =>
      match handler message w with
      | None => None
      | Some (w', (resp, None)) => Some ((w', mkConn rest (out ++ [resp])), tt)
      | Some (w', (_, Some err)) =>
          Some ((w', mkConn rest (out ++ [marshal_or_internal marshal (mkResponse 105 err)])), tt)
      end
  end.
Proof.
  intros. rewrite (serve_request_run m w chunks rest out message cmd) by done.
  unfold respond, mbind, M_bind. destruct (handlers m !! cmd) as [handler|]; [|done].
  by destruct (handler message w) as [[w' [resp [err|]]]|].
Qed.

(** A peer that stops sending before a request is complete, and one whose
    connection breaks, get the timeout and the connection error response, and
    nothing else happens. *)
Theorem serve_incomplete m w chunks r rest out :
  (∀ pre, pre `prefix_of` chunks → pre ≠ [] → unmarshal (String.concat "" pre) = None) →
  r = DeadlineExceeded ∨ r = Failed →
  serve unmarshal marshal m true (w, mkConn ((Chunk <$> chunks) ++ r :: rest) out) =
  Some ((w, mkConn rest (out ++ [marshal_or_internal marshal
    (if r is DeadlineExceeded then TimeoutError else ConnError)])), tt).
Proof.
  intros Hu Hr. unfold serve. cbn [negb]. unfold mbind at 1, M_bind at 1, gets. unfold mbind at 1, M_bind at 1.
  unfold zoom at 1, readOrError, mbind at 1, M_bind at 1, Read.
  destruct chunks as [|b bs]; cbn [fmap list_fmap app inbox snd fst].
  { by destruct Hr as [-> | ->]. }
  cbn -[read_request]. unfold mbind at 1, M_bind at 1. unfold zoom at 1. cbn [snd].
  rewrite read_fails; [done| |rewrite length_app, length_fmap; lia|done].
  intros pre Hpre. rewrite <-concat_empty_cons. apply Hu; [by apply prefix_cons|done].
Qed.

End serve.

(** ** The configuration lookup *)
Section lookup.
Implicit Types (cfg v : value).

Lemma walk_app cfg ks ks' :
  walk cfg (ks ++ ks') = match walk cfg ks with Some (Found v) => walk v ks' | r => r end.
Proof.
  revert cfg. induction ks as [|k ks IH]; intros cfg; [done|]. cbn [walk app].
  destruct (negb (validKey k)); [done|]. destruct (FieldByName (Indirect cfg) k) as [[[[] v]|]|]; cbn; [apply IH|done..].
Qed.

(** A request for an option below one that is not a section, such as a
    field of a string, makes [reflect] panic in the goroutine of the
    connection, which takes the whole agent down: no response is written. *)
Theorem getOption_can_panic {W} (m : Monitor (W := W)) unmarshal marshal cfg printed decode encode
    chunks rest out message o ks k v (w : W) :
  String.concat "" chunks = message → Forall nonempty chunks → message ≠ "" →
  unmarshal message = Some getOptionCommand → complete unmarshal message →
  handlers m !! getOptionCommand = Some (getOption cfg printed decode encode) →
  decode message = inl o → o ≠ "" → Split o (Ascii.ascii_of_nat 46) = ks ++ [k] →
  validKey k = true → walk cfg ks = Some (Found v) →
  match Indirect v with Some (VStruct _) => False | _ => True end →
  serve unmarshal marshal m true (w, mkConn ((Chunk <$> chunks) ++ rest) out) = None.
Proof.
  intros Hch Hne Hmne Hu Hc Hh Hd Ho Hk Hv Hw Hs.
  rewrite (serve_request_run unmarshal marshal m w chunks rest out message getOptionCommand) by done.
  unfold respond. rewrite Hh. unfold getOption, mbind, M_bind, some_or_panic. rewrite Hd.
  unfold getOption_of. rewrite decide_False by done. rewrite Hk, walk_app, Hw. cbn [walk]. rewrite Hv. cbn [negb].
  destruct (Indirect v) as [[]|]; cbn; done.
Qed.

End lookup.

(** ** A monitor with two commands

    The requests are the ones a client would send, each known to the decoder as
    a whole. *)
Section example.

Definition exactly (message cmd : string) (s : string) : option string :=
  if decide (s = message) then Some cmd else None.

Lemma complete_exactly message cmd : complete (exactly message cmd) message.
Proof.
  intros p q E Hq. unfold exactly. rewrite decide_False; [done|]. intros ->. apply Hq.
  apply (f_equal to_bytes) in E. rewrite to_bytes_app in E. rewrite <-(app_nil_r (to_bytes message)) in E at 1.
  apply app_inv_head in E. by apply to_bytes_eq.
Qed.

Definition example_config : value :=
  VPtr (Some (VStruct [("Core", true, VPtr (Some (VStruct [("Version", true, VScalar "20250901")])))])).

Definition example_monitor : Monitor (W := nat) :=
  mkMonitor None
    (<["ping" := λ b n, Some (S n, ("pong", None))]>
    (<[getOptionCommand := getOption example_config (λ _, "?") (λ _, inl "Core.Version.Major") (λ _, inl "{}")]> ∅)).

Definition example_marshal (r : Response) : option string := Some (StatusMessage r).

Lemma serve_request_witness :
  serve (exactly "{ping}" "ping") example_marshal example_monitor true
    (7, mkConn ((Chunk <$> ["{p"; "in"; "g}"]) ++ [Chunk "{ping}"]) []) =
  Some ((8, mkConn [Chunk "{ping}"] ["pong"]), tt).
Proof.
  rewrite (serve_request _ _ _ _ _ _ _ "{ping}" "ping");
    [reflexivity|reflexivity|by repeat constructor|reflexivity|apply complete_exactly|done].
Defined.

Lemma serve_incomplete_witness :
  serve (exactly "{ping}" "ping") example_marshal example_monitor true
    (7, mkConn ((Chunk <$> ["{p"; "in"]) ++ [Failed; Chunk "g}"]) []) =
  Some ((7, mkConn [Chunk "g}"] ["Connection error"]), tt).
Proof.
  rewrite (serve_incomplete _ _ example_monitor 7 ["{p"; "in"] Failed [Chunk "g}"] []);
    [reflexivity| |by right].
  intros pre Hpre Hne. unfold exactly. rewrite decide_False; [done|].
  destruct Hpre as [k Hk]. destruct pre as [|a [|b [|]]]; naive_solver.
Defined.

Lemma getOption_can_panic_witness :
  serve (exactly "{opt}" getOptionCommand) example_marshal example_monitor true
    (7, mkConn ((Chunk <$> ["{opt}"]) ++ []) []) = None.
Proof.
  eapply (getOption_can_panic example_monitor (exactly "{opt}" getOptionCommand) example_marshal example_config
    (λ _, "?") (λ _, inl "Core.Version.Major") (λ _, inl "{}") ["{opt}"] [] [] "{opt}" "Core.Version.Major"
    ["Core"; "Version"] "Major" (VScalar "20250901")); try reflexivity; first [done|apply complete_exactly|by apply Forall_singleton].
Defined.

End example.

(** A server that failed to start is remembered: the next [Setup] is refused
    although nothing listens, until [Close]. *)
Lemma setup_after_failed_start {W} (listen : Server → W → option error) (f : Handler (W := W)) c l m w e :
  CommandMonitorEnabled c = true → srv m = None → (∀ s, listen s w = Some e) →
  let '(m1, r1) := Setup listen f c l m w in
  r1 = Some e ∧
  (∃ s, srv m1 = Some s ∧ listening s = false) ∧
  (∀ listen' w', (Setup listen' f c l m1 w').2 = Some (ErrMsg "command monitor is already running")).
Proof.
  intros He Hs Hl. unfold Setup. rewrite He, Hs. cbn. unfold RegisterHandler.
  destruct (handlers m !! getOptionCommand); cbn; rewrite Hl; cbn; eauto.
Qed.

(** Registering and unregistering. *)
Lemma RegisterHandler_spec {W} cmd (f : Handler (W := W)) m :
  match (RegisterHandler cmd f m).2 with
  | None => handlers m !! cmd = None ∧ handlers (RegisterHandler cmd f m).1 = <[cmd := f]> (handlers m)
  | Some _ => is_Some (handlers m !! cmd) ∧ (RegisterHandler cmd f m).1 = m
  end.
Proof. unfold RegisterHandler. by destruct (handlers m !! cmd) as [g|] eqn:E; cbn; eauto. Qed.

End CommandMonitor.
