(* ===== verification/OsLogin.v ===== *)
(** * cmd/core_plugin/oslogin: the OS Login module

    oslogin_linux.go: the set-up and the roll-back of OpenSSH, NSSwitch, PAM
    and the groups, the services that are restarted, and the module's memory
    between metadata events.  Configuration files are rewritten through
    internal/textconfig, commands run through internal/run, subscriptions and
    watchers go to internal/events.  The order in which Go ranges over the
    module's maps is a parameter. *)
From S2P Require Import Prelude GoStrings GoStringFacts Os TextConfig FileUtil SafeWrite Accounts Daemon OsInfo.
From S2P Require Import SshUtil Metadata Events.

Module OsLogin.
Import Accounts.

(** ** Constants *)
Definition osloginModuleID : string := "oslogin".
Definition defaultPipePath : string := "/etc/ssh/oslogin_trustedca.pub".
Definition sshcaEventWatcherID : string := "oslogin-sshca-pipe-event-watcher".
Definition sshcaPipeWatcherReadEventID : string := "oslogin-sshca-pipe-event-watcher,read".
Definition pipeWatcherSubscriberID : string := "sshca-pipe-handler".
Definition LongpollEvent : string := "metadata-watcher,longpoll".

Definition sshdConfigPath : string := "/etc/ssh/sshd_config".
Definition nsswitchConfigPath : string := "/etc/nsswitch.conf".
Definition pamConfigPath : string := "/etc/pam.d/sshd".
Definition groupConfigPath : string := "/etc/security/group.conf".
Definition sudoers : string := "/etc/sudoers.d/google-sudoers".

Definition authorizedKeysCommandPaths : list string :=
  ["/usr/bin/google_authorized_keys"; "/usr/local/bin/google_authorized_keys"].
Definition authorizedKeysCommandSKPaths : list string :=
  ["/usr/bin/google_authorized_keys_sk"; "/usr/local/bin/google_authorized_keys_sk"].
Definition osloginDirs : list string := ["/var/google-sudoers.d"; "/var/google-users.d"].

Definition delimiter : TextConfig.Delimiter :=
  TextConfig.mkDelimiter "#### Google OS Login control. Do not edit this section. ####"
    "#### End Google OS Login control section. ####".
Definition osloginConfigOpts : TextConfig.Options :=
  TextConfig.mkOptions (Some delimiter) [] [] "" [].

Inductive serviceRestartProtocol := serviceRestartAtLeastOne | serviceRestartOptional.

Record serviceRestartConfig := mkService {
  protocol : serviceRestartProtocol;
  services : list string;
}.

Definition defaultServices : list (Daemon.RestartMethod * list serviceRestartConfig) :=
  [(Daemon.ReloadOrRestart, [mkService serviceRestartAtLeastOne ["ssh"; "sshd"]]);
   (Daemon.TryRestart, [mkService serviceRestartOptional ["nscd"; "unscd"];
                        mkService serviceRestartOptional ["systemd-logind"];
                        mkService serviceRestartOptional ["cron"; "crond"]])].

Definition defaultDeprecatedEntries : list (string * list TextConfig.Entry) :=
  [("/etc/pam.d/su",
    [TextConfig.NewEntry "account" "[success=bad ignore=ignore] pam_oslogin_login.so"])].

Definition sles16Map : list (string * string) :=
  [("/usr/etc/ssh/sshd_config", sshdConfigPath); ("/usr/etc/nsswitch.conf", nsswitchConfigPath);
   ("/usr/lib/pam.d/sshd", pamConfigPath); ("/usr/etc/security/group.conf", groupConfigPath)].

(** The order of the ranges over maps. *)
Class MapOrder := {
  services_order : list (Daemon.RestartMethod * list serviceRestartConfig);
  services_order_perm : services_order ≡ₚ defaultServices;
  sles16_order : list (string * string);
  sles16_order_perm : sles16_order ≡ₚ sles16Map;
}.

(** The [OSLogin] section of the configuration. *)
Class OsLoginConfig := CertAuthentication : bool.

(** ** State *)

(** The callbacks the module subscribes. *)
Inductive cb := metadataSubscriber_cb | writeFile_cb.

Record osloginModule := mkModule {
  prevMetadata : option Metadata.Descriptor;
  pipeEventHandler : bool;
  pipeEventWatcher : bool;
  enabled : bool;
  failedConfiguration : bool;
  retryCount : Z;
  permanentFailure : bool;
  sles16Setup : bool;
}.

Definition NewModule : osloginModule := mkModule None false false false false 0 false false.

Record state := mkState {
  sys : host;
  subs : Events.bus cb;
  watchers : Events.system;
  module : osloginModule;
}.

Definition set_sys (h : host) (s : state) : state := mkState h (subs s) (watchers s) (module s).
Definition set_subs (b : Events.bus cb) (s : state) : state := mkState (sys s) b (watchers s) (module s).
Definition set_watchers (w : Events.system) (s : state) : state := mkState (sys s) (subs s) w (module s).
Definition set_mod (m : osloginModule) (s : state) : state := mkState (sys s) (subs s) (watchers s) m.

Definition set_prevMetadata (d : Metadata.Descriptor) (m : osloginModule) : osloginModule :=
  mkModule (Some d) (pipeEventHandler m) (pipeEventWatcher m) (enabled m) (failedConfiguration m)
    (retryCount m) (permanentFailure m) (sles16Setup m).
Definition set_handler (b : bool) (m : osloginModule) : osloginModule :=
  mkModule (prevMetadata m) b (pipeEventWatcher m) (enabled m) (failedConfiguration m)
    (retryCount m) (permanentFailure m) (sles16Setup m).
Definition set_watcher (b : bool) (m : osloginModule) : osloginModule :=
  mkModule (prevMetadata m) (pipeEventHandler m) b (enabled m) (failedConfiguration m)
    (retryCount m) (permanentFailure m) (sles16Setup m).
Definition set_enabled (b : bool) (m : osloginModule) : osloginModule :=
  mkModule (prevMetadata m) (pipeEventHandler m) (pipeEventWatcher m) b (failedConfiguration m)
    (retryCount m) (permanentFailure m) (sles16Setup m).
Definition set_failed (b : bool) (m : osloginModule) : osloginModule :=
  mkModule (prevMetadata m) (pipeEventHandler m) (pipeEventWatcher m) (enabled m) b
    (retryCount m) (permanentFailure m) (sles16Setup m).
Definition set_retry (n : Z) (m : osloginModule) : osloginModule :=
  mkModule (prevMetadata m) (pipeEventHandler m) (pipeEventWatcher m) (enabled m) (failedConfiguration m)
    n (permanentFailure m) (sles16Setup m).
Definition set_permanent (b : bool) (m : osloginModule) : osloginModule :=
  mkModule (prevMetadata m) (pipeEventHandler m) (pipeEventWatcher m) (enabled m) (failedConfiguration m)
    (retryCount m) b (sles16Setup m).
Definition set_sles16 (b : bool) (m : osloginModule) : osloginModule :=
  mkModule (prevMetadata m) (pipeEventHandler m) (pipeEventWatcher m) (enabled m) (failedConfiguration m)
    (retryCount m) (permanentFailure m) b.

#[global] Instance state_HasFS : HasFS state :=
  {| fs_of s := hfs (sys s); set_fs f s := set_sys (mkHost f (ran (sys s))) s |}.
#[global] Instance state_LawfulFS : LawfulFS state.
Proof. split; [done|done|by intros [[] ? ? ?]]. Qed.

Definition on_host {A} (m : M host A) : M state A := zoom sys set_sys m.

Definition on_bus {A} (m : M (Events.bus cb) A) : M state A := zoom subs set_subs m.

Definition on_mod (f : osloginModule → osloginModule) : M state unit := modify (λ s, set_mod (f (module s)) s).

(** ** NSSwitch *)
Definition nss_suffix : string := " cache_oslogin oslogin".

Definition nss_line (cleanup : bool) (line : string) : string :=
  if HasPrefix line "passwd:" || HasPrefix line "group:" then
    if cleanup then TrimSpace (Replace1 line "cache_oslogin oslogin" "")
    else if negb (Contains line "oslogin") then line +:+ nss_suffix else line
  else line.

Definition nss_content (cleanup : bool) (content : string) : string :=
  Join (nss_line cleanup <$> Split content nl) (String nl "").

(** The configured line of [isOSLoginConfiguredOnDisk]. *)
Definition nss_configured (line : string) : bool :=
  let '(line, _, _) := Cut line (byte_of 35) in
  (HasPrefix line "passwd:" || HasPrefix line "group:") && Contains line "oslogin".

(** ** The files written with textconfig *)
Definition config_handle (path : string) (bls : list TextConfig.Block) : TextConfig.Handle :=
  foldl TextConfig.AddBlock (TextConfig.New path osloginConfigOpts) bls.

Definition append_all (bl : TextConfig.Block) (kvs : list (string * string)) : TextConfig.Block :=
  foldl (λ bl kv, TextConfig.Append bl kv.1 kv.2) bl kvs.

(** The two blocks of sshd_config; the pointers given to [AddBlock] are
    appended to afterwards, so the blocks are added when they are complete. *)
Definition openssh_top (desc : Metadata.Descriptor) (cert_auth : bool) (akc : string) : TextConfig.Block :=
  let certReq := Metadata.CertRequiredEnabled desc in
  let skEnabled := Metadata.SecurityKeyEnabled desc in
  append_all (TextConfig.NewBlock TextConfig.Top)
    ((if (certReq || cert_auth) && negb skEnabled then
        [("TrustedUserCAKeys", defaultPipePath);
         ("AuthorizedPrincipalsCommand", "/usr/bin/google_authorized_principals %u %k");
         ("AuthorizedPrincipalsCommandUser", "root")] else []) ++
     (if negb certReq || skEnabled then
        [("AuthorizedKeysCommand", akc); ("AuthorizedKeysCommandUser", "root")] else []) ++
     (if Metadata.TwoFactorEnabled desc then
        [("AuthenticationMethods", "publickey,keyboard-interactive");
         ("ChallengeResponseAuthentication", "yes")] else [])).

Definition openssh_bottom (desc : Metadata.Descriptor) : TextConfig.Block :=
  append_all (TextConfig.NewBlock TextConfig.Bottom)
    ([("Include", "/var/google-users.d/*")] ++
     (if Metadata.TwoFactorEnabled desc then
        [("Match", "User sa_*"); ("AuthenticationMethods", "publickey")] else [])).

Definition openssh_handle (desc : Metadata.Descriptor) (cert_auth : bool) (akc : string) : TextConfig.Handle :=
  config_handle sshdConfigPath [openssh_top desc cert_auth akc; openssh_bottom desc].

Definition pam_handle (desc : Metadata.Descriptor) : TextConfig.Handle :=
  config_handle pamConfigPath
    [append_all (TextConfig.NewBlock TextConfig.Top)
       ((if Metadata.TwoFactorEnabled desc then
           [("auth", "[success=done perm_denied=die default=ignore] pam_oslogin_login.so")] else []) ++
        [("auth", "[default=ignore] pam_group.so")]);
     append_all (TextConfig.NewBlock TextConfig.Bottom)
       [("session", "[success=ok default=ignore] pam_mkhomedir.so")]].

Definition group_handle : TextConfig.Handle :=
  config_handle groupConfigPath
    [append_all (TextConfig.NewBlock TextConfig.Bottom) [("sshd;*;*;Al0000-2400;video", "")]].

Definition plain_handle (path : string) : TextConfig.Handle := config_handle path [].

Definition deprecated_handle (f : string) (es : list TextConfig.Entry) : TextConfig.Handle :=
  TextConfig.New f (TextConfig.mkOptions (Some delimiter) [] [] "" es).

(** ** What depends on the module's memory *)
Definition changed (f : Metadata.Descriptor → bool) (desc prev : Metadata.Descriptor) : bool :=
  negb (Bool.eqb (f desc) (f prev)).

Definition metadataChanged (m : osloginModule) (desc : Metadata.Descriptor) : bool :=
  match prevMetadata m with
  | None => true
  | Some prev =>
      changed Metadata.OSLoginEnabled desc prev || changed Metadata.TwoFactorEnabled desc prev ||
      changed Metadata.SecurityKeyEnabled desc prev || changed Metadata.CertRequiredEnabled desc prev
  end.

Definition forcedRetrying (m : osloginModule) : bool := (0 <? retryCount m)%Z.

Definition decrementRetryCount (m : osloginModule) : osloginModule :=
  if (retryCount m =? 0)%Z then m else set_retry (retryCount m - 1) m.

Section operations.
Context `{Commands} `{LookPath} `{OsFaults} `{SafeWrite.TempNames} `{OsInfo.Uname}.
Context `{MapOrder} `{OsLoginConfig}.

(** [errors.Join(errs, fmt.Errorf("...: %w", err))]. *)
Definition join (errs : list error) (msg : string) (e : option error) : list error :=
  errs ++ option_list (ErrWrap msg <$> e).

Definition availableBinary (paths : list string) : M state (result string) :=
  r ← for_until paths tt (λ _ f, x ← Exists f TypeFile; mret (if (x : bool) then inr f else inl tt));
  mret (match r with
        | inr f => Ok f
        | inl _ => Err (ErrMsg "no binary found")
        end).

Definition setupOpenSSH (desc : Metadata.Descriptor) : M state (option error) :=
  akc ← availableBinary authorizedKeysCommandPaths;
  match akc with
  | Err e => mret (Some (ErrWrap "failed to find authorized keys command binary" e))
  | Ok akc =>
      akc ← (if Metadata.SecurityKeyEnabled desc then availableBinary authorizedKeysCommandSKPaths
             else mret (Ok akc));
      match akc with
      | Err e => mret (Some (ErrWrap "failed to find authorized keys command binary" e))
      | Ok akc =>
          e ← TextConfig.Apply (openssh_handle desc CertAuthentication akc);
          mret (ErrWrap "failed to apply openssh config" <$> e)
      end
  end.

Definition setupNSSwitch (cleanup : bool) : M state (option error) :=
  nsswitch ← os_ReadFile nsswitchConfigPath;
  match nsswitch with
  | Err e => mret (Some (ErrWrap "failed to read nsswitch.conf" e))
  | Ok nsswitch =>
      e ← os_WriteFile nsswitchConfigPath (nss_content cleanup nsswitch);
      mret (ErrWrap "failed to write nsswitch.conf" <$> e)
  end.

Definition setupPAM (desc : Metadata.Descriptor) : M state (option error) :=
  let pamConfigDir := Dir pamConfigPath in
  x ← Exists pamConfigDir TypeDir;
  e ← (if (x : bool) then mret None else os_Mkdir pamConfigDir);
  match e with
  | Some e => mret (Some (ErrWrap "failed to create PAM config directory" e))
  | None =>
      e ← TextConfig.Apply (pam_handle desc);
      mret (ErrWrap "failed to apply pam config" <$> e)
  end.

Definition setupGroup : M state (option error) :=
  e ← TextConfig.Apply group_handle;
  mret (ErrWrap "failed to apply group config" <$> e).

Definition removeDeprecatedEntries : M state (option error) :=
  r ← for_until defaultDeprecatedEntries tt (λ _ fe,
        e ← TextConfig.Cleanup (deprecated_handle fe.1 fe.2);
        mret (match e with
              | Some e => inr (ErrWrap "failed to cleanup deprecated file" e)
              | None => inl tt
              end));
  mret (match r with inl _ => None | inr e => Some e end).

(** Whether a file has a line that satisfies [p]; a file that cannot be read
    has none. *)
Definition file_has (path : string) (p : string → bool) : M state bool :=
  d ← os_ReadFile path;
  mret (match d with
        | Ok d => existsb p (Split d nl)
        | Err _ => false
        end).

Definition isOSLoginConfiguredOnDisk : M state bool :=
  b ← file_has nsswitchConfigPath nss_configured;
  if (b : bool) then mret true
  else
    r ← for_until [sshdConfigPath; pamConfigPath; groupConfigPath] tt (λ _ cfgPath,
          b ← file_has cfgPath (λ line, bool_decide (TrimSpace line = TextConfig.Start delimiter));
          mret (if (b : bool) then inr tt else inl tt));
    mret (match r with inl _ => false | inr _ => true end).

(** ** Services *)

(** One service of a list: left at the first one that was restarted; the
    existence check of the systemd client reports no error, but the code
    allows for one. *)
Definition restart_one (method : Daemon.RestartMethod) (errs : list error) (service : string)
    : M state (list error + unit) :=
  '(found, err) ← on_host (Daemon.CheckUnitExists service);
  if negb found then mret (inl (join errs "failed to check if service exists" err))
  else
    e ← on_host (Daemon.RestartService service method);
    mret (match e with
          | Some _ => inl (join errs "failed to restart service" e)
          | None => inr tt
          end).

(** One list of services; [inr] is the return of [restartServices]. *)
Definition restart_config (method : Daemon.RestartMethod) (c : serviceRestartConfig)
    : M state (unit + option error) :=
  r ← for_until (services c) [] (restart_one method);
  match r with
  | inr _ => mret (inl tt)
  | inl errs =>
      match protocol c with
      | serviceRestartOptional => mret (inl tt)
      | serviceRestartAtLeastOne =>
          n ← gets (λ s, retryCount (module s));
          if (1 <? n)%Z then mret (inr None)
          else
            _ ← when (n =? 1)%Z (on_mod (set_permanent true));
            mret (inr (Some (ErrJoin (ErrMsg "failed to restart one of" :: errs))))
      end
  end.

Definition restartServices : M state (option error) :=
  r ← for_until services_order tt (λ _ mc,
        for_until mc.2 tt (λ _ c, restart_config mc.1 c));
  mret (match r with inl _ => None | inr e => e end).

(** ** Directories, sudoers, SLES 16 *)
Definition setupOSLoginDirs : M state (option error) :=
  restorecon ← gets (λ s, exec_LookPath (length (ran (sys s))) "restorecon");
  r ← for_until osloginDirs tt (λ _ dir,
        e ← os_MkdirAll dir;
        match e with
        | Some e => mret (inr (ErrWrap "failed to create oslogin directory" e))
        | None =>
            match restorecon with
            | Err _ => mret (inl tt)
            | Ok restorecon =>
                r ← on_host (WithContext (mkCommand [restorecon; dir] ""));
                mret (match Daemon.run_error r with
                      | Some e => inr (ErrWrap "failed to run restorecon" e)
                      | None => inl tt
                      end)
            end
        end);
  mret (match r with inl _ => None | inr e => Some e end).

Definition setupOSLoginSudoers : M state (option error) :=
  x ← Exists sudoers TypeFile;
  if (x : bool) then mret None
  else
    e ← os_WriteFile sudoers ("#includedir /var/google-sudoers.d" +:+ String nl "");
    mret (ErrWrap "failed to write sudoers file" <$> e).

Definition setupSles16OSLoginDirs : M state (option error) :=
  fin ← gets (λ s, sles16Setup (module s));
  if (fin : bool) then mret None
  else
    info ← OsInfo.Read;
    let isSles16 := Contains (OsInfo.OS info) "sles" || Contains (OsInfo.OS info) "opensuse" in
    if negb isSles16 || negb (OsInfo.Major (OsInfo.Version info) =? 16)%Z then
      _ ← on_mod (set_sles16 true); mret None
    else
      r ← for_until sles16_order tt (λ _ kv,
            x ← Exists kv.2 TypeFile;
            if (x : bool) then mret (inl tt)
            else
              e ← SafeWrite.CopyFile kv.1 kv.2 (SafeWrite.mkOptions 420 None);
              mret (match e with
                    | Some e => inr (ErrWrap "failed to copy" e)
                    | None => inl tt
                    end));
      match r with
      | inr e => mret (Some e)
      | inl _ => _ ← on_mod (set_sles16 true); mret None
      end.

(** ** Disabling *)

(** The roll-back up to the first error. *)
Definition rollback : M state (option error) :=
  e ← TextConfig.Cleanup (plain_handle sshdConfigPath);
  match e with
  | Some e => mret (Some (ErrWrap "failed to rollback openssh config" e))
  | None =>
      e ← setupNSSwitch true;
      match e with
      | Some e => mret (Some (ErrWrap "failed to rollback nsswitch config" e))
      | None =>
          e ← TextConfig.Cleanup (plain_handle pamConfigPath);
          match e with
          | Some e => mret (Some (ErrWrap "failed to rollback pam config" e))
          | None =>
              e ← TextConfig.Cleanup (plain_handle groupConfigPath);
              match e with
              | Some e => mret (Some (ErrWrap "failed to rollback group config" e))
              | None =>
                  e ← restartServices;
                  mret (ErrWrap "failed to restart services" <$> e)
              end
          end
      end
  end.

(** The deferred end of [disableOSLogin]; the removal of the watcher is
    requested from the event manager. *)
Definition close_pipe : M state unit :=
  m ← gets module;
  _ ← when (pipeEventHandler m)
        (_ ← on_bus (Events.Unsubscribe sshcaPipeWatcherReadEventID pipeWatcherSubscriberID);
         on_mod (set_handler false));
  when (pipeEventWatcher m)
    (_ ← modify (λ s, set_watchers (Events.add_remover sshcaEventWatcherID (watchers s)) s);
     on_mod (set_watcher false)).

Definition disableOSLogin : M state (option error) :=
  e ← rollback;
  _ ← close_pipe;
  mret e.

(** ** Enabling *)
Definition open_pipe : M state unit :=
  m ← gets module;
  _ ← when (negb (pipeEventHandler m))
        (_ ← on_bus (Events.Subscribe sshcaPipeWatcherReadEventID
                (Events.mkSub pipeWatcherSubscriberID writeFile_cb (Some "OS_LOGIN_INITIALIZATION")));
         on_mod (set_handler true));
  when (negb (pipeEventWatcher m))
    (_ ← modify (λ s, set_watchers
             (Events.AddWatcher sshcaEventWatcherID [sshcaPipeWatcherReadEventID] (watchers s)).1 s);
     on_mod (set_watcher true)).

Definition refresh_cache : M state (option error) :=
  r ← on_host (WithContext (mkCommand ["systemctl"; "start"; "--no-block"; "google-oslogin-cache.service"] ""));
  mret (Daemon.run_error r).

(** The steps of the set-up after the files of SLES 16 are in place; all of
    them run, whatever fails. *)
Definition configure (desc : Metadata.Descriptor) : M state (list error) :=
  e ← setupOpenSSH desc;
  let errs := join [] "failed to setup openssh" e in
  e ← setupNSSwitch false;
  let errs := join errs "failed to setup nsswitch" e in
  e ← setupPAM desc;
  let errs := join errs "failed to setup pam" e in
  e ← setupGroup;
  let errs := join errs "failed to setup group" e in
  e ← restartServices;
  let errs := join errs "failed to restart services" e in
  e ← setupOSLoginDirs;
  let errs := join errs "failed to setup OSLogin directories" e in
  e ← setupOSLoginSudoers;
  let errs := join errs "failed to create OSLogin sudoers file" e in
  e ← refresh_cache;
  mret (join errs "failed to trigger NSS cache refresh via systemd" e).

Definition enableOSLogin (desc : Metadata.Descriptor) : M state (list error) :=
  _ ← open_pipe;
  e ← setupSles16OSLoginDirs;
  match e with
  | Some _ =>
      _ ← on_mod (λ m, set_failed true (set_enabled false m));
      mret (join [] "failed to setup OSLogin directories for SLES 16" e)
  | None =>
      errs ← configure desc;
      let failed := negb (bool_decide (errs = [])) in
      _ ← on_mod (λ m, set_failed failed (set_enabled (negb failed) m));
      mret errs
  end.

(** The body of [osloginSetup] without its first deferred function: whether
    nothing was done, and the errors.  It always asks to be called again. *)
Definition setup_body (desc : Metadata.Descriptor) : M state (bool * list error) :=
  m ← gets module;
  if permanentFailure m then mret (true, [])
  else if negb (forcedRetrying m) && negb (metadataChanged m desc) && negb (failedConfiguration m) then
    mret (true, [])
  else if negb (Metadata.OSLoginEnabled desc) then
    r ← (configured ← (if negb (enabled m) then isOSLoginConfiguredOnDisk else mret true);
         if negb (configured : bool) then mret (true, [])
         else
           e ← disableOSLogin;
           _ ← on_mod (set_failed (bool_decide (is_Some e)));
           mret (false, join [] "failed to disable OS Login" e));
    _ ← on_mod (set_enabled false);
    mret r
  else
    errs ← enableOSLogin desc;
    mret (false, errs).

Definition osloginSetup (desc : Metadata.Descriptor) : M state (bool * list error) :=
  r ← setup_body desc;
  _ ← on_mod (λ m, decrementRetryCount (set_prevMetadata desc m));
  mret r.

(** ** The entry points *)

(** [None] stands for data that is not a descriptor. *)
Definition moduleSetup (data : option Metadata.Descriptor) : M state (option error) :=
  match data with
  | None => mret (Some (ErrMsg "oslogin module expects a metadata descriptor in the data pointer"))
  | Some desc =>
      _ ← removeDeprecatedEntries;
      _ ← osloginSetup desc;
      _ ← on_bus (Events.Subscribe LongpollEvent
            (Events.mkSub osloginModuleID metadataSubscriber_cb (Some "OS_LOGIN_INITIALIZATION")));
      mret None
  end.

(** Whether to renew, whether it was a no-op, the errors. *)
Definition metadataSubscriber (data : option Metadata.Descriptor) (err : option error)
    : M state (bool * bool * list error) :=
  match data, err with
  | None, _ => mret (false, true, [ErrMsg "event's data is not a metadata descriptor"])
  | Some _, Some e => mret (true, true, [ErrFmt "metadata event watcher reported error" e])
  | Some desc, None => '(noop, errs) ← osloginSetup desc; mret (true, noop, errs)
  end.

End operations.

End OsLogin.
