(* ===== verification/OsLoginFacts.v ===== *)
(** * Theorems on the OS Login module

    The module's memory (what a set-up remembers, when it runs again), its
    subscriptions, and what enabling and disabling do to the files. *)
From S2P Require Import Prelude GoStrings GoStringFacts Os TextConfig FileUtil SafeWrite Accounts Daemon OsInfo.
From S2P Require Import SshUtil Metadata Events OsLogin.

Module OsLoginFacts.
Import Accounts OsLogin.

(** ** What an operation can change *)

(** The module without the flag of the SLES 16 files. *)
Definition core (m : osloginModule) : osloginModule := set_sles16 false m.

(** With no retry pending, the module's memory and its registrations stay. *)
Definition calm (s s' : state) : Prop :=
  retryCount (module s) = 0%Z →
  core (module s') = core (module s) ∧ subs s' = subs s ∧ watchers s' = watchers s.

Lemma core_retry m m' : core m' = core m → retryCount m' = retryCount m.
Proof. by intros [= ]. Qed.

#[global] Instance calm_preorder : PreOrder calm.
Proof.
  split; [done|]. intros s1 s2 s3 H12 H23 Hr. destruct (H12 Hr) as (E & E1 & E2).
  destruct H23 as (F & F1 & F2); [by rewrite (core_retry _ _ E)|]. split_and!; congruence.
Qed.

#[global] Instance calm_fs : IgnoresFS calm.
Proof. done. Qed.

Lemma calm_on_host {A} (m : M host A) : respects calm (on_host m).
Proof. by apply respects_zoom. Qed.

Lemma total_on_mod f : total (on_mod f).
Proof. by eexists. Qed.

Lemma total_run_host {A} (f : Accounts.run_outcome → A) c `{Commands} :
  total (on_host (r ← WithContext c; mret (f r))).
Proof. apply total_zoom. by eexists. Qed.

#[export] Hint Resolve calm_on_host : respects.
#[export] Hint Extern 1 (total (on_host _)) => apply total_zoom : total.
#[export] Hint Resolve total_on_mod : total.

(** Our handles have delimiters. *)
Lemma config_delimiters path bls :
  TextConfig.Delimiters (TextConfig.opts (config_handle path bls)) = Some delimiter ∧
  TextConfig.file (config_handle path bls) = path.
Proof.
  unfold config_handle. generalize (TextConfig.New path osloginConfigOpts),
    (conj eq_refl eq_refl : TextConfig.Delimiters (TextConfig.opts (TextConfig.New path osloginConfigOpts)) = Some delimiter ∧
       TextConfig.file (TextConfig.New path osloginConfigOpts) = path).
  induction bls as [|b bls IH]; intros h Hh; [done|]. simpl. by apply IH.
Qed.

Lemma block_lines_some h bs d :
  TextConfig.Delimiters (TextConfig.opts h) = Some d → is_Some (TextConfig.block_lines h bs).
Proof.
  intros Hd. unfold TextConfig.block_lines. apply fmap_is_Some, mapM_is_Some, Forall_forall.
  intros b _. unfold compose, TextConfig.lines. rewrite Hd.
  destruct (TextConfig.entries b); eexists; reflexivity.
Qed.

Section memory.
Context `{Commands} `{LookPath} `{OsFaults} `{SafeWrite.TempNames} `{OsInfo.Uname}.
Context `{MapOrder} `{OsLoginConfig}.

Lemma total_Cleanup h : total (S := state) (TextConfig.Cleanup h).
Proof. unfold TextConfig.Cleanup, TextConfig.cleanupFile. total_solve. Qed.
#[local] Hint Resolve total_Cleanup : total.

Lemma calm_Cleanup h : respects calm (TextConfig.Cleanup h).
Proof. unfold TextConfig.Cleanup, TextConfig.cleanupFile. respects_solve. Qed.
#[local] Hint Resolve calm_Cleanup : respects.

Lemma calm_Apply h : respects calm (TextConfig.Apply h).
Proof. unfold TextConfig.Apply, TextConfig.userLines, TextConfig.cleanupFile. respects_solve. Qed.
#[local] Hint Resolve calm_Apply : respects.

Lemma total_Apply_config path bls : total (S := state) (TextConfig.Apply (config_handle path bls)).
Proof.
  unfold TextConfig.Apply. destruct (config_delimiters path bls) as [Hd _].
  destruct (block_lines_some _ (TextConfig.blocks_at (config_handle path bls) TextConfig.Top) _ Hd) as [top ->].
  destruct (block_lines_some _ (TextConfig.blocks_at (config_handle path bls) TextConfig.Bottom) _ Hd) as [bot ->].
  unfold TextConfig.userLines, TextConfig.cleanupFile. total_solve.
Qed.

Ltac calmly := split; [total_solve|respects_solve].

Lemma calm_availableBinary ps : framed calm (availableBinary ps).
Proof. unfold availableBinary. calmly. Qed.

Lemma calm_setupOpenSSH desc : framed calm (setupOpenSSH desc).
Proof.
  unfold setupOpenSSH. split.
  - total_solve; first [apply calm_availableBinary | apply total_Apply_config].
  - respects_solve; apply calm_availableBinary.
Qed.

Lemma calm_setupNSSwitch b : framed calm (setupNSSwitch b).
Proof. unfold setupNSSwitch. calmly. Qed.

Lemma calm_setupPAM desc : framed calm (setupPAM desc).
Proof. unfold setupPAM. split; [total_solve; apply total_Apply_config|respects_solve]. Qed.

Lemma calm_setupGroup : framed calm setupGroup.
Proof. unfold setupGroup. split; [total_solve; apply total_Apply_config|respects_solve]. Qed.

Lemma calm_setupOSLoginDirs : framed calm setupOSLoginDirs.
Proof. unfold setupOSLoginDirs. split; [total_solve; apply total_zoom; by eexists|respects_solve]. Qed.

Lemma calm_setupOSLoginSudoers : framed calm setupOSLoginSudoers.
Proof. unfold setupOSLoginSudoers. calmly. Qed.

Lemma calm_refresh_cache : framed calm refresh_cache.
Proof. unfold refresh_cache. split; [total_solve; apply total_zoom; by eexists|respects_solve]. Qed.

Lemma calm_configured : framed calm isOSLoginConfiguredOnDisk.
Proof. unfold isOSLoginConfiguredOnDisk, file_has. calmly. Qed.

Lemma total_restart_one m errs x : total (restart_one m errs x).
Proof. unfold restart_one. total_solve; apply total_zoom; by eexists. Qed.

Lemma calm_restart_config m c : framed calm (restart_config m c).
Proof.
  unfold restart_config. split; [total_solve; apply total_restart_one|]. apply respects_bind; [typeclasses eauto| |].
  - unfold restart_one. respects_solve.
  - intros [errs|[]]; [|respects_solve]. destruct (protocol c); [|respects_solve].
    intros s s' o. unfold mbind, M_bind, gets, mret, M_ret. destruct (1 <? _)%Z eqn:E; [by intros [= <- _]|].
    unfold when, on_mod, modify, mret, M_ret. destruct (_ =? 1)%Z eqn:E1; [|by intros [= <- _]].
    intros [= <- _] Hr. apply Z.eqb_eq in E1. congruence.
Qed.

Lemma calm_restartServices : framed calm restartServices.
Proof. unfold restartServices. split; [total_solve; apply calm_restart_config|respects_solve; apply calm_restart_config]. Qed.

Lemma calm_sles16 : framed calm setupSles16OSLoginDirs.
Proof.
  unfold setupSles16OSLoginDirs, OsInfo.Read, OsInfo.parseRelease, SafeWrite.CopyFile, SafeWrite.WriteFile,
    SafeWrite.os_Chmod, SafeWrite.os_Chown, SafeWrite.os_change. split; [total_solve|].
  respects_solve; (intros ? ? ? [= <- _]; done).
Qed.

Lemma calm_rollback : framed calm rollback.
Proof.
  unfold rollback. split; [total_solve|respects_solve];
    first [apply calm_setupNSSwitch | apply calm_restartServices].
Qed.

Lemma calm_configure desc : framed calm (configure desc).
Proof.
  unfold configure. split; [total_solve|respects_solve];
    first [apply calm_setupOpenSSH | apply calm_setupNSSwitch | apply calm_setupPAM | apply calm_setupGroup
      | apply calm_restartServices | apply calm_setupOSLoginDirs | apply calm_setupOSLoginSudoers
      | apply calm_refresh_cache].
Qed.

(** ** The module's memory *)

(** The subscriptions of the certificate pipe's handler. *)
Definition handler_subs (s : state) : nat :=
  length (filter (λ c, Events.Name c = pipeWatcherSubscriberID)
    (default [] (Events.subscribers (subs s) !! sshcaPipeWatcherReadEventID))).

(** No retry is pending, and the handler is subscribed when it exists, once. *)
Definition sane (s : state) : Prop :=
  retryCount (module s) = 0%Z ∧ permanentFailure (module s) = false ∧
  handler_subs s = (if pipeEventHandler (module s) then 1 else 0).

Lemma calm_sane s s' : calm s s' → sane s → sane s'.
Proof.
  intros Hc (Hr & Hp & Hh). destruct (Hc Hr) as (E & Es & _). unfold sane, handler_subs. rewrite Es.
  injection E as _ E1 _ _ _ E5 E6. by rewrite E1, E5, E6.
Qed.

Lemma handler_subs_Subscribe s c :
  handler_subs (set_subs (Events.set_subscribers
    (<[sshcaPipeWatcherReadEventID := default [] (Events.subscribers (subs s) !! sshcaPipeWatcherReadEventID) ++
       [Events.mkSub pipeWatcherSubscriberID c (Some "OS_LOGIN_INITIALIZATION")]]> (Events.subscribers (subs s)))
    (subs s)) s) = S (handler_subs s).
Proof.
  unfold handler_subs. simpl. rewrite lookup_insert_eq. simpl. rewrite filter_app, length_app. simpl. lia.
Qed.

Lemma handler_subs_Unsubscribe s :
  handler_subs (set_subs (Events.set_subscribers (Events.put sshcaPipeWatcherReadEventID
    (filter (λ c, Events.Name c ≠ pipeWatcherSubscriberID)
       (default [] (Events.subscribers (subs s) !! sshcaPipeWatcherReadEventID)))
    (Events.subscribers (subs s))) (subs s)) s) = 0.
Proof.
  unfold handler_subs, Events.put. simpl. generalize (default [] (Events.subscribers (subs s) !! sshcaPipeWatcherReadEventID)).
  intros l.
  assert (Hf : filter (λ c, Events.Name c = pipeWatcherSubscriberID)
    (filter (λ c, Events.Name c ≠ pipeWatcherSubscriberID) l) = []).
  { induction l as [|c l IH]; [done|]. rewrite filter_cons. destruct (decide _); [|done].
    by rewrite filter_cons_False by done. }
  destruct (filter (λ c, Events.Name c ≠ pipeWatcherSubscriberID) l); simpl; [by rewrite lookup_delete_eq|].
  rewrite lookup_insert_eq. simpl. by rewrite Hf.
Qed.

Lemma run_open_pipe s :
  sane s → wp open_pipe (λ _ s', sane s' ∧ sys s' = sys s ∧
    module s' = set_watcher true (set_handler true (module s))) s.
Proof.
  intros (Hr & Hp & Hh). unfold open_pipe, wp, mbind, M_bind, gets, when, on_bus, zoom, Events.Subscribe, on_mod, modify.
  pose proof (handler_subs_Subscribe s writeFile_cb) as Hs.
  destruct s as [h b w [pm hd wt en fl rc pf sl]]. unfold sane in *. cbn in *. subst.
  destruct hd, wt; cbn; split_and!; try done; by rewrite <-Hh.
Qed.

Lemma run_close_pipe s :
  sane s → wp close_pipe (λ _ s', sane s' ∧ sys s' = sys s ∧
    module s' = set_watcher false (set_handler false (module s))) s.
Proof.
  intros (Hr & Hp & Hh). unfold close_pipe, wp, mbind, M_bind, gets, when, on_bus, zoom, Events.Unsubscribe, on_mod, modify.
  pose proof (handler_subs_Unsubscribe s) as Hs.
  destruct s as [h b w [pm hd wt en fl rc pf sl]]. unfold sane in *. cbn in *. subst.
  destruct hd, wt; cbn; by split_and!.
Qed.

(** What is left of the memory after a set-up. *)
Definition remembers (desc : Metadata.Descriptor) (m : osloginModule) (r : bool * list error) (m' : osloginModule) : Prop :=
  (r.1 = true → r.2 = [] ∧ failedConfiguration m' = failedConfiguration m) ∧
  (r.1 = false →
    enabled m' = Metadata.OSLoginEnabled desc && bool_decide (r.2 = []) ∧
    failedConfiguration m' = negb (bool_decide (r.2 = [])) ∧
    pipeEventHandler m' = Metadata.OSLoginEnabled desc ∧ pipeEventWatcher m' = Metadata.OSLoginEnabled desc).

Lemma sane_mod m s :
  retryCount m = retryCount (module s) → permanentFailure m = permanentFailure (module s) →
  pipeEventHandler m = pipeEventHandler (module s) → sane s → sane (set_mod m s).
Proof. unfold sane. simpl. by intros -> -> ->. Qed.

Lemma wp_enableOSLogin desc s :
  sane s → wp (enableOSLogin desc) (λ errs s', sane s' ∧
    enabled (module s') = bool_decide (errs = []) ∧ failedConfiguration (module s') = negb (bool_decide (errs = [])) ∧
    pipeEventHandler (module s') = true ∧ pipeEventWatcher (module s') = true) s.
Proof.
  intros Hs. unfold enableOSLogin. apply wp_bind. eapply wp_mono; [by apply run_open_pipe|].
  intros _ s1 (Hs1 & _ & Em). apply wp_bind. eapply wp_framed; [apply calm_sles16|].
  intros e s2 Hc2. pose proof (calm_sane _ _ Hc2 Hs1) as Hs2.
  destruct (Hc2 (proj1 Hs1)) as ([= _ Eh Ew _ _ _ _] & _). rewrite Em in Eh, Ew. simpl in Eh, Ew.
  destruct e as [e|].
  - apply wp_bind, wp_modify, wp_ret. cbn [module set_mod]. split; [by apply sane_mod|].
    by split_and!.
  - apply wp_bind. eapply wp_framed; [apply calm_configure|]. intros errs s3 Hc3.
    pose proof (calm_sane _ _ Hc3 Hs2) as Hs3.
    destruct (Hc3 (proj1 Hs2)) as ([= _ Eh' Ew' _ _ _ _] & _).
    apply wp_bind, wp_modify, wp_ret. rewrite <-Eh', <-Ew' in *. split; [by apply sane_mod|].
    simpl. by rewrite negb_involutive.
Qed.

Lemma wp_disableOSLogin s :
  sane s → wp disableOSLogin (λ _ s', sane s' ∧ pipeEventHandler (module s') = false ∧
    pipeEventWatcher (module s') = false) s.
Proof.
  intros Hs. unfold disableOSLogin. apply wp_bind. eapply wp_framed; [apply calm_rollback|].
  intros e s1 Hc1. pose proof (calm_sane _ _ Hc1 Hs) as Hs1.
  apply wp_bind. eapply wp_mono; [by apply run_close_pipe|]. intros _ s2 (Hs2 & _ & Em).
  apply wp_ret. by rewrite Em.
Qed.

Lemma wp_setup_body desc s :
  sane s → wp (setup_body desc) (λ r s', sane s' ∧ remembers desc (module s) r (module s')) s.
Proof.
  intros Hs. unfold setup_body. apply wp_bind, wp_gets. pose proof Hs as (Hr & Hp & _). rewrite Hp.
  destruct (_ && _ && _); [by apply wp_ret|]. destruct (Metadata.OSLoginEnabled desc) eqn:Eo; cbn [negb].
  - apply wp_bind. eapply wp_mono; [by apply wp_enableOSLogin|]. intros errs s' (Hs' & He & Hf & Hh & Hw).
    apply wp_ret. split; [done|]. unfold remembers. by rewrite Eo.
  - apply wp_bind, wp_bind. eapply (wp_framed calm).
    { destruct (negb _); [apply calm_configured|]. split; [apply total_ret|apply respects_ret; typeclasses eauto]. }
    intros configured s1 Hc1. pose proof (calm_sane _ _ Hc1 Hs) as Hs1.
    destruct (Hc1 Hr) as ([= _ _ _ _ Ef _ _] & _).
    destruct configured; cbn [negb].
    + apply wp_bind. eapply wp_mono; [by apply wp_disableOSLogin|]. intros e s2 (Hs2 & Hh & Hw).
      apply wp_bind, wp_modify, wp_ret, wp_bind, wp_modify, wp_ret. split; [apply sane_mod; [done..|by apply sane_mod]|].
      unfold remembers. rewrite Eo. simpl. by destruct e.
    + apply wp_ret, wp_bind, wp_modify, wp_ret. split; [by apply sane_mod|].
      split; [|done]. intros _. split; [done|]. exact Ef.
Qed.

Lemma wp_osloginSetup desc s :
  sane s → wp (osloginSetup desc) (λ r s', sane s' ∧ remembers desc (module s) r (module s') ∧
    prevMetadata (module s') = Some desc) s.
Proof.
  intros Hs. unfold osloginSetup. apply wp_bind. eapply wp_mono; [by apply wp_setup_body|].
  intros r s1 (Hs1 & Hr1). apply wp_bind, wp_modify, wp_ret.
  assert (Ed : decrementRetryCount (set_prevMetadata desc (module s1)) = set_prevMetadata desc (module s1)).
  { unfold decrementRetryCount. simpl. by rewrite (proj1 Hs1). }
  cbn [module set_mod]. rewrite Ed. split; [by apply sane_mod|]. by split.
Qed.

(** One metadata event. *)
Definition event (s s' : state) : Prop :=
  ∃ data err r, metadataSubscriber data err s = Some (s', r).

Lemma event_sane s s' : sane s → event s s' → sane s'.
Proof.
  intros Hs ([desc|] & [e|] & r & E); try (by injection E as <-). revert E.
  pose proof (wp_osloginSetup desc s Hs) as Hw. unfold wp in Hw. unfold metadataSubscriber, mbind, M_bind.
  destruct (osloginSetup desc s) as [[s1 [noop errs]]|]; [|done]. intros [= <- _]. apply Hw.
Qed.

(** Whatever metadata events the module has handled since it started, no
    retry is ever pending and no failure is ever permanent, so the limit on
    retries is without effect; and the handler of the certificate pipe is
    subscribed exactly once when the module holds one, and not otherwise. *)
Theorem retries_never_happen (s s' : state) :
  module s = NewModule → handler_subs s = 0 → rtc event s s' →
  retryCount (module s') = 0%Z ∧ permanentFailure (module s') = false ∧ forcedRetrying (module s') = false ∧
  handler_subs s' = (if pipeEventHandler (module s') then 1 else 0).
Proof.
  intros Hm Hh Hr. assert (Hs : sane s') by (apply (rtc_invariant event sane s s'); [apply event_sane|by unfold sane; rewrite Hm|done]).
  pose proof Hs as (Hr' & Hp & Hh'). split_and!; try done. unfold forcedRetrying. by rewrite Hr'.
Qed.


End memory.

(** ** Concrete hosts *)
#[local] Instance default_order : MapOrder := {|
  services_order := defaultServices; services_order_perm := Permutation_refl _;
  sles16_order := sles16Map; sles16_order_perm := Permutation_refl _;
|}.
#[local] Instance no_certs : OsLoginConfig := false.
#[local] Instance no_uname : OsInfo.Uname := None.
#[local] Instance no_restorecon : LookPath := λ _ _, Err ErrNotExist.
#[local] Existing Instances no_faults SafeWrite.numbered.

Definition oslogin_attributes (on : bool) : Metadata.attributes :=
  Metadata.unmarshal_attributes (Metadata.example_inner "" "" (if on then "true" else "false")).
Definition oslogin_descriptor (on : bool) : Metadata.Descriptor :=
  Metadata.mkDescriptor (oslogin_attributes on) Metadata.no_attributes.

Definition example_host : host := mkHost (mkFs {[
  sshdConfigPath := NFile "PermitRootLogin no"; nsswitchConfigPath := NFile "passwd: files systemd";
  pamConfigPath := NFile "auth required pam_env.so"; groupConfigPath := NFile "# groups";
  Dir pamConfigPath := NDir; "/usr/bin/google_authorized_keys" := NFile "ELF";
  "/usr/bin/google_authorized_keys_sk" := NFile "ELF"]} 0) [].

Definition started (h : host) : state := mkState h (Events.mkBus ∅ [] []) Events.newManager NewModule.

(** Every command succeeds; in the other system [sshd] cannot be reloaded. *)
#[local] Instance working : Commands := {| run_command _ _ := RunOk ""; dir_owner _ _ := Err ErrNotExist |}.

Definition broken_sshd : Commands := {|
  run_command _ c := match argv c with
                     | ["systemctl"; "reload-or-restart"; _] => RunExit 1
                     | _ => RunOk ""
                     end;
  dir_owner _ _ := Err ErrNotExist;
|}.

Lemma retries_never_happen_witness :
  ∃ s', rtc event (started example_host) s' ∧ enabled (module s') = true ∧
    retryCount (module s') = 0%Z ∧ handler_subs s' = 1.
Proof.
  assert (Ho : is_Some (metadataSubscriber (Some (oslogin_descriptor true)) None (started example_host)) ∧
    wp (metadataSubscriber (Some (oslogin_descriptor true)) None)
      (λ _ s', enabled (module s') = true ∧ pipeEventHandler (module s') = true) (started example_host))
    by (vm_compute; split; [eexists; reflexivity|split; reflexivity]).
  destruct Ho as [[[s' r] E] Hw]. unfold wp in Hw. rewrite E in Hw. destruct Hw as [He Hh].
  exists s'. assert (Hr : rtc event (started example_host) s')
    by (apply rtc_once; exists (Some (oslogin_descriptor true)), None, r; exact E).
  destruct (retries_never_happen (started example_host) s' eq_refl eq_refl Hr) as (Hz & _ & _ & Hs).
  split; [exact Hr|]. split; [exact He|]. split; [exact Hz|]. rewrite Hs, Hh. reflexivity.
Defined.


Definition setup_on (c : Commands) (on : bool) : M state (bool * list error) :=
  osloginSetup (oslogin_descriptor on).

(** When disabling fails only because [sshd] could not be reloaded, the
    failure is remembered but the next set-up finds nothing of OS Login on
    disk and does nothing: the reload is not tried again. *)
Theorem failed_reload_is_not_retried :
  match setup_on working true (started example_host) with
  | Some (s1, _) =>
      wp (setup_on broken_sshd false) (λ r s2,
        r.1 = false ∧ length r.2 = 1 ∧ failedConfiguration (module s2) = true ∧
        wp (setup_on working false) (λ r' s3,
          r' = (true, []) ∧ ran (sys s3) = ran (sys s2)) s2) s1
  | None => False
  end.
Proof. vm_compute. split_and!; reflexivity. Qed.

End OsLoginFacts.
