(* ===== verification/OsLoginFiles.v ===== *)
(** * OS Login: what enabling and disabling do to the files

    NSSwitch lines, and the fault-free course of a set-up: enabling writes the
    managed blocks, and disabling, also by an agent that was restarted in
    between, gives every file back. *)
From S2P Require Import Prelude GoStrings GoStringFacts Os TextConfig FileUtil SafeWrite Accounts Daemon OsInfo.
From S2P Require Import SshUtil Metadata Events OsLogin OsLoginFacts.

Module OsLoginFiles.
Import Accounts OsLogin OsLoginFacts.

(** ** NSSwitch *)

(** A line of nsswitch.conf the module can roll back: one it manages does not
    mention OS Login yet and is trimmed. *)
Definition nss_clean (line : string) : Prop :=
  HasPrefix line "passwd:" || HasPrefix line "group:" = true →
  Contains line "oslogin" = false ∧ TrimSpace line = line.

#[global] Instance nss_clean_dec line : Decision (nss_clean line).
Proof. unfold nss_clean. apply _. Defined.

Definition managed : bytes := to_bytes "cache_oslogin oslogin".

(** The managed words start inside [l ++ " cache_oslogin oslogin"] only at the
    end, unless [l] mentions OS Login. *)
Lemma managed_prefix l rest :
  bprefix managed (l ++ byte_of 32 :: rest) = true → bcontains (to_bytes "oslogin") l = true.
Proof.
  assert (Hstep : ∀ x p l, bprefix (x :: p) (l ++ byte_of 32 :: rest) = true →
    match l with [] => beqb x (byte_of 32) = true ∧ bprefix p rest = true
    | a :: l' => a = x ∧ bprefix p (l' ++ byte_of 32 :: rest) = true end).
  { intros x p [|a k]; simpl; intros [E Hp]%andb_true_iff; [done|]. apply beqb_spec in E. by subst. }
  unfold managed. intros Hp. vm_compute to_bytes in Hp.
  do 13 (apply Hstep in Hp; destruct l as [|? l]; [destruct Hp as [Hp _]; vm_compute in Hp; discriminate|];
    destruct Hp as [-> Hp]).
  destruct l as [|a l]; [reflexivity|]. apply Hstep in Hp as [-> Hp].
  do 7 (apply Hstep in Hp; destruct l as [|? l]; [destruct Hp as [Hp _]; vm_compute in Hp; discriminate|];
    destruct Hp as [-> Hp]). reflexivity.
Qed.

Lemma bcontains_tail sub a l : bcontains sub (a :: l) = false → bcontains sub l = false.
Proof. cbn [bcontains]. by intros [_ ?]%orb_false_iff. Qed.

Lemma breplace1_managed l :
  bcontains (to_bytes "oslogin") l = false → breplace1 managed [] (l ++ byte_of 32 :: managed) = l ++ [byte_of 32].
Proof.
  induction l as [|a l IH]; intros Hc.
  - vm_compute. reflexivity.
  - cbn [app breplace1]. destruct (bprefix managed ((a :: l) ++ byte_of 32 :: managed)) eqn:Ep.
    + apply managed_prefix in Ep. congruence.
    + change (a :: l ++ byte_of 32 :: managed) with ((a :: l) ++ byte_of 32 :: managed). rewrite Ep.
      cbn [app]. by rewrite IH by by eapply bcontains_tail.
Qed.

Lemma prefix_app a b p : HasPrefix a p = true → HasPrefix (a +:+ b) p = true.
Proof. rewrite !HasPrefix_spec. intros [k ->]. exists (k +:+ b). by rewrite append_assoc. Qed.

Lemma nss_line_roundtrip line : nss_clean line → nss_line true (nss_line false line) = line.
Proof.
  unfold nss_clean, nss_line. destruct (HasPrefix line "passwd:" || HasPrefix line "group:") eqn:Ep; [|by rewrite Ep].
  intros Hc. destruct (Hc eq_refl) as [Ho Ht]. rewrite Ho. cbn [negb].
  assert (HasPrefix (line +:+ nss_suffix) "passwd:" || HasPrefix (line +:+ nss_suffix) "group:" = true) as ->.
  { apply orb_true_iff in Ep. apply orb_true_iff. destruct Ep; [left|right]; by apply prefix_app. }
  assert (Hr : Replace1 (line +:+ nss_suffix) "cache_oslogin oslogin" "" = line +:+ " ").
  { apply to_bytes_eq. unfold Replace1. rewrite to_of_bytes, !to_bytes_app.
    change (to_bytes nss_suffix) with (byte_of 32 :: managed). change (to_bytes "") with (@nil byte).
    change (to_bytes "cache_oslogin oslogin") with managed. by rewrite breplace1_managed. }
  rewrite Hr. assert (Hline : ∃ a s, line = String a s ∧ ascii_byte a ∧ space1 a = false).
  { apply orb_true_iff in Ep as [[k ->]%HasPrefix_spec|[k ->]%HasPrefix_spec]; simpl;
      (eexists _, _; split; [reflexivity|by vm_compute]). }
  destruct Hline as (a & s & -> & Ha & Hs). by apply TrimSpace_snoc_space.
Qed.

Lemma lacks_suffix line b : lacks nl line → lacks nl (nss_line b line) ∨ b = true.
Proof.
  intros Hl. destruct b; [by right|left]. unfold nss_line. destruct (_ || _); [|done].
  destruct (negb _); [|done]. apply lacks_app. split; [done|].
  apply (bool_decide_unpack (lacks nl nss_suffix)). vm_compute. exact I.
Qed.

(** Rolling nsswitch.conf back gives the content back. *)
Lemma nss_content_roundtrip c :
  Forall nss_clean (Split c nl) → nss_content true (nss_content false c) = c.
Proof.
  intros HF. unfold nss_content. rewrite Split_Join.
  - rewrite <-list_fmap_compose. rewrite <-(Join_Split c nl) at 2. f_equal.
    rewrite <-(list_fmap_id (Split c nl)) at 2. apply list_fmap_ext. intros i x Hx.
    apply nss_line_roundtrip. by eapply Forall_lookup_1.
  - pose proof (Split_nonempty c nl). by destruct (Split c nl).
  - apply Forall_fmap. eapply Forall_impl; [apply Split_lacks|]. intros x Hx. by destruct (lacks_suffix x false Hx).
Qed.

(** ** Running without faults *)

(** From any state with the nodes [N] the computation returns [a] and leaves
    the nodes [N'], and the module's memory as it was. *)
Definition runs {A} (m : M state A) (N : gmap string node) (a : A) (N' : gmap string node) : Prop :=
  ∀ s, nodes (fs_of s) = N → ∃ s', m s = Some (s', a) ∧ calm s s' ∧ nodes (fs_of s') = N'.

Lemma runs_ret {A} (a : A) N : runs (mret a) N a N.
Proof. intros s E. by exists s. Qed.

Lemma runs_bind {A B} (m : M state A) (f : A → M state B) N a N1 b N2 :
  runs m N a N1 → runs (f a) N1 b N2 → runs (m ≫= f) N b N2.
Proof.
  intros Hm Hf s E. destruct (Hm s E) as (s1 & E1 & Hc1 & En1). destruct (Hf s1 En1) as (s2 & E2 & Hc2 & En2).
  exists s2. unfold mbind, M_bind. rewrite E1. split; [done|]. split; [by etrans|done].
Qed.

(** A first part whose value does not matter. *)
Lemma runs_bind_any {A B} (m : M state A) (f : A → M state B) N b N2 :
  (∀ s, nodes (fs_of s) = N → ∃ s' a, m s = Some (s', a) ∧ calm s s' ∧ nodes (fs_of s') = N) →
  (∀ a, runs (f a) N b N2) → runs (m ≫= f) N b N2.
Proof.
  intros Hm Hf s E. destruct (Hm s E) as (s1 & a & E1 & Hc1 & En1). destruct (Hf a s1 En1) as (s2 & E2 & Hc2 & En2).
  exists s2. unfold mbind, M_bind. rewrite E1. split; [done|]. split; [by etrans|done].
Qed.

Lemma runs_gets {A B} (g : state → A) (f : A → M state B) N b N2 :
  (∀ a, runs (f a) N b N2) → runs (gets g ≫= f) N b N2.
Proof. intros Hf. apply runs_bind_any; [|done]. intros s E. by exists s, (g s). Qed.

Section fault_free.
Context `{Commands} `{LookPath} `{OsFaults} `{SafeWrite.TempNames} `{OsInfo.Uname}.
Context `{MapOrder} `{OsLoginConfig}.
Context (fault_free : ∀ n op p, os_fault n op p = None).
Context (commands_ok : ∀ n c, ∃ out, run_command n c = RunOk out).

Lemma runs_with_fs {A} name p onf (k : _ → _ * A) N : runs (with_fs name p onf k) N (k N).2 (k N).1.
Proof.
  intros s <-. rewrite (run_with_fs fault_free). eexists. split; [reflexivity|]. split; [done|]. apply nodes_after.
Qed.

Lemma runs_read p d N : N !! p = Some (NFile d) → runs (os_ReadFile p) N (Ok d) N.
Proof.
  intros E. unfold os_ReadFile. pose proof (runs_with_fs "read" p fail_result (λ m,
    (m, match resolve m p with Some (_, NFile d) => Ok d | Some (_, _) => Err ErrIsDir | None => Err ErrNotExist end)) N) as Hr.
  simpl in Hr. by rewrite (resolve_file _ _ _ E) in Hr.
Qed.

Lemma runs_write_file p d d' N : N !! p = Some (NFile d') → runs (os_WriteFile p d) N None (<[p := NFile d]> N).
Proof.
  intros E s <-. rewrite (run_WriteFile_file fault_free p d d' s E). eexists.
  split; [reflexivity|]. split; [done|apply nodes_after].
Qed.

Lemma runs_write_new p d N : N !! p = None → runs (os_WriteFile p d) N None (<[p := NFile d]> N).
Proof.
  intros E s <-. rewrite (run_WriteFile_new fault_free p d s E). eexists.
  split; [reflexivity|]. split; [done|apply nodes_after].
Qed.

Lemma runs_exists p t b N :
  (match N !! p with Some (NFile _) => b = match t with TypeFile => true | TypeDir => false end
   | Some NDir => b = match t with TypeFile => false | TypeDir => true end | None => b = false | _ => False end) →
  runs (Exists p t) N b N.
Proof.
  intros Hb. unfold Exists, os_Stat. eapply runs_bind; [apply runs_with_fs|]. cbn [fst snd].
  destruct (N !! p) as [[d| |l]|] eqn:E; [|..|done|]; subst b.
  - rewrite (resolve_file _ _ _ E). destruct t; apply runs_ret.
  - rewrite (resolve_dir _ _ E). destruct t; apply runs_ret.
  - rewrite (resolve_none _ _ E). destruct t; apply runs_ret.
Qed.

(** A command, whose output does not matter. *)
Lemma runs_command {B} c (f : run_outcome → M state B) N b N2 :
  (∀ out, runs (f (RunOk out)) N b N2) → runs (on_host (WithContext c) ≫= f) N b N2.
Proof.
  intros Hf s E. destruct (commands_ok (length (ran (sys s))) c) as [out Ho].
  unfold on_host, zoom, WithContext, mbind, M_bind. rewrite Ho.
  edestruct (Hf out) as (s2 & E2 & Hc2 & En2); [|exists s2; split; [exact E2|]].
  - exact E.
  - split; [|done]. etrans; [|exact Hc2]. done.
Qed.

Lemma runs_check u N : runs (on_host (Daemon.CheckUnitExists u)) N (true, None) N.
Proof.
  intros s E. unfold on_host, zoom, Daemon.CheckUnitExists, Daemon.systemctl, WithContext, mbind, M_bind.
  match goal with |- context [run_command ?n ?c] => destruct (commands_ok n c) as [out ->] end.
  eexists. split; [reflexivity|]. by split.
Qed.

Lemma runs_restart x m N : runs (on_host (Daemon.RestartService x m)) N None N.
Proof.
  intros s E. unfold on_host, zoom, Daemon.RestartService, Daemon.simple, Daemon.systemctl, WithContext, mbind, M_bind.
  match goal with |- context [run_command ?n ?c] => destruct (commands_ok n c) as [out ->] end.
  eexists. split; [reflexivity|]. by split.
Qed.

Lemma runs_for_until {A R} (l : list A) (body : unit → A → M state (unit + R)) N :
  (∀ x, x ∈ l → runs (body tt x) N (inl tt) N) → runs (for_until l tt body) N (inl tt) N.
Proof.
  induction l as [|x l IH]; intros Hb; simpl; [apply runs_ret|].
  eapply runs_bind; [apply Hb; by left|]. apply IH. intros y Hy. apply Hb. by right.
Qed.

Lemma runs_restart_config m c N : services c ≠ [] → runs (restart_config m c) N (inl tt) N.
Proof.
  intros Hne. unfold restart_config. destruct (services c) as [|x xs]; [done|]. cbn [for_until].
  eapply (runs_bind _ _ _ (inr tt)); [|apply runs_ret].
  eapply (runs_bind _ _ _ (inr tt)); [|apply runs_ret].
  unfold restart_one. eapply runs_bind; [apply runs_check|]. cbn [negb].
  eapply runs_bind; [apply runs_restart|]. apply runs_ret.
Qed.

Lemma runs_restartServices N : runs restartServices N None N.
Proof.
  unfold restartServices. eapply (runs_bind _ _ _ (inl tt)); [|apply runs_ret]. apply runs_for_until. intros [m cs] Hin.
  apply runs_for_until. intros c Hc. apply runs_restart_config.
  rewrite services_order_perm in Hin. revert c Hc.
  apply Forall_forall. revert Hin. simpl.
  assert (Forall (λ mc : Daemon.RestartMethod * list serviceRestartConfig, Forall (λ c, services c ≠ []) mc.2) defaultServices) as HF
    by (repeat constructor; discriminate).
  rewrite Forall_forall in HF. intros Hin. apply (HF _ Hin).
Qed.

(** *** textconfig *)
Lemma runs_Apply path bls c out N :
  N !! path = Some (NFile c) → TextConfig.applied (config_handle path bls) (Some c) = Some out →
  runs (TextConfig.Apply (config_handle path bls)) N None (<[path := NFile out]> N).
Proof.
  intros Hc Ha s En. destruct (config_delimiters path bls) as [_ Hf].
  destruct (TextConfig.run_Apply fault_free (config_handle path bls) (Some c) out s) as (s' & E & En').
  - unfold TextConfig.content_of. by rewrite Hf, En, Hc.
  - done.
  - exists s'. split; [done|]. split; [by eapply calm_Apply|]. by rewrite En', Hf, En.
Qed.

(** Rolling back only looks at the delimiters. *)
Lemma cleanup_opts h h' b ls :
  TextConfig.opts h = TextConfig.opts h' → TextConfig.cleanup_from h b ls = TextConfig.cleanup_from h' b ls.
Proof.
  intros E. revert b. induction ls as [|l ls IH]; intros b; simpl; [done|].
  unfold TextConfig.matchStart, TextConfig.matchEnd, TextConfig.isDeprecated. rewrite E.
  repeat case_match; rewrite ?IH; done.
Qed.

Lemma config_opts path bls : TextConfig.opts (config_handle path bls) = TextConfig.opts (TextConfig.New path osloginConfigOpts).
Proof.
  unfold config_handle. generalize (TextConfig.New path osloginConfigOpts). induction bls as [|b bls IH]; intros h; [done|].
  simpl. by rewrite IH.
Qed.

Lemma runs_Cleanup path bls c out N :
  N !! path = Some (NFile out) → TextConfig.well_delimited (config_handle path bls) →
  Forall (TextConfig.untouched (plain_handle path)) (Split c nl) →
  TextConfig.applied (config_handle path bls) (Some c) = Some out →
  runs (TextConfig.Cleanup (plain_handle path)) N None (<[path := NFile c]> N).
Proof.
  intros Hc Hw HF Ha s En. destruct (config_delimiters path []) as [_ Hf].
  destruct (TextConfig.run_Cleanup fault_free (plain_handle path) out s) as (s' & E & En').
  - unfold plain_handle. by rewrite Hf, En.
  - exists s'. split; [done|]. split; [by eapply calm_Cleanup|]. rewrite En', En. unfold plain_handle in *. rewrite Hf.
    do 2 f_equal. rewrite <-(TextConfig.cleanup_applied_untouched (config_handle path bls) c out Hw); [|..|done].
    + f_equal. unfold TextConfig.cleanup. apply cleanup_opts. by rewrite !config_opts.
    + eapply Forall_impl; [exact HF|]. intros l. unfold TextConfig.untouched, TextConfig.matchStart,
        TextConfig.matchEnd, TextConfig.isDeprecated. by rewrite !config_opts.
Qed.

(** *** The set-up *)

(** A host on which OS Login can be enabled and rolled back: the four files
    hold nothing of OS Login yet, the binaries are installed. *)
Record ready (N : gmap string node) (sshd nss pam group : string) : Prop := mkReady {
  ready_sshd : N !! sshdConfigPath = Some (NFile sshd) ∧ Forall (TextConfig.untouched (plain_handle sshdConfigPath)) (Split sshd nl);
  ready_nss : N !! nsswitchConfigPath = Some (NFile nss) ∧ Forall nss_clean (Split nss nl);
  ready_pam : N !! pamConfigPath = Some (NFile pam) ∧ Forall (TextConfig.untouched (plain_handle pamConfigPath)) (Split pam nl);
  ready_group : N !! groupConfigPath = Some (NFile group) ∧ Forall (TextConfig.untouched (plain_handle groupConfigPath)) (Split group nl);
  ready_pam_dir : N !! Dir pamConfigPath = Some NDir;
  ready_binaries : Forall (λ p, is_Some (N !! p ≫= λ nd, match nd with NFile d => Some d | _ => None end))
    ["/usr/bin/google_authorized_keys"; "/usr/bin/google_authorized_keys_sk"];
  ready_sudoers : N !! sudoers = None ∨ ∃ d, N !! sudoers = Some (NFile d);
}.

Lemma runs_availableBinary p ps N :
  is_Some (N !! p ≫= λ nd, match nd with NFile d => Some d | _ => None end) →
  runs (availableBinary (p :: ps)) N (Ok p) N.
Proof.
  intros Hp. assert (Hd : ∃ d, N !! p = Some (NFile d)).
  { destruct (N !! p) as [[d| |]|]; simpl in Hp; eauto; by destruct Hp. }
  destruct Hd as [d Hd]. unfold availableBinary. cbn [for_until].
  eapply (runs_bind _ _ _ (inr p)); [|apply runs_ret].
  eapply (runs_bind _ _ _ (inr p)); [|apply runs_ret].
  eapply (runs_bind _ _ _ true); [|apply runs_ret]. apply runs_exists. by rewrite Hd.
Qed.

(** The command of the settings. *)
Definition keys_command (desc : Metadata.Descriptor) : string :=
  if Metadata.SecurityKeyEnabled desc then "/usr/bin/google_authorized_keys_sk" else "/usr/bin/google_authorized_keys".

Lemma runs_setupOpenSSH desc N c out nss pam group :
  ready N c nss pam group →
  TextConfig.applied (openssh_handle desc CertAuthentication (keys_command desc)) (Some c) = Some out →
  runs (setupOpenSSH desc) N None (<[sshdConfigPath := NFile out]> N).
Proof.
  intros Hr Ha. pose proof (ready_binaries _ _ _ _ _ Hr) as Hb. apply Forall_cons in Hb as [Hb1 Hb2].
  apply Forall_cons in Hb2 as [Hb2 _]. unfold setupOpenSSH.
  eapply runs_bind; [by apply runs_availableBinary|]. cbn beta iota.
  eapply (runs_bind _ _ _ (Ok (keys_command desc))).
  { unfold keys_command. destruct (Metadata.SecurityKeyEnabled desc); [by apply runs_availableBinary|apply runs_ret]. }
  cbn beta iota. eapply (runs_bind _ _ _ None); [|apply runs_ret].
  eapply runs_Apply; [apply (ready_sshd _ _ _ _ _ Hr)|done].
Qed.

Lemma runs_nss b c N :
  N !! nsswitchConfigPath = Some (NFile c) →
  runs (setupNSSwitch b) N None (<[nsswitchConfigPath := NFile (nss_content b c)]> N).
Proof.
  intros Hc. unfold setupNSSwitch. eapply runs_bind; [by apply runs_read|]. cbn beta iota.
  eapply (runs_bind _ _ _ None); [|apply runs_ret]. by eapply runs_write_file.
Qed.

Lemma runs_setupPAM desc N c out :
  N !! Dir pamConfigPath = Some NDir → N !! pamConfigPath = Some (NFile c) →
  TextConfig.applied (pam_handle desc) (Some c) = Some out →
  runs (setupPAM desc) N None (<[pamConfigPath := NFile out]> N).
Proof.
  intros Hd Hc Ha. unfold setupPAM. eapply (runs_bind _ _ _ true); [apply runs_exists; by rewrite Hd|].
  cbn beta iota. eapply runs_bind; [apply runs_ret|]. cbn beta iota.
  eapply (runs_bind _ _ _ None); [|apply runs_ret]. by eapply runs_Apply.
Qed.

Lemma runs_setupGroup N c out :
  N !! groupConfigPath = Some (NFile c) → TextConfig.applied group_handle (Some c) = Some out →
  runs setupGroup N None (<[groupConfigPath := NFile out]> N).
Proof. intros Hc Ha. unfold setupGroup. eapply (runs_bind _ _ _ None); [|apply runs_ret]. by eapply runs_Apply. Qed.

(** The directories of OS Login, created one after the other. *)
Definition with_dirs (N : gmap string node) : gmap string node := foldl (λ N d, mkdir_all d N) N osloginDirs.

Lemma with_dirs_keeps N q nd : N !! q = Some nd → with_dirs N !! q = Some nd.
Proof. intros Hq. unfold with_dirs, osloginDirs. cbn [foldl]. by do 2 apply SafeWrite.foldl_make_dir_keeps. Qed.

Lemma runs_one_dir (restorecon : result string) d N :
  runs (e ← os_MkdirAll d;
        match e with
        | Some e => mret (inr (ErrWrap "failed to create oslogin directory" e))
        | None =>
            match restorecon with
            | Err _ => mret (inl tt)
            | Ok restorecon =>
                r ← on_host (WithContext (mkCommand [restorecon; d] ""));
                mret (match Daemon.run_error r with
                      | Some e => inr (ErrWrap "failed to run restorecon" e)
                      | None => inl tt
                      end)
            end
        end) N (inl tt : unit + error) (mkdir_all d N).
Proof.
  eapply runs_bind; [apply runs_with_fs|]. cbn [fst snd]. destruct restorecon; [|apply runs_ret].
  apply runs_command. intros out. apply runs_ret.
Qed.

Lemma runs_setupOSLoginDirs N : runs setupOSLoginDirs N None (with_dirs N).
Proof.
  unfold setupOSLoginDirs. apply runs_gets. intros restorecon.
  eapply (runs_bind _ _ _ (inl tt)); [|apply runs_ret]. unfold osloginDirs. cbn [for_until].
  eapply runs_bind; [apply runs_one_dir|]. cbn beta iota.
  eapply runs_bind; [apply runs_one_dir|]. cbn beta iota. apply runs_ret.
Qed.

Lemma runs_setupOSLoginSudoers N :
  (N !! sudoers = None ∨ ∃ d, N !! sudoers = Some (NFile d)) →
  ∃ N', runs setupOSLoginSudoers N None N' ∧ ∀ q, q ≠ sudoers → N' !! q = N !! q.
Proof.
  intros [Hn|[d Hd]]; unfold setupOSLoginSudoers.
  - eexists. split; [eapply (runs_bind _ _ _ false); [apply runs_exists; by rewrite Hn|]|].
    + cbn beta iota. eapply runs_bind; [by apply runs_write_new|apply runs_ret].
    + intros q Hq. by apply lookup_insert_ne.
  - exists N. split; [|done]. eapply (runs_bind _ _ _ true); [apply runs_exists; by rewrite Hd|]. apply runs_ret.
Qed.

Lemma runs_refresh_cache N : runs refresh_cache N None N.
Proof. unfold refresh_cache. apply runs_command. intros out. apply runs_ret. Qed.

(** The files of OS Login once it is enabled. *)
Record configured (desc : Metadata.Descriptor) (N : gmap string node) (sshd nss pam group : string) : Prop := mkConfigured {
  conf_sshd : ∃ out, N !! sshdConfigPath = Some (NFile out) ∧
    TextConfig.applied (openssh_handle desc CertAuthentication (keys_command desc)) (Some sshd) = Some out;
  conf_nss : N !! nsswitchConfigPath = Some (NFile (nss_content false nss));
  conf_pam : ∃ out, N !! pamConfigPath = Some (NFile out) ∧ TextConfig.applied (pam_handle desc) (Some pam) = Some out;
  conf_group : ∃ out, N !! groupConfigPath = Some (NFile out) ∧ TextConfig.applied group_handle (Some group) = Some out;
}.

Lemma with_dirs_sudoers N : with_dirs N !! sudoers = N !! sudoers.
Proof.
  unfold with_dirs, osloginDirs. cbn [foldl]. unfold mkdir_all.
  rewrite !FileUtil.foldl_make_dir_other; [done|..];
    match goal with |- ?x ∉ ?l => apply (bool_decide_unpack (x ∉ l)); vm_compute; exact I end.
Qed.

Lemma runs_configure desc N sshd nss pam group out1 out3 out4 :
  ready N sshd nss pam group →
  TextConfig.applied (openssh_handle desc CertAuthentication (keys_command desc)) (Some sshd) = Some out1 →
  TextConfig.applied (pam_handle desc) (Some pam) = Some out3 →
  TextConfig.applied group_handle (Some group) = Some out4 →
  ∃ N', runs (configure desc) N [] N' ∧ configured desc N' sshd nss pam group.
Proof.
  intros Hr Ha1 Ha3 Ha4. pose proof Hr as [[Hs _] [Hn _] [Hp _] [Hg _] Hd _ Hsu].
  set (N1 := <[sshdConfigPath := NFile out1]> N).
  set (N2 := <[nsswitchConfigPath := NFile (nss_content false nss)]> N1).
  set (N3 := <[pamConfigPath := NFile out3]> N2). set (N4 := <[groupConfigPath := NFile out4]> N3).
  destruct (runs_setupOSLoginSudoers (with_dirs N4)) as (N6 & Hr6 & H6).
  { rewrite with_dirs_sudoers. unfold N4, N3, N2, N1. by rewrite !lookup_insert_ne by discriminate. }
  exists N6. split.
  - unfold configure.
    eapply runs_bind; [by eapply runs_setupOpenSSH|]. fold N1.
    eapply runs_bind; [apply (runs_nss false nss); unfold N1; by rewrite lookup_insert_ne by discriminate|]. fold N2.
    eapply runs_bind; [apply (runs_setupPAM desc N2 pam out3); [..|done];
      unfold N2, N1; by rewrite !lookup_insert_ne by discriminate|]. fold N3.
    eapply runs_bind; [apply (runs_setupGroup N3 group out4); [|done];
      unfold N3, N2, N1; by rewrite !lookup_insert_ne by discriminate|]. fold N4.
    eapply runs_bind; [apply runs_restartServices|]. eapply runs_bind; [apply runs_setupOSLoginDirs|].
    eapply runs_bind; [exact Hr6|]. eapply runs_bind; [apply runs_refresh_cache|]. apply runs_ret.
  - assert (Hk : ∀ q nd, q ≠ sudoers → N4 !! q = Some nd → N6 !! q = Some nd).
    { intros q nd Hq E. rewrite H6 by done. by apply with_dirs_keeps. }
    split; [exists out1; split; [|done]| |exists out3; split; [|done]|exists out4; split; [|done]];
      (apply Hk; [discriminate|]); unfold N4, N3, N2, N1;
      repeat first [apply lookup_insert_eq | rewrite lookup_insert_ne by discriminate].
Qed.

Lemma total_Read : total (S := state) OsInfo.Read.
Proof. unfold OsInfo.Read, OsInfo.parseRelease. total_solve. Qed.

Lemma calm_Read : respects calm OsInfo.Read.
Proof. unfold OsInfo.Read, OsInfo.parseRelease. respects_solve. Qed.

Lemma nodes_Read : respects (on_nodes (S := state) (=)) OsInfo.Read.
Proof. unfold OsInfo.Read, OsInfo.parseRelease, os_ReadFile. respects_solve; by apply respects_nodes. Qed.

Lemma runs_sles16 N :
  (∀ p, p ∈ [sshdConfigPath; nsswitchConfigPath; pamConfigPath; groupConfigPath] → ∃ c, N !! p = Some (NFile c)) →
  runs setupSles16OSLoginDirs N None N.
Proof.
  intros Hf. unfold setupSles16OSLoginDirs. apply runs_gets. intros [|]; [apply runs_ret|].
  apply runs_bind_any.
  { intros s E. destruct (total_Read s) as [[s' info] Er]. exists s', info. split; [done|].
    split; [by eapply calm_Read|]. rewrite <-E. symmetry. by eapply nodes_Read. }
  intros info. destruct (_ || _).
  - intros s E. eexists. split; [reflexivity|]. split; done.
  - eapply (runs_bind _ _ _ (inl tt)).
    + apply runs_for_until. intros kv Hin. rewrite sles16_order_perm in Hin.
      assert (Hex : ∃ c, N !! kv.2 = Some (NFile c)).
      { apply Hf. revert Hin. unfold sles16Map. rewrite !elem_of_cons, elem_of_nil.
        intros [->|[->|[->|[->|[]]]]]; simpl; set_solver. }
      destruct Hex as [c Hc]. eapply (runs_bind _ _ _ true); [apply runs_exists; by rewrite Hc|]. apply runs_ret.
    + intros s E. eexists. split; [reflexivity|]. split; done.
Qed.

Lemma ready_files N sshd nss pam group :
  ready N sshd nss pam group →
  ∀ p, p ∈ [sshdConfigPath; nsswitchConfigPath; pamConfigPath; groupConfigPath] → ∃ c, N !! p = Some (NFile c).
Proof. intros [[? _] [? _] [? _] [? _] _ _ _] p. rewrite !elem_of_cons, elem_of_nil. naive_solver. Qed.

Lemma runs_wp {A} (m : M state A) N a N' s :
  runs m N a N' → nodes (fs_of s) = N → wp m (λ b s', b = a ∧ calm s s' ∧ nodes (fs_of s') = N') s.
Proof. intros Hr E. destruct (Hr s E) as (s' & E' & Hc & Hn). unfold wp. rewrite E'. done. Qed.

(** *** Well-formed handles *)
Ltac settings_cases desc :=
  destruct (Metadata.CertRequiredEnabled desc), (Metadata.SecurityKeyEnabled desc), (Metadata.TwoFactorEnabled desc).

Lemma openssh_well_delimited desc cert :
  TextConfig.well_delimited (openssh_handle desc cert (keys_command desc)).
Proof.
  unfold openssh_handle, openssh_top, openssh_bottom, keys_command. settings_cases desc; destruct cert;
    match goal with |- TextConfig.well_delimited ?h =>
      apply (bool_decide_unpack (TextConfig.well_delimited h)); vm_compute; exact I end.
Qed.

Lemma pam_well_delimited desc : TextConfig.well_delimited (pam_handle desc).
Proof.
  unfold pam_handle. destruct (Metadata.TwoFactorEnabled desc);
    match goal with |- TextConfig.well_delimited ?h =>
      apply (bool_decide_unpack (TextConfig.well_delimited h)); vm_compute; exact I end.
Qed.

Lemma group_well_delimited : TextConfig.well_delimited group_handle.
Proof. apply (bool_decide_unpack (TextConfig.well_delimited group_handle)). vm_compute. exact I. Qed.

(** The block at the top of sshd_config is never empty. *)
Lemma openssh_starts desc cert :
  ∃ rest, TextConfig.block_lines (openssh_handle desc cert (keys_command desc))
    (TextConfig.blocks_at (openssh_handle desc cert (keys_command desc)) TextConfig.Top) =
    Some (TextConfig.Start delimiter :: rest).
Proof.
  unfold openssh_handle, openssh_top, openssh_bottom, keys_command. settings_cases desc; destruct cert;
    eexists; vm_compute; reflexivity.
Qed.

Lemma configured_start desc cert c out :
  TextConfig.applied (openssh_handle desc cert (keys_command desc)) (Some c) = Some out →
  existsb (λ line, bool_decide (TrimSpace line = TextConfig.Start delimiter)) (Split out nl) = true.
Proof.
  destruct (openssh_starts desc cert) as [rest Ht]. unfold TextConfig.applied. rewrite Ht. cbn [mbind option_bind].
  destruct (TextConfig.block_lines _ (TextConfig.blocks_at _ TextConfig.Bottom)) as [bottom|] eqn:Hb; [|done].
  intros Ho. injection Ho as <-.
  destruct (TextConfig.cleanup_applied_lines _ (Some c) _ bottom (openssh_well_delimited desc cert) Ht Hb) as [_ Hl].
  rewrite Split_Join by done. cbn [app existsb]. apply orb_true_iff. left.
  rewrite bool_decide_eq_true. vm_compute. reflexivity.
Qed.

Lemma runs_file_has path f d b N :
  N !! path = Some (NFile d) → existsb f (Split d nl) = b → runs (file_has path f) N b N.
Proof.
  intros Hf <-. unfold file_has. eapply runs_bind; [by apply runs_read|]. apply runs_ret.
Qed.

Lemma runs_configured desc N sshd nss pam group :
  configured desc N sshd nss pam group → runs isOSLoginConfiguredOnDisk N true N.
Proof.
  intros [(out & Ho & Ha) Hn _ _]. unfold isOSLoginConfiguredOnDisk.
  eapply runs_bind; [by eapply runs_file_has|]. destruct (existsb nss_configured _); [apply runs_ret|].
  cbn [for_until]. eapply (runs_bind _ _ _ (inr tt)); [|apply runs_ret].
  eapply (runs_bind _ _ _ (inr tt)); [|apply runs_ret].
  eapply runs_bind; [eapply runs_file_has; [exact Ho|by eapply configured_start]|]. apply runs_ret.
Qed.

Lemma runs_rollback desc N0 N sshd nss pam group :
  ready N0 sshd nss pam group → configured desc N sshd nss pam group →
  ∃ N', runs rollback N None N' ∧
    ∀ p, p ∈ [sshdConfigPath; nsswitchConfigPath; pamConfigPath; groupConfigPath] → N' !! p = N0 !! p.
Proof.
  intros [[Hs Fs] [Hn Fn] [Hp Fp] [Hg Fg] _ _ _] [(o1 & Ho1 & Ha1) Hn' (o3 & Ho3 & Ha3) (o4 & Ho4 & Ha4)].
  set (N1 := <[sshdConfigPath := NFile sshd]> N).
  set (N2 := <[nsswitchConfigPath := NFile (nss_content true (nss_content false nss))]> N1).
  set (N3 := <[pamConfigPath := NFile pam]> N2). set (N4 := <[groupConfigPath := NFile group]> N3).
  exists N4. split.
  - unfold rollback. eapply runs_bind; [eapply runs_Cleanup; [exact Ho1|apply openssh_well_delimited|exact Fs|exact Ha1]|].
    fold N1. cbn beta iota.
    eapply runs_bind; [apply runs_nss; unfold N1; rewrite lookup_insert_ne by discriminate; exact Hn'|]. fold N2. cbn beta iota.
    eapply runs_bind; [eapply runs_Cleanup; [|apply (pam_well_delimited desc)|exact Fp|exact Ha3];
      unfold N2, N1; rewrite !lookup_insert_ne by discriminate; exact Ho3|]. fold N3. cbn beta iota.
    eapply runs_bind; [eapply runs_Cleanup; [|apply group_well_delimited|exact Fg|exact Ha4];
      unfold N3, N2, N1; rewrite !lookup_insert_ne by discriminate; exact Ho4|]. fold N4. cbn beta iota.
    eapply (runs_bind _ _ _ None); [apply runs_restartServices|]. apply runs_ret.
  - intros p. rewrite !elem_of_cons, elem_of_nil. unfold N4, N3, N2, N1.
    rewrite nss_content_roundtrip by done.
    intros [->|[->|[->|[->|[]]]]]; rewrite ?Hs, ?Hn, ?Hp, ?Hg;
      repeat first [apply lookup_insert_eq | rewrite lookup_insert_ne by discriminate].
Qed.

(** ** Enabling, and disabling again *)

(** An agent that was just started. *)
Definition fresh (h : host) : state := mkState h (Events.mkBus ∅ [] []) Events.newManager NewModule.

Lemma fresh_sane h : sane (fresh h).
Proof. done. Qed.

Lemma applied_exists h c : TextConfig.well_delimited h → ∃ out, TextConfig.applied h (Some c) = Some out.
Proof. intros Hw. destruct (TextConfig.applied_total h (Some c) Hw) as [out E]. eauto. Qed.

Lemma enable_files desc h sshd nss pam group :
  Metadata.OSLoginEnabled desc = true → ready (nodes (hfs h)) sshd nss pam group →
  wp (osloginSetup desc) (λ r s1, r = (false, []) ∧ configured desc (nodes (fs_of s1)) sshd nss pam group ∧
    sane s1 ∧ enabled (module s1) = true ∧ prevMetadata (module s1) = Some desc) (fresh h).
Proof.
  intros He Hr.
  destruct (applied_exists _ sshd (openssh_well_delimited desc CertAuthentication)) as [out1 Ha1].
  destruct (applied_exists _ pam (pam_well_delimited desc)) as [out3 Ha3].
  destruct (applied_exists _ group group_well_delimited) as [out4 Ha4].
  destruct (runs_configure desc _ _ _ _ _ out1 out3 out4 Hr Ha1 Ha3 Ha4) as (N' & Hrun & Hconf).
  eapply wp_mono; [eapply wp_and; [apply (wp_osloginSetup desc), fresh_sane|]|].
  - unfold osloginSetup. apply wp_bind. unfold setup_body. apply wp_bind, wp_gets.
    cbn [fresh module permanentFailure NewModule]. cbn [metadataChanged prevMetadata NewModule].
    rewrite He. rewrite andb_false_r. cbn [negb andb]. apply wp_bind. unfold enableOSLogin. apply wp_bind.
    eapply wp_mono; [apply run_open_pipe, fresh_sane|]. intros _ s1 (Hs1 & Es1 & Em1). apply wp_bind.
    assert (En1 : nodes (fs_of s1) = nodes (hfs h)) by (simpl; by rewrite Es1).
    eapply wp_mono; [apply (runs_wp _ _ _ _ _ (runs_sles16 _ (ready_files _ _ _ _ _ Hr)) En1)|].
    intros e s2 (-> & Hc2 & En2). apply wp_bind.
    eapply wp_mono; [apply (runs_wp _ _ _ _ _ Hrun En2)|]. intros errs s3 (-> & Hc3 & En3).
    apply wp_bind, wp_modify, wp_ret, wp_ret, wp_bind, wp_modify, wp_ret.
    instantiate (1 := λ r s1, r = (false, []) ∧ nodes (fs_of s1) = N'). by split.
  - intros r s1 [(Hs & Hrem & Hp) [-> En]]. destruct Hrem as [_ Hrem]. destruct (Hrem eq_refl) as (Een & _).
    rewrite He in Een. split_and!; try done. by rewrite En.
Qed.

Lemma disable_files desc desc' h s sshd nss pam group :
  Metadata.OSLoginEnabled desc' = false → ready (nodes (hfs h)) sshd nss pam group →
  configured desc (nodes (fs_of s)) sshd nss pam group →
  sane s → metadataChanged (module s) desc' = true →
  wp (osloginSetup desc') (λ r s2, r = (false, []) ∧
    ∀ p, p ∈ [sshdConfigPath; nsswitchConfigPath; pamConfigPath; groupConfigPath] →
      nodes (fs_of s2) !! p = nodes (hfs h) !! p) s.
Proof.
  intros He Hr Hconf Hs Hch. destruct (runs_rollback desc _ _ _ _ _ _ Hr Hconf) as (N' & Hrun & HN').
  unfold osloginSetup. apply wp_bind. unfold setup_body. apply wp_bind, wp_gets.
  pose proof Hs as (_ & Hp & _). rewrite Hp, Hch, He. rewrite andb_false_r. cbn [negb andb]. apply wp_bind, wp_bind.
  assert (Hcfg : runs (if negb (enabled (module s)) then isOSLoginConfiguredOnDisk else mret true)
    (nodes (fs_of s)) true (nodes (fs_of s))).
  { destruct (negb _); [by eapply runs_configured|apply runs_ret]. }
  eapply wp_mono; [apply (runs_wp _ _ _ _ _ Hcfg eq_refl)|]. intros b s1 (-> & Hc1 & En1). cbn [negb].
  apply wp_bind. unfold disableOSLogin. apply wp_bind.
  eapply wp_mono; [apply (runs_wp _ _ _ _ _ Hrun En1)|]. intros e s2 (-> & Hc2 & En2). apply wp_bind.
  assert (Hs2 : sane s2) by (eapply calm_sane; [|eapply calm_sane]; eassumption).
  eapply wp_mono; [by apply run_close_pipe|]. intros _ s3 (Hs3 & Es3 & _).
  apply wp_ret, wp_bind, wp_modify, wp_ret, wp_bind, wp_modify, wp_ret, wp_bind, wp_modify, wp_ret.
  split; [done|]. intros p Hin. rewrite <-(HN' p Hin), <-En2. simpl. by rewrite Es3.
Qed.

(** C30. Without failures, enabling OS Login writes its blocks into the four
    configuration files, and disabling it afterwards, by the same agent or by
    one that was restarted and remembers nothing, gives all four files back
    exactly as they were. *)
Theorem enable_disable_restores (desc desc' : Metadata.Descriptor) (h : host) (sshd nss pam group : string) :
  Metadata.OSLoginEnabled desc = true → Metadata.OSLoginEnabled desc' = false →
  ready (nodes (hfs h)) sshd nss pam group →
  let restored r s2 := r = (false, []) ∧
    ∀ p, p ∈ [sshdConfigPath; nsswitchConfigPath; pamConfigPath; groupConfigPath] →
      nodes (fs_of s2) !! p = nodes (hfs h) !! p in
  wp (osloginSetup desc) (λ r s1, r = (false, []) ∧
    configured desc (nodes (fs_of s1)) sshd nss pam group ∧
    wp (osloginSetup desc') restored s1 ∧ wp (osloginSetup desc') restored (fresh (sys s1))) (fresh h).
Proof.
  intros He He' Hr restored. eapply wp_mono; [by eapply enable_files|].
  intros r s1 (-> & Hconf & Hs & Hen & Hp). split_and!; [done|done|..].
  - eapply disable_files; try done. unfold metadataChanged, changed. by rewrite Hp, He, He'.
  - by eapply (disable_files desc desc' h (fresh (sys s1))).
Qed.

End fault_free.

(** ** A concrete host *)
#[local] Existing Instances default_order no_certs no_uname no_restorecon working no_faults SafeWrite.numbered.

Lemma example_ready :
  ready (nodes (hfs example_host)) "PermitRootLogin no" "passwd: files systemd" "auth required pam_env.so" "# groups".
Proof.
  split; try (split; [vm_compute; reflexivity|]);
    try match goal with |- Forall ?P ?l => apply (bool_decide_unpack (Forall P l)); vm_compute; exact I end.
  - vm_compute. reflexivity.
  - left. vm_compute. reflexivity.
Qed.

Lemma no_faults_at n op p : os_fault n op p = None.
Proof. done. Qed.

Lemma working_ok n c : ∃ out, run_command n c = RunOk out.
Proof. by exists "". Qed.

Lemma enable_disable_restores_witness :
  wp (osloginSetup (oslogin_descriptor true)) (λ r s1, r = (false, []) ∧
    wp (osloginSetup (oslogin_descriptor false)) (λ _ s2,
      nodes (fs_of s2) !! sshdConfigPath = Some (NFile "PermitRootLogin no")) (fresh (sys s1))) (fresh example_host).
Proof.
  assert (Hon : Metadata.OSLoginEnabled (oslogin_descriptor true) = true) by (vm_compute; reflexivity).
  assert (Hoff : Metadata.OSLoginEnabled (oslogin_descriptor false) = false) by (vm_compute; reflexivity).
  pose proof (enable_disable_restores no_faults_at working_ok _ _ example_host _ _ _ _ Hon Hoff example_ready) as Hw.
  cbv zeta in Hw. eapply wp_mono; [exact Hw|]. clear Hw.
  intros r s1 (Hr & _ & _ & Hw2). split; [exact Hr|]. eapply wp_mono; [exact Hw2|].
  intros r' s2 [_ H2]. etrans; [apply H2; left|vm_compute; reflexivity].
Defined.

End OsLoginFiles.
