(* ===== verification/Plugin.v ===== *)
(** * internal/plugin/manager: one plugin

    plugin.go: the plugin with its runtime information and manifest, its paths,
    state, RPCs, persistence and configuration hash.  The methods run on
    [pst]: the receiver together with the environment [env] (file system, the
    events sent to the control plane, a clock of external calls).  Everything
    outside the repository (gRPC, processes, HTTP, hashing, gob and protobuf
    encodings) is the class [World]: the answer to the [n]-th external call. *)
From S2P Require Import Prelude GoStrings Os Retry BoundedList.

Local Open Scope Z_scope.

Module Plugin.

(** ** Enumerations of the ACS protocol *)
Inductive StatusValue :=
| STATE_VALUE_UNSPECIFIED | STARTING | RUNNING | STOPPING | STOPPED | CRASHED
| INSTALLING | INSTALL_FAILED | EXECUTION_COMPLETED | EXECUTION_FAILED.

Inductive PluginEventType :=
| PLUGIN_CONFIG_INSTALL | PLUGIN_CONFIG_REMOVE | PLUGIN_INSTALLED | PLUGIN_STARTED
| PLUGIN_REMOVED | PLUGIN_STOPPED | PLUGIN_CRASHED | PLUGIN_INSTALL_FAILED
| PLUGIN_START_FAILED | PLUGIN_REMOVE_FAILED | PLUGIN_CONFIG_APPLY | PLUGIN_CONFIG_APPLIED
| PLUGIN_CONFIG_APPLY_FAILED.

Inductive PluginType_ := PLUGIN_TYPE_UNSPECIFIED | DAEMON | ONE_SHOT.
Inductive InstallationType := DYNAMIC_INSTALLATION | LOCAL_INSTALLATION.

#[global] Instance StatusValue_eq_dec : EqDecision StatusValue.
Proof. solve_decision. Defined.
#[global] Instance PluginEventType_eq_dec : EqDecision PluginEventType.
Proof. solve_decision. Defined.
#[global] Instance PluginType_eq_dec : EqDecision PluginType_.
Proof. solve_decision. Defined.
#[global] Instance InstallationType_eq_dec : EqDecision InstallationType.
Proof. solve_decision. Defined.

(** ** The plugin *)
Record ServiceConfig := mkServiceConfig { Simple : string; Structured : string }.

Record Manifest := mkManifest {
  StartAttempts : Z;
  MaxMemoryUsage : Z;
  MaxCPUUsage : Z;
  MaxMetricDatapoints : Z;
  MetricsInterval : Z;
  StopTimeout : Z;
  StartTimeout : Z;
  StartConfig : option ServiceConfig;
  startConfigHash : string;
  LaunchArguments : list string;
  PluginType : PluginType_;
  PluginInstallationType : InstallationType;
}.

Record pendingPluginStatus := mkPending {
  pending_revision : string;
  pending_state : StatusValue;
}.

Record healthCheck := mkHealth {
  responseCode : Z;
  messages : list string;
  timestamp : Z;
}.

Record Metric := mkMetric {
  metric_time : Z;
  memoryUsage : Z;
  cpuUsage : Z;
}.

Definition zero_Metric : Metric := mkMetric 0 0 0.

Record RuntimeInfo := mkRuntimeInfo {
  status : StatusValue;
  health : option healthCheck;
  metrics : BoundedList.List Metric;
  Pid : Z;
  pendingStatus_ : option pendingPluginStatus;
}.

Record Plugin := mkPlugin {
  Name : string;
  Revision : string;
  Address : string;
  InstallPath : string;
  EntryPath : string;
  Protocol : string;
  (** The address [client] is connected to, [None] for a nil client. *)
  client : option string;
  manifest : Manifest;
  runtime : RuntimeInfo;
}.

(** Field assignments. *)
Definition with_manifest (f : Manifest → Manifest) (p : Plugin) : Plugin :=
  mkPlugin (Name p) (Revision p) (Address p) (InstallPath p) (EntryPath p) (Protocol p)
    (client p) (f (manifest p)) (runtime p).
Definition with_runtime (f : RuntimeInfo → RuntimeInfo) (p : Plugin) : Plugin :=
  mkPlugin (Name p) (Revision p) (Address p) (InstallPath p) (EntryPath p) (Protocol p)
    (client p) (manifest p) (f (runtime p)).
Definition set_client (c : option string) (p : Plugin) : Plugin :=
  mkPlugin (Name p) (Revision p) (Address p) (InstallPath p) (EntryPath p) (Protocol p)
    c (manifest p) (runtime p).
Definition set_Address (a : string) (p : Plugin) : Plugin :=
  mkPlugin (Name p) (Revision p) a (InstallPath p) (EntryPath p) (Protocol p)
    (client p) (manifest p) (runtime p).
Definition set_InstallPath (a : string) (p : Plugin) : Plugin :=
  mkPlugin (Name p) (Revision p) (Address p) a (EntryPath p) (Protocol p)
    (client p) (manifest p) (runtime p).
Definition set_EntryPath (a : string) (p : Plugin) : Plugin :=
  mkPlugin (Name p) (Revision p) (Address p) (InstallPath p) a (Protocol p)
    (client p) (manifest p) (runtime p).
Definition set_Protocol (a : string) (p : Plugin) : Plugin :=
  mkPlugin (Name p) (Revision p) (Address p) (InstallPath p) (EntryPath p) a
    (client p) (manifest p) (runtime p).
Definition set_StartConfig (c : option ServiceConfig) (m : Manifest) : Manifest :=
  mkManifest (StartAttempts m) (MaxMemoryUsage m) (MaxCPUUsage m) (MaxMetricDatapoints m)
    (MetricsInterval m) (StopTimeout m) (StartTimeout m) c (startConfigHash m)
    (LaunchArguments m) (PluginType m) (PluginInstallationType m).
Definition set_startConfigHash (h : string) (m : Manifest) : Manifest :=
  mkManifest (StartAttempts m) (MaxMemoryUsage m) (MaxCPUUsage m) (MaxMetricDatapoints m)
    (MetricsInterval m) (StopTimeout m) (StartTimeout m) (StartConfig m) h
    (LaunchArguments m) (PluginType m) (PluginInstallationType m).
Definition set_launch_options (attempts mem cpu : Z) (args : list string) (m : Manifest) : Manifest :=
  mkManifest attempts mem cpu (MaxMetricDatapoints m)
    (MetricsInterval m) (StopTimeout m) (StartTimeout m) (StartConfig m) (startConfigHash m)
    args (PluginType m) (PluginInstallationType m).
Definition set_metric_options (points interval : Z) (m : Manifest) : Manifest :=
  mkManifest (StartAttempts m) (MaxMemoryUsage m) (MaxCPUUsage m) points
    interval (StopTimeout m) (StartTimeout m) (StartConfig m) (startConfigHash m)
    (LaunchArguments m) (PluginType m) (PluginInstallationType m).
Definition set_types (t : PluginType_) (i : InstallationType) (m : Manifest) : Manifest :=
  mkManifest (StartAttempts m) (MaxMemoryUsage m) (MaxCPUUsage m) (MaxMetricDatapoints m)
    (MetricsInterval m) (StopTimeout m) (StartTimeout m) (StartConfig m) (startConfigHash m)
    (LaunchArguments m) t i.
Definition set_status (s : StatusValue) (r : RuntimeInfo) : RuntimeInfo :=
  mkRuntimeInfo s (health r) (metrics r) (Pid r) (pendingStatus_ r).
Definition set_health (h : option healthCheck) (r : RuntimeInfo) : RuntimeInfo :=
  mkRuntimeInfo (status r) h (metrics r) (Pid r) (pendingStatus_ r).
Definition set_metrics (l : BoundedList.List Metric) (r : RuntimeInfo) : RuntimeInfo :=
  mkRuntimeInfo (status r) (health r) l (Pid r) (pendingStatus_ r).
Definition set_Pid (pid : Z) (r : RuntimeInfo) : RuntimeInfo :=
  mkRuntimeInfo (status r) (health r) (metrics r) pid (pendingStatus_ r).
Definition set_pending (s : option pendingPluginStatus) (r : RuntimeInfo) : RuntimeInfo :=
  mkRuntimeInfo (status r) (health r) (metrics r) (Pid r) s.

Definition IsDaemon (p : Plugin) : bool := bool_decide (PluginType (manifest p) = DAEMON).
Definition IsOneShot (p : Plugin) : bool := bool_decide (PluginType (manifest p) = ONE_SHOT).
Definition IsLocal (p : Plugin) : bool :=
  bool_decide (PluginInstallationType (manifest p) = LOCAL_INSTALLATION).
Definition IsDynamic (p : Plugin) : bool :=
  bool_decide (PluginInstallationType (manifest p) = DYNAMIC_INSTALLATION).

Definition FullName (p : Plugin) : string := Name p +:+ "_" +:+ Revision p.
Definition State (p : Plugin) : StatusValue := status (runtime p).
Definition pid (p : Plugin) : Z := Pid (runtime p).
Definition healthInfo (p : Plugin) : option healthCheck := health (runtime p).
Definition pendingStatus (p : Plugin) : option pendingPluginStatus := pendingStatus_ (runtime p).

(** ** Configuration and the outside world *)

(** The values [cfg.Retrieve()] holds. *)
Class Config := {
  StateDir : string;
  SocketConnectionsDir : string;
  LocalPluginDir : string;
  ConnectionType : string;
  EnableLocalPlugins : bool;
  Version : string;
  (** [os.TempDir()]. *)
  TempDir : string;
}.

Inductive service_config := StringConfig (s : string) | StructConfig (s : string).

Inductive rpc_request :=
| StartRequest (StateDirectoryPath : string) (cfg : option service_config)
| StopRequest (Cleanup RemoveState : bool) (Deadline : Z)
| ApplyRequest (cfg : option service_config)
| GetStatusRequest (data : option string).

(** The [Status] message plugins answer [GetStatus] with. *)
Record rpc_status := mkRpcStatus { Code : Z; Results : list string }.

Inductive ExecMode := ExecModeDetach | ExecModeAsync.
Inductive KillMode := KillModeWait | KillModeNoWait.

(** The answers of the outside world to the [n]-th external call. *)
Class World := {
  ctx_Err : nat → option error;
  ctx_wait : nat → Z → option error;
  time_Now : nat → Z;
  rpc_call : nat → string → Z → rpc_request → result rpc_status;
  grpc_NewClient : nat → string → option error;
  net_Listen : nat → result string;
  run_WithContext : nat → string → list string → ExecMode → result Z;
  ps_FindPid : nat → Z → result string;
  ps_KillProcess : nat → Z → KillMode → option error;
  ps_CPUUsage : nat → Z → Z * option error;
  ps_Memory : nat → Z → Z * option error;
  resource_Apply : nat → Z → string → Z → Z → option error;
  resource_RemoveConstraint : nat → string → option error;
  http_Get : nat → string → Z → result (Z * string * option error);
  sha256_hex : string → string;
  gob_Encode : Plugin → result string;
  gob_Decode : string → result Plugin;
  struct_Marshal : string → result string;
  struct_Unmarshal : string → result string;
}.

Record EventDetail := mkDetail { text : string; cause : option error; logs : string }.

Record Event := mkEvent {
  PluginName : string;
  RevisionId : string;
  EventType : PluginEventType;
  EventDetails : EventDetail;
}.

Record env := mkEnv {
  env_fs : fs;
  instanceID : string;
  (** Events handed to [client.Notify], the latest last. *)
  events : list Event;
  clock : nat;
}.

Record pst := mkPst { self : Plugin; penv : env }.

Definition set_env_fs (f : fs) (e : env) : env := mkEnv f (instanceID e) (events e) (clock e).

#[global] Instance env_HasFS : HasFS env := {| fs_of := env_fs; set_fs := set_env_fs |}.
#[global] Instance env_LawfulFS : LawfulFS env.
Proof. split; [done|done|by intros []]. Qed.

#[global] Instance pst_HasFS : HasFS pst :=
  {| fs_of := λ s, env_fs (penv s); set_fs := λ f s, mkPst (self s) (set_env_fs f (penv s)) |}.
#[global] Instance pst_LawfulFS : LawfulFS pst.
Proof. split; [done|done|by intros [? []]]. Qed.

(** One external call of the environment: it takes a tick. *)
Definition env_ext {A} (f : nat → A) : M env A :=
  λ e, Some (mkEnv (env_fs e) (instanceID e) (events e) (S (clock e)), f (clock e)).

(** [sendEvent]: the notification goroutine only talks to the network. *)
Definition send_event (name revision : string) (ty : PluginEventType) (d : EventDetail) : M env unit :=
  modify (λ e, mkEnv (env_fs e) (instanceID e) (events e ++ [mkEvent name revision ty d]) (clock e)).

(** Running on the receiver's environment. *)
Definition on_env {A} (m : M env A) : M pst A := λ s,
  match m (penv s) with
  | Some (e, a) => Some (mkPst (self s) e, a)
  | None => None
  end.

Definition ext {A} (f : nat → A) : M pst A := on_env (env_ext f).
Definition set_self (f : Plugin → Plugin) : M pst unit := modify (λ s, mkPst (f (self s)) (penv s)).
Definition this {A} (f : Plugin → A) : M pst A := gets (λ s, f (self s)).

Definition detail (s : string) : EventDetail := mkDetail s None "".
Definition detail_err (s : string) (e : error) : EventDetail := mkDetail s (Some e) "".

Definition sendEvent (ty : PluginEventType) (d : EventDetail) : M pst unit :=
  s ← get; on_env (send_event (Name (self s)) (Revision (self s)) ty d).

Definition setState (st : StatusValue) : M pst unit := set_self (with_runtime (set_status st)).
Definition setPid (n : Z) : M pst unit := set_self (with_runtime (set_Pid n)).
Definition setHealthInfo (h : healthCheck) : M pst unit :=
  set_self (with_runtime (set_health (Some h))).
Definition resetPendingStatus : M pst unit := set_self (with_runtime (set_pending None)).
Definition setPendingStatus (revision : string) (st : StatusValue) : M pst unit :=
  set_self (with_runtime (set_pending (Some (mkPending revision st)))).

(** ** Paths *)
Section paths.
Context `{Config}.

Definition agentStateDir : string := "agent_state".
Definition pluginInfoDir : string := "plugin_info".
Definition pluginInstallDir : string := "plugins".

Definition baseState (e : env) : string := path_Join [Clean StateDir; instanceID e].
Definition agentPluginState (e : env) : string :=
  path_Join [baseState e; agentStateDir; pluginInfoDir].
Definition pluginInstallPath (e : env) (name revision : string) : string :=
  path_Join [baseState e; pluginInstallDir; name +:+ "_" +:+ revision].
Definition stateFile (e : env) (p : Plugin) : string :=
  path_Join [agentPluginState e; Name p +:+ ".gob"].
Definition stateDir (e : env) (p : Plugin) : string :=
  path_Join [baseState e; agentStateDir; pluginInstallDir; Name p].
Definition logfile (e : env) (p : Plugin) : string := path_Join [stateDir e p; "plugin.log"].
Definition staticInstallPath (e : env) (p : Plugin) : string :=
  path_Join [baseState e; pluginInstallDir; Name p].
End paths.

Definition udsProtocol : string := "unix".
Definition tcpProtocol : string := "tcp".

Definition connectAddress (p : Plugin) : string :=
  if bool_decide (Protocol p = tcpProtocol) then Address p
  else udsProtocol +:+ ":" +:+ Address p.

(** ** RPCs *)

(** [status.Convert]: the gRPC status an error chain carries, or code
    [Unknown]. *)
Fixpoint grpc_code (e : error) : option Z :=
  match e with
  | ErrStatus c _ => Some c
  | ErrWrap _ i => grpc_code i
  | _ => None
  end.

Definition codes_Unknown : Z := 2.
Definition codes_Unimplemented : Z := 12.

Definition status_Code (e : error) : Z := default codes_Unknown (grpc_code e).

Definition defaultApplyRPCTimeout : Z := 5 * Second.
Definition defaultStatusRPCTimeout : Z := 2 * Second.

Section methods.
Context `{Config} `{World} `{OsFaults}.
(** Fuel for the retry loops: enough whenever it is at least the number of
    attempts the policy allows. *)
Context (fuel : nat).

(** A retry loop in this state; out of fuel there is no outcome. *)
Definition retry_wait (d : Z) : M pst (option error) := ext (λ n, ctx_wait n d).

Definition retry_Run (policy : Retry.Policy) (f : M pst (option error)) : M pst (option error) :=
  r ← Retry.Run retry_wait fuel policy (Some f); some_or_panic r.

Definition retry_RunWithResponse {T} (zero : T) (policy : Retry.Policy) (f : M pst (T * option error))
    : M pst (T * option error) :=
  r ← Retry.RunWithResponse zero retry_wait fuel policy (Some f); some_or_panic r.

Definition toProto (c : ServiceConfig) : result string :=
  match struct_Unmarshal (Structured c) with
  | Ok s => Ok s
  | Err e => Err (ErrWrap "unable to unmarshal struct config bytes" e)
  end.

Definition service_config_of (c : option ServiceConfig) : result (option service_config) :=
  match c with
  | None => Ok None
  | Some c =>
      if negb (bool_decide (Simple c = "")) then Ok (Some (StringConfig (Simple c)))
      else if negb (bool_decide (Structured c = "")) then
        match toProto c with
        | Ok s => Ok (Some (StructConfig s))
        | Err e => Err e
        end
      else Ok None
  end.

Definition buildStartRequest : M pst (result rpc_request) :=
  s ← get;
  mret (match service_config_of (StartConfig (manifest (self s))) with
        | Ok c => Ok (StartRequest (stateDir (penv s) (self s)) c)
        | Err e => Err (ErrWrap "unable to generate start request" e)
        end).

Definition buildApplyRequest (c : option ServiceConfig) : result rpc_request :=
  match service_config_of c with
  | Ok c => Ok (ApplyRequest c)
  | Err e => Err (ErrWrap "unable to generate apply request" e)
  end.

(** The client to call, or the not-connected error. *)
Definition PluginService : M pst (result string) :=
  c ← this client;
  mret (match c with Some a => Ok a | None => Err (ErrMsg "plugin is not connected") end).

Definition Start : M pst (option error) :=
  svc ← PluginService;
  match svc with
  | Err e => mret (Some (ErrWrap "cannot call start on plugin" e))
  | Ok addr =>
      m ← this manifest;
      let policy := Retry.mkPolicy (StartAttempts m) (float_of_Z 1) Second None 0 in
      req ← buildStartRequest;
      match req with
      | Err e => mret (Some e)
      | Ok req =>
          r ← retry_Run policy
                (r ← ext (λ n, rpc_call n addr (StartTimeout m) req);
                 mret (match r with Ok _ => None | Err e => Some e end));
          mret r
      end
  end.

Definition Stop (cleanup removeState : bool) : M pst (option error) :=
  svc ← PluginService;
  match svc with
  | Err e => mret (Some (ErrWrap "cannot call stop on plugin" e))
  | Ok addr =>
      m ← this manifest;
      let req := StopRequest cleanup removeState (int64_of_float (Seconds (StopTimeout m))) in
      r ← ext (λ n, rpc_call n addr (StopTimeout m) req);
      mret (match r with Ok _ => None | Err e => Some e end)
  end.

Definition Apply (c : option ServiceConfig) : M pst (option error) :=
  match buildApplyRequest c with
  | Err e => mret (Some e)
  | Ok req =>
      svc ← PluginService;
      match svc with
      | Err e => mret (Some (ErrWrap "cannot call apply on plugin" e))
      | Ok addr =>
          r ← ext (λ n, rpc_call n addr defaultApplyRPCTimeout req);
          mret (match r with Ok _ => None | Err e => Some e end)
      end
  end.

Definition GetStatus (req : string) : M pst (result rpc_status) :=
  svc ← PluginService;
  match svc with
  | Err e => mret (Err (ErrWrap "cannot call get status on plugin" e))
  | Ok addr =>
      let data := if bool_decide (req = "") then None else Some req in
      ext (λ n, rpc_call n addr defaultStatusRPCTimeout (GetStatusRequest data))
  end.

(** A previous connection is closed first. *)
Definition Connect : M pst (option error) :=
  _ ← set_self (set_client None);
  addr ← this connectAddress;
  e ← ext (λ n, grpc_NewClient n addr);
  match e with
  | Some e => mret (Some (ErrWrap "failed to dial" e))
  | None => _ ← set_self (set_client (Some addr)); mret None
  end.

Definition IsRunning : M pst bool :=
  e ← Connect;
  match e with
  | Some _ => mret false
  | None =>
      r ← GetStatus "";
      mret (is_ok r)
  end.

(** [Store]: the write of the state file truncates it first. *)
Definition Store : M pst (option error) :=
  s ← get;
  let fname := stateFile (penv s) (self s) in
  e ← os_MkdirAll (Dir fname);
  match e with
  | Some e => mret (Some (ErrWrap "unable to create directory" e))
  | None =>
      match gob_Encode (self s) with
      | Err e => mret (Some (ErrWrap "unable to encode plugin" e))
      | Ok b =>
          e ← os_WriteFile fname b;
          match e with
          | Some e => mret (Some (ErrWrap "write plugin info" e))
          | None => mret None
          end
      end
  end.

(** The hash of the start configuration, computed once and cached. *)
Definition config_data (c : ServiceConfig) : option string :=
  if negb (bool_decide (Simple c = "")) then Some (Simple c)
  else if negb (bool_decide (Structured c = "")) then Some (Structured c)
  else None.

Definition configHash : M pst string :=
  m ← this manifest;
  if negb (bool_decide (startConfigHash m = "")) || bool_decide (StartConfig m = None)
  then mret (startConfigHash m)
  else
    match config_data (default (mkServiceConfig "" "") (StartConfig m)) with
    | None => mret ""
    | Some data =>
        _ ← set_self (with_manifest (set_startConfigHash (sha256_hex data)));
        mret (sha256_hex data)
    end.

(** [/proc/<pid>/exe] of a replaced binary ends in [(deleted)]. *)
Definition isSameExecutablePath (p : Plugin) (executable : string) : bool :=
  bool_decide (EntryPath p = TrimSuffix executable " (deleted)").

End methods.

End Plugin.
