(* ===== verification/PluginSteps.v ===== *)
(** * internal/plugin/manager: the steps run on a plugin

    pluginengine.go, pluginlauncher.go, plugindisabler.go, the health monitor
    of pluginmonitor.go and the collector of pluginmetrics.go: the four
    [Step] implementations, [runSteps], the workflows and [connectOrReLaunch],
    in the order the code calls them, on the receiver's state [pst]. *)
From S2P Require Import Prelude GoStrings Os Retry BoundedList FileUtil Plugin.

Local Open Scope Z_scope.

Module PluginSteps.
Import Plugin.

(** ** The step objects *)
Record downloadStep := mkDownload {
  url : string;
  targetPath : string;
  checksum : string;
  attempts : Z;
  timeout : Z;
}.

Record unpackStep := mkUnpack { archivePath : string; targetDir : string }.

Record launchStep := mkLaunch {
  entryPath : string;
  maxMemoryUsage : Z;
  maxCPUUsage : Z;
  startAttempts : Z;
  protocol : string;
  extraArgs : list string;
}.

Record stopStep := mkStop { cleanup_ : bool; removeState : bool }.

Inductive Step :=
| Download (d : downloadStep)
| Unpack (u : unpackStep)
| Launch (l : launchStep)
| StopStep (ss : stopStep).

Definition step_Name (s : Step) : string :=
  match s with
  | Download _ => "DownloadPluginStep"
  | Unpack _ => "UnpackPluginArchiveStep"
  | Launch _ => "LaunchPluginStep"
  | StopStep _ => "StopPluginStep"
  end.

Definition step_Status (s : Step) : StatusValue :=
  match s with
  | Download _ | Unpack _ => INSTALLING
  | Launch _ => STARTING
  | StopStep _ => STOPPING
  end.

Definition step_ErrorStatus (s : Step) : StatusValue :=
  match s with
  | Download _ | Unpack _ => INSTALL_FAILED
  | Launch _ => CRASHED
  | StopStep _ => STATE_VALUE_UNSPECIFIED
  end.

Definition ECHILD : string := "no child processes".
Definition is_ECHILD (e : error) : bool :=
  errors_Is (λ e, match e with ErrMsg m => bool_decide (m = ECHILD) | _ => false end) e.

Definition numOfLines : Z := 30.
Definition defaultConnectTimeoutTries : Z := 15.

Section steps.
Context `{Config} `{World} `{OsFaults} `{FileUtil.Archives}.
Context (fuel : nat).

(** ** Download and unpack *)
Definition download_attempt (d : downloadStep) : M pst (option error) :=
  resp ← ext (λ n, http_Get n (url d) (timeout d));
  match resp with
  | Err e => mret (Some (ErrWrap "failed to download" e))
  | Ok (StatusCode, body, copy_err) =>
      if negb (StatusCode =? 200) then mret (Some (ErrMsg "failed to download, bad status"))
      else
        e ← os_MkdirAll (Dir (targetPath d));
        match e with
        | Some e => mret (Some (ErrWrap "failed to create directory" e))
        | None =>
            e ← os_WriteFile (targetPath d) body;
            match e, copy_err with
            | Some e, _ => mret (Some (ErrWrap "unable to create file" e))
            | None, Some e => mret (Some (ErrWrap "unable to copy response body to file" e))
            | None, None =>
                calculated ← os_ReadFile (targetPath d);
                match calculated with
                | Err e => mret (Some (ErrWrap "failed to calculate sha256sum" e))
                | Ok data =>
                    if negb (bool_decide (sha256_hex data = checksum d))
                    then mret (Some (ErrMsg "file has different sha256sum"))
                    else mret None
                end
            end
        end
  end.

Definition download_Run (d : downloadStep) : M pst (option error) :=
  let policy := Retry.mkPolicy (attempts d) (float_of_Z 1) (2 * Second) None 0 in
  retry_Run fuel policy (download_attempt d).

Definition unpack_Run (u : unpackStep) : M pst (option error) :=
  e ← os_RemoveAll (targetDir u);
  match e with
  | Some e => mret (Some (ErrWrap "failed to cleanup" e))
  | None =>
      e ← FileUtil.UnpackTargzFile (archivePath u) (targetDir u);
      match e with
      | Some e => mret (Some (ErrWrap "failed to unpack" e))
      | None =>
          e ← os_RemoveAll (archivePath u);
          match e with
          | Some e => mret (Some (ErrWrap "failed to remove" e))
          | None => _ ← set_self (set_InstallPath (targetDir u)); mret None
          end
      end
  end.

(** ** Launch *)
Definition connectionsPath : string := Clean SocketConnectionsDir.

Definition connectionSetup (addr : string) : M pst (option error) :=
  e ← os_MkdirAll (Dir addr);
  match e with
  | Some e => mret (Some (ErrWrap "create connections directory" e))
  | None =>
      if Contains addr TempDir && Contains addr "Test" then mret None
      else
        x ← Exists addr TypeFile;
        if (x : bool) then
          e ← os_RemoveAll addr;
          match e with
          | Some e => mret (Some (ErrFmt "failed to remove socket address file" e))
          | None => mret None
          end
        else mret None
  end.

Definition address (proto id : string) (policy : Retry.Policy) : M pst (string * option error) :=
  if bool_decide (proto = udsProtocol) then
    let addr := path_Join [connectionsPath; id +:+ ".sock"] in
    e ← connectionSetup addr;
    match e with
    | Some e => mret ("", Some (ErrWrap "failed to setup socket connections directory" e))
    | None => mret (addr, None)
    end
  else
    retry_RunWithResponse fuel "" policy
      (r ← ext net_Listen;
       mret (match r with
             | Ok addr => (addr, None)
             | Err e => ("", Some (ErrWrap "failed to get new TCP listener" e))
             end)).

Definition readPluginLogs (path : string) : M pst string :=
  r ← FileUtil.ReadLastNLines path numOfLines;
  match r with
  | Err _ => mret ""
  | Ok errLogs =>
      _ ← os_Truncate path;
      mret (Join errLogs (String nl ""))
  end.

Definition launchPlugin (proto : string) (policy : Retry.Policy) : M pst (option error) :=
  s ← get;
  let p := self s in
  let args := LaunchArguments (manifest p) ++
    ["--protocol=" +:+ proto; "--address=" +:+ Address p; "--errorlogfile=" +:+ logfile (penv s) p] in
  let mode := if IsLocal p then ExecModeAsync else ExecModeDetach in
  e ← retry_Run fuel policy
        (r ← ext (λ n, run_WithContext n (EntryPath p) args mode);
         match r with
         | Err e => mret (Some (ErrWrap "failed to launch plugin" e))
         | Ok pid => _ ← setPid pid; mret None
         end);
  match e with
  | Some e =>
      logs ← readPluginLogs (logfile (penv s) p);
      _ ← sendEvent PLUGIN_START_FAILED (mkDetail "Failed to launch plugin" (Some e) logs);
      _ ← setState CRASHED;
      mret (Some e)
  | None => mret None
  end.

(** Waiting for the socket; if it never appears, kill and relaunch over TCP. *)
Definition verify_socket (policy : Retry.Policy) : M pst (option error) :=
  proto ← this Protocol;
  if bool_decide (proto = udsProtocol) then
    addr ← this Address;
    pluginPid ← this pid;
    let socketPolicy := Retry.mkPolicy defaultConnectTimeoutTries (float_of_Z 1) Second None 0 in
    e ← retry_Run fuel socketPolicy
          (x ← Exists addr TypeFile;
           mret (if (x : bool) then None else Some (ErrMsg "socket does not exist for plugin")));
    match e with
    | None => mret None
    | Some _ =>
        _ ← ext (λ n, ps_KillProcess n pluginPid KillModeWait);
        id ← this FullName;
        '(addr, e) ← address tcpProtocol id policy;
        match e with
        | Some e => mret (Some (ErrWrap "failed to get TCP address" e))
        | None =>
            _ ← set_self (set_Address addr);
            _ ← set_self (set_Protocol tcpProtocol);
            launchPlugin tcpProtocol policy
        end
    end
  else mret None.

(** The last part of the launch: limits, connection, [Start] and storing. *)
Definition start_launched (policy : Retry.Policy) : M pst (option error) :=
  s ← get;
  let p := self s in
  e ← retry_Run fuel policy
        (ext (λ n, resource_Apply n (pid p) (FullName p) (MaxMemoryUsage (manifest p))
                     (MaxCPUUsage (manifest p))));
  match e with
  | Some e =>
      _ ← sendEvent PLUGIN_START_FAILED (detail_err "Failed to apply resource constraint" e);
      _ ← setState CRASHED;
      mret (Some e)
  | None =>
      e ← Connect;
      match e with
      | Some e => _ ← setState CRASHED; mret (Some (ErrWrap "failed to connect plugin" e))
      | None =>
          e ← Start fuel;
          match e with
          | Some e =>
              logs ← readPluginLogs (logfile (penv s) p);
              _ ← sendEvent PLUGIN_START_FAILED (mkDetail "Failed to start plugin" (Some e) logs);
              _ ← setState CRASHED;
              mret (Some (ErrWrap "failed to start plugin" e))
          | None =>
              _ ← sendEvent PLUGIN_STARTED (detail "Successfully started the plugin.");
              _ ← setState RUNNING;
              loc ← this IsLocal;
              if negb loc then
                e ← Store;
                match e with
                | Some e => mret (Some (ErrWrap "store plugin info failed" e))
                | None => mret None
                end
              else mret None
          end
      end
  end.

Definition launch_Run (l : launchStep) : M pst (option error) :=
  let policy := Retry.mkPolicy (startAttempts l) (float_of_Z 1) Second None 0 in
  id ← this FullName;
  '(addr, e) ← address (protocol l) id policy;
  match e with
  | Some e => mret (Some (ErrWrap "failed to get address" e))
  | None =>
      _ ← set_self (set_Address addr);
      _ ← set_self (with_manifest
            (set_launch_options (startAttempts l) (maxMemoryUsage l) (maxCPUUsage l) (extraArgs l)));
      _ ← set_self (set_EntryPath (entryPath l));
      _ ← set_self (set_Protocol (protocol l));
      s ← get;
      let p := self s in
      e ← os_MkdirAll (stateDir (penv s) p);
      match e with
      | Some e => mret (Some (ErrWrap "create state directory" e))
      | None =>
          e ← (if negb (IsLocal p) then UpdateSymlink (staticInstallPath (penv s) p) (InstallPath p)
               else mret None);
          match e with
          | Some e => mret (Some (ErrWrap "UpdateSymlink failed" e))
          | None =>
              e ← launchPlugin (protocol l) policy;
              match e with
              | Some e => mret (Some e)
              | None =>
                  e ← verify_socket policy;
                  match e with
                  | Some e => mret (Some e)
                  | None => start_launched policy
                  end
              end
          end
      end
  end.

(** ** Stop *)

(** [os.RemoveAll("")] does nothing. *)
Definition remove_all (path : string) : M pst (option error) :=
  if bool_decide (path = "") then mret None else os_RemoveAll path.

Definition cleanup : M pst (option error) :=
  s ← get;
  let p := self s in
  e1 ← ext (λ n, resource_RemoveConstraint n (FullName p));
  e2 ← (if negb (IsLocal p) then remove_all (InstallPath p) else mret None);
  e3 ← (if bool_decide (Protocol p = udsProtocol) then remove_all (Address p) else mret None);
  e4 ← remove_all (stateFile (penv s) p);
  _ ← set_self (set_Address "");
  mret (errors_Join
    [ErrWrap "resource constraint removal failed" <$> e1;
     ErrWrap "plugin install path removal failed with error" <$> e2;
     ErrWrap "plugin socket file removal failed with error" <$> e3;
     ErrWrap "plugin state removal failed with error" <$> e4]).

Definition stopPlugin (ss : stopStep) : M pst (option error) :=
  p ← this id;
  proc ← ext (λ n, ps_FindPid n (pid p));
  match proc with
  | Err e => mret (Some (ErrWrap "plugin process not found" e))
  | Ok exe =>
      if negb (isSameExecutablePath p exe) then mret None
      else
        _ ← Stop (cleanup_ ss) (removeState ss);
        e ← ext (λ n, ps_KillProcess n (pid p) KillModeWait);
        match e with
        | Some e =>
            if is_ECHILD e then
              _ ← sendEvent PLUGIN_STOPPED (detail "Successfully stopped the plugin."); mret None
            else mret (Some (ErrFmt "kill plugin process completed with error" e))
        | None =>
            _ ← sendEvent PLUGIN_STOPPED (detail "Successfully stopped the plugin."); mret None
        end
  end.

Definition stop_Run (ss : stopStep) : M pst (option error) :=
  _ ← stopPlugin ss;
  _ ← set_self (set_client None);
  _ ← setState STOPPED;
  _ ← setPid 0;
  _ ← (if cleanup_ ss then (_ ← cleanup; mret tt) else mret tt);
  mret None.

Definition step_Run (st : Step) : M pst (option error) :=
  match st with
  | Download d => download_Run d
  | Unpack u => unpack_Run u
  | Launch l => launch_Run l
  | StopStep ss => stop_Run ss
  end.

(** ** Running steps *)
Fixpoint runSteps (steps : list Step) : M pst (option error) :=
  match steps with
  | [] => mret None
  | st :: rest =>
      _ ← setState (step_Status st);
      c ← ext ctx_Err;
      match c with
      | Some e =>
          _ ← setState (step_ErrorStatus st);
          mret (Some (ErrWrap (step_Name st +:+ " failed, context error") e))
      | None =>
          e ← step_Run st;
          match e with
          | Some e =>
              _ ← setState (step_ErrorStatus st);
              mret (Some (ErrWrap (step_Name st +:+ " failed with error") e))
          | None => runSteps rest
          end
      end
  end.

Definition relaunchWorkflow (p : Plugin) : list Step :=
  [StopStep (mkStop false false);
   Launch (mkLaunch (EntryPath p) (MaxMemoryUsage (manifest p)) (MaxCPUUsage (manifest p))
             (StartAttempts (manifest p)) (Protocol p) (LaunchArguments (manifest p)))].

#[global] Arguments relaunchWorkflow : simpl never.

Definition connectOrReLaunch : M pst (option error) :=
  r ← IsRunning;
  if (r : bool) then _ ← setState RUNNING; mret None
  else
    p ← this id;
    e ← runSteps (relaunchWorkflow p);
    match e with
    | Some e =>
        _ ← setState CRASHED;
        mret (Some (ErrWrap "failed to relaunch plugin" e))
    | None => mret None
    end.

(** ** The monitors scheduled for a running plugin *)
Definition monitor_ID (p : Plugin) : string := "plugin_" +:+ FullName p +:+ "_monitor".
Definition metrics_ID (p : Plugin) : string := FullName p +:+ "-metrics".

Definition healthCheck_ : M pst (option rpc_status) :=
  st ← this State;
  if bool_decide (st = STOPPING ∨ st = STOPPED) then mret None
  else
    r ← GetStatus "";
    match r with
    | Ok s => mret (Some s)
    | Err e =>
        s ← get;
        logs ← readPluginLogs (logfile (penv s) (self s));
        _ ← sendEvent PLUGIN_CRASHED (mkDetail "Plugin health check failed" (Some e) logs);
        _ ← setState CRASHED;
        _ ← connectOrReLaunch;
        mret None
    end.

(** Both job bodies return whether to keep the job scheduled, and an error. *)
Definition monitor_Run : M pst (bool * option error) :=
  s ← healthCheck_;
  _ ← (match s with
       | Some s => t ← ext time_Now; setHealthInfo (mkHealth (Code s) (Results s) t)
       | None => mret tt
       end);
  mret (true, None).

Definition metrics_Run : M pst (bool * option error) :=
  p ← this id;
  if negb (bool_decide (State p = RUNNING)) then
    mret (true, Some (ErrMsg "plugin found in wrong state, skipping metric collection"))
  else if pid p =? 0 then
    mret (false, Some (ErrMsg "plugin is being stopped/removed, got pid 0"))
  else
    cpu ← ext (λ n, ps_CPUUsage n (pid p));
    mem ← ext (λ n, ps_Memory n (pid p));
    t ← ext time_Now;
    m ← this (λ p, metrics (runtime p));
    m' ← some_or_panic (BoundedList.Add m (mkMetric t mem.1 cpu.1));
    _ ← set_self (with_runtime (set_metrics m'));
    mret (true, None).

End steps.
End PluginSteps.
