(* ===== verification/PluginFacts.v ===== *)
(** * Facts about one plugin's methods and steps

    The frame of every operation of Plugin.v and PluginSteps.v (identity,
    instance, event history), its totality (no panic, no endless loop when the
    start attempts are positive and covered by the fuel), and the properties of
    the steps: what [runSteps] leaves behind, stopping never fails, a launch
    that succeeds is running, health checks leave a stopping plugin alone. *)
From S2P Require Import Prelude GoStrings Os Retry BoundedList FileUtil Plugin PluginSteps.

Local Open Scope Z_scope.

Module PluginFacts.
Import Plugin PluginSteps.

(** What no operation on a plugin changes. *)
Definition ident (x : Plugin) : string * string * InstallationType :=
  (Name x, Revision x, PluginInstallationType (manifest x)).

Definition pst_frame (s s' : pst) : Prop :=
  ident (self s') = ident (self s) ∧ instanceID (penv s') = instanceID (penv s) ∧
  events (penv s) `prefix_of` events (penv s').

#[global] Instance pst_frame_preorder : PreOrder pst_frame.
Proof.
  split; [by intros s|]. intros s1 s2 s3 (H1 & H2 & H3) (H4 & H5 & H6).
  split_and!; [congruence|congruence|by etrans].
Qed.

#[global] Instance pst_frame_fs : IgnoresFS pst_frame.
Proof. intros f s. by split_and!. Qed.

Section frames.
Context `{Config} `{World} `{OsFaults} `{FileUtil.Archives}.
Context (fuel : nat).

Lemma frame_set_self f : (∀ x, ident (f x) = ident x) → respects pst_frame (set_self f).
Proof. intros Hf. apply respects_modify. intros s. split_and!; simpl; [apply Hf|done|done]. Qed.

Lemma frame_ext {A} (f : nat → A) : respects pst_frame (ext f).
Proof. intros s s' a [= <- _]. by split_and!. Qed.

Lemma frame_sendEvent ty d : respects pst_frame (sendEvent ty d).
Proof. intros s s' a [= <- _]. split_and!; simpl; [done|done|by apply prefix_app_r]. Qed.

Lemma frame_this {A} (f : Plugin → A) : respects pst_frame (this f).
Proof. intros s s' a [= <- _]. by split_and!. Qed.

#[local] Hint Resolve frame_ext frame_sendEvent frame_this : respects.
#[local] Hint Extern 3 (respects pst_frame (set_self _)) => (by apply frame_set_self) : respects.
#[local] Hint Extern 3 (respects pst_frame (setState _)) => (by apply frame_set_self) : respects.
#[local] Hint Extern 3 (respects pst_frame (setPid _)) => (by apply frame_set_self) : respects.
#[local] Hint Extern 3 (respects pst_frame (setHealthInfo _)) => (by apply frame_set_self) : respects.
#[local] Hint Extern 3 (respects pst_frame resetPendingStatus) => (by apply frame_set_self) : respects.
#[local] Hint Extern 3 (respects pst_frame (setPendingStatus _ _)) => (by apply frame_set_self) : respects.

Lemma frame_retry_Run policy f : respects pst_frame f → respects pst_frame (retry_Run fuel policy f).
Proof.
  intros Hf. unfold retry_Run. respects_step; [|respects_solve].
  apply Retry.respects_Run; [typeclasses eauto|done|intros d; apply frame_ext].
Qed.

Lemma frame_retry_RunWithResponse {T} (z : T) policy f :
  respects pst_frame f → respects pst_frame (retry_RunWithResponse fuel z policy f).
Proof.
  intros Hf. unfold retry_RunWithResponse. respects_step; [|respects_solve].
  apply Retry.respects_RunWithResponse; [typeclasses eauto|done|intros d; apply frame_ext].
Qed.

Lemma frame_PluginService : respects pst_frame PluginService.
Proof. unfold PluginService. respects_solve. Qed.
#[local] Hint Resolve frame_PluginService : respects.
#[local] Hint Extern 3 (respects pst_frame (retry_Run _ _ _)) => (apply frame_retry_Run; respects_solve) : respects.
#[local] Hint Extern 3 (respects pst_frame (retry_RunWithResponse _ _ _ _)) =>
  (apply frame_retry_RunWithResponse; respects_solve) : respects.

Lemma frame_Start : respects pst_frame (Start fuel).
Proof.
  unfold Start, buildStartRequest. respects_solve.
Qed.
Lemma frame_Stop c r : respects pst_frame (Stop c r).
Proof. unfold Stop. respects_solve. Qed.
Lemma frame_Apply c : respects pst_frame (Apply c).
Proof. unfold Apply. respects_solve. Qed.
Lemma frame_GetStatus r : respects pst_frame (GetStatus r).
Proof. unfold GetStatus. respects_solve. Qed.
Lemma frame_Connect : respects pst_frame Connect.
Proof. unfold Connect. respects_solve. Qed.
Lemma frame_Store : respects pst_frame Store.
Proof. unfold Store. respects_solve. Qed.
Lemma frame_configHash : respects pst_frame configHash.
Proof. unfold configHash. respects_solve. Qed.
#[local] Hint Resolve frame_Start frame_Stop frame_Apply frame_GetStatus frame_Connect
  frame_Store frame_configHash : respects.
Lemma frame_IsRunning : respects pst_frame IsRunning.
Proof. unfold IsRunning. respects_solve. Qed.
#[local] Hint Resolve frame_IsRunning : respects.

Lemma frame_download d : respects pst_frame (download_Run fuel d).
Proof. unfold download_Run. apply frame_retry_Run. unfold download_attempt. respects_solve. Qed.
Lemma frame_unpack u : respects pst_frame (unpack_Run u).
Proof. unfold unpack_Run. respects_solve. Qed.
Lemma frame_address pr i policy : respects pst_frame (address fuel pr i policy).
Proof. unfold address, connectionSetup. respects_solve. Qed.
Lemma frame_readPluginLogs p : respects pst_frame (readPluginLogs p).
Proof. unfold readPluginLogs. respects_solve. Qed.
#[local] Hint Resolve frame_download frame_unpack frame_address frame_readPluginLogs : respects.
Lemma frame_launchPlugin pr policy : respects pst_frame (launchPlugin fuel pr policy).
Proof. unfold launchPlugin. respects_solve. Qed.
#[local] Hint Resolve frame_launchPlugin : respects.
Lemma frame_verify_socket policy : respects pst_frame (verify_socket fuel policy).
Proof. unfold verify_socket. respects_solve. Qed.
Lemma frame_start_launched policy : respects pst_frame (start_launched fuel policy).
Proof. unfold start_launched. respects_solve. Qed.
#[local] Hint Resolve frame_verify_socket frame_start_launched : respects.
Lemma frame_launch l : respects pst_frame (launch_Run fuel l).
Proof. unfold launch_Run. respects_solve. Qed.
Lemma frame_cleanup : respects pst_frame cleanup.
Proof. unfold cleanup, remove_all. respects_solve. Qed.
Lemma frame_stopPlugin ss : respects pst_frame (stopPlugin ss).
Proof. unfold stopPlugin. respects_solve. Qed.
#[local] Hint Resolve frame_launch frame_cleanup frame_stopPlugin : respects.
Lemma frame_stop ss : respects pst_frame (stop_Run ss).
Proof. unfold stop_Run. respects_solve. Qed.
#[local] Hint Resolve frame_stop : respects.
Lemma frame_step st : respects pst_frame (step_Run fuel st).
Proof. destruct st; simpl; respects_solve. Qed.
#[local] Hint Resolve frame_step : respects.
Lemma frame_runSteps steps : respects pst_frame (runSteps fuel steps).
Proof. induction steps; simpl; respects_solve. Qed.
#[local] Hint Resolve frame_runSteps : respects.
Lemma frame_connectOrReLaunch : respects pst_frame (connectOrReLaunch fuel).
Proof. unfold connectOrReLaunch. respects_solve. Qed.
#[local] Hint Resolve frame_connectOrReLaunch : respects.
Lemma frame_monitor : respects pst_frame (monitor_Run fuel).
Proof. unfold monitor_Run, healthCheck_. respects_solve. Qed.
Lemma frame_metrics : respects pst_frame metrics_Run.
Proof. unfold metrics_Run. respects_solve. Qed.

End frames.

(** ** Parts of the plugin an operation keeps *)
Definition keeps {B} (g : Plugin → B) (s s' : pst) : Prop := g (self s') = g (self s).

#[global] Instance keeps_preorder {B} (g : Plugin → B) : PreOrder (keeps g).
Proof. split; [by intros s|]. intros s1 s2 s3. unfold keeps. congruence. Qed.

#[global] Instance keeps_fs {B} (g : Plugin → B) : IgnoresFS (keeps g).
Proof. by intros f s. Qed.

Section keeps.
Context `{Config} `{World} `{OsFaults} `{FileUtil.Archives}.
Context (fuel : nat) {B : Type} (g : Plugin → B).

Lemma keeps_set_self f : (∀ x, g (f x) = g x) → respects (keeps g) (set_self f).
Proof. intros Hf. apply respects_modify. intros s. apply Hf. Qed.

Lemma keeps_ext {A} (f : nat → A) : respects (keeps g) (ext f).
Proof. by intros s s' a [= <- _]. Qed.

Lemma keeps_sendEvent ty d : respects (keeps g) (sendEvent ty d).
Proof. by intros s s' a [= <- _]. Qed.

Lemma keeps_this {A} (f : Plugin → A) : respects (keeps g) (this f).
Proof. by intros s s' a [= <- _]. Qed.

Lemma keeps_retry_Run policy f : respects (keeps g) f → respects (keeps g) (retry_Run fuel policy f).
Proof.
  intros Hf. unfold retry_Run. respects_step; [|respects_solve].
  apply Retry.respects_Run; [typeclasses eauto|done|intros d; apply keeps_ext].
Qed.

Lemma keeps_retry_RunWithResponse {T} (z : T) policy f :
  respects (keeps g) f → respects (keeps g) (retry_RunWithResponse fuel z policy f).
Proof.
  intros Hf. unfold retry_RunWithResponse. respects_step; [|respects_solve].
  apply Retry.respects_RunWithResponse; [typeclasses eauto|done|intros d; apply keeps_ext].
Qed.
End keeps.

#[export] Hint Resolve keeps_ext keeps_sendEvent keeps_this : respects.
#[export] Hint Extern 3 (respects (keeps _) (set_self _)) => (apply keeps_set_self; reflexivity) : respects.
#[export] Hint Extern 3 (respects (keeps _) (setState _)) => (apply keeps_set_self; reflexivity) : respects.
#[export] Hint Extern 3 (respects (keeps _) (setPid _)) => (apply keeps_set_self; reflexivity) : respects.
#[export] Hint Extern 3 (respects (keeps _) (retry_Run _ _ _)) => (apply keeps_retry_Run; respects_solve) : respects.
#[export] Hint Extern 3 (respects (keeps _) (retry_RunWithResponse _ _ _ _)) =>
  (apply keeps_retry_RunWithResponse; respects_solve) : respects.

Section keeps_parts.
Context `{Config} `{World} `{OsFaults} `{FileUtil.Archives}.
Context (fuel : nat).

Lemma keeps_manifest_launchPlugin pr policy : respects (keeps manifest) (launchPlugin fuel pr policy).
Proof. unfold launchPlugin, readPluginLogs. respects_solve. Qed.

Lemma keeps_manifest_verify policy : respects (keeps manifest) (verify_socket fuel policy).
Proof.
  unfold verify_socket, address, connectionSetup. respects_solve. all: apply keeps_manifest_launchPlugin.
Qed.

Definition live (x : Plugin) : StatusValue * Z * option string := (State x, pid x, client x).

Lemma keeps_live_cleanup : respects (keeps live) cleanup.
Proof. unfold cleanup, remove_all. respects_solve. Qed.

End keeps_parts.

(** ** Totality *)
Section totality.
Context `{Config} `{World} `{OsFaults} `{FileUtil.Archives}.
Context (fuel : nat).

(** A number of attempts the fuel covers. *)
Definition covered (n : Z) : Prop := 0 < n < 2 ^ 31 ∧ n ≤ Z.of_nat fuel.

Lemma total_set_self f : total (set_self f).
Proof. by eexists. Qed.
Lemma total_ext {A} (f : nat → A) : total (ext f).
Proof. by eexists. Qed.
Lemma total_sendEvent ty d : total (sendEvent ty d).
Proof. by eexists. Qed.
Lemma total_this {A} (f : Plugin → A) : total (this f).
Proof. by eexists. Qed.
Lemma total_setState st : total (setState st).
Proof. by eexists. Qed.
Lemma total_setPid n : total (setPid n).
Proof. by eexists. Qed.

#[local] Hint Resolve total_set_self total_ext total_sendEvent total_this total_setState total_setPid : total.

Lemma total_wp {S A} (m : M S A) s : total m → wp m (λ _ _, True) s.
Proof. intros Hm. destruct (Hm s) as [[s' a] E]. unfold wp. by rewrite E. Qed.

Lemma total_retry_RunWithResponse {T} (z : T) policy f :
  covered (Retry.MaxAttempts policy) → total f → total (retry_RunWithResponse fuel z policy f).
Proof.
  intros [Hc1 Hc2] Hf s. unfold retry_RunWithResponse, Retry.RunWithResponse.
  pose proof (Retry.wp_retry_loop retry_wait (λ _ _, True) (λ _, True) fuel 0 policy f s) as Hw.
  unfold mbind, M_bind. unfold wp in Hw at 3.
  destruct (Retry.retry_loop _ _ _ _ _ s) as [[s' o]|] eqn:E.
  - destruct Hw as (r & -> & _); [..|by eexists]; try done; try lia.
    + intros s1 _. eapply wp_mono; [by apply total_wp|]. intros [? []] ? _; done.
    + intros d s1 r _ _. eapply wp_mono; [apply total_wp, total_ext|]. by intros [].
  - exfalso. apply Hw; try done; try lia.
    + intros s1 _. eapply wp_mono; [by apply total_wp|]. intros [? []] ? _; done.
    + intros d s1 r _ _. eapply wp_mono; [apply total_wp, total_ext|]. by intros [].
Qed.

Lemma total_retry_Run policy f :
  covered (Retry.MaxAttempts policy) → total f → total (retry_Run fuel policy f).
Proof.
  intros Hc Hf s. unfold retry_Run, Retry.Run.
  assert (Hr : total (retry_RunWithResponse fuel tt policy (e ← f; mret (tt, e)))).
  { apply total_retry_RunWithResponse; [done|]. apply total_bind; [done|]. intros. apply total_ret. }
  specialize (Hr s). revert Hr. unfold retry_RunWithResponse, mbind, M_bind.
  destruct (Retry.RunWithResponse tt retry_wait fuel policy _ s) as [[s' o]|]; [|by intros []].
  destruct o as [[[] e]|]; [by eexists|by intros []].
Qed.

#[local] Hint Extern 3 (total (retry_Run _ _ _)) => (apply total_retry_Run; [assumption|total_solve]) : total.
#[local] Hint Extern 3 (total (retry_RunWithResponse _ _ _ _)) =>
  (apply total_retry_RunWithResponse; [assumption|total_solve]) : total.

Lemma total_readPluginLogs p : total (readPluginLogs p).
Proof.
  unfold readPluginLogs. total_step; [apply (FileUtil.total_ReadLastNLines _ 30); lia|]. total_solve.
Qed.
#[local] Hint Resolve total_readPluginLogs : total.

Lemma total_Connect : total Connect.
Proof. unfold Connect. total_solve. Qed.
Lemma total_GetStatus r : total (GetStatus r).
Proof. unfold GetStatus, PluginService. total_solve. Qed.
Lemma total_Stop c r : total (Stop c r).
Proof. unfold Stop, PluginService. total_solve. Qed.
Lemma total_Apply c : total (Apply c).
Proof. unfold Apply, PluginService. total_solve. Qed.
Lemma total_Store : total Store.
Proof. unfold Store. total_solve. Qed.
Lemma total_configHash : total configHash.
Proof. unfold configHash. total_solve. Qed.
#[local] Hint Resolve total_Connect total_GetStatus total_Stop total_Apply total_Store total_configHash : total.
Lemma total_IsRunning : total IsRunning.
Proof. unfold IsRunning. total_solve. Qed.

Lemma total_download d : covered (attempts d) → total (download_Run fuel d).
Proof. intros Hc. unfold download_Run. apply total_retry_Run; [done|]. unfold download_attempt. total_solve. Qed.
Lemma total_unpack u : total (unpack_Run u).
Proof. unfold unpack_Run. total_solve. Qed.
Lemma total_address pr i policy :
  covered (Retry.MaxAttempts policy) → total (address fuel pr i policy).
Proof. intros Hc. unfold address, connectionSetup. total_solve. Qed.
Lemma total_launchPlugin pr policy :
  covered (Retry.MaxAttempts policy) → total (launchPlugin fuel pr policy).
Proof. intros Hc. unfold launchPlugin. total_solve. Qed.
Lemma total_verify_socket policy :
  covered defaultConnectTimeoutTries → covered (Retry.MaxAttempts policy) → total (verify_socket fuel policy).
Proof.
  intros Hd Hc. unfold verify_socket. total_solve.
  all: first [by apply total_address | by apply total_launchPlugin].
Qed.
Lemma total_cleanup : total cleanup.
Proof. unfold cleanup, remove_all. total_solve. Qed.
Lemma total_stopPlugin ss : total (stopPlugin ss).
Proof. unfold stopPlugin. total_solve. Qed.

End totality.

(** ** Outcomes *)
Section rules.
Context `{Config} `{World} `{OsFaults} `{FileUtil.Archives}.

Lemma wp_respects {S A} (m : M S A) (R : relation S) s :
  total m → respects R m → wp m (λ _ s', R s s') s.
Proof. intros Hm HR. destruct (Hm s) as [[s' a] E]. unfold wp. rewrite E. by eapply HR. Qed.

Lemma wp_this {A} (f : Plugin → A) Q (s : pst) : wp (this f) Q s ↔ Q (f (self s)) s.
Proof. done. Qed.
Lemma wp_set_self f Q (s : pst) : wp (set_self f) Q s ↔ Q tt (mkPst (f (self s)) (penv s)).
Proof. done. Qed.
Lemma wp_setState st Q (s : pst) :
  wp (setState st) Q s ↔ Q tt (mkPst (with_runtime (set_status st) (self s)) (penv s)).
Proof. done. Qed.
Lemma wp_setPid n Q (s : pst) :
  wp (setPid n) Q s ↔ Q tt (mkPst (with_runtime (set_Pid n) (self s)) (penv s)).
Proof. done. Qed.

End rules.

Ltac p_step :=
  lazymatch goal with
  | |- wp (this _) _ _ => apply wp_this
  | |- wp (set_self _) _ _ => apply wp_set_self
  | |- wp (setState _) _ _ => apply wp_setState
  | |- wp (setPid _) _ _ => apply wp_setPid
  | |- wp (sendEvent _ _) _ _ => eapply wp_total; [apply total_sendEvent|intros ? ?]
  | |- wp (readPluginLogs _) _ _ => eapply wp_total; [apply total_readPluginLogs|intros ? ?]
  | |- _ => wp_step
  end.
Ltac p_steps := repeat p_step.

Section outcomes.
Context `{Config} `{World} `{OsFaults} `{FileUtil.Archives}.
Context (fuel : nat).

(** A step the fuel covers. *)
Definition step_covered (st : Step) : Prop :=
  match st with
  | Download d => covered fuel (attempts d)
  | Launch l => covered fuel (startAttempts l) ∧ covered fuel defaultConnectTimeoutTries
  | _ => True
  end.

(** The state a completed step leaves the plugin in. *)
Definition completed_status (st : Step) : StatusValue :=
  match st with
  | Launch _ => RUNNING
  | StopStep _ => STOPPED
  | _ => INSTALLING
  end.

Lemma wp_Start (s : pst) :
  covered fuel (StartAttempts (manifest (self s))) → wp (Start fuel) (λ _ _, True) s.
Proof.
  intros Hc. unfold Start, PluginService, buildStartRequest. p_steps; try done.
  eapply wp_mono; [apply total_wp, total_retry_Run; [exact Hc|]|done].
  total_solve. apply total_ext.
Qed.

Lemma wp_start_launched policy (s : pst) :
  covered fuel (Retry.MaxAttempts policy) → covered fuel (StartAttempts (manifest (self s))) →
  wp (start_launched fuel policy) (λ r s', r = None → State (self s') = RUNNING) s.
Proof.
  intros Hp Hc. unfold start_launched. p_step. p_step. p_step.
  eapply wp_mono; [apply (wp_respects _ (keeps manifest));
    [apply total_retry_Run; [done|apply total_ext]|respects_solve]|].
  intros [e|] s1 H1'; cbn beta iota; [by p_steps|].
  p_step. eapply wp_mono; [apply (wp_respects _ (keeps manifest)); [apply total_Connect|unfold Connect; respects_solve]|].
  intros [e|] s2 H2'; cbn beta iota; [by p_steps|].
  p_step. eapply wp_mono; [apply wp_Start; by rewrite H2', H1'|].
  intros [e|] s3 _; cbn beta iota; [by p_steps|].
  p_step. p_step. p_step. p_step. p_step. p_step. p_step; [|by p_steps].
  p_step. eapply wp_mono; [apply (wp_respects _ (keeps State)); [apply total_Store|unfold Store; respects_solve]|].
  intros [e|] s5 H5; apply wp_ret; [done|]. intros _. by rewrite H5.
Qed.

Lemma wp_launch l (s : pst) :
  step_covered (Launch l) →
  wp (launch_Run fuel l) (λ r s', r = None → State (self s') = RUNNING) s.
Proof.
  intros [Hl H15]. unfold launch_Run. p_step. p_step. p_step.
  eapply wp_total; [by apply total_address|]. intros [addr [e|]] s1; [by apply wp_ret|].
  do 11 p_step.
  eapply wp_mono; [apply (wp_respects _ (keeps (λ x, StartAttempts (manifest x))));
    [apply total_with_fs|respects_solve]|]. intros [e|] s2 H2'; [by apply wp_ret|].
  p_step. eapply wp_mono; [apply (wp_respects _ (keeps (λ x, StartAttempts (manifest x))))|].
  { total_solve. }
  { respects_solve. }
  intros [e|] s3 H3'; [by apply wp_ret|]. p_step.
  eapply wp_mono; [apply (wp_respects _ (keeps manifest)); [by apply total_launchPlugin|apply keeps_manifest_launchPlugin]|].
  intros [e|] s4 H4; [by apply wp_ret|]. p_step.
  eapply wp_mono; [apply (wp_respects _ (keeps manifest)); [by apply total_verify_socket|apply keeps_manifest_verify]|].
  intros [e|] s5 H5; [by apply wp_ret|]. apply wp_start_launched; [done|].
  unfold keeps in *. rewrite H5, H4, H3', H2'. exact Hl.
Qed.

Lemma wp_stop ss (s : pst) :
  wp (stop_Run ss) (λ r s', r = None ∧ live (self s') = (STOPPED, 0, None)) s.
Proof.
  unfold stop_Run. p_step. eapply wp_total; [apply total_stopPlugin|]. intros _ s1.
  do 7 p_step. destruct (cleanup_ ss); [|by p_steps]. p_step.
  eapply wp_mono; [apply (wp_respects _ (keeps live)); [apply total_cleanup|apply keeps_live_cleanup]|].
  intros e s2 H2'. p_steps. split; [done|]. exact H2'.
Qed.

Lemma wp_step_Run st (s : pst) :
  step_covered st → State (self s) = step_Status st →
  wp (step_Run fuel st) (λ r s', r = None → State (self s') = completed_status st) s.
Proof.
  destruct st as [d|u|l|ss]; simpl; intros Hc Hs.
  - eapply wp_mono; [apply (wp_respects _ (keeps State)); [by apply total_download|]|].
    + unfold download_Run, download_attempt. respects_solve.
    + intros r s' H' _. by rewrite H'.
  - eapply wp_mono; [apply (wp_respects _ (keeps State)); [by apply total_unpack|]|].
    + unfold unpack_Run. respects_solve.
    + intros r s' H' _. by rewrite H'.
  - by apply wp_launch.
  - eapply wp_mono; [apply wp_stop|]. intros r s' [_ Hl] _. unfold live in Hl. by simplify_eq.
Qed.

(** What [runSteps] leaves behind, by its result. *)
Definition steps_outcome (steps : list Step) (s : pst) (r : option error) (s' : pst) : Prop :=
  match r with
  | None => State (self s') = match last steps with Some st => completed_status st | None => State (self s) end
  | Some e => ∃ st, st ∈ steps ∧ State (self s') = step_ErrorStatus st
  end.

Lemma wp_runSteps steps (s : pst) :
  Forall step_covered steps → wp (runSteps fuel steps) (steps_outcome steps s) s.
Proof.
  revert s. induction steps as [|st steps IH]; intros s Hc; simpl; [by apply wp_ret|].
  apply Forall_cons in Hc as [Hst Hc]. do 3 p_step.
  eapply wp_mono; [apply (wp_respects _ (keeps State)); [apply total_ext|respects_solve]|].
  intros [e|] s1 H1'; cbn beta iota.
  { p_steps. exists st. split; [by left|done]. }
  p_step. eapply wp_mono; [apply wp_step_Run; [done|by rewrite H1']|].
  intros [e|] s2 H2'; cbn beta iota.
  { p_steps. exists st. split; [by left|done]. }
  eapply wp_mono; [by apply IH|]. intros [e|] s3; simpl.
  - intros (st' & Hin & Hst'). exists st'. split; [by right|done].
  - intros ->. rewrite last_cons. destruct (last steps); [done|by apply H2'].
Qed.

#[global] Arguments runSteps : simpl never.

Lemma wp_connectOrReLaunch (s : pst) :
  covered fuel defaultConnectTimeoutTries → covered fuel (StartAttempts (manifest (self s))) →
  wp (connectOrReLaunch fuel)
     (λ r s', State (self s') = match r with None => RUNNING | Some _ => CRASHED end) s.
Proof.
  intros H15 Hc. unfold connectOrReLaunch. p_step.
  eapply wp_mono; [apply (wp_respects _ (keeps manifest)); [apply total_IsRunning|]|].
  { unfold IsRunning, Connect, GetStatus, PluginService. respects_solve. }
  intros [|] s1 H1'; cbn beta iota; [by p_steps|]. do 3 p_step.
  eapply wp_mono; [apply wp_runSteps|].
  { unfold relaunchWorkflow. rewrite H1'. repeat constructor; apply Hc || apply H15. }
  intros [e|] s2 H2'; [by p_steps|]. p_steps. exact H2'.
Qed.

End outcomes.

(** ** Properties *)
Section properties.
Context `{Config} `{World} `{OsFaults} `{FileUtil.Archives}.
Context (fuel : nat).


(** Running steps always ends (the retries are covered by the fuel) and
    the reported state tells how: after success it is the state of the last
    step when completed (launched plugins are RUNNING, stopped ones STOPPED),
    after an error it is the error state of the step that failed. *)
Theorem runSteps_state (steps : list Step) (s : pst) :
  Forall (step_covered fuel) steps →
  wp (runSteps fuel steps)
     (λ r s', match r with
              | None => State (self s') =
                  match last steps with Some st => completed_status st | None => State (self s) end
              | Some _ => ∃ st, st ∈ steps ∧ State (self s') = step_ErrorStatus st
              end ∧ ident (self s') = ident (self s)) s.
Proof.
  intros Hc. eapply wp_mono; [apply (wp_frame _ pst_frame); [by apply wp_runSteps|apply frame_runSteps]|].
  intros r s' [Ho (Hid & _)]. by split.
Qed.

(** The periodic health check never interferes with a stop: on a plugin
    that is stopping or stopped it changes nothing at all.  On any other
    plugin it either sees it healthy and leaves its state as it was, or
    reports the crash and ends with the plugin reconnected or relaunched
    (RUNNING) or marked CRASHED; the job always asks to be kept scheduled. *)
Theorem monitor_respects_stop (s : pst) :
  covered fuel defaultConnectTimeoutTries → covered fuel (StartAttempts (manifest (self s))) →
  wp (monitor_Run fuel)
     (λ r s', r = (true, None) ∧
        if bool_decide (State (self s) = STOPPING ∨ State (self s) = STOPPED) then s' = s
        else State (self s') = State (self s) ∨
             ((State (self s') = RUNNING ∨ State (self s') = CRASHED) ∧
              ∃ ev, ev ∈ events (penv s') ∧ EventType ev = PLUGIN_CRASHED)) s.
Proof.
  intros H15 Hc. unfold monitor_Run, healthCheck_. do 3 p_step.
  case_bool_decide as Hst; [by p_steps|]. p_step.
  eapply wp_mono; [apply (wp_respects _ (keeps (λ x, (State x, manifest x)))); [apply total_GetStatus|]|].
  { unfold GetStatus, PluginService. respects_solve. }
  intros [st|e] s1 H1'; cbn beta iota.
  { p_step. p_step. p_step. eapply wp_total_respects; [apply total_ext|apply (keeps_ext State)|].
    intros t s2 H2'. unfold setHealthInfo. p_steps. split; [done|]. left.
    unfold keeps in *. simpl in *. change (State (self s2) = State (self s)). rewrite H2'. by injection H1'. }
  p_step. p_step. p_step.
  eapply wp_mono; [apply (wp_respects _ (keeps manifest)); [apply total_readPluginLogs|unfold readPluginLogs; respects_solve]|].
  intros logs s2 H2'. cbn beta. p_step. unfold sendEvent at 1. p_step. p_step. unfold send_event, on_env at 1.
  unfold wp at 1. cbn -[wp]. do 3 p_step.
  eapply wp_mono; [apply (wp_frame _ pst_frame); [apply wp_connectOrReLaunch; [done|]|apply frame_connectOrReLaunch]|].
  { simpl. rewrite H2'. by injection H1' as _ ->. }
  intros r s3 (Hs3 & _ & _ & Hev). p_steps. split; [done|]. right. split; [destruct r; auto|].
  eexists. split; [eapply elem_of_prefix; [|exact Hev]; simpl; rewrite elem_of_app; right; by left|done].
Qed.

End properties.

(** ** A world where everything answers *)
Definition example_config : Config := {|
  StateDir := "/var/lib/google_guest_agent";
  SocketConnectionsDir := "/run/google-guest-agent/plugin-connections";
  LocalPluginDir := "/usr/lib/google/guest_agent/plugins";
  ConnectionType := "tcp";
  EnableLocalPlugins := true;
  Version := "v1";
  TempDir := "/tmp";
|}.

(** Downloads give a readable archive; processes run from [exe]. *)
Definition calm_world (exe : string) : World := {|
  ctx_Err _ := None;
  ctx_wait _ _ := None;
  time_Now n := Z.of_nat n;
  rpc_call _ _ _ _ := Ok (mkRpcStatus 0 ["ok"]);
  grpc_NewClient _ _ := None;
  net_Listen _ := Ok "127.0.0.1:5000";
  run_WithContext _ _ _ _ := Ok 42;
  ps_FindPid _ _ := Ok exe;
  ps_KillProcess _ _ _ := None;
  ps_CPUUsage _ _ := (1, None);
  ps_Memory _ _ := (2, None);
  resource_Apply _ _ _ _ _ := None;
  resource_RemoveConstraint _ _ := None;
  http_Get _ _ _ := Ok (200, "tgz", None);
  sha256_hex d := "sha:" +:+ d;
  gob_Encode p := Ok (Name p +:+ "|" +:+ Revision p);
  gob_Decode _ := Err (ErrMsg "not used");
  struct_Marshal d := Ok d;
  struct_Unmarshal d := Ok d;
|}.

Definition plain_archives : FileUtil.Archives := λ data,
  if bool_decide (data = "tgz") then Ok ([FileUtil.mkEntry "run" FileUtil.TypeReg "code" None], None)
  else Err (ErrMsg "not gzip").

Definition example_manifest : Manifest :=
  mkManifest 3 0 0 60 (10 * Second) (2 * Second) (2 * Second) (Some (mkServiceConfig "cfg" "")) "" []
    DAEMON DYNAMIC_INSTALLATION.

Definition example_plugin (st : StatusValue) : Plugin :=
  mkPlugin "p" "1" "" "/i/p_1" "/i/p_1/run" "tcp" None example_manifest
    (mkRuntimeInfo st None (BoundedList.mkList (replicate 60 zero_Metric) 60 0 false) 7 None).

Definition example_pst (st : StatusValue) : pst :=
  mkPst (example_plugin st) (mkEnv (mkFs ∅ 0) "123" [] 0).

Section witnesses.
#[local] Existing Instance example_config.
#[local] Existing Instance no_faults.
#[local] Existing Instance plain_archives.
#[local] Instance world : World := calm_world "/i/p_1/run".


Lemma runSteps_state_witness :
  wp (runSteps 20 (relaunchWorkflow (example_plugin CRASHED)))
     (λ r s', r = None → State (self s') = RUNNING) (example_pst CRASHED) ∧
  (λ r, (r.2, State (self r.1), pid (self r.1))) <$>
    runSteps 20 (relaunchWorkflow (example_plugin CRASHED)) (example_pst CRASHED)
  = Some (None, RUNNING, 42).
Proof.
  split; [|by vm_compute].
  eapply wp_mono; [apply (runSteps_state 20 (relaunchWorkflow (example_plugin CRASHED)) (example_pst CRASHED))|].
  - repeat constructor; simpl; unfold defaultConnectTimeoutTries; lia.
  - by intros r s' [Hr _] ->.
Defined.

Lemma monitor_respects_stop_witness :
  wp (monitor_Run 20) (λ r s', r = (true, None) ∧ s' = example_pst STOPPING) (example_pst STOPPING).
Proof.
  eapply wp_mono; [apply (monitor_respects_stop 20 (example_pst STOPPING))|].
  - unfold covered, defaultConnectTimeoutTries. lia.
  - unfold covered. simpl. lia.
  - intros r s' [-> Hs]. by rewrite bool_decide_eq_true_2 in Hs by (by left).
Defined.

End witnesses.

End PluginFacts.
