(* ===== verification/PluginManager.v ===== *)
(** * internal/plugin/manager: the plugin manager

    pluginmanager.go and cleanup.go: the manager's tables over a heap of
    plugins (Go shares [*Plugin] pointers between the table, the monitors and
    running requests), the handlers of the control plane's requests and the
    leftover clean-up.  The locks make each table access atomic; [Goroutines]
    started in the background are tasks in [background], run by [run_task].
    Go's map iteration order is taken to be the order of [map_to_list]; the
    theorems do not depend on it. *)
From S2P Require Import Prelude GoStrings Os Retry BoundedList FileUtil Plugin PluginSteps Scheduler.

Local Open Scope Z_scope.

Module PluginManager.
Import Plugin PluginSteps.

(** ** Requests of the control plane *)
Inductive Action := ACTION_UNSPECIFIED | INSTALL | REMOVE | APPLY.

#[global] Instance Action_eq_dec : EqDecision Action.
Proof. solve_decision. Defined.
#[global] Instance Action_countable : Countable Action.
Proof.
  refine (inj_countable' (λ a, match a with ACTION_UNSPECIFIED => 0 | INSTALL => 1 | REMOVE => 2 | APPLY => 3 end)
    (λ z, match z with 0 => ACTION_UNSPECIFIED | 1 => INSTALL | 2 => REMOVE | _ => APPLY end) _).
  by intros [].
Defined.

Record req_plugin := mkReqPlugin {
  rp_Name : string;
  rp_RevisionId : string;
  rp_GcsSignedUrl : string;
  rp_EntryPoint : string;
  rp_Checksum : string;
  rp_Arguments : list string;
}.

Record req_manifest := mkReqManifest {
  rm_StartAttemptCount : Z;
  rm_MaxMemoryUsageBytes : Z;
  rm_MaxCpuUsagePercentage : Z;
  rm_StopTimeout : Z;
  rm_StartTimeout : Z;
  rm_DownloadTimeout : Z;
  rm_DownloadAttemptCount : Z;
  rm_MaxMetricDatapoints : Z;
  rm_MetricsInterval : Z;
  rm_PluginType : PluginType_;
  rm_InstallationType : InstallationType;
  rm_Config : option service_config;
  (** [ExecutionModel.BootCritical]; [None] without an execution model. *)
  rm_BootCritical : option bool;
}.

Record request := mkRequest {
  req_Action : Action;
  req_Plugin : option req_plugin;
  req_Manifest : option req_manifest;
}.

(** The generated getters: the zero value of a nil message. *)
Definition no_plugin : req_plugin := mkReqPlugin "" "" "" "" "" [].
Definition no_manifest : req_manifest :=
  mkReqManifest 0 0 0 0 0 0 0 0 0 PLUGIN_TYPE_UNSPECIFIED DYNAMIC_INSTALLATION None None.
Definition GetPlugin (r : request) : req_plugin := default no_plugin (req_Plugin r).
Definition GetManifest (r : request) : req_manifest := default no_manifest (req_Manifest r).
Definition GetName (r : request) : string := rp_Name (GetPlugin r).
Definition GetRevisionId (r : request) : string := rp_RevisionId (GetPlugin r).

(** ** The manager's state *)
(** Pointers to plugins. *)
Notation ptr := nat (only parsing).

Inductive job := MonitorJob (p : ptr) | MetricsJob (p : ptr) (interval : Z) | CleanupJob.

(** The callback of a local plugin installation is known by its plugin. *)
Record LocalPluginInstallation := mkLocal { Enable : bool; OnReady : bool }.

Inductive task :=
| TaskCleanupOldState (path : string)
| TaskSchedulers (p : ptr)
| TaskConfigure (req : request) (config : gmap string LocalPluginInstallation).

Record PM := mkPM {
  heap : gmap ptr Plugin;
  plugins : gmap string ptr;
  pluginMonitors : gmap string string;
  pluginMetricsMonitors : gmap string string;
  scheduled : gmap string (Scheduler.jobConfig job);
  job_metrics : list Scheduler.module_metric;
  protocol : string;
  inProgress : gmap string bool;
  requestCount : gmap Action (gmap bool Z);
  background : list task;
  onReady : list string;
  IsInitialized : bool;
  menv : env;
}.

Definition set_heap (h : gmap ptr Plugin) (s : PM) : PM :=
  mkPM h (plugins s) (pluginMonitors s) (pluginMetricsMonitors s) (scheduled s) (job_metrics s)
    (protocol s) (inProgress s) (requestCount s) (background s) (onReady s) (IsInitialized s) (menv s).
Definition set_plugins (m : gmap string ptr) (s : PM) : PM :=
  mkPM (heap s) m (pluginMonitors s) (pluginMetricsMonitors s) (scheduled s) (job_metrics s)
    (protocol s) (inProgress s) (requestCount s) (background s) (onReady s) (IsInitialized s) (menv s).
Definition set_monitors (m : gmap string string) (s : PM) : PM :=
  mkPM (heap s) (plugins s) m (pluginMetricsMonitors s) (scheduled s) (job_metrics s)
    (protocol s) (inProgress s) (requestCount s) (background s) (onReady s) (IsInitialized s) (menv s).
Definition set_metrics_monitors (m : gmap string string) (s : PM) : PM :=
  mkPM (heap s) (plugins s) (pluginMonitors s) m (scheduled s) (job_metrics s)
    (protocol s) (inProgress s) (requestCount s) (background s) (onReady s) (IsInitialized s) (menv s).
Definition set_scheduled (m : gmap string (Scheduler.jobConfig job)) (s : PM) : PM :=
  mkPM (heap s) (plugins s) (pluginMonitors s) (pluginMetricsMonitors s) m (job_metrics s)
    (protocol s) (inProgress s) (requestCount s) (background s) (onReady s) (IsInitialized s) (menv s).
Definition add_job_metric (x : Scheduler.module_metric) (s : PM) : PM :=
  mkPM (heap s) (plugins s) (pluginMonitors s) (pluginMetricsMonitors s) (scheduled s) (job_metrics s ++ [x])
    (protocol s) (inProgress s) (requestCount s) (background s) (onReady s) (IsInitialized s) (menv s).
Definition set_protocol (p : string) (s : PM) : PM :=
  mkPM (heap s) (plugins s) (pluginMonitors s) (pluginMetricsMonitors s) (scheduled s) (job_metrics s)
    p (inProgress s) (requestCount s) (background s) (onReady s) (IsInitialized s) (menv s).
Definition set_inProgress (m : gmap string bool) (s : PM) : PM :=
  mkPM (heap s) (plugins s) (pluginMonitors s) (pluginMetricsMonitors s) (scheduled s) (job_metrics s)
    (protocol s) m (requestCount s) (background s) (onReady s) (IsInitialized s) (menv s).
Definition set_requestCount (m : gmap Action (gmap bool Z)) (s : PM) : PM :=
  mkPM (heap s) (plugins s) (pluginMonitors s) (pluginMetricsMonitors s) (scheduled s) (job_metrics s)
    (protocol s) (inProgress s) m (background s) (onReady s) (IsInitialized s) (menv s).
Definition set_background (l : list task) (s : PM) : PM :=
  mkPM (heap s) (plugins s) (pluginMonitors s) (pluginMetricsMonitors s) (scheduled s) (job_metrics s)
    (protocol s) (inProgress s) (requestCount s) l (onReady s) (IsInitialized s) (menv s).
Definition set_onReady (l : list string) (s : PM) : PM :=
  mkPM (heap s) (plugins s) (pluginMonitors s) (pluginMetricsMonitors s) (scheduled s) (job_metrics s)
    (protocol s) (inProgress s) (requestCount s) (background s) l (IsInitialized s) (menv s).
Definition set_IsInitialized (b : bool) (s : PM) : PM :=
  mkPM (heap s) (plugins s) (pluginMonitors s) (pluginMetricsMonitors s) (scheduled s) (job_metrics s)
    (protocol s) (inProgress s) (requestCount s) (background s) (onReady s) b (menv s).
Definition set_menv (e : env) (s : PM) : PM :=
  mkPM (heap s) (plugins s) (pluginMonitors s) (pluginMetricsMonitors s) (scheduled s) (job_metrics s)
    (protocol s) (inProgress s) (requestCount s) (background s) (onReady s) (IsInitialized s) e.

#[global] Instance PM_HasFS : HasFS PM :=
  {| fs_of := λ s, env_fs (menv s); set_fs := λ f s, set_menv (set_env_fs f (menv s)) s |}.
#[global] Instance PM_LawfulFS : LawfulFS PM.
Proof. split; [done|done|]. intros []. unfold set_fs, set_menv; simpl. by destruct menv0. Qed.

(** ** Access *)
Definition on_menv {A} (m : M env A) : M PM A := λ s,
  match m (menv s) with
  | Some (e, a) => Some (set_menv e s, a)
  | None => None
  end.

(** A method call on the plugin at [p]; a dangling pointer does not exist in
    Go, so it has no outcome. *)
Definition on_plugin {A} (p : ptr) (m : M pst A) : M PM A := λ s,
  x ← heap s !! p;
  match m (mkPst x (menv s)) with
  | Some (r, a) => Some (set_menv (penv r) (set_heap (<[p := self r]> (heap s)) s), a)
  | None => None
  end.

Definition deref {A} (p : ptr) (f : Plugin → A) : M PM A := on_plugin p (this f).

(** A fresh pointer. *)
Definition alloc (x : Plugin) : M PM ptr := λ s,
  let p := fresh (dom (heap s)) in Some (set_heap (<[p := x]> (heap s)) s, p).

Definition spawn (t : task) : M PM unit := modify (λ s, set_background (background s ++ [t]) s).

Definition event (name revision : string) (ty : PluginEventType) (d : EventDetail) : M PM unit :=
  on_menv (send_event name revision ty d).

Definition list_ : M PM (list ptr) := gets (λ s, (map_to_list (plugins s)).*2).

Definition Fetch (name : string) : M PM (result ptr) :=
  gets (λ s, match plugins s !! name with
             | Some p => Ok p
             | None => Err (ErrMsg "plugin not found")
             end).

Definition add (p : ptr) : M PM unit :=
  name ← deref p Name; modify (λ s, set_plugins (<[name := p]> (plugins s)) s).

Definition delete_ (name : string) : M PM unit :=
  modify (λ s, set_plugins (delete name (plugins s)) s).

Definition healthCheckFrequency : Z := 10 * Second.
Definition metricsCheckFrequency : Z := 10 * Second.
Definition maxMetricDatapoints : Z := 60.
Definition CorePluginName : string := "GuestAgentCorePlugin".
Definition manifestFile : string := "manifest.binpb".

(** The encoding of requests on disk ([proto.Unmarshal]). *)
Class RequestCodec := proto_Unmarshal : string → result request.

Section manager.
Context `{Config} `{World} `{OsFaults} `{FileUtil.Archives} `{RequestCodec}.
Context (fuel : nat).

(** ** cleanup.go *)

(** What a leftover directory is removed as. *)
Definition leftover (install_path name revision : string) : Plugin :=
  mkPlugin name revision "" install_path "" "" None
    (mkManifest 0 0 0 0 0 0 0 None "" [] PLUGIN_TYPE_UNSPECIFIED DYNAMIC_INSTALLATION)
    (mkRuntimeInfo STATE_VALUE_UNSPECIFIED None (BoundedList.mkList [] 0 0 false) 0 None).

(** The scan over the install directory: links and leftovers found so far.
    A directory without an underscore is sliced at -1, a panic. *)
Definition scan_dir (loc : string) (acc : list string * gmap string Plugin) (d : string * node)
    : M PM (list string * gmap string Plugin) :=
  let '(links, failed) := acc in
  match d.2 with
  | NDir =>
      match LastIndex d.1 (byte_of 95) with
      | None => panic
      | Some i =>
          let pluginName := slice_to d.1 i in
          let pluginRevision := slice_from d.1 (i + 1) in
          busy ← gets (λ s, default false (inProgress s !! pluginName));
          if (busy : bool) then mret acc
          else
            r ← Fetch d.1;
            match r with
            | Ok _ => mret acc
            | Err _ =>
                mret (links, <[d.1 := leftover (path_Join [loc; d.1]) pluginName pluginRevision]> failed)
            end
      end
  | _ => mret (links ++ [d.1], failed)
  end.

Definition remove_link (loc : string) (failed : gmap string Plugin) (link : string) : M PM unit :=
  dest ← os_Readlink (path_Join [loc; link]);
  match dest with
  | Err _ => mret tt
  | Ok dest =>
      match failed !! Base dest with
      | Some _ => _ ← os_Remove (path_Join [loc; link]); mret tt
      | None => mret tt
      end
  end.

Definition retryFailedRemovals : M PM (bool * option error) :=
  s ← get;
  let loc := path_Join [baseState (menv s); pluginInstallDir] in
  dirs ← os_ReadDir loc;
  match dirs with
  | Err e =>
      if IsNotExist e then mret (true, None)
      else mret (true, Some (ErrWrap "failed to read plugin install directory" e))
  | Ok dirs =>
      '(links, failed) ← for_acc dirs ([], ∅) (scan_dir loc);
      _ ← for_each links (remove_link loc failed);
      errs ← for_acc (map_to_list failed).*2 []
               (λ errs x, p ← alloc x; e ← on_plugin p cleanup; mret (errs ++ [e]));
      mret (bool_decide (failed = ∅), errors_Join errs)
  end.

(** [regexp.MustCompile("^[0-9]+$")]. *)
Definition is_digit (b : byte) : bool := (48 <=? Ascii.N_of_ascii b)%N && (Ascii.N_of_ascii b <=? 57)%N.
Definition all_digits (s : string) : bool :=
  negb (bool_decide (s = "")) && forallb is_digit (to_bytes s).

Definition cleanupOldState (path : string) : M PM (option error) :=
  x ← Exists path TypeDir;
  if negb x then mret None
  else
    dirs ← os_ReadDir path;
    match dirs with
    | Err e => mret (Some (ErrWrap "failed to read directory" e))
    | Ok dirs =>
        currentID ← gets (λ s, instanceID (menv s));
        r ← for_until dirs tt (λ _ d,
              match d.2 with
              | NDir =>
                  if bool_decide (d.1 = currentID) || negb (all_digits d.1) then mret (inl tt)
                  else
                    e ← os_RemoveAll (path_Join [path; d.1]);
                    match e with
                    | Some e => mret (inr (ErrWrap "failed to remove file" e))
                    | None => mret (inl tt)
                    end
              | _ => mret (inl tt)
              end);
        mret (match r with inl _ => None | inr e => Some e end)
    end.

(** ** The manager's jobs *)
Definition job_ID (s : PM) (j : job) : string :=
  match j with
  | MonitorJob p => match heap s !! p with Some x => monitor_ID x | None => "" end
  | MetricsJob p _ => match heap s !! p with Some x => metrics_ID x | None => "" end
  | CleanupJob => "cleanup"
  end.

Definition job_Interval (s : PM) (j : job) : Z * bool :=
  match j with
  | MonitorJob _ => (healthCheckFrequency, true)
  | MetricsJob _ i => (i, true)
  | CleanupJob => (24 * 60 * Minute, true)
  end.

Definition job_Run (j : job) : M PM (bool * option error) :=
  match j with
  | MonitorJob p => on_plugin p (monitor_Run fuel)
  | MetricsJob p _ => on_plugin p metrics_Run
  | CleanupJob => retryFailedRemovals
  end.

#[global] Instance PM_Job : Scheduler.Job PM job := {|
  Scheduler.ID := job_ID;
  Scheduler.MetricName := λ j, match j with CleanupJob => Some "PLUGIN_CLEANUP" | _ => None end;
  Scheduler.Interval := job_Interval;
  Scheduler.ShouldEnable := λ _, mret true;
  Scheduler.Run := job_Run;
|}.

#[global] Instance PM_SchedState : Scheduler.SchedState PM job := {|
  Scheduler.jobs := scheduled;
  Scheduler.set_jobs := set_scheduled;
  Scheduler.enableMetricRecording := mret tt;
  Scheduler.metrics_Record := λ x, modify (add_job_metric x);
|}.

Definition startMonitoring (p : ptr) : M PM unit :=
  _ ← Scheduler.ScheduleJob (MonitorJob p);
  name ← deref p FullName;
  id ← deref p monitor_ID;
  modify (λ s, set_monitors (<[name := id]> (pluginMonitors s)) s).

Definition startMetricsMonitoring (p : ptr) : M PM unit :=
  i ← deref p (λ x, MetricsInterval (manifest x));
  _ ← Scheduler.ScheduleJob (MetricsJob p i);
  name ← deref p FullName;
  id ← deref p metrics_ID;
  modify (λ s, set_metrics_monitors (<[name := id]> (pluginMetricsMonitors s)) s).

Definition stopMonitoring (p : ptr) : M PM unit :=
  name ← deref p FullName;
  pm ← gets (λ s, pluginMonitors s !! name);
  match pm with
  | None => mret tt
  | Some id =>
      _ ← modify (λ s, set_monitors (delete name (pluginMonitors s)) s);
      Scheduler.UnscheduleJob id
  end.

Definition stopMetricsMonitoring (p : ptr) : M PM unit :=
  name ← deref p FullName;
  pm ← gets (λ s, pluginMetricsMonitors s !! name);
  match pm with
  | None => mret tt
  | Some id =>
      _ ← modify (λ s, set_metrics_monitors (delete name (pluginMetricsMonitors s)) s);
      Scheduler.UnscheduleJob id
  end.

(** The goroutine of [startPluginSchedulers]. *)
Definition startPluginSchedulers (p : ptr) : M PM unit := spawn (TaskSchedulers p).

(** ** New plugins *)

(** [setConfig] writes the manifest in place, also when it fails; a request
    without a manifest is a nil dereference. *)
Definition setConfig (m : Manifest) (r : request) : option (Manifest * option error) :=
  rm ← req_Manifest r;
  let m := set_StartConfig (Some (mkServiceConfig "" "")) m in
  Some match rm_Config rm with
       | None => (m, None)
       | Some (StringConfig s) => (set_StartConfig (Some (mkServiceConfig s "")) m, None)
       | Some (StructConfig s) =>
           match struct_Marshal s with
           | Ok b => (set_StartConfig (Some (mkServiceConfig "" b)) m, None)
           | Err e => (m, Some (ErrWrap "unable to marshal service config" e))
           end
       end.

Definition seconds (n : Z) : Z := int64_wrap (n * Second).

Definition newPluginManifest (r : request) : option (result Manifest) :=
  let rm := GetManifest r in
  '(m, e) ← setConfig
    (mkManifest (rm_StartAttemptCount rm) (rm_MaxMemoryUsageBytes rm) (rm_MaxCpuUsagePercentage rm) 0 0
       (seconds (rm_StopTimeout rm)) (seconds (rm_StartTimeout rm)) (Some (mkServiceConfig "" "")) "" []
       (rm_PluginType rm) (rm_InstallationType rm)) r;
  Some match e with
       | Some e => Err e
       | None => Ok m
       end.

Definition setMetricConfig (r : request) (p : Plugin) : option Plugin :=
  let rm := GetManifest r in
  let points := if rm_MaxMetricDatapoints rm =? 0 then maxMetricDatapoints else rm_MaxMetricDatapoints rm in
  let interval := if rm_MetricsInterval rm =? 0 then metricsCheckFrequency else seconds (rm_MetricsInterval rm) in
  l ← BoundedList.New zero_Metric points;
  Some (with_runtime (set_metrics l) (with_manifest (set_metric_options points interval) p)).

Definition newPlugin (r : request) : option (result Plugin) :=
  m ← newPluginManifest r;
  match m with
  | Err e => Some (Err (ErrWrap "unable to generate plugin service config" e))
  | Ok m =>
      let p := mkPlugin (GetName r) (GetRevisionId r) "" "" "" "" None m
        (mkRuntimeInfo STATE_VALUE_UNSPECIFIED None (BoundedList.mkList [] 0 0 false) 0 None) in
      let p := if IsLocal p then set_InstallPath (Dir (rp_EntryPoint (GetPlugin r))) p else p in
      p ← setMetricConfig r p;
      Some (Ok p)
  end.

(** ** Workflows *)
Definition preLaunchWorkflow (r : request) (e : env) : list Step :=
  let rm := GetManifest r in
  if bool_decide (rm_InstallationType rm = LOCAL_INSTALLATION) then []
  else
    let state := pluginInstallPath e (GetName r) (GetRevisionId r) in
    let archive := path_Join [baseState e; GetName r +:+ ".tar.gz"] in
    [Download (mkDownload (rp_GcsSignedUrl (GetPlugin r)) archive (rp_Checksum (GetPlugin r))
       (rm_DownloadAttemptCount rm) (seconds (rm_DownloadTimeout rm)));
     Unpack (mkUnpack archive state)].

Definition newLaunchStep (r : request) (proto : string) (e : env) : Step :=
  let rm := GetManifest r in
  let state := pluginInstallPath e (GetName r) (GetRevisionId r) in
  let entry :=
    if bool_decide (rm_InstallationType rm = LOCAL_INSTALLATION) then rp_EntryPoint (GetPlugin r)
    else path_Join [state; rp_EntryPoint (GetPlugin r)] in
  Launch (mkLaunch entry (rm_MaxMemoryUsageBytes rm) (rm_MaxCpuUsagePercentage rm)
    (rm_StartAttemptCount rm) proto (rp_Arguments (GetPlugin r))).

Definition generateInstallWorkflow (r : request) (proto : string) (e : env) : list Step :=
  if negb (bool_decide (req_Action r = INSTALL)) then []
  else preLaunchWorkflow r e ++ [newLaunchStep r proto e].

(** ** Handlers *)
Definition runlaunchPluginSteps (p : ptr) (steps : list Step) : M PM (option error) :=
  _ ← add p;
  e ← on_plugin p (runSteps fuel steps);
  match e with
  | Some e =>
      name ← deref p Name;
      rev ← deref p Revision;
      _ ← delete_ name;
      _ ← event name rev PLUGIN_INSTALL_FAILED (detail_err "Failed to install plugin" e);
      proc ← deref p pid;
      _ ← on_menv (env_ext (λ n, ps_KillProcess n proc KillModeNoWait));
      mret (Some (ErrWrap "install plugin" e))
  | None =>
      _ ← startPluginSchedulers p;
      name ← deref p Name;
      rev ← deref p Revision;
      _ ← event name rev PLUGIN_INSTALLED (detail "Successfully installed the plugin.");
      mret None
  end.

Definition stopAndRemovePlugin (p : ptr) (remove_state : bool) : M PM (option error) :=
  _ ← stopMonitoring p;
  _ ← stopMetricsMonitoring p;
  e ← on_plugin p (runSteps fuel [StopStep (mkStop true remove_state)]);
  name ← deref p Name;
  rev ← deref p Revision;
  match e with
  | Some e =>
      _ ← event name rev PLUGIN_REMOVE_FAILED (detail_err "Failed to remove plugin" e);
      mret (Some (ErrWrap "unable to remove plugin" e))
  | None =>
      _ ← event name rev PLUGIN_REMOVED (detail "Successfully removed the plugin.");
      _ ← delete_ name;
      mret None
  end.

(** The part of [upgradePlugin] covered by the deferred reset. *)
Definition upgrade_steps (r : request) (plugin currPlugin : ptr) : M PM (option error) :=
  rev ← deref plugin Revision;
  name ← deref plugin Name;
  _ ← on_plugin currPlugin (setPendingStatus rev INSTALLING);
  steps ← gets (λ s, preLaunchWorkflow r (menv s));
  e ← on_plugin plugin (runSteps fuel steps);
  match e with
  | Some e =>
      _ ← event name rev PLUGIN_INSTALL_FAILED (detail_err "Failed to run pre-upgrade steps" e);
      mret (Some (ErrWrap "failed to run pre-upgrade steps" e))
  | None =>
      e ← stopAndRemovePlugin currPlugin false;
      match e with
      | Some e =>
          cname ← deref currPlugin Name;
          crev ← deref currPlugin Revision;
          _ ← event cname crev PLUGIN_INSTALL_FAILED (detail_err "Failed to remove plugin" e);
          mret (Some (ErrWrap "failed to remove plugin" e))
      | None =>
          step ← gets (λ s, newLaunchStep r (protocol s) (menv s));
          runlaunchPluginSteps plugin [step]
      end
  end.

Definition upgradePlugin (r : request) : M PM (option error) :=
  x ← some_or_panic (newPlugin r);
  match x with
  | Err e => mret (Some (ErrWrap "failed to create new plugin instance" e))
  | Ok x =>
      plugin ← alloc x;
      curr ← Fetch (GetName r);
      match curr with
      | Err e => mret (Some (ErrWrap "fetching current instance" e))
      | Ok currPlugin =>
          e ← upgrade_steps r plugin currPlugin;
          _ ← on_plugin currPlugin resetPendingStatus;
          mret e
      end
  end.

Definition installPlugin (r : request) : M PM (option error) :=
  x ← some_or_panic (newPlugin r);
  match x with
  | Err e => mret (Some (ErrWrap "failed to create new plugin instance" e))
  | Ok x =>
      _ ← event (Name x) (Revision x) PLUGIN_CONFIG_INSTALL (detail "Received request to install a plugin.");
      curr ← Fetch (GetName r);
      match curr with
      | Ok currPlugin =>
          rev ← deref currPlugin Revision;
          if bool_decide (rev = GetRevisionId r) then
            name ← deref currPlugin Name;
            _ ← event name rev PLUGIN_INSTALL_FAILED (detail "Plugin is already installed or being processed.");
            mret (Some (ErrMsg "plugin is already installed or being processed"))
          else upgradePlugin r
      | Err _ =>
          plugin ← alloc x;
          steps ← gets (λ s, generateInstallWorkflow r (protocol s) (menv s));
          runlaunchPluginSteps plugin steps
      end
  end.

Definition removePlugin (r : request) : M PM (option error) :=
  curr ← Fetch (GetName r);
  match curr with
  | Err _ =>
      _ ← event (GetName r) (GetRevisionId r) PLUGIN_REMOVE_FAILED (detail "Plugin not found.");
      mret (Some (ErrMsg "plugin not found"))
  | Ok p =>
      name ← deref p Name;
      rev ← deref p Revision;
      _ ← event name rev PLUGIN_CONFIG_REMOVE (detail "Received request to remove a plugin.");
      e ← stopAndRemovePlugin p true;
      match e with
      | Some e => mret (Some (ErrWrap "failed to remove plugin" e))
      | None =>
          s ← get;
          dir ← deref p (stateDir (menv s));
          x ← Exists dir TypeDir;
          if negb x then mret None else os_RemoveAll dir
      end
  end.

(** [setConfig(p.Manifest, req)] on the plugin's own manifest. *)
Definition set_plugin_config (r : request) : M pst (option error) :=
  m ← this manifest;
  '(m, e) ← some_or_panic (setConfig m r);
  _ ← set_self (with_manifest (λ _, m));
  mret e.

(** What [applyConfig] does with the plugin it found. *)
Definition apply_to_plugin (r : request) : M pst (option error) :=
  _ ← sendEvent PLUGIN_CONFIG_APPLY (detail "Received request to apply a config to a plugin.");
  e ← set_plugin_config r;
  match e with
  | Some e =>
      _ ← sendEvent PLUGIN_CONFIG_APPLY_FAILED (detail_err "Failed to set config" e);
      mret (Some (ErrWrap "failed to set config" e))
  | None =>
      loc ← this IsLocal;
      e ← (if negb loc then Store else mret None);
      match e with
      | Some e =>
          _ ← sendEvent PLUGIN_CONFIG_APPLY_FAILED (detail_err "Failed to store config" e);
          mret (Some (ErrWrap "failed to store config" e))
      | None =>
          _ ← set_self (with_manifest (set_startConfigHash ""));
          _ ← configHash;
          c ← this (λ x, StartConfig (manifest x));
          st ← Apply c;
          match st with
          | None =>
              _ ← sendEvent PLUGIN_CONFIG_APPLIED (detail "Successfully applied the config to the plugin.");
              mret None
          | Some e =>
              if status_Code e =? codes_Unimplemented then
                x ← this id;
                e ← runSteps fuel (relaunchWorkflow x);
                match e with
                | Some e => _ ← setState CRASHED; mret (Some (ErrWrap "failed to relaunch plugin" e))
                | None =>
                    _ ← sendEvent PLUGIN_CONFIG_APPLIED (detail "Successfully applied the config to the plugin.");
                    mret None
                end
              else
                _ ← sendEvent PLUGIN_CONFIG_APPLY_FAILED (detail_err "Failed to apply config" e);
                mret (Some (ErrWrap "failed to apply config" e))
          end
      end
  end.

Definition applyConfig (r : request) : M PM (option error) :=
  curr ← Fetch (GetName r);
  match curr with
  | Err _ =>
      _ ← event (GetName r) (GetRevisionId r) PLUGIN_CONFIG_APPLY_FAILED (detail "Plugin not found.");
      mret (Some (ErrMsg "plugin not found"))
  | Ok p =>
      on_plugin p (apply_to_plugin r)
  end.

(** [GetLocalPlugin]: the request in a local manifest, [None] without one. *)
Definition GetLocalPlugin (name : string) : M PM (result (option request)) :=
  let textprotoFile := path_Join [LocalPluginDir; name; manifestFile] in
  data ← os_ReadFile textprotoFile;
  match data with
  | Err e =>
      if IsNotExist e then mret (Ok None)
      else mret (Err (ErrWrap "failed to read local plugin manifest file" e))
  | Ok data =>
      match proto_Unmarshal data with
      | Err e => mret (Err (ErrWrap "failed to unmarshal manifest file into plugin request" e))
      | Ok r =>
          rm ← some_or_panic (req_Manifest r);
          let rm := mkReqManifest (rm_StartAttemptCount rm) (rm_MaxMemoryUsageBytes rm)
            (rm_MaxCpuUsagePercentage rm) (rm_StopTimeout rm) (rm_StartTimeout rm)
            (rm_DownloadTimeout rm) (rm_DownloadAttemptCount rm) (rm_MaxMetricDatapoints rm)
            (rm_MetricsInterval rm) (rm_PluginType rm) LOCAL_INSTALLATION (rm_Config rm) (rm_BootCritical rm) in
          let rp :=
            if bool_decide (GetRevisionId r = "") && bool_decide (GetName r = CorePluginName)
            then (λ p, mkReqPlugin (rp_Name p) Version (rp_GcsSignedUrl p) (rp_EntryPoint p)
                         (rp_Checksum p) (rp_Arguments p)) <$> req_Plugin r
            else req_Plugin r in
          mret (Ok (Some (mkRequest INSTALL rp (Some rm))))
      end
  end.

Definition count_request (a : Action) (success : bool) : M PM unit :=
  modify (λ s,
    let counts := default ∅ (requestCount s !! a) in
    set_requestCount (<[a := <[success := default 0 (counts !! success) + 1]> counts]> (requestCount s)) s).

Definition finish_request (r : request) : M PM unit :=
  modify (λ s, set_inProgress (delete (GetName r) (inProgress s)) s).

(** Whether the request is counted as a success. *)
Definition process_request (r : request) : M PM bool :=
  match req_Action r with
  | INSTALL => e ← installPlugin r; mret (bool_decide (e = None))
  | REMOVE =>
      if EnableLocalPlugins && bool_decide (GetName r = CorePluginName) then
        e ← removePlugin r; mret (bool_decide (e = None))
      else
        local ← GetLocalPlugin (GetName r);
        match local with
        | Err _ => mret false
        | Ok (Some localInstallation) => _ ← installPlugin localInstallation; mret false
        | Ok None => e ← removePlugin r; mret (bool_decide (e = None))
        end
  | APPLY => e ← applyConfig r; mret (bool_decide (e = None))
  | ACTION_UNSPECIFIED => mret false
  end.

Definition configurePlugin (r : request) : M PM unit :=
  success ← process_request r;
  _ ← count_request (req_Action r) success;
  finish_request r.

(** One request of the message: skipped when its plugin has one in progress. *)
Definition filter_request (setInProgress : bool) (filtered : list request) (r : request)
    : M PM (list request) :=
  busy ← gets (λ s, inProgress s !! GetName r);
  match busy with
  | Some _ => mret filtered
  | None =>
      _ ← when setInProgress (modify (λ s, set_inProgress (<[GetName r := true]> (inProgress s)) s));
      mret (filtered ++ [r])
  end.

(** The requests of a message that may proceed, marked as in progress. *)
Definition filterPendingPluginRevisions (reqs : list request) (setInProgress : bool) : M PM (list request) :=
  for_acc reqs [] (filter_request setInProgress).

(** The handler when its goroutines run one after the other. *)
Definition ConfigurePluginStates (reqs : list request) : M PM unit :=
  toProcess ← filterPendingPluginRevisions reqs true;
  for_each toProcess configurePlugin.

(** ** Reports *)
Record plugin_state := mkPluginState {
  ps_Name : string;
  ps_Revision : string;
  ps_Status : StatusValue;
  ps_Health : option healthCheck;
  ps_Metrics : list Metric;
  ps_ConfigHash : string;
  ps_PendingRevision : option string;
}.

Definition report_plugin : M pst plugin_state :=
  x ← this id;
  ms ← some_or_panic (BoundedList.All zero_Metric (metrics (runtime x)));
  h ← configHash;
  l ← some_or_panic (BoundedList.Reset zero_Metric (metrics (runtime x)));
  _ ← set_self (with_runtime (set_metrics l));
  mret (mkPluginState (Name x) (Revision x) (State x) (healthInfo x) ms h
          (pending_revision <$> pendingStatus x)).

Definition ListPluginStates : M PM (list plugin_state) :=
  ps ← list_;
  for_acc ps [] (λ states p, st ← on_plugin p report_plugin; mret (states ++ [st])).

(** One iteration of the search: [inr] leaves the loop. *)
Definition verify_one (r : request) (p : ptr) : M PM (unit + option error) :=
  name ← deref p Name;
  if negb (bool_decide (name = GetName r)) then mret (inl tt)
  else
    st ← deref p State;
    rev ← deref p Revision;
    if negb (bool_decide (st = RUNNING)) || negb (bool_decide (rev = GetRevisionId r))
    then mret (inr (Some (ErrMsg "plugin is not running")))
    else mret (inr None).

Definition VerifyPluginRunning (r : request) : M PM (option error) :=
  ps ← list_;
  res ← for_until ps tt (λ _ p, verify_one r p);
  mret (match res with
        | inr r => r
        | inl _ => Some (ErrMsg "plugin not found")
        end).

(** ** Start and shutdown *)
Definition load (dir : string) : M PM (result (gmap string ptr)) :=
  files ← os_ReadDir dir;
  match files with
  | Err e =>
      if IsNotExist e then mret (Ok ∅)
      else mret (Err (ErrFmt "unable to load plugin state from directory" e))
  | Ok files =>
      r ← for_until files ∅ (λ m f,
        match f.2 with
        | NDir => mret (inl m)
        | _ =>
            data ← os_ReadFile (path_Join [dir; f.1]);
            match data with
            | Err e => mret (inr (ErrWrap "unabled to read plugin state" e))
            | Ok data =>
                match gob_Decode data with
                | Err e => mret (inr (ErrWrap "unable to decode plugin state file" e))
                | Ok x =>
                    l ← some_or_panic (BoundedList.New zero_Metric (MaxMetricDatapoints (manifest x)));
                    let x := with_runtime (set_metrics l) x in
                    let x := if bool_decide (Name x = CorePluginName)
                             then with_manifest (set_types DAEMON LOCAL_INSTALLATION) x else x in
                    p ← alloc x;
                    mret (inl (<[Name x := p]> m))
                end
            end
        end);
      mret (match r with inl m => Ok m | inr e => Err e end)
  end.

Definition InitAdHocPluginManager (id : string) : M PM (option error) :=
  _ ← modify (λ s, set_menv (mkEnv (env_fs (menv s)) id (events (menv s)) (clock (menv s))) s);
  dir ← gets (λ s, agentPluginState (menv s));
  r ← load dir;
  match r with
  | Err e => mret (Some (ErrWrap "unable to load existing plugin state" e))
  | Ok m => _ ← modify (set_plugins m); mret None
  end.

Definition StopPlugin (name : string) : M PM (option error) :=
  r ← Fetch name;
  match r with
  | Err _ => mret None
  | Ok p =>
      _ ← on_plugin p Connect;
      stopAndRemovePlugin p true
  end.

Definition RemoveAllDynamicPlugins : M PM (option error) :=
  ps ← list_;
  errs ← for_acc ps [] (λ errs p,
    loc ← deref p IsLocal;
    if (loc : bool) then mret errs
    else
      name ← deref p Name;
      e ← StopPlugin name;
      mret (errs ++ [e]));
  dir ← gets (λ s, baseState (menv s));
  x ← Exists dir TypeDir;
  e ← (if (x : bool) then
         e ← os_RemoveAll dir; mret (ErrWrap "failed to remove file" <$> e)
       else mret None);
  mret (errors_Join (errs ++ [e])).

(** The body of the goroutine [InitPluginManager] runs per loaded plugin. *)
Definition init_plugin (p : ptr) : M PM unit :=
  name ← deref p Name;
  rev ← deref p Revision;
  _ ← (if bool_decide (name = CorePluginName) && negb (bool_decide (rev = Version)) then
         running ← on_plugin p IsRunning;
         when running (on_plugin p (setState RUNNING))
       else
         e ← on_plugin p (connectOrReLaunch fuel);
         match e with
         | Some _ => mret tt
         | None => startPluginSchedulers p
         end);
  modify (λ s, set_inProgress (delete name (inProgress s)) s).

(** Local plugins are not restored: their state file goes. *)
Definition drop_local (m : gmap string ptr) (p : ptr) : M PM (gmap string ptr) :=
  loc ← deref p IsLocal;
  if (loc : bool) then
    s ← get;
    f ← deref p (stateFile (menv s));
    _ ← os_Remove f;
    name ← deref p Name;
    mret (delete name m)
  else mret m.

Definition isUDSSupported : bool := true.

(** [register] is the outcome of registering the command handler. *)
Definition InitPluginManager (id : string) (register : option error) : M PM (option error) :=
  _ ← modify (λ s, set_menv (mkEnv (env_fs (menv s)) id (events (menv s)) (clock (menv s))) s);
  base ← gets (λ s, baseState (menv s));
  _ ← spawn (TaskCleanupOldState (Dir base));
  dir ← gets (λ s, agentPluginState (menv s));
  r ← load dir;
  match r with
  | Err e => mret (Some (ErrWrap "unable to load existing plugin state" e))
  | Ok m =>
      m ← for_acc (map_to_list m).*2 m drop_local;
      _ ← modify (set_plugins m);
      _ ← Scheduler.ScheduleJobs [CleanupJob];
      match register with
      | Some e => mret (Some (ErrWrap "failed to register plugin command handler" e))
      | None =>
          let ps := (map_to_list m).*2 in
          _ ← for_each ps (λ p, name ← deref p Name;
                 modify (λ s, set_inProgress (<[name := true]> (inProgress s)) s));
          _ ← modify (set_IsInitialized true);
          _ ← for_each ps init_plugin;
          _ ← modify (set_protocol
                (if bool_decide (ConnectionType = tcpProtocol) then tcpProtocol
                 else if isUDSSupported then udsProtocol else tcpProtocol));
          mret None
      end
  end.

(** ** Local plugins *)
Definition run_OnReady (config : gmap string LocalPluginInstallation) (name : string) : M PM unit :=
  match config !! name with
  | Some i => when (OnReady i) (modify (λ s, set_onReady (onReady s ++ [name]) s))
  | None => mret tt
  end.

Definition configureAndVerifyPlugin (r : request) (config : gmap string LocalPluginInstallation)
    : M PM (option error) :=
  _ ← configurePlugin r;
  e ← VerifyPluginRunning r;
  match e with
  | Some e => mret (Some (ErrFmt "failed to verify local plugin is running" e))
  | None => _ ← run_OnReady config (GetName r); mret None
  end.

(** One directory of the local plugins: a request to install, or nothing. *)
Definition local_request (config : gmap string LocalPluginInstallation) (name : string)
    : M PM (result (option request)) :=
  r ← GetLocalPlugin name;
  match r with
  | Err e => mret (Err (ErrWrap "failed to get local plugin" e))
  | Ok None => mret (Ok None)
  | Ok (Some req) =>
      let pluginName := GetName req in
      if match config !! pluginName with Some i => negb (Enable i) | None => false end
      then mret (Ok None)
      else
        p ← Fetch pluginName;
        match p with
        | Err _ => mret (Ok (Some req))
        | Ok p =>
            x ← deref p id;
            if IsDynamic x || IsLocal x && bool_decide (Revision x = GetRevisionId req) then
              _ ← run_OnReady config pluginName; mret (Ok None)
            else mret (Ok (Some req))
        end
  end.

Definition StartLocalPlugins (config : gmap string LocalPluginInstallation) : M PM (option error) :=
  files ← os_ReadDir LocalPluginDir;
  match files with
  | Err e =>
      if IsNotExist e then mret None
      else mret (Some (ErrWrap "unable to read local plugins directory" e))
  | Ok files =>
      r ← for_until files [] (λ reqs f,
        match f.2 with
        | NDir =>
            q ← local_request config f.1;
            match q with
            | Err e => mret (inr e)
            | Ok None => mret (inl reqs)
            | Ok (Some req) =>
                mret (inl (if bool_decide (GetName req = CorePluginName) then req :: reqs else reqs ++ [req]))
            end
        | _ => mret (inl reqs)
        end);
      match r with
      | inr e => mret (Some e)
      | inl [] => mret None
      | inl reqs =>
          toProcess ← filterPendingPluginRevisions reqs true;
          (* [req.Manifest.ExecutionModel]: local manifests are never nil. *)
          let critical := filter (λ r, rm_BootCritical (GetManifest r) = Some true) toProcess in
          let others := filter (λ r, rm_BootCritical (GetManifest r) ≠ Some true) toProcess in
          errs ← for_acc critical [] (λ errs r, e ← configureAndVerifyPlugin r config; mret (errs ++ [e]));
          match errors_Join errs with
          | Some e => mret (Some e)
          | None => _ ← for_each others (λ r, spawn (TaskConfigure r config)); mret None
          end
      end
  end.

(** A background goroutine runs. *)
Definition run_task (t : task) : M PM unit :=
  match t with
  | TaskCleanupOldState path => _ ← cleanupOldState path; mret tt
  | TaskSchedulers p => _ ← startMonitoring p; startMetricsMonitoring p
  | TaskConfigure r config => _ ← configureAndVerifyPlugin r config; mret tt
  end.

End manager.
End PluginManager.
