(* ===== verification/PluginManagerFacts.v ===== *)
(** * Facts about the plugin manager's handlers

    The frame of every handler (what it keeps of the request bookkeeping, the
    identities in the heap, the history of events, the well-formedness of the
    table of plugins), the rules to run them, and the handlers' outcomes:
    installing, upgrading, removing, applying a configuration, reporting. *)
From S2P Require Import Prelude GoStrings Os Retry BoundedList FileUtil Plugin PluginSteps Scheduler.
From S2P Require Import PluginManager PluginFacts.

Local Open Scope Z_scope.

Module PluginManagerFacts.
Import Plugin PluginSteps PluginManager PluginFacts.

(** ** Well-formed managers *)

(** Every name of the table points to a plugin of that name. *)
Definition wf (s : PM) : Prop :=
  ∀ name p, plugins s !! name = Some p → ∃ x, heap s !! p = Some x ∧ Name x = name.

(** The identities of the plugins ever allocated. *)
Definition heap_ids (s : PM) : gmap ptr (string * string * InstallationType) := ident <$> heap s.

Definition pm_frame (s s' : PM) : Prop :=
  inProgress s' = inProgress s ∧ requestCount s' = requestCount s ∧
  instanceID (menv s') = instanceID (menv s) ∧ events (menv s) `prefix_of` events (menv s') ∧
  heap_ids s ⊆ heap_ids s' ∧ (wf s → wf s').

#[global] Instance pm_frame_preorder : PreOrder pm_frame.
Proof.
  split; [by intros s; split_and!|].
  intros s1 s2 s3 (H1 & H2 & H3 & H4 & H5 & H6) (K1 & K2 & K3 & K4 & K5 & K6).
  split_and!; [congruence|congruence|congruence|by etrans|by etrans|auto].
Qed.

#[global] Instance pm_frame_fs : IgnoresFS pm_frame.
Proof. intros f s. split_and!; done. Qed.

Section frames.
Context `{Config} `{World} `{OsFaults} `{FileUtil.Archives} `{RequestCodec}.
Context (fuel : nat).

Lemma heap_ids_insert s p x x' :
  heap s !! p = Some x → ident x' = ident x → ident <$> (<[p := x']> (heap s)) = heap_ids s.
Proof.
  intros Hp Hi. unfold heap_ids. rewrite fmap_insert, Hi. apply insert_id.
  by rewrite lookup_fmap, Hp.
Qed.

Lemma wf_insert s p x x' e :
  heap s !! p = Some x → ident x' = ident x → wf s →
  wf (set_menv e (set_heap (<[p := x']> (heap s)) s)).
Proof.
  intros Hp Hi Hwf name q Hq. simpl in *. destruct (Hwf name q Hq) as (y & Hy & Hn).
  destruct (decide (p = q)) as [->|Hne].
  - rewrite lookup_insert_eq. simplify_eq. exists x'. split; [done|]. exact Hi.
  - rewrite lookup_insert_ne by done. eauto.
Qed.

Lemma frame_on_plugin {A} p (m : M pst A) : respects pst_frame m → respects pm_frame (on_plugin p m).
Proof.
  intros Hm s s' a. unfold on_plugin. destruct (heap s !! p) as [x|] eqn:Hp; [|done]. simpl.
  destruct (m _) as [[r b]|] eqn:E; [|done]. intros [= <- <-].
  destruct (Hm _ _ _ E) as (Hi & Hid & Hev). simpl in *. split_and!; try done.
  - unfold heap_ids at 2. simpl. by rewrite (heap_ids_insert s p x).
  - by apply (wf_insert s p x).
Qed.

Lemma frame_env_ext {A} (f : nat → A) : respects pm_frame (on_menv (env_ext f)).
Proof. intros s s' a [= <- _]. by split_and!. Qed.

Lemma frame_event n r ty d : respects pm_frame (event n r ty d).
Proof. intros s s' a [= <- _]. split_and!; simpl; try done. by apply prefix_app_r. Qed.

Lemma frame_this_m {A} p (f : Plugin → A) : respects pm_frame (deref p f).
Proof. apply frame_on_plugin. intros s s' a [= <- _]. by split_and!. Qed.

Lemma frame_alloc x : respects pm_frame (alloc x).
Proof.
  intros s s' a [= <- _]. assert (Hf : heap s !! fresh (dom (heap s)) = None).
  { apply not_elem_of_dom, is_fresh. }
  split_and!; try done.
  - unfold heap_ids. simpl. rewrite fmap_insert. apply insert_subseteq. by rewrite lookup_fmap, Hf.
  - intros Hwf name q Hq. simpl in *. destruct (Hwf name q Hq) as (y & Hy & Hn).
    exists y. split; [|done]. rewrite lookup_insert_ne; [done|]. congruence.
Qed.

Lemma frame_modify f :
  (∀ s, inProgress (f s) = inProgress s ∧ requestCount (f s) = requestCount s ∧
        menv (f s) = menv s ∧ heap (f s) = heap s ∧ plugins (f s) ⊆ plugins s) →
  respects pm_frame (modify f).
Proof.
  intros Hf. apply respects_modify. intros s. destruct (Hf s) as (H1' & H2' & H3' & H4' & H5').
  unfold pm_frame, heap_ids, wf. rewrite H1', H2', H3', H4'. split_and!; try done.
  intros Hwf name p Hp. apply Hwf. by eapply lookup_weaken.
Qed.

Lemma frame_add p : respects pm_frame (add p).
Proof.
  intros s s' a. unfold add, mbind, M_bind, deref, on_plugin.
  destruct (heap s !! p) as [x|] eqn:Hp; [|done]. intros [= <- _].
  unfold pm_frame, heap_ids, wf. simpl. rewrite (insert_id _ _ _ Hp). split_and!; try done.
  intros Hwf name q. destruct (decide (name = Name x)) as [->|Hne].
  - rewrite lookup_insert_eq. intros [= <-]. eauto.
  - rewrite lookup_insert_ne by done. apply Hwf.
Qed.

#[local] Hint Resolve frame_env_ext frame_event frame_this_m frame_alloc frame_add : respects.
#[local] Hint Extern 3 (respects pm_frame (modify _)) =>
  (apply frame_modify; intros; split_and!; first [done | apply delete_subseteq]) : respects.
#[local] Hint Extern 3 (respects pm_frame (delete_ _)) =>
  (apply frame_modify; intros; split_and!; first [done | apply delete_subseteq]) : respects.
#[local] Hint Extern 3 (respects pm_frame (spawn _)) =>
  (apply frame_modify; intros; split_and!; done) : respects.
#[local] Hint Extern 3 (respects pm_frame (Fetch _)) => (apply respects_gets; typeclasses eauto) : respects.
#[local] Hint Extern 3 (respects pm_frame list_) => (apply respects_gets; typeclasses eauto) : respects.

Lemma frame_on_runSteps p steps : respects pm_frame (on_plugin p (runSteps fuel steps)).
Proof. apply frame_on_plugin, frame_runSteps. Qed.
Lemma frame_on_Connect p : respects pm_frame (on_plugin p Connect).
Proof. apply frame_on_plugin, frame_Connect. Qed.
Lemma frame_on_pending p st : respects pm_frame (on_plugin p (set_self (with_runtime (set_pending st)))).
Proof. by apply frame_on_plugin, frame_set_self. Qed.
#[local] Hint Resolve frame_on_runSteps frame_on_Connect frame_on_pending : respects.
#[local] Hint Extern 3 (respects pm_frame (on_plugin _ resetPendingStatus)) => (apply frame_on_pending) : respects.
#[local] Hint Extern 3 (respects pm_frame (on_plugin _ (setPendingStatus _ _))) => (apply frame_on_pending) : respects.

Lemma frame_UnscheduleJob id : respects pm_frame (Scheduler.UnscheduleJob (S := PM) (J := job) id).
Proof. unfold Scheduler.UnscheduleJob, Scheduler.IsScheduled, Scheduler.remove. respects_solve. Qed.
#[local] Hint Resolve frame_UnscheduleJob : respects.

Lemma frame_stopMonitoring p : respects pm_frame (stopMonitoring p).
Proof. unfold stopMonitoring. respects_solve. Qed.
Lemma frame_stopMetricsMonitoring p : respects pm_frame (stopMetricsMonitoring p).
Proof. unfold stopMetricsMonitoring. respects_solve. Qed.
#[local] Hint Resolve frame_stopMonitoring frame_stopMetricsMonitoring : respects.

Lemma frame_runlaunch p steps : respects pm_frame (runlaunchPluginSteps fuel p steps).
Proof. unfold runlaunchPluginSteps, startPluginSchedulers. respects_solve. Qed.
Lemma frame_stopAndRemove p b : respects pm_frame (stopAndRemovePlugin fuel p b).
Proof. unfold stopAndRemovePlugin. respects_solve. Qed.
#[local] Hint Resolve frame_runlaunch frame_stopAndRemove : respects.

Lemma frame_upgrade r : respects pm_frame (upgradePlugin fuel r).
Proof. unfold upgradePlugin, upgrade_steps. respects_solve. Qed.
#[local] Hint Resolve frame_upgrade : respects.
Lemma frame_install r : respects pm_frame (installPlugin fuel r).
Proof. unfold installPlugin. respects_solve. Qed.
Lemma frame_remove r : respects pm_frame (removePlugin fuel r).
Proof. unfold removePlugin. respects_solve. Qed.
#[local] Hint Resolve frame_install frame_remove : respects.

Lemma frame_set_plugin_config r : respects pst_frame (set_plugin_config r).
Proof.
  intros s s' a. unfold set_plugin_config, mbind, M_bind, this, gets, setConfig.
  destruct (req_Manifest r) as [rm|]; [|done]. simpl.
  destruct (rm_Config rm) as [[c|c]|]; simpl; try (intros [= <- _]; by split_and!).
  destruct (struct_Marshal c); simpl; intros [= <- _]; by split_and!.
Qed.

Lemma frame_apply r : respects pst_frame (apply_to_plugin fuel r).
Proof.
  unfold apply_to_plugin. respects_step; [apply frame_sendEvent|].
  respects_step; [apply frame_set_plugin_config|]. respects_solve;
    first [apply frame_sendEvent | apply frame_this | apply frame_Store | by apply frame_set_self
          | apply frame_configHash | apply frame_Apply | apply frame_runSteps].
Qed.

Lemma frame_applyConfig r : respects pm_frame (applyConfig fuel r).
Proof. unfold applyConfig. respects_solve; by apply frame_on_plugin, frame_apply. Qed.

Lemma frame_GetLocalPlugin n : respects pm_frame (GetLocalPlugin n).
Proof. unfold GetLocalPlugin. respects_solve. Qed.
#[local] Hint Resolve frame_applyConfig frame_GetLocalPlugin : respects.

Lemma frame_process r : respects pm_frame (process_request fuel r).
Proof. unfold process_request. respects_solve. Qed.

Lemma frame_report : respects pst_frame report_plugin.
Proof.
  unfold report_plugin. respects_solve; first [apply frame_this | apply frame_configHash | by apply frame_set_self].
Qed.

Lemma frame_ListPluginStates : respects pm_frame ListPluginStates.
Proof. unfold ListPluginStates. respects_solve; apply frame_on_plugin, frame_report. Qed.

Lemma frame_retryFailedRemovals : respects pm_frame retryFailedRemovals.
Proof.
  unfold retryFailedRemovals, scan_dir, remove_link. respects_solve. all: apply frame_on_plugin, frame_cleanup.
Qed.

Lemma frame_job_Run j : respects pm_frame (job_Run fuel j).
Proof.
  destruct j; simpl; [apply frame_on_plugin, frame_monitor|apply frame_on_plugin, frame_metrics
    |apply frame_retryFailedRemovals].
Qed.

Lemma frame_sched_run j :
  respects pm_frame (@Scheduler.run PM job PM_SchedState (PM_Job fuel) j).
Proof. unfold Scheduler.run. simpl. respects_solve. all: apply frame_job_Run. Qed.

Lemma frame_ScheduleJob j :
  respects pm_frame (@Scheduler.ScheduleJob PM job PM_SchedState (PM_Job fuel) j).
Proof.
  unfold Scheduler.ScheduleJob, Scheduler.IsScheduled, Scheduler.add. simpl.
  respects_solve. all: apply frame_sched_run.
Qed.

Lemma frame_tick t : respects pm_frame (@Scheduler.tick PM job PM_SchedState (PM_Job fuel) t).
Proof.
  unfold Scheduler.tick, Scheduler.remove. simpl. respects_solve. all: apply frame_sched_run.
Qed.

Lemma frame_startMonitoring p : respects pm_frame (startMonitoring fuel p).
Proof. unfold startMonitoring. respects_solve; apply frame_ScheduleJob. Qed.

Lemma frame_startMetricsMonitoring p : respects pm_frame (startMetricsMonitoring fuel p).
Proof. unfold startMetricsMonitoring. respects_solve; apply frame_ScheduleJob. Qed.

Lemma frame_cleanupOldState path : respects pm_frame (cleanupOldState path).
Proof. unfold cleanupOldState. respects_solve. Qed.

End frames.

(** ** Running handlers *)

(** The state after a method on the plugin at [p]. *)
Definition upd (s : PM) (p : ptr) (x : Plugin) (e : env) : PM :=
  set_menv e (set_heap (<[p := x]> (heap s)) s).

Section rules.

Lemma wp_assoc {S A B C} (a : M S A) (b : M S B) (k : B → M S C) Q s :
  wp ((_ ← a; b) ≫= k) Q s → wp (_ ← a; y ← b; k y) Q s.
Proof. unfold wp, mbind, M_bind. by destruct (a s) as [[]|]. Qed.

Lemma wp_on_plugin {A} p x (m : M pst A) (Q : A → PM → Prop) s :
  heap s !! p = Some x →
  wp m (λ a r, Q a (upd s p (self r) (penv r))) (mkPst x (menv s)) →
  wp (on_plugin p m) Q s.
Proof.
  intros Hp. unfold wp, on_plugin. rewrite Hp. simpl. by destruct (m _) as [[r a]|].
Qed.

Lemma wp_deref {A} p x (f : Plugin → A) (Q : A → PM → Prop) s :
  heap s !! p = Some x → Q (f x) s → wp (deref p f) Q s.
Proof.
  intros Hp HQ. unfold deref. apply (wp_on_plugin p x); [done|]. apply wp_this. simpl.
  unfold upd. rewrite (insert_id _ _ _ Hp). by destruct s as [? ? ? ? ? ? ? ? ? ? ? ? []].
Qed.

Lemma wp_event n r ty d (Q : unit → PM → Prop) s :
  (∀ e, Q tt (set_menv e s)) → wp (event n r ty d) Q s.
Proof. intros HQ. apply HQ. Qed.

Lemma wp_menv_ext {A} (f : nat → A) (Q : A → PM → Prop) s :
  (∀ a e, Q a (set_menv e s)) → wp (on_menv (env_ext f)) Q s.
Proof. intros HQ. apply HQ. Qed.

Lemma wp_alloc x (Q : ptr → PM → Prop) s :
  (∀ p, heap s !! p = None → Q p (set_heap (<[p := x]> (heap s)) s)) → wp (alloc x) Q s.
Proof. intros HQ. apply HQ, not_elem_of_dom, is_fresh. Qed.

Lemma wp_add p x (Q : unit → PM → Prop) s :
  heap s !! p = Some x → Q tt (set_plugins (<[Name x := p]> (plugins s)) s) → wp (add p) Q s.
Proof. intros Hp HQ. unfold add. apply wp_bind, (wp_deref p x); [done|]. by apply wp_modify. Qed.

Lemma wp_Fetch n (Q : result ptr → PM → Prop) s :
  Q (match plugins s !! n with Some p => Ok p | None => Err (ErrMsg "plugin not found") end) s →
  wp (Fetch n) Q s.
Proof. done. Qed.

Lemma wp_spawn tk (Q : unit → PM → Prop) s :
  Q tt (set_background (background s ++ [tk]) s) → wp (spawn tk) Q s.
Proof. done. Qed.

Lemma wp_delete n (Q : unit → PM → Prop) s :
  Q tt (set_plugins (delete n (plugins s)) s) → wp (delete_ n) Q s.
Proof. done. Qed.

End rules.

(** Looking up a pointer in the heap: a hypothesis, through updates at other
    pointers. *)
Ltac heap_lookup :=
  simpl; first
    [ eassumption
    | apply lookup_insert_eq
    | rewrite lookup_insert_ne by congruence; heap_lookup ].

(** One step of a handler; pointers are resolved by the hypotheses. *)
Ltac m_step :=
  lazymatch goal with
  | |- wp (deref _ _) _ _ => eapply wp_deref; [heap_lookup|]
  | |- wp (event _ _ _ _) _ _ => apply wp_event; intros ?
  | |- wp (on_menv (env_ext _)) _ _ => apply wp_menv_ext; intros ? ?
  | |- wp (alloc _) _ _ => apply wp_alloc; intros ? ?
  | |- wp (add _) _ _ => eapply wp_add; [heap_lookup|]
  | |- wp (Fetch _) _ _ => apply wp_Fetch
  | |- wp (spawn _) _ _ => apply wp_spawn
  | |- wp (startPluginSchedulers _) _ _ => apply wp_spawn
  | |- wp (delete_ _) _ _ => apply wp_delete
  | |- _ => wp_step
  end; cbn beta.

Section outcomes.
Context `{Config} `{World} `{OsFaults} `{FileUtil.Archives} `{RequestCodec}.
Context (fuel : nat).

(** The tables a handler leaves alone besides plugins and heap. *)
Definition same_tables (s s' : PM) : Prop :=
  pluginMonitors s' = pluginMonitors s ∧ pluginMetricsMonitors s' = pluginMetricsMonitors s ∧
  scheduled s' = scheduled s ∧ protocol s' = protocol s.

Lemma wp_run_stop ss (s : pst) :
  wp (runSteps fuel [StopStep ss])
     (λ r s', ident (self s') = ident (self s) ∧
        match r with
        | None => live (self s') = (STOPPED, 0, None)
        | Some _ => State (self s') = STATE_VALUE_UNSPECIFIED
        end) s.
Proof.
  apply wp_mono with (Q := λ r s', match r with
        | None => live (self s') = (STOPPED, 0, None)
        | Some _ => State (self s') = STATE_VALUE_UNSPECIFIED
        end ∧ pst_frame s s'); [|intros r s' [Hr (Hi & _)]; by split].
  apply wp_frame; [|apply frame_runSteps]. unfold runSteps. do 3 p_step.
  eapply wp_total; [apply total_ext|]. intros [e|] s1; [by p_steps|]. p_step.
  eapply wp_mono; [apply wp_stop|]. intros r s2 [-> Hl]. by p_steps.
Qed.

Lemma wp_runlaunch p x steps l s :
  heap s !! p = Some x → Forall (step_covered fuel) steps → last steps = Some (Launch l) →
  wp (runlaunchPluginSteps fuel p steps)
     (λ r s', same_tables s s' ∧ ∃ x', heap s' = <[p := x']> (heap s) ∧ ident x' = ident x ∧
        match r with
        | None => State x' = RUNNING ∧ plugins s' = <[Name x := p]> (plugins s) ∧
                  background s' = background s ++ [TaskSchedulers p]
        | Some _ => plugins s' = delete (Name x) (plugins s) ∧ background s' = background s
        end) s.
Proof.
  intros Hp Hc Hl. unfold runlaunchPluginSteps. do 3 m_step.
  apply (wp_on_plugin p x); [done|]. simpl.
  eapply wp_mono; [apply (wp_frame _ pst_frame); [by apply wp_runSteps|apply frame_runSteps]|].
  intros [e|] r [Ho (Hi & _)]; simpl in *.
  - assert (Hn : Name (self r) = Name x) by (by injection Hi).
    do 13 m_step. rewrite Hn. split; [done|]. exists (self r). split_and!; try done.
    simpl. by rewrite delete_insert_eq.
  - rewrite Hl in Ho. simpl in Ho. assert (Hn : Name (self r) = Name x) by (by injection Hi).
    do 9 m_step. split; [done|]. exists (self r). by split_and!.
Qed.

(** Unscheduling the job registered for a name, if any. *)
Definition unscheduled (monitors : gmap string string) (name : string)
    (m : gmap string (Scheduler.jobConfig job)) : gmap string (Scheduler.jobConfig job) :=
  match monitors !! name with Some id => delete id m | None => m end.

Lemma wp_UnscheduleJob id (Q : unit → PM → Prop) s :
  Q tt (set_scheduled (delete id (scheduled s)) s) →
  wp (Scheduler.UnscheduleJob (S := PM) (J := job) id) Q s.
Proof.
  intros HQ. unfold Scheduler.UnscheduleJob, Scheduler.IsScheduled, Scheduler.remove.
  wp_step. wp_step. case_bool_decide as Hs; simpl; [by apply wp_modify|].
  apply wp_ret. rewrite delete_id in HQ by (by apply eq_None_not_Some). by destruct s.
Qed.

Lemma wp_stopMonitoring p x (Q : unit → PM → Prop) s :
  heap s !! p = Some x →
  Q tt (set_scheduled (unscheduled (pluginMonitors s) (FullName x) (scheduled s))
         (set_monitors (delete (FullName x) (pluginMonitors s)) s)) →
  wp (stopMonitoring p) Q s.
Proof.
  intros Hp HQ. unfold stopMonitoring. m_step. m_step. m_step. m_step. unfold unscheduled in HQ.
  destruct (pluginMonitors s !! FullName x) as [id|] eqn:E.
  - m_step. m_step. by apply wp_UnscheduleJob.
  - apply wp_ret. rewrite delete_id in HQ by done. by destruct s.
Qed.

Lemma wp_stopMetricsMonitoring p x (Q : unit → PM → Prop) s :
  heap s !! p = Some x →
  Q tt (set_scheduled (unscheduled (pluginMetricsMonitors s) (FullName x) (scheduled s))
         (set_metrics_monitors (delete (FullName x) (pluginMetricsMonitors s)) s)) →
  wp (stopMetricsMonitoring p) Q s.
Proof.
  intros Hp HQ. unfold stopMetricsMonitoring. m_step. m_step. m_step. m_step. unfold unscheduled in HQ.
  destruct (pluginMetricsMonitors s !! FullName x) as [id|] eqn:E.
  - m_step. m_step. by apply wp_UnscheduleJob.
  - apply wp_ret. rewrite delete_id in HQ by done. by destruct s.
Qed.

(** Nothing is left running for the plugin: its jobs are unscheduled. *)
Definition unmonitored (x : Plugin) (s s' : PM) : Prop :=
  pluginMonitors s' = delete (FullName x) (pluginMonitors s) ∧
  pluginMetricsMonitors s' = delete (FullName x) (pluginMetricsMonitors s) ∧
  scheduled s' = unscheduled (pluginMetricsMonitors s) (FullName x)
                   (unscheduled (pluginMonitors s) (FullName x) (scheduled s)) ∧
  background s' = background s ∧ protocol s' = protocol s.

Lemma wp_stopAndRemove p x b s :
  heap s !! p = Some x →
  wp (stopAndRemovePlugin fuel p b)
     (λ r s', unmonitored x s s' ∧ ∃ x', heap s' = <[p := x']> (heap s) ∧ ident x' = ident x ∧
        match r with
        | None => live x' = (STOPPED, 0, None) ∧ plugins s' = delete (Name x) (plugins s)
        | Some _ => State x' = STATE_VALUE_UNSPECIFIED ∧ plugins s' = plugins s
        end) s.
Proof.
  intros Hp. unfold stopAndRemovePlugin. m_step. apply (wp_stopMonitoring p x); [done|].
  m_step. apply (wp_stopMetricsMonitoring p x); [done|]. m_step.
  apply (wp_on_plugin p x); [done|]. eapply wp_mono; [apply wp_run_stop|].
  intros r ps [Hi Hr]. simpl in Hi. assert (Hn : Name (self ps) = Name x) by (by injection Hi).
  destruct r as [e|]; cbn beta iota; do 7 m_step; rewrite ?Hn;
    (split; [by split_and!|]; exists (self ps); by split_and!).
Qed.

(** ** Requests that can be carried out *)
Definition request_ok (r : request) : Prop :=
  match req_Manifest r with
  | None => False
  | Some rm =>
      covered fuel (rm_StartAttemptCount rm) ∧
      (rm_InstallationType rm ≠ LOCAL_INSTALLATION → covered fuel (rm_DownloadAttemptCount rm)) ∧
      covered fuel defaultConnectTimeoutTries ∧ 0 ≤ rm_MaxMetricDatapoints rm < 2 ^ 63
  end.

Lemma setMetricConfig_total r p :
  request_ok r → ∃ x, setMetricConfig r p = Some x ∧ Name x = Name p ∧ Revision x = Revision p.
Proof.
  unfold request_ok, setMetricConfig, GetManifest, BoundedList.New, BoundedList.makeslice.
  destruct (req_Manifest r) as [rm|]; [|done]. simpl. intros (_ & _ & _ & Hm).
  destruct (Z.eqb_spec (rm_MaxMetricDatapoints rm) 0); simpl; [by eexists|].
  rewrite (proj2 (andb_true_iff _ _)); [by eexists|split; lia].
Qed.

Lemma setConfig_total m r : is_Some (req_Manifest r) → is_Some (setConfig m r).
Proof. intros [rm Hr]. unfold setConfig. rewrite Hr. by eexists. Qed.

Lemma newPlugin_total r :
  request_ok r →
  (∃ e, newPlugin r = Some (Err e)) ∨
  (∃ x, newPlugin r = Some (Ok x) ∧ Name x = GetName r ∧ Revision x = GetRevisionId r).
Proof.
  intros Hr. assert (Hm : is_Some (req_Manifest r)).
  { unfold request_ok in Hr. destruct (req_Manifest r); [by eexists|done]. }
  unfold newPlugin, newPluginManifest.
  match goal with |- context [setConfig ?m0 r] => destruct (setConfig_total m0 r Hm) as [[m [e|]] ->] end;
    simpl; [left; by eexists|right].
  match goal with |- context [setMetricConfig r ?q] =>
    destruct (setMetricConfig_total r q Hr) as (x & -> & Hn & Hv) end.
  exists x. simpl. split; [done|]. rewrite Hn, Hv. by destruct (IsLocal _).
Qed.

Lemma prelaunch_covered r e : request_ok r → Forall (step_covered fuel) (preLaunchWorkflow r e).
Proof.
  unfold request_ok, preLaunchWorkflow, GetManifest. destruct (req_Manifest r) as [rm|]; [|done].
  intros (_ & Hd & _). simpl. case_bool_decide; repeat constructor; by apply Hd.
Qed.

Lemma launch_covered r proto e : request_ok r → step_covered fuel (newLaunchStep r proto e).
Proof.
  unfold request_ok, newLaunchStep, GetManifest. destruct (req_Manifest r) as [rm|]; [|done].
  intros (Hs & _ & H15 & _). by split.
Qed.

Lemma launch_is_launch r proto e : ∃ l, newLaunchStep r proto e = Launch l.
Proof. by eexists. Qed.

(** A fresh installation. *)
Lemma wp_install_fresh r s :
  request_ok r → req_Action r = INSTALL → plugins s !! GetName r = None →
  wp (installPlugin fuel r)
     (λ e s', same_tables s s' ∧ (∀ q y, heap s !! q = Some y → heap s' !! q = Some y) ∧
        match e with
        | None => ∃ p x, heap s !! p = None ∧ heap s' !! p = Some x ∧
            Name x = GetName r ∧ Revision x = GetRevisionId r ∧ State x = RUNNING ∧
            plugins s' = <[GetName r := p]> (plugins s) ∧
            background s' = background s ++ [TaskSchedulers p]
        | Some _ => plugins s' = plugins s ∧ background s' = background s
        end) s.
Proof.
  intros Hr Ha Hp. unfold installPlugin. m_step.
  destruct (newPlugin_total r Hr) as [[e ->]|(x & -> & Hn & Hv)]; simpl; do 2 wp_step; [done|].
  m_step. m_step. m_step. simpl. rewrite Hp. cbn beta iota.
  m_step. apply wp_alloc. intros p Hfresh. simpl in Hfresh. m_step. m_step.
  assert (Hw : ∃ steps l, (generateInstallWorkflow r (protocol s) e) = steps ++ [Launch l] ∧
    Forall (step_covered fuel) (steps ++ [Launch l])).
  { unfold generateInstallWorkflow. rewrite Ha. simpl.
    destruct (launch_is_launch r (protocol s) e) as [l Hl]. exists (preLaunchWorkflow r e), l.
    rewrite Hl. split; [done|]. apply Forall_app. split; [by apply prelaunch_covered|].
    constructor; [|done]. rewrite <-Hl. by apply launch_covered. }
  destruct Hw as (steps & l & Hw & Hc). simpl. rewrite Hw.
  eapply wp_mono; [eapply (wp_runlaunch p x _ l); [simpl; apply lookup_insert_eq|done|apply last_snoc]|].
  intros e' s' (Ht & x' & Hh & Hi & He'). split; [done|]. simpl in *. rewrite insert_insert_eq in Hh.
  split.
  { intros q y Hq. rewrite Hh, lookup_insert_ne; [done|]. congruence. }
  destruct e' as [e'|].
  - destruct He' as [-> ->]. split; [|done]. rewrite Hn. by apply delete_id.
  - destruct He' as (Hst & -> & ->). exists p, x'. rewrite Hh, lookup_insert_eq, Hn.
    injection Hi as Hi1 Hi2 _. rewrite Hi1, Hi2. by split_and!.
Qed.

(** How an upgrade of the plugin [x] at [p] can end. *)
Definition upgrade_outcome (r : request) (p : ptr) (x : Plugin) (s : PM) (e : option error) (s' : PM)
    (x' : Plugin) : Prop :=
  match e with
  | None => ∃ q y, q ≠ p ∧ heap s !! q = None ∧ heap s' !! q = Some y ∧
      Name y = GetName r ∧ Revision y = GetRevisionId r ∧ State y = RUNNING ∧
      plugins s' = <[GetName r := q]> (plugins s) ∧ live x' = (STOPPED, 0, None) ∧
      background s' = background s ++ [TaskSchedulers q]
  | Some _ =>
      background s' = background s ∧
      ( (* nothing happened to the running revision *)
       live x' = live x ∧ manifest x' = manifest x ∧ plugins s' = plugins s ∧ same_tables s s' ∨
       (* stopping it was cut short by the context *)
       State x' = STATE_VALUE_UNSPECIFIED ∧ plugins s' = plugins s ∨
       (* it was removed, and the new revision failed to launch *)
       live x' = (STOPPED, 0, None) ∧ plugins s' = delete (GetName r) (plugins s))
  end.

Lemma wp_upgrade_steps r p q x y s :
  request_ok r → p ≠ q → heap s !! p = Some x → heap s !! q = Some y →
  Name x = GetName r → Name y = GetName r → Revision y = GetRevisionId r →
  wp (upgrade_steps fuel r q p)
     (λ e s', ∃ x' y', heap s' = <[q := y']> (<[p := x']> (heap s)) ∧ ident x' = ident x ∧ ident y' = ident y ∧
        (e = None → State y' = RUNNING) ∧
        match e with
        | None => plugins s' = <[GetName r := q]> (plugins s) ∧ live x' = (STOPPED, 0, None) ∧
            background s' = background s ++ [TaskSchedulers q]
        | Some _ => background s' = background s ∧
            (live x' = live x ∧ manifest x' = manifest x ∧ plugins s' = plugins s ∧ same_tables s s' ∨
             State x' = STATE_VALUE_UNSPECIFIED ∧ plugins s' = plugins s ∨
             live x' = (STOPPED, 0, None) ∧ plugins s' = delete (GetName r) (plugins s))
        end) s.
Proof.
  intros Hr Hne Hp Hq Hnx Hny Hvy. unfold upgrade_steps. do 5 m_step.
  apply (wp_on_plugin p x); [done|]. unfold setPendingStatus. apply wp_set_self. simpl.
  set (x0 := with_runtime _ x). m_step. m_step. m_step.
  apply (wp_on_plugin q y); [simpl; by rewrite lookup_insert_ne|]. simpl.
  eapply wp_mono; [apply (wp_frame _ pst_frame); [apply wp_runSteps, prelaunch_covered, Hr|apply frame_runSteps]|].
  intros [e|] rq [Ho (Hi & _)]; cbn beta iota; simpl in Hi.
  { do 3 m_step. exists x0, (self rq). by split_and!; try left. }
  m_step. eapply wp_mono.
  { apply (wp_stopAndRemove p x0). simpl. rewrite lookup_insert_ne by done. apply lookup_insert_eq. }
  intros [e|] s1 [Hum (x1 & Hh1 & Hi1 & Hx1)]; cbn beta iota; simpl in Hh1, Hum.
  all: assert (Hh : heap s1 = <[q := self rq]> (<[p := x1]> (heap s)))
    by (rewrite Hh1, insert_insert_ne, insert_insert_eq by done; done).
  all: destruct Hum as (_ & _ & _ & Hbg & Hpr); destruct Hx1 as [Hs1 Hpl1].
  all: assert (Hid1 : ident x1 = ident x) by (by rewrite Hi1).
  { assert (Hlk : heap s1 !! p = Some x1) by (rewrite Hh, lookup_insert_ne by done; apply lookup_insert_eq).
    do 6 m_step. exists x1, (self rq). split_and!; try done. right. left. by split. }
  do 2 m_step.
  assert (Hlk : heap s1 !! q = Some (self rq)) by (rewrite Hh; apply lookup_insert_eq).
  destruct (launch_is_launch r (protocol s1) (menv s1)) as [l Hl].
  eapply wp_mono; [apply (wp_runlaunch q (self rq) _ l s1 Hlk)|].
  { constructor; [by apply launch_covered|done]. }
  { by rewrite <-Hl. }
  intros e s2 (_ & y2 & Hh2 & Hi2 & He). rewrite Hh, insert_insert_eq in Hh2.
  assert (Hny2 : Name (self rq) = GetName r) by (by injection Hi as ->).
  exists x1, y2. split_and!; [done|done|by rewrite Hi2| |].
  - intros ->. by destruct He.
  - rewrite Hny2, Hpl1 in He. simpl in He. rewrite Hnx in He. destruct e.
    + destruct He as [-> ->]. split; [done|]. right. right. split; [done|]. by rewrite delete_delete_eq.
    + destruct He as (_ & -> & ->). rewrite insert_delete_eq. by rewrite Hbg.
Qed.

Lemma wp_upgrade r p x s :
  request_ok r → plugins s !! GetName r = Some p → heap s !! p = Some x → Name x = GetName r →
  wp (upgradePlugin fuel r)
     (λ e s', ∃ x', heap s' !! p = Some x' ∧ ident x' = ident x ∧
        (pendingStatus x' = None ∨ x' = x) ∧ upgrade_outcome r p x s e s' x' ∧
        (∀ q y, q ≠ p → heap s !! q = Some y → heap s' !! q = Some y)) s.
Proof.
  intros Hr Hpl Hp Hnx. unfold upgradePlugin. m_step.
  destruct (newPlugin_total r Hr) as [[e ->]|(y & -> & Hny & Hvy)]; simpl; do 2 wp_step.
  { exists x. split_and!; try done; [by right|by left]. }
  apply wp_alloc. intros q Hq. simpl. assert (p ≠ q) by congruence.
  m_step. m_step. simpl. rewrite Hpl. cbn beta iota. m_step.
  eapply wp_mono; [apply (wp_upgrade_steps r p q x y); try done; simpl;
    [by rewrite lookup_insert_ne by done|apply lookup_insert_eq]|].
  intros e s1 (x1 & y1 & Hh & Hix & Hiy & Hrun & He). simpl in Hh, He.
  rewrite (insert_insert_ne _ p q), insert_insert_eq in Hh by done.
  m_step. apply (wp_on_plugin p x1); [rewrite Hh, lookup_insert_ne by done; apply lookup_insert_eq|].
  unfold resetPendingStatus. apply wp_set_self. wp_step. simpl.
  exists (with_runtime (set_pending None) x1). split; [simpl; apply lookup_insert_eq|]. split; [done|]. split; [by left|]. split.
  - unfold upgrade_outcome. destruct e; simpl.
    + destruct He as [-> He]. split; [done|]. destruct He as [(Hl & Hm & -> & Ht)|[[Hs ->]|[Hl ->]]]; auto.
    + destruct He as (-> & Hl & ->). exists q, y1. injection Hiy as -> -> _.
      split_and!; try done; [|auto]. rewrite lookup_insert_ne, Hh by done. apply lookup_insert_eq.
  - intros q' y' Hq' Hy'. rewrite lookup_insert_ne, Hh by done.
    rewrite !lookup_insert_ne; congruence.
Qed.

(** The same revision again is refused and changes nothing but the history. *)
Lemma wp_install_same r p x s :
  request_ok r → plugins s !! GetName r = Some p → heap s !! p = Some x → Revision x = GetRevisionId r →
  wp (installPlugin fuel r)
     (λ e s', e ≠ None ∧ heap s' = heap s ∧ plugins s' = plugins s ∧ same_tables s s' ∧
              background s' = background s) s.
Proof.
  intros Hr Hpl Hp Hv. unfold installPlugin. m_step.
  destruct (newPlugin_total r Hr) as [[e ->]|(y & -> & Hny & Hvy)]; simpl; do 2 wp_step; [done|].
  m_step. m_step. m_step. simpl. rewrite Hpl. cbn beta iota. m_step. m_step.
  rewrite bool_decide_eq_true_2 by done. do 5 m_step. done.
Qed.

(** Another revision is upgraded. *)
Lemma wp_install_upgrade r p x s :
  request_ok r → plugins s !! GetName r = Some p → heap s !! p = Some x → Name x = GetName r →
  Revision x ≠ GetRevisionId r →
  wp (installPlugin fuel r)
     (λ e s', ∃ x', heap s' !! p = Some x' ∧ ident x' = ident x ∧
        (pendingStatus x' = None ∨ x' = x) ∧ upgrade_outcome r p x s e s' x' ∧
        (∀ q y, q ≠ p → heap s !! q = Some y → heap s' !! q = Some y)) s.
Proof.
  intros Hr Hpl Hp Hn Hv. unfold installPlugin. m_step.
  destruct (newPlugin_total r Hr) as [[e ->]|(y & -> & Hny & Hvy)]; simpl; do 2 wp_step.
  { exists x. split_and!; try done; [by right|by left]. }
  m_step. m_step. m_step. simpl. rewrite Hpl. cbn beta iota. m_step. m_step.
  rewrite bool_decide_eq_false_2 by done.
  eapply wp_mono; [by apply (wp_upgrade r p x)|]. intros e' s' (x' & H1' & H2' & H3' & H4' & H5').
  exists x'. split_and!; try done.
Qed.

Lemma wp_install_total r s :
  request_ok r → req_Action r = INSTALL → wf s → wp (installPlugin fuel r) (λ _ _, True) s.
Proof.
  intros Hr Ha Hwf. destruct (plugins s !! GetName r) as [p|] eqn:Hp.
  - destruct (Hwf _ _ Hp) as (x & Hx & Hn). destruct (decide (Revision x = GetRevisionId r)).
    + eapply wp_mono; [by apply (wp_install_same r p x)|done].
    + eapply wp_mono; [by apply (wp_install_upgrade r p x)|done].
  - eapply wp_mono; [by apply wp_install_fresh|done].
Qed.

(** Only the environment changes. *)
Definition env_only (s s' : PM) : Prop := ∃ e, s' = set_menv e s.

#[global] Instance env_only_preorder : PreOrder env_only.
Proof.
  split; [intros s; exists (menv s); by destruct s|].
  intros s1 s2 s3 [e1 ->] [e2 ->]. by exists e2.
Qed.

#[global] Instance env_only_fs : IgnoresFS env_only.
Proof. intros f s. by eexists. Qed.

Lemma wp_env_only {A} (m : M PM A) (Q : A → PM → Prop) s :
  total m → respects env_only m → (∀ a e, Q a (set_menv e s)) → wp m Q s.
Proof.
  intros Hm HR HQ. destruct (Hm s) as [[s' a] E]. unfold wp. rewrite E.
  destruct (HR _ _ _ E) as [e ->]. apply HQ.
Qed.

Lemma wp_remove r p x s :
  plugins s !! GetName r = Some p → heap s !! p = Some x → Name x = GetName r →
  wp (removePlugin fuel r)
     (λ e s', unmonitored x s s' ∧ ∃ x', heap s' = <[p := x']> (heap s) ∧ ident x' = ident x ∧
        (live x' = (STOPPED, 0, None) ∧ plugins s' = delete (GetName r) (plugins s) ∨
         e ≠ None ∧ State x' = STATE_VALUE_UNSPECIFIED ∧ plugins s' = plugins s)) s.
Proof.
  intros Hpl Hp Hn. unfold removePlugin. m_step. m_step. rewrite Hpl. cbn beta iota. do 7 m_step.
  eapply wp_mono; [apply (wp_stopAndRemove p x); exact Hp|].
  intros [er|] s1 (Hum & x1 & Hh & Hi & Hx); cbn beta iota.
  { wp_step. split; [done|]. exists x1. split_and!; try done. right. by destruct Hx. }
  destruct Hx as [Hl Hpl1]. assert (Hlk : heap s1 !! p = Some x1) by (rewrite Hh; apply lookup_insert_eq).
  do 2 m_step. wp_step. eapply wp_deref; [exact Hlk|]. wp_step.
  apply wp_env_only; [apply total_Exists|apply respects_Exists; typeclasses eauto|].
  intros [|] e1; simpl.
  - apply wp_env_only; [apply total_with_fs|apply respects_with_fs; typeclasses eauto|].
    intros o e2. split; [done|]. exists x1. split_and!; try done. left. split; [done|].
    by rewrite <-Hn.
  - wp_step. split; [done|]. exists x1. split_and!; try done. left. split; [done|]. by rewrite <-Hn.
Qed.

(** ** Applying a configuration *)

(** The configuration a request asks for, as the manifest stores it. *)
Definition requested_config (rm : req_manifest) : result ServiceConfig :=
  match rm_Config rm with
  | None => Ok (mkServiceConfig "" "")
  | Some (StringConfig c) => Ok (mkServiceConfig c "")
  | Some (StructConfig c) =>
      match struct_Marshal c with Ok b => Ok (mkServiceConfig "" b) | Err e => Err e end
  end.

Definition config_hash_of (c : ServiceConfig) : string :=
  match config_data c with Some d => sha256_hex d | None => "" end.

Definition config_part (x : Plugin) : option ServiceConfig * string :=
  (StartConfig (manifest x), startConfigHash (manifest x)).

Lemma keeps_config_launchPlugin pr policy : respects (keeps config_part) (launchPlugin fuel pr policy).
Proof. unfold launchPlugin, readPluginLogs. respects_solve. Qed.

Lemma keeps_config_start_launched policy : respects (keeps config_part) (start_launched fuel policy).
Proof.
  unfold start_launched, Connect, Start, PluginService, buildStartRequest, Store, readPluginLogs. respects_solve.
Qed.

Lemma keeps_config_step st : respects (keeps config_part) (step_Run fuel st).
Proof.
  destruct st; simpl.
  - unfold download_Run, download_attempt. respects_solve.
  - unfold unpack_Run. respects_solve.
  - unfold launch_Run, verify_socket, address, connectionSetup.
    respects_solve; first [apply keeps_config_launchPlugin | apply keeps_config_start_launched].
  - unfold stop_Run, stopPlugin, Stop, PluginService, cleanup, remove_all. respects_solve.
Qed.

Lemma keeps_config_runSteps steps : respects (keeps config_part) (runSteps fuel steps).
Proof.
  induction steps as [|st steps IH]; unfold runSteps; fold (runSteps fuel); [respects_solve|].
  respects_solve; first [apply keeps_config_step | exact IH].
Qed.

(** What [setConfig] leaves in the plugin. *)
Lemma wp_set_plugin_config r rm (s : pst) :
  req_Manifest r = Some rm →
  wp (set_plugin_config r)
     (λ e s', StartAttempts (manifest (self s')) = StartAttempts (manifest (self s)) ∧
              penv s' = penv s ∧ (e = None ↔ is_ok (requested_config rm) = true) ∧
              ∀ c, requested_config rm = Ok c → StartConfig (manifest (self s')) = Some c) s.
Proof.
  intros Hr. unfold set_plugin_config, setConfig. p_step. p_step. rewrite Hr. simpl.
  unfold requested_config. destruct (rm_Config rm) as [[c|c]|]; simpl.
  - do 5 p_step. split_and!; try done. by intros c' [= <-].
  - destruct (struct_Marshal c); do 5 p_step; split_and!; try done. by intros c' [= <-].
  - do 5 p_step. split_and!; try done. by intros c' [= <-].
Qed.

(** Recomputing the hash after the cached one was reset. *)
Lemma wp_configHash_reset c (s : pst) :
  StartConfig (manifest (self s)) = Some c →
  wp (_ ← set_self (with_manifest (set_startConfigHash "")); configHash)
     (λ h s', h = config_hash_of c ∧ config_part (self s') = (Some c, config_hash_of c) ∧
              StartAttempts (manifest (self s')) = StartAttempts (manifest (self s))) s.
Proof.
  intros Hc. unfold configHash. do 4 p_step. simpl. rewrite Hc. unfold config_hash_of, config_part. simpl.
  destruct (config_data c) as [d|]; p_steps; simpl; by rewrite Hc.
Qed.

Lemma wp_apply r rm (s : pst) :
  req_Manifest r = Some rm →
  covered fuel defaultConnectTimeoutTries → covered fuel (StartAttempts (manifest (self s))) →
  wp (apply_to_plugin fuel r)
     (λ e s', e = None → ∃ c, requested_config rm = Ok c ∧
                config_part (self s') = (Some c, config_hash_of c)) s.
Proof.
  intros Hr H15 Hc. unfold apply_to_plugin. p_step.
  eapply wp_mono; [apply (wp_respects _ (keeps manifest)); [apply total_sendEvent|apply keeps_sendEvent]|].
  intros ? s1 Hk1. unfold keeps in Hk1. p_step.
  eapply wp_mono; [by apply (wp_set_plugin_config r rm)|].
  intros [e|] s2 (Hat & _ & Hok & Hcfg); cbn beta iota; [by p_steps|].
  destruct (requested_config rm) as [c|] eqn:Erc; [|discriminate (proj1 Hok eq_refl)].
  specialize (Hcfg c eq_refl). do 3 p_step.
  eapply wp_mono; [apply (wp_respects _ (keeps manifest))|].
  { case_match; [apply total_Store|apply total_ret]. }
  { unfold Store. respects_solve. }
  intros [e|] s3 Hk3; unfold keeps in Hk3; cbn beta iota; [by p_steps|].
  apply wp_assoc, wp_bind.
  eapply wp_mono; [apply (wp_configHash_reset c); by rewrite Hk3|].
  intros h s4 (-> & Hpart & Hat4). p_step. p_step. p_step.
  eapply wp_mono; [apply (wp_respects _ (keeps (λ x, (config_part x, StartAttempts (manifest x)))));
    [apply total_Apply|unfold Apply, PluginService; respects_solve]|].
  intros [e|] s5 Hk5; unfold keeps in Hk5; injection Hk5 as Hk5a Hk5b Hk5c; cbn beta iota.
  - case_match; [|by p_steps]. do 3 p_step.
    eapply wp_mono; [apply (wp_frame _ (keeps config_part)); [apply wp_runSteps|apply keeps_config_runSteps]|].
    { apply Forall_cons; split; [done|]. apply Forall_cons; split; [|done]. split; [|exact H15].
      simpl. by rewrite Hk5c, Hat4, Hk3, Hat, Hk1. }
    intros [e'|] s6 [_ Hk6]; cbn beta iota; [by p_steps|].
    p_step. eapply wp_mono; [apply (wp_respects _ (keeps config_part)); [apply total_sendEvent|apply keeps_sendEvent]|].
    intros ? s7 Hk7. apply wp_ret. intros _. exists c. split; [done|].
    unfold keeps in Hk6, Hk7. rewrite Hk7, Hk6, <-Hpart. unfold config_part. by rewrite Hk5a, Hk5b.
  - p_step. eapply wp_mono; [apply (wp_respects _ (keeps config_part)); [apply total_sendEvent|apply keeps_sendEvent]|].
    intros ? s7 Hk7. apply wp_ret. intros _. exists c. split; [done|].
    unfold keeps in Hk7. rewrite Hk7, <-Hpart. unfold config_part. by rewrite Hk5a, Hk5b.
Qed.

End outcomes.
End PluginManagerFacts.
