(* ===== verification/PluginRequests.v ===== *)
(** * internal/plugin/manager: concurrent requests

    [ConfigurePluginStates] runs one goroutine per request and messages may
    arrive while earlier requests are still running.  The manager as a
    transition system: a message arrives and its requests are filtered under
    the lock; a goroutine processes its request, counts it, and finally drops
    its in-progress mark; background goroutines start the schedulers; the
    scheduler fires jobs; the control plane asks for reports.  Handlers run as
    one step each, interleaved in every possible order. *)
From S2P Require Import Prelude GoStrings Os Retry BoundedList FileUtil Plugin PluginSteps Scheduler.
From S2P Require Import PluginManager PluginFacts PluginManagerFacts.

Local Open Scope Z_scope.

Module PluginRequests.
Import Plugin PluginSteps PluginManager PluginFacts PluginManagerFacts.

(** Where a request's goroutine is in [configurePlugin]. *)
Inductive stage := Started | Processed (success : bool) | Counted.

Record goroutine := mkG { g_req : request; g_stage : stage }.

Record system := mkSys { pm : PM; running : list goroutine }.

Section system.
Context `{Config} `{World} `{OsFaults} `{FileUtil.Archives} `{RequestCodec}.
Context (fuel : nat).

Inductive step : system → system → Prop :=
| step_arrive s reqs m toProcess :
    filterPendingPluginRevisions reqs true (pm s) = Some (m, toProcess) →
    step s (mkSys m (running s ++ ((λ r, mkG r Started) <$> toProcess)))
| step_process s l1 r l2 m success :
    running s = l1 ++ mkG r Started :: l2 →
    process_request fuel r (pm s) = Some (m, success) →
    step s (mkSys m (l1 ++ mkG r (Processed success) :: l2))
| step_count s l1 r b l2 m :
    running s = l1 ++ mkG r (Processed b) :: l2 →
    count_request (req_Action r) b (pm s) = Some (m, tt) →
    step s (mkSys m (l1 ++ mkG r Counted :: l2))
| step_finish s l1 r l2 m :
    running s = l1 ++ mkG r Counted :: l2 →
    finish_request r (pm s) = Some (m, tt) →
    step s (mkSys m (l1 ++ l2))
| step_background s l1 p l2 m :
    background (pm s) = l1 ++ TaskSchedulers p :: l2 →
    run_task fuel (TaskSchedulers p) (set_background (l1 ++ l2) (pm s)) = Some (m, tt) →
    step s (mkSys m (running s))
| step_job s id t m :
    scheduled (pm s) !! id = Some t →
    @Scheduler.tick PM job PM_SchedState (PM_Job fuel) t (pm s) = Some (m, tt) →
    step s (mkSys m (running s))
| step_list s states m :
    ListPluginStates (pm s) = Some (m, states) →
    step s (mkSys m (running s)).

(** The same transitions as a function, for concrete runs. *)
Inductive act :=
| Arrive (reqs : list request) | Process (i : nat) | Count (i : nat) | Finish (i : nat)
| Background (i : nat) | FireJob (id : string) | List_.

Definition exec (a : act) (s : system) : option system :=
  match a with
  | Arrive reqs =>
      '(m, kept) ← filterPendingPluginRevisions reqs true (pm s);
      Some (mkSys m (running s ++ ((λ r, mkG r Started) <$> kept)))
  | Process i =>
      match running s !! i with
      | Some (mkG r Started) =>
          '(m, b) ← process_request fuel r (pm s);
          Some (mkSys m (take i (running s) ++ mkG r (Processed b) :: drop (S i) (running s)))
      | _ => None
      end
  | Count i =>
      match running s !! i with
      | Some (mkG r (Processed b)) =>
          '(m, _) ← count_request (req_Action r) b (pm s);
          Some (mkSys m (take i (running s) ++ mkG r Counted :: drop (S i) (running s)))
      | _ => None
      end
  | Finish i =>
      match running s !! i with
      | Some (mkG r Counted) =>
          '(m, _) ← finish_request r (pm s);
          Some (mkSys m (take i (running s) ++ drop (S i) (running s)))
      | _ => None
      end
  | Background i =>
      match background (pm s) !! i with
      | Some (TaskSchedulers p) =>
          '(m, _) ← run_task fuel (TaskSchedulers p)
            (set_background (take i (background (pm s)) ++ drop (S i) (background (pm s))) (pm s));
          Some (mkSys m (running s))
      | _ => None
      end
  | FireJob id =>
      t ← scheduled (pm s) !! id;
      '(m, _) ← @Scheduler.tick PM job PM_SchedState (PM_Job fuel) t (pm s);
      Some (mkSys m (running s))
  | List_ => '(m, _) ← ListPluginStates (pm s); Some (mkSys m (running s))
  end.

Fixpoint exec_all (acts : list act) (s : system) : option system :=
  match acts with
  | [] => Some s
  | a :: acts => s' ← exec a s; exec_all acts s'
  end.

End system.

(** The names with a request being processed. *)
Definition in_flight (s : system) : list string := (λ g, GetName (g_req g)) <$> running s.

(** The in-progress table is exactly the set of the running requests' plugins,
    no two of which share a name, and the table of plugins is well formed. *)
Definition bookkeeping (s : system) : Prop :=
  NoDup (in_flight s) ∧
  (∀ n, is_Some (inProgress (pm s) !! n) ↔ n ∈ in_flight s) ∧
  wf (pm s).

(** ** The filter *)
Section filter.
Context `{Config} `{World} `{OsFaults} `{FileUtil.Archives} `{RequestCodec}.

Lemma filter_request_busy acc r s :
  is_Some (inProgress s !! GetName r) → filter_request true acc r s = Some (s, acc).
Proof. intros [b Hb]. unfold filter_request, mbind, M_bind, gets. by rewrite Hb. Qed.

Lemma filter_request_free acc r s :
  inProgress s !! GetName r = None →
  filter_request true acc r s =
    Some (set_inProgress (<[GetName r := true]> (inProgress s)) s, acc ++ [r]).
Proof. intros Hb. unfold filter_request, mbind, M_bind, gets. by rewrite Hb. Qed.

Lemma filter_spec reqs acc s :
  ∃ m kept,
    for_acc reqs acc (filter_request true) s = Some (set_inProgress m s, acc ++ kept) ∧
    kept `sublist_of` reqs ∧
    NoDup (GetName <$> kept) ∧
    (∀ n, n ∈ GetName <$> kept → inProgress s !! n = None) ∧
    (∀ n, is_Some (m !! n) ↔ is_Some (inProgress s !! n) ∨ n ∈ GetName <$> kept) ∧
    (∀ r, r ∈ reqs → is_Some (m !! GetName r)).
Proof.
  revert acc s. induction reqs as [|r reqs IH]; intros acc s; cbn [for_acc].
  { exists (inProgress s), []. rewrite app_nil_r.
    split_and!; try done; [by destruct s|constructor|set_solver..]. }
  unfold mbind, M_bind. destruct (inProgress s !! GetName r) as [b|] eqn:Hb.
  - rewrite filter_request_busy by (by eexists).
    destruct (IH acc s) as (m & kept & Heq & Hsub & Hnd & Hnone & Hm & Hall).
    exists m, kept. split_and!; try done; [by apply sublist_cons|].
    intros r' [->|Hr]%elem_of_cons; [|auto]. apply Hm. left. by eexists.
  - rewrite filter_request_free by done.
    destruct (IH (acc ++ [r]) (set_inProgress (<[GetName r := true]> (inProgress s)) s))
      as (m & kept & Heq & Hsub & Hnd & Hnone & Hm & Hall). simpl in *.
    exists m, (r :: kept). split_and!.
    + by rewrite Heq, <-app_assoc.
    + by apply sublist_skip.
    + simpl. constructor; [|done]. intros Hin%Hnone. by rewrite lookup_insert_eq in Hin.
    + intros n [->|Hn]%elem_of_cons; [done|].
      pose proof (Hnone n Hn) as Hn'. destruct (decide (n = GetName r)) as [->|Hne]; [done|].
      by rewrite lookup_insert_ne in Hn' by done.
    + intros n. rewrite Hm. simpl. rewrite elem_of_cons. destruct (decide (n = GetName r)) as [->|Hne].
      * rewrite lookup_insert_eq. split; [auto|]. intros _. left. by eexists.
      * rewrite lookup_insert_ne by done. naive_solver.
    + intros r' [->|Hr]%elem_of_cons; [|auto]. apply Hm. left. rewrite lookup_insert_eq. by eexists.
Qed.

Lemma in_flight_app l1 g l2 :
  (λ g, GetName (g_req g)) <$> (l1 ++ g :: l2) =
  ((λ g, GetName (g_req g)) <$> l1) ++ GetName (g_req g) :: ((λ g, GetName (g_req g)) <$> l2).
Proof. by rewrite fmap_app. Qed.

(** A step that moves the manager along its frame and keeps the goroutines'
    requests keeps the bookkeeping. *)
Lemma bookkeeping_frame s m gs :
  bookkeeping s → pm_frame (pm s) m →
  (λ g, GetName (g_req g)) <$> gs = in_flight s → bookkeeping (mkSys m gs).
Proof.
  intros (Hnd & Hp & Hwf) (Hi & _ & _ & _ & _ & Hw) Hgs. unfold bookkeeping, in_flight in *. simpl.
  rewrite Hgs, Hi. auto.
Qed.

End filter.

Section invariant.
Context `{Config} `{World} `{OsFaults} `{FileUtil.Archives} `{RequestCodec}.
Context (fuel : nat).

Lemma bookkeeping_step s s' : bookkeeping s → step fuel s s' → bookkeeping s'.
Proof.
  intros Hb Hs. destruct Hs as [s reqs m toProcess Hf|s l1 r l2 m b Hr Hp|s l1 r b l2 m Hr Hc
    |s l1 r l2 m Hr Hf|s l1 p l2 m Hbg Ht|s id t m Hid Ht|s states m Hl].
  - destruct (filter_spec reqs [] (pm s)) as (im & kept & Heq & Hsub & Hnd & Hnone & Him & _).
    unfold filterPendingPluginRevisions in Hf. rewrite Heq in Hf. simplify_eq/=.
    destruct Hb as (Hnd0 & Hp & Hwf). unfold bookkeeping, in_flight in *. simpl.
    rewrite fmap_app, <-list_fmap_compose. unfold compose. simpl. split_and!.
    + apply NoDup_app. split_and!; [done| |done]. intros n Hn Hn2.
      apply Hp in Hn as [? Hn]. apply Hnone in Hn2. congruence.
    + intros n. rewrite Him, Hp, elem_of_app. done.
    + exact Hwf.
  - eapply bookkeeping_frame; [done|by eapply frame_process|].
    unfold in_flight. rewrite Hr. by rewrite !in_flight_app.
  - unfold count_request, modify in Hc. simplify_eq. destruct Hb as (Hnd & Hp & Hwf).
    unfold bookkeeping, in_flight in *. rewrite Hr in Hnd, Hp. simpl.
    rewrite in_flight_app in *. by split_and!.
  - destruct Hb as (Hnd & Hp & Hwf). unfold finish_request, modify in Hf. simplify_eq.
    unfold bookkeeping, in_flight in *. rewrite Hr in *. simpl. rewrite in_flight_app in Hnd, Hp.
    simpl in *. rewrite fmap_app.
    apply NoDup_app in Hnd as (Hnd1 & Hd & Hnd2). apply NoDup_cons in Hnd2 as [Hni Hnd2].
    split_and!; [| |exact Hwf].
    + apply NoDup_app. split_and!; [done| |done]. intros n Hn Hn2. apply (Hd n Hn). by right.
    + intros n. destruct (decide (n = GetName r)) as [->|Hne].
      * rewrite lookup_delete_eq. split; [by intros []|]. intros [Hn|Hn]%elem_of_app; [|done].
        exfalso. apply (Hd _ Hn). by left.
      * rewrite lookup_delete_ne, Hp by done. rewrite !elem_of_app, elem_of_cons. naive_solver.
  - eapply bookkeeping_frame; [done| |done].
    etrans; [|eapply (respects_bind pm_frame); [..|exact Ht]];
      [split_and!; done|intros; apply frame_startMonitoring|intros; apply frame_startMetricsMonitoring].
  - eapply bookkeeping_frame; [done|by eapply frame_tick|done].
  - eapply bookkeeping_frame; [done|by eapply frame_ListPluginStates|done].
Qed.

Lemma exec_step a s s' : exec fuel a s = Some s' → step fuel s s'.
Proof.
  destruct a; cbn [exec]; intros He.
  - destruct (filterPendingPluginRevisions reqs true (pm s)) as [[m kept]|] eqn:E; simplify_eq/=.
    by apply (step_arrive fuel s reqs).
  - destruct (running s !! i) as [[r [|b|]]|] eqn:Hi; try done.
    destruct (process_request fuel r (pm s)) as [[m b]|] eqn:E; simplify_eq/=.
    eapply step_process; [|done]. by rewrite take_drop_middle.
  - destruct (running s !! i) as [[r [|b|]]|] eqn:Hi; try done.
    destruct (count_request (req_Action r) b (pm s)) as [[m []]|] eqn:E; simplify_eq/=.
    eapply step_count; [|done]. by rewrite take_drop_middle.
  - destruct (running s !! i) as [[r [|b|]]|] eqn:Hi; try done.
    destruct (finish_request r (pm s)) as [[m []]|] eqn:E; simplify_eq/=.
    eapply step_finish; [|done]. by rewrite take_drop_middle.
  - destruct (background (pm s) !! i) as [[|p|]|] eqn:Hi; try done.
    destruct (run_task fuel _ _) as [[m []]|] eqn:E; simplify_eq/=.
    eapply step_background; [|done]. by rewrite take_drop_middle.
  - destruct (scheduled (pm s) !! id) as [t|] eqn:Hi; [|done]. simpl in He.
    destruct (Scheduler.tick t (pm s)) as [[m []]|] eqn:E; simplify_eq/=.
    by eapply step_job.
  - destruct (ListPluginStates (pm s)) as [[m st]|] eqn:E; simplify_eq/=. by eapply step_list.
Qed.

Lemma exec_all_steps acts s s' : exec_all fuel acts s = Some s' → rtc (step fuel) s s'.
Proof.
  revert s. induction acts as [|a acts IH]; intros s; cbn [exec_all]; intros He; [by simplify_eq|].
  destruct (exec fuel a s) as [s1|] eqn:E; [|done]. eapply rtc_l; [by eapply exec_step|by apply IH].
Qed.

(** C1. At any moment, in any interleaving of messages, request goroutines,
    background goroutines, jobs and reports, at most one request is being
    processed per plugin: the plugins with a running request are exactly the
    marked ones, and no two running requests name the same plugin. *)
Theorem one_request_per_plugin (s0 s : system) :
  running s0 = [] → inProgress (pm s0) = ∅ → wf (pm s0) → rtc (step fuel) s0 s →
  NoDup (in_flight s) ∧ (∀ n, is_Some (inProgress (pm s) !! n) ↔ n ∈ in_flight s) ∧ wf (pm s).
Proof.
  intros Hr Hi Hwf Hrtc.
  apply (rtc_invariant (step fuel) bookkeeping s0 s); [|split_and!|done].
  - intros a b. apply bookkeeping_step.
  - unfold in_flight. rewrite Hr. constructor.
  - intros n. unfold in_flight. rewrite Hr, Hi, lookup_empty. simpl.
    split; [by intros []|by intros ?%not_elem_of_nil].
  - done.
Qed.

(** The filter of a message keeps, in order, requests for distinct
    plugins that had none in progress, marks exactly those plugins, drops a
    request only when its plugin ends up marked, and changes nothing else. *)
Theorem filter_selects (reqs : list request) (s : PM) :
  ∃ m kept,
    filterPendingPluginRevisions reqs true s = Some (set_inProgress m s, kept) ∧
    kept `sublist_of` reqs ∧
    NoDup (GetName <$> kept) ∧
    (∀ n, n ∈ GetName <$> kept → inProgress s !! n = None) ∧
    (∀ n, is_Some (m !! n) ↔ is_Some (inProgress s !! n) ∨ n ∈ GetName <$> kept) ∧
    (∀ r, r ∈ reqs → is_Some (m !! GetName r)).
Proof. apply (filter_spec reqs [] s). Qed.

End invariant.
(** ** Concrete runs *)
Definition example_req (a : Action) (rev : string) : request :=
  mkRequest a
    (Some (mkReqPlugin "p" rev "https://storage/p" "run" "sha:tgz" []))
    (Some (mkReqManifest 3 0 0 2 2 60 3 0 0 DAEMON DYNAMIC_INSTALLATION (Some (StringConfig "cfg")) None)).

Definition empty_pm : PM :=
  mkPM ∅ ∅ ∅ ∅ ∅ [] tcpProtocol ∅ ∅ [] [] true (mkEnv (mkFs ∅ 0) "123" [] 0).

Definition initial : system := mkSys empty_pm [].

Section examples.
#[local] Existing Instance example_config.
#[local] Existing Instance no_faults.
#[local] Existing Instance plain_archives.
#[local] Instance example_world : World := calm_world "/var/lib/google_guest_agent/123/plugins/p_1/run".
#[local] Instance example_codec : RequestCodec := λ _, Err (ErrMsg "not used").

(** Twice the same plugin in one message: one request runs. *)
Definition duplicate_message : list act :=
  [Arrive [example_req INSTALL "1"; example_req INSTALL "2"]; Arrive [example_req REMOVE "1"]; Process 0].

Lemma one_request_per_plugin_witness :
  ∃ s, exec_all 20 duplicate_message initial = Some s ∧ in_flight s = ["p"] ∧
       NoDup (in_flight s) ∧ (∀ n, is_Some (inProgress (pm s) !! n) ↔ n ∈ in_flight s).
Proof.
  assert (Hf : in_flight <$> exec_all 20 duplicate_message initial = Some ["p"]) by (vm_compute; reflexivity).
  destruct (exec_all 20 duplicate_message initial) as [s|] eqn:E; [|discriminate Hf].
  injection Hf as Hf. exists s. split; [reflexivity|]. split; [exact Hf|].
  destruct (one_request_per_plugin 20 initial s) as (H1 & H2 & _);
    [reflexivity|reflexivity|by intros n p Hn|exact (exec_all_steps 20 _ _ _ E)|split; assumption].
Defined.

(** An installation whose background goroutine is delayed past the removal. *)
Definition late_schedulers : list act :=
  [Arrive [example_req INSTALL "1"]; Process 0; Count 0; Finish 0;
   Arrive [example_req REMOVE "1"]; Process 0; Count 0; Finish 0;
   Background 0].

Definition reinstall : list act :=
  [Arrive [example_req INSTALL "1"]; Process 0; Count 0; Finish 0; Background 0].

(** Who is running, and whom the job of its monitor watches. *)
Definition quiet (s : system) : bool :=
  bool_decide (length (running s) = 0%nat) && bool_decide (length (background (pm s)) = 0%nat).

Definition watched (s : system) (cur old : ptr) : bool :=
  bool_decide (plugins (pm s) !! "p" = Some cur) && negb (bool_decide (old = cur)) &&
  match heap (pm s) !! cur, heap (pm s) !! old with
  | Some y, Some x =>
      bool_decide (State y = RUNNING) && bool_decide (State x = STOPPED) &&
      match scheduled (pm s) !! monitor_ID y with
      | Some (Scheduler.mkJob (MonitorJob p) false) => bool_decide (p = old)
      | _ => false
      end
  | _, _ => false
  end.

(** The schedulers are started in a goroutine nothing waits for: in a
    reachable quiet state the running plugin is not monitored, because the job
    with its monitor's id watches an earlier, removed instance, which being
    STOPPED is never checked. *)
Theorem running_plugin_can_be_unmonitored :
  ∃ s old cur x y,
    rtc (step 20) initial s ∧ running s = [] ∧ background (pm s) = [] ∧
    plugins (pm s) !! "p" = Some cur ∧ heap (pm s) !! cur = Some y ∧ State y = RUNNING ∧
    scheduled (pm s) !! monitor_ID y = Some (Scheduler.mkJob (MonitorJob old) false) ∧
    old ≠ cur ∧ heap (pm s) !! old = Some x ∧ State x = STOPPED.
Proof.
  assert (Hw : (λ s, quiet s && watched s 1%nat 0%nat) <$> exec_all 20 (late_schedulers ++ reinstall) initial
               = Some true) by (vm_compute; reflexivity).
  destruct (exec_all 20 (late_schedulers ++ reinstall) initial) as [s|] eqn:E; [|discriminate Hw].
  apply exec_all_steps in E. injection Hw. clear Hw. unfold quiet, watched.
  destruct (heap (pm s) !! (1%nat : ptr)) as [y|] eqn:Hy; [|rewrite !andb_false_r; discriminate].
  destruct (heap (pm s) !! (0%nat : ptr)) as [x|] eqn:Hx; [|rewrite !andb_false_r; discriminate].
  destruct (scheduled (pm s) !! monitor_ID y) as [[[old| |] []]|] eqn:Hs;
    try (rewrite !andb_false_r; discriminate).
  rewrite !andb_true_iff, !bool_decide_eq_true.
  intros [[Hr Hb] [[Hp _] [[Hry Hsx] ->]]].
  exists s, 0%nat, 1%nat, x, y. split_and!; first [done | by apply nil_length_inv].
Qed.

End examples.
End PluginRequests.
