(* ===== verification/PluginHandlers.v ===== *)
(** * internal/plugin/manager: what the handlers promise

    The properties of the manager's handlers proved from the lemmas of
    PluginManagerFacts: installing, upgrading and removing a plugin, applying a
    configuration, the accounting of requests, the reports to the control
    plane, and what the clean-up of leftovers does to installed plugins. *)
From S2P Require Import Prelude GoStrings Os Retry BoundedList FileUtil Plugin PluginSteps Scheduler.
From S2P Require Import PluginManager PluginFacts PluginManagerFacts PluginRequests.

Local Open Scope Z_scope.

Module PluginHandlers.
Import Plugin PluginSteps PluginManager PluginFacts PluginManagerFacts PluginRequests.

Section requests.
Context `{Config} `{World} `{OsFaults} `{FileUtil.Archives} `{RequestCodec}.
Context (fuel : nat).

(** Every plugin in the heap can be relaunched. *)
Definition relaunchable (s : PM) : Prop :=
  ∀ p x, heap s !! p = Some x → covered fuel (StartAttempts (manifest x)).

(** Local manifests hold requests that can be carried out. *)
Definition local_requests_ok : Prop :=
  ∀ d r, proto_Unmarshal d = Ok r → request_ok fuel r.

Lemma wp_GetLocalPlugin n (Q : result (option request) → PM → Prop) s :
  local_requests_ok →
  (∀ res e, (∀ r, res = Ok (Some r) → request_ok fuel r ∧ req_Action r = INSTALL) → Q res (set_menv e s)) →
  wp (GetLocalPlugin n) Q s.
Proof.
  intros Hl HQ. unfold GetLocalPlugin. wp_step.
  apply wp_env_only; [apply total_with_fs|apply respects_with_fs; typeclasses eauto|].
  intros [d|er] e; [|wp_steps; by apply HQ].
  destruct (proto_Unmarshal d) as [r|er] eqn:E; [|wp_steps; by apply HQ].
  pose proof (Hl d r E) as Hr. unfold request_ok in Hr.
  destruct (req_Manifest r) as [rm|] eqn:Erm; [|done]. do 2 wp_step. apply wp_ret, HQ.
  intros r' [= <-]. split; [|done]. destruct Hr as (? & _ & ? & ?). split; [done|]. split; [by intros []|]. by split.
Qed.

Lemma wp_remove_total r s : wf s → wp (removePlugin fuel r) (λ _ _, True) s.
Proof.
  intros Hwf. destruct (plugins s !! GetName r) as [p|] eqn:Hp.
  - destruct (Hwf _ _ Hp) as (x & Hx & Hn). eapply wp_mono; [by apply (wp_remove fuel r p x)|done].
  - unfold removePlugin. do 2 m_step. rewrite Hp. do 3 m_step. done.
Qed.

Lemma wp_apply_total r s :
  wf s → request_ok fuel r → relaunchable s → wp (applyConfig fuel r) (λ _ _, True) s.
Proof.
  intros Hwf Hr Hre. unfold applyConfig. do 2 m_step. unfold request_ok in Hr.
  destruct (req_Manifest r) as [rm|] eqn:Erm; [|done]. destruct Hr as (_ & _ & H15 & _).
  destruct (plugins s !! GetName r) as [p|] eqn:Hp.
  - destruct (Hwf _ _ Hp) as (x & Hx & Hn). apply (wp_on_plugin p x); [done|].
    eapply wp_mono; [apply (wp_apply fuel r rm); [done|done|by apply (Hre p)]|done].
  - do 3 m_step. done.
Qed.

Lemma process_total r s :
  wf s → request_ok fuel r → local_requests_ok → relaunchable s →
  wp (process_request fuel r) (λ _ _, True) s.
Proof.
  intros Hwf Hr Hl Hre. unfold process_request. destruct (req_Action r) eqn:Ea.
  - done.
  - wp_step. eapply wp_mono; [by apply wp_install_total|]. done.
  - destruct (_ && _).
    + wp_step. eapply wp_mono; [by apply wp_remove_total|]. done.
    + wp_step. apply wp_GetLocalPlugin; [done|]. intros [[r'|]|er] e Hres.
      * destruct (Hres r' eq_refl). wp_step. eapply wp_mono; [by apply wp_install_total|]. done.
      * wp_step. eapply wp_mono; [by apply wp_remove_total|]. done.
      * done.
  - wp_step. eapply wp_mono; [by apply wp_apply_total|]. done.
Qed.

(** The number of requests counted for an action and an outcome. *)
Definition count_of (s : PM) (a : Action) (b : bool) : Z :=
  default 0 (default ∅ (requestCount s !! a) !! b).


(** Installing a plugin the manager does not have either leaves it in the
    table, RUNNING, under a fresh instance with the requested name and
    revision, with its schedulers about to start; or leaves the table and the
    background work exactly as they were.  No other plugin instance is
    touched. *)
Theorem installPlugin_fresh (r : request) (s : PM) :
  request_ok fuel r → req_Action r = INSTALL → plugins s !! GetName r = None →
  wp (installPlugin fuel r)
     (λ e s', (∀ q y, heap s !! q = Some y → heap s' !! q = Some y) ∧
        match e with
        | None => ∃ p x, heap s !! p = None ∧ heap s' !! p = Some x ∧
            Name x = GetName r ∧ Revision x = GetRevisionId r ∧ State x = RUNNING ∧
            plugins s' = <[GetName r := p]> (plugins s) ∧
            background s' = background s ++ [TaskSchedulers p]
        | Some _ => plugins s' = plugins s ∧ background s' = background s
        end) s.
Proof.
  intros Hr Ha Hp. eapply wp_mono; [by apply wp_install_fresh|]. naive_solver.
Qed.

(** C2. Upgrading: when the new revision cannot be prepared the running one is
    left running (same state, process, connection, manifest, table and
    schedulers) and its pending status is cleared; when the upgrade succeeds
    the table holds a fresh RUNNING instance of the new revision and the old
    one is stopped; the only other ends are a stop cut short by the context
    and a new revision that fails to launch, after which the plugin is gone
    from the table.  Asking for the revision already there changes nothing. *)
Theorem installPlugin_upgrade (r : request) (p : ptr) (x : Plugin) (s : PM) :
  request_ok fuel r → plugins s !! GetName r = Some p → heap s !! p = Some x → Name x = GetName r →
  wp (installPlugin fuel r)
     (λ e s', ∃ x', heap s' !! p = Some x' ∧ ident x' = ident x ∧
        (pendingStatus x' = None ∨ x' = x) ∧
        (if bool_decide (Revision x = GetRevisionId r)
         then e ≠ None ∧ heap s' = heap s ∧ plugins s' = plugins s ∧ background s' = background s
         else upgrade_outcome r p x s e s' x')) s.
Proof.
  intros Hr Hpl Hp Hn. case_bool_decide as Hv.
  - eapply wp_mono; [by apply (wp_install_same fuel r p x)|].
    intros e s' (He & Hh & Hpl' & _ & Hb). exists x. rewrite Hh. split_and!; auto.
  - eapply wp_mono; [by apply (wp_install_upgrade fuel r p x)|].
    intros e s' (x' & Hx' & Hi & Hpd & Ho & _). by exists x'.
Qed.

(** Removing a plugin leaves nothing running for it: its monitor and
    metrics jobs are unscheduled and forgotten, its instance is stopped with
    no process and no connection, and its name is gone from the table, unless
    the context ended before the stop, which is an error. *)
Theorem removePlugin_stops (r : request) (p : ptr) (x : Plugin) (s : PM) :
  plugins s !! GetName r = Some p → heap s !! p = Some x → Name x = GetName r →
  wp (removePlugin fuel r)
     (λ e s', unmonitored x s s' ∧ ∃ x', heap s' = <[p := x']> (heap s) ∧ ident x' = ident x ∧
        (live x' = (STOPPED, 0, None) ∧ plugins s' = delete (GetName r) (plugins s) ∨
         e ≠ None ∧ State x' = STATE_VALUE_UNSPECIFIED ∧ plugins s' = plugins s)) s.
Proof. intros Hpl Hp Hn. by apply wp_remove. Qed.

(** A configuration the plugin accepted (over the Apply RPC or by a
    relaunch) is the one in its manifest, and the hash reported for it is the
    hash of exactly that configuration, however the cached hash stood before. *)
Theorem applyConfig_hash (r : request) (rm : req_manifest) (p : ptr) (x : Plugin) (s : PM) :
  req_Manifest r = Some rm → plugins s !! GetName r = Some p → heap s !! p = Some x →
  covered fuel defaultConnectTimeoutTries → covered fuel (StartAttempts (manifest x)) →
  wp (applyConfig fuel r)
     (λ e s', plugins s' = plugins s ∧ (∀ q, q ≠ p → heap s' !! q = heap s !! q) ∧
        (e = None → ∃ c x', requested_config rm = Ok c ∧ heap s' !! p = Some x' ∧
           config_part x' = (Some c, config_hash_of c))) s.
Proof.
  intros Hr Hpl Hp H15 Hc. unfold applyConfig. do 2 m_step. rewrite Hpl.
  apply (wp_on_plugin p x); [done|]. eapply wp_mono; [by apply (wp_apply fuel r rm)|].
  intros e s' He. split; [done|]. split; [intros q Hq; by apply lookup_insert_ne|].
  intros Hnone. destruct (He Hnone) as (c & Hcfg & Hpart). exists c, (self s').
  split_and!; [done|apply lookup_insert_eq|done].
Qed.

End requests.

(** ** Reports *)
Section reports.
Context `{Config} `{World} `{OsFaults} `{FileUtil.Archives} `{RequestCodec}.

Lemma run_deref {A} p x (f : Plugin → A) s : heap s !! p = Some x → deref p f s = Some (s, f x).
Proof.
  intros Hp. unfold deref, on_plugin, this, gets. rewrite Hp. simpl. rewrite (insert_id _ _ _ Hp).
  by destruct s as [? ? ? ? ? ? ? ? ? ? ? ? []].
Qed.

(** The entries of the table, each with its plugin. *)
Definition valid_entries (s : PM) (l : list (string * ptr)) : Prop :=
  Forall (λ kv, ∃ x, heap s !! kv.2 = Some x ∧ Name x = kv.1) l.

Lemma wf_entries s : wf s → valid_entries s (map_to_list (plugins s)).
Proof.
  intros Hwf. apply Forall_forall. intros [name p] Hin. simpl.
  by apply Hwf, elem_of_map_to_list.
Qed.

(** The decision on one plugin. *)
Definition verdict_on (r : request) (x : Plugin) : option error :=
  if bool_decide (State x = RUNNING) && bool_decide (Revision x = GetRevisionId r)
  then None else Some (ErrMsg "plugin is not running").

Lemma run_verify_one r p x s :
  heap s !! p = Some x →
  verify_one r p s = Some (s, if bool_decide (Name x = GetName r) then inr (verdict_on r x) else inl tt).
Proof.
  intros Hp. unfold verify_one, mbind, M_bind, verdict_on. rewrite (run_deref p x) by done. cbn beta iota.
  destruct (bool_decide (Name x = GetName r)); cbn [negb]; [|done].
  rewrite (run_deref p x) by done. cbn beta iota. rewrite (run_deref p x) by done. cbn beta iota.
  destruct (bool_decide (State x = RUNNING)), (bool_decide (Revision x = GetRevisionId r)); done.
Qed.

Lemma verify_loop (r : request) l s :
  valid_entries s l →
  for_until l.*2 tt (λ _ p, verify_one r p) s =
    Some (s, match (list_to_map l : gmap string ptr) !! GetName r with
             | None => inl tt
             | Some p => inr (x ← heap s !! p; verdict_on r x)
             end).
Proof.
  induction 1 as [|[name p] l (x & Hx & Hn) _ IH]; [done|]. cbn [fmap list_fmap for_until fst snd] in *.
  unfold mbind at 1, M_bind. rewrite (run_verify_one r p x) by done. cbn beta iota. subst name. simpl.
  destruct (decide (Name x = GetName r)) as [Heq|Hne].
  - rewrite bool_decide_eq_true_2 by done. by rewrite Heq, lookup_insert_eq, Hx.
  - rewrite bool_decide_eq_false_2 by done. rewrite lookup_insert_ne by done. exact IH.
Qed.

(** [VerifyPluginRunning] succeeds exactly when the table holds the
    requested plugin in the requested revision and it is RUNNING; it changes
    nothing. *)
Theorem VerifyPluginRunning_correct (r : request) (s : PM) :
  wf s →
  ∃ e, VerifyPluginRunning r s = Some (s, e) ∧
    (e = None ↔ ∃ p x, plugins s !! GetName r = Some p ∧ heap s !! p = Some x ∧
                  State x = RUNNING ∧ Revision x = GetRevisionId r).
Proof.
  intros Hwf. unfold VerifyPluginRunning, list_, gets, mbind, M_bind.
  rewrite (verify_loop r _ s (wf_entries s Hwf)), list_to_map_to_list.
  eexists; split; [done|]. destruct (plugins s !! GetName r) as [p|] eqn:Hp.
  - destruct (Hwf _ _ Hp) as (x & Hx & _). rewrite Hx. unfold verdict_on. simpl.
    repeat case_bool_decide; naive_solver.
  - naive_solver.
Qed.

(** What is reported of a plugin whose metrics are [xs]. *)
Definition reported_hash (x : Plugin) : string :=
  if bool_decide (startConfigHash (manifest x) = "") then
    match StartConfig (manifest x) with Some c => config_hash_of c | None => "" end
  else startConfigHash (manifest x).

Definition expected_report (x : Plugin) (xs : list Metric) : plugin_state :=
  mkPluginState (Name x) (Revision x) (State x) (healthInfo x)
    (last_n (Z.to_nat (BoundedList.size (metrics (runtime x)))) xs) (reported_hash x)
    (pending_revision <$> pendingStatus x).

Lemma run_report x xs e :
  BoundedList.represents (metrics (runtime x)) xs →
  ∃ x', report_plugin (mkPst x e) = Some (mkPst x' e, expected_report x xs) ∧
    ident x' = ident x ∧ BoundedList.represents (metrics (runtime x')) [].
Proof.
  intros Hrep. destruct (BoundedList.Reset_represents zero_Metric _ _ Hrep) as (l' & Hl & _ & Hrep').
  unfold report_plugin, configHash, this, gets, set_self, modify, mbind, M_bind. simpl.
  rewrite (BoundedList.All_represents zero_Metric _ _ Hrep). simpl.
  unfold expected_report, reported_hash, config_hash_of.
  destruct (bool_decide (startConfigHash (manifest x) = "")) eqn:Eh; simpl.
  - apply bool_decide_eq_true in Eh.
    destruct (StartConfig (manifest x)) as [c|]; simpl.
    + destruct (config_data c); simpl; rewrite Hl; by eexists.
    + rewrite Hl, Eh. by eexists.
  - rewrite Hl. by eexists.
Qed.

Lemma report_loop l acc s :
  valid_entries s l → NoDup l.*2 →
  (∀ p x, heap s !! p = Some x → ∃ xs, BoundedList.represents (metrics (runtime x)) xs) →
  wp (for_acc l.*2 acc (λ states p, st ← on_plugin p report_plugin; mret (states ++ [st])))
     (λ states s', plugins s' = plugins s ∧
        (∀ p, p ∉ l.*2 → heap s' !! p = heap s !! p) ∧
        ∃ new, states = acc ++ new ∧
          Forall2 (λ kv st, ∃ x xs, heap s !! kv.2 = Some x ∧ Name x = kv.1 ∧
                     BoundedList.represents (metrics (runtime x)) xs ∧ st = expected_report x xs ∧
                     ∃ x', heap s' !! kv.2 = Some x' ∧ BoundedList.represents (metrics (runtime x')) []) l new) s.
Proof.
  revert acc s. induction l as [|[name p] l IH]; intros acc s Hv Hnd Hrep; cbn [fmap list_fmap for_acc fst snd].
  { wp_step. split_and!; try done. exists []. rewrite app_nil_r. by split. }
  apply Forall_cons in Hv as [(x & Hx & Hn) Hv]. apply NoDup_cons in Hnd as [Hni Hnd].
  destruct (Hrep p x Hx) as [xs Hxs]. destruct (run_report x xs (menv s) Hxs) as (x' & Hrun & Hi & Hx').
  do 2 wp_step. apply (wp_on_plugin p x); [done|]. unfold wp at 1. rewrite Hrun. cbn beta iota.
  wp_step. set (s1 := upd s p x' (menv s)).
  assert (Hlk : ∀ q, q ∈ l.*2 → heap s1 !! q = heap s !! q).
  { intros q Hq. simpl. apply lookup_insert_ne. intros ->. done. }
  eapply wp_mono; [apply (IH (acc ++ [expected_report x xs]) s1)|].
  { apply Forall_forall. intros kv Hin. unfold valid_entries in Hv. rewrite Forall_forall in Hv.
    destruct (Hv kv Hin) as (y & Hy & Hny). exists y. split; [|done].
    rewrite Hlk; [done|]. apply list_elem_of_fmap. by exists kv. }
  { done. }
  { intros q y. simpl. destruct (decide (q = p)) as [->|Hq].
    - rewrite lookup_insert_eq. intros [= <-]. eauto.
    - rewrite lookup_insert_ne by done. apply Hrep. }
  intros states s2 (Hp2 & Hh2 & new & -> & HF). split; [done|]. split.
  - intros q [Hq1 Hq2]%not_elem_of_cons. rewrite (Hh2 q Hq2). by apply lookup_insert_ne.
  - exists (expected_report x xs :: new). split; [by rewrite <-app_assoc|]. constructor.
    + exists x, xs. split_and!; try done. exists x'. split; [|done].
      rewrite Hh2 by done. apply lookup_insert_eq.
    + apply (Forall2_impl_in _ _ _ _ HF). intros kv st Hin (y & ys & Hy & Hrest).
      exists y, ys. split; [|exact Hrest]. rewrite <-Hlk; [exact Hy|].
      apply list_elem_of_fmap. by exists kv.
Qed.

(** C9. A report names every plugin of the table once, with its identity,
    state, last health check, pending revision, the hash of its start
    configuration and the latest metrics up to the configured number of
    points; and it flushes the metrics: the next report starts from none. *)
Theorem ListPluginStates_reports (s : PM) :
  wf s →
  (∀ p x, heap s !! p = Some x → ∃ xs, BoundedList.represents (metrics (runtime x)) xs) →
  wp ListPluginStates
     (λ states s', plugins s' = plugins s ∧
        Forall2 (λ kv st, ∃ x xs, heap s !! kv.2 = Some x ∧ Name x = kv.1 ∧
                   BoundedList.represents (metrics (runtime x)) xs ∧ st = expected_report x xs ∧
                   ∃ x', heap s' !! kv.2 = Some x' ∧ BoundedList.represents (metrics (runtime x')) [])
          (map_to_list (plugins s)) states) s.
Proof.
  intros Hwf Hrep. unfold ListPluginStates, list_. do 2 wp_step.
  eapply wp_mono; [apply (report_loop (map_to_list (plugins s)) [] s (wf_entries s Hwf)); [|done]|].
  - apply NoDup_fmap_2_strong; [|apply NoDup_map_to_list].
    intros [n1 p1] [n2 p2] Hp1%elem_of_map_to_list Hp2%elem_of_map_to_list. simpl. intros ->.
    destruct (Hwf _ _ Hp1) as (x1 & Hx1 & <-). destruct (Hwf _ _ Hp2) as (x2 & Hx2 & <-). by simplify_eq.
  - intros states s' (Hp & _ & new & -> & HF). by split.
Qed.

End reports.

(** ** Concrete states *)
Section witnesses.
#[local] Existing Instance example_config.
#[local] Existing Instance no_faults.
#[local] Existing Instance plain_archives.
#[local] Existing Instance example_world.
#[local] Existing Instance example_codec.

(** The manager after one installation. *)
Definition running_pm : PM :=
  match exec_all 20 reinstall initial with Some s => pm s | None => empty_pm end.
Definition running_plugin : Plugin := default (example_plugin CRASHED) (heap running_pm !! 0%nat).

Lemma running_pm_table : plugins running_pm = {[ "p" := 0%nat ]}.
Proof. vm_compute. reflexivity. Defined.
Lemma running_pm_heap : heap running_pm = {[ 0%nat := running_plugin ]}.
Proof. vm_compute. reflexivity. Defined.
Lemma running_plugin_facts :
  Name running_plugin = "p" ∧ Revision running_plugin = "1" ∧ State running_plugin = RUNNING ∧
  StartAttempts (manifest running_plugin) = 3.
Proof. vm_compute. done. Defined.

Lemma running_pm_lookup p x : heap running_pm !! p = Some x → p = 0%nat ∧ x = running_plugin.
Proof. rewrite running_pm_heap. intros [-> ->]%lookup_singleton_Some. done. Qed.

Lemma running_pm_wf : wf running_pm.
Proof.
  intros n p. rewrite running_pm_table. intros [<- <-]%lookup_singleton_Some.
  exists running_plugin. rewrite running_pm_heap. split; [apply lookup_singleton_eq|vm_compute; done].
Qed.

Lemma example_req_ok a rev : request_ok 20 (example_req a rev).
Proof. unfold request_ok, covered, defaultConnectTimeoutTries; simpl. lia. Qed.


Lemma installPlugin_fresh_witness :
  wp (installPlugin 20 (example_req INSTALL "1"))
     (λ e s', e = None → ∃ p x, plugins s' !! "p" = Some p ∧ heap s' !! p = Some x ∧ State x = RUNNING)
     empty_pm ∧
  snd <$> installPlugin 20 (example_req INSTALL "1") empty_pm = Some None.
Proof.
  split; [|vm_compute; reflexivity].
  eapply wp_mono; [apply (installPlugin_fresh 20 (example_req INSTALL "1") empty_pm)|].
  - apply example_req_ok.
  - reflexivity.
  - reflexivity.
  - intros e s' [_ He] ->. destruct He as (p & x & _ & Hx & _ & _ & Hr & Hp & _).
    exists p, x. rewrite Hp. split; [apply lookup_insert_eq|]. split; [exact Hx|exact Hr].
Defined.

Lemma installPlugin_upgrade_witness :
  wp (installPlugin 20 (example_req INSTALL "2"))
     (λ e s', ∃ x', heap s' !! 0%nat = Some x' ∧ (e = None → live x' = (STOPPED, 0, None))) running_pm ∧
  (λ r, (r.2, plugins r.1)) <$> installPlugin 20 (example_req INSTALL "2") running_pm
    = Some (None, {[ "p" := 1%nat ]}).
Proof.
  split; [|vm_compute; reflexivity].
  eapply wp_mono;
    [apply (installPlugin_upgrade 20 (example_req INSTALL "2") 0%nat running_plugin running_pm)|].
  - apply example_req_ok.
  - vm_compute. reflexivity.
  - vm_compute. reflexivity.
  - vm_compute. reflexivity.
  - intros e s' (x' & Hx' & _ & _ & Ho). exists x'. split; [exact Hx'|]. intros ->.
    rewrite bool_decide_eq_false_2 in Ho by (vm_compute; discriminate).
    destruct Ho as (q & y & _ & _ & _ & _ & _ & _ & _ & Hl & _). exact Hl.
Defined.

Lemma removePlugin_stops_witness :
  wp (removePlugin 20 (example_req REMOVE "1"))
     (λ e s', e = None → ∃ x', heap s' !! 0%nat = Some x' ∧ State x' = STOPPED) running_pm ∧
  (λ r, (r.2, plugins r.1)) <$> removePlugin 20 (example_req REMOVE "1") running_pm = Some (None, ∅).
Proof.
  split; [|vm_compute; reflexivity].
  eapply wp_mono; [apply (removePlugin_stops 20 (example_req REMOVE "1") 0%nat running_plugin running_pm)|].
  - vm_compute. reflexivity.
  - vm_compute. reflexivity.
  - vm_compute. reflexivity.
  - intros e s' (_ & x' & Hh & _ & [[Hl _]|[He _]]) ->; [|exfalso; exact (He eq_refl)]. exists x'.
    rewrite Hh. split; [apply lookup_insert_eq|]. injection Hl as -> _ _. reflexivity.
Defined.

Lemma applyConfig_hash_witness :
  wp (applyConfig 20 (example_req APPLY "1"))
     (λ e s', e = None → ∃ x', heap s' !! 0%nat = Some x' ∧
        config_part x' = (Some (mkServiceConfig "cfg" ""), config_hash_of (mkServiceConfig "cfg" "")))
     running_pm ∧
  snd <$> applyConfig 20 (example_req APPLY "1") running_pm = Some None.
Proof.
  split; [|vm_compute; reflexivity].
  eapply wp_mono;
    [refine (applyConfig_hash 20 (example_req APPLY "1") (GetManifest (example_req APPLY "1")) 0%nat
               running_plugin running_pm _ _ _ _ _)|].
  - reflexivity.
  - vm_compute. reflexivity.
  - vm_compute. reflexivity.
  - unfold covered, defaultConnectTimeoutTries. lia.
  - vm_compute. split; [split; done|done].
  - intros e s' (_ & _ & He) Hn. destruct (He Hn) as (c & x' & Hc & Hx' & Hp). exists x'.
    split; [exact Hx'|]. simpl in Hc. injection Hc as <-. exact Hp.
Defined.

Lemma VerifyPluginRunning_correct_witness :
  ∃ e, VerifyPluginRunning (example_req APPLY "1") running_pm = Some (running_pm, e) ∧ e = None.
Proof.
  destruct (VerifyPluginRunning_correct (example_req APPLY "1") running_pm running_pm_wf) as (e & He & Hiff).
  exists e. split; [exact He|]. apply Hiff. exists 0%nat, running_plugin.
  split; [vm_compute; reflexivity|]. split; [vm_compute; reflexivity|]. vm_compute. split; reflexivity.
Defined.

Lemma ListPluginStates_reports_witness :
  wp ListPluginStates (λ states s', plugins s' = plugins running_pm ∧ length states = 1%nat) running_pm.
Proof.
  eapply wp_mono; [apply (ListPluginStates_reports running_pm running_pm_wf)|].
  - intros p x [_ ->]%running_pm_lookup.
    exists [mkMetric 13 2 1]. split; [done|]. split; [done|]. split; [done|]. split; [done|].
    intros [|j] Hj _; [reflexivity|simpl in Hj; lia].
  - intros states s' [Hp HF]. split; [exact Hp|]. apply Forall2_length in HF.
    rewrite <-HF, running_pm_table. vm_compute. reflexivity.
Defined.

End witnesses.

End PluginHandlers.
