(* ===== verification/PluginCleanup.v ===== *)
(** * internal/plugin/manager: clean-ups

    Properties of the two clean-ups of cleanup.go: the removal of the state of
    other instances touches nothing else, whatever system calls fail; and the
    daily removal of leftovers, which looks plugins up under the name of their
    install directory, takes running plugins for leftovers. *)
From S2P Require Import Prelude GoStrings Os Retry BoundedList FileUtil Plugin PluginSteps Scheduler.
From S2P Require Import PluginManager PluginFacts PluginManagerFacts PluginRequests.

Local Open Scope Z_scope.

Module PluginCleanup.
Import Plugin PluginSteps PluginManager PluginFacts PluginManagerFacts PluginRequests.

Section old_state.
Context `{Config} `{World} `{OsFaults} `{FileUtil.Archives} `{RequestCodec}.

(** A directory the clean-up of old state may remove: named by digits, and not
    the current instance. *)
Definition old_state_path (path current q : string) : Prop :=
  ∃ name, name ≠ current ∧ all_digits name = true ∧ below (path_Join [path; name]) q = true.

Lemma touches_RemoveAll (P : string → Prop) p :
  (∀ q, below p q = true → P q) → FileUtil.touches_only (S := PM) P (os_RemoveAll p) (λ _, True).
Proof.
  intros HP. apply FileUtil.touches_with_fs; [done|]. intros m. split; [done|]. intros q Hq. simpl.
  rewrite lookup_remove_below. destruct (below p q) eqn:E; [by destruct Hq; auto|done].
Qed.

Lemma touches_until {A} (P : string → Prop) (l : list A) (body : unit → A → M PM (unit + error)) :
  (∀ x, FileUtil.touches_only P (body tt x) (λ _, True)) →
  FileUtil.touches_only P (for_until l tt body) (λ _, True).
Proof.
  intros Hb. induction l as [|x l IH]; cbn [for_until]; [by apply FileUtil.touches_ret|].
  eapply FileUtil.touches_bind; [apply Hb|]. intros [[]|e] _; [exact IH|by apply FileUtil.touches_ret].
Qed.

(** Only paths of [P] are touched, and the instance keeps its id. *)
Definition confined (P : string → Prop) (s s' : PM) : Prop :=
  instanceID (menv s') = instanceID (menv s) ∧
  ∀ q, ¬ P q → nodes (fs_of s') !! q = nodes (fs_of s) !! q.

Definition same_instance (s s' : PM) : Prop := instanceID (menv s') = instanceID (menv s).

#[local] Instance same_instance_preorder : PreOrder same_instance.
Proof. split; [done|]. intros ??? E1 E2. unfold same_instance in *. congruence. Qed.

#[local] Instance same_instance_fs : IgnoresFS same_instance.
Proof. done. Qed.

Lemma wp_confined {A} P (m : M PM A) s :
  FileUtil.touches_only P m (λ _, True) → respects same_instance m → wp m (λ _, confined P s) s.
Proof.
  intros Ht Hr. eapply wp_mono; [apply (wp_frame _ same_instance); [apply Ht|exact Hr]|].
  intros a s' [[_ Hn] Hi]. by split.
Qed.

(** C8. Whatever fails, removing the state of old instances only touches
    directories whose name is all digits and is not the current instance's
    id, and what is below them; and it always ends. *)
Theorem cleanupOldState_contained (path : string) (s : PM) :
  wp (cleanupOldState path)
     (λ _ s', ∀ q, ¬ old_state_path path (instanceID (menv s)) q →
                nodes (fs_of s') !! q = nodes (fs_of s) !! q) s.
Proof.
  unfold cleanupOldState. set (P := old_state_path path (instanceID (menv s))).
  wp_step. eapply wp_mono.
  { apply (wp_confined P); [|apply respects_Exists; typeclasses eauto].
    eapply FileUtil.touches_bind; [by apply FileUtil.touches_none|intros; by apply FileUtil.touches_ret]. }
  intros x s1 [Hi1 Hs1]. destruct (negb x); [by wp_step|]. wp_step.
  eapply wp_mono.
  { apply (wp_confined P); [by apply FileUtil.touches_none|apply respects_with_fs; typeclasses eauto]. }
  intros [dirs|er] s2 [Hi2 Hs2]; [|wp_step; intros q Hq; by rewrite Hs2, Hs1].
  do 3 wp_step. eapply wp_mono; [apply (touches_until P)|].
  - intros [name [| |]]; cbn [fst snd]; try by apply FileUtil.touches_ret.
    case_bool_decide as Hc; simpl; [by apply FileUtil.touches_ret|].
    destruct (all_digits name) eqn:Hd; simpl; [|by apply FileUtil.touches_ret].
    eapply FileUtil.touches_bind; [apply touches_RemoveAll|].
    + intros q Hq. exists name. split_and!; [|done|done]. congruence.
    + intros [e|] _; by apply FileUtil.touches_ret.
  - intros r s3 [_ Hs3]. wp_step. intros q Hq. by rewrite Hs3, Hs2, Hs1.
Qed.

End old_state.
(** ** Leftovers *)
Section leftovers.
#[local] Existing Instance example_config.
#[local] Existing Instance no_faults.
#[local] Existing Instance plain_archives.
#[local] Existing Instance example_world.
#[local] Existing Instance example_codec.

(** The installation directory of the running plugin [x] is there before, and
    gone after, while the table still has [x] as RUNNING. *)
Definition lost (s m : PM) (p : ptr) : bool :=
  bool_decide (plugins s !! "p" = Some p) && bool_decide (plugins m !! "p" = Some p) &&
  match heap s !! p, heap m !! p with
  | Some x, Some x' =>
      bool_decide (State x = RUNNING) && bool_decide (State x' = RUNNING) &&
      bool_decide (InstallPath x' = InstallPath x) &&
      bool_decide (nodes (fs_of s) !! InstallPath x = Some NDir) &&
      bool_decide (nodes (fs_of m) !! InstallPath x = None)
  | _, _ => false
  end.

(** The daily clean-up looks plugins up under the name of their install
    directory, name_revision, while the table has them under their name: it
    takes the directory of an installed, running plugin with no request in
    progress for a leftover, and removes it from under the running plugin. *)
Theorem cleanup_removes_running_plugin :
  ∃ s m p x x',
    rtc (step 20) initial s ∧ running s = [] ∧ background (pm s) = [] ∧
    plugins (pm s) !! "p" = Some p ∧ heap (pm s) !! p = Some x ∧ State x = RUNNING ∧
    nodes (fs_of (pm s)) !! InstallPath x = Some NDir ∧
    retryFailedRemovals (pm s) = Some (m, (false, None)) ∧
    plugins m !! "p" = Some p ∧ heap m !! p = Some x' ∧ State x' = RUNNING ∧
    InstallPath x' = InstallPath x ∧ nodes (fs_of m) !! InstallPath x = None.
Proof.
  assert (Hw : (λ s, quiet s && match retryFailedRemovals (pm s) with
                               | Some (m, (false, None)) => lost (pm s) m 0%nat
                               | _ => false
                               end) <$> exec_all 20 reinstall initial = Some true) by (vm_compute; reflexivity).
  destruct (exec_all 20 reinstall initial) as [s|] eqn:E; [|discriminate Hw].
  apply exec_all_steps in E. injection Hw. clear Hw. unfold quiet, lost.
  destruct (retryFailedRemovals (pm s)) as [[m [[] [e|]]]|] eqn:Em;
    try (rewrite andb_false_r; discriminate).
  destruct (heap (pm s) !! (0%nat : ptr)) as [x|] eqn:Hx; [|rewrite !andb_false_r; discriminate].
  destruct (heap m !! (0%nat : ptr)) as [x'|] eqn:Hx'; [|rewrite !andb_false_r; discriminate].
  rewrite !andb_true_iff, !bool_decide_eq_true.
  intros [[Hr Hb] [[Hp Hp'] [[[[H1 H2] H3] H4] H5]]].
  exists s, m, 0%nat, x, x'. split_and!; first [done | by apply nil_length_inv].
Qed.

End leftovers.
End PluginCleanup.
