(* ===== verification/PluginEvents.v ===== *)
(** * internal/plugin/manager: VM events and the status watcher

    commandhandler.go (the handler of the command VmEvent, which tells every
    plugin about an event), pluginwatcher.go (the watcher that waits for a
    plugin to answer with a status), and internal/plugin/config (the file that
    says whether the core plugin is enabled).  The goroutines of the handler
    run in any order; JSON is a parameter. *)
From stdpp Require Import pretty.
From S2P Require Import Prelude GoStrings GoStringFacts Os Retry FileUtil Regexp Plugin PluginSteps PluginManager PluginFacts.

Module PluginEvents.
Import Plugin PluginSteps PluginManager.

(** ** commandhandler.go *)
Definition VMEventCmd : string := "VmEvent".
Definition notifySkipStatus : Z := 501.
Definition notifyErrorStatus : Z := 502.
Definition SupportedEvents : list string := ["startup"; "shutdown"; "specialize"].

Record Request := mkRequest { Command : string; Event : string }.

(** The message of a response: none, that of a plugin that is not running, the
    text of a failed call. *)
Inductive message :=
| NoMessage
| NotRunning (name : string) (last : StatusValue) (event : string)
| CallFailed (e : error).

Record Response := mkResponse { Status : Z; StatusMessage : message }.

(** [plugin] is not exported. *)
Record result_ := mkResult { response : Response; plugin : string }.

(** encoding/json: a request read from its bytes, and what it makes of the
    results, of which it sees the exported fields only. *)
Class Json := {
  json_request : string → option Request;
  json_responses : list Response → result string;
}.

Section handler.
Context `{Config} `{World} `{OsFaults} `{Json}.

Definition validateRequest (req : string) : result Request :=
  match json_request req with
  | None => Err (ErrMsg "unable to parse request to request struct")
  | Some r =>
      if negb (bool_decide (Command r = VMEventCmd)) then Err (ErrMsg ("unknown command " +:+ Command r))
      else if negb (bool_decide (Event r ∈ SupportedEvents)) then Err (ErrMsg ("unknown event " +:+ Event r))
      else Ok r
  end.

(** The goroutine of a plugin. *)
Definition notify (r event : string) : M pst result_ :=
  name ← this FullName;
  running ← IsRunning;
  if negb running then
    st ← this State;
    mret (mkResult (mkResponse notifySkipStatus (NotRunning name st event)) name)
  else
    e ← Apply (Some (mkServiceConfig r ""));
    mret (match e with
          | Some e => mkResult (mkResponse notifyErrorStatus (CallFailed e)) name
          | None => mkResult (mkResponse 0 NoMessage) name
          end).

(** The goroutines in the order they run, each with the slot of its result. *)
Definition notify_all (r event : string) (order : list (nat * ptr)) (results : list (option result_)) : M PM (list (option result_)) :=
  for_acc order results (λ results '(i, p),
    result ← on_plugin p (notify r event);
    mret (<[i := Some result]> results)).

(** [schedule] is the order the goroutines run in. *)
Definition vmEventHandler (schedule : list ptr → list (nat * ptr)) (r : string) : M PM (result string) :=
  match validateRequest r with
  | Err e => mret (Err e)
  | Ok req =>
      plugins ← list_;
      results ← notify_all r (Event req) (schedule plugins) (replicate (length plugins) None);
      let zero := mkResult (mkResponse 0 NoMessage) "" in
      mret (match json_responses ((λ x, response (default zero x)) <$> results) with
            | Ok b => Ok b
            | Err e => Err (ErrWrap "unable to marshal results" e)
            end)
  end.

(** ** pluginwatcher.go *)
Definition WatcherID : string := "plugin-status-watcher".
Definition EventID : string := "plugin-watcher,status".

Record Watcher := mkWatcher { w_name : string; statusCode : Z; w_request : string }.

Definition InitWatcher (name : string) (code : Z) (req : string) : Watcher := mkWatcher name code req.

Definition watcher_ID (w : Watcher) : string := WatcherID.
Definition watcher_Events (w : Watcher) : list string := [EventID].

Definition watcher_policy : Retry.Policy := Retry.mkPolicy 3 (float_of_Z 2) (2 * Second) None 0.

Definition zero_status : rpc_status := mkRpcStatus 0 [].

(** One look at the status: an error unless it is the awaited one. *)
Definition awaited (w : Watcher) : M pst (rpc_status * option error) :=
  r ← GetStatus (w_request w);
  mret (match r with
        | Err e => (zero_status, Some (ErrFmt ("unable to get " +:+ w_name w +:+ " plugin status") e))
        | Ok resp =>
            if (Plugin.Code resp =? statusCode w)%Z then (resp, None)
            else (zero_status, Some (ErrMsg ("plugin " +:+ w_name w +:+ " returned another status code")))
        end).

(** Whether to renew the watcher, the data of the event, its error. *)
Definition watcher_Run (fuel : nat) (w : Watcher) : M PM (bool * option rpc_status * option error) :=
  p ← Fetch (w_name w);
  match p with
  | Err e => mret (false, None, Some (ErrWrap ("unable to fetch plugin " +:+ w_name w) e))
  | Ok p =>
      '(status, err) ← on_plugin p (retry_RunWithResponse fuel zero_status watcher_policy (awaited w));
      mret (match err with
            | None => (false, Some status, None)
            | Some e => (true, None, Some e)
            end)
  end.
End handler.

(** ** internal/plugin/config *)
Section config.
Context {S : Type} `{HasFS S} `{OsFaults} (CorePluginEnabledConfigFile : string).

Definition DefaultIsCorePluginEnabled : bool := true.

Definition print_bool (b : bool) : string := if b then "true" else "false".

Definition SetCorePluginEnabled (enableCorePlugin : bool) : M S (option error) :=
  let dir := Dir CorePluginEnabledConfigFile in
  e ← os_MkdirAll dir;
  match e with
  | Some e => mret (Some (ErrWrap ("unable to create directory " +:+ dir) e))
  | None =>
      e ← os_WriteFile CorePluginEnabledConfigFile ("enabled=" +:+ print_bool enableCorePlugin);
      mret (ErrWrap "unable to set core plugin enabled in config file" <$> e)
  end.

(** A letter, a digit or an underscore. *)
Definition is_word (b : byte) : bool :=
  let n := Ascii.N_of_ascii b in
  ((48 <=? n) && (n <=? 57) || (65 <=? n) && (n <=? 90) || (97 <=? n) && (n <=? 122) || (n =? 95))%N.

Definition enabled_regex : Regexp.pattern := [(None, Regexp.lit "enabled="); (Some "1", Regexp.Many1 is_word)].

(** [strconv.ParseBool]. *)
Definition ParseBool (s : string) : option bool :=
  if bool_decide (s ∈ ["1"; "t"; "T"; "TRUE"; "true"; "True"]) then Some true
  else if bool_decide (s ∈ ["0"; "f"; "F"; "FALSE"; "false"; "False"]) then Some false
  else None.

(** The setting a text states, if any. *)
Definition parse_enabled (data : string) : option bool :=
  word ← Regexp.GroupsMap enabled_regex data "1"; ParseBool word.

Definition IsCorePluginEnabled : M S bool :=
  data ← os_ReadFile CorePluginEnabledConfigFile;
  mret (match data with
        | Err _ => DefaultIsCorePluginEnabled
        | Ok data => default DefaultIsCorePluginEnabled (parse_enabled data)
        end).

Definition IsConfigFilePresent : M S bool := Exists CorePluginEnabledConfigFile TypeFile.
End config.

(** ** What the notification of a plugin changes *)
Section theorems.
Context `{Config} `{World} `{OsFaults} `{Json}.

(** Only the connection of the plugin and the clock of the outside world. *)
Definition touches_client (s s' : pst) : Prop :=
  (∃ c, self s' = set_client c (self s)) ∧
  env_fs (penv s') = env_fs (penv s) ∧ instanceID (penv s') = instanceID (penv s) ∧ Plugin.events (penv s') = Plugin.events (penv s).

#[local] Instance touches_client_preorder : PreOrder touches_client.
Proof.
  split.
  - intros s. split; [|done]. exists (client (self s)). by destruct (self s).
  - intros a b c [[c1 E1] (A1 & A2 & A3)] [[c2 E2] (B1 & B2 & B3)]. split; [|split_and!; congruence].
    exists c2. rewrite E2, E1. done.
Qed.

Lemma touches_ext {A} (f : nat → A) : respects touches_client (ext f).
Proof.
  intros s s' a. unfold ext, on_env, env_ext. intros [= <- <-]. split; [|done]. exists (client (self s)). by destruct (self s).
Qed.

Lemma touches_set_client c : respects touches_client (set_self (set_client c)).
Proof. intros s s' a [= <- _]. split; [by exists c|done]. Qed.

Lemma touches_this {A} (f : Plugin → A) : respects touches_client (this f).
Proof. apply respects_gets, _. Qed.

Lemma total_env_ext {A} (f : nat → A) : total (ext f).
Proof. intros s. by eexists. Qed.

Ltac touches := repeat first [apply touches_ext | apply touches_set_client | apply touches_this | apply respects_ret, _ | respects_step; try apply _].

Lemma touches_PluginService : respects touches_client PluginService.
Proof. unfold PluginService. touches. Qed.

Lemma touches_notify r ev : respects touches_client (notify r ev).
Proof.
  unfold notify, IsRunning, Connect, GetStatus, Apply. touches; apply touches_PluginService.
Qed.

(** What a plugin is told, by the answers of the outside world from its [n]-th
    call on: the call of Apply carries the request as it came. *)
Definition told (r event : string) (p : Plugin) (n : nat) : Response :=
  let addr := connectAddress p in
  let skipped := mkResponse notifySkipStatus (NotRunning (FullName p) (State p) event) in
  match grpc_NewClient n addr with
  | Some _ => skipped
  | None =>
      match rpc_call (S n) addr defaultStatusRPCTimeout (GetStatusRequest None) with
      | Err _ => skipped
      | Ok _ =>
          match rpc_call (S (S n)) addr defaultApplyRPCTimeout (ApplyRequest (Some (StringConfig r))) with
          | Err e => mkResponse notifyErrorStatus (CallFailed e)
          | Ok _ => mkResponse 0 NoMessage
          end
      end
  end.

Lemma wp_notify r ev s : r ≠ "" →
  wp (notify r ev) (λ x s', x = mkResult (told r ev (self s) (clock (penv s))) (FullName (self s)) ∧ touches_client s s') s.
Proof.
  intros Hr. apply wp_frame; [|apply touches_notify].
  destruct s as [p e]. unfold told, wp. unfold notify, IsRunning, Connect, GetStatus, Apply, PluginService, buildApplyRequest, service_config_of.
  cbn [Structured]. rewrite ?(bool_decide_true ("" = "")) by done.
  unfold mbind, M_bind, mret, M_ret, set_self, this, gets, modify, ext, on_env, env_ext. cbn.
  destruct (grpc_NewClient _ _); [done|]. cbn. destruct (rpc_call _ _ _ (GetStatusRequest _)); [|done]. cbn.
  rewrite ?bool_decide_false by done. cbn. by destruct (rpc_call _ _ _ (ApplyRequest _)).
Qed.

Lemma told_client r ev c p n : told r ev (set_client c p) n = told r ev p n.
Proof. done. Qed.

(** The manager after it: its tables as they were, each plugin with a
    connection of its own. *)
Definition reconnects (s s' : PM) : Prop :=
  set_heap (heap s) (set_menv (menv s) s') = s ∧ env_fs (menv s') = env_fs (menv s) ∧ Plugin.events (menv s') = Plugin.events (menv s) ∧
  ∀ p x, heap s !! p = Some x → ∃ c, heap s' !! p = Some (set_client c x).

Lemma reconnects_refl s : reconnects s s.
Proof. split; [by destruct s|]. split_and!; [done..|]. intros p x E. exists (client x). rewrite E. by destruct x. Qed.

Lemma reconnects_trans s1 s2 s3 : reconnects s1 s2 → reconnects s2 s3 → reconnects s1 s3.
Proof.
  intros (A1 & A2 & A3 & A4) (B1 & B2 & B3 & B4). split_and!; [|congruence..|].
  - rewrite <-A1. rewrite <-B1. by destruct s1, s2, s3.
  - intros p x E. destruct (A4 p x E) as [c1 E1]. destruct (B4 p _ E1) as [c2 E2]. by exists c2.
Qed.

Lemma wp_notify_plugin r ev p x s : r ≠ "" → heap s !! p = Some x →
  wp (on_plugin p (notify r ev)) (λ a s', a = mkResult (told r ev x (clock (menv s))) (FullName x) ∧ reconnects s s') s.
Proof.
  intros Hr Hp. pose proof (wp_notify r ev (mkPst x (menv s)) Hr) as Hw. unfold wp, on_plugin, mbind, option_bind in *. rewrite Hp.
  destruct (notify r ev _) as [[[x' e'] a]|]; [|done]. destruct Hw as [-> [[c Hc] (E1 & E2 & E3)]]. cbn in *. split; [done|].
  split_and!; [by destruct s|done|done|]. intros q y Hq. destruct (decide (p = q)) as [<-|Hne]; cbn.
  - rewrite lookup_insert_eq, Hc. exists c. congruence.
  - rewrite lookup_insert_ne by done. exists (client y). rewrite Hq. by destruct y.
Qed.

Lemma wp_notify_all r ev order rs s : r ≠ "" → NoDup order.*1 → (∀ i p, (i, p) ∈ order → is_Some (heap s !! p) ∧ i < length rs) →
  wp (notify_all r ev order rs) (λ rs' s', reconnects s s' ∧ length rs' = length rs ∧
    (∀ i p, (i, p) ∈ order → ∃ x n, heap s !! p = Some x ∧ rs' !! i = Some (Some (mkResult (told r ev x n) (FullName x)))) ∧
    (∀ i, i ∉ order.*1 → rs' !! i = rs !! i)) s.
Proof.
  intros Hr. revert rs s. induction order as [|[i p] order IH]; intros rs s Hnd Hin; unfold notify_all; cbn [for_acc].
  { apply wp_ret. split_and!; [apply reconnects_refl|done|by intros ?? ?%elem_of_nil|done]. }
  cbn in Hnd. apply NoDup_cons in Hnd as [Hi Hnd]. destruct (Hin i p) as [[x Hx] Hlen]; [by left|]. wp_step. wp_step.
  eapply wp_mono; [by apply wp_notify_plugin|]. intros a s1 [-> Hs1]. apply wp_ret.
  eapply wp_mono; [apply IH; [done|]|].
  { intros j q Hj. destruct (Hin j q) as [[y Hy] Hlj]; [by right|]. rewrite length_insert. split; [|done].
    destruct Hs1 as (_ & _ & _ & Hh). destruct (Hh q y Hy) as [c ->]. done. }
  intros rs' s2 (Hs2 & Hl & Hall & Hother). rewrite length_insert in Hl. split_and!; [by eapply reconnects_trans|done| |].
  - intros j q [[= -> ->]|Hj]%elem_of_cons.
    + exists x, (clock (menv s)). split; [done|]. rewrite Hother by done. by rewrite list_lookup_insert_eq.
    + destruct (Hall j q Hj) as (y & n & Hy & Hrs). destruct (Hin j q) as [[y0 Hy0] _]; [by right|].
      destruct Hs1 as (_ & _ & _ & Hh). destruct (Hh q y0 Hy0) as [c Hc]. rewrite Hy in Hc. injection Hc as ->.
      exists y0, n. split; [done|]. exact Hrs.
  - intros j Hj. cbn in Hj. rewrite not_elem_of_cons in Hj. destruct Hj as [Hne Hj]. rewrite Hother by done. by rewrite list_lookup_insert_ne.
Qed.

(** A request of a VM event is refused when it cannot be read, names another
    command or an event that is not supported.  Otherwise, in whatever order
    the goroutines run, the handler tells every plugin of the table once and
    returns one response per plugin, in the order of the list: 501 for a plugin
    that cannot be reached or does not answer, which is not told, 502 for one
    whose call of Apply fails, 0 for the others.  The manager keeps its tables,
    and its plugins keep everything but their connections. *)
Theorem vmEventHandler_tells_all (schedule : list ptr → list (nat * ptr)) (r : string) (s : PM) :
  r ≠ "" → (∀ l, schedule l ≡ₚ imap pair l) → (∀ name p, plugins s !! name = Some p → is_Some (heap s !! p)) →
  wp (vmEventHandler schedule r) (λ out s', reconnects s s' ∧
    match validateRequest r with
    | Err e => out = Err e
    | Ok req =>
        ∃ responses, Forall2 (λ p x, ∃ y n, heap s !! p = Some y ∧ x = told r (Event req) y n) (map_to_list (plugins s)).*2 responses ∧
          (out = json_responses responses ∨ ∃ e, json_responses responses = Err e ∧ out = Err (ErrWrap "unable to marshal results" e))
    end) s.
Proof.
  intros Hr Hsched Hheap. unfold vmEventHandler. destruct (validateRequest r) as [req|e]; [|apply wp_ret; split; [apply reconnects_refl|done]].
  wp_step. unfold list_. apply wp_gets. set (l := (map_to_list (plugins s)).*2). wp_step.
  assert (Hmem : ∀ i p, (i, p) ∈ schedule l ↔ l !! i = Some p).
  { intros i p. rewrite (Hsched l). rewrite list_elem_of_lookup. setoid_rewrite list_lookup_imap_Some. naive_solver. }
  eapply wp_mono; [apply wp_notify_all; [done| |]|].
  { rewrite (Hsched l). replace (imap pair l).*1 with (seq 0 (length l)); [apply NoDup_seq|].
    apply list_eq. intros i. rewrite list_lookup_fmap, list_lookup_imap.
    destruct (l !! i) eqn:E; cbn; [apply lookup_seq; split; [done|by apply lookup_lt_Some in E]|].
    apply lookup_seq_ge. by apply lookup_ge_None. }
  { intros i p Hp. apply Hmem in Hp as Hl. split; [|rewrite length_replicate; by eapply lookup_lt_Some].
    apply list_elem_of_lookup_2 in Hl. apply list_elem_of_fmap in Hl as ([name q] & -> & Hq). apply elem_of_map_to_list in Hq. by eapply Hheap. }
  intros rs s' (Hs & Hl & Hall & _). rewrite length_replicate in Hl. apply wp_ret. split; [exact Hs|].
  exists ((λ x, response (default (mkResult (mkResponse 0 NoMessage) "") x)) <$> rs).
  split; [|match goal with |- context [json_responses ?l] => destruct (json_responses l) as [b|e] end; [by left|right; by eexists]].
  apply Forall2_fmap_r. apply Forall2_same_length_lookup. split; [done|]. intros i p x Hp Hx.
  destruct (Hall i p) as (y & n & Hy & Hi); [by apply Hmem|]. exists y, n. split; [done|]. rewrite Hi in Hx. by injection Hx as <-.
Qed.

(** The watcher asks at most three times; the only status it reports is the one
    it waits for, and it is renewed exactly when it has not seen it. *)
Definition watched (w : Watcher) (r : rpc_status * option error) : Prop := r.2 = None → Plugin.Code r.1 = statusCode w.

Lemma wp_awaited w s : wp (awaited w) (λ r _, watched w r) s.
Proof.
  unfold awaited, GetStatus, PluginService, wp, mbind, M_bind, mret, M_ret, this, gets, ext, on_env, env_ext. destruct s as [p e]; cbn.
  destruct (client p) as [addr|]; cbn; [|done]. destruct (rpc_call _ _ _ _) as [st|er]; cbn; [|done].
  destruct (Plugin.Code st =? statusCode w)%Z eqn:E; [|done]. intros _. by apply Z.eqb_eq.
Qed.

Lemma wp_retry_awaited w s : wp (retry_RunWithResponse 3 zero_status watcher_policy (awaited w)) (λ r _, watched w r) s.
Proof.
  unfold retry_RunWithResponse, Retry.RunWithResponse. wp_step. cbn [Retry.retry_loop].
  assert (Hwait : ∀ d (Q : option error → pst → Prop) s, (∀ r s', Q r s') → wp (retry_wait d) Q s) by (intros d Q s0 HQ; apply HQ).
  do 2 (wp_step; eapply wp_mono; [apply wp_awaited|]; intros [? [?|]] ? ?; [|apply wp_ret, wp_ret; assumption];
        cbn -[wp Retry.backoff]; wp_step; apply Hwait; intros [?|] ?; [by apply wp_ret, wp_ret|]).
  wp_step. eapply wp_mono; [apply wp_awaited|]. intros [? [?|]] ? ?; [|apply wp_ret, wp_ret; assumption]. by apply wp_ret, wp_ret.
Qed.

Theorem watcher_reports_awaited (w : Watcher) (s : PM) :
  (∀ name p, plugins s !! name = Some p → is_Some (heap s !! p)) →
  wp (watcher_Run 3 w) (λ r _,
    match r with
    | (false, Some st, None) => Plugin.Code st = statusCode w
    | (false, None, Some _) => plugins s !! w_name w = None
    | (true, None, Some _) => is_Some (plugins s !! w_name w)
    | _ => False
    end) s.
Proof.
  intros Hheap. unfold watcher_Run. wp_step. unfold Fetch. apply wp_gets. destruct (plugins s !! w_name w) as [p|] eqn:Ep; [|by apply wp_ret].
  destruct (Hheap _ _ Ep) as [x Hx]. wp_step.
  pose proof (wp_retry_awaited w (mkPst x (menv s))) as Hw. unfold wp at 1 in Hw. unfold wp at 1, on_plugin, mbind, option_bind. rewrite Hx.
  destruct (retry_RunWithResponse 3 _ _ _ _) as [[s1 [st [e|]]]|]; [..|done]; [|by apply Hw].
  by eexists.
Qed.
End theorems.

(** ** The setting of the core plugin *)
Section setting.
Context {S : Type} `{LawfulFS S} `{OsFaults} (fault_free : ∀ n op p, os_fault n op p = None).

(** What is set is read back: after the core plugin was enabled or disabled
    without an error, the agent finds it so, whatever was in the file before.
    A missing file means the default, and so does a text without a setting. *)
Theorem core_plugin_setting_roundtrip (file : string) (enable : bool) (s : S) :
  (∀ t, nodes (fs_of s) !! file ≠ Some (NLink t)) → nodes (fs_of s) !! file ≠ Some NDir →
  mkdir_all (Dir file) (nodes (fs_of s)) !! file = nodes (fs_of s) !! file →
  wp (SetCorePluginEnabled file enable) (λ e s1, e = None ∧ wp (IsCorePluginEnabled file) (λ b _, b = enable) s1) s.
Proof.
  intros Hlink Hdir Hmk. unfold SetCorePluginEnabled. cbv zeta. wp_step. unfold wp at 1, os_MkdirAll. rewrite run_with_fs by done. cbn -[wp].
  set (s1 := after _ s). wp_step.
  assert (Hw : os_WriteFile file ("enabled=" +:+ print_bool enable) s1 =
    Some (after (<[file := NFile ("enabled=" +:+ print_bool enable)]> (nodes (fs_of s1))) s1, None)).
  { destruct (nodes (fs_of s1) !! file) as [[d| |t]|] eqn:E; unfold s1 in E; rewrite nodes_after, Hmk in E.
    - apply run_WriteFile_file with d; [done|]. unfold s1. by rewrite nodes_after, Hmk.
    - done.
    - by destruct (Hlink t).
    - apply run_WriteFile_new; [done|]. unfold s1. by rewrite nodes_after, Hmk. }
  unfold wp at 1. rewrite Hw. apply wp_ret. split; [done|]. unfold IsCorePluginEnabled. wp_step.
  set (s2 := after _ s1).
  assert (E2 : os_ReadFile file s2 = Some (after (nodes (fs_of s2)) s2, Ok ("enabled=" +:+ print_bool enable))).
  { apply run_ReadFile_file; [done|]. unfold s2. by rewrite nodes_after, lookup_insert_eq. }
  unfold wp at 1. rewrite E2. apply wp_ret. destruct enable; vm_compute; reflexivity.
Qed.
End setting.

Section examples.
#[local] Existing Instance PluginFacts.PluginFacts.example_config.
#[local] Existing Instance no_faults.
#[local] Instance example_world : World := PluginFacts.PluginFacts.calm_world "/run".
#[local] Instance example_json : Json := {|
  json_request r := if bool_decide (r = "startup") then Some (mkRequest "VmEvent" "startup") else None;
  json_responses l := Ok (of_bytes (concat ((λ x, to_bytes (pretty (Status x)) ++ to_bytes ",") <$> l)));
|}.

Definition one_plugin : PM :=
  mkPM {[0 := PluginFacts.PluginFacts.example_plugin RUNNING]} {["p" := 0]} ∅ ∅ ∅ [] tcpProtocol ∅ ∅ [] [] true (mkEnv (mkFs ∅ 0) "123" [] 0).

Lemma one_plugin_ok name p : plugins one_plugin !! name = Some p → is_Some (heap one_plugin !! p).
Proof. cbn. intros [<- <-]%lookup_singleton_Some. by eexists. Qed.

Lemma vmEventHandler_tells_all_witness :
  (∃ s', vmEventHandler (imap pair) "startup" one_plugin = Some (s', Ok "0,")) ∧
  wp (vmEventHandler (imap pair) "startup") (λ _ s', reconnects one_plugin s') one_plugin.
Proof.
  split; [eexists; vm_compute; reflexivity|].
  eapply wp_mono; [apply (vmEventHandler_tells_all (imap pair) "startup" one_plugin); [discriminate|reflexivity|exact one_plugin_ok]|].
  intros out s' [Hs _]. exact Hs.
Defined.

Lemma watcher_reports_awaited_witness :
  wp (watcher_Run 3 (InitWatcher "p" 0 "core")) (λ r _, r.1.1 = true ∧ is_Some (plugins one_plugin !! "p")) one_plugin.
Proof.
  pose proof (watcher_reports_awaited (InitWatcher "p" 0 "core") one_plugin one_plugin_ok) as Hw.
  unfold wp in *. assert (E : (λ x, x.2.1.1) <$> watcher_Run 3 (InitWatcher "p" 0 "core") one_plugin = Some true) by (vm_compute; reflexivity).
  destruct (watcher_Run 3 _ one_plugin) as [[s' r]|]; [|discriminate E]. injection E as E. split; [exact E|].
  destruct r as [[[] [st|]] [e|]]; try discriminate E; destruct Hw; by eexists.
Defined.

Lemma core_plugin_setting_roundtrip_witness :
  wp (S := fs) (SetCorePluginEnabled "/etc/google-guest-agent/core-plugin-enabled" false)
    (λ e s1, e = None ∧ wp (IsCorePluginEnabled "/etc/google-guest-agent/core-plugin-enabled") (λ b _, b = false) s1) (mkFs ∅ 0).
Proof.
  apply (core_plugin_setting_roundtrip (λ _ _ _, eq_refl) "/etc/google-guest-agent/core-plugin-enabled" false (mkFs ∅ 0)); [by intros t|done|].
  vm_compute. reflexivity.
Defined.
End examples.
End PluginEvents.
