(* ===== verification/PluginStartup.v ===== *)
(** * internal/plugin/manager: what a start of the manager leaves

    [load], the ad-hoc manager with [StopPlugin], and [InitPluginManager]:
    which plugins of the state directory are taken over, and in what state. *)
From stdpp Require Import gmap strings list.
From S2P Require Import Prelude GoStrings GoStringFacts Os Paths Retry BoundedList FileUtil Plugin PluginSteps Scheduler PluginManager PluginFacts PluginManagerFacts.

Module PluginStartup.
Import Plugin PluginSteps PluginManager PluginFacts PluginManagerFacts.

Section startup.
Context `{Config} `{World} `{OsFaults} `{FileUtil.Archives} `{RequestCodec}.
Context (fuel : nat).

(** The state files decode to plugins whose limits are sane. *)
Hypothesis gob_ok : ∀ d x, gob_Decode d = Ok x →
  is_Some (BoundedList.New zero_Metric (MaxMetricDatapoints (manifest x))) ∧ covered fuel (StartAttempts (manifest x)).
Hypothesis tries_ok : covered fuel defaultConnectTimeoutTries.

(** A plugin of the table: under its name, to be relaunched, and the core
    plugin a local one. *)
Definition entry_ok (name : string) (x : Plugin) : Prop :=
  Name x = name ∧ covered fuel (StartAttempts (manifest x)) ∧ (name = CorePluginName → IsLocal x = true).

Definition table_ok (m : gmap string ptr) (s : PM) : Prop :=
  ∀ name p, m !! name = Some p → ∃ x, heap s !! p = Some x ∧ entry_ok name x.

Lemma table_ok_empty s : table_ok ∅ s.
Proof. by intros ? ? ?%lookup_empty_Some. Qed.

Lemma table_ok_heap m s s' : heap s' = heap s → table_ok m s → table_ok m s'.
Proof. intros Hh Hm name p Hp. rewrite Hh. by apply Hm. Qed.

Lemma table_ok_insert m s p x : table_ok m s → heap s !! p = None → entry_ok (Name x) x →
  table_ok (<[Name x := p]> m) (set_heap (<[p := x]> (heap s)) s).
Proof.
  intros Hm Hp Hx n q [[<- <-]|[Hne Hl]]%lookup_insert_Some; cbn; [exists x; by rewrite lookup_insert_eq|].
  destruct (Hm _ _ Hl) as (y & Hy & He). exists y. rewrite lookup_insert_ne; [done|]. intros ->. congruence.
Qed.

(** ** Loading *)

(** The file system and the tables are left alone, and the heap only grows. *)
Definition grows (s s' : PM) : Prop :=
  plugins s' = plugins s ∧ inProgress s' = inProgress s ∧ background s' = background s ∧ instanceID (menv s') = instanceID (menv s) ∧
  heap s ⊆ heap s'.

#[local] Instance grows_preorder : PreOrder grows.
Proof. split; [by intros s|]. intros a b c (?&?&?&?&?) (?&?&?&?&?). split_and!; [congruence..|]. by etrans. Qed.
#[local] Instance grows_fs : IgnoresFS grows.
Proof. intros f s. by split_and!. Qed.

Lemma grows_alloc x : respects grows (alloc x).
Proof. intros s s' p [= <- _]. split_and!; try done. cbn. apply insert_subseteq, not_elem_of_dom, is_fresh. Qed.

Definition loaded_entry (x : Plugin) (l : BoundedList.List Metric) : Plugin :=
  let x := with_runtime (set_metrics l) x in
  if bool_decide (Name x = CorePluginName) then with_manifest (set_types DAEMON LOCAL_INSTALLATION) x else x.

Lemma loaded_entry_ok x l : covered fuel (StartAttempts (manifest x)) → entry_ok (Name (loaded_entry x l)) (loaded_entry x l).
Proof.
  intros Hc. unfold entry_ok, loaded_entry. cbv zeta. case_bool_decide as Hn; split_and!; try done.
Qed.

Lemma wp_load dir s : wp (load dir) (λ r s', grows s s' ∧ nodes (fs_of s') = nodes (fs_of s) ∧ match r with Ok m => table_ok m s' | Err _ => True end) s.
Proof.
  unfold load. apply wp_bind, wp_with_fs; intros; cbn [fst snd fail_result].
  { destruct (IsNotExist _); apply wp_ret; (split; [apply grows_fs|split; [done|]]); [apply table_ok_empty|done]. }
  destruct (resolve _ _) as [[q []]|]; try (apply wp_ret; split; [apply grows_fs|split; [done|by try apply table_ok_empty]]).
  apply wp_bind. eapply wp_mono.
  { apply (wp_for_until (λ _ m s', grows s s' ∧ nodes (fs_of s') = nodes (fs_of s) ∧ table_ok m s') (λ _ s', grows s s' ∧ nodes (fs_of s') = nodes (fs_of s)));
      [split; [apply grows_fs|split; [done|apply table_ok_empty]]|].
    intros [f nd] l' m s1 (G1 & N1 & Hm). cbn [fst snd]. destruct nd. 2: by apply wp_ret.
    all: apply wp_bind, wp_with_fs; intros; cbn [fst snd fail_result]; [apply wp_ret; split; [by etrans; [exact G1|apply grows_fs]|done]|].
    all: destruct (resolve _ _) as [[? []]|]; try (apply wp_ret; split; [by etrans; [exact G1|apply grows_fs]|done]).
    all: destruct (gob_Decode _) as [x|e] eqn:Eg; [|apply wp_ret; split; [by etrans; [exact G1|apply grows_fs]|done]].
    all: destruct (gob_ok _ _ Eg) as [[l El] Hc]; apply wp_bind; unfold some_or_panic; rewrite El; apply wp_ret.
    all: cbv zeta; fold (loaded_entry x l); apply wp_bind, wp_alloc; intros p Hp; apply wp_ret.
    all: split_and!; [|done|apply table_ok_insert; [done|done|by apply loaded_entry_ok]].
    all: etrans; [exact G1|]; unfold grows; split_and!; try done; cbn; by apply insert_subseteq. }
  intros [m|e] s' Hm; apply wp_ret; [exact Hm|by destruct Hm].
Qed.

(** ** The ad-hoc manager *)
Lemma wp_StopPlugin name s : table_ok (plugins s) s → wp (StopPlugin fuel name) (λ _ _, True) s.
Proof.
  intros Hl. unfold StopPlugin. apply wp_bind, wp_Fetch. destruct (plugins s !! name) as [p|] eqn:E; [|by apply wp_ret].
  destruct (Hl _ _ E) as (x & Hx & _). apply wp_bind, (wp_on_plugin p x); [done|].
  eapply wp_total; [apply total_Connect|]. intros e r.
  eapply wp_mono; [apply (wp_stopAndRemove fuel p (self r)); cbn; apply lookup_insert_eq|done].
Qed.

Lemma wp_InitAdHoc id s : wp (InitAdHocPluginManager id) (λ e s', e = None → table_ok (plugins s') s') s.
Proof.
  unfold InitAdHocPluginManager. apply wp_bind, wp_modify, wp_bind, wp_gets, wp_bind. eapply wp_mono; [apply wp_load|].
  intros [m|e] s' (_ & _ & Hm); [|by apply wp_ret]. by apply wp_bind, wp_modify, wp_ret.
Qed.

(** ** Taking over the plugins *)

(** Only files went. *)
Definition shrinks (s s' : PM) : Prop :=
  ∃ e, s' = set_menv e s ∧ nodes (env_fs e) ⊆ nodes (fs_of s) ∧ instanceID e = instanceID (menv s).

Lemma shrinks_refl s : shrinks s s.
Proof. exists (menv s). split_and!; [by destruct s|done|done]. Qed.

Lemma shrinks_trans a b c : shrinks a b → shrinks b c → shrinks a c.
Proof. intros (e1 & -> & N1 & I1) (e2 & -> & N2 & I2). exists e2. split_and!; [done|by etrans|by rewrite I2]. Qed.

Lemma wp_os_Remove p s : wp (os_Remove p) (λ _ s', shrinks s s') s.
Proof.
  apply wp_with_fs; intros; [by eexists|]. destruct (nodes (fs_of s) !! p) as [[]|]; cbn -[fs_of]; [|case_bool_decide| |]; cbn -[fs_of]; eexists; (split_and!; [done| |done]); cbn;
    try done; apply delete_subseteq.
Qed.

Lemma wp_drop_local m p x s : heap s !! p = Some x →
  wp (drop_local m p) (λ m' s', m' = (if IsLocal x then delete (Name x) m else m) ∧ shrinks s s') s.
Proof.
  intros Hp. unfold drop_local. m_step. eapply wp_deref; [exact Hp|]. destruct (IsLocal x); [|apply wp_ret; split; [done|apply shrinks_refl]].
  apply wp_bind, wp_get, wp_bind. eapply wp_deref; [exact Hp|]. apply wp_bind. eapply wp_mono; [apply wp_os_Remove|].
  intros _ s1 (e & -> & N & I). apply wp_bind. eapply wp_deref; [exact Hp|]. apply wp_ret. split; [done|]. by exists e.
Qed.

(** The entries that stay: not local, so not the core plugin. *)
Lemma wp_drop_locals m s : table_ok m s →
  wp (for_acc (map_to_list m).*2 m drop_local)
    (λ m' s', shrinks s s' ∧ m' ⊆ m ∧ ∀ name p x, m' !! name = Some p → heap s !! p = Some x → IsLocal x = false) s.
Proof.
  intros Hm. eapply wp_mono.
  { apply (wp_for_acc (λ l m' s', shrinks s s' ∧ m' ⊆ m ∧ (∀ p, p ∈ l → p ∈ (map_to_list m).*2) ∧
      ∀ name p x, m' !! name = Some p → heap s !! p = Some x → p ∈ l ∨ IsLocal x = false)).
    - split; [apply shrinks_refl|]. split_and!; [done|done|]. intros name p x Hp _. left. apply list_elem_of_fmap. exists (name, p).
      split; [done|]. by apply elem_of_map_to_list.
    - intros p l m' s1 (S1 & Hsub & Hl & Hloc). pose proof (Hl p (list_elem_of_here _ _)) as Hin. apply list_elem_of_fmap in Hin as ([name p'] & -> & Hin).
      apply elem_of_map_to_list in Hin. destruct (Hm _ _ Hin) as (x & Hx & Hn & _). cbn [snd] in *.
      assert (Hx1 : heap s1 !! p' = Some x) by (by destruct S1 as (e & -> & _)).
      eapply wp_mono; [by apply (wp_drop_local m' p' x)|]. cbn beta. intros m'' s2 [-> S2]. split; [by eapply shrinks_trans|].
      assert (Hd : (if IsLocal x then delete (Name x) m' else m') ⊆ m') by (destruct (IsLocal x); [apply delete_subseteq|done]).
      split_and!; [by etrans|intros q Hq; apply Hl; by right|]. intros name' q y Hq Hy.
      assert (Hq' : m' !! name' = Some q) by (by eapply lookup_weaken). destruct (Hloc _ _ _ Hq' Hy) as [[->|?]%elem_of_cons|?]; [|by left|by right].
      right. rewrite Hx in Hy. injection Hy as <-. destruct (IsLocal x); [|done]. exfalso.
      pose proof (lookup_weaken _ _ _ _ Hq' Hsub) as Hqm. destruct (Hm _ _ Hqm) as (z & Hz & Hnz & _). rewrite Hx in Hz. injection Hz as <-.
      rewrite Hnz, lookup_delete_eq in Hq. done. }
  cbn beta. intros m' s' (S' & Hsub & _ & Hloc). split_and!; [done|done|]. intros name p x Hp Hx. destruct (Hloc _ _ _ Hp Hx) as [?%elem_of_nil|?]; done.
Qed.

(** ** The clean-up that is scheduled *)

(** The directories of the installed plugins are called name_revision. *)
Definition named (loc : string) (m : gmap string node) : Prop :=
  (∀ t, m !! loc ≠ Some (NLink t)) ∧ ∀ n, m !! Paths.in_dir loc n = Some NDir → is_Some (LastIndex n (byte_of 95)).

Lemma named_subseteq loc m m' : m' ⊆ m → named loc m → named loc m'.
Proof.
  intros Hs [Hl Hn]. split; [intros t Ht; by destruct (Hl t (lookup_weaken _ _ _ _ Ht Hs))|]. intros n Hd. apply Hn. by eapply lookup_weaken.
Qed.

Lemma wp_scan loc dirs acc s : (∀ n nd, (n, nd) ∈ dirs → nd = NDir → is_Some (LastIndex n (byte_of 95))) →
  wp (for_acc dirs acc (scan_dir loc)) (λ _ s', s' = s) s.
Proof.
  intros Hd. eapply wp_mono.
  { apply (wp_for_acc (λ l _ s', s' = s ∧ ∀ d, d ∈ l → d ∈ dirs)); [by split|].
    intros [n nd] l [links failed] s' [-> Hl]. assert (Hl' : ∀ d, d ∈ l → d ∈ dirs) by (intros d ?; apply Hl; by right).
    unfold scan_dir. cbn [fst snd]. destruct nd; try by apply wp_ret.
    destruct (Hd n NDir) as [i Ei]; [apply Hl; by left|done|]. rewrite Ei. apply wp_bind, wp_gets. destruct (default _ _); [by apply wp_ret|].
    apply wp_bind, wp_Fetch. by destruct (plugins s !! n). }
  by intros ? s' [-> _].
Qed.

Lemma grows_fresh s p x x' e : heap s !! p = None → instanceID e = instanceID (menv s) →
  grows s (upd (set_heap (<[p := x]> (heap s)) s) p x' e).
Proof. intros Hp Hi. unfold grows, upd. split_and!; try done. cbn. rewrite insert_insert_eq. by apply insert_subseteq. Qed.

Lemma wp_retryFailedRemovals s : named (path_Join [baseState (menv s); pluginInstallDir]) (nodes (fs_of s)) →
  wp retryFailedRemovals (λ _ s', grows s s') s.
Proof.
  intros [Hl Hn]. unfold retryFailedRemovals. apply wp_bind, wp_get. set (loc := path_Join _) in *. cbv zeta. apply wp_bind.
  apply wp_with_fs; intros; cbn [fst snd fail_result]; [destruct (IsNotExist _); apply wp_ret, grows_fs|].
  destruct (resolve _ _) as [[q nd]|] eqn:Er; [|destruct (IsNotExist _); apply wp_ret, grows_fs].
  destruct nd; try (destruct (IsNotExist _); apply wp_ret, grows_fs). apply wp_bind.
  assert (nodes (fs_of s) !! loc = Some NDir ∧ q = loc) as [Hd ->].
  { unfold resolve in Er. destruct (nodes (fs_of s) !! loc) as [[]|] eqn:E.
    - rewrite (resolve_link_here _ _ _ _ E) in Er by done. by simplify_eq.
    - rewrite (resolve_link_here _ _ _ _ E) in Er by done. by simplify_eq.
    - by destruct (Hl target).
    - by rewrite resolve_link_none in Er. }
  eapply wp_mono; [apply wp_scan|].
  { intros n nd Hin ->. apply Paths.elem_of_dir_entries in Hin as (Hin & _). by apply Hn. }
  cbn beta. intros [links failed] s1 ->. apply wp_bind. eapply wp_mono.
  { apply (wp_for_each (λ _ s', grows s s')); [apply grows_fs|]. intros l ls s2 G2. unfold remove_link. apply wp_bind.
    apply wp_with_fs; intros; cbn [fst snd fail_result]; [apply wp_ret; etrans; [exact G2|apply grows_fs]|].
    destruct (nodes (fs_of s2) !! _) as [[]|]; try (apply wp_ret; etrans; [exact G2|apply grows_fs]). destruct (failed !! _); [|apply wp_ret; etrans; [exact G2|apply grows_fs]].
    apply wp_bind. eapply wp_total_respects; [apply total_with_fs|apply (respects_with_fs grows)|]. intros _ s3 G3. apply wp_ret. etrans; [exact G2|]. etrans; [apply grows_fs|exact G3]. }
  cbn beta. intros _ s2 G2. apply wp_bind. eapply wp_mono.
  { apply (wp_for_acc (λ _ _ s', grows s s')); [exact G2|]. intros x l errs s3 G3. apply wp_bind, wp_alloc. intros p Hp. apply wp_bind.
    eapply wp_on_plugin; [cbn; apply lookup_insert_eq|]. eapply wp_mono; [apply (wp_respects _ pst_frame); [apply total_cleanup|apply frame_cleanup]|].
    cbn beta. intros e r (_ & Hi & _). apply wp_ret. etrans; [exact G3|]. by apply grows_fresh. }
  cbn beta. intros errs s3 G3. by apply wp_ret.
Qed.

Lemma wp_schedule_cleanup s : named (path_Join [baseState (menv s); pluginInstallDir]) (nodes (fs_of s)) →
  wp (@Scheduler.ScheduleJobs PM job PM_SchedState (PM_Job fuel) [CleanupJob]) (λ _ s', grows s s') s.
Proof.
  intros Hn. unfold Scheduler.ScheduleJobs. cbn [for_each]. do 2 apply wp_bind. unfold Scheduler.ScheduleJob. apply wp_bind.
  apply wp_ret, wp_bind, wp_gets, wp_bind, wp_gets. case_bool_decide; [by apply wp_ret, wp_ret, wp_ret|].
  apply wp_bind, wp_ret. cbn [negb]. apply wp_bind, wp_gets. cbn [Scheduler.Interval PM_Job job_Interval]. apply wp_bind.
  unfold Scheduler.run. apply wp_bind. cbn [Scheduler.Run PM_Job job_Run]. eapply wp_mono; [by apply wp_retryFailedRemovals|]. cbn beta.
  intros [ok err] s1 G1. cbn [Scheduler.MetricName PM_Job]. apply wp_bind, wp_modify, wp_ret. destruct ok; cbn [negb]; [|by apply wp_ret, wp_ret, wp_ret].
  apply wp_bind, wp_gets, wp_bind, wp_modify, wp_ret, wp_ret, wp_ret. exact G1.
Qed.

(** ** The start *)

(** What became of a plugin that was taken over. *)
Definition settled (p : ptr) (x : Plugin) (s : PM) : Prop :=
  ∃ x', heap s !! p = Some x' ∧ ident x' = ident x ∧
    (State x' = RUNNING ∧ TaskSchedulers p ∈ background s ∨ State x' = CRASHED).

Lemma wp_init_plugin p x s : heap s !! p = Some x → entry_ok (Name x) x → IsLocal x = false →
  wp (init_plugin fuel p)
    (λ _ s', (plugins s', IsInitialized s') = (plugins s, IsInitialized s) ∧ inProgress s' = delete (Name x) (inProgress s) ∧ background s `prefix_of` background s' ∧
       (∀ q, q ≠ p → heap s' !! q = heap s !! q) ∧ settled p x s') s.
Proof.
  intros Hp (_ & Hc & Hcore) Hloc. unfold init_plugin. apply wp_bind. eapply wp_deref; [exact Hp|]. apply wp_bind. eapply wp_deref; [exact Hp|].
  rewrite (bool_decide_eq_false_2 (Name x = CorePluginName)) by (intros E; rewrite Hcore in Hloc; done). cbn [andb]. apply wp_bind, wp_bind.
  apply (wp_on_plugin p x); [done|]. eapply wp_mono; [apply (wp_frame _ pst_frame); [by apply wp_connectOrReLaunch|apply frame_connectOrReLaunch]|].
  cbn beta. intros [e|] r [Hs (Hi & _)]; cbn [self] in Hi.
  - apply wp_ret, wp_modify. unfold upd. split_and!; try done; [by intros q Hq; cbn; rewrite lookup_insert_ne|].
    exists (self r). cbn. rewrite lookup_insert_eq. split_and!; [done|done|by right].
  - apply wp_spawn, wp_modify. unfold upd. split_and!; try done; [cbn; by apply prefix_app_r|by intros q Hq; cbn; rewrite lookup_insert_ne|].
    exists (self r). cbn. rewrite lookup_insert_eq. split_and!; [done|done|]. left. split; [done|]. apply elem_of_app. right. by left.
Qed.

Lemma wp_mark ps s : Forall (λ p, is_Some (heap s !! p)) ps →
  wp (for_each ps (λ p, name ← deref p Name; modify (λ s, set_inProgress (<[name := true]> (inProgress s)) s)))
    (λ _ s', plugins s' = plugins s ∧ heap s' = heap s ∧ background s' = background s ∧
       ∀ n, is_Some (inProgress s' !! n) ↔ is_Some (inProgress s !! n) ∨ ∃ p x, p ∈ ps ∧ heap s !! p = Some x ∧ Name x = n) s.
Proof.
  revert s. induction ps as [|p ps IH]; intros s Hps; cbn [for_each].
  { apply wp_ret. split_and!; try done. intros n. split; [by left|]. intros [?|(p & x & ?%elem_of_nil & _)]; done. }
  apply Forall_cons in Hps as [[x Hx] Hps]. do 2 apply wp_bind. eapply wp_deref; [exact Hx|]. apply wp_modify.
  eapply wp_mono; [by apply IH|]. cbn. intros _ s' (-> & -> & -> & Hn). split_and!; try done. intros n. rewrite Hn, lookup_insert_is_Some. split.
  - intros [[<-|[_ ?]]|(q & y & Hq & Hy)]; [right; exists p, x; split; [by left|done]|by left|right; exists q, y; split; [by right|done]].
  - intros [?|(q & y & [->|Hq]%elem_of_cons & Hy & <-)].
    + left. destruct (decide (Name x = n)); [by left|by right].
    + rewrite Hx in Hy. injection Hy as <-. left. by left.
    + right. by exists q, y.
Qed.

Lemma wp_init_plugins ps s : NoDup ps → Forall (λ p, ∃ x, heap s !! p = Some x ∧ entry_ok (Name x) x ∧ IsLocal x = false) ps →
  wp (for_each ps (init_plugin fuel))
    (λ _ s', (plugins s', IsInitialized s') = (plugins s, IsInitialized s) ∧ background s `prefix_of` background s' ∧
       (∀ q, q ∉ ps → heap s' !! q = heap s !! q) ∧
       (∀ n, is_Some (inProgress s' !! n) → is_Some (inProgress s !! n) ∧ ∀ p x, p ∈ ps → heap s !! p = Some x → Name x ≠ n) ∧
       ∀ p x, p ∈ ps → heap s !! p = Some x → settled p x s') s.
Proof.
  revert s. induction ps as [|p ps IH]; intros s Hnd Hps; cbn [for_each].
  { apply wp_ret. split_and!; try done; [intros n Hn; split; [done|]|]; by intros p x ?%elem_of_nil. }
  apply NoDup_cons in Hnd as [Hp Hnd]. apply Forall_cons in Hps as [(x & Hx & He & Hl) Hps]. apply wp_bind.
  eapply wp_mono; [by apply (wp_init_plugin p x)|]. cbn beta. intros _ s1 (P1 & I1 & B1 & H1' & S1).
  assert (Hsame : ∀ q, q ∈ ps → heap s1 !! q = heap s !! q) by (intros q Hq; apply H1'; intros ->; done).
  eapply wp_mono; [apply IH; [done|]|].
  { apply Forall_forall. intros q Hq. rewrite Hsame by done. by apply (proj1 (Forall_forall _ _) Hps). }
  cbn beta. intros _ s2 (P2 & B2 & H2' & I2 & S2). split_and!.
  - by rewrite P2.
  - by etrans.
  - intros q [Hq Hqs]%not_elem_of_cons. rewrite H2' by done. by apply H1'.
  - intros n Hn. destruct (I2 n Hn) as [Hin Hall]. rewrite I1, lookup_delete_is_Some in Hin. destruct Hin as [Hne Hin]. split; [done|].
    intros q y [->|Hq]%elem_of_cons Hy; [rewrite Hx in Hy; by injection Hy as <-|]. apply (Hall q y Hq). by rewrite Hsame.
  - intros q y [->|Hq]%elem_of_cons Hy; [|apply S2; [done|]; by rewrite Hsame]. rewrite Hx in Hy. injection Hy as <-.
    destruct S1 as (x' & Hx' & Hi & Hst). exists x'. rewrite H2' by done. split_and!; [done|done|].
    destruct Hst as [[? Hb]|?]; [left; split; [done|]|by right]. eapply elem_of_prefix; [exact Hb|exact B2].
Qed.

Lemma table_pointers m s : table_ok m s → NoDup (map_to_list m).*2.
Proof.
  intros Hm. apply (NoDup_fmap_1 (λ p, Name <$> heap s !! p)).
  assert (E : (λ p, Name <$> heap s !! p) <$> (map_to_list m).*2 = Some <$> (map_to_list m).*1).
  { rewrite <-!list_fmap_compose. apply list_fmap_ext. intros i [n p] Hi. cbn.
    destruct (Hm n p) as (x & -> & Hn & _); [by apply elem_of_map_to_list, (list_elem_of_lookup_2 _ i)|]. cbn. by rewrite Hn. }
  rewrite E. apply NoDup_fmap_2; [apply _|]. apply NoDup_fst_map_to_list.
Qed.

(** Where the plugins of the instance [id] are installed. *)
Definition install_dir (id : string) : string := path_Join [path_Join [Clean StateDir; id]; pluginInstallDir].

Lemma wp_InitPluginManager id register s : named (install_dir id) (nodes (fs_of s)) →
  wp (InitPluginManager fuel id register)
    (λ e s', e = None → IsInitialized s' = true ∧ (∀ n, is_Some (inProgress s' !! n) → is_Some (inProgress s !! n)) ∧ wf s' ∧
       ∀ name p, plugins s' !! name = Some p → ∃ x, settled p x s' ∧ Name x = name ∧ IsLocal x = false ∧ name ≠ CorePluginName) s.
Proof.
  intros Hn. unfold InitPluginManager. apply wp_bind, wp_modify, wp_bind, wp_gets, wp_bind, wp_spawn, wp_bind, wp_gets, wp_bind.
  eapply wp_mono; [apply wp_load|]. cbn beta. intros [m|e] s1 (G1 & N1 & Hm); [|by apply wp_ret].
  apply wp_bind. eapply wp_mono; [by apply wp_drop_locals|]. cbn beta. intros m' s2 (Hsh & Hsub & Hloc). destruct Hsh as (e2 & -> & N2 & I2).
  apply wp_bind, wp_modify. set (s2' := set_plugins m' _). apply wp_bind.
  destruct G1 as (_ & Hip1 & _ & Hid1 & _). cbn in Hip1, Hid1.
  eapply wp_mono; [apply wp_schedule_cleanup|].
  { assert (E : baseState (menv s2') = path_Join [Clean StateDir; id]) by (unfold baseState; cbn; by rewrite I2, Hid1).
    rewrite E. apply (named_subseteq _ (nodes (fs_of s))); [|exact Hn]. change (nodes (fs_of s2')) with (nodes (env_fs e2)). etrans; [exact N2|]. by rewrite N1. }
  cbn beta. intros _ s3 (P3 & Hip3 & _ & _ & Hh3). cbn in P3, Hip3, Hh3. destruct register as [e|]; [by apply wp_ret|].
  assert (Hent : ∀ name p, m' !! name = Some p → ∃ x, heap s3 !! p = Some x ∧ entry_ok name x ∧ IsLocal x = false).
  { intros name p Hp. pose proof (lookup_weaken _ _ _ _ Hp Hsub) as Hpm. destruct (Hm _ _ Hpm) as (x & Hx & He). exists x.
    split_and!; [by eapply lookup_weaken|done|by eapply Hloc]. }
  assert (Hps : Forall (λ p, ∃ x, heap s3 !! p = Some x ∧ entry_ok (Name x) x ∧ IsLocal x = false) (map_to_list m').*2).
  { apply Forall_forall. intros p ([name p'] & -> & Hin)%list_elem_of_fmap. apply elem_of_map_to_list in Hin.
    destruct (Hent _ _ Hin) as (x & Hx & He & Hl). exists x. destruct He as (Hnm & ?). by rewrite Hnm. }
  apply wp_bind. eapply wp_mono; [apply wp_mark; eapply Forall_impl; [exact Hps|]; intros p (x & Hx & _); by eexists|].
  cbn beta. intros _ s4 (P4 & H4' & B4 & Hn4). apply wp_bind, wp_modify, wp_bind.
  eapply wp_mono; [apply wp_init_plugins|].
  { apply (table_pointers m' s3). intros name p Hp. destruct (Hent _ _ Hp) as (x & Hx & He & _). by exists x. }
  { cbn. by rewrite H4'. }
  cbn beta. intros _ s5 (P5 & _ & _ & Hn5 & Hset). cbn in P5, Hn5, Hset. rewrite H4' in Hn5, Hset. apply wp_bind, wp_modify, wp_ret. intros _. injection P5 as P5 I5.
  assert (Hend : ∀ name p, plugins s5 !! name = Some p → ∃ x, settled p x s5 ∧ Name x = name ∧ IsLocal x = false ∧ name ≠ CorePluginName).
  { intros name p Hp. rewrite P5, P4, P3 in Hp. destruct (Hent _ _ Hp) as (x & Hx & (Hnm & _ & Hcore) & Hl). exists x. split_and!; [|done|done|].
    - apply Hset; [|done]. apply list_elem_of_fmap. exists (name, p). split; [done|]. by apply elem_of_map_to_list.
    - intros Ec. by rewrite Hcore in Hl. }
  split; [exact I5|]. split; [|split; [|exact Hend]].
  - intros n Hin. destruct (Hn5 n Hin) as [Hin4 Hall]. apply Hn4 in Hin4 as [Hin4|(p & x & Hp & Hx & Hnx)]; [by rewrite Hip3, Hip1 in Hin4|].
    by destruct (Hall p x Hp Hx).
  - intros name p Hp. destruct (Hend name p Hp) as (x & (x' & Hx' & Hi & _) & Hnm & _). exists x'. split; [done|]. injection Hi as -> _ _. done.
Qed.

(** C5. A start of the plugin manager returns, whatever the files, the
    processes and the plugins answer (the attempts the state files ask for are
    covered by the fuel, and the installed directories are called
    name_revision).  Unless it reports an error the manager is initialised,
    nothing stays marked as in progress that was not, and every plugin of the
    table is one that was loaded under its name, is not a local one, and is
    either RUNNING with its schedulers about to start, or CRASHED; the core
    plugin is never among them. *)
Theorem InitPluginManager_recovers id register s : named (install_dir id) (nodes (fs_of s)) →
  wp (InitPluginManager fuel id register)
    (λ e s', e = None → IsInitialized s' = true ∧ (∀ n, is_Some (inProgress s' !! n) → is_Some (inProgress s !! n)) ∧ wf s' ∧
       ∀ name p, plugins s' !! name = Some p → ∃ x, settled p x s' ∧ Name x = name ∧ IsLocal x = false ∧ name ≠ CorePluginName) s.
Proof. apply wp_InitPluginManager. Qed.
End startup.

(** ** A restart *)
Section examples.
#[local] Existing Instance example_config.
#[local] Existing Instance no_faults.
#[local] Existing Instance plain_archives.
#[local] Instance example_codec : RequestCodec := λ _, Err (ErrMsg "not used").

Definition saved (name : string) : Plugin :=
  mkPlugin name "1" "" ("/i/" +:+ name) "" "" None example_manifest (mkRuntimeInfo RUNNING None (BoundedList.mkList [] 0%Z 0%Z false) 7%Z None).

#[local] Instance restart_world : World := {|
  ctx_Err _ := None; ctx_wait _ _ := None; time_Now n := Z.of_nat n; rpc_call _ _ _ _ := Ok (mkRpcStatus 0%Z ["ok"]);
  grpc_NewClient _ _ := None; net_Listen _ := Ok "127.0.0.1:5000"; run_WithContext _ _ _ _ := Ok 42%Z; ps_FindPid _ _ := Ok "/i/run";
  ps_KillProcess _ _ _ := None; ps_CPUUsage _ _ := (1, None)%Z; ps_Memory _ _ := (2, None)%Z; resource_Apply _ _ _ _ _ := None;
  resource_RemoveConstraint _ _ := None; http_Get _ _ _ := Err (ErrMsg "not used"); sha256_hex d := d; gob_Encode p := Ok (Name p);
  gob_Decode d := if bool_decide (d = "p") then Ok (saved "p") else if bool_decide (d = "core") then Ok (saved CorePluginName) else Err (ErrMsg "gob");
  struct_Marshal d := Ok d; struct_Unmarshal d := Ok d;
|}.

Definition state_dir : string := agentPluginState (mkEnv (mkFs ∅ 0) "123" [] 0).

(** The state files of a plugin and of the core plugin. *)
Definition before_start : PM :=
  mkPM ∅ ∅ ∅ ∅ ∅ [] "" ∅ ∅ [] [] false
    (mkEnv (mkFs {[state_dir := NDir; Paths.in_dir state_dir "p.gob" := NFile "p"; Paths.in_dir state_dir "core.gob" := NFile "core"]} 0) "" [] 0).

Lemma restart_gob_ok d x : gob_Decode d = Ok x →
  is_Some (BoundedList.New zero_Metric (MaxMetricDatapoints (manifest x))) ∧ covered 20 (StartAttempts (manifest x)).
Proof.
  cbn. repeat case_bool_decide; intros [= <-]; (split; [apply (bool_decide_unpack _); vm_compute; exact I|unfold covered; cbn; lia]).
Qed.

Definition absent (loc : string) (m : gmap string node) : Prop :=
  m !! loc = None ∧ map_Forall (λ q _, HasPrefix q (loc +:+ "/") = false) m.
#[global] Instance absent_dec loc m : Decision (absent loc m).
Proof. unfold absent. apply _. Defined.

Lemma absent_named loc m : absent loc m → named loc m.
Proof.
  intros [Hn Hall]. split; [intros t; by rewrite Hn|]. intros n Hin. exfalso. specialize (Hall _ _ Hin). cbn beta in Hall.
  unfold Paths.in_dir in Hall. rewrite <-append_assoc in Hall.
  assert (E : HasPrefix ((loc +:+ "/") +:+ n) (loc +:+ "/") = true) by (apply HasPrefix_spec; by exists n). congruence.
Qed.

Lemma before_start_named : named (install_dir "123") (nodes (fs_of before_start)).
Proof. apply absent_named, (bool_decide_unpack _). vm_compute. exact I. Qed.

Lemma InitPluginManager_recovers_witness :
  (∃ s', InitPluginManager 20 "123" None before_start = Some (s', None)) ∧
  wp (InitPluginManager 20 "123" None) (λ e s', e = None → ∀ p, plugins s' !! CorePluginName ≠ Some p) before_start.
Proof.
  split; [eexists; vm_compute; reflexivity|].
  eapply wp_mono; [apply (InitPluginManager_recovers 20 restart_gob_ok)|].
  - unfold covered, defaultConnectTimeoutTries. lia.
  - apply before_start_named.
  - intros e s' Hs He p Hp. destruct (Hs He) as (_ & _ & _ & Hall). destruct (Hall _ _ Hp) as (x & _ & _ & _ & Hne). by apply Hne.
Defined.

(** The plugin is taken over, RUNNING; the core plugin, running or not, is forgotten. *)
Example core_plugin_is_forgotten :
  (λ r, (fst <$> map_to_list (plugins r.1), (λ kv : ptr * Plugin, (Name kv.2, State kv.2)) <$> map_to_list (heap r.1))) <$>
    InitPluginManager 20 "123" None before_start =
  Some (["p"], [("p", RUNNING); ("GuestAgentCorePlugin", RUNNING)]).
Proof. by vm_compute. Qed.
End examples.
End PluginStartup.
