(* ===== verification/Descriptor.v ===== *)
(** * internal/metadata: the descriptor the agent's modules read

    exported.go and the data of unmarshal.go: the decoded answer of the
    metadata server and its read-only wrappers.  The attributes are those of
    Metadata, the interfaces those of Address and Nic.  Decoding JSON is a
    parameter; a JSON number is the text of its digits. *)
From stdpp Require Import gmap strings list.
From S2P Require Import Prelude GoStrings Os MdsClient Metadata NetAddr Address Nic PluginEvents.

Module Descriptor.

(** ** unmarshal.go *)
Record virtualClock := mkClock { clock_DriftToken : string }.
Record gcpUniverse := mkUniverse { universe_Domain : string }.
Record identityConfiguration := mkIdentity { identity_UUID : string }.

Record instance := mkInstance {
  in_ID : string;
  in_MachineType : string;
  in_Attributes : Metadata.attributes;
  in_NetworkInterfaces : list Address.networkInterface;
  in_VlanNetworkInterfaces : gmap Z (gmap Z Nic.vlanInterface);
  in_VirtualClock : virtualClock;
  in_Name : string;
  in_ServiceAccounts : gmap string string;
  in_IdentityConfiguration : identityConfiguration;
}.

Record project := mkProject {
  proj_Attributes : Metadata.attributes;
  proj_ID : string;
  proj_NumericProjectID : string;
}.

Record descriptor := mkRaw { raw_Instance : instance; raw_Project : project; raw_Universe : gcpUniverse }.

(** ** exported.go *)
Record WindowsKey := mkWindowsKey { wk_internal : Metadata.windowsKey }.
Record Attributes := mkAttributes { attr_internal : Metadata.attributes; attr_windowsKeys : list WindowsKey }.
Record NetworkInterface := mkNic { nic_internal : Address.networkInterface }.
Record VlanInterface := mkVlan { vlan_internal : Nic.vlanInterface }.
Record VirtualClock := mkVirtualClock { vc_internal : virtualClock }.
Record IdentityConfiguration := mkIdentityConfiguration { ic_internal : identityConfiguration }.
Record Universe := mkUniverse_ { u_internal : gcpUniverse }.

Record Instance := mkInst {
  inst_internal : instance;
  inst_attributes : Attributes;
  networkInterfaces : list NetworkInterface;
  vlanInterfaces : list (gmap Z VlanInterface);
  virtualClock_ : VirtualClock;
  identityConfiguration_ : IdentityConfiguration;
}.

Record Project := mkProj { project_internal : project; project_attributes : Attributes }.
Record Descriptor := mkDescriptor { desc_instance : Instance; desc_project : Project; desc_universe : Universe }.

Definition newUniverse (u : gcpUniverse) : Universe := mkUniverse_ u.
Definition newVirtualClock (vc : virtualClock) : VirtualClock := mkVirtualClock vc.
Definition newNetworkInterface (nic : Address.networkInterface) : NetworkInterface := mkNic nic.
Definition newVlanInterface (nic : Nic.vlanInterface) : VlanInterface := mkVlan nic.
Definition newIdentityConfiguration (ic : identityConfiguration) : IdentityConfiguration := mkIdentityConfiguration ic.
Definition newAttributes (a : Metadata.attributes) : Attributes :=
  mkAttributes a (mkWindowsKey <$> Metadata.WindowsKeys a).

Definition wrap_vlans (vics : gmap Z Nic.vlanInterface) : gmap Z VlanInterface := newVlanInterface <$> vics.

(** [order]: the range over the map of VLAN interfaces. *)
Definition newInstance (order : gmap Z (gmap Z Nic.vlanInterface) → list Z) (i : instance) : Instance :=
  let vlans := in_VlanNetworkInterfaces i in
  mkInst i (newAttributes (in_Attributes i)) (newNetworkInterface <$> in_NetworkInterfaces i)
    (omap (λ k, wrap_vlans <$> vlans !! k) (order vlans))
    (newVirtualClock (in_VirtualClock i)) (newIdentityConfiguration (in_IdentityConfiguration i)).

Definition newProject (p : project) : Project := mkProj p (newAttributes (proj_Attributes p)).

Definition newDescriptor (order : gmap Z (gmap Z Nic.vlanInterface) → list Z) (d : descriptor) : Descriptor :=
  mkDescriptor (newInstance order (raw_Instance d)) (newProject (raw_Project d)) (newUniverse (raw_Universe d)).

(** [json]: [json.Unmarshal] into the descriptor. *)
Definition UnmarshalDescriptor (json : string → result descriptor) (order : gmap Z (gmap Z Nic.vlanInterface) → list Z) (jsonData : string) : result Descriptor :=
  match json jsonData with
  | Err e => Err e
  | Ok data => Ok (newDescriptor order data)
  end.

(** The instance. *)
Definition Instance_ID (i : Instance) : string := in_ID (inst_internal i).
Definition Instance_Name (i : Instance) : string := in_Name (inst_internal i).
Definition MachineType (i : Instance) : string := in_MachineType (inst_internal i).
Definition DriftToken (vc : VirtualClock) : string := clock_DriftToken (vc_internal vc).
Definition IdentityUUID (ic : IdentityConfiguration) : string := identity_UUID (ic_internal ic).
Definition HasServiceAccount (d : Descriptor) : bool :=
  negb (bool_decide (size (in_ServiceAccounts (inst_internal (desc_instance d))) = 0)).

Definition UniverseDomain (u : Universe) : string :=
  if bool_decide (universe_Domain (u_internal u) = "") then MdsClient.DefaultUniverseDomain else universe_Domain (u_internal u).

(** The project. *)
Definition Project_ID (p : Project) : string := proj_ID (project_internal p).
Definition NumericProjectID (p : Project) : string := proj_NumericProjectID (project_internal p).

(** The accessors of the wrappers: each returns the field [f] of what is wrapped. *)
Definition nic_of {A} (f : Address.networkInterface → A) (nic : NetworkInterface) : A := f (nic_internal nic).
Definition vlan_of {A} (f : Nic.vlanInterface → A) (vic : VlanInterface) : A := f (vlan_internal vic).
Definition windowsKey_of {A} (f : Metadata.windowsKey → A) (wk : WindowsKey) : A := f (wk_internal wk).
Definition attr_of {A} (f : Metadata.attributes → A) (a : Attributes) : A := f (attr_internal a).
Definition EnableCorePlugin : Attributes → option bool := attr_of Metadata.EnableCorePlugin.
Definition DisableTelemetry : Attributes → bool := attr_of Metadata.DisableTelemetry.
Definition DisableDNSProbe : Attributes → bool := attr_of Metadata.DisableDNSProbe.
Definition DisableHTTPSMdsSetup : Attributes → option bool := attr_of Metadata.DisableHTTPSMdsSetup.
Definition HTTPSMDSEnableNativeStore : Attributes → option bool := attr_of Metadata.HTTPSMDSEnableNativeStore.

(** What Metadata's questions are asked of. *)
Definition attributes_of (d : Descriptor) : Metadata.Descriptor :=
  Metadata.mkDescriptor (attr_internal (inst_attributes (desc_instance d))) (attr_internal (project_attributes (desc_project d))).

Section settings.
Context {S : Type} `{HasFS S} `{OsFaults} (CorePluginEnabledConfigFile : string).

Definition HasCorePluginEnabled (d : Descriptor) : M S bool :=
  match EnableCorePlugin (inst_attributes (desc_instance d)) with
  | Some b => mret b
  | None =>
      match EnableCorePlugin (project_attributes (desc_project d)) with
      | Some b => mret b
      | None => PluginEvents.IsCorePluginEnabled CorePluginEnabledConfigFile
      end
  end.
End settings.

(** ** What is read is what was decoded *)

(** Whatever order the range over the VLANs takes, the descriptor holds every
    VLAN interface of every physical one, and only those. *)
Theorem newInstance_vlans order i parent vics id v :
  (∀ m : gmap Z (gmap Z Nic.vlanInterface), order m ≡ₚ (map_to_list m).*1) →
  (in_VlanNetworkInterfaces i !! parent = Some vics ∧ vics !! id = Some v →
     ∃ m, m ∈ vlanInterfaces (newInstance order i) ∧ m !! id = Some (mkVlan v)) ∧
  length (vlanInterfaces (newInstance order i)) = size (in_VlanNetworkInterfaces i).
Proof.
  intros Ho. cbn. split.
  - intros [Hp Hv]. exists (wrap_vlans vics). unfold wrap_vlans. rewrite lookup_fmap, Hv. split; [|done].
    apply list_elem_of_omap. exists parent. rewrite Hp. split; [|done]. rewrite Ho. apply list_elem_of_fmap. exists (parent, vics).
    split; [done|]. by apply elem_of_map_to_list.
  - rewrite Ho. rewrite <-length_map_to_list. assert (Hl : ∀ l : list (Z * gmap Z Nic.vlanInterface), (∀ x, x ∈ l → in_VlanNetworkInterfaces i !! x.1 = Some x.2) →
      length (omap (λ k, wrap_vlans <$> in_VlanNetworkInterfaces i !! k) l.*1) = length l).
    { induction l as [|[k m] l IH]; [done|]. intros Hin. cbn. pose proof (Hin (k, m) (list_elem_of_here _ _)) as Hk. cbn in Hk. rewrite Hk. cbn.
      f_equal. apply IH. intros x Hx. apply Hin. by right. }
    apply Hl. intros [k m] Hin. by apply elem_of_map_to_list in Hin.
Qed.

(** The comment of [HasCorePluginEnabled] says that without a value in the
    metadata the core plugin is enabled; in fact what was set last stays. *)
Definition no_setting : Descriptor :=
  let i := mkInstance "1" "" Metadata.no_attributes [] ∅ (mkClock "") "vm" ∅ (mkIdentity "") in
  newDescriptor (λ m, (map_to_list m).*1) (mkRaw i (mkProject Metadata.no_attributes "p" "2") (mkUniverse "")).

Example unset_keeps_disabled :
  snd <$> @HasCorePluginEnabled fs _ no_faults "/etc/google-guest-agent/core-plugin-enabled" no_setting
    (mkFs {["/etc/google-guest-agent/core-plugin-enabled" := NFile "enabled=false"]} 0) = Some false ∧
  snd <$> @HasCorePluginEnabled fs _ no_faults "/etc/google-guest-agent/core-plugin-enabled" no_setting (mkFs ∅ 0) = Some true.
Proof. split; by vm_compute. Qed.
End Descriptor.
