(* ===== verification/Compat.v ===== *)
(** * cmd/google_guest_compat_manager: the core plugin or the old guest agent

    watcher.go and watcher_linux.go: on every metadata event the manager
    compares the setting of the core plugin with the one it applied last, and
    switches the services of the machine over.  The services are commands of
    Daemon, the core plugin is stopped by the plugin manager's StopPlugin. *)
From stdpp Require Import gmap strings list.
From S2P Require Import Prelude GoStrings Os Accounts Daemon FileUtil BoundedList Scheduler Plugin PluginSteps PluginFacts PluginManager PluginManagerFacts PluginStartup PluginEvents Metadata Descriptor.

Module Compat.
Import Plugin PluginSteps PluginManager.

Definition GuestAgent : string := "google-guest-agent".
Definition GuestAgentManager : string := "google-guest-agent-manager".
Definition guestAgentBinaryPath : string := "/usr/bin/google_guest_agent".
Definition workloadCertRefresherServiceName : string := "gce-workload-cert-refresh.timer".

Record Manager := mkManager { corePluginsEnabled : bool; w_instanceID : string }.

(** [pm]: the plugin manager of the process, with the file system; [ran]: the
    commands; [keys]: the requests to the metadata server. *)
Record state := mkState { mgr : Manager; ran : list Accounts.command; pm : PM; keys : nat }.

#[global] Instance state_HasFS : HasFS state :=
  {| fs_of s := fs_of (pm s); set_fs f s := mkState (mgr s) (ran s) (set_fs f (pm s)) (keys s) |}.
#[global] Instance state_LawfulFS : LawfulFS state.
Proof.
  split; intros.
  - cbn [fs_of set_fs state_HasFS pm]. apply fs_of_set_fs.
  - cbn [fs_of set_fs state_HasFS pm mgr ran keys]. by rewrite set_fs_set_fs.
  - destruct s. cbn [fs_of set_fs state_HasFS pm mgr ran keys]. by rewrite set_fs_of.
Qed.

Definition set_mgr (w : Manager) (s : state) : state := mkState w (ran s) (pm s) (keys s).
Definition set_enabled (b : bool) (s : state) : state := set_mgr (mkManager b (w_instanceID (mgr s))) s.

(** The data of an event: a descriptor, or something else. *)
Record EventData := mkEvent { Data : option Descriptor.Descriptor; Error : option error }.

Class CompatWorld := {
  GetKey : nat → string → result string;
  os_ID : string;
}.

Section compat.
Context `{CompatWorld} `{Accounts.Commands} `{Config} `{World} `{OsFaults} `{FileUtil.Archives} `{RequestCodec}.
Context (fuel : nat) (CorePluginEnabledConfigFile : string).

Definition on_host {A} (m : M Accounts.host A) : M state A :=
  zoom (λ s, Accounts.mkHost (fs_of (pm s)) (ran s))
    (λ h s, mkState (mgr s) (Accounts.ran h) (set_fs (Accounts.hfs h) (pm s)) (keys s)) m.

Definition on_pm {A} (m : M PM A) : M state A := zoom pm (λ p s, mkState (mgr s) (ran s) p (keys s)) m.

Definition NewManager : M state unit :=
  alreadyEnabled ← PluginEvents.IsCorePluginEnabled CorePluginEnabledConfigFile;
  modify (set_mgr (mkManager alreadyEnabled "")).

Definition metadata_GetKey (key : string) : M state (result string) := λ s,
  Some (mkState (mgr s) (ran s) (pm s) (S (keys s)), GetKey (keys s) key).

(** ** watcher_linux.go *)
Definition disableCertRefresher : M state (option error) :=
  if bool_decide (os_ID = "sles") then mret None
  else
    err ← on_host (Daemon.DisableService workloadCertRefresherServiceName);
    match err with
    | Some e => mret (Some (ErrWrap "failed to disable workload cert refresher service" e))
    | None =>
        err ← on_host (Daemon.StopDaemon workloadCertRefresherServiceName);
        mret (ErrWrap "failed to stop workload cert refresher service" <$> err)
    end.

Definition enableCertRefresher : M state (option error) :=
  if bool_decide (os_ID = "sles") then mret None
  else
    err ← on_host (Daemon.EnableService workloadCertRefresherServiceName);
    match err with
    | Some e => mret (Some (ErrWrap "failed to enable workload cert refresher service" e))
    | None =>
        err ← on_host (Daemon.StartDaemon workloadCertRefresherServiceName);
        mret (ErrWrap "failed to start workload cert refresher service" <$> err)
    end.

(** ** watcher.go *)
Definition readInstanceID : M state (option error) :=
  current ← gets (λ s, w_instanceID (mgr s));
  if negb (bool_decide (current = "")) then mret None
  else
    id ← metadata_GetKey "/instance/id";
    match id with
    | Err e => mret (Some e)
    | Ok id => _ ← modify (λ s, set_mgr (mkManager (corePluginsEnabled (mgr s)) id) s); mret None
    end.

Definition stopCorePlugin : M state (option error) :=
  err ← readInstanceID;
  match err with
  | Some e => mret (Some (ErrWrap "failed to fetch instance ID" e))
  | None =>
      id ← gets (λ s, w_instanceID (mgr s));
      err ← on_pm (InitAdHocPluginManager id);
      match err with
      | Some e => mret (Some (ErrWrap "failed to initialize plugin manager" e))
      | None => on_pm (StopPlugin fuel CorePluginName)
      end
  end.

(** The steps in their order, each with the message of its error. *)
Fixpoint in_order (steps : list (string * M state (option error))) : M state (option error) :=
  match steps with
  | [] => mret None
  | (msg, step) :: rest =>
      err ← step;
      match err with
      | Some e => mret (Some (ErrWrap msg e))
      | None => in_order rest
      end
  end.

Definition enableCorePlugin : M state (option error) :=
  in_order
    [("failed to stop guest agent", on_host (Daemon.DisableService GuestAgent));
     ("failed to stop guest agent", on_host (Daemon.StopDaemon GuestAgent));
     ("failed to enable core plugin config", PluginEvents.SetCorePluginEnabled CorePluginEnabledConfigFile true);
     ("failed to disable cert refresher", disableCertRefresher);
     ("failed to restart guest agent manager", on_host (Daemon.RestartService GuestAgentManager Daemon.Restart))].

Definition disableCorePlugin : M state (option error) :=
  in_order
    [("failed to disable core plugin config", PluginEvents.SetCorePluginEnabled CorePluginEnabledConfigFile false);
     ("failed to restart guest agent manager", on_host (Daemon.StopDaemon GuestAgentManager));
     ("failed to stop core plugin", stopCorePlugin);
     ("failed to restart guest agent manager", on_host (Daemon.StartDaemon GuestAgentManager));
     ("failed to disable cert refresher", enableCertRefresher);
     ("failed to stop guest agent", on_host (Daemon.EnableService GuestAgent));
     ("failed to stop guest agent", on_host (Daemon.StartDaemon GuestAgent))].

Definition enableDisableAgent (newEnabled : bool) : M state (bool * option error) :=
  current ← gets (λ s, corePluginsEnabled (mgr s));
  if bool_decide (current = newEnabled) then mret (true, None)
  else
    err ← (if newEnabled then enableCorePlugin else disableCorePlugin);
    match err with
    | Some e => mret (false, Some (ErrWrap (if newEnabled then "failed to enable core plugin" else "failed to disable core plugin") e))
    | None => _ ← modify (set_enabled newEnabled); mret (false, None)
    end.

Definition Setup (evData : EventData) : M state (bool * bool * option error) :=
  match Error evData with
  | Some e => mret (true, true, Some (ErrWrap "metadata event watcher reported error" e))
  | None =>
      match Data evData with
      | None => mret (true, true, Some (ErrMsg "invalid event.Data type passed to event callback"))
      | Some mds =>
          present ← Exists guestAgentBinaryPath TypeFile;
          if negb present then mret (true, true, None)
          else
            enabled ← Descriptor.HasCorePluginEnabled CorePluginEnabledConfigFile mds;
            '(noop, err) ← enableDisableAgent enabled;
            mret (true, noop, err)
      end
  end.

(** ** What a switch leaves *)

(** A service: whether it starts with the machine, whether it runs.  What
    [systemctl] does when it succeeds. *)
Record unit_state := mkUnit { starts : bool; running : bool }.

Definition systemctl_effect (u : string) (c : Accounts.command) (st : unit_state) : unit_state :=
  match Accounts.argv c with
  | ["systemctl"; "start"; d] | ["systemctl"; "restart"; d] => if bool_decide (d = u) then mkUnit (starts st) true else st
  | ["systemctl"; "stop"; d] => if bool_decide (d = u) then mkUnit (starts st) false else st
  | ["systemctl"; "enable"; d] => if bool_decide (d = u) then mkUnit true (running st) else st
  | ["systemctl"; "--no-reload"; "disable"; d] => if bool_decide (d = u) then mkUnit false (running st) else st
  | _ => st
  end.

Definition unit_after (u : string) (cmds : list Accounts.command) (st : unit_state) : unit_state :=
  foldl (λ st c, systemctl_effect u c st) st cmds.
(** Every command of the list, the first of them the [n]-th, succeeds. *)
Definition succeeded (n : nat) (cmds : list Accounts.command) : Prop :=
  ∀ i c, cmds !! i = Some c → ∃ out, Accounts.run_command (n + i) c = Accounts.RunOk out.

(** A step that runs [cmds] unless it fails, and leaves the setting alone. *)
Definition does (cmds : list Accounts.command) (m : M state (option error)) : Prop :=
  ∀ s, wp m (λ err s', corePluginsEnabled (mgr s') = corePluginsEnabled (mgr s) ∧
    (err = None → ran s' = ran s ++ cmds ∧ succeeded (length (ran s)) cmds)) s.

Lemma succeeded_app n a b : succeeded n a → succeeded (n + length a) b → succeeded n (a ++ b).
Proof.
  intros Ha Hb i c Hi. destruct (decide (i < length a)) as [Hl|Hl].
  - rewrite lookup_app_l in Hi by done. by apply Ha.
  - rewrite lookup_app_r in Hi by lia. destruct (Hb _ _ Hi) as [out E]. exists out. rewrite <-E. f_equal. lia.
Qed.

(** What runs no command and leaves the setting alone. *)
Definition quiet (s s' : state) : Prop := corePluginsEnabled (mgr s') = corePluginsEnabled (mgr s) ∧ ran s' = ran s.
#[local] Instance quiet_preorder : PreOrder quiet.
Proof. split; [by intros s|]. intros a b c [] []. split; congruence. Qed.
#[local] Instance quiet_fs : IgnoresFS quiet.
Proof. by intros f s. Qed.

Lemma does_nothing (m : M state (option error)) : total m → respects quiet m → does [] m.
Proof.
  intros Ht Hr s. eapply wp_total_respects; [apply Ht|exact Hr|]. intros err s' [E1 E2]. split; [done|]. intros _. split; [by rewrite app_nil_r|].
  by intros [|i] c.
Qed.

Lemma does_simple msg args : does [Accounts.mkCommand ("systemctl" :: args) ""] (on_host (Daemon.simple msg args)).
Proof.
  intros s. unfold wp, on_host, zoom, Daemon.simple, Daemon.systemctl, Accounts.WithContext, mbind, M_bind. cbn. split; [done|].
  intros Hn. split; [done|]. intros [|i] c Hi; [|done]. injection Hi as <-. rewrite Nat.add_0_r. destruct (Accounts.run_command _ _); try done. by eexists.
Qed.

Lemma does_cons c1 c2 msg m rest : does c1 m → does c2 (in_order rest) → does (c1 ++ c2) (in_order ((msg, m) :: rest)).
Proof.
  intros D1 D2 s. cbn [in_order]. apply wp_bind. eapply wp_mono; [apply D1|]. cbn beta. intros [e|] s1 [E1 Hc1]; [by apply wp_ret|].
  destruct (Hc1 eq_refl) as [R1 S1]. eapply wp_mono; [apply D2|]. cbn beta. intros err s2 [E2 Hc2]. split; [congruence|]. intros ->.
  destruct (Hc2 eq_refl) as [R2 S2]. split; [by rewrite R2, R1, app_assoc|]. apply succeeded_app; [done|]. by rewrite R1, length_app in S2.
Qed.

Lemma does_nil : does [] (in_order []).
Proof. apply does_nothing; [apply total_ret|]. apply respects_ret, _. Qed.

Lemma does_setting b : does [] (PluginEvents.SetCorePluginEnabled CorePluginEnabledConfigFile b).
Proof.
  apply does_nothing.
  - unfold PluginEvents.SetCorePluginEnabled. total_solve; apply total_with_fs.
  - unfold PluginEvents.SetCorePluginEnabled. respects_solve; apply respects_with_fs.
Qed.

(** The state files of the plugins decode to plugins with sane limits. *)
Hypothesis gob_ok : ∀ d x, gob_Decode d = Ok x →
  is_Some (BoundedList.New zero_Metric (MaxMetricDatapoints (manifest x))) ∧ PluginFacts.covered fuel (StartAttempts (manifest x)).

Lemma quiet_on_pm {A} (m : M PM A) : respects quiet (on_pm m).
Proof. apply respects_zoom. by intros p s. Qed.

Lemma wp_on_pm {A} (m : M PM A) (Q : A → PM → Prop) s : wp m Q (pm s) → wp (on_pm m) (λ a s', Q a (pm s') ∧ quiet s s') s.
Proof. intros Hm. apply wp_zoom. eapply wp_mono; [exact Hm|]. by intros a p HQ. Qed.

Lemma wp_readInstanceID s : wp readInstanceID (λ _ s', quiet s s') s.
Proof.
  unfold readInstanceID. apply wp_bind, wp_gets. destruct (negb _); [by apply wp_ret|]. apply wp_bind. unfold wp at 1, metadata_GetKey.
  destruct (GetKey _ _); [|by apply wp_ret]. by apply wp_bind, wp_modify, wp_ret.
Qed.

Lemma does_stopCorePlugin : does [] stopCorePlugin.
Proof.
  intros s. apply (wp_mono _ (λ _ s', quiet s s')).
  { unfold stopCorePlugin. apply wp_bind. eapply wp_mono; [apply wp_readInstanceID|]. intros [e|] s1 Q1; [by apply wp_ret|].
    apply wp_bind, wp_gets, wp_bind. eapply wp_mono; [apply wp_on_pm, (PluginStartup.wp_InitAdHoc fuel gob_ok)|]. cbn beta. intros [e|] s2 [Hl Q2]; [apply wp_ret; by etrans|].
    eapply wp_mono; [apply wp_on_pm, PluginStartup.wp_StopPlugin, Hl; done|]. cbn beta. intros err s3 [_ Q3]. etrans; [exact Q1|]. by etrans. }
  intros err s' [E R]. split; [done|]. intros _. split; [by rewrite R, app_nil_r|]. by intros [|i] c.
Qed.

(** ** The commands of a switch *)
Definition systemctl (args : list string) : Accounts.command := Accounts.mkCommand ("systemctl" :: args) "".

Definition refresher_commands (verbs : list (list string)) : list Accounts.command :=
  if bool_decide (os_ID = "sles") then [] else (λ v, systemctl (v ++ [workloadCertRefresherServiceName])) <$> verbs.

Definition switch_commands (enable : bool) : list Accounts.command :=
  if enable then
    [systemctl ["--no-reload"; "disable"; GuestAgent]; systemctl ["stop"; GuestAgent]] ++
    refresher_commands [["--no-reload"; "disable"]; ["stop"]] ++ [systemctl ["restart"; GuestAgentManager]]
  else
    [systemctl ["stop"; GuestAgentManager]; systemctl ["start"; GuestAgentManager]] ++
    refresher_commands [["enable"]; ["start"]] ++ [systemctl ["enable"; GuestAgent]; systemctl ["start"; GuestAgent]].

Lemma does_two msg1 msg2 c1 c2 (m1 m2 : M state (option error)) : does c1 m1 → does c2 m2 →
  does (c1 ++ c2) (err ← m1; match err with Some e => mret (Some (ErrWrap msg1 e)) | None => err ← m2; mret (ErrWrap msg2 <$> err) end).
Proof.
  intros D1 D2 s. apply wp_bind. eapply wp_mono; [apply D1|]. cbn beta. intros [e|] s1 [E1 Hc1]; [by apply wp_ret|].
  destruct (Hc1 eq_refl) as [R1 S1]. apply wp_bind. eapply wp_mono; [apply D2|]. cbn beta. intros err s2 [E2 Hc2]. apply wp_ret. split; [congruence|].
  destruct err; [done|]. intros _. destruct (Hc2 eq_refl) as [R2 S2]. split; [by rewrite R2, R1, app_assoc|].
  apply succeeded_app; [done|]. by rewrite R1, length_app in S2.
Qed.

Lemma does_disableCertRefresher : does (refresher_commands [["--no-reload"; "disable"]; ["stop"]]) disableCertRefresher.
Proof.
  unfold disableCertRefresher, refresher_commands. case_bool_decide; [apply does_nil|].
  apply (does_two _ _ [_] [_]); apply does_simple.
Qed.

Lemma does_enableCertRefresher : does (refresher_commands [["enable"]; ["start"]]) enableCertRefresher.
Proof.
  unfold enableCertRefresher, refresher_commands. case_bool_decide; [apply does_nil|].
  apply (does_two _ _ [_] [_]); apply does_simple.
Qed.

Lemma does_enableCorePlugin : does (switch_commands true) enableCorePlugin.
Proof.
  unfold enableCorePlugin, switch_commands.
  apply (does_cons [_] ([_] ++ _)); [apply does_simple|]. apply (does_cons [_]); [apply does_simple|]. apply (does_cons []); [apply does_setting|].
  apply does_cons; [apply does_disableCertRefresher|]. apply (does_cons [_] []); [apply does_simple|apply does_nil].
Qed.

Lemma does_disableCorePlugin : does (switch_commands false) disableCorePlugin.
Proof.
  unfold disableCorePlugin, switch_commands. apply (does_cons []); [apply does_setting|].
  apply (does_cons [_] ([_] ++ _)); [apply does_simple|]. apply (does_cons []); [apply does_stopCorePlugin|].
  apply (does_cons [_]); [apply does_simple|]. apply does_cons; [apply does_enableCertRefresher|].
  apply (does_cons [_] [_]); [apply does_simple|]. apply (does_cons [_] []); [apply does_simple|apply does_nil].
Qed.

(** The services as they are for a setting. *)
Definition services_for (enable : bool) (cmds : list Accounts.command) : Prop :=
  (∀ st, unit_after GuestAgent cmds st = mkUnit (negb enable) (negb enable)) ∧
  (∀ st, running (unit_after GuestAgentManager cmds st) = true) ∧
  (os_ID ≠ "sles" → ∀ st, unit_after workloadCertRefresherServiceName cmds st = mkUnit (negb enable) (negb enable)).

Lemma switch_services enable : services_for enable (switch_commands enable).
Proof.
  unfold services_for, switch_commands, refresher_commands. case_bool_decide as Hs; destruct enable; (split_and!; [intros []; by vm_compute|intros []; by vm_compute|]);
  try done; intros _ []; by vm_compute.
Qed.

(** C7. The switch between the core plugin and the old guest agent returns
    whatever fails.  Nothing is run when the setting is the one in force.
    Otherwise either every step succeeded - then, whatever the services were
    like before, the old agent and the certificate refresher start and run
    exactly if the core plugin is off, the manager runs, and the setting is
    taken over - or there is an error and the setting in force stays, so that the next
    event tries again. *)
Theorem enableDisableAgent_switches newEnabled s :
  wp (enableDisableAgent newEnabled)
    (λ r s', if bool_decide (corePluginsEnabled (mgr s) = newEnabled) then r = (true, None) ∧ s' = s
       else r.1 = false ∧
         match r.2 with
         | Some _ => corePluginsEnabled (mgr s') = corePluginsEnabled (mgr s)
         | None => corePluginsEnabled (mgr s') = newEnabled ∧
             ∃ cmds, ran s' = ran s ++ cmds ∧ succeeded (length (ran s)) cmds ∧ services_for newEnabled cmds
         end) s.
Proof.
  unfold enableDisableAgent. apply wp_bind, wp_gets. case_bool_decide; [by apply wp_ret|]. apply wp_bind.
  assert (Hd : does (switch_commands newEnabled) (if newEnabled then enableCorePlugin else disableCorePlugin)).
  { destruct newEnabled; [apply does_enableCorePlugin|apply does_disableCorePlugin]. }
  eapply wp_mono; [apply Hd|]. cbn beta. intros [e|] s1 [E1 Hc]; [by apply wp_ret|]. destruct (Hc eq_refl) as [R1 S1].
  apply wp_bind, wp_modify, wp_ret. split; [done|]. split; [done|]. exists (switch_commands newEnabled). split_and!; [done|done|apply switch_services].
Qed.
End compat.

(** ** A machine *)
Section examples.
#[local] Existing Instance PluginFacts.PluginFacts.example_config.
#[local] Existing Instance PluginFacts.PluginFacts.plain_archives.
#[local] Existing Instance no_faults.
#[local] Instance example_world : World := PluginFacts.PluginFacts.calm_world "/run".
#[local] Instance example_codec : RequestCodec := λ _, Err (ErrMsg "not used").
#[local] Instance debian : CompatWorld := {| GetKey _ _ := Ok "1234"; os_ID := "debian" |}.

(** The commands with these numbers fail. *)
#[local] Instance commands_failing (bad : list nat) : Accounts.Commands :=
  {| Accounts.run_command n _ := if bool_decide (n ∈ bad) then Accounts.RunExit 1 else Accounts.RunOk ""; Accounts.dir_owner _ _ := Err (ErrMsg "none") |}.

Definition config_file : string := "/etc/google-guest-agent/core-plugin-enabled".

Definition machine (enabled : bool) : state :=
  mkState (mkManager enabled "") []
    (mkPM ∅ ∅ ∅ ∅ ∅ [] "" ∅ ∅ [] [] false (mkEnv (mkFs {[guestAgentBinaryPath := NFile ""; config_file := NFile ("enabled=" +:+ PluginEvents.print_bool enabled)]} 0) "" [] 0)) 0.

Definition metadata (b : bool) : EventData :=
  let attrs := Metadata.unmarshal_attributes (Metadata.mkInner "" "" "" "" "" "" "" "" (PluginEvents.print_bool b) "" "" "" "" "" "" "" "" "" [] "" "" "" "") in
  let i := Descriptor.mkInstance "1" "" attrs [] ∅ (Descriptor.mkClock "") "vm" ∅ (Descriptor.mkIdentity "") in
  mkEvent (Some (Descriptor.newDescriptor (λ m, (map_to_list m).*1) (Descriptor.mkRaw i (Descriptor.mkProject Metadata.no_attributes "p" "2") (Descriptor.mkUniverse "")))) None.

Lemma enableDisableAgent_switches_witness :
  (∃ s', @enableDisableAgent _ (commands_failing []) _ _ _ _ 20 config_file false (machine true) = Some (s', (false, None))) ∧
  wp (@enableDisableAgent _ (commands_failing []) _ _ _ _ 20 config_file false) (λ r s', r.2 = None → corePluginsEnabled (mgr s') = false) (machine true).
Proof.
  split; [eexists; vm_compute; reflexivity|].
  eapply wp_mono; [apply (@enableDisableAgent_switches _ (commands_failing []) _ _ _ _ 20 config_file)|].
  - intros d x [=].
  - intros [noop [e|]] s' Hr; [done|]. intros _. rewrite bool_decide_eq_false_2 in Hr by done. by destruct Hr as (_ & -> & _).
Defined.

(** An event, a restart of the manager, and the same event again. *)
Definition restarted `{Accounts.Commands} (b : bool) : M state (option error * option error * bool) :=
  '(_, _, err1) ← Setup 20 config_file (metadata b);
  _ ← NewManager config_file;
  '(_, noop, err2) ← Setup 20 config_file (metadata b);
  mret (err1, err2, noop).

(** The first command of a switch to the old agent fails; the setting is on
    disk already, and the restarted manager takes it for applied: the core
    plugin goes on running and the old agent is never started. *)
Example interrupted_disable_stuck :
  (λ r, (bool_decide (is_Some r.2.1.1), r.2.1.2, r.2.2, Accounts.argv <$> ran r.1)) <$>
    @restarted (commands_failing [0]) false (machine true) =
  Some (true, None, true, [["systemctl"; "stop"; GuestAgentManager]]).
Proof. by vm_compute. Qed.

(** The restart of the manager of the core plugin fails: the old agent is
    stopped, the core plugin is not started, and nothing more is done. *)
Example interrupted_enable_stuck :
  (λ r, (bool_decide (is_Some r.2.1.1), r.2.1.2, r.2.2, last (Accounts.argv <$> ran r.1))) <$>
    @restarted (commands_failing [4]) true (machine false) =
  Some (true, None, true, Some ["systemctl"; "restart"; GuestAgentManager]).
Proof. by vm_compute. Qed.
End examples.
End Compat.
