(* ===== verification/AgentSetup.v ===== *)
(** * cmd/google_guest_agent: the start of the guest agent

    setup.go of the package setup, and the decisions of google_guest_agent.go
    (flags and logging aside): the plugin manager, the watchers and the
    subscription that the agent's event loop is started with.  Parameters: the
    environment variables, the metadata server, the outcome of a registration. *)
From stdpp Require Import gmap strings list.
From S2P Require Import Prelude GoStrings Os Paths Retry BoundedList FileUtil Plugin PluginSteps Scheduler PluginManager PluginFacts PluginManagerFacts PluginHandlers PluginStartup PluginEvents Metadata Descriptor.

Module AgentSetup.
Import Plugin PluginSteps PluginManager PluginFacts PluginManagerFacts.

Definition pluginStatusRequest : string := "early-initialization".
Definition successStatusCode : Z := 0.
Definition defaultLinuxCorePath : string := "/usr/lib/google/guest_agent/GuestAgentCorePlugin/core_plugin".
Definition agentBinaryPath : string := "/usr/bin/google_guest_agent".

(** [Config] of setup.go. *)
Record SetupConfig := mkConfig {
  c_Version : string;
  EnableACSWatcher : bool;
  CorePluginPath : string;
  SkipCorePlugin : bool;
  c_EnableLocalPlugins : bool;
}.

Record runTimeConfig := mkRuntime { rt_id : string; svcActPresent : bool }.

(** The process: the plugin manager with the file system, the states reported
    to systemd, the ACS watcher and handler, the command monitor's goroutine,
    the subscriptions to plugin events and the plugin watchers. *)
Record state := mkState {
  pm : PM;
  service_states : list string;
  acs : bool;
  command_monitor : bool;
  subscribed : list SetupConfig;
  watchers : list PluginEvents.Watcher;
}.

Definition set_pm (p : PM) (s : state) : state := mkState p (service_states s) (acs s) (command_monitor s) (subscribed s) (watchers s).

#[global] Instance state_HasFS : HasFS state :=
  {| fs_of s := fs_of (pm s); set_fs f s := set_pm (set_fs f (pm s)) s |}.
#[global] Instance state_LawfulFS : LawfulFS state.
Proof.
  split.
  - done.
  - intros f g s. unfold set_fs, state_HasFS, set_pm. cbn [pm service_states acs command_monitor subscribed watchers]. by rewrite set_fs_set_fs.
  - intros s. unfold set_fs, fs_of, state_HasFS, set_pm. rewrite set_fs_of. by destruct s.
Qed.

(** [galog.Fatalf] ends the process. *)
Inductive outcome := Returned (e : option error) | Fatal (msg : string) (e : error).

Class SetupWorld := {
  Getenv : string → string;
  mds_Get : result Descriptor.Descriptor;
  AddACSWatcher : option error;
  AddPluginWatcher : option error;
  RegisterCmdHandler : option error;
  skipCorePlugin : bool;
  forceOnDemandPlugins : bool;
  OnDemandPlugins : bool;
  ACSClient : bool;
  CoreEnableLocalPlugins : bool;
}.

Section setup.
Context `{SetupWorld} `{Config} `{World} `{OsFaults} `{FileUtil.Archives} `{RequestCodec}.
Context (fuel : nat) (CorePluginEnabledConfigFile : string).

Definition on_pm {A} (m : M PM A) : M state A := zoom pm set_pm m.

(** ** setup.go *)
Definition SetState (st : string) : M state unit :=
  modify (λ s, mkState (pm s) (service_states s ++ [st]) (acs s) (command_monitor s) (subscribed s) (watchers s)).

Definition coreReady (opts : SetupConfig) : M state unit := SetState "running".

Definition handlePluginEvent (evType : string) (opts : option SetupConfig) (evError : option error) : M state (bool * bool * option error) :=
  if negb (bool_decide (evType = PluginEvents.EventID)) then mret (true, true, Some (ErrMsg ("unexpected event type: " +:+ evType)))
  else
    match evError with
    | Some _ => mret (true, true, None)
    | None =>
        match opts with
        | None => mret (true, false, Some (ErrMsg "unexpected data type"))
        | Some c => _ ← coreReady c; mret (false, false, None)
        end
    end.

Definition fetchRuntimeConfig : result runTimeConfig :=
  let got := Getenv "TEST_COMPUTE_INSTANCE_ID" in
  if negb (bool_decide (got = "")) then Ok (mkRuntime got true)
  else
    match mds_Get with
    | Err e => Err (ErrWrap "failed to get metadata descriptor" e)
    | Ok desc => Ok (mkRuntime (Descriptor.Instance_ID (Descriptor.desc_instance desc)) (Descriptor.HasServiceAccount desc))
    end.

Definition core_request (c : SetupConfig) : request :=
  mkRequest INSTALL (Some (mkReqPlugin CorePluginName (c_Version c) "" (CorePluginPath c) "" []))
    (Some (mkReqManifest 5 0 0 (30 * Second) (30 * Second) 0 0 0 0 DAEMON LOCAL_INSTALLATION None None)).

Definition install (c : SetupConfig) : M state (option error) :=
  if SkipCorePlugin c then mret None
  else
    present ← Exists (CorePluginPath c) TypeFile;
    if negb present then mret None
    else
      err ← on_pm (VerifyPluginRunning (core_request c));
      match err with
      | None => mret None
      | Some _ =>
          _ ← on_pm (ConfigurePluginStates fuel [core_request c]);
          on_pm (VerifyPluginRunning (core_request c))
      end.

(** setup_linux.go: nothing to add on Linux, so the retries are one call. *)
Definition addMDSRoute : M state (option error) := mret None.
Definition routePolicy : Retry.Policy := Retry.mkPolicy 5 (float_of_Z 2) Second None 0.

Definition set_acs : M state unit := modify (λ s, mkState (pm s) (service_states s) true (command_monitor s) (subscribed s) (watchers s)).
Definition start_command_monitor : M state unit := modify (λ s, mkState (pm s) (service_states s) (acs s) true (subscribed s) (watchers s)).
Definition subscribe (c : SetupConfig) : M state unit :=
  modify (λ s, mkState (pm s) (service_states s) (acs s) (command_monitor s) (subscribed s ++ [c]) (watchers s)).
Definition add_watcher (w : PluginEvents.Watcher) : M state unit :=
  modify (λ s, mkState (pm s) (service_states s) (acs s) (command_monitor s) (subscribed s) (watchers s ++ [w])).

(** The subscription and the watcher of the core plugin. *)
Definition await_core (c : SetupConfig) (skipWatcher : bool) : M state outcome :=
  _ ← subscribe c;
  if skipWatcher then mret (Returned None)
  else
    match AddPluginWatcher with
    | Some e => mret (Returned (Some (ErrWrap "init watcher" e)))
    | None => _ ← add_watcher (PluginEvents.InitWatcher CorePluginName successStatusCode pluginStatusRequest); mret (Returned None)
    end.

(** The local plugins, or the core plugin with its hard-coded request. *)
Definition start_plugins (c : SetupConfig) : M state (option error) :=
  if c_EnableLocalPlugins c then
    err ← on_pm (StartLocalPlugins fuel {[CorePluginName := mkLocal (negb (SkipCorePlugin c)) false]});
    mret (ErrWrap "start local plugins" <$> err)
  else
    err ← install c; mret (ErrWrap "core plugin installation" <$> err).

Definition Run (c : SetupConfig) : M state outcome :=
  _ ← Retry.Run (λ _, mret None) (Z.to_nat (Retry.MaxAttempts routePolicy)) routePolicy (Some addMDSRoute);
  match fetchRuntimeConfig with
  | Err e => mret (Returned (Some (ErrWrap "failed to get instance ID" e)))
  | Ok conf =>
      let wanted := EnableACSWatcher c && svcActPresent conf in
      match (if wanted then AddACSWatcher else None) with
      | Some e => mret (Fatal "Failed to add ACS watcher" e)
      | None =>
          _ ← when wanted set_acs;
          err ← on_pm (InitPluginManager fuel (rt_id conf) RegisterCmdHandler);
          match err with
          | Some e => mret (Returned (Some (ErrWrap "plugin manager initialization" e)))
          | None =>
              _ ← start_command_monitor;
              present ← (if SkipCorePlugin c then mret false else Exists (CorePluginPath c) TypeFile);
              let skipWatcher := SkipCorePlugin c || negb present in
              _ ← when skipWatcher (coreReady c);
              err ← start_plugins c;
              match err with
              | Some e => mret (Returned (Some e))
              | None => await_core c skipWatcher
              end
          end
      end
  end.

(** ** google_guest_agent.go *)
Definition ignoreCorePlugin : M state bool :=
  present ← Exists agentBinaryPath TypeFile;
  if negb present && bool_decide (Getenv "TEST_UNDECLARED_OUTPUTS_DIR" = "") then mret false
  else
    configured ← PluginEvents.IsConfigFilePresent CorePluginEnabledConfigFile;
    if (configured : bool) then
      enabled ← PluginEvents.IsCorePluginEnabled CorePluginEnabledConfigFile; mret (negb enabled)
    else mret skipCorePlugin.

Definition readExtraConfig : M state (result string) :=
  let configPath := Getenv "GUEST_AGENT_EXTRA_CONFIG" in
  if bool_decide (configPath = "") then mret (Ok "") else os_ReadFile configPath.

(** The options [main] runs the set-up with. *)
Definition setup_options (version corePluginPath : string) : M state SetupConfig :=
  skip ← ignoreCorePlugin;
  mret (mkConfig version ((forceOnDemandPlugins || OnDemandPlugins) && ACSClient) corePluginPath skip CoreEnableLocalPlugins).

Definition main (version corePluginPath : string) : M state outcome :=
  c ← setup_options version corePluginPath; Run c.

(** ** Facts about the plugin manager's part *)
Hypothesis tries_ok : covered fuel defaultConnectTimeoutTries.
Hypothesis local_ok : PluginHandlers.local_requests_ok fuel.

Definition installs (r : request) : Prop := request_ok fuel r ∧ req_Action r = INSTALL.

Lemma wp_configure_install r s : installs r → wf s → wp (configurePlugin fuel r) (λ _ s', wf s') s.
Proof.
  intros [Hr Ha] Hwf. unfold configurePlugin. apply wp_bind.
  assert (Hp : wp (process_request fuel r) (λ _ _, True) s).
  { unfold process_request. rewrite Ha. apply wp_bind. eapply wp_mono; [by apply (wp_install_total fuel)|]. intros e s1 _. by apply wp_ret. }
  eapply wp_mono; [apply (wp_frame _ pm_frame); [exact Hp|apply frame_process]|].
  cbn beta. intros ok s1 (_ & _ & _ & _ & _ & _ & Hw). unfold count_request, finish_request. apply wp_bind, wp_modify, wp_modify. exact (Hw Hwf).
Qed.

Lemma wp_filterPending reqs s : wf s →
  wp (filterPendingPluginRevisions reqs true) (λ l s', wf s' ∧ plugins s' = plugins s ∧ heap s' = heap s ∧ Forall (.∈ reqs) l) s.
Proof.
  intros Hwf. unfold filterPendingPluginRevisions. eapply wp_mono.
  { apply (wp_for_acc (λ rest l s', wf s' ∧ plugins s' = plugins s ∧ heap s' = heap s ∧ Forall (.∈ reqs) l ∧ Forall (.∈ reqs) rest)).
    - split_and!; try done; apply Forall_forall; auto.
    - intros r rest l s1 (W1 & P1 & H1' & L1 & [Hr R1]%Forall_cons). unfold filter_request. apply wp_bind, wp_gets.
      destruct (inProgress s1 !! GetName r); [by apply wp_ret|]. cbn [when]. apply wp_bind, wp_modify, wp_ret. split_and!; try done.
      apply Forall_app. by split; [|constructor]. }
  cbn beta. by intros l s1 (? & ? & ? & ? & _).
Qed.

Lemma wp_Verify r s : wf s → wp (VerifyPluginRunning r) (λ e s', s' = s ∧ (e = None → ∃ p x, plugins s !! GetName r = Some p ∧ heap s !! p = Some x ∧
  State x = RUNNING ∧ Revision x = GetRevisionId r)) s.
Proof. intros Hwf. destruct (PluginHandlers.VerifyPluginRunning_correct r s Hwf) as (e & E & He). unfold wp. rewrite E. split; [done|]. apply He. Qed.

Lemma wp_configureAndVerify r config s : installs r → wf s → wp (configureAndVerifyPlugin fuel r config) (λ _ s', wf s') s.
Proof.
  intros Hr Hwf. unfold configureAndVerifyPlugin. apply wp_bind. eapply wp_mono; [by apply wp_configure_install|]. intros [] s1 W1.
  apply wp_bind. eapply wp_mono; [by apply wp_Verify|]. cbn beta. intros [e|] s2 [E2 _]; subst s2; [by apply wp_ret|].
  apply wp_bind. unfold run_OnReady. destruct (config !! GetName r) as [i|]; [|by apply wp_ret, wp_ret].
  destruct (OnReady i); cbn [when]; [by apply wp_modify, wp_ret|by apply wp_ret, wp_ret].
Qed.

Lemma wp_local_request config name s : wf s →
  wp (local_request config name) (λ r s', wf s' ∧ ∀ q, r = Ok (Some q) → installs q) s.
Proof.
  intros Hwf. unfold local_request. apply wp_bind, (PluginHandlers.wp_GetLocalPlugin fuel); [done|]. intros res e Hres.
  destruct res as [[q|]|x]; [|by apply wp_ret|by apply wp_ret]. pose proof (Hres q eq_refl) as Hq. cbv zeta.
  destruct (match config !! GetName q with Some i => negb (Enable i) | None => false end); [by apply wp_ret|].
  apply wp_bind, wp_Fetch. cbn [plugins]. destruct (plugins (set_menv e s) !! GetName q) as [p|] eqn:Ep; [|apply wp_ret; split; [done|by intros ? [= <-]]].
  destruct (Hwf _ _ Ep) as (x & Hx & _). apply wp_bind. eapply wp_deref; [exact Hx|].
  destruct (_ || _); [|apply wp_ret; split; [done|by intros ? [= <-]]].
  apply wp_bind. unfold run_OnReady. destruct (config !! GetName q) as [i|]; [|by apply wp_ret, wp_ret].
  destruct (OnReady i); cbn [when]; [by apply wp_modify, wp_ret|by apply wp_ret, wp_ret].
Qed.

Lemma wp_StartLocalPlugins config s : wf s → wp (StartLocalPlugins fuel config) (λ _ s', wf s') s.
Proof.
  intros Hwf. unfold StartLocalPlugins. apply wp_bind. eapply wp_total_respects; [apply total_with_fs|apply (respects_with_fs env_only)|].
  intros files s1 [e1 ->]. assert (W1 : wf (set_menv e1 s)) by done. destruct files as [files|e]; [|by destruct (IsNotExist e); apply wp_ret].
  apply wp_bind. eapply wp_mono.
  { apply (wp_for_until (λ _ reqs s', wf s' ∧ Forall installs reqs) (λ _ s', wf s')); [by split|].
    intros [f nd] rest reqs s2 [W2 R2]. cbn [fst snd]. destruct nd; try by apply wp_ret. apply wp_bind. eapply wp_mono; [by apply wp_local_request|].
    cbn beta. intros [[q|]|e] s3 [W3 Hq]; [|by apply wp_ret|by apply wp_ret]. specialize (Hq q eq_refl). apply wp_ret. split; [done|].
    case_bool_decide; [by constructor|]. apply Forall_app. by split; [|constructor]. }
  cbn beta. intros [reqs|e] s2; [intros [W2 R2]|intros W2; by apply wp_ret]. destruct reqs as [|q reqs]; [by apply wp_ret|].
  apply wp_bind. eapply wp_mono; [by apply wp_filterPending|]. cbn beta. intros l s3 (W3 & _ & _ & L3).
  assert (Hl : Forall installs l) by (eapply Forall_impl; [exact L3|]; intros r Hr; by eapply Forall_forall).
  cbv zeta. apply wp_bind. eapply wp_mono.
  { apply (wp_for_acc (λ rest _ s', wf s' ∧ Forall installs rest)); [split; [done|]; apply Forall_forall; intros r [_ Hin]%list_elem_of_filter; by eapply Forall_forall|].
    intros r rest errs s4 [W4 [Hr Hrest]%Forall_cons]. apply wp_bind. eapply wp_mono; [by apply wp_configureAndVerify|]. intros e s5 W5. by apply wp_ret. }
  cbn beta. intros errs s4 [W4 _]. destruct (errors_Join errs); [by apply wp_ret|]. apply wp_bind. eapply wp_mono.
  { apply (wp_for_each (λ _ s', wf s')); [done|]. intros r rest s5 W5. by apply wp_spawn. }
  intros [] s5 W5. by apply wp_ret.
Qed.

Hypothesis gob_ok : ∀ d x, gob_Decode d = Ok x →
  is_Some (BoundedList.New zero_Metric (MaxMetricDatapoints (manifest x))) ∧ covered fuel (StartAttempts (manifest x)).
Hypothesis enough_fuel : 5 ≤ fuel.
Hypothesis fault_free : ∀ n op p, os_fault n op p = None.

(** The core plugin runs in the version of the agent. *)
Definition core_running (c : SetupConfig) (s : PM) : Prop :=
  ∃ p x, plugins s !! CorePluginName = Some p ∧ heap s !! p = Some x ∧ State x = RUNNING ∧ Revision x = c_Version c.

Lemma core_request_ok c : installs (core_request c).
Proof. split; [|done]. unfold request_ok, covered. cbn. split; [lia|]. split; [by intros []|]. split; [exact tries_ok|lia]. Qed.

(** What the set-up of the plugins keeps of the rest of the process. *)
Definition same_rest (s s' : state) : Prop :=
  service_states s' = service_states s ∧ acs s' = acs s ∧ command_monitor s' = command_monitor s ∧ subscribed s' = subscribed s ∧ watchers s' = watchers s.

Lemma wp_setup_pm {A} (m : M PM A) (Q : A → PM → Prop) s : wp m Q (pm s) → wp (on_pm m) (λ a s', Q a (pm s') ∧ same_rest s s') s.
Proof. intros Hm. apply wp_zoom. eapply wp_mono; [exact Hm|]. by intros a p HQ. Qed.

Lemma same_rest_refl s : same_rest s s.
Proof. by unfold same_rest. Qed.

Lemma same_rest_trans a b c : same_rest a b → same_rest b c → same_rest a c.
Proof. intros (?&?&?&?&?) (?&?&?&?&?). unfold same_rest. split_and!; congruence. Qed.

(** Whether a file is there: the same answer as long as the files stay. *)
Definition is_file (s : state) (p : string) : bool :=
  match resolve (nodes (fs_of s)) p with Some (_, NDir) | None => false | _ => true end.

Lemma wp_present p s : wp (Exists p TypeFile) (λ b s', b = is_file s p ∧ nodes (fs_of s') = nodes (fs_of s) ∧ same_rest s s' ∧
  plugins (pm s') = plugins (pm s) ∧ heap (pm s') = heap (pm s)) s.
Proof.
  unfold Exists, is_file. apply wp_bind, wp_with_fs; intros; [by rewrite fault_free in *|]. cbn [fst snd].
  destruct (resolve _ _) as [[? []]|]; apply wp_ret; unfold same_rest; by split_and!.
Qed.

Lemma wp_install c s : wf (pm s) →
  wp (install c) (λ e s', wf (pm s') ∧ same_rest s s' ∧ (e = None → SkipCorePlugin c = true ∨ is_file s (CorePluginPath c) = false ∨ core_running c (pm s'))) s.
Proof.
  intros Hwf. unfold install. destruct (SkipCorePlugin c) eqn:Ek; [apply wp_ret; split; [done|]; split; [apply same_rest_refl|]; intros _; by left|].
  apply wp_bind. eapply wp_mono; [apply wp_present|]. cbn beta. intros b s1 (Eb & _ & R1 & P1 & H1').
  assert (W1 : wf (pm s1)) by (intros n p; rewrite P1, H1'; apply Hwf).
  destruct b; cbn [negb]; [|apply wp_ret; split; [done|]; split; [done|]; intros _; right; by left].
  apply wp_bind. eapply wp_mono; [by apply wp_setup_pm, wp_Verify|]. cbn beta. intros [e|] s2 [[E2 Hv] R2]; assert (R12 := same_rest_trans _ _ _ R1 R2);
    (assert (W2 : wf (pm s2)) by by rewrite E2); [|apply wp_ret; split; [done|]; split; [done|]; intros _; right; right; rewrite E2; by apply Hv].
  apply wp_bind. eapply wp_mono.
  { apply wp_setup_pm. unfold ConfigurePluginStates. apply wp_bind. eapply wp_mono; [by apply wp_filterPending|]. cbn beta. intros l s3 (W3 & _ & _ & L3).
    eapply wp_mono; [apply (wp_for_each (λ rest s', wf s' ∧ Forall installs rest))|by intros ? ? [W _]; exact W].
    - split; [done|]. eapply Forall_impl; [exact L3|]. intros r ->%list_elem_of_singleton. apply core_request_ok.
    - intros r rest s4 [W4 [Hr Hrest]%Forall_cons]. eapply wp_mono; [by apply wp_configure_install|]. by intros []. }
  cbn beta. intros _ s3 [W3 R3]. eapply wp_mono; [by apply wp_setup_pm, wp_Verify|]. cbn beta. intros e2 s4 [[E4 Hv4] R4].
  split; [by rewrite E4|]. split; [by do 2 (eapply same_rest_trans; [eassumption|])|]. intros He. right. right. rewrite E4. by apply Hv4.
Qed.

Lemma run_route s : Retry.Run (λ _, mret None) (Z.to_nat (Retry.MaxAttempts routePolicy)) routePolicy (Some addMDSRoute) s = Some (s, Some None).
Proof. reflexivity. Qed.

Definition core_watcher : PluginEvents.Watcher := PluginEvents.InitWatcher CorePluginName successStatusCode pluginStatusRequest.

(** What the agent's event loop is started with: it has reported that it
    runs, or it waits for the core plugin to be ready. *)
Definition ready_or_waits (c : SetupConfig) (s s' : state) : Prop :=
  subscribed s' = subscribed s ++ [c] ∧
  (service_states s' = service_states s ++ ["running"] ∧ watchers s' = watchers s ∨
   service_states s' = service_states s ∧ watchers s' = watchers s ++ [core_watcher] ∧ SkipCorePlugin c = false ∧
     (c_EnableLocalPlugins c = false → core_running c (pm s'))).

Lemma wp_start_plugins c s : wf (pm s) →
  wp (start_plugins c) (λ e s', same_rest s s' ∧
    (e = None → c_EnableLocalPlugins c = false → SkipCorePlugin c = true ∨ is_file s (CorePluginPath c) = false ∨ core_running c (pm s'))) s.
Proof.
  intros Hwf. unfold start_plugins. destruct (c_EnableLocalPlugins c).
  - apply wp_bind. eapply wp_mono; [by apply wp_setup_pm, wp_StartLocalPlugins|]. cbn beta. intros e s1 [_ R1]. by apply wp_ret.
  - apply wp_bind. eapply wp_mono; [by apply wp_install|]. cbn beta. intros [e|] s1 (_ & R1 & Hc); apply wp_ret; split; [done|done|done|]. intros _ _. by apply Hc.
Qed.

Lemma wp_await c (skip : bool) s :
  wp (await_core c skip) (λ r s', pm s' = pm s ∧ service_states s' = service_states s ∧ acs s' = acs s ∧
    match r with
    | Returned None => subscribed s' = subscribed s ++ [c] ∧ watchers s' = (if skip then watchers s else watchers s ++ [core_watcher])
    | Returned (Some _) => watchers s' = watchers s
    | Fatal _ _ => False
    end) s.
Proof.
  unfold await_core. apply wp_bind, wp_modify. destruct skip; [by apply wp_ret|]. destruct AddPluginWatcher; [by apply wp_ret|]. by apply wp_bind, wp_modify, wp_ret.
Qed.

(** The part of [Run] that follows the plugin manager's start. *)
Lemma wp_run_plugins c s : wf (pm s) →
  wp (_ ← start_command_monitor;
      present ← (if SkipCorePlugin c then mret false else Exists (CorePluginPath c) TypeFile);
      let skipWatcher := SkipCorePlugin c || negb present in
      _ ← when skipWatcher (coreReady c);
      err ← start_plugins c;
      match err with Some e => mret (Returned (Some e)) | None => await_core c skipWatcher end)
    (λ r s', acs s' = acs s ∧
      match r with
      | Returned None => ready_or_waits c s s'
      | Returned (Some _) => watchers s' = watchers s
      | Fatal _ _ => False
      end) s.
Proof.
  intros Hwf. apply wp_bind, wp_modify. set (s1 := mkState _ _ _ _ _ _). apply wp_bind.
  apply (wp_mono _ (λ b s2, (if SkipCorePlugin c then b = false else b = is_file s2 (CorePluginPath c)) ∧ wf (pm s2) ∧ same_rest s1 s2)).
  { destruct (SkipCorePlugin c); [apply wp_ret; split; [done|]; split; [exact Hwf|apply same_rest_refl]|].
    eapply wp_mono; [apply wp_present|]. cbn beta. intros b s2 (-> & N2 & R2 & P2 & H2'). split; [unfold is_file; by rewrite N2|]. split; [|done].
    intros n p. rewrite P2, H2'. apply Hwf. }
  intros b s2 (Eb & W2 & R2). cbv zeta. set (skip := SkipCorePlugin c || negb b). apply wp_bind.
  apply (wp_mono _ (λ _ s3, pm s3 = pm s2 ∧ acs s3 = acs s ∧ subscribed s3 = subscribed s ∧ watchers s3 = watchers s ∧
    service_states s3 = if skip then service_states s ++ ["running"] else service_states s)).
  { destruct R2 as (E1 & E2 & E3 & E4 & E5). cbn in E1, E2, E4, E5. destruct skip; cbn [when]; [apply wp_modify; cbn; by rewrite E1|apply wp_ret; by split_and!]. }
  intros [] s3 (P3 & A3 & S3 & W3 & T3). apply wp_bind. eapply wp_mono; [apply wp_start_plugins; by rewrite P3|]. cbn beta.
  intros err s4 [R4 Hc]. destruct R4 as (E1 & E2 & E3 & E4 & E5). destruct err as [e|]; [apply wp_ret; split; [congruence|congruence]|].
  eapply wp_mono; [apply wp_await|]. cbn beta. intros r s5 (P5 & T5 & A5 & Hr). split; [congruence|]. destruct r as [[e|]|]; [congruence| |done].
  destruct Hr as [S5 W5]. split; [congruence|]. destruct skip eqn:Eskip; [left; split; congruence|right].
  apply orb_false_iff in Eskip as [Ek Ep]. apply negb_false_iff in Ep. rewrite Ek in Eb. split; [congruence|]. split; [congruence|]. split; [done|].
  intros El. rewrite P5. destruct (Hc eq_refl El) as [Hk|[Hf|Hcore]]; [congruence| |done]. exfalso.
  assert (is_file s3 (CorePluginPath c) = is_file s2 (CorePluginPath c)) as E by (unfold is_file; cbn [fs_of state_HasFS]; by rewrite P3). congruence.
Qed.

End setup.

(** ** A start *)
Section examples.
#[local] Existing Instance example_config.
#[local] Existing Instance no_faults.
#[local] Existing Instance plain_archives.
#[local] Existing Instance PluginStartup.example_codec.
#[local] Existing Instance PluginStartup.restart_world.

#[local] Instance quiet_setup : SetupWorld := {|
  Getenv n := if bool_decide (n = "TEST_COMPUTE_INSTANCE_ID") then "123" else "";
  mds_Get := Err (ErrMsg "not used"); AddACSWatcher := None; AddPluginWatcher := None; RegisterCmdHandler := None; skipCorePlugin := false;
  forceOnDemandPlugins := false; OnDemandPlugins := true; ACSClient := true; CoreEnableLocalPlugins := false;
|}.

Definition first_start : state :=
  mkState (mkPM ∅ ∅ ∅ ∅ ∅ [] "" ∅ ∅ [] [] false (mkEnv (mkFs {[defaultLinuxCorePath := NFile ""; agentBinaryPath := NFile ""]} 0) "" [] 0)) [] false false [] [].

Definition options : SetupConfig := mkConfig "v1" true defaultLinuxCorePath false false.

Lemma first_start_named : PluginStartup.named (PluginStartup.install_dir "123") (nodes (fs_of first_start)).
Proof. apply PluginStartup.absent_named, (bool_decide_unpack _). vm_compute. exact I. Qed.


(** The options [main] finds on this machine. *)
Example options_of_main : snd <$> setup_options "/etc/google-guest-agent/core-plugin-enabled" "v1" defaultLinuxCorePath first_start = Some options.
Proof. by vm_compute. Qed.
End examples.
End AgentSetup.
