(* ===== verification/AgentCrypto.v ===== *)
(** * cmd/core_plugin/agentcrypto: credentials for the metadata server

    agentcrypto.go, mtls_mds.go, mtls_mds_linux.go, crypto_util.go and
    internal/uefi: the module that schedules the job, the job that installs the
    root certificate and the client credentials, the system's trust store.
    Parameters: certificates, keys, the TPM, the metadata server, commands. *)
From stdpp Require Import gmap strings list.
From S2P Require Import Prelude GoStrings GoStringFacts Os Retry FileUtil SafeWrite Paths Scheduler Metadata Descriptor.

Module AgentCrypto.

Definition moduleID : string := "agentcrypto".
Definition MTLSSchedulerID : string := "MTLS_MDS_Credential_Boostrapper".
Definition MTLSScheduleInterval : Z := 48 * 3600 * Second.
Definition clientCertsKey : string := "instance/credentials/mds-client-certificate".
Definition googleGUID : string := "a2858e46-a37f-456a-8c79-0c1fe48b65ff".
Definition googleRootCACertEFIVarName : string := "InstanceRootCACertificate".
Definition defaultEFIVarsDir : string := "/sys/firmware/efi/efivars".
Definition defaultCredsDir : string := "/run/google-mds-mtls".
Definition rootCACertFileName : string := "root.crt".
Definition clientCredsFileName : string := "client.key".

(** The updaters of trust stores with their directories. *)
Definition certUpdaters : gmap string (list string) :=
  {["update-ca-certificates" := ["/usr/local/share/ca-certificates"; "/usr/share/pki/trust/anchors"];
    "update-ca-trust" := ["/etc/pki/ca-trust/source/anchors"]]}.

(** internal/uefi. *)
Record VariableName := mkVariable { RootDir : string; Name : string; GUID : string }.
Definition Path (v : VariableName) : string :=
  path_Join [if bool_decide (RootDir v = "") then defaultEFIVarsDir else RootDir v; Name v +:+ "-" +:+ GUID v].
Definition googleRootCACertUEFIVar : VariableName := mkVariable "" googleRootCACertEFIVarName googleGUID.

(** The section MDS of the configuration. *)
Record mds_config := mkMDS { DisableHTTPSMdsSetup : bool; HTTPSMDSEnableNativeStore : bool }.

(** [GuestCredentialsResponse]. *)
Record credentials_response := mkResponse { KeyImportBlob : string; EncryptedCredentials : string }.

Class CryptoWorld := {
  MDS : option mds_config;
  mds_Get : nat → result Descriptor.Descriptor;
  mds_GetKey : nat → string → result string;
  protojson_Unmarshal : string → result credentials_response;
  pem_Decode : string → option string;
  x509_ParseCertificate : string → result string;
  x509_ParseECPrivateKey : string → result string;
  SerialNumber : string → string;
  AppendCertsFromPEM : string → bool;
  x509_Verify : string → string → option error;
  OpenTPM : nat → option error;
  EndorsementKeyECC : nat → option error;
  ek_Import : string → result string;
  NewAESGCM : string → option error;
  aead_Encrypt : string → string → string → result string;
  aead_Decrypt : string → string → string → result string;
  range_updaters : nat → list string;
  LookPath : nat → string → option error;
  run_command : nat → list string → option error;
}.

(** A job of the scheduler; [New] makes a new one. *)
Record CredsJob := mkJob { bootStrapped : bool; rootCertsInstalled : bool; useNativeStore_ : bool }.

(** The process: the file system, the commands, the jobs and the scheduler
    over them, the flag of the module, the subscription, the outside calls. *)
Record env := mkEnv {
  efs : fs;
  ran : list (list string);
  job_heap : gmap nat CredsJob;
  scheduled : gmap string (Scheduler.jobConfig nat);
  metrics : list Scheduler.module_metric;
  failedPrevious : bool;
  subscribed : bool;
  calls : nat;
}.

#[global] Instance env_HasFS : HasFS env :=
  {| fs_of := efs; set_fs f e := mkEnv f (ran e) (job_heap e) (scheduled e) (metrics e) (failedPrevious e) (subscribed e) (calls e) |}.
#[global] Instance env_LawfulFS : LawfulFS env.
Proof. split; [done|done|by intros []]. Qed.

Definition set_heap (h : gmap nat CredsJob) (e : env) : env := mkEnv (efs e) (ran e) h (scheduled e) (metrics e) (failedPrevious e) (subscribed e) (calls e).
Definition set_scheduled (m : gmap string (Scheduler.jobConfig nat)) (e : env) : env :=
  mkEnv (efs e) (ran e) (job_heap e) m (metrics e) (failedPrevious e) (subscribed e) (calls e).
Definition set_failed (b : bool) (e : env) : env := mkEnv (efs e) (ran e) (job_heap e) (scheduled e) (metrics e) b (subscribed e) (calls e).

Section crypto.
Context `{CryptoWorld} `{OsFaults} `{SafeWrite.TempNames}.

Definition ext {A} (f : nat → A) : M env A := λ e,
  Some (mkEnv (efs e) (ran e) (job_heap e) (scheduled e) (metrics e) (failedPrevious e) (subscribed e) (S (calls e)), f (calls e)).

Definition WithContext (cmd : list string) : M env (option error) := λ e,
  Some (mkEnv (efs e) (ran e ++ [cmd]) (job_heap e) (scheduled e) (metrics e) (failedPrevious e) (subscribed e) (S (calls e)), run_command (calls e) cmd).

(** ** internal/uefi *)
Definition ReadVariable (v : VariableName) : M env (result (string * string)) :=
  b ← os_ReadFile (Path v);
  mret (match b with
        | Err e => Err (ErrFmt "error reading" e)
        | Ok b =>
            if Nat.ltb (String.length b) 4 then Err (ErrMsg "it should have at least 4")
            else Ok (slice_to b 4, slice_from b 4)
        end).

(** ** crypto_util.go *)
Definition parseCertificate (cert : string) : result string :=
  match pem_Decode cert with
  | None => Err (ErrMsg "failed to parse PEM certificate")
  | Some block => match x509_ParseCertificate block with Err e => Err (ErrWrap "failed to parse certificate" e) | Ok c => Ok c end
  end.

Definition parsePvtKey (pemKey : string) : result string :=
  match pem_Decode pemKey with
  | None => Err (ErrMsg "failed to decode PEM Key")
  | Some key => match x509_ParseECPrivateKey key with Err e => Err (ErrWrap "failed to parse EC Private Key" e) | Ok k => Ok k end
  end.

Definition serialNumber (f : string) : M env (result string) :=
  d ← os_ReadFile f;
  mret (match d with
        | Err e => Err (ErrWrap "unable to read previous client credential file" e)
        | Ok d => match parseCertificate d with Err e => Err (ErrWrap "unable to parse certificate" e) | Ok crt => Ok (SerialNumber crt) end
        end).

(** The check of a certificate against the content of the root file. *)
Definition verify_against (caCertPEM cert : string) : option error :=
  match parseCertificate cert with
  | Err e => Some (ErrWrap "failed to parse client certificate for verifying signature" e)
  | Ok x509Cert =>
      if negb (AppendCertsFromPEM caCertPEM) then Some (ErrMsg "failed to add to new certpool for verifying client certificate")
      else ErrWrap "failed to verify client certificate against root CA" <$> x509_Verify caCertPEM x509Cert
  end.

Definition verifySign (cert rootCAFile : string) : M env (option error) :=
  caCertPEM ← os_ReadFile rootCAFile;
  mret (match caCertPEM with
        | Err e => Some (ErrWrap "failed to read CA PEM file for verifying signature" e)
        | Ok caCertPEM => verify_against caCertPEM cert
        end).

Definition encrypt (aesKey plaintext associatedData : string) : result string :=
  match NewAESGCM aesKey with
  | Some e => Err (ErrWrap "failed to initialize cipher" e)
  | None => aead_Encrypt aesKey plaintext associatedData
  end.

Definition decrypt (aesKey ciphertext associatedData : string) : result string :=
  match NewAESGCM aesKey with
  | Some e => Err (ErrWrap "failed to initialize cipher" e)
  | None => aead_Decrypt aesKey ciphertext associatedData
  end.

(** ** mtls_mds_linux.go *)

(** The first updater of the range that is found. *)
Fixpoint find_updater (us : list string) : M env (result string) :=
  match us with
  | [] => mret (Err (ErrMsg "no known trust updaters were found"))
  | u :: us =>
      err ← ext (λ n, LookPath n u);
      match err with
      | None => mret (Ok u)
      | Some _ => find_updater us
      end
  end.

Definition getCAStoreUpdater : M env (result string) := us ← ext range_updaters; find_updater us.

Fixpoint find_dir (dirs : list string) : M env (result string) :=
  match dirs with
  | [] => mret (Err (ErrMsg "none of the known directories found for updater"))
  | dir :: dirs =>
      present ← Exists dir TypeDir;
      if (present : bool) then mret (Ok dir) else find_dir dirs
  end.

Definition certificateDirFromUpdater (updater : string) : M env (result string) :=
  match certUpdaters !! updater with
  | None => mret (Err (ErrMsg "unknown updater, no local trusted CA certificate directory found"))
  | Some dirs => find_dir dirs
  end.

Definition perm644 : SafeWrite.Options := SafeWrite.mkOptions 420 None.

Definition updateSystemStore (cert : string) (add : bool) : M env (option error) :=
  cmd ← getCAStoreUpdater;
  match cmd with
  | Err e => mret (Some e)
  | Ok cmd =>
      dir ← certificateDirFromUpdater cmd;
      match dir with
      | Err e => mret (Some e)
      | Ok dir =>
          let dest := path_Join [dir; Base cert] in
          let update := (err ← WithContext [cmd]; mret (ErrWrap "command failed with error" <$> err)) in
          if add then
            err ← SafeWrite.CopyFile cert dest perm644;
            match err with Some e => mret (Some e) | None => update end
          else
            present ← Exists dest TypeFile;
            if negb present then mret None
            else
              err ← os_Remove dest;
              match err with
              | Some e => mret (Some (ErrWrap "failed to remove certificate from system store" e))
              | None => update
              end
      end
  end.

Definition cleanupCreds (credsDir : string) : M env unit :=
  present ← Exists credsDir TypeDir;
  if negb present then mret tt
  else
    _ ← updateSystemStore (path_Join [credsDir; rootCACertFileName]) false;
    _ ← os_RemoveAll credsDir;
    mret tt.

Definition writeCredentials (certContent outputFile : string) : M env (option error) :=
  err ← os_MkdirAll (Dir outputFile);
  match err with
  | Some e => mret (Some e)
  | None => SafeWrite.SaferWriteFile certContent outputFile perm644
  end.

Definition writeClientCredentials (plaintext outputFile : string) : M env (option error) := writeCredentials plaintext outputFile.

Definition writeRootCACert (j : CredsJob) (content outputFile : string) : M env (option error) :=
  err ← writeCredentials content outputFile;
  match err with
  | Some e => mret (Some e)
  | None =>
      if negb (useNativeStore_ j) then mret None
      else _ ← updateSystemStore outputFile true; mret None
  end.

(** ** mtls_mds.go *)
Definition readRootCACert (name : VariableName) : M env (result string) :=
  rootCACert ← ReadVariable name;
  mret (match rootCACert with
        | Err e => Err (ErrWrap "unable to read root CA cert file contents" e)
        | Ok (_, content) =>
            match parseCertificate content with
            | Err e => Err (ErrWrap "unable to verify Root CA cert" e)
            | Ok _ => Ok content
            end
        end).

Definition getClientCredentials : M env (result credentials_response) :=
  creds ← ext (λ n, mds_GetKey n clientCertsKey);
  mret (match creds with
        | Err e => Err (ErrWrap "unable to get client credentials from MDS" e)
        | Ok creds => match protojson_Unmarshal creds with Err e => Err (ErrWrap "unable to unmarshal MDS response" e) | Ok res => Ok res end
        end).

Definition extractKey (importBlob : string) : M env (result string) :=
  err ← ext OpenTPM;
  match err with
  | Some e => mret (Err (ErrWrap "unable to open a channel to the TPM" e))
  | None =>
      err ← ext EndorsementKeyECC;
      mret (match err with
            | Some e => Err (ErrWrap "failed to load a key from TPM" e)
            | None => match ek_Import importBlob with Err e => Err (ErrWrap "failed to decrypt import blob" e) | Ok dek => Ok dek end
            end)
  end.

Definition fetchClientCredentials (rootCA : string) : M env (result string) :=
  resp ← getClientCredentials;
  match resp with
  | Err e => mret (Err e)
  | Ok resp =>
      dek ← extractKey (KeyImportBlob resp);
      match dek with
      | Err e => mret (Err e)
      | Ok dek =>
          match decrypt dek (EncryptedCredentials resp) "" with
          | Err e => mret (Err e)
          | Ok plaintext =>
              err ← verifySign plaintext rootCA;
              mret (match err with Some e => Err e | None => Ok plaintext end)
          end
      end
  end.

Definition root_file : string := path_Join [defaultCredsDir; rootCACertFileName].
Definition client_file : string := path_Join [defaultCredsDir; clientCredsFileName].

Definition set_job (p : nat) (f : CredsJob → CredsJob) : M env unit := modify (λ e, set_heap (alter f p (job_heap e)) e).
Definition set_installed (j : CredsJob) : CredsJob := mkJob (bootStrapped j) true (useNativeStore_ j).
Definition set_bootStrapped (j : CredsJob) : CredsJob := mkJob true (rootCertsInstalled j) (useNativeStore_ j).

Definition install_root (j : CredsJob) : M env (option error) :=
  v ← readRootCACert googleRootCACertUEFIVar;
  match v with
  | Err e => mret (Some (ErrWrap "failed to read Root CA cert with an error" e))
  | Ok content => err ← writeRootCACert j content root_file; mret (ErrWrap "failed to store Root CA cert with an error" <$> err)
  end.

Definition install_client : M env (option error) :=
  creds ← fetchClientCredentials root_file;
  match creds with
  | Err e => mret (Some (ErrWrap "failed to generate client credentials with an error" e))
  | Ok creds => err ← writeClientCredentials creds client_file; mret (ErrWrap "failed to store client credentials with an error" <$> err)
  end.

(** [Run] of the job at [p]. *)
Definition creds_Run (p : nat) : M env (bool * option error) :=
  j ← (j ← gets (λ e, job_heap e !! p); some_or_panic j);
  err ← (if rootCertsInstalled j then mret None else install_root j);
  err ← (match err with
         | Some e => mret (Some e)
         | None => _ ← set_job p set_installed; install_client
         end);
  _ ← set_job p set_bootStrapped;
  mret (true, err).

#[global] Instance creds_Job : Scheduler.Job env nat := {|
  Scheduler.ID _ _ := MTLSSchedulerID;
  Scheduler.MetricName _ := Some "AGENT_CRYPTO_INITIALIZATION";
  Scheduler.Interval _ _ := (MTLSScheduleInterval, true);
  Scheduler.ShouldEnable _ := mret true;
  Scheduler.Run := creds_Run;
|}.

#[global] Instance creds_sched : Scheduler.SchedState env nat := {|
  Scheduler.jobs := scheduled;
  Scheduler.set_jobs := set_scheduled;
  Scheduler.enableMetricRecording := mret tt;
  Scheduler.metrics_Record x := modify (λ e, mkEnv (efs e) (ran e) (job_heap e) (scheduled e) (metrics e ++ [x]) (failedPrevious e) (subscribed e) (calls e));
|}.

Definition New (useNativeStore : bool) : M env nat := λ e,
  let p := fresh (dom (job_heap e)) in Some (set_heap (<[p := mkJob false false useNativeStore]> (job_heap e)) e, p).

(** ** agentcrypto.go *)

(** The configuration, overridden by the project, overridden by the instance. *)
Definition setting (of_config : mds_config → bool) (f : Metadata.attributes → option bool) (mds : Descriptor.Descriptor) : bool :=
  let v := match MDS with Some c => of_config c | None => false end in
  let v := match f (Metadata.Project_ (Descriptor.attributes_of mds)) with Some b => b | None => v end in
  match f (Metadata.Instance_ (Descriptor.attributes_of mds)) with Some b => b | None => v end.

Definition useNativeStore (mds : Descriptor.Descriptor) : bool := setting HTTPSMDSEnableNativeStore Metadata.HTTPSMDSEnableNativeStore mds.

Definition enabled_by_settings (mds : Descriptor.Descriptor) : bool :=
  setting (λ c, negb (DisableHTTPSMdsSetup c)) (λ a, negb <$> Metadata.DisableHTTPSMdsSetup a) mds.

Definition enableJob (mds : Descriptor.Descriptor) : M env bool :=
  if negb (enabled_by_settings mds) then mret false
  else
    key ← ext (λ n, mds_GetKey n clientCertsKey);
    match key with
    | Err _ => _ ← modify (set_failed true); mret false
    | Ok _ => _ ← modify (set_failed false); mret true
    end.

Definition eventCallback (evError : option error) (evData : option Descriptor.Descriptor) : M env (bool * bool * option error) :=
  match evError with
  | Some e => mret (true, true, Some (ErrFmt "metadata event watcher reported error" e))
  | None =>
      match evData with
      | None => mret (true, true, Some (ErrMsg "event's data is not a metadata descriptor"))
      | Some mds =>
          alreadyScheduled ← Scheduler.IsScheduled (J := nat) MTLSSchedulerID;
          shouldSchedule ← enableJob mds;
          if negb shouldSchedule && alreadyScheduled then
            _ ← Scheduler.UnscheduleJob (J := nat) MTLSSchedulerID; mret (true, false, None)
          else if shouldSchedule && negb alreadyScheduled then
            job ← New (useNativeStore mds);
            err ← Scheduler.ScheduleJob job;
            mret (true, false, ErrFmt "failed to schedule job" <$> err)
          else mret (true, true, None)
      end
  end.

Definition setup : M env (option error) :=
  mds ← ext mds_Get;
  _ ← cleanupCreds defaultCredsDir;
  _ ← eventCallback (match mds with Err e => Some e | Ok _ => None end) (match mds with Ok d => Some d | Err _ => None end);
  _ ← modify (λ e, mkEnv (efs e) (ran e) (job_heap e) (scheduled e) (metrics e) (failedPrevious e) true (calls e));
  mret None.

(** ** What a run of the job writes *)
Section written.
Hypothesis suffix_ok : ∀ t n, SafeWrite.temp_suffix t n ≠ "" ∧ lacks slash (SafeWrite.temp_suffix t n).

Lemma root_placed : SafeWrite.well_placed root_file.
Proof. apply (bool_decide_unpack _). by vm_compute. Qed.
Lemma client_placed : SafeWrite.well_placed client_file.
Proof. apply (bool_decide_unpack _). by vm_compute. Qed.

(** The files that are there stay, but for [out], which is written as a whole. *)
Definition rewritten (content out : string) (m : gmap string node) (e : option error) (m' : gmap string node) : Prop :=
  (e = None → m' !! out = Some (NFile content)) ∧
  ∀ q nd, (e = None → q ≠ out) → m !! q = Some nd → m' !! q = Some nd.

Lemma wp_writeCredentials content out (s : env) : SafeWrite.well_placed out →
  wp (writeCredentials content out) (λ e s', rewritten content out (nodes (efs s)) e (nodes (efs s'))) s.
Proof.
  intros Hout. unfold writeCredentials. apply wp_bind, wp_with_fs; intros; cbn [fst snd fail_err]; [by apply wp_ret|].
  set (s1 := set_fs _ s). assert (Hk : ∀ q nd, nodes (efs s) !! q = Some nd → nodes (efs s1) !! q = Some nd) by (intros; by apply SafeWrite.foldl_make_dir_keeps).
  eapply wp_mono; [by apply (SafeWrite.wp_SaferWriteFile suffix_ok content out)|]. intros e s2 [Ho Hq].
  change (fs_of s2) with (efs s2) in *. change (fs_of s1) with (efs s1) in *. split; [by intros ->|].
  intros q nd Hne Hin. apply Hk in Hin. destruct (decide (q = out)) as [->|Hne']; [|by apply Hq].
  rewrite Ho. destruct e; [done|]. by destruct Hne.
Qed.

Definition installed (s : env) : Prop := ∃ root crt, nodes (efs s) !! root_file = Some (NFile root) ∧ parseCertificate root = Ok crt.
Definition verified (s : env) : Prop :=
  ∃ root plaintext, nodes (efs s) !! root_file = Some (NFile root) ∧ nodes (efs s) !! client_file = Some (NFile plaintext) ∧ verify_against root plaintext = None.

(** Calls outside leave the files alone. *)
Definition same_files (s s' : env) : Prop := nodes (efs s') = nodes (efs s).
#[local] Instance same_files_preorder : PreOrder same_files.
Proof. split; [done|]. unfold same_files. intros a b c. congruence. Qed.

Lemma files_ext {A} (f : nat → A) : respects same_files (ext f).
Proof. by intros s s' a [= <- _]. Qed.
Lemma files_read p : respects same_files (os_ReadFile p).
Proof. intros s s' a. unfold os_ReadFile, with_fs. destruct (os_fault _ _ _); by intros [= <- _]. Qed.
Lemma total_crypto_ext {A} (f : nat → A) : total (ext f).
Proof. by eexists. Qed.

Lemma wp_read_root s : wp (readRootCACert googleRootCACertUEFIVar)
  (λ r s', same_files s s' ∧ ∀ content, r = Ok content → ∃ crt, parseCertificate content = Ok crt) s.
Proof.
  unfold readRootCACert, ReadVariable. do 2 apply wp_bind. eapply wp_total_respects; [apply total_with_fs|apply files_read|].
  intros [b|e] s1 S1; apply wp_ret, wp_ret; split; try done. destruct (Nat.ltb _ _); [done|].
  intros content. destruct (parseCertificate (slice_from b 4)) as [crt|] eqn:E; [|done]. intros [= <-]. by exists crt.
Qed.

Lemma wp_fetchClientCredentials s : (∀ t, nodes (efs s) !! root_file ≠ Some (NLink t)) →
  wp (fetchClientCredentials root_file)
    (λ r s', same_files s s' ∧ ∀ plaintext, r = Ok plaintext → ∃ root, nodes (efs s) !! root_file = Some (NFile root) ∧ verify_against root plaintext = None) s.
Proof.
  intros Hl. unfold fetchClientCredentials, getClientCredentials. do 2 apply wp_bind. eapply wp_total_respects; [apply total_crypto_ext|apply files_ext|].
  intros [creds|e] s1 S1; apply wp_ret; [|by apply wp_ret]. destruct (protojson_Unmarshal creds) as [resp|e]; [|by apply wp_ret].
  unfold extractKey. do 2 apply wp_bind. eapply wp_total_respects; [apply total_crypto_ext|apply files_ext|].
  intros [e|] s2 S2; [apply wp_ret, wp_ret; split; [by etrans|done]|]. apply wp_bind. eapply wp_total_respects; [apply total_crypto_ext|apply files_ext|].
  intros [e|] s3 S3; apply wp_ret; [apply wp_ret; split; [by do 2 (etrans; [eassumption|])|done]|]. assert (S13 : same_files s s3) by (by do 2 (etrans; [eassumption|])).
  destruct (ek_Import _) as [dek|e]; [|by apply wp_ret]. destruct (decrypt _ _ _) as [plaintext|e]; [|by apply wp_ret].
  unfold verifySign. do 2 apply wp_bind. apply wp_with_fs; intros; cbn [fst snd fail_result]; apply wp_ret, wp_ret; (split; [exact S13|]); [done|].
  change (fs_of s3) with (efs s3). rewrite S13. unfold resolve. destruct (nodes (efs s) !! root_file) as [nd|] eqn:E; [|by rewrite resolve_link_none].
  rewrite (resolve_link_here _ _ _ _ E) by (intros t ->; by destruct (Hl t)). destruct nd; try done.
  destruct (verify_against data plaintext) eqn:Ev; [done|]. intros p' [= <-]. by exists data.
Qed.

Lemma files_differ : root_file ≠ client_file.
Proof. by apply (bool_decide_unpack _). Qed.

Lemma wp_install_root j s : useNativeStore_ j = false →
  wp (install_root j) (λ e s', (e = None → installed s') ∧
    (∀ nd, nodes (efs s) !! client_file = Some nd → nodes (efs s') !! client_file = Some nd) ∧
    (∀ nd, nodes (efs s) !! root_file = Some nd → nodes (efs s') !! root_file = Some nd ∨ installed s')) s.
Proof.
  intros Hj. unfold install_root. apply wp_bind. eapply wp_mono; [apply wp_read_root|]. cbn beta. intros r s1 [S1 Hr]. unfold same_files in S1.
  destruct r as [content|e]; [|apply wp_ret; rewrite S1; naive_solver]. destruct (Hr content eq_refl) as [crt Hc].
  apply wp_bind. unfold writeRootCACert. apply wp_bind. eapply wp_mono; [apply wp_writeCredentials, root_placed|]. cbn beta. intros e s2 [Hout Hq]. rewrite S1 in Hq.
  assert (Hres : (e = None → installed s2) ∧ (∀ nd, nodes (efs s) !! client_file = Some nd → nodes (efs s2) !! client_file = Some nd) ∧
    (∀ nd, nodes (efs s) !! root_file = Some nd → nodes (efs s2) !! root_file = Some nd ∨ installed s2)).
  { assert (Hi : e = None → installed s2) by (intros He; exists content, crt; by rewrite Hout). split_and!; [done| |].
    - intros nd Hn. apply Hq; [|done]. intros _ E. by apply files_differ.
    - intros nd Hn. destruct e; [left; by apply Hq|right; by apply Hi]. }
  destruct e as [e|]; [apply wp_ret, wp_ret; destruct Hres as (_ & ? & ?); by split_and!|]. rewrite Hj. cbn [negb]. by apply wp_ret, wp_ret.
Qed.

Lemma wp_install_client s : (∀ t, nodes (efs s) !! root_file ≠ Some (NLink t)) →
  wp install_client (λ e s', (e = None → verified s') ∧
    (∀ nd, nodes (efs s) !! client_file = Some nd → nodes (efs s') !! client_file = Some nd ∨ verified s') ∧
    (∀ nd, nodes (efs s) !! root_file = Some nd → nodes (efs s') !! root_file = Some nd)) s.
Proof.
  intros Hl. unfold install_client. apply wp_bind. eapply wp_mono; [by apply wp_fetchClientCredentials|]. cbn beta. intros r s1 [S1 Hr]. unfold same_files in S1.
  destruct r as [plaintext|e]; [|apply wp_ret; rewrite S1; naive_solver]. destruct (Hr plaintext eq_refl) as (root & Hroot & Hv).
  apply wp_bind. unfold writeClientCredentials. eapply wp_mono; [apply wp_writeCredentials, client_placed|]. cbn beta. intros e s2 [Hout Hq]. rewrite S1 in Hq. apply wp_ret.
  assert (Hkeep : ∀ nd, nodes (efs s) !! root_file = Some nd → nodes (efs s2) !! root_file = Some nd) by (intros nd Hn; apply Hq; [intros _; apply files_differ|done]).
  assert (Hver : e = None → verified s2) by (intros He; exists root, plaintext; split_and!; auto).
  split; [intros He; apply Hver; by destruct e|]. split; [|exact Hkeep]. intros nd Hn. destruct e; [left; by apply Hq|right; by apply Hver].
Qed.

(** The links of the file system: none at the root certificate. *)
Definition no_link (s : env) : Prop := ∀ t, nodes (efs s) !! root_file ≠ Some (NLink t).


End written.

(** ** When the job is scheduled *)

(** The table of the scheduler and the jobs stay. *)
Definition same_table (s s' : env) : Prop := scheduled s' = scheduled s ∧ job_heap s' = job_heap s.
#[local] Instance same_table_preorder : PreOrder same_table.
Proof. split; [done|]. unfold same_table. intros a b c [-> ->] [-> ->]. done. Qed.
#[local] Instance same_table_fs : IgnoresFS same_table.
Proof. done. Qed.

(** A computation that returns and leaves the table of jobs alone. *)
Definition tame {A} (m : M env A) : Prop := total m ∧ respects same_table m.

Lemma tame_ret {A} (a : A) : tame (mret a).
Proof. split; [apply total_ret|apply respects_ret, _]. Qed.
Lemma tame_bind {A B} (m : M env A) (f : A → M env B) : tame m → (∀ a, tame (f a)) → tame (m ≫= f).
Proof. intros [T1 R1] Hf. split; [apply total_bind; [done|intros a; apply Hf]|apply respects_bind; [apply _|done|intros a; apply Hf]]. Qed.
Lemma tame_fs {A} name p onf (k : gmap string node → gmap string node * A) : tame (with_fs name p onf k).
Proof. split; [apply total_with_fs|apply respects_with_fs, _]. Qed.
Lemma tame_ext {A} (f : nat → A) : tame (ext f).
Proof. split; [apply total_crypto_ext|by intros s s' a [= <- _]]. Qed.
Lemma tame_command cmd : tame (WithContext cmd).
Proof. split; [by intros s; eexists|by intros s s' a [= <- _]]. Qed.
Lemma tame_modify f : (∀ s, same_table s (f s)) → tame (modify f).
Proof. intros Hf. split; [apply total_modify|by apply respects_modify]. Qed.
Lemma tame_gets {A} (f : env → A) : tame (gets f).
Proof. split; [apply total_gets|apply respects_gets, _]. Qed.

Ltac tame_step :=
  lazymatch goal with
  | |- tame (_ ≫= _) => apply tame_bind; [|intros ?]
  | |- tame (mret _) => apply tame_ret
  | |- tame (ext _) => apply tame_ext
  | |- tame (WithContext _) => apply tame_command
  | |- tame (match ?x with _ => _ end) => destruct x
  | |- tame (modify _) => apply tame_modify; done
  | |- tame (gets _) => apply tame_gets
  | |- tame _ => first [assumption | apply tame_fs]
  end.
Ltac tame_solve := cbn zeta; repeat tame_step.

Lemma tame_Exists f t : tame (Exists f t).
Proof. split; [apply total_Exists|apply respects_Exists; apply _]. Qed.
Lemma tame_SaferWriteFile c f o : tame (SafeWrite.SaferWriteFile c f o).
Proof. unfold SafeWrite.SaferWriteFile, SafeWrite.WriteFile, SafeWrite.os_CreateTemp, SafeWrite.os_Chmod, SafeWrite.os_Chown, SafeWrite.os_change. tame_solve. Qed.
Lemma tame_CopyFile src dst o : tame (SafeWrite.CopyFile src dst o).
Proof. unfold SafeWrite.CopyFile, SafeWrite.WriteFile, SafeWrite.os_Chmod, SafeWrite.os_Chown, SafeWrite.os_change. tame_solve. Qed.
Lemma tame_find_updater us : tame (find_updater us).
Proof. induction us; simpl; tame_solve. Qed.
Lemma tame_find_dir dirs : tame (find_dir dirs).
Proof. induction dirs; simpl; repeat first [apply tame_Exists | tame_step]. Qed.
Lemma tame_updateSystemStore c b : tame (updateSystemStore c b).
Proof.
  unfold updateSystemStore, getCAStoreUpdater, certificateDirFromUpdater.
  repeat first [apply tame_find_updater | apply tame_find_dir | apply tame_CopyFile | apply tame_Exists | tame_step].
Qed.
Lemma tame_write c f : tame (writeCredentials c f).
Proof. unfold writeCredentials. repeat first [apply tame_SaferWriteFile | tame_step]. Qed.
Lemma tame_install_root j : tame (install_root j).
Proof.
  unfold install_root, readRootCACert, ReadVariable, writeRootCACert.
  repeat first [apply tame_write | apply tame_updateSystemStore | tame_step].
Qed.
Lemma tame_install_client : tame install_client.
Proof.
  unfold install_client, fetchClientCredentials, getClientCredentials, extractKey, verifySign, writeClientCredentials.
  repeat first [apply tame_write | tame_step].
Qed.

Lemma wp_tame {A} (m : M env A) (Q : A → env → Prop) s :
  tame m → (∀ a s', scheduled s' = scheduled s → job_heap s' = job_heap s → Q a s') → wp m Q s.
Proof. intros [Ht Hr] HQ. eapply wp_total_respects; [apply Ht|exact Hr|]. intros a s' []. by apply HQ. Qed.

(** A run leaves the table of jobs and, of the job, what it was made with. *)
Lemma wp_creds_Run p j s : job_heap s !! p = Some j →
  wp (creds_Run p) (λ r s', r.1 = true ∧ scheduled s' = scheduled s ∧
    ∃ j', job_heap s' !! p = Some j' ∧ useNativeStore_ j' = useNativeStore_ j ∧ bootStrapped j' = true) s.
Proof.
  intros Hp. unfold creds_Run. apply wp_bind, wp_bind, wp_gets. rewrite Hp. apply wp_ret, wp_bind. apply wp_tame.
  { destruct (rootCertsInstalled j); [apply tame_ret|apply tame_install_root]. }
  intros err s1 E1 H1'. rewrite <-H1' in Hp. rewrite <-E1. clear E1 H1'. apply wp_bind.
  apply (wp_mono _ (λ _ s', scheduled s' = scheduled s1 ∧ ∃ j', job_heap s' !! p = Some j' ∧ useNativeStore_ j' = useNativeStore_ j)).
  { destruct err as [e|]; [apply wp_ret; by eauto|]. apply wp_bind, wp_modify. apply wp_tame; [apply tame_install_client|].
    intros _ s2 -> ->. split; [done|]. exists (set_installed j). cbn. by rewrite lookup_alter_eq, Hp. }
  intros e s2 (E2 & j' & Hj' & Hn). apply wp_bind, wp_modify, wp_ret. split; [done|]. split; [done|].
  exists (set_bootStrapped j'). cbn. by rewrite lookup_alter_eq, Hj'.
Qed.

Lemma wp_enableJob mds s :
  wp (enableJob mds) (λ b s', scheduled s' = scheduled s ∧ job_heap s' = job_heap s ∧
    (b = true ↔ enabled_by_settings mds = true ∧ ∃ key, mds_GetKey (calls s) clientCertsKey = Ok key)) s.
Proof.
  unfold enableJob. destruct (enabled_by_settings mds); cbn [negb]; [|apply wp_ret; naive_solver].
  apply wp_bind. unfold wp at 1, ext. destruct (mds_GetKey (calls s) clientCertsKey); apply wp_bind, wp_modify, wp_ret; naive_solver.
Qed.

(** C18. An event of the metadata server settles the job of the credentials:
    after it the job is scheduled exactly if the settings, the instance's over
    the project's over the configuration's, enable it and the metadata server
    serves the client's certificate; a job that is new was run once and uses the
    native store the way the settings ask; no other job is touched; the handler
    asks for the next event, without an error, and says that it did nothing
    exactly if the job was scheduled as it is. *)
Theorem eventCallback_schedules mds s :
  wp (eventCallback None (Some mds)) (λ r s',
    r.1.1 = true ∧ r.2 = None ∧
    (is_Some (scheduled s' !! MTLSSchedulerID) ↔ enabled_by_settings mds = true ∧ ∃ key, mds_GetKey (calls s) clientCertsKey = Ok key) ∧
    (r.1.2 = true ↔ (is_Some (scheduled s !! MTLSSchedulerID) ↔ is_Some (scheduled s' !! MTLSSchedulerID))) ∧
    (∀ c, scheduled s !! MTLSSchedulerID = None → scheduled s' !! MTLSSchedulerID = Some c →
      ∃ j, job_heap s' !! Scheduler.job c = Some j ∧ useNativeStore_ j = useNativeStore mds ∧ bootStrapped j = true) ∧
    ∀ id, id ≠ MTLSSchedulerID → scheduled s' !! id = scheduled s !! id) s.
Proof.
  unfold eventCallback. apply wp_bind, wp_gets, wp_bind. eapply wp_mono; [apply wp_enableJob|]. cbn beta. intros want s1 (E1 & _ & Hw).
  change (Scheduler.jobs s) with (scheduled s). rewrite <-E1.
  case_bool_decide as Ha; destruct want; cbn [negb andb].
  - apply wp_ret. rewrite <-Hw. naive_solver.
  - apply wp_bind. unfold Scheduler.UnscheduleJob. apply wp_bind, wp_gets. change (Scheduler.jobs s1) with (scheduled s1). rewrite bool_decide_eq_true_2 by done. cbn [negb].
    apply wp_modify, wp_ret. cbn. rewrite <-Hw, lookup_delete_eq. split_and!; try done; [split; [done|]; intros [Hx _]; by destruct (Hx Ha)|].
    intros id Hne. by rewrite lookup_delete_ne.
  - apply wp_bind. unfold wp at 1, New. set (p := fresh _). set (s2 := set_heap _ s1). apply wp_bind. unfold Scheduler.ScheduleJob.
    apply wp_bind, wp_ret, wp_bind, wp_gets, wp_bind, wp_gets. change (Scheduler.jobs s2) with (scheduled s1). cbn [Scheduler.ID creds_Job]. rewrite bool_decide_eq_false_2 by done.
    apply wp_bind, wp_ret. cbn [negb]. apply wp_bind, wp_gets. cbn [Scheduler.Interval creds_Job]. apply wp_bind. unfold Scheduler.run. apply wp_bind.
    cbn [Scheduler.Run creds_Job]. eapply wp_mono; [apply (wp_creds_Run p (mkJob false false (useNativeStore mds)))|]; [cbn; apply lookup_insert_eq|]. cbn beta.
    intros [ok err] s3 (Hok & E3 & j' & Hj' & Hn & Hb). cbn in Hok, E3. subst ok. cbn [Scheduler.MetricName creds_Job]. apply wp_bind, wp_modify, wp_ret. cbn [negb].
    apply wp_bind, wp_gets, wp_bind, wp_modify, wp_ret, wp_ret. cbn. rewrite <-Hw, E3, lookup_insert_eq.
    split_and!; try done; [split; [done|]; intros [_ Hx]; destruct Ha; apply Hx; by eauto| |].
    + intros c _ [= <-]. by exists j'.
    + intros id Hne. by rewrite lookup_insert_ne.
  - apply wp_ret. rewrite <-Hw. naive_solver.
Qed.
End crypto.

(** ** Witnesses *)

(** Certificates are the texts that start with the name of their signer. *)
#[local] Instance small_world : CryptoWorld := {|
  MDS := Some (mkMDS false false);
  mds_Get n := Err (ErrMsg "no metadata");
  mds_GetKey n key := if bool_decide (key = clientCertsKey) then Ok "CA:client" else Err (ErrMsg "no key");
  protojson_Unmarshal s := Ok (mkResponse "blob" s);
  pem_Decode s := Some s;
  x509_ParseCertificate s := if HasPrefix s "CA" then Ok s else Err (ErrMsg "malformed");
  x509_ParseECPrivateKey s := Ok s;
  SerialNumber s := s;
  AppendCertsFromPEM ca := bool_decide (ca = "CA");
  x509_Verify ca crt := if HasPrefix crt ca then None else Some (ErrMsg "signed by another");
  OpenTPM n := None;
  EndorsementKeyECC n := None;
  ek_Import blob := Ok "key";
  NewAESGCM key := None;
  aead_Encrypt key p a := Ok p;
  aead_Decrypt key c a := Ok c;
  range_updaters n := ["update-ca-certificates"; "update-ca-trust"];
  LookPath n u := None;
  run_command n cmd := None;
|}.
#[local] Existing Instances no_faults SafeWrite.numbered.

Definition booted (variable : string) : env :=
  mkEnv (mkFs {[Path googleRootCACertUEFIVar := NFile variable; client_file := NFile "CA:old"]} 0) []
    {[0%nat := mkJob false false false]} ∅ [] false false 0.


(** A root certificate that does not parse: the old credentials stay. *)
Example bad_root :
  (λ '(s', r), (r.1, nodes (efs s') !! root_file, nodes (efs s') !! client_file)) <$> creds_Run 0 (booted "attrxx") = Some (true, None, Some (NFile "CA:old")).
Proof. by vm_compute. Qed.

(** At the start stale credentials are removed, and no job is scheduled when the metadata server does not answer. *)
Example setup_clears :
  (λ '(s', r), (r, nodes (efs s') !! client_file, size (scheduled s'), subscribed s')) <$>
    setup (mkEnv (mkFs {[defaultCredsDir := NDir; client_file := NFile "CA:old"]} 0) [] ∅ ∅ [] false false 0) = Some (None, None, 0%nat, true).
Proof. by vm_compute. Qed.
End AgentCrypto.
