(* ===== verification/Acs.v ===== *)
(** * internal/acs: the connection to the agent communication service

    client/client.go and watcher/watcher.go: the one connection that every
    goroutine of the agent shares, the messages sent and received over it with
    retries, and the watcher of messages.  [connect], [closeConnection] and the
    reading of the fields run under connMu, so each is one step; the goroutines
    interleave between them.  The client library, gRPC, the metadata server and
    the clock are parameters. *)
From stdpp Require Import gmap strings list.
From S2P Require Import Prelude GoStrings Retry.

Module Acs.

Definition messageType : string := "message_type".
Definition defaultAgentChannelID : string := "compute.googleapis.com/google-guest-agent".
Definition pluginEventMessageMsg : string := "agent_controlplane.PluginEventMessage".
Definition defaultRetrypolicy : Retry.Policy := Retry.mkPolicy 5 (float_of_Z 2) Second None 0.
Definition watcherRetrypolicy : Retry.Policy := Retry.mkPolicy 0 (float_of_Z 2) (Second * 2) None (Minute * 20).

Definition labels := gmap string string.
(** [acpb.MessageBody]: the labels and the marshaled body. *)
Record MessageBody := mkBody { Labels : labels; Body : string }.
#[global] Instance MessageBody_eq_dec : EqDecision MessageBody.
Proof. unfold labels. solve_decision. Defined.

(** A [ConnectionInterface]: nil, one that holds a nil pointer, or the pointer
    to a connection of the library. *)
Inductive conn := NilInterface | NilPointer | Connection (id : nat).
#[global] Instance conn_eq_dec : EqDecision conn.
Proof. solve_decision. Defined.

Record acsHelper := mkAcs {
  acs_channelID : string;
  connection : conn;
  client : option nat;
  isConnectionSet : bool;
  isEnabled : option bool;
}.

Inductive client_option := WithEndpoint (endpoint : string) | WithGRPCConn (addr : string).

(** The part of a metadata descriptor the client reads. *)
Record descriptor := mkDesc { desc_UniverseDomain : string; ServiceAccounts : gmap string string }.
Definition DefaultUniverseDomain : string := "googleapis.com".
Definition UniverseDomain (d : descriptor) : string :=
  if bool_decide (desc_UniverseDomain d = "") then DefaultUniverseDomain else desc_UniverseDomain d.
Definition HasServiceAccount (d : descriptor) : bool := bool_decide (0 < size (ServiceAccounts d)).

(** The configuration, fixed while the agent runs. *)
Class AcsConfig := {
  ACSClient : bool;
  ChannelID : string;
  Endpoint : string;
  Host : string;
  test_environment : bool;          (* TEST_UNDECLARED_OUTPUTS_DIR *)
  skip_universe_check : bool;       (* SKIP_GDU_UNIVERSE_CHECK *)
}.

(** The library and the servers; the first argument counts the calls. *)
Class AcsWorld := {
  grpc_NewClient : nat → string → option error;
  library_NewClient : nat → list client_option → option error;
  library_NewConnection : nat → string → option error;
  conn_SendMessage : nat → nat → MessageBody → option error;
  conn_Receive : nat → nat → result MessageBody;
  library_SendAgentMessage : nat → string → nat → MessageBody → result string;
  nil_method : nat → option error;  (* a method of the library on a nil pointer: [None] when it panics *)
  mds_Get : nat → result descriptor;
  mds_IsGDUUniverse : nat → bool;
  timer_wait : nat → option error;
}.

(** What happened to the connections and clients, the newest last. *)
Inductive event :=
| Opened (c k : nat)                (* connection [c] over client [k] *)
| NewClient (k : nat)
| Failed (c : nat)                  (* a call of a goroutine that used [c] *)
| Closed (c : nat)
| ClosedClient (k : nat)
| Sent (m : MessageBody).
#[global] Instance event_eq_dec : EqDecision event.
Proof. solve_decision. Defined.

Record env := mkEnv { acs : acsHelper; calls : nat; log : list event }.

(** Messages that can be put into an [anypb.Any]. *)
Class AnyPb (Msg : Type) := anypb_New : Msg → result string.

Definition isNilInterface (a : conn) : bool := match a with Connection _ => false | _ => true end.

Definition set_acs (f : acsHelper → acsHelper) : M env unit := modify (λ s, mkEnv (f (acs s)) (calls s) (log s)).
Definition ext {A} (f : nat → A) : M env A := λ s, Some (mkEnv (acs s) (S (calls s)) (log s), f (calls s)).
Definition emit (e : event) : M env unit := modify (λ s, mkEnv (acs s) (calls s) (log s ++ [e])).

Definition set_channelID v a := mkAcs v (connection a) (client a) (isConnectionSet a) (isEnabled a).
Definition set_connection v a := mkAcs (acs_channelID a) v (client a) (isConnectionSet a) (isEnabled a).
Definition set_client v a := mkAcs (acs_channelID a) (connection a) v (isConnectionSet a) (isEnabled a).
Definition set_isConnectionSet v a := mkAcs (acs_channelID a) (connection a) (client a) v (isEnabled a).
Definition set_isEnabled v a := mkAcs (acs_channelID a) (connection a) (client a) (isConnectionSet a) v.

Section client.
Context `{AcsConfig} `{AcsWorld}.

Definition channelID : string := if bool_decide (ChannelID = "") then defaultAgentChannelID else ChannelID.

Definition clientOptions : M env (result (list client_option)) :=
  let opts := if bool_decide (Endpoint = "") then [] else [WithEndpoint Endpoint] in
  if bool_decide (Host = "") then mret (Ok opts)
  else
    let addr := "unix:" +:+ Host in
    err ← ext (λ n, grpc_NewClient n addr);
    mret (match err with
          | Some e => Err (ErrWrap "unable to dial ACS server, err" e)
          | None => Ok (opts ++ [WithGRPCConn addr])
          end).

Definition on_nil : M env error := e ← ext nil_method; some_or_panic e.

(** A method of a nil interface panics. *)
Definition conn_Close (c : conn) : M env unit :=
  match c with
  | Connection c => emit (Closed c)
  | NilPointer => _ ← on_nil; mret tt
  | NilInterface => panic
  end.
Definition client_Close (k : option nat) : M env unit :=
  match k with Some k => emit (ClosedClient k) | None => _ ← on_nil; mret tt end.

Definition closeConnection (failedConn : conn) : M env unit :=
  a ← gets acs;
  if negb (bool_decide (failedConn = NilInterface)) && negb (bool_decide (connection a = failedConn)) then mret tt
  else
    _ ← set_acs (set_isConnectionSet false);
    _ ← conn_Close (connection a);
    client_Close (client a).

Definition close : M env unit := closeConnection NilInterface.

Definition shouldReconnect (a : acsHelper) : bool :=
  negb (isConnectionSet a) || bool_decide (client a = None) || isNilInterface (connection a).

Definition isACSEnabled : M env bool :=
  if negb ACSClient then _ ← set_acs (set_isEnabled (Some false)); mret false
  else if test_environment then mret true
  else
    known ← gets (isEnabled ∘ acs);
    match known with
    | Some b => mret b
    | None =>
        desc ← ext mds_Get;
        match desc with
        | Err _ => mret false
        | Ok desc =>
            if negb (bool_decide (UniverseDomain desc = DefaultUniverseDomain)) then
              _ ← set_acs (set_isEnabled (Some false)); mret false
            else
              let present := HasServiceAccount desc in
              _ ← set_acs (set_isEnabled (Some present)); mret present
        end
    end.

(** New clients and connections are named by the number of the call. *)
Definition connect : M env (option error) :=
  enabled ← isACSEnabled;
  if negb enabled then mret None
  else
    a ← gets acs;
    if negb (shouldReconnect a) then mret None
    else
      _ ← set_acs (set_channelID channelID);
      opts ← clientOptions;
      match opts with
      | Err e => mret (Some (ErrWrap "unable to get client options, err" e))
      | Ok opts =>
          k ← gets calls;
          err ← ext (λ n, library_NewClient n opts);
          match err with
          | Some e => _ ← set_acs (set_client None); mret (Some (ErrWrap "unable to create new ACS client, err" e))
          | None =>
              _ ← set_acs (set_client (Some k));
              _ ← emit (NewClient k);
              c ← gets calls;
              err ← ext (λ n, library_NewConnection n channelID);
              match err with
              | Some e => _ ← set_acs (set_connection NilPointer); mret (Some (ErrWrap "unable to create new ACS connection, err" e))
              | None =>
                  _ ← set_acs (set_connection (Connection c));
                  _ ← emit (Opened c k);
                  _ ← set_acs (set_isConnectionSet true);
                  mret None
              end
          end
      end.

(** The call made with what was read under the lock. *)
Definition failed (c : conn) : M env unit := match c with Connection c => emit (Failed c) | _ => mret tt end.

Definition SendMessage_ (c : conn) (m : MessageBody) : M env (option error) :=
  match c with
  | Connection id =>
      err ← ext (λ n, conn_SendMessage n id m);
      match err with
      | Some e => _ ← failed c; mret (Some e)
      | None => _ ← emit (Sent m); mret None
      end
  | NilPointer => e ← on_nil; mret (Some e)
  | NilInterface => panic
  end.

Definition Receive_ (c : conn) : M env (result MessageBody) :=
  match c with
  | Connection id =>
      r ← ext (λ n, conn_Receive n id);
      match r with
      | Err e => _ ← failed c; mret (Err e)
      | Ok m => mret (Ok m)
      end
  | NilPointer => e ← on_nil; mret (Err e)
  | NilInterface => panic
  end.

Definition sendAgentMessage (channel : string) (k : option nat) (c : conn) (m : MessageBody) : M env (result string) :=
  match k with
  | Some k =>
      r ← ext (λ n, library_SendAgentMessage n channel k m);
      match r with
      | Err e => _ ← failed c; mret (Err e)
      | Ok resp => _ ← emit (Sent m); mret (Ok resp)
      end
  | None => e ← on_nil; _ ← failed c; mret (Err e)
  end.

Definition sendStream (lbls : labels) (msg : string) : M env (option error) :=
  err ← connect;
  match err with
  | Some e => mret (Some (ErrWrap "unable to set connection for sending msg, err" e))
  | None =>
      conn ← gets (connection ∘ acs);
      err ← SendMessage_ conn (mkBody lbls msg);
      match err with
      | Some e => _ ← closeConnection conn; mret (Some e)
      | None => mret None
      end
  end.

Definition sendMessage (lbls : labels) (msg : string) : M env (result string) :=
  err ← connect;
  match err with
  | Some e => mret (Err (ErrWrap "unable to connect for sending msg, err" e))
  | None =>
      a ← gets acs;
      resp ← sendAgentMessage (acs_channelID a) (client a) (connection a) (mkBody lbls msg);
      match resp with
      | Err e => _ ← closeConnection (connection a); mret (Err e)
      | Ok resp => mret (Ok resp)
      end
  end.

Definition receiveStream : M env (result MessageBody) :=
  err ← connect;
  match err with
  | Some e => mret (Err (ErrWrap "unable to connect for watching new messages on channel, err" e))
  | None =>
      conn ← gets (connection ∘ acs);
      msg ← Receive_ conn;
      match msg with
      | Err e => _ ← closeConnection conn; mret (Err e)
      | Ok msg => mret (Ok msg)
      end
  end.

Definition wait (d : Z) : M env (option error) := ext timer_wait.

Definition on_ok {A B} (f : A → B) (r : result A) : result B := match r with Ok x => Ok (f x) | Err e => Err e end.

Definition wrap {A} (what : string) (zero : A) (r : result A) : A * option error :=
  match r with Ok x => (x, None) | Err e => (zero, Some (ErrWrap what e)) end.

Definition unwrap {A} (r : A * option error) : result A := match r with (x, None) => Ok x | (_, Some e) => Err e end.

Section message.
Context {Msg : Type} `{AnyPb Msg}.

(** [Ok None] is the nil response of a disabled client. *)
Definition SendMessage (lbls : labels) (msg : Msg) : M env (result (option string)) :=
  enabled ← isACSEnabled;
  if negb enabled then mret (Ok None)
  else match anypb_New msg with
  | Err e => mret (Err (ErrWrap "unable to marshal message, err" e))
  | Ok anyMsg =>
      r ← Retry.RunWithResponse None wait 5 defaultRetrypolicy
            (Some (r ← sendMessage lbls anyMsg; mret (wrap "unable to send message, err" None (on_ok Some r))));
      r ← some_or_panic r; mret (unwrap r)
  end.

Definition Send (lbls : labels) (msg : Msg) : M env (option error) :=
  enabled ← isACSEnabled;
  if negb enabled then mret None
  else match anypb_New msg with
  | Err e => mret (Some (ErrWrap "unable to marshal message, err" e))
  | Ok anyMsg =>
      r ← Retry.Run wait 5 defaultRetrypolicy
            (Some (e ← sendStream lbls anyMsg; mret (ErrWrap "unable to send message on stream, err" <$> e)));
      some_or_panic r
  end.

Definition Notify (event : Msg) : M env (option error) := Send {[messageType := pluginEventMessageMsg]} event.
End message.

(** [None] when [fuel] attempts were not enough. *)
Definition Watch (fuel : nat) : M env (option (result (option MessageBody))) :=
  enabled ← isACSEnabled;
  if negb enabled then mret (Some (Ok None))
  else
    r ← Retry.RunWithResponse None wait fuel watcherRetrypolicy
          (Some (r ← receiveStream; mret (wrap "unable to listen on stream for new message, err" None (on_ok Some r))));
    mret (unwrap <$> r).

(** ** watcher.go *)
Definition WatcherID : string := "acs-watcher".
Definition MessageReceiver : string := "acs-watcher,receiver".
Definition Events : list string := [MessageReceiver].

(** [checkedGDUUniverse] before and after; whether to go on and the message. *)
Definition Run (fuel : nat) (checked : bool) : M env (option (bool * (bool * result (option MessageBody)))) :=
  gdu ← (if negb skip_universe_check && negb checked then ext mds_IsGDUUniverse else mret true);
  let checked := checked || negb skip_universe_check in
  if negb gdu then mret (Some (checked, (false, Ok None)))
  else if negb ACSClient then mret (Some (checked, (false, Ok None)))
  else
    r ← Watch fuel;
    mret ((λ r, (checked, (true, match r with
                                 | Err e => Err (ErrWrap "unable to receive new messages on ACS channel" e)
                                 | Ok m => Ok m
                                 end))) <$> r).

(** ** Goroutines *)

(** One attempt to use the connection, and where its goroutine is. *)
Inductive kind := KStream (m : MessageBody) | KMessage (m : MessageBody) | KReceive.
Inductive reply := RNone | RResponse (r : string) | RMessage (m : MessageBody).
Inductive place :=
| AtConnect
| AtRead
| AtCall (channel : string) (k : option nat) (c : conn)
| AtClose (c : conn) (e : error)
| Done (r : result reply).

Definition connect_error (k : kind) : string :=
  match k with
  | KStream _ => "unable to set connection for sending msg, err"
  | KMessage _ => "unable to connect for sending msg, err"
  | KReceive => "unable to connect for watching new messages on channel, err"
  end.

Definition call (k : kind) (channel : string) (cl : option nat) (c : conn) : M env (result reply) :=
  match k with
  | KStream m => e ← SendMessage_ c m; mret (match e with Some e => Err e | None => Ok RNone end)
  | KMessage m => r ← sendAgentMessage channel cl c m; mret (on_ok RResponse r)
  | KReceive => r ← Receive_ c; mret (on_ok RMessage r)
  end.

(** The next piece of an attempt that runs under the lock or in the library. *)
Definition stage (k : kind) (p : place) : M env place :=
  match p with
  | AtConnect =>
      err ← connect;
      mret (match err with Some e => Done (Err (ErrWrap (connect_error k) e)) | None => AtRead end)
  | AtRead => gets (λ s, AtCall (acs_channelID (acs s)) (client (acs s)) (connection (acs s)))
  | AtCall channel cl c =>
      r ← call k channel cl c;
      mret (match r with Err e => AtClose c e | Ok x => Done (Ok x) end)
  | AtClose c e => _ ← closeConnection c; mret (Done (Err e))
  | Done r => mret (Done r)
  end.

Record state := mkState { st_env : env; routines : list (kind * place) }.

Inductive step : state → state → Prop :=
| step_begin e e' l k :
    isACSEnabled e = Some (e', true) → step (mkState e l) (mkState e' (l ++ [(k, AtConnect)]))
| step_disabled e e' l :
    isACSEnabled e = Some (e', false) → step (mkState e l) (mkState e' l)
| step_stage e e' l i k p p' :
    l !! i = Some (k, p) → stage k p e = Some (e', p') →
    step (mkState e l) (mkState e' (<[i := (k, p')]> l))
| step_retry e l i k err :
    l !! i = Some (k, Done (Err err)) → step (mkState e l) (mkState e (<[i := (k, AtConnect)]> l)).

(** A goroutine that panics. *)
Definition panics (s : state) : Prop := ∃ i k p, routines s !! i = Some (k, p) ∧ stage k p (st_env s) = None.

Definition no_acs : acsHelper := mkAcs "" NilInterface None false None.
Definition start : state := mkState (mkEnv no_acs 0 []) [].

Definition reachable : state → Prop := rtc step start.
End client.
End Acs.
