(* ===== verification/AcsFacts.v ===== *)
(** * internal/acs: facts of the connection

    The invariant of the shared connection under any interleaving of the
    goroutines, one goroutine alone, watching through an outage, and the
    executions that end in nil pointers or leave clients open. *)
From stdpp Require Import gmap strings list.
From S2P Require Import Prelude GoStrings Retry Acs.

Module AcsFacts.
Import Acs.

(** ** The invariant of the goroutines *)
Section facts.
Context `{AcsConfig} `{AcsWorld}.

(** What [isACSEnabled] has found, once it has answered yes. *)
Definition enabled (a : acsHelper) : Prop := ACSClient = true ∧ (test_environment = true ∨ isEnabled a = Some true).

Definition ids (ev : event) : list nat :=
  match ev with Opened c k => [c; k] | NewClient k => [k] | Failed c => [c] | Closed c => [c] | ClosedClient k => [k] | Sent _ => [] end.

(** The cached connection is typed: set means a pointer to a connection and
    one to its client, both opened and neither closed. *)
Definition typed (a : acsHelper) (l : list event) : Prop :=
  isConnectionSet a = true →
  ∃ c k, connection a = Connection c ∧ client a = Some k ∧ Opened c k ∈ l ∧ Closed c ∉ l ∧ ClosedClient k ∉ l.

Record ok (e : env) : Prop := {
  ok_typed : typed (acs e) (log e);
  ok_ids : ∀ ev n, ev ∈ log e → n ∈ ids ev → n < calls e;
  ok_closed : ∀ c, Closed c ∈ log e → Failed c ∈ log e;
  ok_new : ∀ k, client (acs e) = Some k → NewClient k ∈ log e;
  ok_conn : ∀ c, connection (acs e) = Connection c → ∃ k, Opened c k ∈ log e;
}.

Record grows (e e' : env) : Prop := {
  grows_log : ∃ l, log e' = log e ++ l;
  grows_enabled : enabled (acs e) → enabled (acs e');
  grows_conn : connection (acs e) ≠ NilInterface → connection (acs e') ≠ NilInterface;
}.

#[global] Instance grows_preorder : PreOrder grows.
Proof.
  split; [intros e; split; [exists []; by rewrite app_nil_r|done|done]|].
  intros a b c [[l El] E1 C1] [[l' El'] E2 C2]. split; [|auto..]. exists (l ++ l'). by rewrite El', El, app_assoc.
Qed.

Lemma grows_in e e' ev : grows e e' → ev ∈ log e → ev ∈ log e'.
Proof. intros [[l ->] _ _] Hin. apply elem_of_app. by left. Qed.

(** Partial correctness: what holds if the goroutine does not panic. *)
Definition wlp {A} (m : M env A) (Q : A → env → Prop) (e : env) : Prop := ∀ e' a, m e = Some (e', a) → Q a e'.

Lemma wlp_bind {A B} (m : M env A) (f : A → M env B) Q e : wlp m (λ a, wlp (f a) Q) e → wlp (m ≫= f) Q e.
Proof.
  intros Hm e' b. unfold mbind, M_bind. destruct (m e) as [[e1 a]|] eqn:E; [|done]. intros Hb. by apply (Hm _ _ E).
Qed.

Lemma wlp_ret {A} (a : A) (Q : A → env → Prop) e : Q a e → wlp (mret a) Q e.
Proof. by intros HQ e' b [= <- <-]. Qed.

Lemma wlp_mono {A} (m : M env A) (Q Q' : A → env → Prop) e : wlp m Q e → (∀ a e', Q a e' → Q' a e') → wlp m Q' e.
Proof. unfold wlp. eauto. Qed.

Lemma wlp_wp {A} (m : M env A) (Q : A → env → Prop) e : wp m Q e → wlp m Q e.
Proof. intros Hw e' a E. unfold wp in Hw. by rewrite E in Hw. Qed.

(** A step that neither touches the connection nor closes anything. *)
Lemma ok_more a a' n n' l l' : ok (mkEnv a n l) → n ≤ n' →
  connection a' = connection a → client a' = client a → isConnectionSet a' = isConnectionSet a →
  (∀ ev, ev ∈ l' → (∃ m, ev = Sent m) ∨ ∃ c, ev = Failed c ∧ c < n') →
  ok (mkEnv a' n' (l ++ l')).
Proof.
  intros [Ht Hi Hc Hw Hv] Hn E1 E2 E3 Hl. split; simpl in *.
  - intros Hset. rewrite E3 in Hset. destruct (Ht Hset) as (c & k & Ec & Ek & Ho & Hcl & Hck). exists c, k. rewrite E1, E2.
    split_and!; [done|done|set_solver| |]; intros [Hin|Hin]%elem_of_app; try done; destruct (Hl _ Hin) as [[? ?]|(? & ? & _)]; done.
  - intros ev m [Hin|Hin]%elem_of_app Hm; [specialize (Hi ev m Hin Hm); simpl in Hi; lia|].
    destruct (Hl _ Hin) as [[? ->]|(c & -> & Hlt)]; simpl in Hm; [by apply elem_of_nil in Hm|].
    apply list_elem_of_singleton in Hm as ->. done.
  - intros c [Hin|Hin]%elem_of_app; [apply elem_of_app; left; by apply Hc|]. destruct (Hl _ Hin) as [[? ?]|(? & ? & _)]; done.
  - intros k Hk. rewrite E2 in Hk. apply elem_of_app. left. by apply Hw.
  - intros c Hcn. rewrite E1 in Hcn. destruct (Hv _ Hcn) as [k Hk]. exists k. apply elem_of_app. by left.
Qed.

Lemma wp_ext {A} (f : nat → A) (Q : A → env → Prop) e : Q (f (calls e)) (mkEnv (acs e) (S (calls e)) (log e)) → wp (ext f) Q e.
Proof. done. Qed.

(** What does not touch the connection. *)
Definition quiet (e e' : env) : Prop :=
  log e' = log e ∧ calls e ≤ calls e' ∧ connection (acs e') = connection (acs e) ∧ client (acs e') = client (acs e) ∧
  isConnectionSet (acs e') = isConnectionSet (acs e) ∧ (enabled (acs e) → enabled (acs e')).

Lemma quiet_ok e e' : quiet e e' → ok e → ok e'.
Proof.
  destruct e as [a n l], e' as [a' n' l']. intros (El & Hn & E1 & E2 & E3 & _) Hok. simpl in *. subst l'.
  rewrite <-(app_nil_r l). eapply (ok_more a a' n n' l []); try done. by intros ev Hev%elem_of_nil.
Qed.

Lemma quiet_grows e e' : quiet e e' → grows e e'.
Proof. intros (El & Hn & E1 & E2 & E3 & He). split; [exists []; by rewrite app_nil_r|done|by rewrite E1]. Qed.

Lemma wp_isACSEnabled e :
  wp isACSEnabled (λ b e', quiet e e' ∧ (b = true → enabled (acs e')) ∧ (enabled (acs e) → b = true)) e.
Proof.
  assert (Hq : ∀ e, quiet e e) by (intros e1; unfold quiet; split_and!; done).
  unfold isACSEnabled. destruct ACSClient eqn:Ea; simpl.
  2: { unfold wp. simpl. unfold quiet, enabled; simpl. rewrite Ea. naive_solver. }
  destruct test_environment eqn:Et; [apply wp_ret; split_and!; [done|by split; [|left]|done]|].
  apply wp_bind, wp_gets. unfold compose. destruct (isEnabled (acs e)) as [b|] eqn:Ei.
  { apply wp_ret. split_and!; [done|intros ->; split; [done|by right]|]. intros [_ [?|?]]; congruence. }
  assert (Hno : ¬ enabled (acs e)) by (intros [_ [?|?]]; congruence).
  assert (Hs : ∀ v, quiet e (mkEnv (set_isEnabled v (acs e)) (S (calls e)) (log e))).
  { intros v. unfold quiet. simpl. split_and!; try done; lia. }
  apply wp_bind, wp_ext. destruct (mds_Get (calls e)) as [d|x].
  2: { apply wp_ret. split_and!; [|done|done]. unfold quiet. simpl. split_and!; try done; lia. }
  destruct (bool_decide _); cbn [negb].
  - change (quiet e (mkEnv (set_isEnabled (Some (HasServiceAccount d)) (acs e)) (S (calls e)) (log e)) ∧
      (HasServiceAccount d = true → enabled (set_isEnabled (Some (HasServiceAccount d)) (acs e))) ∧
      (enabled (acs e) → HasServiceAccount d = true)).
    split_and!; [done| |done]. intros ->. split; [done|by right].
  - change (quiet e (mkEnv (set_isEnabled (Some false) (acs e)) (S (calls e)) (log e)) ∧
      (false = true → enabled (set_isEnabled (Some false) (acs e))) ∧ (enabled (acs e) → false = true)). by split_and!.
Qed.

(** An attempt may use the connection. *)
Definition ready (a : acsHelper) : Prop := isConnectionSet a = true ∧ ∃ c k, connection a = Connection c ∧ client a = Some k.

Lemma wp_clientOptions e : wp clientOptions (λ _ e', quiet e e' ∧ acs e' = acs e) e.
Proof. unfold clientOptions. destruct (bool_decide _); unfold wp; simpl; unfold quiet; simpl; split_and!; auto; done. Qed.

Lemma ok_unset a n n' l : ok (mkEnv a n l) → n ≤ n' → ∀ a', isConnectionSet a' = false →
  (∀ k, client a' = Some k → client a = Some k) → (∀ c, connection a' = Connection c → connection a = Connection c) → ok (mkEnv a' n' l).
Proof.
  intros [Ht Hi Hc Hw Hv] Hn a' Hset Hcl Hcn. split; simpl in *; [by intros ?; congruence| |done|auto|auto].
  intros ev m Hin Hm. specialize (Hi ev m Hin Hm). simpl in Hi. lia.
Qed.

(** Fresh names have no event. *)
Lemma ok_fresh e ev n : ok e → n ∈ ids ev → calls e ≤ n → ev ∉ log e.
Proof. intros [_ Hi _ _ _] Hn Hle Hin. specialize (Hi _ _ Hin Hn). lia. Qed.

(** ** The operations *)
Definition sent_of (ev : event) : option MessageBody := match ev with Sent m => Some m | _ => None end.
Definition sents (e : env) : list MessageBody := omap sent_of (log e).

(** What connecting leaves. *)
Record connected (e : env) (err : option error) (e' : env) : Prop := {
  cd_ok : ok e';
  cd_grows : grows e e';
  cd_calls : calls e ≤ calls e';
  cd_sents : sents e' = sents e;
  cd_ready : err = None → enabled (acs e) → ready (acs e');
  cd_unset : is_Some err → isConnectionSet (acs e') = false;
}.

Lemma quiet_connected e e' err : ok e → quiet e e' → (err = None → enabled (acs e) → ready (acs e')) →
  (is_Some err → isConnectionSet (acs e') = false) → connected e err e'.
Proof.
  intros Hok Hq Hr Hu. split; [by eapply quiet_ok|by apply quiet_grows| | |done|done].
  - apply Hq.
  - unfold sents. by destruct Hq as [-> _].
Qed.

Lemma ready_reconnect a l : typed a l → shouldReconnect a = true → isConnectionSet a = false.
Proof.
  intros Ht Hs. destruct (isConnectionSet a) eqn:E; [|done]. destruct (Ht E) as (c & k & Ec & Ek & _).
  unfold shouldReconnect in Hs. by rewrite E, Ec, Ek in Hs.
Qed.

Lemma reconnect_ready a : shouldReconnect a = false → ready a.
Proof.
  unfold shouldReconnect, ready. destruct (isConnectionSet a), (client a), (connection a); simpl; try done; eauto 10.
Qed.

(** The new client and the new connection. *)
Lemma ok_client e e' : ok e → isConnectionSet (acs e') = false → client (acs e') = Some (calls e) → connection (acs e') = connection (acs e) → log e' = log e ++ [NewClient (calls e)] → calls e < calls e' → ok e'.
Proof.
  destruct e as [a n l], e' as [a' n' l']. intros [_ Hi Hc _ Hv] Hset Ecl Ecn El Hn. simpl in *. subst l'.
  split; simpl in *; [by intros ?; congruence| | | |].
  - intros ev m [Hin|Hin]%elem_of_app Hm; [specialize (Hi ev m Hin Hm); lia|]. apply list_elem_of_singleton in Hin as ->.
    simpl in Hm. apply list_elem_of_singleton in Hm as ->. lia.
  - intros c [Hin|Hin%list_elem_of_singleton]%elem_of_app; [|done]. apply elem_of_app. left. by apply Hc.
  - intros k Hk. assert (k = n) as -> by congruence. set_solver.
  - intros c Hcn. rewrite Ecn in Hcn. destruct (Hv _ Hcn) as [k Hk]. exists k. apply elem_of_app. by left.
Qed.

Lemma ok_opened e k c e' : ok e → k < calls e → c = calls e → NewClient k ∈ log e → ClosedClient k ∉ log e → calls e' = S (calls e) →
  log e' = log e ++ [Opened c k] → connection (acs e') = Connection c → client (acs e') = Some k → ok e'.
Proof.
  intros Hok Hk -> Hnew Hnc Hn El Ec Ek. assert (Hf : Closed (calls e) ∉ log e) by (eapply (ok_fresh e _ (calls e)); [done|set_solver|lia]).
  destruct Hok as [_ Hi Hc _ _]. split.
  5: { rewrite El, Ec. intros c' [= <-]. exists k. set_solver. }
  4: { rewrite El, Ek. intros k' [= <-]. set_solver. }
  - intros _. exists (calls e), k. rewrite El. split_and!; [done|done|set_solver|set_solver|set_solver].
  - rewrite El, Hn. intros ev m [Hin|Hin]%elem_of_app Hm; [specialize (Hi ev m Hin Hm); lia|].
    apply list_elem_of_singleton in Hin as ->. simpl in Hm. apply elem_of_cons in Hm as [->|Hm]; [lia|].
    apply list_elem_of_singleton in Hm as ->. lia.
  - rewrite El. intros c [Hin|Hin%list_elem_of_singleton]%elem_of_app; [|done]. apply elem_of_app. left. by apply Hc.
Qed.

Lemma wp_connect e : ok e → wp connect (λ err e', connected e err e') e.
Proof.
  intros Hok. unfold connect. apply wp_bind. eapply wp_mono; [apply wp_isACSEnabled|]. intros en e1 (Hq & Hen & Hne).
  destruct en; cbn [negb]; [|apply wp_ret, quiet_connected; [done|done| |by intros []]; intros _ He; by apply Hne in He].
  apply wp_bind, wp_gets. pose proof (quiet_ok _ _ Hq Hok) as Hok1.
  destruct (shouldReconnect (acs e1)) eqn:Es; cbn [negb]; [|apply wp_ret, quiet_connected; [done|done| |by intros []]; intros; by apply reconnect_ready].
  pose proof (ready_reconnect _ _ (ok_typed _ Hok1) Es) as Hset.
  apply wp_bind, wp_modify. set (e2 := mkEnv _ _ _).
  assert (Hq2 : quiet e e2) by (destruct Hq as (? & ? & ? & ? & ? & ?); unfold quiet; simpl; split_and!; auto).
  apply wp_bind. eapply wp_mono; [apply wp_clientOptions|]. intros opts e3 [Hq3 Ea3].
  assert (Hq3' : quiet e e3).
  { destruct Hq2 as (? & ? & ? & ? & ? & ?), Hq3 as (? & ? & ? & ? & ? & ?). unfold quiet. split_and!; try congruence; [lia|auto]. }
  assert (Hset3 : isConnectionSet (acs e3) = false) by (by rewrite Ea3).
  pose proof (quiet_ok _ _ Hq3' Hok) as Hok3. pose proof (quiet_grows _ _ Hq3') as Hg3.
  destruct opts as [opts|x]; [|apply wp_ret; by apply quiet_connected].
  apply wp_bind, wp_gets, wp_bind, wp_ext. destruct (library_NewClient _ _) as [x|].
  { apply wp_bind, wp_modify, wp_ret. destruct e3 as [a n l], Hg3 as [Hl He Hcn]. simpl in *. split; simpl; try done.
    - apply (ok_unset a n (S n) l); [done|lia|done|done|done].
    - destruct Hq3' as (_ & Hn & _). simpl in Hn. lia.
    - unfold sents. destruct Hq3' as [El _]. simpl in *. by rewrite El. }
  apply wp_bind, wp_modify, wp_bind, wp_modify, wp_bind, wp_gets. cbn [acs calls log].
  set (e4 := mkEnv (set_client (Some (calls e3)) (acs e3)) (S (calls e3)) (log e3 ++ [NewClient (calls e3)])).
  assert (Hok4 : ok e4) by (eapply ok_client; [exact Hok3|done|done|done|done|simpl; lia]).
  assert (Hg4 : grows e e4).
  { etrans; [exact Hg3|]. split; [by eexists|done|done]. }
  assert (Hs4 : sents e4 = sents e).
  { unfold sents. simpl. rewrite omap_app. simpl. rewrite app_nil_r. by destruct Hq3' as [-> _]. }
  assert (Hn4 : calls e < calls e4) by (destruct Hq3' as (_ & Hn & _); simpl; lia).
  apply wp_bind, wp_ext. destruct (library_NewConnection _ _) as [x|].
  { apply wp_bind, wp_modify, wp_ret. split; try done.
    - apply (ok_unset (acs e4) (calls e4) (S (calls e4)) (log e4)); [done|lia|done|done|done].
    - destruct Hg4 as [Hl He _]. by split.
    - simpl in *. lia. }
  apply wp_bind, wp_modify, wp_bind, wp_modify, wp_bind, wp_modify, wp_ret. cbn [acs calls log].
  assert (Hk : ClosedClient (calls e3) ∉ log e4).
  { unfold e4; cbn [log]. intros [Hin|Hin%list_elem_of_singleton]%elem_of_app; [|done].
    by eapply (ok_fresh e3 _ (calls e3) Hok3); [|done|exact Hin]; set_solver. }
  split.
  - eapply (ok_opened e4 (calls e3) (S (calls e3))); try done; simpl; [lia|set_solver].
  - etrans; [exact Hg4|]. split; [by eexists|done|done].
  - simpl in *. lia.
  - unfold sents in *. simpl in *. rewrite omap_app. simpl. by rewrite app_nil_r.
  - intros _ _. split; [done|]. by do 2 eexists.
  - by intros [].
Qed.

Lemma ok_closing a n l a' n' l' : ok (mkEnv a n l) → isConnectionSet a' = false → (∀ k, client a' = Some k → client a = Some k) →
  (∀ c, connection a' = Connection c → connection a = Connection c) → n ≤ n' →
  (∀ ev, ev ∈ l' → (∃ c, ev = Closed c ∧ Failed c ∈ l) ∨ ∃ k, ev = ClosedClient k ∧ NewClient k ∈ l) →
  ok (mkEnv a' n' (l ++ l')).
Proof.
  intros [Ht Hi Hc Hw Hv] Hset Hcl Hcn Hn Hl. split; simpl in *; [by intros ?; congruence| | | |].
  - intros ev m [Hin|Hin]%elem_of_app Hm; [specialize (Hi ev m Hin Hm); simpl in Hi; lia|].
    destruct (Hl _ Hin) as [(c & -> & Hf)|(k & -> & Hf)]; specialize (Hi _ m Hf Hm); lia.
  - intros c [Hin|Hin]%elem_of_app; apply elem_of_app; left; [by apply Hc|].
    destruct (Hl _ Hin) as [(c' & [= <-] & Hf)|(k & ? & _)]; done.
  - intros k Hk. apply elem_of_app. left. auto.
  - intros c Hc'. destruct (Hv c) as [k Hk]; [auto|]. exists k. apply elem_of_app. by left.
Qed.

(** What closing a failed connection leaves. *)
Record closed_by (e e' : env) : Prop := {
  cb_ok : ok e';
  cb_grows : grows e e';
  cb_calls : calls e ≤ calls e';
  cb_sents : sents e' = sents e;
}.

Lemma closed_by_refl e : ok e → closed_by e e.
Proof. by split. Qed.

Lemma wlp_on_nil (Q : error → env → Prop) e : (∀ x, Q x (mkEnv (acs e) (S (calls e)) (log e))) → wlp on_nil Q e.
Proof.
  intros HQ e' x. unfold on_nil, ext, mbind, M_bind, some_or_panic, panic, mret, M_ret.
  destruct (nil_method (calls e)); [|done]. intros [= <- <-]. apply HQ.
Qed.

Lemma wlp_closeConnection c e : ok e → c ≠ NilInterface → (∀ i, c = Connection i → Failed i ∈ log e) →
  wlp (closeConnection c) (λ _ e', closed_by e e') e.
Proof.
  intros Hok Hne Hf. unfold closeConnection. apply wlp_bind. intros e1 a [= <- <-].
  destruct (negb _ && negb _) eqn:Eg; [by apply wlp_ret, closed_by_refl|].
  assert (Ec : connection (acs e) = c).
  { apply andb_false_iff in Eg as [Eg|Eg]; apply negb_false_iff, bool_decide_eq_true in Eg; done. }
  destruct e as [a n l]. simpl in Ec, Hf.
  assert (Hend : ∀ n' l', n ≤ n' → omap sent_of l' = [] → (∀ ev, ev ∈ l' → (∃ c, ev = Closed c ∧ Failed c ∈ l) ∨ ∃ k, ev = ClosedClient k ∧ NewClient k ∈ l) →
    closed_by (mkEnv a n l) (mkEnv (set_isConnectionSet false a) n' (l ++ l'))).
  { intros n' l' Hn Hs Hl. split; [by eapply ok_closing| |done|]; [split; [by eexists|done|done]|].
    unfold sents. simpl. by rewrite omap_app, Hs, app_nil_r. }
  apply wlp_bind. intros e2 u2 [= <- <-]. apply wlp_bind. cbn [acs calls log].
  assert (Hcl : ∀ n' l', n ≤ n' → omap sent_of l' = [] → (∀ ev, ev ∈ l' → ∃ c, ev = Closed c ∧ Failed c ∈ l) →
    wlp (client_Close (client a)) (λ _ e', closed_by (mkEnv a n l) e') (mkEnv (set_isConnectionSet false a) n' (l ++ l'))).
  { intros n' l' Hn Hs Hl. destruct (client a) as [k|] eqn:Ek.
    - intros e3 u3 [= <- <-]. cbn [acs calls log]. rewrite <-app_assoc. apply Hend; [done|by rewrite omap_app, Hs|].
      intros ev [Hin|Hin%list_elem_of_singleton]%elem_of_app; [left; by apply Hl|]. right. exists k. split; [done|]. by apply (ok_new _ Hok).
    - apply wlp_bind, wlp_on_nil. intros x. apply wlp_ret. cbn [acs calls log]. apply Hend; [lia|done|]. intros ev Hin. left. by apply Hl. }
  rewrite Ec. destruct c as [| |i]; [done| |].
  - apply wlp_bind, wlp_on_nil. intros x. apply wlp_ret. cbn [acs calls log]. specialize (Hcl (S n) []). rewrite app_nil_r in Hcl.
    apply Hcl; [lia|done|]. by intros ev Hin%elem_of_nil.
  - intros e3 u3 [= <- <-]. cbn [acs calls log]. apply Hcl; [done|done|]. intros ev Hin%list_elem_of_singleton. exists i. split; [done|].
    by apply Hf.
Qed.

(** ** Calls *)
Definition calling (k : kind) : option MessageBody := match k with KStream m | KMessage m => Some m | KReceive => None end.

(** What a call leaves: a failure is noted, a message is sent by success. *)
Record called (k : kind) (c : conn) (e : env) (r : result reply) (e' : env) : Prop := {
  ca_ok : ok e';
  ca_acs : acs e' = acs e;
  ca_grows : grows e e';
  ca_calls : calls e ≤ calls e';
  ca_failed : ∀ x i, r = Err x → c = Connection i → Failed i ∈ log e';
  ca_sents : sents e' = sents e ++ match r with Ok _ => option_list (calling k) | Err _ => [] end;
}.

Lemma called_more k c e r n' l' : ok e → calls e ≤ n' →
  (∀ ev, ev ∈ l' → (∃ m, ev = Sent m) ∨ ∃ i, ev = Failed i ∧ i < n') →
  omap sent_of l' = match r with Ok _ => option_list (calling k) | Err _ => [] end →
  (∀ x i, r = Err x → c = Connection i → Failed i ∈ log e ++ l') →
  called k c e r (mkEnv (acs e) n' (log e ++ l')).
Proof.
  destruct e as [a n l]. intros Hok Hn Hl Hs Hf. split; simpl in *; [|done| |done|done|].
  - by eapply (ok_more a a n n' l l').
  - split; [by eexists|done|done].
  - unfold sents. simpl. by rewrite omap_app, Hs.
Qed.

(** A connection that a goroutine holds has a name of the past. *)
Lemma wlp_call k channel cl c e : ok e → c ≠ NilInterface → (∀ i, c = Connection i → i < calls e) →
  wlp (call k channel cl c) (λ r e', called k c e r e') e.
Proof.
  intros Hok Hne Hi.
  assert (Hfail : ∀ (x : error) n', calls e ≤ n' →
    wlp (failed c) (λ _ e', called k c e (Err x) e') (mkEnv (acs e) n' (log e))).
  { intros x n' Hn. destruct c as [| |i]; [done| |].
    - intros e' u [= <- <-]. rewrite <-(app_nil_r (log e)). apply called_more; try done. by intros ev Hev%elem_of_nil.
    - intros e' u [= <- <-]. apply called_more; try done.
      + intros ev ->%list_elem_of_singleton. right. exists i. split; [done|]. specialize (Hi i eq_refl). simpl. lia.
      + intros x' j _ [= <-]. set_solver. }
  assert (Hnil : ∀ (x : error), called k NilPointer e (Err x) (mkEnv (acs e) (S (calls e)) (log e))).
  { intros x. rewrite <-(app_nil_r (log e)). apply called_more; try done; [lia|]. by intros ev Hev%elem_of_nil. }
  destruct k as [m|m|]; cbn [call]; apply wlp_bind.
  - destruct c as [| |i]; [done|apply wlp_bind, wlp_on_nil; intros x; apply wlp_ret, wlp_ret, Hnil|].
    apply wlp_bind. intros e1 r [= <- <-]. destruct (conn_SendMessage _ _ _) as [x|].
    + apply wlp_bind. refine (wlp_mono _ _ _ _ (Hfail x (S (calls e)) _) _); [lia|]. intros _ e2 Hc. by apply wlp_ret, wlp_ret.
    + apply wlp_bind. intros e2 u [= <- <-]. apply wlp_ret, wlp_ret. cbn [acs calls log]. apply called_more; try done; [lia|].
      intros ev ->%list_elem_of_singleton. left. by eexists.
  - unfold sendAgentMessage. destruct cl as [kc|].
    + apply wlp_bind. intros e1 r [= <- <-]. destruct (library_SendAgentMessage _ _ _ _) as [resp|x].
      * apply wlp_bind. intros e2 u [= <- <-]. apply wlp_ret, wlp_ret. cbn [acs calls log]. apply called_more; try done; [lia|].
        intros ev ->%list_elem_of_singleton. left. by eexists.
      * apply wlp_bind. refine (wlp_mono _ _ _ _ (Hfail x (S (calls e)) _) _); [lia|]. intros _ e2 Hc. by apply wlp_ret, wlp_ret.
    + apply wlp_bind, wlp_on_nil. intros x. apply wlp_bind. refine (wlp_mono _ _ _ _ (Hfail x (S (calls e)) _) _); [lia|].
      intros _ e2 Hc. by apply wlp_ret, wlp_ret.
  - destruct c as [| |i]; [done|apply wlp_bind, wlp_on_nil; intros x; apply wlp_ret, wlp_ret, Hnil|].
    apply wlp_bind. intros e1 r [= <- <-]. destruct (conn_Receive _ _) as [x|x].
    + apply wlp_ret, wlp_ret. cbn [acs calls log on_ok]. rewrite <-(app_nil_r (log e)). apply called_more; try done; [lia|]. by intros ev Hev%elem_of_nil.
    + apply wlp_bind. refine (wlp_mono _ _ _ _ (Hfail x (S (calls e)) _) _); [lia|]. intros _ e2 Hc. by apply wlp_ret, wlp_ret.
Qed.

(** ** Goroutines *)
Definition routine_ok (e : env) (k : kind) (p : place) : Prop :=
  enabled (acs e) ∧
  match p with
  | AtRead => connection (acs e) ≠ NilInterface
  | AtCall _ _ c => c ≠ NilInterface ∧ ∀ i, c = Connection i → i < calls e
  | AtClose c _ => c ≠ NilInterface ∧ ∀ i, c = Connection i → Failed i ∈ log e
  | AtConnect | Done _ => True
  end.

Definition forward (e e' : env) : Prop := ok e' ∧ grows e e' ∧ calls e ≤ calls e'.

Lemma routine_forward e e' k p : forward e e' → routine_ok e k p → routine_ok e' k p.
Proof.
  intros (_ & Hg & Hn) [He Hp]. split; [by apply (grows_enabled _ _ Hg)|]. destruct p; try done.
  - by apply (grows_conn _ _ Hg).
  - destruct Hp as [Hne Hi]. split; [done|]. intros i Hc. specialize (Hi i Hc). lia.
  - destruct Hp as [Hne Hi]. split; [done|]. intros i Hc. eapply grows_in; eauto.
Qed.

Lemma stage_ok k p e : ok e → routine_ok e k p → wlp (stage k p) (λ p' e', forward e e' ∧ routine_ok e' k p') e.
Proof.
  intros Hok [He Hp]. assert (Hself : forward e e) by done. destruct p as [| |ch cl c|c x|r]; cbn [stage].
  - apply wlp_bind, wlp_wp. eapply wp_mono; [by apply wp_connect|]. intros err e1 [H1 H2 H3 _ H4 _].
    apply wlp_ret. split; [done|]. split; [by apply (grows_enabled _ _ H2)|]. destruct err; [done|].
    destruct (H4 eq_refl He) as (_ & c & kc & -> & _). done.
  - intros e1 p1 [= <- <-]. split; [done|]. split; [done|]. split; [done|]. intros i Hc.
    destruct (ok_conn _ Hok _ Hc) as [kc Ho]. eapply (ok_ids _ Hok); [exact Ho|]. set_solver.
  - destruct Hp as [Hne Hi]. apply wlp_bind. eapply wlp_mono; [by apply wlp_call|]. intros r e1 [H1 _ H2 H3 H4 _].
    apply wlp_ret. split; [done|]. split; [by apply (grows_enabled _ _ H2)|]. destruct r as [r|x]; [done|]. split; [done|]. eauto.
  - destruct Hp as [Hne Hi]. apply wlp_bind. eapply wlp_mono; [by apply wlp_closeConnection|]. intros _ e1 [H1 H2 H3 _].
    apply wlp_ret. split; [done|]. split; [by apply (grows_enabled _ _ H2)|done].
  - by apply wlp_ret.
Qed.

(** A goroutine that came as far as using the connection panics only in the
    library. *)
Lemma stage_total k p e : (∀ n, nil_method n ≠ None) → ok e → routine_ok e k p → is_Some (stage k p e).
Proof.
  intros Hnil Hok [He Hp].
  assert (Hon : total on_nil).
  { intros s. unfold on_nil, ext, mbind, M_bind, some_or_panic, mret, M_ret. destruct (nil_method (calls s)) eqn:E; [by eexists|]. by destruct (Hnil (calls s)). }
  assert (Hfail : ∀ c, total (failed c)) by (intros [| |i] s; by eexists).
  destruct p as [| |ch cl c|c x|r]; cbn [stage].
  - pose proof (wp_connect e Hok) as Hw. unfold wp in Hw. unfold mbind, M_bind. destruct (connect e) as [[e1 a]|]; [by eexists|done].
  - by eexists.
  - destruct Hp as [Hne Hi]. apply total_bind; [|intros; apply total_ret].
    assert (Hext : ∀ A (f : nat → A), total (ext f)) by (intros A f s; by eexists).
    assert (Hem : ∀ ev, total (emit ev)) by (intros ev s; by eexists).
    destruct k; cbn [call]; (apply total_bind; [|intros; apply total_ret]).
    + destruct c; [done|cbn; total_solve; auto|]. unfold SendMessage_. total_solve; auto.
    + unfold sendAgentMessage. destruct cl; total_solve; auto.
    + destruct c; [done|cbn; total_solve; auto|]. unfold Receive_. total_solve; auto.
  - destruct Hp as [Hne _]. assert (Hc : is_Some (closeConnection c e)).
    { unfold closeConnection, mbind, M_bind, gets. destruct (negb _ && negb _) eqn:Eg; [by eexists|].
      assert (Ec : connection (acs e) = c).
      { apply andb_false_iff in Eg as [Eg|Eg]; apply negb_false_iff, bool_decide_eq_true in Eg; done. }
      rewrite Ec. change (is_Some ((_ ← conn_Close c; client_Close (client (acs e))) (mkEnv (set_isConnectionSet false (acs e)) (calls e) (log e)))).
      assert (Hcc : total (conn_Close c)) by (destruct c; [done|cbn; total_solve; auto|intros s; by eexists]).
      assert (Hcl : total (client_Close (client (acs e)))) by (destruct (client (acs e)); [intros s; by eexists|cbn; total_solve; auto]).
      exact (total_bind _ _ Hcc (λ _, Hcl) _). }
    destruct Hc as [[e1 u] Hc]. unfold mbind, M_bind. rewrite Hc. by eexists.
  - by eexists.
Qed.

Record good (s : state) : Prop := {
  good_env : ok (st_env s);
  good_routines : ∀ i k p, routines s !! i = Some (k, p) → routine_ok (st_env s) k p;
}.

Lemma forward_quiet e e' : ok e → quiet e e' → forward e e'.
Proof. intros Hok Hq. split_and!; [by eapply quiet_ok|by apply quiet_grows|by destruct Hq as (_ & ? & _)]. Qed.

Lemma good_forward e e' l : forward e e' → good (mkState e l) → good (mkState e' l).
Proof. intros Hf [Hg Hr]. split; [apply Hf|]. intros i k p Hi. eapply routine_forward; [done|]. by eapply Hr. Qed.

Lemma good_insert e l i k p : good (mkState e l) → routine_ok e k p → good (mkState e (<[i := (k, p)]> l)).
Proof.
  intros [Hg Hr] Hp. split; [done|]. intros j k' p' Hj. simpl in *. apply list_lookup_insert_Some in Hj as [(-> & [= <- <-] & _)|[_ Hj]]; [done|].
  by eapply Hr.
Qed.

Lemma step_good s s' : good s → step s s' → good s'.
Proof.
  intros Hg Hs. destruct Hs as [e e' l k Hen|e e' l Hen|e e' l i k p p' Hi Hst|e l i k err Hi].
  - pose proof (wp_isACSEnabled e) as Hw. unfold wp in Hw. rewrite Hen in Hw. destruct Hw as (Hq & He & _).
    pose proof (forward_quiet _ _ (good_env _ Hg) Hq) as Hf. destruct (good_forward _ _ _ Hf Hg) as [Hg' Hr]. split; [done|]. simpl in *.
    intros j k' p' [Hj|[Hlen Hj]]%lookup_app_Some; [by eapply Hr|]. apply list_lookup_singleton_Some in Hj as [_ [= <- <-]]. by split; [apply He|].
  - pose proof (wp_isACSEnabled e) as Hw. unfold wp in Hw. rewrite Hen in Hw. destruct Hw as (Hq & _ & _).
    eapply good_forward; [|exact Hg]. apply forward_quiet; [apply Hg|done].
  - destruct (stage_ok k p e (good_env _ Hg) (good_routines _ Hg _ _ _ Hi) _ _ Hst) as [Hf Hp].
    apply good_insert; [by eapply good_forward|done].
  - apply good_insert; [done|]. split; [|done]. by destruct (good_routines _ Hg _ _ _ Hi) as [? _].
Qed.

Lemma reachable_good s : reachable s → good s.
Proof.
  intros Hr. revert s Hr. apply (rtc_ind_r (λ s, good s)); [|intros; by eapply step_good].
  split; [|by intros i k p Hi]. split; simpl; try done; intros; set_solver.
Qed.

(** ** One goroutine alone *)
Lemma wp_of_wlp {A} (m : M env A) (Q : A → env → Prop) e : is_Some (m e) → wlp m Q e → wp m Q e.
Proof. intros [[e' a] E] HQ. unfold wp. rewrite E. by apply HQ. Qed.

Definition used (e : env) (k : kind) (r : result reply) (e' : env) : Prop :=
  ok e' ∧ enabled (acs e') ∧ calls e ≤ calls e' ∧
  match r with
  | Ok _ => sents e' = sents e ++ option_list (calling k)
  | Err _ => sents e' = sents e ∧ isConnectionSet (acs e') = false
  end.

(** An attempt, all of it at once. *)
Definition attempt (k : kind) : M env (result reply) :=
  err ← connect;
  match err with
  | Some e => mret (Err (ErrWrap (connect_error k) e))
  | None =>
      a ← gets acs;
      r ← call k (acs_channelID a) (client a) (connection a);
      match r with
      | Err e => _ ← closeConnection (connection a); mret (Err e)
      | Ok x => mret (Ok x)
      end
  end.

Lemma call_total k ch i kc e : is_Some (call k ch (Some kc) (Connection i) e).
Proof.
  assert (Hext : ∀ A (f : nat → A), total (ext f)) by (intros A f s; by eexists).
  assert (Hem : ∀ ev, total (emit ev)) by (intros ev s; by eexists).
  assert (Ht : total (call k ch (Some kc) (Connection i))); [|apply Ht].
  destruct k; cbn [call]; (apply total_bind; [|intros; apply total_ret]); cbn; total_solve; auto.
Qed.

Lemma closeConnection_open e c k : connection (acs e) = Connection c → client (acs e) = Some k →
  closeConnection (Connection c) e =
  Some (mkEnv (set_isConnectionSet false (acs e)) (calls e) ((log e ++ [Closed c]) ++ [ClosedClient k]), tt).
Proof.
  intros Ec Ek. unfold closeConnection, mbind, M_bind, gets. rewrite Ec, (bool_decide_true (Connection c = Connection c)), andb_false_r by done. cbn.
  by rewrite Ek.
Qed.

Lemma wp_attempt k e : ok e → enabled (acs e) → wp (attempt k) (used e k) e.
Proof.
  intros Hok He. unfold attempt. apply wp_bind. eapply wp_mono; [by apply wp_connect|].
  intros err e1 [H1 H2 H3 H4 H5 H6]. pose proof (grows_enabled _ _ H2 He) as He1. destruct err as [x|]; [apply wp_ret; split_and!; auto|].
  destruct (H5 eq_refl He) as (_ & c & kc & Ec & Ek). apply wp_bind, wp_gets, wp_bind. rewrite Ec, Ek.
  apply wp_of_wlp; [apply call_total|]. eapply wlp_mono; [apply wlp_call; [done|done|]|].
  { intros i [= <-]. destruct (ok_conn _ H1 _ Ec) as [k' Ho]. eapply (ok_ids _ H1); [exact Ho|]. set_solver. }
  intros r e2 [C1 C2 C3 C4 C5 C6]. pose proof (grows_enabled _ _ C3 He1) as He2.
  destruct r as [r|x]; [apply wp_ret; split_and!; [done|done|lia|by rewrite C6, H4]|].
  assert (Hcl : wlp (closeConnection (Connection c)) (λ _ e', closed_by e2 e') e2).
  { apply wlp_closeConnection; [done|done|]. intros i [= <-]. by eapply C5. }
  apply wp_bind. unfold wp at 1. rewrite <-C2 in Ec, Ek. pose proof (closeConnection_open e2 c kc Ec Ek) as E. rewrite E.
  destruct (Hcl _ _ E) as [D1 D2 D3 D4]. apply wp_ret. split_and!; [done|by apply (grows_enabled _ _ D2)|lia| |done].
  by rewrite D4, C6, H4, app_nil_r.
Qed.

Definition reply_error (r : result reply) : option error := match r with Ok _ => None | Err e => Some e end.

(** The three uses of the connection are attempts. *)
Lemma sendStream_attempt lbls msg e :
  sendStream lbls msg e = (r ← attempt (KStream (mkBody lbls msg)); mret (reply_error r)) e.
Proof.
  unfold sendStream, attempt, call, gets, compose, mbind, M_bind, mret, M_ret.
  destruct (connect e) as [[e1 [x|]]|]; [done| |done].
  destruct (SendMessage_ _ _ e1) as [[e2 [x|]]|]; [|done|done]. by destruct (closeConnection _ e2) as [[e3 u]|].
Qed.

Lemma sendMessage_attempt lbls msg e :
  sendMessage lbls msg e =
  (r ← attempt (KMessage (mkBody lbls msg));
   mret (match r with Ok (RResponse x) => Ok x | Ok _ => Ok "" | Err x => Err x end)) e.
Proof.
  unfold sendMessage, attempt, call, gets, mbind, M_bind, mret, M_ret.
  destruct (connect e) as [[e1 [x|]]|]; [done| |done].
  destruct (sendAgentMessage _ _ _ _ e1) as [[e2 [x|x]]|]; [done| |done]. cbn. by destruct (closeConnection _ e2) as [[e3 u]|].
Qed.

Lemma receiveStream_attempt e :
  receiveStream e =
  (r ← attempt KReceive; mret (match r with Ok (RMessage x) => Ok x | Ok _ => Ok (mkBody ∅ "") | Err x => Err x end)) e.
Proof.
  unfold receiveStream, attempt, call, gets, compose, mbind, M_bind, mret, M_ret.
  destruct (connect e) as [[e1 [x|]]|]; [done| |done].
  destruct (Receive_ _ e1) as [[e2 [x|x]]|]; [done| |done]. cbn. by destruct (closeConnection _ e2) as [[e3 u]|].
Qed.

Lemma wp_eq {A} (m m' : M env A) (Q : A → env → Prop) e : m e = m' e → wp m' Q e → wp m Q e.
Proof. unfold wp. by intros ->. Qed.

Lemma used_wait e0 k r d e : used e0 k (Err r) e → wp (wait d) (λ _ e', used e0 k (Err r) e') e.
Proof.
  intros (Hok & He & Hn & Hs & Hu). apply wp_ext. split_and!; [|done|simpl; lia|done|done].
  eapply quiet_ok; [|exact Hok]. unfold quiet. simpl. split_and!; try done; lia.
Qed.

(** Attempts with retries: between them nothing is sent. *)
Lemma wp_retry_attempt {T} (zero : T) k (f : M env (T * option error)) (sent : T → Prop) e :
  ok e → enabled (acs e) →
  (∀ e, ok e → enabled (acs e) → wp f (λ r e', match r.2 with
     | None => sent r.1 ∧ ∃ x, used e k (Ok x) e'
     | Some _ => ∃ x, used e k (Err x) e'
     end) e) →
  wp (Retry.RunWithResponse zero wait 5 defaultRetrypolicy (Some f))
     (λ o e', ∃ r, o = Some r ∧ match r.2 with
        | None => sent r.1 ∧ ∃ x, used e k (Ok x) e'
        | Some _ => ∃ x, used e k (Err x) e'
        end) e.
Proof.
  intros Hok He Hf. unfold Retry.RunWithResponse.
  apply (Retry.wp_retry_loop_err wait _ (λ e', ok e' ∧ enabled (acs e') ∧ calls e ≤ calls e' ∧ sents e' = sents e)); try done.
  - intros e1 (H1 & H2 & H3 & H4). eapply wp_mono; [by apply Hf|]. intros [r [x|]] e2; simpl.
    + intros (y & U1 & U2 & U3 & U4 & U5). split; [split_and!; [done|done|lia|congruence]|]. intros _. exists y. split_and!; [done|done|lia|congruence|done].
    + intros [Hr (y & U1 & U2 & U3 & U4)]. split; [done|]. exists y. split_and!; [done|done|lia|congruence].
  - intros d e1 r (H1 & H2 & H3 & H4) Hq. destruct (Hq (ErrMsg "")) as [y Hy]. eapply wp_mono; [by apply (used_wait e k y d)|].
    intros [c|] e2 Hu; simpl; [by exists y|]. destruct Hu as (? & ? & ? & ? & ?). by split_and!.
Qed.

Section message.
Context {Msg : Type} `{AnyPb Msg}.

Lemma wp_enabled (Q : bool → env → Prop) e : ok e → enabled (acs e) →
  (∀ e', ok e' → enabled (acs e') → sents e' = sents e → Q true e') → wp isACSEnabled Q e.
Proof.
  intros Hok He HQ. eapply wp_mono; [apply wp_isACSEnabled|]. intros b e1 (Hq & Hb & Ht). rewrite (Ht He) in *.
  apply HQ; [by eapply quiet_ok|by apply Hb|]. unfold sents. by destruct Hq as [-> _].
Qed.

Lemma wp_Send lbls (msg : Msg) any e : ok e → enabled (acs e) → anypb_New msg = Ok any →
  wp (Send lbls msg) (λ err e', ok e' ∧
    match err with
    | None => sents e' = sents e ++ [mkBody lbls any]
    | Some _ => sents e' = sents e ∧ isConnectionSet (acs e') = false
    end) e.
Proof.
  intros Hok He Hany. unfold Send. apply wp_bind, wp_enabled; [done|done|]. intros e1 Hok1 He1 Hs1. cbn [negb]. rewrite Hany.
  apply wp_bind. unfold Retry.Run. apply wp_bind. eapply wp_mono; [apply (wp_retry_attempt tt (KStream (mkBody lbls any)) _ (λ _, True)); [done|done|]|].
  - clear e e1 Hok He Hok1 He1 Hs1. intros e Hok He. apply wp_bind, wp_bind. eapply wp_eq; [apply sendStream_attempt|].
    apply wp_bind. eapply wp_mono; [by apply wp_attempt|]. intros [r|x] e1 Hu; repeat apply wp_ret; simpl; eauto.
  - intros o e2 ([[] [x|]] & -> & Hr); repeat apply wp_ret; simpl in *.
    + destruct Hr as (y & U1 & _ & _ & U2 & U3). split_and!; [done|congruence|done].
    + destruct Hr as (_ & y & U1 & _ & _ & U2). split; [done|]. by rewrite U2, Hs1.
Qed.

Lemma wp_SendMessage lbls (msg : Msg) any e : ok e → enabled (acs e) → anypb_New msg = Ok any →
  wp (SendMessage lbls msg) (λ r e', ok e' ∧
    match r with
    | Ok resp => is_Some resp ∧ sents e' = sents e ++ [mkBody lbls any]
    | Err _ => sents e' = sents e ∧ isConnectionSet (acs e') = false
    end) e.
Proof.
  intros Hok He Hany. unfold SendMessage. apply wp_bind, wp_enabled; [done|done|]. intros e1 Hok1 He1 Hs1. cbn [negb]. rewrite Hany.
  apply wp_bind. eapply wp_mono; [apply (wp_retry_attempt None (KMessage (mkBody lbls any)) _ is_Some); [done|done|]|].
  - clear e e1 Hok He Hok1 He1 Hs1. intros e Hok He. apply wp_bind. eapply wp_eq; [apply sendMessage_attempt|].
    apply wp_bind. eapply wp_mono; [by apply wp_attempt|]. intros [r|x] e1 Hu; repeat apply wp_ret; [destruct r|]; simpl; eauto.
  - intros o e2 ([resp [x|]] & -> & Hr); apply wp_bind; repeat apply wp_ret; simpl in *.
    + destruct Hr as (y & U1 & _ & _ & U2 & U3). split_and!; [done|congruence|done].
    + destruct Hr as (Hs & y & U1 & _ & _ & U2). split; [done|]. split; [done|]. by rewrite U2, Hs1.
Qed.
End message.

(** ** Watching *)

(** A watch of an enabled client never returns without a message or an error. *)
Lemma wp_Watch fuel e : ok e → enabled (acs e) → (Z.of_nat fuel < 2 ^ 62)%Z →
  wp (Watch fuel) (λ o e', ok e' ∧ enabled (acs e') ∧ o ≠ Some (Ok None)) e.
Proof.
  intros Hok He Hf. unfold Watch. apply wp_bind, wp_enabled; [done|done|]. intros e1 Hok1 He1 _. cbn [negb]. apply wp_bind.
  unfold Retry.RunWithResponse. eapply wp_mono.
  - apply (Retry.wp_retry_forever wait
      (λ o e', ok e' ∧ enabled (acs e') ∧ match o with Some (r, None) => is_Some r | _ => True end)
      (λ e', ok e' ∧ enabled (acs e'))); try done.
    + intros e2 [Hok2 He2]. apply wp_bind. eapply wp_eq; [apply receiveStream_attempt|]. apply wp_bind.
      eapply wp_mono; [by apply wp_attempt|]. intros r e3 (U1 & U2 & _ & _). destruct r as [[]|x]; repeat apply wp_ret; simpl; eauto.
    + intros d e2 r [Hok2 He2]. apply wp_ext. assert (Hok3 : ok (mkEnv (acs e2) (S (calls e2)) (log e2))).
      { eapply quiet_ok; [|exact Hok2]. unfold quiet. simpl. split_and!; try done; lia. }
      by destruct (timer_wait _).
    + naive_solver.
    + lia.
  - intros [[r [x|]]|] e2 (H1 & H2 & H3); apply wp_ret; simpl; split_and!; try done. by destruct H3 as [m ->].
Qed.

Section watching.
(** From call [N] on the service answers; the agent is not stopped. *)
Variable N : nat.
Hypothesis up : ∀ n, N ≤ n →
  (∀ a, grpc_NewClient n a = None) ∧ (∀ o, library_NewClient n o = None) ∧ (∀ ch, library_NewConnection n ch = None) ∧
  ∀ i, ∃ m, conn_Receive n i = Ok m.
Hypothesis running : ∀ n, timer_wait n = None.

Lemma wp_connect_up e : N ≤ calls e → wp connect (λ err _, err = None) e.
Proof.
  intros Hn. unfold connect. apply wp_bind. eapply wp_mono; [apply wp_isACSEnabled|]. intros en e1 ((_ & Hn1 & _) & _).
  destruct en; cbn [negb]; [|by apply wp_ret]. apply wp_bind, wp_gets. destruct (shouldReconnect (acs e1)); cbn [negb]; [|by apply wp_ret].
  apply wp_bind, wp_modify, wp_bind. apply (wp_mono _ (λ o e2, (∃ l, o = Ok l) ∧ N ≤ calls e2)).
  - unfold clientOptions. destruct (bool_decide _); [apply wp_ret; split; [by eexists|simpl; lia]|]. apply wp_bind, wp_ext.
    destruct (up (calls e1)) as [Hg _]; [lia|]. cbn [calls acs log]. rewrite Hg. apply wp_ret. split; [by eexists|simpl; lia].
  - intros o e2 [[l ->] Hn2]. apply wp_bind, wp_gets, wp_bind, wp_ext. destruct (up (calls e2) Hn2) as (_ & -> & _).
    apply wp_bind, wp_modify, wp_bind, wp_modify, wp_bind, wp_gets. cbn [acs calls log]. apply wp_bind, wp_ext. cbn [acs calls log].
    destruct (up (S (calls e2))) as (_ & _ & -> & _); [lia|]. done.
Qed.

Lemma wp_attempt_up e : ok e → enabled (acs e) → N ≤ calls e → wp (attempt KReceive) (λ r _, ∃ m, r = Ok (RMessage m)) e.
Proof.
  intros Hok He Hn. unfold attempt. apply wp_bind. eapply wp_mono; [apply wp_and; [by apply wp_connect|by apply wp_connect_up]|].
  intros err e1 [[_ _ H3 _ H5 _] ->]. destruct (H5 eq_refl He) as (_ & c & kc & Ec & Ek). apply wp_bind, wp_gets, wp_bind. rewrite Ec.
  cbn [call Receive_]. apply wp_bind, wp_bind, wp_ext. destruct (up (calls e1)) as (_ & _ & _ & Hr); [lia|].
  destruct (Hr c) as [m ->]. repeat apply wp_ret. by eexists.
Qed.

Lemma wp_watch_loop f attempt e : ok e → enabled (acs e) → N ≤ calls e + f → (0 ≤ attempt)%Z → (attempt + Z.of_nat f < 2 ^ 62)%Z →
  wp (Retry.retry_loop wait (S f) attempt watcherRetrypolicy
        (r ← receiveStream; mret (wrap "unable to listen on stream for new message, err" None (on_ok Some r))))
     (λ o _, ∃ m, o = Some (Some m, None)) e.
Proof.
  revert attempt e. induction f as [|f IH]; intros at_ e Hok He Hn Hat Hlt.
  - cbn [Retry.retry_loop]. apply wp_bind, wp_bind. eapply wp_eq; [apply receiveStream_attempt|]. apply wp_bind.
    eapply wp_mono; [apply wp_attempt_up; [done|done|lia]|]. intros r e1 [m ->]. repeat apply wp_ret. by eexists.
  - remember (S f) as f1 eqn:Ef. cbn [Retry.retry_loop]. subst f1. apply wp_bind, wp_bind. eapply wp_eq; [apply receiveStream_attempt|]. apply wp_bind.
    eapply wp_mono; [apply wp_and; [by apply wp_attempt|]|].
    { assert (Ht : wp (attempt KReceive) (λ r _, ∀ x, r = Ok x → ∃ m, x = RMessage m) e); [|exact Ht].
      unfold attempt. apply wp_bind. eapply wp_mono; [by apply wp_connect|]. intros [x|] e1 Hc; [by apply wp_ret|].
      destruct (cd_ready _ _ _ Hc eq_refl He) as (_ & c & kc & Ec & Ek). apply wp_bind, wp_gets, wp_bind. rewrite Ec.
      apply wp_bind, wp_bind, wp_ext. destruct (conn_Receive _ _) as [m|x]; [repeat apply wp_ret; intros y [= <-]; by eexists|].
      apply wp_bind. cbn [failed emit]. apply wp_modify. do 2 apply wp_ret. apply wp_bind. unfold wp at 1.
      rewrite (closeConnection_open _ c kc) by done. by apply wp_ret. }
    intros r e1 [(U1 & U2 & U3 & U4) Hm]. destruct r as [y|x].
    + destruct (Hm y eq_refl) as [m ->]. repeat apply wp_ret. by eexists.
    + repeat apply wp_ret. cbn [wrap on_ok]. unfold Retry.isRetriable, watcherRetrypolicy. cbn [Retry.ShouldRetry Retry.MaxAttempts negb].
      rewrite Retry.int64_wrap_small by lia. destruct (Z.eqb_spec (at_ + 1) 0); [lia|]. apply wp_bind. unfold wait. apply wp_ext. rewrite running.
      apply IH; simpl; [|done|lia|lia|lia]. eapply quiet_ok; [|exact U1]. unfold quiet. simpl. split_and!; try done; lia.
Qed.

Lemma wp_Watch_up e : ok e → enabled (acs e) → (Z.of_nat N < 2 ^ 62)%Z → wp (Watch (S N)) (λ o _, ∃ m, o = Some (Ok (Some m))) e.
Proof.
  intros Hok He Hlt. unfold Watch. apply wp_bind, wp_enabled; [done|done|]. intros e1 Hok1 He1 _. cbn [negb].
  apply wp_bind. unfold Retry.RunWithResponse. eapply wp_mono; [apply wp_watch_loop; [done|done|lia|lia|lia]|].
  intros o e2 [m ->]. apply wp_ret. by eexists.
Qed.
End watching.
End facts.

(** ** The theorems *)
Section theorems.
Context `{AcsConfig} `{AcsWorld}.

(** C12. However the goroutines interleave and whatever fails, the shared
    connection is well typed: while it is marked as set it is a pointer to a
    connection over its client, both opened and neither closed; and no
    goroutine that is past connecting holds a nil interface. *)
Theorem connection_typed s : reachable s →
  typed (acs (st_env s)) (log (st_env s)) ∧
  ∀ i k p, routines s !! i = Some (k, p) →
    match p with
    | AtRead => connection (acs (st_env s)) ≠ NilInterface
    | AtCall _ _ c | AtClose c _ => c ≠ NilInterface
    | _ => True
    end.
Proof.
  intros Hr%reachable_good. split; [apply Hr|]. intros i k p Hi. destruct (good_routines _ Hr _ _ _ Hi) as [_ Hp].
  destruct p; try done; apply Hp.
Qed.

(** C13. A failure that is noticed late never costs another goroutine its
    connection: only connections with a failed call are closed, so after a new
    connection was made the stale failures of the old one leave it open. *)
Theorem late_failures_spare s c : reachable s → Closed c ∈ log (st_env s) → Failed c ∈ log (st_env s).
Proof. intros Hr%reachable_good. apply Hr. Qed.

(** Goroutines panic only in methods of the library on nil pointers. *)
Theorem panics_on_nil_pointers s : (∀ n, nil_method n ≠ None) → reachable s → ¬ panics s.
Proof.
  intros Hnil Hr%reachable_good (i & k & p & Hi & Hp). destruct (stage_total k p _ Hnil (good_env _ Hr) (good_routines _ Hr _ _ _ Hi)) as [x Hx].
  congruence.
Qed.

(** C14. With one goroutine, whatever fails, sending never panics and always
    ends: without an error the message was sent exactly once, and with one it
    was not sent and no connection is left in use, so that the next send makes
    a new one. *)
Theorem Send_once {Msg} `{AnyPb Msg} lbls (msg : Msg) any e :
  ok e → enabled (acs e) → anypb_New msg = Ok any →
  ∃ e' err, Send lbls msg e = Some (e', err) ∧ ok e' ∧
    match err with
    | None => sents e' = sents e ++ [mkBody lbls any]
    | Some _ => sents e' = sents e ∧ isConnectionSet (acs e') = false
    end.
Proof.
  intros Hok He Hany. pose proof (wp_Send lbls msg any e Hok He Hany) as Hw. unfold wp in Hw.
  destruct (Send lbls msg e) as [[e' err]|]; [|done]. by exists e', err.
Qed.

(** C15. Watching outlasts any outage: if from some call on the service answers,
    a watch begun before, with any connection, returns a message. *)
Theorem Watch_delivers N e : ok e → enabled (acs e) → (Z.of_nat N < 2 ^ 62)%Z →
  (∀ n, N ≤ n →
    (∀ a, grpc_NewClient n a = None) ∧ (∀ o, library_NewClient n o = None) ∧ (∀ ch, library_NewConnection n ch = None) ∧
    ∀ i, ∃ m, conn_Receive n i = Ok m) →
  (∀ n, timer_wait n = None) →
  ∃ e' m, Watch (S N) e = Some (e', Some (Ok (Some m))).
Proof.
  intros Hok He Hlt Hup Hrun. pose proof (wp_Watch_up N Hup Hrun e Hok He Hlt) as Hw. unfold wp in Hw.
  destruct (Watch (S N) e) as [[e' r]|]; [|done]. destruct Hw as [m ->]. eauto.
Qed.

(** The watcher removes itself exactly when the universe is another one, found
    by its first run, or the client is disabled. *)
Lemma Run_goes_on fuel checked e e' c b r : Run fuel checked e = Some (e', Some (c, (b, r))) →
  b = (ACSClient && (skip_universe_check || checked || mds_IsGDUUniverse (calls e))) ∧ c = (checked || negb skip_universe_check).
Proof.
  unfold Run, mbind, M_bind, mret, M_ret, ext. destruct skip_universe_check, checked, ACSClient; cbn -[Watch];
    try (destruct (mds_IsGDUUniverse (calls e)); cbn -[Watch]); try (intros [= <- <- <- <-]; done);
    match goal with |- context [Watch fuel ?s] => destruct (Watch fuel s) as [[e1 [x|]]|] end; cbn; try done; by intros [= <- <- <- <-].
Qed.
End theorems.

(** ** Examples *)
Definition demo_config : AcsConfig := {|
  ACSClient := true; ChannelID := ""; Endpoint := ""; Host := ""; test_environment := false; skip_universe_check := false |}.

(** [client_fails] and [connection_fails] say which calls fail; every use of a
    connection made before call [broken] fails. *)
Definition demo_world (client_fails connection_fails : nat → bool) (broken : nat) : AcsWorld := {|
  grpc_NewClient := λ _ _, None;
  library_NewClient := λ n _, if client_fails n then Some (ErrMsg "no credentials") else None;
  library_NewConnection := λ n _, if connection_fails n then Some (ErrMsg "unavailable") else None;
  conn_SendMessage := λ _ c _, if decide (c < broken) then Some (ErrMsg "broken pipe") else None;
  conn_Receive := λ n c, if decide (n < broken) then Err (ErrMsg "EOF") else Ok (mkBody ∅ "config");
  library_SendAgentMessage := λ _ _ _ _, Ok "";
  nil_method := λ _, None;
  mds_Get := λ _, Ok (mkDesc "" {["default" := "{}"]});
  mds_IsGDUUniverse := λ _, true;
  timer_wait := λ _, None |}.

Inductive action := Begin (k : kind) | Stage (i : nat) | Retry_ (i : nat).

Section run.
Context `{AcsConfig} `{AcsWorld}.
Definition act (s : state) (a : action) : option state :=
  match a with
  | Begin k => '(e, b) ← isACSEnabled (st_env s); if b : bool then Some (mkState e (routines s ++ [(k, AtConnect)])) else Some (mkState e (routines s))
  | Stage i => '(k, p) ← routines s !! i; '(e, p) ← stage k p (st_env s); Some (mkState e (<[i := (k, p)]> (routines s)))
  | Retry_ i => '(k, p) ← routines s !! i;
      match p with Done (Err _) => Some (mkState (st_env s) (<[i := (k, AtConnect)]> (routines s))) | _ => None end
  end.

Fixpoint acts (s : state) (l : list action) : option state :=
  match l with [] => Some s | a :: l => s ← act s a; acts s l end.

Lemma action_step s a s' : act s a = Some s' → step s s'.
Proof.
  destruct s as [e l], a as [k|i|i]; simpl.
  - intros Ha. destruct (isACSEnabled e) as [[e1 []]|] eqn:E; [| |done]; injection Ha as <-; by econstructor.
  - intros Ha. destruct (l !! i) as [[k p]|] eqn:E; [|done]. simpl in Ha. destruct (stage k p e) as [[e1 p']|] eqn:Es; [|done].
    injection Ha as <-. by econstructor.
  - intros Ha. destruct (l !! i) as [[k [| | | |[]]]|] eqn:E; try done. injection Ha as <-. by econstructor.
Qed.

Lemma actions_reachable l s : acts start l = Some s → reachable s.
Proof.
  assert (Hg : ∀ l s s', acts s l = Some s' → rtc step s s'); [|apply Hg].
  clear. induction l as [|a l IH]; intros s s' Ha; [injection Ha as <-; constructor|]. simpl in Ha.
  destruct (act s a) as [s1|] eqn:E; [|done]. econstructor; [by eapply action_step|by apply IH].
Qed.
End run.

Definition msg_a : kind := KStream (mkBody ∅ "a").
Definition msg_b : kind := KStream (mkBody ∅ "b").

Definition connected_pair : list action :=
  [Begin msg_a; Begin msg_b; Stage 0; Stage 0; Stage 1; Stage 1].

Lemma demo_reachable world l s : @acts demo_config world start l = Some s → @reachable demo_config world s.
Proof. apply actions_reachable. Qed.

(** Both goroutines use connection 2, both calls fail, and the first one has
    made the new connection 6 before the second one closes. *)
Definition overtaken : list action :=
  connected_pair ++ [Stage 0; Stage 1; Stage 0; Retry_ 0; Stage 0; Stage 1].

Definition overtaken_state : state :=
  default start (@acts demo_config (demo_world (λ _, false) (λ _, false) 3) start overtaken).

Lemma connection_typed_witness :
  isConnectionSet (acs (st_env overtaken_state)) = true ∧
  typed (acs (st_env overtaken_state)) (log (st_env overtaken_state)) ∧
  ∀ i k p, routines overtaken_state !! i = Some (k, p) →
    match p with
    | AtRead => connection (acs (st_env overtaken_state)) ≠ NilInterface
    | AtCall _ _ c | AtClose c _ => c ≠ NilInterface
    | _ => True
    end.
Proof.
  split; [vm_compute; reflexivity|].
  apply (@connection_typed demo_config (demo_world (λ _, false) (λ _, false) 3)).
  apply (demo_reachable _ overtaken). vm_compute. reflexivity.
Defined.

Lemma late_failures_spare_witness :
  connection (acs (st_env overtaken_state)) = Connection 6 ∧ Closed 6 ∉ log (st_env overtaken_state) ∧
  Failed 2 ∈ log (st_env overtaken_state).
Proof.
  split_and!; [vm_compute; reflexivity|apply (bool_decide_unpack _); vm_compute; exact I|].
  apply (@late_failures_spare demo_config (demo_world (λ _, false) (λ _, false) 3)).
  - apply (demo_reachable _ overtaken). vm_compute. reflexivity.
  - apply (bool_decide_unpack _). vm_compute. exact I.
Defined.

(** The second goroutine closes a connection whose client is gone: the first
    one closed it and could not make a new client. *)
Example close_without_client :
  ∃ s, @reachable demo_config (demo_world (λ n, Nat.eqb n 5) (λ _, false) 3) s ∧
       @panics demo_config (demo_world (λ n, Nat.eqb n 5) (λ _, false) 3) s ∧ client (acs (st_env s)) = None.
Proof.
  eexists. split; [|split].
  - apply (demo_reachable _ (connected_pair ++ [Stage 0; Stage 1; Stage 0; Retry_ 0; Stage 0])). vm_compute. reflexivity.
  - exists 1. do 2 eexists. split; [reflexivity|]. vm_compute. reflexivity.
  - reflexivity.
Qed.

(** Connecting and reading the connection are two steps: in between, a failed
    reconnection leaves a nil pointer. *)
Example call_on_nil_pointer :
  ∃ s, @reachable demo_config (demo_world (λ _, false) (λ n, Nat.eqb n 5) 3) s ∧
       @panics demo_config (demo_world (λ _, false) (λ n, Nat.eqb n 5) 3) s ∧ connection (acs (st_env s)) = NilPointer.
Proof.
  eexists. split; [|split].
  - apply (demo_reachable _ [Begin msg_a; Begin msg_b; Stage 0; Stage 0; Stage 1; Stage 0; Stage 0; Retry_ 0; Stage 0; Stage 1]).
    vm_compute. reflexivity.
  - exists 1. do 2 eexists. split; [reflexivity|]. vm_compute. reflexivity.
  - reflexivity.
Qed.

Definition fresh : env := mkEnv (mkAcs "" NilInterface None false (Some true)) 0 [].

Lemma fresh_ok : ok fresh.
Proof. split; simpl; try done; intros; set_solver. Qed.

Lemma fresh_enabled : @enabled demo_config (acs fresh).
Proof. split; [done|by right]. Qed.

Definition plain : AnyPb string := Ok.

Lemma Send_once_witness :
  ∃ e' err, @Send demo_config (demo_world (λ _, false) (λ n, Nat.eqb n 1) 5) string plain ∅ "hi" fresh = Some (e', err) ∧ ok e' ∧
    match err with
    | None => sents e' = [mkBody ∅ "hi"]
    | Some _ => sents e' = [] ∧ isConnectionSet (acs e') = false
    end.
Proof.
  apply (@Send_once demo_config (demo_world (λ _, false) (λ n, Nat.eqb n 1) 5) string plain ∅ "hi" "hi" fresh); [apply fresh_ok|apply fresh_enabled|reflexivity].
Defined.

Lemma Watch_delivers_witness :
  ∃ e' m, @Watch demo_config (demo_world (λ n, bool_decide (n < 4)) (λ n, bool_decide (n < 9)) 12) 13 fresh = Some (e', Some (Ok (Some m))).
Proof.
  apply (@Watch_delivers demo_config (demo_world (λ n, bool_decide (n < 4)) (λ n, bool_decide (n < 9)) 12) 12 fresh);
    [apply fresh_ok|apply fresh_enabled|reflexivity| |reflexivity].
  intros n Hn. cbn. split_and!; intros.
  - reflexivity.
  - by rewrite bool_decide_false by lia.
  - by rewrite bool_decide_false by lia.
  - exists (mkBody ∅ "config"). by rewrite decide_False by lia.
Defined.

(** Clients that were made and never closed. *)
Definition open_clients (l : list event) : list nat :=
  filter (λ k, ClosedClient k ∉ l) (omap (λ ev, match ev with NewClient k => Some k | _ => None end) l).

(** Every failure to connect over a new client leaves the client open: a send
    that gives up has leaked five of them. *)
Example Send_leaks_clients :
  (λ r, (length (open_clients (log r.1)), bool_decide (r.2 = None))) <$>
    @Send demo_config (demo_world (λ _, false) (λ _, true) 0) string plain ∅ "hi" fresh = Some (5, false).
Proof. vm_compute. reflexivity. Qed.
End AcsFacts.
