(* ===== verification/AcsHandler.v ===== *)
(** * internal/acs/handler: the messages of the control plane

    handler.go: the callback of the watcher's events, the goroutine of each
    message, and the requests it passes to the plugin manager.  The state is
    the plugin manager's and the client's; [proto.Unmarshal] is a parameter. *)
From stdpp Require Import gmap strings list.
From S2P Require Import Prelude GoStrings Os Retry BoundedList FileUtil OsInfo Plugin PluginSteps Scheduler.
From S2P Require Import PluginManager PluginFacts PluginManagerFacts PluginRequests PluginHandlers Acs AcsFacts.

Module AcsHandler.
Import Plugin PluginSteps PluginManager PluginFacts PluginManagerFacts PluginRequests PluginHandlers.

Definition messageTypeLabel : string := "message_type".
Definition getAgentInfoMsg : string := "agent_controlplane.GetAgentInfo".
Definition agentInfoMsg : string := "agent_controlplane.AgentInfo".
Definition getOSInfoMsg : string := "agent_controlplane.GetOSInfo".
Definition osInfoMsg : string := "agent_controlplane.OSInfo".
Definition listPluginStatesMsg : string := "agent_controlplane.ListPluginStates".
Definition currentPluginStatesMsg : string := "agent_controlplane.CurrentPluginStates".
Definition configurePluginStatesMsg : string := "agent_controlplane.ConfigurePluginStates".

Inductive AgentCapability := GET_AGENT_INFO | GET_OS_INFO | LIST_PLUGIN_STATES | CONFIGURE_PLUGIN_STATES | APPLY_PLUGIN_CONFIG.

Record OSInfo_ := mkOSInfo {
  oi_Architecture : string;
  oi_Type : string;
  oi_Version : string;
  oi_ShortName : string;
  oi_LongName : string;
  oi_KernelRelease : string;
  oi_KernelVersion : string;
}.

(** The responses; [None] is a nil pointer to a message. *)
Inductive response :=
| AgentInfo (name architecture : string) (capabilities : list AgentCapability) (version : string)
| OSInfo (info : OSInfo_)
| CurrentPluginStates (states : option (list plugin_state)).

(** What [any] the event carries: a [*MessageBody], nil or not, or another type. *)
Inductive event_data := Body (msg : option Acs.MessageBody) | OtherData.
Record event := mkEvent { ev_Data : event_data; ev_Error : option error }.

Class Requests := {
  unmarshal_ConfigurePluginStates : string → result (list request);
  unmarshal_ListPluginStates : string → result unit;
}.

Class Build := { clientVersion : string; GOARCH : string; GOOS : string }.

Record state := mkState { pm : PM; net : Acs.env; prevReq : option (list request) }.

Definition on_pm {A} : M PM A → M state A := zoom pm (λ m s, mkState m (net s) (prevReq s)).
Definition on_net {A} : M Acs.env A → M state A := zoom net (λ n s, mkState (pm s) n (prevReq s)).

Section handler.
Context `{Config} `{World} `{OsFaults} `{FileUtil.Archives} `{RequestCodec} `{OsInfo.Uname}.
Context `{Acs.AcsConfig} `{Acs.AcsWorld} `{Acs.AnyPb response} `{Requests} `{Build}.
Context (fuel : nat).

Definition agentInfo : response :=
  AgentInfo "GCEGuestAgent" GOARCH
    [GET_AGENT_INFO; GET_OS_INFO; LIST_PLUGIN_STATES; CONFIGURE_PLUGIN_STATES; APPLY_PLUGIN_CONFIG] clientVersion.

Definition osInfo : M state response :=
  info ← on_pm OsInfo.Read;
  mret (OSInfo (mkOSInfo (OsInfo.Architecture info) GOOS (OsInfo.VersionID info) (OsInfo.OS info)
    (OsInfo.PrettyName info) (OsInfo.KernelRelease info) (OsInfo.KernelVersion info))).

(** One request of the message: [inr] fails them all. *)
Definition select (pluginsToConfigure : list request) (c : request) : M PM (list request + unit) :=
  let unsupported := match req_Manifest c with
                     | Some manifest => negb (bool_decide (rm_InstallationType manifest = DYNAMIC_INSTALLATION))
                     | None => false
                     end in
  if unsupported then mret (inr tt)
  else if bool_decide (GetName c = CorePluginName) then mret (inl pluginsToConfigure)
  else
    r ← Fetch (GetName c);
    skip ← (match r with
            | Ok p => loc ← deref p IsLocal; rev ← deref p Revision; mret (loc && bool_decide (GetRevisionId c = rev))
            | Err _ => mret false
            end);
    mret (inl (if skip : bool then pluginsToConfigure else pluginsToConfigure ++ [c])).

Definition configurePluginStates (msg : Acs.MessageBody) : M state unit :=
  match unmarshal_ConfigurePluginStates (Acs.Body msg) with
  | Err _ => mret tt
  | Ok req =>
      r ← on_pm (for_until req [] select);
      match r with
      | inr _ => mret tt
      | inl pluginsToConfigure =>
          _ ← modify (λ s, mkState (pm s) (net s) (Some pluginsToConfigure));
          initialized ← gets (IsInitialized ∘ pm);
          if negb initialized then mret tt
          else on_pm (ConfigurePluginStates fuel pluginsToConfigure)
      end
  end.

Definition listPluginStates (msg : Acs.MessageBody) : M state (option (list plugin_state)) :=
  initialized ← gets (IsInitialized ∘ pm);
  if negb initialized then mret None
  else match unmarshal_ListPluginStates (Acs.Body msg) with
  | Err _ => mret None
  | Ok _ => states ← on_pm ListPluginStates; mret (Some states)
  end.

(** The switch: the response with its type, or none. *)
Definition respond (messageType : string) (msg : Acs.MessageBody) : M state (option (string * response)) :=
  if bool_decide (messageType = getAgentInfoMsg) then mret (Some (agentInfoMsg, agentInfo))
  else if bool_decide (messageType = getOSInfoMsg) then (r ← osInfo; mret (Some (osInfoMsg, r)))
  else if bool_decide (messageType = listPluginStatesMsg) then
    (* a nil pointer in the interface is not a nil interface *)
    (r ← listPluginStates msg; mret (Some (currentPluginStatesMsg, CurrentPluginStates r)))
  else if bool_decide (messageType = configurePluginStatesMsg) then (_ ← configurePluginStates msg; mret None)
  else mret None.

(** The goroutine of a message. *)
Definition handle (msg : option Acs.MessageBody) : M state unit :=
  msg ← some_or_panic msg;
  let labels := Acs.Labels msg in
  let messageType := default "" (labels !! messageTypeLabel) in
  resp ← respond messageType msg;
  match resp with
  | None => mret tt
  | Some (label, resp) => _ ← on_net (Acs.Send (<[messageTypeLabel := label]> labels) resp); mret tt
  end.

(** Whether to renew, whether nothing was done, the error; and the message a
    goroutine is started for. *)
Definition handleMessage (e : event) : (bool * bool * option error) * option (option Acs.MessageBody) :=
  ((true, true, None),
   match ev_Error e with
   | Some _ => None
   | None => match ev_Data e with Body msg => Some msg | OtherData => None end
   end).

(** ** The requests that are passed on *)
Definition supported (c : request) : bool :=
  match req_Manifest c with
  | Some manifest => bool_decide (rm_InstallationType manifest = DYNAMIC_INSTALLATION)
  | None => true
  end.

(** A request for a local plugin in the revision that is installed. *)
Definition already_local (s : PM) (c : request) : bool :=
  match p ← plugins s !! GetName c; heap s !! p with
  | Some x => IsLocal x && bool_decide (GetRevisionId c = Revision x)
  | None => false
  end.

Definition accepted (s : PM) (c : request) : Prop := GetName c ≠ CorePluginName ∧ already_local s c = false.
#[global] Instance accepted_dec s c : Decision (accepted s c).
Proof. unfold accepted. apply _. Defined.

Lemma run_select acc c s : wf s →
  select acc c s =
  Some (s, if supported c then inl (if bool_decide (accepted s c) then acc ++ [c] else acc) else inr tt).
Proof.
  intros Hwf. unfold select, supported. destruct (match req_Manifest c with Some _ => _ | None => _ end) eqn:Eu.
  { destruct (req_Manifest c) as [m|]; [|done]. by rewrite (negb_true_iff _) in Eu; rewrite Eu. }
  assert (Es : (match req_Manifest c with Some m => bool_decide (rm_InstallationType m = DYNAMIC_INSTALLATION) | None => true end) = true).
  { destruct (req_Manifest c) as [m|]; [|done]. by apply negb_false_iff in Eu. }
  rewrite Es. clear Eu Es. case_bool_decide as Hc.
  { rewrite bool_decide_false; [done|]. by intros [? _]. }
  assert (Ha : bool_decide (accepted s c) = negb (already_local s c)).
  { unfold accepted. case_bool_decide as Ha; destruct (already_local s c); naive_solver. }
  rewrite Ha. unfold Fetch, gets, mbind, M_bind, already_local. destruct (plugins s !! GetName c) as [p|] eqn:Ep; [|done].
  destruct (Hwf _ _ Ep) as (x & Hx & _). cbn beta iota. rewrite (run_deref p x IsLocal s Hx). cbn beta iota.
  rewrite (run_deref p x Revision s Hx). unfold mret, M_ret. cbn [mbind option_bind]. rewrite Hx.
  by destruct (IsLocal x && bool_decide (GetRevisionId c = Revision x)).
Qed.

Lemma run_selects reqs acc s : wf s →
  for_until reqs acc select s =
  Some (s, if forallb supported reqs then inl (acc ++ filter (accepted s) reqs) else inr tt).
Proof.
  intros Hwf. revert acc. induction reqs as [|c reqs IH]; intros acc; [cbn; by rewrite app_nil_r|].
  cbn [for_until forallb]. unfold mbind, M_bind. rewrite (run_select acc c s Hwf). cbn beta iota.
  destruct (supported c); [|done]. rewrite IH. cbn [andb]. rewrite filter_cons.
  case_bool_decide as Ha; [rewrite decide_True by done|by rewrite decide_False by done]. by rewrite <-app_assoc.
Qed.

(** C11. A message to configure plugins is passed to the plugin manager as a
    whole or not at all: with a manifest of a plugin that is not dynamic
    nothing happens, and otherwise exactly the requests that are neither for
    the core plugin nor for a local plugin in the revision it has are passed
    on, in their order, once the manager is initialised. *)
Theorem configurePluginStates_forwards msg reqs s : wf (pm s) →
  unmarshal_ConfigurePluginStates (Acs.Body msg) = Ok reqs →
  configurePluginStates msg s =
  if forallb supported reqs then
    let forwarded := filter (accepted (pm s)) reqs in
    if IsInitialized (pm s) then
      '(m, _) ← ConfigurePluginStates fuel forwarded (pm s); Some (mkState m (net s) (Some forwarded), tt)
    else Some (mkState (pm s) (net s) (Some forwarded), tt)
  else Some (s, tt).
Proof.
  intros Hwf Hm. unfold configurePluginStates. rewrite Hm.
  assert (E : on_pm (for_until reqs [] select) s = Some (s, if forallb supported reqs then inl (filter (accepted (pm s)) reqs) else inr tt)).
  { unfold on_pm, zoom. rewrite (run_selects reqs [] (pm s) Hwf). by destruct s. }
  unfold mbind at 1, M_bind. rewrite E. destruct (forallb supported reqs); [|done].
  cbv zeta. unfold modify, gets, compose, mbind at 1 2, M_bind. cbn [pm net prevReq].
  destruct (IsInitialized (pm s)); cbn [negb]; [|done]. unfold on_pm, zoom. cbn [pm net prevReq].
  by destruct (ConfigurePluginStates _ _ _) as [[m []]|].
Qed.

(** ** Answers *)
Definition body_of (m : Acs.MessageBody) (label any : string) : Acs.MessageBody :=
  Acs.mkBody (<[messageTypeLabel := label]> (Acs.Labels m)) any.

Lemma wp_send_answer msg label resp any s : AcsFacts.ok (net s) → AcsFacts.enabled (Acs.acs (net s)) → Acs.anypb_New resp = Ok any →
  wp (_ ← on_net (Acs.Send (<[messageTypeLabel := label]> (Acs.Labels msg)) resp); mret tt)
     (λ _ s', pm s' = pm s ∧ prevReq s' = prevReq s ∧
        (AcsFacts.sents (net s') = AcsFacts.sents (net s) ∨
         AcsFacts.sents (net s') = AcsFacts.sents (net s) ++ [body_of msg label any])) s.
Proof.
  intros Hok He Ha. apply wp_bind, wp_zoom. eapply wp_mono; [by apply AcsFacts.wp_Send|].
  intros err e [_ Hs]. apply wp_ret. cbn [pm net prevReq]. split_and!; [done|done|]. destruct err; [left; apply Hs|by right].
Qed.

Lemma total_osInfo : total osInfo.
Proof.
  unfold osInfo. apply total_bind; [|intros; apply total_ret]. apply total_zoom. unfold OsInfo.Read, OsInfo.parseRelease. total_solve.
Qed.

Lemma frame_osInfo : respects (λ s s', net s' = net s ∧ prevReq s' = prevReq s) osInfo.
Proof.
  assert (Hp : PreOrder (λ s s' : state, net s' = net s ∧ prevReq s' = prevReq s)) by (split; [done|intros a b c [-> ->] [-> ->]; done]).
  unfold osInfo. respects_solve. by apply respects_zoom.
Qed.

Definition heartbeats : gmap string string := {[getAgentInfoMsg := agentInfoMsg; getOSInfoMsg := osInfoMsg]}.

Lemma wp_heartbeat msg label mt s : AcsFacts.ok (net s) → AcsFacts.enabled (Acs.acs (net s)) → (∀ r : response, ∃ any, Acs.anypb_New r = Ok any) →
  Acs.Labels msg !! messageTypeLabel = Some mt → heartbeats !! mt = Some label →
  wp (handle (Some msg)) (λ _ s', prevReq s' = prevReq s ∧
    (AcsFacts.sents (net s') = AcsFacts.sents (net s) ∨
     ∃ resp any, Acs.anypb_New resp = Ok any ∧ AcsFacts.sents (net s') = AcsFacts.sents (net s) ++ [body_of msg label any])) s.
Proof.
  intros Hok He Hany Hmt Hl. unfold handle. apply wp_bind, wp_ret. rewrite Hmt. cbn [default]. unfold heartbeats in Hl.
  assert (Hsend : ∀ resp s1, net s1 = net s → prevReq s1 = prevReq s →
    wp (_ ← on_net (Acs.Send (<[messageTypeLabel := label]> (Acs.Labels msg)) resp); mret tt)
     (λ _ s', prevReq s' = prevReq s ∧ (AcsFacts.sents (net s') = AcsFacts.sents (net s) ∨
       ∃ resp any, Acs.anypb_New resp = Ok any ∧ AcsFacts.sents (net s') = AcsFacts.sents (net s) ++ [body_of msg label any])) s1).
  { intros resp s1 En Ep. destruct (Hany resp) as [any Ha]. eapply wp_mono; [apply (wp_send_answer msg label resp any s1); rewrite ?En; done|].
    intros _ s2 (_ & E2 & E3). rewrite En in E3. split; [congruence|]. destruct E3 as [E3|E3]; [by left|]. right. by exists resp, any. }
  apply wp_bind. unfold respond. apply lookup_insert_Some in Hl as [[<- <-]|[Hne Hl]].
  - rewrite (bool_decide_true (getAgentInfoMsg = getAgentInfoMsg)) by done. apply wp_ret. by apply Hsend.
  - apply lookup_singleton_Some in Hl as [<- <-]. rewrite (bool_decide_false (getOSInfoMsg = getAgentInfoMsg)), (bool_decide_true (getOSInfoMsg = getOSInfoMsg)) by done.
    apply wp_bind. eapply wp_total_respects; [apply total_osInfo|apply frame_osInfo|]. intros r s1 [En Ep]. apply wp_ret. by apply Hsend.
Qed.

(** The heartbeats of the control plane are answered once, with their labels
    and the type of the answer, or the connection failed; the plugins and the
    requests are left alone. *)
Theorem handle_heartbeat msg label mt s : AcsFacts.ok (net s) → AcsFacts.enabled (Acs.acs (net s)) →
  (∀ r : response, ∃ any, Acs.anypb_New r = Ok any) →
  Acs.Labels msg !! messageTypeLabel = Some mt → heartbeats !! mt = Some label →
  ∃ s', handle (Some msg) s = Some (s', tt) ∧ prevReq s' = prevReq s ∧
    (AcsFacts.sents (net s') = AcsFacts.sents (net s) ∨
     ∃ resp any, Acs.anypb_New resp = Ok any ∧ AcsFacts.sents (net s') = AcsFacts.sents (net s) ++ [body_of msg label any]).
Proof.
  intros Hok He Hany Hmt Hl. pose proof (wp_heartbeat msg label mt s Hok He Hany Hmt Hl) as Hw. unfold wp in Hw.
  destruct (handle (Some msg) s) as [[s' []]|]; [|done]. destruct Hw as [? ?]. by exists s'.
Qed.

(** A type that is not known changes nothing. *)
Theorem handle_unknown msg s :
  default "" (Acs.Labels msg !! messageTypeLabel) ∉ [getAgentInfoMsg; getOSInfoMsg; listPluginStatesMsg; configurePluginStatesMsg] →
  handle (Some msg) s = Some (s, tt).
Proof.
  intros Hn. unfold handle, mbind, M_bind, some_or_panic, mret, M_ret, respond.
  rewrite !bool_decide_false by set_solver. done.
Qed.

(** The callback never ends its subscription and starts a goroutine only for a
    message without an error. *)
Theorem handleMessage_goes_on e :
  (handleMessage e).1 = (true, true, None) ∧ ∀ msg, (handleMessage e).2 = Some msg → ev_Error e = None ∧ ev_Data e = Body msg.
Proof. unfold handleMessage. split; [done|]. by destruct e as [[] []]; intros ? [= <-]. Qed.

(** ** From the watcher to the handler *)

(** The event the manager makes of a run: nil of a [*MessageBody] is a value of
    its type, a literal nil is not. *)
Definition event_of (r : bool * result (option Acs.MessageBody)) : event :=
  match r with
  | (true, Ok msg) => mkEvent (Body msg) None
  | (true, Err e) => mkEvent OtherData (Some e)
  | (false, _) => mkEvent OtherData None
  end.

(** Once the client was found enabled, no run of the watcher makes an
    event whose goroutine is started for a nil message, which would end the
    agent. *)
Theorem watcher_messages_not_nil wfuel checked e : AcsFacts.ok e → AcsFacts.enabled (Acs.acs e) → (Z.of_nat wfuel < 2 ^ 62)%Z →
  ∃ e' r, Acs.Run wfuel checked e = Some (e', r) ∧
    ∀ c run msg, r = Some (c, run) → (handleMessage (event_of run)).2 = Some msg → is_Some msg.
Proof.
  intros Hok He Hf. pose proof He as [Hacs _].
  assert (Hw : wp (Acs.Run wfuel checked) (λ r _, ∀ c run msg, r = Some (c, run) → (handleMessage (event_of run)).2 = Some msg → is_Some msg) e).
  { unfold Acs.Run. apply wp_bind. apply (wp_mono _ (λ _ e1, AcsFacts.ok e1 ∧ AcsFacts.enabled (Acs.acs e1))).
    - destruct (negb _ && negb _); [|by apply wp_ret]. apply AcsFacts.wp_ext. split; [|done].
      eapply AcsFacts.quiet_ok; [|exact Hok]. unfold AcsFacts.quiet. cbn. split_and!; try done; lia.
    - intros gdu e1 [Hok1 He1]. destruct gdu; cbn [negb]; [|by apply wp_ret; intros ? ? ? [= <- <-]]. rewrite Hacs. cbn [negb].
      apply wp_bind. eapply wp_mono; [by apply AcsFacts.wp_Watch|]. intros o e2 (_ & _ & Hn). apply wp_ret.
      intros c run msg Hr Hm. destruct o as [[[m|]|x]|]; [|done| |done]; injection Hr as <- <-; [|done]. injection Hm as <-. by eexists. }
  unfold wp in Hw. destruct (Acs.Run wfuel checked e) as [[e' r]|]; [|done]. by exists e', r.
Qed.
End handler.

(** ** Examples *)
Section examples.
#[local] Existing Instance example_config.
#[local] Existing Instance no_faults.
#[local] Existing Instance plain_archives.
#[local] Existing Instance example_world.
#[local] Existing Instance example_codec.

Definition core_request : request := mkRequest REMOVE (Some (mkReqPlugin CorePluginName "2" "" "" "" [])) None.
Definition message (type : string) : Acs.MessageBody := Acs.mkBody {["message_type" := type; "request_id" := "r1"]} "body".

#[local] Instance demo_requests : Requests := {|
  unmarshal_ConfigurePluginStates := λ _, Ok [core_request; example_req REMOVE "1"];
  unmarshal_ListPluginStates := λ _, Ok tt |}.
#[local] Instance demo_build : Build := {| clientVersion := "1.0"; GOARCH := "amd64"; GOOS := "linux" |}.
#[local] Instance demo_uname : OsInfo.Uname := None.
#[local] Instance demo_acs : Acs.AcsConfig := AcsFacts.demo_config.
#[local] Instance demo_net : Acs.AcsWorld := AcsFacts.demo_world (λ _, false) (λ _, false) 0.

(** Messages as their first field, an absent list as the empty message. *)
#[local] Instance demo_any : Acs.AnyPb response := λ r,
  Ok (match r with
      | AgentInfo n _ _ v => n +:+ v
      | OSInfo i => "linux"
      | CurrentPluginStates (Some (_ :: _)) => "states"
      | CurrentPluginStates _ => ""
      end).

Definition demo_state (m : PM) : state := mkState m AcsFacts.fresh None.

Definition ready_pm : PM := set_IsInitialized true running_pm.

Lemma wf_set_IsInitialized b m : wf m → wf (set_IsInitialized b m).
Proof. done. Qed.

Lemma ready_pm_wf : wf ready_pm.
Proof. apply wf_set_IsInitialized, running_pm_wf. Qed.

Lemma configurePluginStates_forwards_witness :
  (λ r, (prevReq r.1, plugins (pm r.1))) <$> configurePluginStates 20 (message configurePluginStatesMsg) (demo_state ready_pm)
  = Some (Some [example_req REMOVE "1"], ∅).
Proof.
  rewrite (configurePluginStates_forwards 20 (message configurePluginStatesMsg) [core_request; example_req REMOVE "1"]
    (demo_state ready_pm) ready_pm_wf); [|reflexivity]. vm_compute. reflexivity.
Defined.

Lemma handle_heartbeat_witness :
  ∃ s', handle 20 (Some (message getAgentInfoMsg)) (demo_state empty_pm) = Some (s', tt) ∧ prevReq s' = None ∧
    (AcsFacts.sents (net s') = [] ∨
     ∃ resp any, Acs.anypb_New resp = Ok any ∧ AcsFacts.sents (net s') = [] ++ [body_of (message getAgentInfoMsg) agentInfoMsg any]).
Proof.
  apply (handle_heartbeat 20 (message getAgentInfoMsg) agentInfoMsg getAgentInfoMsg (demo_state empty_pm));
    [apply AcsFacts.fresh_ok|apply AcsFacts.fresh_enabled|intros r; by eexists|reflexivity|reflexivity].
Defined.

Lemma watcher_messages_not_nil_witness :
  ∃ e' r, Acs.Run 5 false AcsFacts.fresh = Some (e', r) ∧
    ∀ c run msg, r = Some (c, run) → (handleMessage (event_of run)).2 = Some msg → is_Some msg.
Proof. apply (watcher_messages_not_nil 5 false AcsFacts.fresh); [apply AcsFacts.fresh_ok|apply AcsFacts.fresh_enabled|reflexivity]. Defined.

(** Before the plugin manager is initialised a request for the plugins is
    answered with an empty message, which says that there are none. *)
Example list_before_initialisation :
  (λ r, AcsFacts.sents (net r.1)) <$> handle 20 (Some (message listPluginStatesMsg)) (demo_state (set_IsInitialized false running_pm))
  = Some [Acs.mkBody {["message_type" := currentPluginStatesMsg; "request_id" := "r1"]} ""].
Proof. vm_compute. reflexivity. Qed.

(** A first watch that cannot read the metadata ends the agent: the watcher
    reports a nil message and the goroutine of the handler reads its labels. *)
Definition no_metadata : Acs.AcsWorld := {|
  Acs.grpc_NewClient := λ _ _, None; Acs.library_NewClient := λ _ _, None; Acs.library_NewConnection := λ _ _, None;
  Acs.conn_SendMessage := λ _ _ _, None; Acs.conn_Receive := λ _ _, Ok (Acs.mkBody ∅ "");
  Acs.library_SendAgentMessage := λ _ _ _ _, Ok ""; Acs.nil_method := λ _, None;
  Acs.mds_Get := λ _, Err (ErrMsg "timeout"); Acs.mds_IsGDUUniverse := λ _, true; Acs.timer_wait := λ _, None |}.

Example first_watch_without_metadata :
  ∃ e c run, @Acs.Run demo_acs no_metadata 5 false (Acs.mkEnv Acs.no_acs 0 []) = Some (e, Some (c, run)) ∧
    (handleMessage (event_of run)).2 = Some None ∧ ∀ s, handle 20 None s = None.
Proof. do 3 eexists. split; [vm_compute; reflexivity|]. split; [reflexivity|done]. Qed.
End examples.
End AcsHandler.
