(* ===== verification/ShellQuote.v ===== *)
(** * guest_telemetry_extension/isvdiscovery/engine: command lines for a shell

    [shellQuote] and [shellQuoteSlice] of engine.go, next to a reader of the
    words of such a command line: the quoting rules of the POSIX shell, for
    lines that consist of words alone.  Whatever else a shell knows, operators,
    substitutions of commands, patterns, makes the reader refuse the line. *)
From S2P Require Import Prelude GoStrings.

Module ShellQuote.

Definition dquote : byte := byte_of 34.
Definition dollar : byte := byte_of 36.
Definition squote : byte := byte_of 39.
Definition backslash : byte := byte_of 92.
Definition backtick : byte := byte_of 96.
Definition lbrace : byte := byte_of 123.
Definition rbrace : byte := byte_of 125.
Definition blank : byte := byte_of 32.

Definition between (lo hi : N) (b : byte) : bool := (lo <=? Ascii.N_of_ascii b)%N && (Ascii.N_of_ascii b <=? hi)%N.
Definition is_letter (b : byte) : bool := between 97 122 b || between 65 90 b.
Definition is_digit (b : byte) : bool := between 48 57 b.
(** The first byte of a variable's name, and the others: [\w]. *)
Definition name_start (b : byte) : bool := is_letter b || beqb b (byte_of 95).
Definition name_char (b : byte) : bool := name_start b || is_digit b.
(** [[a-zA-Z0-9_./=-]]. *)
Definition safe_char (b : byte) : bool := name_char b || existsb (beqb b) (to_bytes "./=-").

(** [strings.ReplaceAll] of one byte. *)
Definition replace_byte (c : byte) (new : bytes) (l : bytes) : bytes := concat ((λ b, if beqb b c then new else [b]) <$> l).

Fixpoint skip_name (l : bytes) : bytes :=
  match l with
  | b :: l' => if name_char b then skip_name l' else l
  | [] => []
  end.

(** [validVarRegex] matches a dollar sign that is followed by [l]. *)
Definition valid_var (l : bytes) : bool :=
  match l with
  | b :: l =>
      if name_start b then true
      else if beqb b lbrace then
        match l with
        | b :: l => name_start b && match skip_name l with b :: _ => beqb b rbrace | [] => false end
        | [] => false
        end
      else false
  | [] => false
  end.

(** The loop that escapes the dollar signs. *)
Fixpoint escape_dollars (l : bytes) : bytes :=
  match l with
  | [] => []
  | b :: l => (if beqb b dollar then if valid_var l then [dollar] else [backslash; dollar] else [b]) ++ escape_dollars l
  end.

Definition bquote (s : bytes) : bytes :=
  if bool_decide (s = []) then [squote; squote]
  else if existsb (beqb dollar) s then
    let s := replace_byte backslash [backslash; backslash] s in
    let s := replace_byte dquote [backslash; dquote] s in
    let s := replace_byte backtick [backslash; backtick] s in
    [dquote] ++ escape_dollars s ++ [dquote]
  else if negb (forallb safe_char s) then [squote] ++ replace_byte squote [squote; backslash; squote; squote] s ++ [squote]
  else s.

Definition shellQuote (s : string) : string := of_bytes (bquote (to_bytes s)).
Definition shellQuoteSlice (args : list string) : string := Join (shellQuote <$> args) " ".

(** ** The words of a command line *)

(** A byte, or a variable the shell puts in, [braced] or not. *)
Inductive piece := Lit (b : byte) | Var (name : bytes) (braced : bool).
Definition word := list piece.

Definition text1 (p : piece) : bytes :=
  match p with
  | Lit b => [b]
  | Var n false => dollar :: n
  | Var n true => [dollar; lbrace] ++ n ++ [rbrace]
  end.
Definition text (w : word) : bytes := concat (text1 <$> w).

(** Where the reader is. *)
Inductive mode :=
| Between                     (* between words *)
| Bare                        (* in a word, outside quotes *)
| BareEscape                  (* after a backslash there *)
| Single                      (* in single quotes *)
| Double                      (* in double quotes *)
| DoubleEscape                (* after a backslash there *)
| Dollar                      (* after a dollar sign there *)
| Name (acc : bytes)          (* in the name of a variable *)
| Brace (acc : bytes).        (* in a name in braces *)

Definition lexer : Type := mode * word * list word.

(** A byte outside quotes. *)
Definition bare (b : byte) (w : word) (ws : list word) : option lexer :=
  if beqb b squote then Some (Single, w, ws)
  else if beqb b dquote then Some (Double, w, ws)
  else if beqb b backslash then Some (BareEscape, w, ws)
  else if safe_char b then Some (Bare, w ++ [Lit b], ws)
  else None.

(** A byte in double quotes. *)
Definition double (b : byte) (w : word) (ws : list word) : option lexer :=
  if beqb b dquote then Some (Bare, w, ws)
  else if beqb b backslash then Some (DoubleEscape, w, ws)
  else if beqb b dollar then Some (Dollar, w, ws)
  else if beqb b backtick then None
  else Some (Double, w ++ [Lit b], ws).

Definition step (x : lexer) (b : byte) : option lexer :=
  let '(m, w, ws) := x in
  match m with
  | Between => if beqb b blank then Some (Between, w, ws) else bare b [] ws
  | Bare => if beqb b blank then Some (Between, [], ws ++ [w]) else bare b w ws
  | BareEscape => if beqb b nl then None else Some (Bare, w ++ [Lit b], ws)
  | Single => if beqb b squote then Some (Bare, w, ws) else Some (Single, w ++ [Lit b], ws)
  | Double => double b w ws
  | DoubleEscape =>
      if beqb b nl then None
      else if existsb (beqb b) [dollar; backtick; dquote; backslash] then Some (Double, w ++ [Lit b], ws)
      else Some (Double, w ++ [Lit backslash; Lit b], ws)
  | Dollar => if name_start b then Some (Name [b], w, ws) else if beqb b lbrace then Some (Brace [], w, ws) else None
  | Name acc => if name_char b then Some (Name (acc ++ [b]), w, ws) else double b (w ++ [Var acc false]) ws
  | Brace acc =>
      if beqb b rbrace then if bool_decide (acc = []) then None else Some (Double, w ++ [Var acc true], ws)
      else if (if bool_decide (acc = []) then name_start b else name_char b) then Some (Brace (acc ++ [b]), w, ws)
      else None
  end.

Fixpoint lex (x : lexer) (l : bytes) : option lexer :=
  match l with
  | [] => Some x
  | b :: l => match step x b with Some x => lex x l | None => None end
  end.

Definition sh_words (s : string) : option (list word) :=
  match lex (Between, [], []) (to_bytes s) with
  | Some (Between, _, ws) => Some ws
  | Some (Bare, w, ws) => Some (ws ++ [w])
  | _ => None
  end.

Example words_of_a_line :
  option_map (map (λ w, of_bytes (text w))) (sh_words (shellQuoteSlice ["/bin/ls"; ""; "a b"; "it's"; "$HOME/x;y"; "$(rm)"; "a`b$"])) =
    Some ["/bin/ls"; ""; "a b"; "it's"; "$HOME/x;y"; "$(rm)"; "a`b$"].
Proof. by vm_compute. Qed.
Example refused : sh_words "ls; rm" = None ∧ sh_words "echo $(rm)" = None ∧ sh_words "a | b" = None.
Proof. by vm_compute. Qed.

(** ** What quoting does *)
Ltac byte_cases := repeat match goal with
  | |- context[beqb ?a ?b] => let E := fresh "E" in destruct (beqb a b) eqn:E; [apply beqb_spec in E; subst; try done|]
  end.

Definition special (b : byte) : bool := existsb (beqb b) [backslash; dquote; backtick].

Lemma special_cases b : special b = true → b = backslash ∨ b = dquote ∨ b = backtick.
Proof. unfold special. simpl. rewrite !orb_true_iff, !beqb_spec. naive_solver. Qed.
Lemma name_char_plain b : name_char b = true → special b = false ∧ b ≠ dollar ∧ b ≠ rbrace.
Proof.
  intros Hb. split_and!; [|by intros ->..]. destruct (special b) eqn:E; [|done]. by destruct (special_cases b E) as [->|[->| ->]].
Qed.
Lemma name_start_char b : name_start b = true → name_char b = true.
Proof. unfold name_char. by intros ->. Qed.

Lemma replace_app c new l k : replace_byte c new (l ++ k) = replace_byte c new l ++ replace_byte c new k.
Proof. unfold replace_byte. by rewrite fmap_app, concat_app. Qed.
Lemma replace_cons c new b l : replace_byte c new (b :: l) = (if beqb b c then new else [b]) ++ replace_byte c new l.
Proof. done. Qed.

(** The three replacements at once. *)
Definition esc1 (b : byte) : bytes := if special b then [backslash; b] else [b].
Definition esc3 (l : bytes) : bytes := concat (esc1 <$> l).

Lemma replaced l : replace_byte backtick [backslash; backtick] (replace_byte dquote [backslash; dquote] (replace_byte backslash [backslash; backslash] l)) = esc3 l.
Proof.
  induction l as [|b l IH]; [done|]. rewrite replace_cons, !replace_app, IH. change (esc3 (b :: l)) with (esc1 b ++ esc3 l). f_equal.
  unfold esc1, special. simpl. destruct (beqb b backslash) eqn:E1; [apply beqb_spec in E1; by subst|].
  destruct (beqb b dquote) eqn:E2; [apply beqb_spec in E2; by subst|]. rewrite replace_cons, E2. simpl.
  rewrite replace_cons. destruct (beqb b backtick) eqn:E3; [apply beqb_spec in E3; by subst|done].
Qed.

(** The head of an escaped text is the same byte, or a backslash in front of a
    special one. *)
Lemma esc3_head b l : esc3 (b :: l) = b :: esc3 l ∧ special b = false ∨ esc3 (b :: l) = backslash :: b :: esc3 l ∧ special b = true.
Proof. change (esc3 (b :: l)) with (esc1 b ++ esc3 l). unfold esc1. destruct (special b); [by right|by left]. Qed.

Lemma skip_name_esc l : skip_name (esc3 l) = esc3 (skip_name l).
Proof.
  induction l as [|b l IH]; [done|]. cbn [skip_name]. destruct (name_char b) eqn:Eb.
  - destruct (esc3_head b l) as [[-> _]|[_ Hs]]; [cbn [skip_name]; by rewrite Eb|]. apply name_char_plain in Eb as (? & _). congruence.
  - destruct (esc3_head b l) as [[-> _]|[-> Hs]]; [cbn [skip_name]; by rewrite Eb|done].
Qed.

Lemma valid_var_esc l : valid_var (esc3 l) = valid_var l.
Proof.
  destruct l as [|b l]; [done|]. destruct (esc3_head b l) as [[-> Hb]|[-> Hb]]; [|by destruct (special_cases b Hb) as [->|[->| ->]]].
  cbn [valid_var]. destruct (name_start b); [done|]. destruct (beqb b lbrace); [|done].
  destruct l as [|c l]; [done|]. destruct (esc3_head c l) as [[-> Hc]|[-> Hc]]; [|by destruct (special_cases c Hc) as [->|[->| ->]]].
  rewrite skip_name_esc. destruct (skip_name l) as [|d k]; [done|]. destruct (esc3_head d k) as [[-> Hd]|[-> Hd]]; [done|].
  by destruct (special_cases d Hd) as [->|[->| ->]].
Qed.

(** The text between the double quotes. *)
Fixpoint esc (l : bytes) : bytes :=
  match l with
  | [] => []
  | b :: l => (if beqb b dollar then if valid_var l then [dollar] else [backslash; dollar] else esc1 b) ++ esc l
  end.

Lemma escaped l : escape_dollars (esc3 l) = esc l.
Proof.
  induction l as [|b l IH]; [done|]. cbn [esc]. unfold esc1. destruct (esc3_head b l) as [[-> Hb]|[-> Hb]]; rewrite Hb; cbn [escape_dollars].
  - rewrite valid_var_esc, IH. by destruct (beqb b dollar), (valid_var l).
  - rewrite IH. by destruct (special_cases b Hb) as [->|[->| ->]].
Qed.

(** ** What the reader makes of it *)
Lemma lex_app x l k : lex x (l ++ k) = match lex x l with Some y => lex y k | None => None end.
Proof. revert x. induction l as [|b l IH]; intros x; [done|]. simpl. destruct (step x b); [apply IH|done]. Qed.
Lemma text_app w w' : text (w ++ w') = text w ++ text w'.
Proof. unfold text. by rewrite fmap_app, concat_app. Qed.
Lemma text_lit s : text (Lit <$> s) = s.
Proof. unfold text. induction s as [|b s IH]; [done|]. simpl. by f_equal. Qed.

Lemma safe_bare b w ws : safe_char b = true → bare b w ws = Some (Bare, w ++ [Lit b], ws) ∧ beqb b blank = false.
Proof.
  intros Hb. unfold bare. rewrite Hb. split; byte_cases; done.
Qed.

Lemma lex_safe s w ws : forallb safe_char s = true → lex (Bare, w, ws) s = Some (Bare, w ++ (Lit <$> s), ws).
Proof.
  revert w. induction s as [|b s IH]; intros w Hs; [simpl; by rewrite app_nil_r|]. simpl in Hs. apply andb_true_iff in Hs as [Hb Hs].
  destruct (safe_bare b w ws Hb) as [E1 E2]. cbn [lex step]. rewrite E2, E1, IH by done. by rewrite <-app_assoc.
Qed.

Lemma lex_single s w ws k :
  lex (Single, w, ws) (replace_byte squote [squote; backslash; squote; squote] s ++ squote :: k) = lex (Bare, w ++ (Lit <$> s), ws) k.
Proof.
  revert w. induction s as [|b s IH]; intros w; [simpl; by rewrite app_nil_r|]. rewrite replace_cons, <-app_assoc.
  change (Lit <$> b :: s) with ([Lit b] ++ (Lit <$> s)). rewrite (app_assoc w [Lit b]), <-(IH (w ++ [Lit b])). destruct (beqb b squote) eqn:E; [apply beqb_spec in E; by subst|].
  cbn [app lex step]. by rewrite E.
Qed.

(** A name ends at any byte that cannot be in it. *)
Lemma name_ends acc w ws b l : name_char b = false → lex (Name acc, w, ws) (b :: l) = lex (Double, w ++ [Var acc false], ws) (b :: l).
Proof. intros Hb. cbn [lex step]. by rewrite Hb. Qed.

Lemma lex_brace run acc w ws k : acc ≠ [] → forallb name_char run = true →
  lex (Brace acc, w, ws) (run ++ rbrace :: k) = lex (Double, w ++ [Var (acc ++ run) true], ws) k.
Proof.
  revert acc. induction run as [|b run IH]; intros acc Hacc Hrun.
  - rewrite app_nil_r. cbn [app lex step]. change (beqb rbrace rbrace) with true. cbn iota. by rewrite bool_decide_eq_false_2.
  - simpl in Hrun. apply andb_true_iff in Hrun as [Hb Hrun]. destruct (name_char_plain b Hb) as (_ & _ & Hr). cbn [app lex step].
    destruct (beqb b rbrace) eqn:E; [by apply beqb_spec in E|]. rewrite bool_decide_eq_false_2, Hb by done. rewrite IH; [|by destruct acc|done].
    by rewrite <-app_assoc.
Qed.

Lemma skip_name_split l : ∃ run, l = run ++ skip_name l ∧ forallb name_char run = true.
Proof.
  induction l as [|b l (run & E & Hr)]; [by exists []|]. cbn [skip_name]. destruct (name_char b) eqn:Eb; [|by exists []].
  exists (b :: run). split; [by rewrite E at 1|]. simpl. by rewrite Eb.
Qed.

Lemma esc_name b l : name_char b = true → esc (b :: l) = b :: esc l.
Proof.
  intros Hb. destruct (name_char_plain b Hb) as (Hs & Hd & _). cbn [esc]. unfold esc1. rewrite Hs.
  destruct (beqb b dollar) eqn:E; [by apply beqb_spec in E|done].
Qed.
Lemma esc_run run l : forallb name_char run = true → esc (run ++ l) = run ++ esc l.
Proof.
  induction run as [|b run IH]; [done|]. simpl forallb. intros [Hb Hr]%andb_true_iff. cbn [app]. by rewrite esc_name, IH.
Qed.

Definition reads (x : lexer) (s : bytes) (shown : bytes) : Prop :=
  ∀ k, ∃ w', lex x (s ++ dquote :: k) = lex (Bare, x.1.2 ++ w', x.2) k ∧ text w' = shown.

Lemma reads_step x y s b w' shown :
  step x b = Some y → y.1.2 = x.1.2 ++ w' → y.2 = x.2 → reads y s shown → reads x (b :: s) (text w' ++ shown).
Proof.
  intros Hs Hw Hws Hr k. destruct (Hr k) as (w2 & E & T). exists (w' ++ w2). rewrite text_app, T. split; [|done].
  cbn [app lex]. by rewrite Hs, E, Hw, Hws, app_assoc.
Qed.
(** A step that adds nothing to the word. *)
Lemma reads_silent x y s b shown : step x b = Some y → y.1.2 = x.1.2 → y.2 = x.2 → reads y s shown → reads x (b :: s) shown.
Proof. intros. change shown with (text [] ++ shown). eapply reads_step; [done|by rewrite app_nil_r|done|done]. Qed.

Lemma reads_brace b run w ws l shown : name_start b = true → forallb name_char run = true →
  (∀ w, reads (Double, w, ws) l shown) → reads (Double, w, ws) (dollar :: lbrace :: b :: run ++ rbrace :: l) (dollar :: lbrace :: b :: run ++ rbrace :: shown).
Proof.
  intros Hb Hrun Hl k. destruct (Hl (w ++ [Var (b :: run) true]) k) as (w2 & E & T). exists ([Var (b :: run) true] ++ w2). split.
  - cbn [fst snd] in *. rewrite (app_assoc w), <-E. pose proof (name_char_plain _ (name_start_char _ Hb)) as (_ & _ & Hr).
    assert (Er : beqb b rbrace = false) by (by apply beqb_ne). cbn [app lex step]. change (double dollar w ws) with (Some (Dollar, w, ws)).
    cbn [step]. change (name_start lbrace) with false. change (beqb lbrace lbrace) with true. cbn iota. cbn [step]. rewrite Er, bool_decide_eq_true_2, Hb by done.
    rewrite <-app_assoc. cbn [app]. by rewrite lex_brace.
  - rewrite text_app, T. cbn. by rewrite app_nil_r, <-!app_assoc.
Qed.

(** The reader understands an escaped text: in double quotes it is read as
    itself, and so it is when it continues the name of a variable. *)
Lemma reads_esc l ws : (∀ w, reads (Double, w, ws) (esc l) l) ∧ ∀ acc w, reads (Name acc, w, ws) (esc l) (dollar :: acc ++ l).
Proof.
  remember (length l) as n eqn:Hn. assert (Hle : length l ≤ n) by lia. clear Hn. revert l Hle.
  induction n as [|n IH]; intros l Hle.
  { destruct l; [|simpl in Hle; lia]. split.
    - intros w k. exists []. by rewrite app_nil_r.
    - intros acc w k. exists [Var acc false]. split; [done|]. cbn. by rewrite !app_nil_r. }
  assert (HD : ∀ w, reads (Double, w, ws) (esc l) l).
  { intros w. destruct l as [|b l]; [by apply IH; simpl; lia|]. simpl in Hle. cbn [esc]. destruct (beqb b dollar) eqn:Ed.
    - apply beqb_spec in Ed as ->. destruct (valid_var l) eqn:Ev.
      + cbn [app]. destruct l as [|b l]; [done|]. cbn [valid_var] in Ev. simpl in Hle. destruct (name_start b) eqn:Eb.
        * rewrite esc_name by (by apply name_start_char). eapply reads_silent; [done|done|done|].
          eapply reads_silent; [cbn [step]; by rewrite Eb|done|done|]. apply (IH l); lia.
        * destruct (beqb b lbrace) eqn:Eb2; [|done]. apply beqb_spec in Eb2 as ->. destruct l as [|b l]; [done|].
          apply andb_true_iff in Ev as [Eb1 Ev]. destruct (skip_name_split l) as (run & El & Hr). destruct (skip_name l) as [|c l3]; [done|].
          apply beqb_spec in Ev as ->. subst l. change (esc (lbrace :: b :: run ++ rbrace :: l3)) with ([lbrace] ++ esc (b :: run ++ rbrace :: l3)).
          rewrite esc_name by (by apply name_start_char). rewrite esc_run by done. apply reads_brace; [done|done|]. intros w'.
          apply IH. simpl in Hle. rewrite length_app in Hle. simpl in Hle. lia.
      + cbn [app]. eapply reads_silent; [done|done|done|]. apply (reads_step _ (Double, w ++ [Lit dollar], ws) _ _ [Lit dollar]); [done..|]. apply (IH l); lia.
    - unfold esc1. destruct (special b) eqn:Es.
      + cbn [app]. eapply reads_silent; [done|done|done|]. apply (reads_step _ (Double, w ++ [Lit b], ws) _ _ [Lit b]); [|done|done|apply (IH l); lia].
        by destruct (special_cases b Es) as [->|[->| ->]].
      + cbn [app]. apply (reads_step _ (Double, w ++ [Lit b], ws) _ _ [Lit b]); [|done|done|apply (IH l); lia].
        cbn [step]. unfold double. rewrite Ed. unfold special in Es. simpl in Es. rewrite !orb_false_iff in Es. by destruct Es as (-> & -> & -> & _). }
  split; [exact HD|]. intros acc w. destruct l as [|b l]; [apply IH; simpl; lia|]. simpl in Hle. destruct (name_char b) eqn:Eb.
  - rewrite esc_name by done. eapply reads_silent; [cbn [step]; by rewrite Eb|done|done|].
    destruct (IH l) as [_ HN]; [lia|]. specialize (HN (acc ++ [b]) w). by rewrite <-app_assoc in HN.
  - intros k. destruct (HD (w ++ [Var acc false]) k) as (w2 & E & T). exists ([Var acc false] ++ w2). rewrite text_app, T. split.
    + cbn [fst snd] in *. rewrite (app_assoc w), <-E. cbn [esc]. unfold esc1.
      destruct (beqb b dollar) eqn:Ed; [apply beqb_spec in Ed as ->; destruct (valid_var l); by apply name_ends|].
      destruct (special b); by apply name_ends.
    + cbn. by rewrite app_nil_r.
Qed.

(** A quoted text is one word for the shell, which shows that text. *)
Lemma lex_quoted s ws k : ∃ w, lex (Between, [], ws) (bquote s ++ k) = lex (Bare, w, ws) k ∧ text w = s.
Proof.
  unfold bquote. case_bool_decide as E0; [subst; by exists []|]. destruct (existsb (beqb dollar) s).
  - rewrite replaced, escaped. destruct (reads_esc s ws) as [HD _]. destruct (HD [] k) as (w & E & T). exists w. split; [|done].
    cbn [app]. rewrite <-app_assoc. exact E.
  - destruct (forallb safe_char s) eqn:Es; cbn [negb].
    + exists (Lit <$> s). split; [|apply text_lit]. destruct s as [|b s]; [done|]. rewrite lex_app.
      simpl in Es. apply andb_true_iff in Es as [Hb Es]. destruct (safe_bare b [] ws Hb) as [E1 E2]. cbn [lex step]. rewrite E2, E1.
      by rewrite lex_safe.
    + exists (Lit <$> s). split; [|apply text_lit]. cbn [app]. rewrite <-app_assoc. cbn [app lex]. exact (lex_single s [] ws k).
Qed.

Lemma lex_quoted_args args ws k : args ≠ [] →
  ∃ w ws', lex (Between, [], ws) (bjoin [blank] (bquote <$> args) ++ k) = lex (Bare, w, ws ++ ws') k ∧ text <$> (ws' ++ [w]) = args.
Proof.
  revert ws. induction args as [|a args IH]; [done|]. intros ws _. destruct args as [|a2 args].
  - destruct (lex_quoted a ws k) as (w & E & T). exists w, []. cbn [fmap list_fmap bjoin]. rewrite E, app_nil_r. split; [done|]. cbn. by rewrite T.
  - destruct (lex_quoted a ws ([blank] ++ bjoin [blank] (bquote <$> a2 :: args) ++ k)) as (w & E & T).
    destruct (IH (ws ++ [w])) as (w2 & ws2 & E2 & T2); [done|]. exists w2, ([w] ++ ws2). split.
    + change (bjoin [blank] (bquote <$> a :: a2 :: args)) with (bquote a ++ [blank] ++ bjoin [blank] (bquote <$> a2 :: args)).
      rewrite <-!app_assoc, E. cbn [app lex step]. change (beqb blank blank) with true. cbn iota. rewrite E2. by rewrite <-app_assoc.
    + rewrite <-app_assoc. cbn [app fmap list_fmap]. rewrite T. f_equal. exact T2.
Qed.

Lemma text_literal w : dollar ∉ text w → w = Lit <$> text w.
Proof.
  induction w as [|p w IH]; [done|]. change (text (p :: w)) with (text1 p ++ text w). rewrite not_elem_of_app. intros [Hp Hw].
  destruct p as [b|n []]; [|by destruct Hp; left..]. cbn. f_equal. by apply IH.
Qed.

Definition show (w : word) : string := of_bytes (text w).

Lemma sh_words_quoted args : ∃ ws, sh_words (shellQuoteSlice args) = Some ws ∧ show <$> ws = args.
Proof.
  unfold sh_words, shellQuoteSlice, Join, shellQuote. rewrite to_of_bytes.
  assert (E : to_bytes <$> ((λ s, of_bytes (bquote (to_bytes s))) <$> args) = bquote <$> (to_bytes <$> args)).
  { rewrite <-!list_fmap_compose. apply list_fmap_ext. intros i x _. unfold compose. apply to_of_bytes. }
  change (map to_bytes) with (fmap (M := list) to_bytes) in *. rewrite E. destruct args as [|a args]; [by exists []|].
  destruct (lex_quoted_args (to_bytes <$> a :: args) [] []) as (w & ws & E2 & T); [done|]. rewrite app_nil_r in E2.
  change (to_bytes " ") with [blank]. rewrite E2. exists (ws ++ [w]). split; [done|]. unfold show.
  rewrite (list_fmap_compose text of_bytes), T, <-list_fmap_compose. rewrite <-(list_fmap_id (a :: args)) at 2.
  apply list_fmap_ext. intros i x _. apply of_to_bytes.
Qed.

(** C20. A quoted command line means what it was made of: the shell takes it for
    as many words as there are arguments and nothing else - no operator, no
    substitution of a command, no pattern -, each word shows the text of its
    argument, where the only parts the shell replaces are variables that stand
    in that text with their dollar sign; an argument without a dollar sign is
    taken literally. *)
Theorem shellQuoteSlice_words args :
  ∃ ws, sh_words (shellQuoteSlice args) = Some ws ∧ show <$> ws = args ∧ ∀ w, w ∈ ws → dollar ∉ text w → w = Lit <$> text w.
Proof. destruct (sh_words_quoted args) as (ws & E & T). exists ws. split_and!; [done|done|]. intros w _. apply text_literal. Qed.
End ShellQuote.
