(* ===== verification/IsvTrust.v ===== *)
(** * guest_telemetry_extension/internal: what the extension trusts

    acsendpoint.go, trustedfile.go and trustedfile_linux.go, privatefile.go and
    privatefile_linux.go: the endpoints that messages may go to, the files that
    only privileged users can change, the files that others cannot read. *)
From stdpp Require Import gmap strings list.
From S2P Require Import Prelude GoStrings GoStringFacts Os SafeWrite Paths ShellQuote.

Module IsvTrust.
Import ShellQuote.

(** ** acsendpoint.go *)
Definition domainSuffix : string := ".googleapis.com".
Definition portSuffix : string := ":443".
Definition maxNameLen : nat := 253.
Definition maxLabelLen : nat := 63.

(** [strings.ToLower] as far as it can yield ASCII: the letters, and the two
    runes beyond ASCII whose lower case is an ASCII letter, U+0130 and U+212A.
    A byte of another rune is left: it stays beyond ASCII. *)
Definition lower1 (b : byte) : byte := if between 65 90 b then byte_of (Ascii.N_of_ascii b + 32) else b.
Fixpoint blower (l : bytes) : bytes :=
  match l with
  | [] => []
  | a :: rest =>
      match rest with
      | b :: rest2 =>
          if beqb a (byte_of 196) && beqb b (byte_of 176) then byte_of 105 :: blower rest2
          else
            match rest2 with
            | c :: rest3 => if beqb a (byte_of 226) && beqb b (byte_of 132) && beqb c (byte_of 170) then byte_of 107 :: blower rest3 else lower1 a :: blower rest
            | [] => lower1 a :: blower rest
            end
      | [] => [lower1 a]
      end
  end.
Definition ToLower (s : string) : string := of_bytes (blower (to_bytes s)).

Definition label_char (c : byte) : bool := between 97 122 c || is_digit c || beqb c (byte_of 45).

Definition label_ok (label : string) : bool :=
  let l := to_bytes label in
  negb (Nat.eqb (length l) 0 || Nat.ltb maxLabelLen (length l) || bprefix [byte_of 45] l || bsuffix [byte_of 45] l) && forallb label_char l.

Definition isDNSName (name : string) : bool :=
  if Nat.ltb maxNameLen (String.length name) then false
  else forallb label_ok (Split name (byte_of 46)).

Definition Validate (endpoint : string) : option error :=
  let host := TrimSuffix endpoint portSuffix in
  let name := ToLower (TrimSuffix host ".") in
  if negb (HasSuffix name domainSuffix) || negb (isDNSName name) then Some (ErrMsg "endpoint must be a host name under googleapis.com")
  else None.

(** A name beyond ASCII passes for one under googleapis.com: the capital I with
    a dot, U+0130, is lowered to an i. *)
Definition dotted_I : string := of_bytes [byte_of 196; byte_of 176].
Example Validate_beyond_ascii : Validate ("x.googleap" +:+ dotted_I +:+ "s.com:443") = None.
Proof. by vm_compute. Qed.
Example Validate_examples :
  Validate "us-central1-agentcommunication.GOOGLEAPIS.com.:443" = None ∧
  Forall (λ e, Validate e ≠ None) ["googleapis.com"; "x.googleapis.com:80"; "dns:///x.googleapis.com"; "127.0.0.1"; "localhost"; ".googleapis.com"; "x.googleapis.com.evil.org"].
Proof. split; [by vm_compute|]. repeat constructor; by vm_compute. Qed.

(** ** Files with owners *)
Inductive file_type := Regular | Directory | Symlink | Special.
#[global] Instance file_type_eq_dec : EqDecision file_type.
Proof. solve_decision. Defined.

(** What [Stat] tells; [Ino] stands for the identity [os.SameFile] compares. *)
Record FileInfo := mkInfo { Mode : file_type; Perm : Z; Uid : Z; Nlink : Z; Ino : Z }.

(** The system's answers; the first argument counts the calls. *)
Class TrustWorld := {
  geteuid : Z;
  EvalSymlinks : nat → string → result string;
  Abs : nat → string → result string;
  Lstat : nat → string → result FileInfo;
  Stat : nat → string → result FileInfo;
}.

(** A state that counts its calls of the system. *)
Class Counting (S : Type) := { calls_of : S → nat; set_calls : nat → S → S }.

Section trusted.
Context {S : Type} `{Counting S} `{TrustWorld}.

Definition ask {A} (f : nat → A) : M S A := λ s, Some (set_calls (Datatypes.S (calls_of s)) s, f (calls_of s)).

(** ** trustedfile_linux.go, trustedfile.go *)
Definition verifyOwnerAndMode (fi : FileInfo) : option error :=
  if negb (bool_decide (Uid fi = 0%Z)) && negb (bool_decide (Uid fi = geteuid)) then Some (ErrMsg "owned by another user")
  else if negb (bool_decide (Z.land (Perm fi) 18 = 0%Z)) then Some (ErrMsg "writable by group or others")
  else None.

Definition verifyPathElement (fi : FileInfo) : option error :=
  if negb (bool_decide (Mode fi = Regular)) && negb (bool_decide (Mode fi = Directory)) then Some (ErrMsg "not a regular file or directory")
  else verifyOwnerAndMode fi.

(** The loop up to the root, for [fuel] elements. *)
Fixpoint parents_of (fuel : nat) (name : string) : list string :=
  match fuel with
  | 0 => []
  | Datatypes.S fuel => if bool_decide (Dir name = name) then [] else Dir name :: parents_of fuel (Dir name)
  end.
Definition pathAndParents (name : string) : list string := name :: parents_of (String.length name) name.

Fixpoint check_elements (name : string) (ps : list string) : M S (option error) :=
  match ps with
  | [] => mret None
  | p :: ps =>
      fi ← ask (λ n, Lstat n p);
      match fi with
      | Err e => mret (Some e)
      | Ok fi =>
          match verifyPathElement fi with
          | Some e => mret (Some (ErrWrap "refusing to use" e))
          | None => check_elements name ps
          end
      end
  end.

Definition CheckPath (name : string) : M S (result string) :=
  resolved ← ask (λ n, EvalSymlinks n name);
  match resolved with
  | Err e => mret (Err e)
  | Ok resolved =>
      resolved ← ask (λ n, Abs n resolved);
      match resolved with
      | Err e => mret (Err e)
      | Ok resolved =>
          err ← check_elements name (pathAndParents resolved);
          mret (match err with Some e => Err e | None => Ok resolved end)
      end
  end.

(** An element of a path that only root and the current user can change. *)
Definition trusted_element (fi : FileInfo) : Prop :=
  (Mode fi = Regular ∨ Mode fi = Directory) ∧ (Uid fi = 0%Z ∨ Uid fi = geteuid) ∧ Z.land (Perm fi) 18 = 0%Z.

Lemma verifyPathElement_spec fi : verifyPathElement fi = None ↔ trusted_element fi.
Proof.
  unfold verifyPathElement, verifyOwnerAndMode, trusted_element. repeat case_bool_decide; simpl; naive_solver.
Qed.

(** The file and every directory above it were trusted when they were looked at. *)
Definition trusted_path (p : string) : Prop :=
  ∀ q, q ∈ pathAndParents p → ∃ n fi, Lstat n q = Ok fi ∧ trusted_element fi.

Lemma wp_check_elements name ps (s : S) :
  wp (check_elements name ps) (λ e _, e = None → ∀ q, q ∈ ps → ∃ n fi, Lstat n q = Ok fi ∧ trusted_element fi) s.
Proof.
  revert s. induction ps as [|p ps IH]; intros s; cbn [check_elements]; [apply wp_ret; intros _ q []%elem_of_nil|].
  apply wp_bind. unfold wp at 1, ask. destruct (Lstat (calls_of s) p) as [fi|e] eqn:El; [|by apply wp_ret].
  destruct (verifyPathElement fi) eqn:Ev; [by apply wp_ret|]. eapply wp_mono; [apply IH|]. cbn beta. intros e s' He E q [->|Hq]%elem_of_cons.
  - exists (calls_of s), fi. split; [done|]. by apply verifyPathElement_spec.
  - by apply He.
Qed.

Lemma wp_CheckPath name (s : S) : wp (CheckPath name) (λ r _, ∀ p, r = Ok p → trusted_path p) s.
Proof.
  unfold CheckPath. apply wp_bind. unfold wp at 1, ask. destruct (EvalSymlinks _ name) as [p|e]; [|by apply wp_ret].
  apply wp_bind. unfold wp at 1, ask. destruct (Abs _ p) as [p'|e]; [|by apply wp_ret]. apply wp_bind. eapply wp_mono; [apply wp_check_elements|].
  cbn beta. intros [e|] s' He; apply wp_ret; intros q [= <-]. exact (He eq_refl).
Qed.
End trusted.

(** ** The elements of a path *)

(** An absolute path by its names, the last one first. *)
Fixpoint path_of (names : list string) : string :=
  match names with
  | [] => "/"
  | [c] => "/" +:+ c
  | c :: names => Paths.in_dir (path_of names) c
  end.
Fixpoint tails (names : list string) : list (list string) :=
  names :: match names with [] => [] | _ :: names => tails names end.

Lemma str_length_app a b : String.length (a +:+ b) = String.length a + String.length b.
Proof. induction a; simpl; [done|by f_equal]. Qed.

Lemma path_of_clean names : names ≠ [] → Forall Paths.simple_name names → Paths.clean_dir (path_of names).
Proof.
  induction names as [|c names IH]; [done|]. intros _ [Hc Hns]%Forall_cons. destruct names as [|d names].
  - destruct Hc as (Hl & H1 & H2 & H3). split; [done|]. split; [|by destruct c].
    cbn [path_of]. unfold Clean. rewrite bool_decide_false by done. change (HasPrefix ("/" +:+ c) "/") with true. cbv zeta.
    assert (Split ("/" +:+ c) slash = ["" ; c]) as -> by (change ("/" +:+ c) with ("" +:+ String slash "" +:+ c); by rewrite Split_snoc).
    change (foldl (clean_step true) [] [""; c]) with (clean_step true [] c). unfold clean_step. rewrite bool_decide_false by naive_solver.
    rewrite bool_decide_false by done. cbn. unfold Join. cbn. by rewrite of_to_bytes.
  - assert (Hd : Paths.clean_dir (path_of (d :: names))) by (by apply IH). change (path_of (c :: d :: names)) with (Paths.in_dir (path_of (d :: names)) c).
    split; [apply Paths.HasPrefix_app_l; apply Hd|]. split; [by apply Paths.Clean_in_dir|]. intros E. apply (f_equal String.length) in E.
    unfold Paths.in_dir in E. rewrite !str_length_app in E. destruct Hc as (_ & Hc & _). destruct c as [|a c]; [done|].
    revert E. generalize (String.length (path_of (d :: names))). simpl. lia.
Qed.

Lemma Dir_path_of c names : Forall Paths.simple_name (c :: names) → Dir (path_of (c :: names)) = path_of names.
Proof.
  intros [Hc Hns]%Forall_cons. destruct names as [|d names]; [|by apply Paths.Dir_in_dir; [apply path_of_clean|]].
  cbn [path_of]. change ("/" +:+ c) with (("" +:+ "/") +:+ c). rewrite SafeWrite.Dir_app by apply Hc. done.
Qed.

Lemma path_of_longer c names : Paths.simple_name c → String.length (path_of names) < String.length (path_of (c :: names)) ∨ names = [].
Proof.
  intros (_ & Hc & _). destruct names as [|d names]; [by right|left]. change (path_of (c :: d :: names)) with (Paths.in_dir (path_of (d :: names)) c).
  unfold Paths.in_dir. rewrite !str_length_app. simpl. lia.
Qed.

Lemma parents_of_enough names fuel : Forall Paths.simple_name names → length names ≤ fuel → path_of names :: parents_of fuel (path_of names) = path_of <$> tails names.
Proof.
  revert fuel. induction names as [|c names IH]; intros fuel Hns Hf; [by destruct fuel|].
  destruct fuel as [|fuel]; [simpl in Hf; lia|]. cbn [parents_of]. rewrite Dir_path_of by done.
  pose proof Hns as [Hc Hns']%Forall_cons. rewrite bool_decide_false.
  - cbn [tails fmap list_fmap]. rewrite IH by (done || (simpl in Hf; lia)). done.
  - intros E. destruct (path_of_longer c names Hc) as [Hl| ->]; [rewrite E in Hl; lia|].
    destruct Hc as (_ & Hc & _). cbn in E. injection E as E. by destruct c.
Qed.

Lemma path_of_length names : Forall Paths.simple_name names → length names ≤ String.length (path_of names).
Proof.
  induction names as [|c names IH]; intros Hns; [simpl; lia|]. apply Forall_cons in Hns as [Hc Hns].
  destruct (path_of_longer c names Hc) as [Hl| ->]; [specialize (IH Hns); cbn [length]; lia|]. simpl. lia.
Qed.

(** The walk to the root sees the file, every directory above it and the root,
    once each; the loop ends. *)
Theorem pathAndParents_climbs names : Forall Paths.simple_name names → pathAndParents (path_of names) = path_of <$> tails names.
Proof. intros Hns. apply parents_of_enough; [done|]. by apply path_of_length. Qed.

(** ** privatefile.go, privatefile_linux.go *)

(** The files by name, with their content. *)
Notation files := (gmap string (FileInfo * string)).
Definition ownerOnly : Z := 384.                          (* 0600 *)

Section private.
Context `{TrustWorld} `{OsFaults}.

Record pstate := mkPrivate { pfiles : files; pticks : nat; next_ino : Z }.

(** A call of the system on [p]: it fails with nothing done, or runs. *)
Definition sys {A} (op p : string) (k : files → files * result A) : M pstate (result A) := λ s,
  match os_fault (pticks s) op p with
  | Some f => Some (mkPrivate (pfiles s) (Datatypes.S (pticks s)) (next_ino s), Err (fault_err f))
  | None => let '(m, r) := k (pfiles s) in Some (mkPrivate m (Datatypes.S (pticks s)) (next_ino s + 1)%Z, r)
  end.

(** [os.OpenFile] for writing, with O_CREATE and O_NOFOLLOW and without O_TRUNC. *)
Definition openFile (name : string) : M pstate (result unit) :=
  ino ← gets next_ino;
  sys "open" name (λ m,
    match m !! name with
    | None => (<[name := (mkInfo Regular ownerOnly geteuid 1 ino, "")]> m, Ok tt)
    | Some (fi, _) =>
        match Mode fi with
        | Symlink => (m, Err (ErrMsg "too many levels of symbolic links"))
        | Directory => (m, Err ErrIsDir)
        | _ => (m, Ok tt)
        end
    end).

(** [f.Stat], [f.Chmod], [f.Truncate], [f.Write] and [f.Close] of the open file. *)
Definition file_Stat (name : string) : M pstate (result FileInfo) :=
  sys "fstat" name (λ m, (m, match m !! name with Some (fi, _) => Ok fi | None => Err ErrNotExist end)).
Definition file_change (op name : string) (f : FileInfo * string → FileInfo * string) : M pstate (option error) :=
  r ← sys op name (λ m, (alter f name m, Ok tt)); mret (match r with Err e => Some e | Ok _ => None end).
Definition file_Chmod (name : string) (perm : Z) : M pstate (option error) :=
  file_change "chmod" name (λ '(fi, d), (mkInfo (Mode fi) perm (Uid fi) (Nlink fi) (Ino fi), d)).
Definition file_Truncate (name : string) : M pstate (option error) := file_change "truncate" name (λ '(fi, _), (fi, "")).
(** A write that fails may leave a part behind. *)
Definition file_Write (name data : string) : M pstate (option error) := λ s,
  let put (f : string → string) := alter (λ '(fi, d), (fi, f d)) name (pfiles s) in
  match os_fault (pticks s) "write" name with
  | Some f => Some (mkPrivate (put (λ d, default d (fault_left f))) (Datatypes.S (pticks s)) (next_ino s), Some (fault_err f))
  | None => Some (mkPrivate (put (λ d, data +:+ slice_from d (String.length data))) (Datatypes.S (pticks s)) (next_ino s), None)
  end.
Definition file_Close (name : string) : M pstate (option error) := file_change "close" name id.

Definition verifyAndRestrict (name : string) : M pstate (option error) :=
  fi ← file_Stat name;
  match fi with
  | Err e => mret (Some e)
  | Ok fi =>
      if negb (bool_decide (Mode fi = Regular)) then mret (Some (ErrMsg "not a regular file"))
      else if negb (bool_decide (Uid fi = geteuid)) then mret (Some (ErrMsg "owned by another user"))
      else if negb (bool_decide (Nlink fi = 1%Z)) then mret (Some (ErrMsg "has hard links"))
      else file_Chmod name ownerOnly
  end.

(** [Open] with O_WRONLY and, when [trunc], O_TRUNC. *)
Definition Open (name : string) (trunc : bool) : M pstate (option error) :=
  f ← openFile name;
  match f with
  | Err e => mret (Some e)
  | Ok _ =>
      err ← verifyAndRestrict name;
      match err with
      | Some e => _ ← file_Close name; mret (Some (ErrWrap "refusing to open" e))
      | None =>
          if trunc then
            err ← file_Truncate name;
            match err with
            | Some e => _ ← file_Close name; mret (Some e)
            | None => mret None
            end
          else mret None
      end
  end.

Definition WriteFile (name data : string) : M pstate (option error) :=
  err ← Open name true;
  match err with
  | Some e => mret (Some e)
  | None =>
      err ← file_Write name data;
      closeErr ← file_Close name;
      mret (match err with None => closeErr | Some e => Some e end)
  end.

(** ** trustedfile.ReadFile, over the same files *)
Definition openRead (name : string) : M pstate (result unit) :=
  sys "open" name (λ m, (m, match m !! name with
    | None => Err ErrNotExist
    | Some (fi, _) => if bool_decide (Mode fi = Symlink) then Err (ErrMsg "too many levels of symbolic links") else Ok tt
    end)).
Definition verify (name : string) : M pstate (option error) :=
  fi ← file_Stat name;
  mret (match fi with
        | Err e => Some e
        | Ok fi => if negb (bool_decide (Mode fi = Regular)) then Some (ErrMsg "not a regular file") else verifyOwnerAndMode fi
        end).
Definition ReadFile (name : string) : M pstate (result string) :=
  f ← openRead name;
  match f with
  | Err e => mret (Err e)
  | Ok _ =>
      err ← verify name;
      match err with
      | Some e => _ ← file_Close name; mret (Err (ErrWrap "refusing to read" e))
      | None =>
          data ← sys "read" name (λ m, (m, match m !! name with Some (_, d) => Ok d | None => Err ErrNotExist end));
          _ ← file_Close name;
          mret data
      end
  end.

(** ** What a private file is *)
Definition acceptable (fi : FileInfo) : Prop := Mode fi = Regular ∧ Uid fi = geteuid ∧ Nlink fi = 1%Z.
#[local] Instance acceptable_dec fi : Decision (acceptable fi).
Proof. unfold acceptable. apply _. Defined.
Definition private (fi : FileInfo) : Prop := acceptable fi ∧ Perm fi = ownerOnly.

(** [m'] is [m] but for the file [name], and that was left alone unless it was
    acceptable or new; its content is the old one unless it is private now. *)
Definition kept_private (name : string) (m m' : files) : Prop :=
  (∀ q, q ≠ name → m' !! q = m !! q) ∧
  (∀ fi d, m !! name = Some (fi, d) → ¬ acceptable fi → m' !! name = Some (fi, d)) ∧
  (∀ fi' d', m' !! name = Some (fi', d') → (∃ fi, m !! name = Some (fi, d')) ∨ private fi').

Lemma wp_sys {A} op p (k : files → files * result A) (Q : result A → pstate → Prop) s :
  (∀ e t, Q (Err e) (mkPrivate (pfiles s) t (next_ino s))) → (∀ t i, Q (k (pfiles s)).2 (mkPrivate (k (pfiles s)).1 t i)) → wp (sys op p k) Q s.
Proof. intros He Hk. unfold wp, sys. destruct (os_fault _ _ _); [apply He|]. specialize (Hk (S (pticks s)) (next_ino s + 1)%Z). by destruct (k (pfiles s)). Qed.

Lemma wp_file_change op name f (Q : option error → pstate → Prop) s :
  (∀ e t, Q (Some e) (mkPrivate (pfiles s) t (next_ino s))) → (∀ t i, Q None (mkPrivate (alter f name (pfiles s)) t i)) → wp (file_change op name f) Q s.
Proof. intros He Hk. unfold file_change. apply wp_bind, wp_sys; intros; apply wp_ret; [apply He|apply Hk]. Qed.

(** The file was acceptable or new, and is private with content [d]. *)
Definition mine (name : string) (m m' : files) (d : string) : Prop :=
  (∀ q, q ≠ name → m' !! q = m !! q) ∧ (∃ fi, m' !! name = Some (fi, d) ∧ private fi) ∧
  ∀ fi0 d0, m !! name = Some (fi0, d0) → acceptable fi0.

Lemma mine_kept name m m' d : mine name m m' d → kept_private name m m'.
Proof.
  intros (Hq & (fi & Hn & Hp) & Ha). split; [done|]. split; [intros fi0 d0 E0 Hna; by apply Ha in E0|]. intros fi' d' E. right. congruence.
Qed.
Lemma mine_alter name m m' d f d' : (∀ fi, f (fi, d) = (fi, d')) → mine name m m' d → mine name m (alter f name m') d'.
Proof.
  intros Hf (Hq & (fi & Hn & Hp) & Ha). split; [intros q Hne; rewrite lookup_alter_ne by done; by apply Hq|]. split; [|done].
  exists fi. by rewrite lookup_alter_eq, Hn, <-Hf.
Qed.
Lemma kept_private_refl name m : kept_private name m m.
Proof. split_and!; [done|by intros|intros fi' d' ?; left; by eexists]. Qed.

(** The file as it was opened: as it was, or new. *)
Definition opened (name : string) (m m' : files) : Prop :=
  m' = m ∨ m !! name = None ∧ ∃ fi, private fi ∧ m' = <[name := (fi, "")]> m.

Lemma opened_kept name m m' : opened name m m' → kept_private name m m'.
Proof.
  intros [->|(Hn & fi & Hp & ->)]; [apply kept_private_refl|]. split_and!.
  - intros q Hne. by rewrite lookup_insert_ne.
  - intros fi0 d0. by rewrite Hn.
  - intros fi' d'. rewrite lookup_insert_eq. intros [= <- <-]. by right.
Qed.

Lemma wp_openFile name s : wp (openFile name) (λ _ s', opened name (pfiles s) (pfiles s')) s.
Proof.
  unfold openFile. apply wp_bind, wp_gets, wp_sys; [intros; by left|]. intros t i. cbn [fst snd]. destruct (pfiles s !! name) as [[fi d]|] eqn:E.
  - left. by destruct (Mode fi).
  - right. split; [done|]. eexists. split; [|done]. by split_and!.
Qed.

Lemma wp_file_Close name (Q : option error → pstate → Prop) s : (∀ e t i, Q e (mkPrivate (pfiles s) t i)) → wp (file_Close name) Q s.
Proof. intros HQ. unfold file_Close. apply wp_file_change; intros; [apply HQ|]. rewrite alter_id by done. apply HQ. Qed.

Lemma wp_verifyAndRestrict name m s : opened name m (pfiles s) →
  wp (verifyAndRestrict name) (λ e s', match e with None => ∃ d, mine name m (pfiles s') d | Some _ => kept_private name m (pfiles s') end) s.
Proof.
  intros Ho. pose proof (opened_kept _ _ _ Ho) as Hk. unfold verifyAndRestrict. apply wp_bind, wp_sys; [intros; by apply wp_ret|]. intros t i. cbn [fst snd].
  destruct (pfiles s !! name) as [[fi d]|] eqn:E; [|by apply wp_ret]. case_bool_decide as E1; [|by apply wp_ret]. cbn [negb].
  case_bool_decide as E2; [|by apply wp_ret]. cbn [negb]. case_bool_decide as E3; [|by apply wp_ret]. cbn [negb].
  apply wp_file_change; [by intros|]. intros t2 i2. cbn [pfiles]. exists d.
  assert (Hname : alter (λ '(fi, d), (mkInfo (Mode fi) ownerOnly (Uid fi) (Nlink fi) (Ino fi), d)) name (pfiles s) !! name =
    Some (mkInfo (Mode fi) ownerOnly (Uid fi) (Nlink fi) (Ino fi), d)) by (by rewrite lookup_alter_eq, E).
  split; [|split].
  - intros q Hne. rewrite lookup_alter_ne by done. by apply Hk.
  - eexists. split; [exact Hname|]. by split_and!.
  - intros fi0 d0 E0. destruct Ho as [Em|(Hn & _)]; [|congruence]. rewrite Em in E. assert (fi0 = fi) as -> by congruence. by split_and!.
Qed.

Lemma wp_Open name s :
  wp (Open name true) (λ e s', match e with None => mine name (pfiles s) (pfiles s') "" | Some _ => kept_private name (pfiles s) (pfiles s') end) s.
Proof.
  unfold Open. apply wp_bind. eapply wp_mono; [apply wp_openFile|]. cbn beta. intros f s1 Ho.
  destruct f as [_|e]; [|apply wp_ret; by apply opened_kept]. apply wp_bind. eapply wp_mono; [by apply wp_verifyAndRestrict|]. cbn beta.
  intros [e|] s2 Hm; [apply wp_bind, wp_file_Close; intros; by apply wp_ret|]. destruct Hm as [d Hm].
  apply wp_bind, wp_file_change; [intros; apply wp_bind, wp_file_Close; intros; apply wp_ret; by eapply mine_kept|].
  intros t i. apply wp_ret. by eapply mine_alter.
Qed.

(** Writing a private file, whatever fails in between, touches no other
    file, and leaves alone a link, a directory, a file of another user and one
    with several names; what is written is only ever in a file of the user's
    own with one name that nobody else can open; without an error it is all
    there. *)
Theorem WriteFile_private name data s :
  wp (WriteFile name data) (λ e s', kept_private name (pfiles s) (pfiles s') ∧
    (e = None → ∃ fi, pfiles s' !! name = Some (fi, data) ∧ private fi)) s.
Proof.
  unfold WriteFile. apply wp_bind. eapply wp_mono; [apply wp_Open|]. cbn beta. intros [e|] s1 Hm; [by apply wp_ret|].
  apply wp_bind. unfold wp at 1, file_Write. destruct (os_fault _ _ _) as [f|].
  - apply wp_bind, wp_file_Close. intros. apply wp_ret. split; [|done]. eapply mine_kept, mine_alter; [|exact Hm]. done.
  - apply wp_bind, wp_file_Close. intros e t' i'. apply wp_ret.
    assert (Hw : mine name (pfiles s) (alter (λ '(fi, d), (fi, data +:+ slice_from d (String.length data))) name (pfiles s1)) data).
    { eapply mine_alter; [|exact Hm]. intros fi. f_equal. apply to_bytes_eq. unfold slice_from. change (to_bytes "") with (@nil byte).
      rewrite drop_nil, to_bytes_app. apply app_nil_r. }
    split; [by eapply mine_kept|]. intros _. apply Hw.
Qed.
End private.
End IsvTrust.
