(* ===== verification/IsvExec.v ===== *)
(** * guest_telemetry_extension/isvdiscovery/commandlineexecutor

    commandlineexecutor.go and exec_linux.go: running a command, its arguments,
    the user it runs as and what of it is checked before the extension, which
    runs as root, starts it. *)
From stdpp Require Import gmap strings list.
From S2P Require Import Prelude GoStrings Accounts Regexp ShellQuote IsvTrust.

Module IsvExec.
Import IsvTrust.

Record Params := mkParams {
  Executable : string;
  ArgsToSplit : string;
  Args : list string;
  Timeout : Z;
  User : string;
  Env : list string;
  Stdin : string;
}.

Record Result := mkResult {
  StdOut : string;
  StdErr : string;
  ExitCode : Z;
  Error : option error;
  ExecutableFound : bool;
  ExitStatusParsed : bool;
}.

(** [syscall.Credential]. *)
Record Credential := mkCredential { cred_Uid : Z; cred_Gid : Z; Groups : list Z }.

(** A program that is started: its file, arguments, added environment, input,
    and the user when it is not the current one. *)
Record command := mkCommand {
  cmd_path : string;
  cmd_args : list string;
  cmd_env : list string;
  cmd_stdin : string;
  cmd_cred : option Credential;
}.

(** How a run fails: the error, its text, the code of an [exec.ExitError]. *)
Record run_error := mkRunError { run_err : error; run_text : string; run_code : option Z }.

(** The system's answers; the first argument counts the calls. *)
Class ExecWorld := {
  LookPath : nat → string → result string;
  exe_Run : nat → command → string * string * option run_error;
}.

(** The programs started so far and the count of calls. *)
Record exec_state := mkExec { started : list command; exec_calls : nat }.
#[global] Instance exec_Counting : Counting exec_state := {| calls_of := exec_calls; set_calls n s := mkExec (started s) n |}.

(** ** Arguments *)
Definition restrictedArgs : list string := [";"; "&"; "|"; ">"; "<"; "`"; String nl ""; "$("].

(** "" stands for none, as in the code. *)
Definition checkRestrictedArgs (args : list string) : string :=
  match Regexp.first_some (λ arg, Regexp.first_some (λ r, if Contains arg r then Some r else None) restrictedArgs) args with
  | Some r => r
  | None => ""
  end.

Definition envNames (env : list string) : list string := (λ kv, (Cut kv (byte_of 61)).1.1) <$> env.

(** [\s]. *)
Definition space (b : byte) : bool := existsb (beqb b) [byte_of 9; byte_of 10; byte_of 12; byte_of 13; byte_of 32].

Fixpoint span (f : byte → bool) (l : bytes) : bytes * bytes :=
  match l with
  | b :: l' => if f b then let '(x, y) := span f l' in (b :: x, y) else ([], l)
  | [] => ([], [])
  end.

(** [FindAllString] of the pattern of [splitParams]: runs without spaces and
    quotes, and texts between two quotes. *)
Fixpoint find_params (fuel : nat) (l : bytes) : list bytes :=
  match fuel, l with
  | S fuel, b :: rest =>
      if beqb b ShellQuote.squote then
        match span (λ c, negb (beqb c ShellQuote.squote)) rest with
        | (x, _ :: rest') => ([b] ++ x ++ [ShellQuote.squote]) :: find_params fuel rest'
        | (_, []) => find_params fuel rest
        end
      else if space b then find_params fuel rest
      else let '(x, rest') := span (λ c, negb (space c || beqb c ShellQuote.squote)) l in x :: find_params fuel rest'
  | _, _ => []
  end.

Definition unquote (a : bytes) : bytes :=
  match a, last a with
  | b :: _, Some e => if beqb b ShellQuote.squote && beqb e ShellQuote.squote then take (length a - 2) (drop 1 a) else a
  | _, _ => a
  end.

Definition splitParams (executable : string) : list string :=
  (λ a, of_bytes (ShellQuote.replace_byte ShellQuote.backtick [ShellQuote.squote] (unquote a))) <$> find_params (String.length executable) (to_bytes executable).

Example splitParams_examples :
  splitParams "bash -c 'ls $0 $1' /etc /home" = ["bash"; "-c"; "ls $0 $1"; "/etc"; "/home"] ∧
  splitParams "-c 'grep -Eo `a b` x'" = ["-c"; "grep -Eo 'a b' x"] ∧ splitParams "it's" = ["it"; "s"] ∧ splitParams "''" = [""].
Proof. by vm_compute. Qed.

(** ** User names *)
Definition name_first (b : byte) : bool := ShellQuote.is_letter b || ShellQuote.is_digit b || existsb (beqb b) (to_bytes "_.").
Definition name_rest (b : byte) : bool := name_first b || existsb (beqb b) (to_bytes "@-").

(** [usernamePattern]: the dollar sign may end the name. *)
Definition usernamePattern (l : bytes) : bool :=
  match l with
  | b :: rest =>
      name_first b &&
      (forallb name_rest rest ||
       match last rest with Some e => beqb e ShellQuote.dollar && forallb name_rest (take (length rest - 1) rest) | None => false end)
  | [] => false
  end.
Definition IsValidUsername (name : string) : bool := Nat.leb (String.length name) 256 && usernamePattern (to_bytes name).

Example IsValidUsername_examples :
  Forall (λ n, IsValidUsername n = true) ["root"; "sap_adm"; "user.name@example"; "machine$"] ∧
  Forall (λ n, IsValidUsername n = false) [""; "-l"; "@x"; "a b"; "$"; "a$b"; "x;y"].
Proof. split; repeat constructor; by vm_compute. Qed.

(** ** Running *)
Section exec.
Context `{ExecWorld} `{TrustWorld}.

Definition CommandExists (executable : string) : M exec_state bool := r ← ask (λ n, LookPath n executable); mret (is_ok r).

Definition commandExitCode (e : run_error) : Z := default 0%Z (run_code e).

(** [exec.CommandContext] looks a name without a slash up. *)
Definition exec_Command (name : string) : M exec_state (result string) :=
  if Contains name "/" then mret (Ok name) else ask (λ n, LookPath n name).

Definition exe_run (c : command) : M exec_state (string * string * option run_error) := λ s,
  Some (mkExec (started s ++ [c]) (S (exec_calls s)), exe_Run (exec_calls s) c).

Definition exitStatusPattern : Regexp.pattern := [(None, Regexp.lit "exit status "); (Some "1", Regexp.Many1 Regexp.is_digit)].

(** [strconv.ParseUint(field, 10, 32)]. *)
Definition ParseUint32 (s : string) : option Z :=
  let l := to_bytes s in
  if bool_decide (l = []) || negb (forallb Regexp.is_digit l) then None
  else
    let v := foldl (λ a b, (10 * a + (Z.of_N (Ascii.N_of_ascii b) - 48))%Z) 0%Z l in
    if bool_decide (v < 2 ^ 32)%Z then Some v else None.

Definition userIDs (executeCommand : Params → M exec_state Result) (flag user : string) : M exec_state (result (list Z)) :=
  result ← executeCommand (mkParams "id" "" [flag; "--"; user] 0 "" [] "");
  mret (match Error result with
        | Some e => Err (ErrFmt "id failed with" e)
        | None =>
            let fields := Fields (StdOut result) in
            if bool_decide (fields = []) then Err (ErrMsg "could not parse IDs from StdOut")
            else match mapM ParseUint32 fields with
                 | Some ids => Ok ids
                 | None => Err (ErrMsg "could not parse IDs from StdOut")
                 end
        end).

Definition credential (executeCommand : Params → M exec_state Result) (user : string) : M exec_state (result Credential) :=
  if negb (IsValidUsername user) then mret (Err (ErrMsg "invalid user name"))
  else
    uid ← userIDs executeCommand "-u" user;
    match uid with
    | Err e => mret (Err e)
    | Ok uid =>
        gid ← userIDs executeCommand "-g" user;
        match gid with
        | Err e => mret (Err e)
        | Ok gid =>
            groups ← userIDs executeCommand "-G" user;
            mret (match groups with
                  | Err e => Err e
                  | Ok groups =>
                      match uid, gid with
                      | [u], [g] =>
                          if bool_decide (u = 0%Z) then Err (ErrMsg "refusing to run a command as a user which has UID 0")
                          else Ok (mkCredential u g groups)
                      | _, _ => Err (ErrMsg "want one of each")
                      end
                  end)
        end
    end.

(** The path and the credential the program starts with. *)
Definition setupExeForPlatform (executeCommand : Params → M exec_state Result) (path : string) (params : Params) : M exec_state (result (string * option Credential)) :=
  if negb (bool_decide (User params = "")) then
    cred ← credential executeCommand (User params);
    mret (match cred with Err e => Err e | Ok cred => Ok (path, Some cred) end)
  else if bool_decide (geteuid = 0%Z) then
    p ← CheckPath path;
    mret (match p with Err e => Err (ErrWrap "refusing to run as root" e) | Ok p => Ok (p, None) end)
  else mret (Ok (path, None)).

(** What becomes of a program that failed. *)
Definition failed_result (out errout : string) (e : run_error) : Result :=
  match Regexp.GroupsMap exitStatusPattern (run_text e) "1" with
  | Some digits =>
      match Accounts.Atoi digits with
      | Some code => mkResult out errout code (Some (run_err e)) true true
      | None => mkResult out errout (commandExitCode e) (Some (run_err e)) true false
      end
  | None => mkResult out errout (commandExitCode e) (Some (run_err e)) true false
  end.

(** The commands that look a user up are run the same way: two levels. *)
Fixpoint execute (fuel : nat) (params : Params) : M exec_state Result :=
  match fuel with
  | 0 => panic
  | S fuel =>
      found ← CommandExists (Executable params);
      if negb found then mret (mkResult "" "Command executable not found." 0 (Some (ErrMsg "command executable: not found")) false false)
      else
        let args := if bool_decide (ArgsToSplit params = "") then Args params else splitParams (ArgsToSplit params) in
        if negb (bool_decide (checkRestrictedArgs args = "")) then
          mret (mkResult "" "Command contains restricted argument" 0 (Some (ErrMsg "command contains restricted argument")) true false)
        else
          exe ← exec_Command (Executable params);
          set ← setupExeForPlatform (execute fuel) (match exe with Ok p => p | Err _ => Executable params end) params;
          match set with
          | Err e => mret (mkResult "" "" 0 (Some e) true false)
          | Ok (path, cred) =>
              match exe with
              | Err e => mret (failed_result "" "" (mkRunError e "executable file not found in $PATH" None))
              | Ok _ =>
                  '(out, errout, err) ← exe_run (mkCommand path args (Env params) (Stdin params) cred);
                  mret (match err with
                        | Some e => failed_result out errout e
                        | None => mkResult out errout 0 None true false
                        end)
              end
          end
  end.

Definition ExecuteCommand (params : Params) : M exec_state Result := execute 2 params.

(** ** What is started *)
Lemma restricted_none args : checkRestrictedArgs args = "" → ∀ arg r, arg ∈ args → r ∈ restrictedArgs → Contains arg r = false.
Proof.
  unfold checkRestrictedArgs. intros E arg r Ha Hr. destruct (Contains arg r) eqn:Ec; [|done]. exfalso.
  destruct (Regexp.first_some _ args) as [r'|] eqn:Ef.
  - apply Regexp.first_some_Some in Ef as (a & _ & Ef). apply Regexp.first_some_Some in Ef as (x & Hx & Ef). destruct (Contains a x); [|done].
    injection Ef as ->. subst r'. revert Hx. apply (bool_decide_unpack _). by vm_compute.
  - apply (Regexp.first_some_None _ _ arg) in Ef; [|done]. apply (Regexp.first_some_None _ _ r) in Ef; [|done]. cbv beta in Ef. by rewrite Ec in Ef.
Qed.

(** A program the extension may start: no argument holds an operator or a
    substitution of the shell; one for a named user does not run as root; and
    root runs only files that nobody else can change. *)
Definition safe (c : command) : Prop :=
  (∀ arg r, arg ∈ cmd_args c → r ∈ restrictedArgs → Contains arg r = false) ∧
  match cmd_cred c with
  | Some cred => cred_Uid cred ≠ 0%Z
  | None => geteuid = 0%Z → trusted_path (cmd_path c)
  end.

Definition grew (s s' : exec_state) : Prop := ∃ cs, started s' = started s ++ cs ∧ Forall safe cs.
#[global] Instance grew_preorder : PreOrder grew.
Proof.
  split; [intros s; exists []; by rewrite app_nil_r|]. intros a b c (x & E1 & Hx) (y & E & Hy). exists (x ++ y). rewrite E, E1, app_assoc. split; [done|].
  by apply Forall_app.
Qed.

Lemma grew_ask {A} (f : nat → A) : total (ask f) ∧ respects grew (ask f).
Proof. split; [by intros s; eexists|]. intros s s' a [= <- _]. exists []. by rewrite app_nil_r. Qed.

Lemma wp_ask {A} (f : nat → A) (Q : A → exec_state → Prop) s : (∀ n s', grew s s' → Q (f n) s') → wp (ask f) Q s.
Proof. intros HQ. apply HQ. exists []. by rewrite app_nil_r. Qed.

Lemma respects_check_elements name ps : total (check_elements name ps) ∧ respects grew (check_elements name ps).
Proof.
  induction ps as [|p ps [IHt IHr]]; cbn [check_elements].
  - split; [apply total_ret|apply respects_ret, _].
  - split; [apply total_bind; [apply grew_ask|]|apply respects_bind; [apply _|apply grew_ask|]]; intros [fi|e]; try destruct (verifyPathElement fi); (done || apply total_ret || (apply respects_ret, _)).
Qed.
Lemma wp_checked name (Q : result string → exec_state → Prop) s :
  (∀ r s', grew s s' → (∀ p, r = Ok p → trusted_path p) → Q r s') → wp (CheckPath name) Q s.
Proof.
  intros HQ. eapply wp_mono; [apply wp_and; [apply wp_CheckPath|]|cbn beta; intros r s' [H1 H2]; exact (HQ r s' H2 H1)].
  apply (wp_total_respects _ grew); [|unfold CheckPath|by intros].
  - enough (Ht : total (CheckPath name)) by apply Ht. apply total_bind; [apply grew_ask|]. intros [p|e]; [|apply total_ret]. apply total_bind; [apply grew_ask|].
    intros [p'|e]; [|apply total_ret]. apply total_bind; [apply respects_check_elements|intros []; apply total_ret].
  - apply respects_bind; [apply _|apply grew_ask|]. intros [p|e]; [|apply respects_ret, _]. apply respects_bind; [apply _|apply grew_ask|].
    intros [p'|e]; [|apply respects_ret, _]. apply respects_bind; [apply _|apply respects_check_elements|intros; apply respects_ret, _].
Qed.

(** A run whose set-up is done by [setup] with the promises below. *)
Definition runs_safely (m : Params → M exec_state Result) (params : Params) : Prop := ∀ s, wp (m params) (λ _ s', grew s s') s.

Lemma wp_userIDs ex flag user s : (∀ flag, runs_safely ex (mkParams "id" "" [flag; "--"; user] 0 "" [] "")) →
  wp (userIDs ex flag user) (λ _ s', grew s s') s.
Proof. intros He. unfold userIDs. apply wp_bind. eapply wp_mono; [apply He|]. intros r s' G. by apply wp_ret. Qed.

Lemma wp_credential ex user s : (∀ flag, runs_safely ex (mkParams "id" "" [flag; "--"; user] 0 "" [] "")) →
  wp (credential ex user) (λ r s', grew s s' ∧ ∀ cred, r = Ok cred → cred_Uid cred ≠ 0%Z) s.
Proof.
  intros He. unfold credential. destruct (IsValidUsername user); cbn [negb]; [|by apply wp_ret].
  apply wp_bind. eapply wp_mono; [by apply wp_userIDs|]. cbn beta. intros [uid|e] s1 G1; [|by apply wp_ret].
  apply wp_bind. eapply wp_mono; [by apply wp_userIDs|]. cbn beta. intros [gid|e] s2 G2; [|apply wp_ret; split; [by etrans|done]].
  apply wp_bind. eapply wp_mono; [by apply wp_userIDs|]. cbn beta. intros groups s3 G3. apply wp_ret. split; [by do 2 (etrans; [eassumption|])|].
  intros cred. destruct groups as [gs|e]; [|done]. destruct uid as [|u [|]], gid as [|g [|]]; try done. case_bool_decide; [done|]. by intros [= <-].
Qed.

(** What a set-up gives a program. *)
Definition prepared (params : Params) (r : result (string * option Credential)) : Prop :=
  ∀ p cred, r = Ok (p, cred) → (is_Some cred ↔ User params ≠ "") ∧
    match cred with Some c => cred_Uid c ≠ 0%Z | None => geteuid = 0%Z → trusted_path p end.

Lemma wp_setup ex path params s :
  (User params ≠ "" → ∀ flag, runs_safely ex (mkParams "id" "" [flag; "--"; User params] 0 "" [] "")) →
  wp (setupExeForPlatform ex path params) (λ r s', grew s s' ∧ prepared params r) s.
Proof.
  intros He. unfold setupExeForPlatform, prepared. case_bool_decide as Eu; cbn [negb].
  - assert (Hn : is_Some (@None Credential) ↔ User params ≠ "") by (split; [by intros []|done]).
    case_bool_decide as E0; [|apply wp_ret; split; [done|]; by intros p cred [= <- <-]].
    apply wp_bind, wp_checked. intros r s1 G1 Hr. apply wp_ret. split; [done|]. destruct r as [p|e]; intros p' cred; [|done]. intros [= <- <-]. split; [done|].
    intros _. by apply Hr.
  - apply wp_bind. eapply wp_mono; [by apply wp_credential; apply He|]. cbn beta. intros r s1 [G1 Hr]. apply wp_ret. split; [done|].
    destruct r as [cr|e]; intros p' cred; [|done]. intros [= <- <-]. split; [by split; [|by eexists]|]. by apply Hr.
Qed.

Lemma failed_result_error out errout e : Error (failed_result out errout e) = Some (run_err e).
Proof. unfold failed_result. destruct (Regexp.GroupsMap _ _ _); [|done]. by destruct (Accounts.Atoi _). Qed.

(** The last program started is the one asked for. *)
Definition ran_last (params : Params) (r : Result) (s : exec_state) : Prop :=
  ∃ before c, started s = before ++ [c] ∧ cmd_stdin c = Stdin params ∧ cmd_env c = Env params ∧
    cmd_args c = (if bool_decide (ArgsToSplit params = "") then Args params else splitParams (ArgsToSplit params)) ∧
    (is_Some (cmd_cred c) ↔ User params ≠ "") ∧ ExitCode r = 0%Z ∧ ExecutableFound r = true.

Lemma wp_execute fuel params s :
  (User params ≠ "" → ∀ flag, runs_safely (execute fuel) (mkParams "id" "" [flag; "--"; User params] 0 "" [] "")) →
  wp (execute (S fuel) params) (λ r s', grew s s' ∧ (Error r = None → ran_last params r s')) s.
Proof.
  intros He. cbn [execute]. apply wp_bind. unfold CommandExists. apply wp_bind, wp_ask. intros n s1 G1. apply wp_ret.
  destruct (is_ok _); cbn [negb]; [|by apply wp_ret]. cbn zeta. set (args := if bool_decide (ArgsToSplit params = "") then _ else _).
  case_bool_decide as Er; cbn [negb]; [|by apply wp_ret].
  apply wp_bind. apply (wp_mono _ (λ exe s2, grew s s2)).
  { unfold exec_Command. destruct (Contains _ _); [by apply wp_ret|]. apply wp_ask. intros m s2 G2. by etrans. }
  intros exe s2 G2. apply wp_bind. eapply wp_mono; [by apply wp_setup|]. cbn beta. intros r s3 [G3 Hp].
  assert (G : grew s s3) by (by etrans). destruct r as [[path cred]|e]; [|by apply wp_ret]. destruct (Hp path cred eq_refl) as [Hu Hc].
  destruct exe as [p|e]; [|apply wp_ret; split; [done|]; by rewrite failed_result_error].
  set (c := mkCommand path args (Env params) (Stdin params) cred). apply wp_bind. unfold wp at 1, exe_run.
  assert (Gc : ∀ k, grew s (mkExec (started s3 ++ [c]) k)).
  { intros k. etrans; [exact G|]. exists [c]. split; [done|]. apply Forall_singleton. split; [by apply restricted_none|]. by destruct cred. }
  destruct (exe_Run (exec_calls s3) c) as [[out errout] [e|]]; apply wp_ret; (split; [apply Gc|]); [by rewrite failed_result_error|].
  intros _. exists (started s3), c. by split_and!.
Qed.

Lemma execute_plain fuel params : User params = "" → runs_safely (execute (S fuel)) params.
Proof. intros Hu s. eapply wp_mono; [apply wp_execute; by rewrite Hu|]. by intros r s' [? _]. Qed.

Lemma wp_ExecuteCommand params s : wp (ExecuteCommand params) (λ r s', grew s s' ∧ (Error r = None → ran_last params r s')) s.
Proof. apply wp_execute. intros _ flag. by apply execute_plain. Qed.

End exec.
End IsvExec.
