(* ===== verification/IsvEngine.v ===== *)
(** * guest_telemetry_extension/isvdiscovery/engine: discovery rules

    engine.go, rootcommand.go and versioncommands.go: the conditions of a rule
    over the processes of the machine, the commands that tell a version, which
    parts of them come from the discovered process, and as whom they may run.
    The quoting for the shell is ShellQuote.v, the running IsvExec.v. *)
From stdpp Require Import gmap strings list pretty.
From S2P Require Import Prelude GoStrings Regexp ShellQuote IsvTrust IsvExec.

Module IsvEngine.
Import IsvTrust IsvExec.

(** [VMInfo] and [ProcessInfo]. *)
Record VMInfo := mkVM {
  ProcessNames : list string;
  ProcessPaths : list string;
  ProcessArgs : list string;
  ProcessEnvVars : list string;
  Usernames : list string;
  PIDs : list Z;
  OSName : string;
}.
Record ProcessInfo := mkProcess {
  Name : string;
  Path : string;
  Arg : string;
  EnvVar : string;
  Username : string;
  PID : Z;
  process_OSName : string;
}.

(** ** The messages of the rules (proto3: enumerations are open) *)
Definition VM_FIELD_UNSPECIFIED : Z := 0.
Definition VM_PROCESS_NAME : Z := 1.
Definition VM_PROCESS_PATH : Z := 2.
Definition VM_OS_NAME : Z := 3.
Definition VM_CLI_ARGS : Z := 4.
Definition VM_ENV_VARS : Z := 5.

Record StringMatchCondition := mkStringMatch { VmField : option Z; RegexMatch : string }.
Record Condition := mkCondition { StringMatch : option StringMatchCondition; Negated : bool }.
Inductive AllCondition := mkAll (conditions : list Condition) (any : option AnyCondition)
with AnyCondition := mkAny (conditions : list Condition) (all : option AllCondition).

Inductive Rule := Rule_not_set | Condition_case (c : Condition) | All_case (all : AllCondition) | Any_case (any : AnyCondition).

Record VersionCommandStep := mkStep {
  step_Command : Z;
  step_CommandArgs : list string;
  step_RegexMatch : string;
  step_RunAsDiscoveredProcessUser : bool;
  step_ExtendedCommand : Z;
  UsePreviousOutputAsStdin : bool;
}.
Record DiscoveryVersionRule := mkVersionRule {
  Command : Z;
  CommandArgs : list string;
  rule_RegexMatch : string;
  RunAsDiscoveredProcessUser : bool;
  ExtendedCommand : Z;
  Steps : list VersionCommandStep;
  VersionExtractPattern : string;
  ProcessField : Z;
}.
Record DiscoveryRule := mkRule { rule : Rule; VersionRules : list DiscoveryVersionRule; DiscoveredWorkloadName : string }.
Record DetectedData := mkDetected { detected_Name : string; Version : string }.
#[global] Instance DetectedData_eq_dec : EqDecision DetectedData.
Proof. solve_decision. Defined.

(** Regular expressions that the rules bring along, the environment of the
    extension, the users, the end of the context. *)
Class EngineWorld := {
  regexp_Compile : string → option error;
  re_MatchString : string → string → bool;
  re_FindStringSubmatch : string → string → list string;
  LookupEnv : string → option string;
  user_Lookup : nat → string → result string;
  ctx_Err : nat → option error;
}.

(** ** versioncommands.go *)
Definition Cmd : list string :=
  ["unspecified"; "cat"; "/usr/sbin/apache2"; "/usr/sbin/httpd"; "postgres"; "psql"; "nodetool"; "mongod"; "/usr/sbin/mysqld";
   "$ORACLE_HOME/bin/sqlplus"; "redis-server"; "mariadb"; "/usr/sap/*/SYS/exe/run/gwrd"; "grep"; "Get-Command"; "$IQDIR15/bin64/start_iq";
   "$IQDIR16/bin64/start_iq"; "C:\SAP\IQ-15_0\bin64\iqsrv15.exe"; "C:\SAP\IQ-16_0\bin64\iqsrv16.exe"; "DEPRECATED_FINDSAPWEBAS";
   "/usr/sbin/pacemakerd"; "sqlservr"; "Get-ItemPropertyValue"; "$ORACLE_HOME/OPatch/opatch"; "$ORACLE_HOME/bin/dgmgrl"; "java";
   "$OGG_HOME/ggsci"; "$PS_HOME/appserv/psadmin"; "/hana/shared/WHP/hdblcm/hdblcm"; "mysql"; "/usr/share/cassandra/bin/nodetool";
   "/usr/sbin/nodetool"; "/opt/mssql/bin/sqlservr"; "USE_DISCOVERED_PROCESS_PATH"].
Definition ExtendedCmd : list string :=
  ["unspecified"; "HDB"; "disp+work"; "msg_server"; "enserver"; "awk"; "sapwebdisp"; "start_iq"; "enrep"; "spark-submit";
   "$SPARK_HOME/bin/spark-submit"; "crictl"; "hadoop"; "$HADOOP_HOME/bin/hadoop"; "dpkg"; "rpm"; "Get-Package"].

(** An index into a slice, [None] out of bounds. *)
Definition nth_command (cmds : list string) (i : Z) : option string := if bool_decide (0 ≤ i)%Z then cmds !! Z.to_nat i else None.

(** [wincommands.Implements], and [wincommands.Run] on Linux. *)
Definition Implements (name : string) : bool := bool_decide (name ∈ ["Get-Command"; "Get-ItemPropertyValue"; "Get-Package"]).
Definition ErrUnsupported : error := ErrMsg "unsupported operation".

(** ** Conditions *)
Definition safeGet {A} (zero : A) (s : list A) (i : nat) : A := default zero (s !! i).

Definition process_at (vm : VMInfo) (i : nat) : ProcessInfo :=
  mkProcess (safeGet "" (ProcessNames vm) i) (safeGet "" (ProcessPaths vm) i) (safeGet "" (ProcessArgs vm) i) (safeGet "" (ProcessEnvVars vm) i)
    (safeGet "" (Usernames vm) i) (safeGet 0%Z (PIDs vm) i) (OSName vm).

Section engine.
Context `{EngineWorld}.

(** [regexp.MatchString] without an error. *)
Definition matches (pattern value : string) : bool := bool_decide (regexp_Compile pattern = None) && re_MatchString pattern value.

Fixpoint find_match (pattern : string) (i : nat) (values : list string) : option nat :=
  match values with
  | [] => None
  | v :: values => if matches pattern v then Some i else find_match pattern (S i) values
  end.

Definition checkStringMatch (pattern : string) (values : list string) (vm : VMInfo) (isProcess : bool) : bool * option ProcessInfo :=
  match find_match pattern 0 values with
  | Some i => (true, Some (if isProcess then process_at vm i else mkProcess "" "" "" "" "" 0 (OSName vm)))
  | None => (false, None)
  end.

(** The values a condition looks at, and whether they are of processes. *)
Definition field_values (field : Z) (vm : VMInfo) : option (list string * bool) :=
  if bool_decide (field = VM_PROCESS_NAME) then Some (ProcessNames vm, true)
  else if bool_decide (field = VM_PROCESS_PATH) then Some (ProcessPaths vm, true)
  else if bool_decide (field = VM_OS_NAME) then Some ([OSName vm], false)
  else if bool_decide (field = VM_CLI_ARGS) then Some (ProcessArgs vm, true)
  else if bool_decide (field = VM_ENV_VARS) then Some (ProcessEnvVars vm, true)
  else None.

Definition checkCondition (c : Condition) (vm : VMInfo) : bool * option ProcessInfo :=
  match StringMatch c with
  | Some (mkStringMatch (Some field) pattern) =>
      match field_values field vm with
      | Some (values, isProcess) =>
          let '(result, p) := checkStringMatch pattern values vm isProcess in
          (if Negated c then negb result else result, p)
      | None => (false, None)
      end
  | _ => (false, None)
  end.

(** The first process with a path is kept. *)
Definition keep_process (acc p : option ProcessInfo) : option ProcessInfo :=
  match acc, p with
  | None, Some q => if bool_decide (Path q = "") then None else Some q
  | _, _ => acc
  end.

(** The loops over the conditions: [None] when one does not hold. *)
Fixpoint all_of (cs : list Condition) (vm : VMInfo) (acc : option ProcessInfo) : option (option ProcessInfo) :=
  match cs with
  | [] => Some acc
  | c :: cs => let '(result, p) := checkCondition c vm in if negb result then None else all_of cs vm (keep_process acc p)
  end.
Fixpoint any_of (cs : list Condition) (vm : VMInfo) : option (option ProcessInfo) :=
  match cs with
  | [] => None
  | c :: cs => let '(result, p) := checkCondition c vm in if result then Some p else any_of cs vm
  end.

Fixpoint evalAllCondition (all : AllCondition) (vm : VMInfo) : bool * option ProcessInfo :=
  let '(mkAll cs any) := all in
  match all_of cs vm None with
  | None => (false, None)
  | Some acc =>
      match any with
      | None => (true, acc)
      | Some any =>
          let '(result, p) := evalAnyCondition any vm in
          if negb result then (false, None) else (true, keep_process acc p)
      end
  end
with evalAnyCondition (any : AnyCondition) (vm : VMInfo) : bool * option ProcessInfo :=
  let '(mkAny cs all) := any in
  match any_of cs vm with
  | Some p => (true, p)
  | None =>
      match all with
      | None => (false, None)
      | Some all => let '(result, p) := evalAllCondition all vm in if result then (true, p) else (false, None)
      end
  end.

Definition executeRule (r : DiscoveryRule) (vm : VMInfo) : bool * option ProcessInfo :=
  match rule r with
  | Condition_case c => checkCondition c vm
  | All_case all => evalAllCondition all vm
  | Any_case any => evalAnyCondition any vm
  | Rule_not_set => (false, None)
  end.

(** ** What a rule means *)

(** A condition looks at a field and holds for one of its values, or for none
    when it is negated; one the extension does not know holds never. *)
Definition condition_holds (c : Condition) (vm : VMInfo) : Prop :=
  ∃ field pattern values isProcess, StringMatch c = Some (mkStringMatch (Some field) pattern) ∧ field_values field vm = Some (values, isProcess) ∧
    if Negated c then ∀ v, v ∈ values → matches pattern v = false else ∃ v, v ∈ values ∧ matches pattern v = true.

Fixpoint all_holds (all : AllCondition) (vm : VMInfo) : Prop :=
  let '(mkAll cs any) := all in
  (∀ c, c ∈ cs → condition_holds c vm) ∧ match any with Some any => any_holds any vm | None => True end
with any_holds (any : AnyCondition) (vm : VMInfo) : Prop :=
  let '(mkAny cs all) := any in
  (∃ c, c ∈ cs ∧ condition_holds c vm) ∨ match all with Some all => all_holds all vm | None => False end.

Definition rule_holds (r : Rule) (vm : VMInfo) : Prop :=
  match r with
  | Rule_not_set => False
  | Condition_case c => condition_holds c vm
  | All_case all => all_holds all vm
  | Any_case any => any_holds any vm
  end.

(** The conditions of a rule, at every depth. *)
Fixpoint all_conditions (all : AllCondition) : list Condition :=
  let '(mkAll cs any) := all in cs ++ match any with Some any => any_conditions any | None => [] end
with any_conditions (any : AnyCondition) : list Condition :=
  let '(mkAny cs all) := any in cs ++ match all with Some all => all_conditions all | None => [] end.
Definition rule_conditions (r : Rule) : list Condition :=
  match r with Rule_not_set => [] | Condition_case c => [c] | All_case all => all_conditions all | Any_case any => any_conditions any end.

(** [p] is the process at one index of all the lists, and the field of that
    process matches the condition, which is not negated. *)
Definition matched (c : Condition) (vm : VMInfo) (p : ProcessInfo) : Prop :=
  ∃ field pattern values isProcess i v, StringMatch c = Some (mkStringMatch (Some field) pattern) ∧ Negated c = false ∧
    field_values field vm = Some (values, isProcess) ∧ values !! i = Some v ∧ matches pattern v = true ∧
    p = if isProcess then process_at vm i else mkProcess "" "" "" "" "" 0 (OSName vm).

Lemma find_match_spec pattern i values :
  match find_match pattern i values with
  | Some k => ∃ j v, k = i + j ∧ values !! j = Some v ∧ matches pattern v = true
  | None => ∀ v, v ∈ values → matches pattern v = false
  end.
Proof.
  revert i. induction values as [|v values IH]; intros i; cbn [find_match]; [intros v []%elem_of_nil|]. destruct (matches pattern v) eqn:E.
  - exists 0, v. by rewrite Nat.add_0_r.
  - specialize (IH (S i)). destruct (find_match pattern (S i) values) as [k|].
    + destruct IH as (j & w & -> & Hj & Hm). exists (S j), w. split; [lia|done].
    + by intros w [->|?]%elem_of_cons; [|apply IH].
Qed.

(** A result that tells the truth about [P], with a process matched in [cs]. *)
Definition tells (P : Prop) (cs : list Condition) (vm : VMInfo) (r : bool * option ProcessInfo) : Prop :=
  (r.1 = true ↔ P) ∧ (r.1 = true → ∀ p, r.2 = Some p → ∃ c, c ∈ cs ∧ matched c vm p).

Lemma checkCondition_tells c vm : tells (condition_holds c vm) [c] vm (checkCondition c vm).
Proof.
  unfold checkCondition, condition_holds. destruct (StringMatch c) as [[[field|] pattern]|] eqn:Ec; [|split; [naive_solver|done]..].
  destruct (field_values field vm) as [[values isP]|] eqn:Ef; [|split; [|done]; split; [done|]; intros (f & pt & vs & b & [= <- <-] & Hv & _); congruence].
  pose proof (find_match_spec pattern 0 values) as Hm. unfold checkStringMatch.
  assert (Hholds : (∃ f pt vs b, Some (mkStringMatch (Some field) pattern) = Some (mkStringMatch (Some f) pt) ∧ field_values f vm = Some (vs, b) ∧
      if Negated c then ∀ v, v ∈ vs → matches pt v = false else ∃ v, v ∈ vs ∧ matches pt v = true) ↔
    if Negated c then ∀ v, v ∈ values → matches pattern v = false else ∃ v, v ∈ values ∧ matches pattern v = true).
  { split; [|intros Hx; by exists field, pattern, values, isP]. intros (f & pt & vs & b & [= <- <-] & Hv & Hx). assert (vs = values) as -> by congruence. done. }
  unfold tells. rewrite Hholds. destruct (find_match pattern 0 values) as [k|].
  - destruct Hm as (j & v & -> & Hj & Hv). simpl. destruct (Negated c) eqn:En; cbn [negb fst snd].
    + split; [|done]. split; [done|]. intros Hx. rewrite (Hx v) in Hv; [done|by eapply list_elem_of_lookup_2].
    + split; [split; [intros _; exists v; split; [by eapply list_elem_of_lookup_2|done]|done]|]. intros _ p [= <-]. exists c. split; [by left|].
      by exists field, pattern, values, isP, j, v.
  - destruct (Negated c); cbn; (split; [|done]); split; try done. intros (v & Hin & Hv). by rewrite (Hm v Hin) in Hv.
Qed.

Lemma keep_process_from acc p (Q : ProcessInfo → Prop) : (∀ q, acc = Some q → Q q) → (∀ q, p = Some q → Q q) → ∀ q, keep_process acc p = Some q → Q q.
Proof. intros Ha Hp q. destruct acc as [a|]; simpl; [by apply Ha|]. destruct p as [p|]; [|done]. case_bool_decide; [done|]. by apply Hp. Qed.

Lemma all_of_tells cs vm acc : 
  match all_of cs vm acc with
  | Some r => (∀ c, c ∈ cs → condition_holds c vm) ∧ ∀ (Q : ProcessInfo → Prop), (∀ q, acc = Some q → Q q) → (∀ c q, c ∈ cs → matched c vm q → Q q) → ∀ q, r = Some q → Q q
  | None => ¬ ∀ c, c ∈ cs → condition_holds c vm
  end.
Proof.
  revert acc. induction cs as [|c cs IH]; intros acc; cbn [all_of].
  { split; [intros c []%elem_of_nil|]. intros Q Ha _. exact Ha. }
  pose proof (checkCondition_tells c vm) as [Ht Hp]. destruct (checkCondition c vm) as [[] p]; cbn [negb fst snd] in *.
  - specialize (IH (keep_process acc p)). destruct (all_of cs vm (keep_process acc p)) as [r|].
    + destruct IH as [Hall Hr]. split; [intros c' [->|Hin]%elem_of_cons; [by apply Ht|by apply Hall]|]. intros Q Ha Hm. apply Hr.
      * apply keep_process_from; [done|]. intros q Hq. destruct (Hp eq_refl q Hq) as (c' & ->%list_elem_of_singleton & Hmc). apply (Hm c); [by left|done].
      * intros c' q Hin. apply Hm. by right.
    + intros Hall. apply IH. intros c' Hin. apply Hall. by right.
  - intros Hall. assert (false = true) by (apply Ht, Hall; by left). done.
Qed.

Lemma any_of_tells cs vm :
  match any_of cs vm with
  | Some r => ∃ c, c ∈ cs ∧ condition_holds c vm ∧ ∀ q, r = Some q → matched c vm q
  | None => ¬ ∃ c, c ∈ cs ∧ condition_holds c vm
  end.
Proof.
  induction cs as [|c cs IH]; cbn [any_of]; [intros (c & []%elem_of_nil & _)|].
  pose proof (checkCondition_tells c vm) as [Ht Hp]. destruct (checkCondition c vm) as [[] p]; cbn [fst snd] in *.
  - exists c. split; [by left|]. split; [by apply Ht|]. intros q Hq. by destruct (Hp eq_refl q Hq) as (c' & ->%list_elem_of_singleton & Hm).
  - destruct (any_of cs vm) as [r|].
    + destruct IH as (c' & Hin & Hc). exists c'. split; [by right|done].
    + intros (c' & [->|Hin]%elem_of_cons & Hc); [by apply Ht in Hc|]. apply IH. by exists c'.
Qed.

Fixpoint all_depth (all : AllCondition) : nat := let '(mkAll _ any) := all in S (match any with Some any => any_depth any | None => 0 end)
with any_depth (any : AnyCondition) : nat := let '(mkAny _ all) := any in S (match all with Some all => all_depth all | None => 0 end).

Lemma eval_tells n vm :
  (∀ all, all_depth all ≤ n → tells (all_holds all vm) (all_conditions all) vm (evalAllCondition all vm)) ∧
  (∀ any, any_depth any ≤ n → tells (any_holds any vm) (any_conditions any) vm (evalAnyCondition any vm)).
Proof.
  induction n as [|n [IHall IHany]]; [split; intros [? ?]; simpl; lia|]. split.
  - intros [cs any] Hd. cbn [evalAllCondition all_holds all_conditions]. pose proof (all_of_tells cs vm None) as Ha. destruct (all_of cs vm None) as [acc|].
    + destruct Ha as [Hall Hacc]. destruct any as [any|].
      * destruct (IHany any) as [Ht Hp]; [simpl in Hd; lia|]. destruct (evalAnyCondition any vm) as [[] p]; cbn [negb fst snd] in *.
        -- split; [simpl; naive_solver|]. intros _. apply keep_process_from.
           ++ apply (Hacc (λ q, ∃ c, c ∈ cs ++ any_conditions any ∧ matched c vm q)); [done|]. intros c q Hin Hm. exists c. split; [by apply elem_of_app; left|done].
           ++ intros q Hq. destruct (Hp eq_refl q Hq) as (c & Hin & Hm). exists c. split; [by apply elem_of_app; right|done].
        -- split; [simpl; naive_solver|done].
      * split; [simpl; naive_solver|]. intros _. apply (Hacc (λ q, ∃ c, c ∈ cs ++ [] ∧ matched c vm q)); [done|]. intros c q Hin Hm. exists c. split; [by apply elem_of_app; left|done].
    + split; [simpl; naive_solver|done].
  - intros [cs all] Hd. cbn [evalAnyCondition any_holds any_conditions]. pose proof (any_of_tells cs vm) as Ha. destruct (any_of cs vm) as [r|].
    + destruct Ha as (c & Hin & Hc & Hm). split; [simpl; naive_solver|]. intros _ q Hq. exists c. split; [by apply elem_of_app; left|by apply Hm].
    + destruct all as [all|].
      * destruct (IHall all) as [Ht Hp]; [simpl in Hd; lia|]. destruct (evalAllCondition all vm) as [[] p]; cbn [fst snd] in *.
        -- split; [simpl; naive_solver|]. intros _ q Hq. destruct (Hp eq_refl q Hq) as (c & Hin & Hm). exists c. split; [by apply elem_of_app; right|done].
        -- split; [simpl; naive_solver|done].
      * split; [simpl; naive_solver|done].
Qed.

(** C22. A rule is evaluated as it reads: it is found to hold exactly if it does,
    where all the conditions of one list hold, or one of the other, at any depth
    of their nesting, and a condition the extension does not know holds never;
    and the process that goes with it is a single process of the machine, all
    its fields at one index, whose field matches a condition of the rule that
    is not negated. *)
Theorem executeRule_means r vm :
  ((executeRule r vm).1 = true ↔ rule_holds (rule r) vm) ∧
  ((executeRule r vm).1 = true → ∀ p, (executeRule r vm).2 = Some p → ∃ c, c ∈ rule_conditions (rule r) ∧ matched c vm p).
Proof.
  unfold executeRule. destruct (rule r) as [|c|all|any].
  - by split.
  - apply checkCondition_tells.
  - by apply (eval_tells (all_depth all)).
  - by apply (eval_tells (any_depth any)).
Qed.

(** ** Commands *)
Record resolvedCommand := mkResolved {
  executable : string;
  args : list string;
  processExe : bool;
  envExecutable : bool;
  envArgs : list bool;
}.

Definition fromProcess (c : resolvedCommand) : bool := processExe c || envExecutable c || existsb id (envArgs c).

(** The environment of the process by name; the last entry of a name counts. *)
Definition environment (p : option ProcessInfo) : gmap string string :=
  match p with
  | Some p =>
      let lines := filter (λ l, l ≠ "") (Split (of_bytes ((λ b, if beqb b (byte_of 13) || beqb b (byte_of 0) then nl else b) <$> to_bytes (EnvVar p))) nl) in
      foldl (λ m line, let '(k, v, ok) := Cut line (byte_of 61) in if ok then <[k := v]> m else m) ∅ lines
  | None => ∅
  end.

(** What [envVarRegex] matches after a dollar sign: the text, and the name in it. *)
Definition var_token (l : bytes) : option (bytes * bytes) :=
  match l with
  | b :: rest =>
      if ShellQuote.name_start b then let '(x, _) := span ShellQuote.name_char rest in Some (b :: x, b :: x)
      else if beqb b ShellQuote.lbrace then
        match rest with
        | c :: rest =>
            if ShellQuote.name_start c then
              let '(x, after) := span ShellQuote.name_char rest in
              match after with
              | d :: _ => if beqb d ShellQuote.rbrace then Some ([b; c] ++ x ++ [d], c :: x) else None
              | [] => None
              end
            else None
        | [] => None
        end
      else None
  | [] => None
  end.

(** [ReplaceAllStringFunc]; the flag tells that a value came from the process. *)
Fixpoint replace_vars (fuel : nat) (env : gmap string string) (l : bytes) : bytes * bool :=
  match fuel, l with
  | S fuel, b :: rest =>
      match (if beqb b ShellQuote.dollar then var_token rest else None) with
      | Some (token, name) =>
          let '(out, from) := replace_vars fuel env (drop (length token) rest) in
          match env !! of_bytes name, LookupEnv (of_bytes name) with
          | Some v, _ => (to_bytes v ++ out, true)
          | None, Some v => (to_bytes v ++ out, from)
          | None, None => (b :: token ++ out, from)
          end
      | None => let '(out, from) := replace_vars fuel env rest in (b :: out, from)
      end
  | _, _ => ([], false)
  end.

Definition resolveEnvVars (s : string) (p : option ProcessInfo) : string * bool :=
  if negb (Contains s "$") then (s, false)
  else let '(out, from) := replace_vars (String.length s) (environment p) (to_bytes s) in (of_bytes out, from).

Definition command_text (command extendedCommand : Z) : option string :=
  if bool_decide (command = 0%Z) then
    if bool_decide (extendedCommand = 0%Z) then None else nth_command ExtendedCmd extendedCommand
  else nth_command Cmd command.

Definition resolveCommand (command extendedCommand : Z) (cmdArgs : list string) (p : option ProcessInfo) : option resolvedCommand :=
  cmd ← command_text command extendedCommand;
  '(cmd, isExe) ← (if bool_decide (cmd = "USE_DISCOVERED_PROCESS_PATH") then
                     match p with
                     | Some p => if bool_decide (Path p = "") then None else Some (Path p, true)
                     | None => None
                     end
                   else Some (cmd, false));
  let '(exe, fromEnv) := resolveEnvVars cmd p in
  let resolved := (λ a, resolveEnvVars a p) <$> cmdArgs in
  Some (mkResolved exe resolved.*1 isExe fromEnv resolved.*2).

(** ** Versions *)

(** [versionNumberRegex]: an optional dot, digits, more digits after dots. *)
Definition digits_of (l : bytes) : bytes := (span Regexp.is_digit l).1.
Definition dot : byte := byte_of 46.
Fixpoint more_digits (fuel : nat) (l : bytes) : bytes :=
  match fuel, l with
  | S fuel, b :: rest =>
      if beqb b dot then match digits_of rest with [] => [] | ds => b :: ds ++ more_digits fuel (drop (length ds) rest) end else []
  | _, _ => []
  end.
Definition version_here (l : bytes) : option bytes :=
  let '(pre, rest) := match l with b :: rest => if beqb b dot then ([b], rest) else ([], l) | [] => ([], l) end in
  match digits_of rest with
  | [] => None
  | ds => Some (pre ++ ds ++ more_digits (length l) (drop (length ds) rest))
  end.
Fixpoint find_version (l : bytes) : bytes :=
  match version_here l with
  | Some v => v
  | None => match l with [] => [] | _ :: l => find_version l end
  end.
Definition versionFromOutput (output : string) : string := of_bytes (find_version (to_bytes output)).

Example versionFromOutput_examples :
  versionFromOutput "Apache/2.4.41 (Ubuntu)" = "2.4.41" ∧ versionFromOutput "v.5.x" = ".5" ∧ versionFromOutput "a. 10." = "10" ∧ versionFromOutput "none" = "".
Proof. by vm_compute. Qed.

Definition extractVersionFromOutput (output versionRegex versionExtractPattern : string) : option string :=
  match regexp_Compile versionRegex with
  | Some _ => None
  | None =>
      if negb (bool_decide (versionExtractPattern = "")) && negb (bool_decide (regexp_Compile versionExtractPattern = None)) then None
      else
        Regexp.first_some (λ line,
          if negb (re_MatchString versionRegex line) then None
          else
            match (if bool_decide (versionExtractPattern = "") then None else re_FindStringSubmatch versionExtractPattern line !! 1) with
            | Some v => Some v
            | None => let version := versionFromOutput line in if bool_decide (version = "") then None else Some version
            end) (Split output nl)
  end.

Definition versionFromProcessField (value versionRegex versionExtractPattern : string) : option string :=
  if bool_decide (versionExtractPattern = "") then None
  else if negb (bool_decide (regexp_Compile versionRegex = None)) then None
  else if negb (bool_decide (regexp_Compile versionExtractPattern = None)) then None
  else
    Regexp.first_some (λ line,
      if negb (re_MatchString versionRegex line) then None
      else match re_FindStringSubmatch versionExtractPattern line !! 1 with
           | Some v => if bool_decide (v = "") then None else Some v
           | None => None
           end) (Split value nl).

Definition processField (field : Z) (p : option ProcessInfo) : option string :=
  p ← p;
  if bool_decide (field = VM_PROCESS_NAME) then Some (Name p)
  else if bool_decide (field = VM_PROCESS_PATH) then Some (Path p)
  else if bool_decide (field = VM_CLI_ARGS) then Some (Arg p)
  else if bool_decide (field = VM_ENV_VARS) then Some (EnvVar p)
  else None.

(** ** rootcommand.go *)
Section commands.
Context `{ExecWorld} `{TrustWorld}.

Definition IsAbs (path : string) : bool := HasPrefix path "/".
Definition SameFile (a b : FileInfo) : bool := bool_decide (Ino a = Ino b).
Definition procDir (pid : Z) : string := path_Join ["/proc"; pretty pid].

Definition checkRootPath (pid : Z) (path : string) (isExe : bool) : M exec_state (result string) :=
  if negb (IsAbs path) then mret (Err (ErrMsg "isn't an absolute path"))
  else if bool_decide (pid ≤ 0)%Z then mret (Err (ErrMsg "invalid process ID"))
  else
    let path := Clean path in
    resolved ← CheckPath path;
    match resolved with
    | Err e => mret (Err e)
    | Ok resolved =>
        let processFile := if isExe then path_Join [procDir pid; "exe"] else path_Join [procDir pid; "root"; path] in
        want ← ask (λ n, Stat n processFile);
        match want with
        | Err e => mret (Err e)
        | Ok want =>
            got ← ask (λ n, Stat n resolved);
            mret (match got with
                  | Err e => Err e
                  | Ok got => if SameFile want got then Ok resolved else Err (ErrMsg "isn't the file that the process uses")
                  end)
        end
    end.

(** The loop over the arguments. *)
Fixpoint check_args (pid : Z) (cmdArgs : list string) (fromEnv : list bool) : M exec_state (result (list string)) :=
  match cmdArgs, fromEnv with
  | a :: cmdArgs, from :: fromEnv =>
      r ← (if (from : bool) then checkRootPath pid a false else mret (Ok a));
      match r with
      | Err e => mret (Err (ErrWrap "argument" e))
      | Ok a =>
          rest ← check_args pid cmdArgs fromEnv;
          mret (match rest with Err e => Err e | Ok rest => Ok (a :: rest) end)
      end
  | _, _ => mret (Ok cmdArgs)
  end.

Definition plain_params (exe : string) (cmdArgs : list string) (stdin : string) : Params := mkParams exe "" cmdArgs 0 "" [] stdin.

Definition rootCommandParams (c : resolvedCommand) (pid : Z) : M exec_state (result Params) :=
  exe ← (if processExe c || envExecutable c then checkRootPath pid (executable c) (processExe c) else mret (Ok (executable c)));
  match exe with
  | Err e => mret (Err e)
  | Ok exe =>
      cmdArgs ← check_args pid (args c) (envArgs c);
      mret (match cmdArgs with Err e => Err e | Ok cmdArgs => Ok (plain_params exe cmdArgs "") end)
  end.

(** ** The parameters of a command *)
Definition lookupUserID (username : string) : M exec_state (result string) := ask (λ n, user_Lookup n username).

(** The command line of the shell. *)
Definition full_command (c : resolvedCommand) : string :=
  let fullCmd := ShellQuote.shellQuote (executable c) in
  let cmdArgs := ShellQuote.shellQuoteSlice (args c) in
  if bool_decide (cmdArgs = "") then fullCmd else fullCmd +:+ " " +:+ cmdArgs.

Definition buildCommandParamsForOS (c : resolvedCommand) (runAsUser : bool) (p : option ProcessInfo) (goos : string) : M exec_state (result Params) :=
  if negb runAsUser && negb (fromProcess c) then mret (Ok (plain_params (executable c) (args c) ""))
  else
    match p with
    | None => mret (Err (ErrMsg "the discovered process user is unknown"))
    | Some p =>
        if bool_decide (Username p = "") then mret (Err (ErrMsg "the discovered process user is unknown"))
        else if bool_decide (goos = "windows") then mret (Err (ErrMsg "running as the discovered process user isn't supported on Windows"))
        else
          let username := Username p in
          if negb (IsValidUsername username) then mret (Err (ErrMsg "invalid user name"))
          else
            uid ← lookupUserID username;
            match uid with
            | Err e => mret (Err e)
            | Ok uid =>
                if bool_decide (uid = "0") then rootCommandParams c (PID p)
                else mret (Ok (plain_params "su" ["-s"; "/bin/sh"; "-l"; "-c"; full_command c; "--"; username] ""))
            end
    end.
Definition buildCommandParams (c : resolvedCommand) (runAsUser : bool) (p : option ProcessInfo) : M exec_state (result Params) :=
  buildCommandParamsForOS c runAsUser p "linux".

(** ** Running the rules *)
Definition runVersionCommand (params : Params) : M exec_state Result :=
  if negb (Implements (Executable params)) then ExecuteCommand params
  else mret (mkResult "" "" 0 (Some (ErrWrap (Executable params) ErrUnsupported)) true false).

Definition failed (res : Result) : bool :=
  negb (bool_decide (ExitCode res = 0%Z)) || negb (ExecutableFound res) || match Error res with Some _ => true | None => false end.

Definition set_Stdin (s : string) (p : Params) : Params := mkParams (Executable p) (ArgsToSplit p) (Args p) (Timeout p) (User p) (Env p) s.

(** The steps of a version rule: the last output and the expression of the last
    step that was begun. *)
Fixpoint run_steps (steps : list VersionCommandStep) (p : option ProcessInfo) (prevOutput versionRegex : string) : M exec_state (string * string) :=
  match steps with
  | [] => mret (prevOutput, versionRegex)
  | step :: steps =>
      cancelled ← ask ctx_Err;
      match cancelled with
      | Some _ => mret (prevOutput, versionRegex)
      | None =>
          let versionRegex := step_RegexMatch step in
          match resolveCommand (step_Command step) (step_ExtendedCommand step) (step_CommandArgs step) p with
          | None => mret (prevOutput, versionRegex)
          | Some c =>
              params ← buildCommandParams c (step_RunAsDiscoveredProcessUser step) p;
              match params with
              | Err _ => mret (prevOutput, versionRegex)
              | Ok params =>
                  res ← runVersionCommand (if UsePreviousOutputAsStdin step then set_Stdin prevOutput params else params);
                  if failed res then mret (prevOutput, versionRegex)
                  else
                    let output := if bool_decide (versionRegex = "") || negb (bool_decide (regexp_Compile versionRegex = None)) then ""
                      else if re_MatchString versionRegex (StdOut res) then StdOut res
                      else if re_MatchString versionRegex (StdErr res) then StdErr res else "" in
                    if bool_decide (output = "") then mret (output, versionRegex) else run_steps steps p output versionRegex
              end
          end
      end
  end.

(** One version rule: a version, or nothing and the next one is tried. *)
Definition version_rule (r : DiscoveryVersionRule) (p : option ProcessInfo) : M exec_state (option string) :=
  if negb (bool_decide (ProcessField r = VM_FIELD_UNSPECIFIED)) then
    mret (value ← processField (ProcessField r) p; versionFromProcessField value (rule_RegexMatch r) (VersionExtractPattern r))
  else if negb (bool_decide (Steps r = [])) then
    '(output, versionRegex) ← run_steps (Steps r) p "" "";
    mret (extractVersionFromOutput output versionRegex (VersionExtractPattern r))
  else
    match resolveCommand (Command r) (ExtendedCommand r) (CommandArgs r) p with
    | None => mret None
    | Some c =>
        params ← buildCommandParams c (RunAsDiscoveredProcessUser r) p;
        match params with
        | Err _ => mret None
        | Ok params =>
            res ← runVersionCommand params;
            mret (if failed res then None
                  else match extractVersionFromOutput (StdOut res) (rule_RegexMatch r) (VersionExtractPattern r) with
                       | Some v => Some v
                       | None => extractVersionFromOutput (StdErr res) (rule_RegexMatch r) (VersionExtractPattern r)
                       end)
        end
    end.

Fixpoint version_rules (rs : list DiscoveryVersionRule) (p : option ProcessInfo) : M exec_state string :=
  match rs with
  | [] => mret ""
  | r :: rs =>
      cancelled ← ask ctx_Err;
      match cancelled with
      | Some _ => mret ""
      | None =>
          version ← version_rule r p;
          match version with
          | Some v => mret v
          | None => version_rules rs p
          end
      end
  end.
Definition executeVersionRules (r : DiscoveryRule) (p : option ProcessInfo) : M exec_state string := version_rules (VersionRules r) p.

Fixpoint ExecuteRules (rules : list DiscoveryRule) (vm : VMInfo) : M exec_state (list DetectedData) :=
  match rules with
  | [] => mret []
  | r :: rules =>
      cancelled ← ask ctx_Err;
      match cancelled with
      | Some _ => mret []
      | None =>
          let '(foundMatch, p) := executeRule r vm in
          if (foundMatch : bool) then
            version ← executeVersionRules r p;
            rest ← ExecuteRules rules vm;
            mret (mkDetected (DiscoveredWorkloadName r) version :: rest)
          else ExecuteRules rules vm
      end
  end.

(** ** As whom a command runs *)

(** A path that root's process named, and the one that is used: absolute, only
    root could change it, and both processes see the same file there. *)
Definition confined_path (pid : Z) (path : string) (isExe : bool) (used : string) : Prop :=
  IsAbs path = true ∧ (0 < pid)%Z ∧ trusted_path used ∧
  ∃ n m want got, Stat n (if isExe then path_Join [procDir pid; "exe"] else path_Join [procDir pid; "root"; Clean path]) = Ok want ∧
    Stat m used = Ok got ∧ SameFile want got = true.

(** A program is not started on the way. *)
Definition quiet (s s' : exec_state) : Prop := started s' = started s.

Lemma wp_quiet_ask {A} (f : nat → A) (Q : A → exec_state → Prop) s : (∀ n s', quiet s s' → Q (f n) s') → wp (ask f) Q s.
Proof. intros HQ. by apply HQ. Qed.

Lemma wp_quiet_elements name ps s : wp (check_elements name ps) (λ _ s', quiet s s') s.
Proof.
  revert s. induction ps as [|p ps IH]; intros s; cbn [check_elements]; [by apply wp_ret|].
  apply wp_bind, wp_quiet_ask. intros n s1 Q1. destruct (Lstat n p) as [fi|e]; [|by apply wp_ret]. destruct (verifyPathElement fi); [by apply wp_ret|].
  eapply wp_mono; [apply IH|]. cbn beta. unfold quiet in *. intros _ s2. congruence.
Qed.
Lemma wp_quiet_CheckPath name s : wp (CheckPath name) (λ r s', quiet s s' ∧ ∀ p, r = Ok p → trusted_path p) s.
Proof.
  apply wp_and; [|apply wp_CheckPath]. unfold CheckPath. apply wp_bind, wp_quiet_ask. intros n s1 Q1. destruct (EvalSymlinks n name) as [p|e]; [|by apply wp_ret].
  apply wp_bind, wp_quiet_ask. intros m s2 Q2. destruct (Abs m p) as [p'|e]; [|apply wp_ret; unfold quiet in *; congruence].
  apply wp_bind. eapply wp_mono; [apply wp_quiet_elements|]. cbn beta. unfold quiet in *. intros r s3 Q3. apply wp_ret. congruence.
Qed.

Lemma wp_checkRootPath pid path isExe s :
  wp (checkRootPath pid path isExe) (λ r s', quiet s s' ∧ ∀ used, r = Ok used → confined_path pid path isExe used) s.
Proof.
  unfold checkRootPath. destruct (IsAbs path) eqn:Ea; cbn [negb]; [|by apply wp_ret]. case_bool_decide as Ep; [by apply wp_ret|]. cbn zeta.
  apply wp_bind. eapply wp_mono; [apply wp_quiet_CheckPath|]. cbn beta. intros [used|e] s1 [Q1 Hu]; [|by apply wp_ret].
  apply wp_bind, wp_quiet_ask. intros n s2 Q2. destruct (Stat n _) as [want|e] eqn:Ew; [|apply wp_ret; unfold quiet in *; split; [congruence|done]].
  apply wp_bind, wp_quiet_ask. intros m s3 Q3. apply wp_ret. split; [unfold quiet in *; congruence|]. destruct (Stat m used) as [got|e] eqn:Eg; [|done].
  destruct (SameFile want got) eqn:Es; [|done]. intros used' [= <-]. split; [done|]. split; [lia|]. split; [by apply Hu|]. by exists n, m, want, got.
Qed.

(** The arguments that are used for those of the command. *)
Definition confined_args (pid : Z) (cmdArgs : list string) (fromEnv : list bool) (used : list string) : Prop :=
  length used = length cmdArgs ∧
  ∀ i a b, cmdArgs !! i = Some a → used !! i = Some b → match fromEnv !! i with Some true => confined_path pid a false b | _ => b = a end.

Lemma wp_check_args pid cmdArgs fromEnv s :
  wp (check_args pid cmdArgs fromEnv) (λ r s', quiet s s' ∧ ∀ used, r = Ok used → confined_args pid cmdArgs fromEnv used) s.
Proof.
  assert (Hsame : ∀ l k, (l = [] ∨ k = []) → confined_args pid l k l).
  { intros l k Hlk. split; [done|]. intros i a b Ha Hb. assert (b = a) as -> by congruence. destruct Hlk as [->| ->]; [done|]. by rewrite lookup_nil. }
  revert fromEnv s. induction cmdArgs as [|a cmdArgs IH]; intros fromEnv s.
  { apply wp_ret. split; [done|]. intros used [= <-]. apply Hsame. by left. }
  destruct fromEnv as [|from fromEnv]; [apply wp_ret; split; [done|]; intros used [= <-]; apply Hsame; by right|]. cbn [check_args].
  apply wp_bind. apply (wp_mono _ (λ r s1, quiet s s1 ∧ ∀ b, r = Ok b → if from then confined_path pid a false b else b = a)).
  { destruct from; [apply wp_checkRootPath|]. apply wp_ret. split; [done|]. by intros b [= <-]. }
  intros [b|e] s1 [Q1 Hb]; [|by apply wp_ret]. apply wp_bind. eapply wp_mono; [apply IH|]. cbn beta. intros rest s2 [Q2 Hrest]. apply wp_ret.
  split; [unfold quiet in *; congruence|]. intros used. destruct rest as [rest|e]; [|done]. intros [= <-]. destruct (Hrest rest eq_refl) as [Hl Hi].
  split; [simpl; by f_equal|]. intros [|i] x y; cbn [lookup list_lookup].
  - intros [= <-] [= <-]. specialize (Hb b eq_refl). by destruct from.
  - apply Hi.
Qed.

Lemma full_command_slice c : full_command c = ShellQuote.shellQuoteSlice (executable c :: args c).
Proof.
  unfold full_command, ShellQuote.shellQuoteSlice. destruct (args c) as [|a l].
  - rewrite bool_decide_eq_true_2 by done. change (Join (ShellQuote.shellQuote <$> [executable c]) " ") with (of_bytes (to_bytes (ShellQuote.shellQuote (executable c)))).
    by rewrite of_to_bytes.
  - rewrite bool_decide_eq_false_2.
    + apply to_bytes_eq. unfold Join. rewrite !to_bytes_app, !to_of_bytes. done.
    + intros E. apply (f_equal to_bytes) in E. unfold Join in E. rewrite to_of_bytes in E. cbn [fmap list_fmap bjoin] in E.
      assert (Hq : to_bytes (ShellQuote.shellQuote a) ≠ []).
      { unfold ShellQuote.shellQuote. rewrite to_of_bytes. unfold ShellQuote.bquote. case_bool_decide; [done|]. destruct (existsb _ _); [done|]. by destruct (negb _). }
      destruct l; cbn in E; [done|]. apply app_eq_nil in E as [E _]. done.
Qed.

(** What a command may become. *)
Definition confined (c : resolvedCommand) (runAsUser : bool) (p : option ProcessInfo) (params : Params) : Prop :=
  User params = "" ∧ Env params = [] ∧ Stdin params = "" ∧ ArgsToSplit params = "" ∧
  (runAsUser = false ∧ fromProcess c = false ∧ Executable params = executable c ∧ Args params = args c ∨
   ∃ q n uid, p = Some q ∧ user_Lookup n (Username q) = Ok uid ∧ IsValidUsername (Username q) = true ∧
     (uid ≠ "0" ∧ Executable params = "su" ∧ (∃ line ws, Args params = ["-s"; "/bin/sh"; "-l"; "-c"; line; "--"; Username q] ∧
        ShellQuote.sh_words line = Some ws ∧ ShellQuote.show <$> ws = executable c :: args c) ∨
      uid = "0" ∧ (if processExe c || envExecutable c then confined_path (PID q) (executable c) (processExe c) (Executable params) else Executable params = executable c) ∧
        confined_args (PID q) (args c) (envArgs c) (Args params))).

Lemma wp_buildCommandParams c runAsUser p s :
  wp (buildCommandParams c runAsUser p) (λ r s', quiet s s' ∧ ∀ params, r = Ok params → confined c runAsUser p params) s.
Proof.
  unfold buildCommandParams, buildCommandParamsForOS. destruct (negb runAsUser && negb (fromProcess c)) eqn:E0.
  { apply andb_true_iff in E0 as [E1%negb_true_iff E2%negb_true_iff]. apply wp_ret. split; [done|]. intros params [= <-]. split_and!; try done. by left. }
  destruct p as [q|]; [|by apply wp_ret]. case_bool_decide; [by apply wp_ret|]. change (bool_decide ("linux" = "windows")) with false. cbn iota zeta.
  destruct (IsValidUsername (Username q)) eqn:Ev; cbn [negb]; [|by apply wp_ret]. unfold lookupUserID. apply wp_bind, wp_quiet_ask. intros n s1 Q1.
  destruct (user_Lookup n (Username q)) as [uid|e] eqn:El; [|by apply wp_ret]. case_bool_decide as E1.
  - unfold rootCommandParams. apply wp_bind. apply (wp_mono _ (λ r s2, quiet s s2 ∧ ∀ exe, r = Ok exe →
      if processExe c || envExecutable c then confined_path (PID q) (executable c) (processExe c) exe else exe = executable c)).
    { destruct (processExe c || envExecutable c); [|apply wp_ret; split; [done|]; by intros exe [= <-]].
      eapply wp_mono; [apply wp_checkRootPath|]. cbn beta. unfold quiet in *. intros r s2 [Q2 Hr]. split; [congruence|done]. }
    intros [exe|e] s2 [Q2 Hexe]; [|by apply wp_ret]. apply wp_bind. eapply wp_mono; [apply wp_check_args|]. cbn beta. intros r s3 [Q3 Hr]. apply wp_ret.
    split; [unfold quiet in *; congruence|]. destruct r as [used|e]; [|done]. intros params [= <-]. split_and!; try done. right. exists q, n, uid. split_and!; try done.
    right. split_and!; [done|by apply Hexe|by apply Hr].
  - apply wp_ret. split; [done|]. intros params [= <-]. split_and!; try done. right. exists q, n, uid. split_and!; try done. left. split_and!; [done|done|].
    destruct (ShellQuote.sh_words_quoted (executable c :: args c)) as (ws & Hws & Ht). exists (full_command c), ws. split_and!; [done| |done]. by rewrite full_command_slice.
Qed.

(** C19. As whom a version command runs: alone and whatever the system answers,
    nothing is started, and a command that is let through either uses nothing
    of the discovered process, which its owner controls, and was not asked to
    run as that user; or runs through su as that user, whose name is valid and
    who is not root, on a command line that the shell reads as the words of
    the command and nothing else; or, for a process of root, runs with every
    part from the process replaced by an absolute path that only root could
    change and that names the same file for both processes. *)
Theorem buildCommandParams_confined c runAsUser p s :
  wp (buildCommandParams c runAsUser p) (λ r s', started s' = started s ∧ ∀ params, r = Ok params → confined c runAsUser p params) s.
Proof. apply wp_buildCommandParams. Qed.

(** ** What a discovery starts and finds *)
Lemma quiet_grew s s' : quiet s s' → grew s s'.
Proof. intros E. exists []. by rewrite app_nil_r. Qed.

(** A computation that returns and starts only safe programs. *)
Definition careful {A} (m : M exec_state A) : Prop := ∀ s, wp m (λ _ s', grew s s') s.

Lemma careful_ret {A} (a : A) : careful (mret a).
Proof. intros s. by apply wp_ret. Qed.
Lemma careful_bind {A B} (m : M exec_state A) (f : A → M exec_state B) : careful m → (∀ a, careful (f a)) → careful (m ≫= f).
Proof. intros Hm Hf s. apply wp_bind. eapply wp_mono; [apply Hm|]. intros a s1 G1. eapply wp_mono; [apply Hf|]. intros b s2 G2. etrans; [exact G1|exact G2]. Qed.
Lemma careful_ask {A} (f : nat → A) : careful (ask f).
Proof. intros s. apply wp_quiet_ask. intros n s'. apply quiet_grew. Qed.
Lemma careful_build c runAsUser p : careful (buildCommandParams c runAsUser p).
Proof. intros s. eapply wp_mono; [apply wp_buildCommandParams|]. intros r s' [Q _]. by apply quiet_grew. Qed.
Lemma careful_run params : careful (runVersionCommand params).
Proof.
  intros s. unfold runVersionCommand. destruct (Implements _); cbn [negb]; [by apply wp_ret|].
  eapply wp_mono; [apply wp_ExecuteCommand|]. by intros r s' [G _].
Qed.

Ltac careful_step :=
  lazymatch goal with
  | |- careful (_ ≫= _) => apply careful_bind; [|intros ?]
  | |- careful (mret _) => apply careful_ret
  | |- careful (ask _) => apply careful_ask
  | |- careful (buildCommandParams _ _ _) => apply careful_build
  | |- careful (runVersionCommand _) => apply careful_run
  | |- careful (match ?x with _ => _ end) => destruct x
  | |- careful (let _ := _ in _) => cbn zeta
  end.

Lemma careful_steps steps p out re : careful (run_steps steps p out re).
Proof. revert out re. induction steps as [|st steps IH]; intros out re; cbn [run_steps]; repeat first [apply IH | careful_step]. Qed.
Lemma careful_version_rule r p : careful (version_rule r p).
Proof. unfold version_rule. repeat first [apply careful_steps | careful_step]. Qed.
Lemma careful_version_rules rs p : careful (version_rules rs p).
Proof. induction rs as [|r rs IH]; cbn [version_rules]; repeat first [exact IH | apply careful_version_rule | careful_step]. Qed.

Lemma wp_ExecuteRules rules vm s :
  wp (ExecuteRules rules vm) (λ res s', grew s s' ∧
    ((∀ n, ctx_Err n = None) → detected_Name <$> res = DiscoveredWorkloadName <$> filter (λ r, (executeRule r vm).1 = true) rules)) s.
Proof.
  revert s. induction rules as [|r rules IH]; intros s; cbn [ExecuteRules].
  { by apply wp_ret. }
  apply wp_bind, wp_quiet_ask. intros n s1 Q1. destruct (ctx_Err n) eqn:Ec.
  { apply wp_ret. split; [by apply quiet_grew|]. intros Hc. by rewrite Hc in Ec. }
  rewrite filter_cons. destruct (executeRule r vm) as [[] p] eqn:Er.
  - rewrite decide_True by done. apply wp_bind. eapply wp_mono; [apply careful_version_rules|]. cbn beta. intros v s2 G2.
    apply wp_bind. eapply wp_mono; [apply IH|]. cbn beta. intros rest s3 [G3 Hn]. apply wp_ret. split.
    + etrans; [by apply quiet_grew|]. by etrans.
    + intros Hc. cbn. f_equal. by apply Hn.
  - rewrite decide_False by done. eapply wp_mono; [apply IH|]. cbn beta. intros res s2 [G2 Hn]. split; [|exact Hn].
    etrans; [by apply quiet_grew|done].
Qed.

(** A discovery returns, whatever rules it is given: every program it starts
    is safe, and unless it is cancelled it reports exactly the workloads whose
    rules hold, in the order of the rules. *)
Theorem ExecuteRules_detects rules vm s :
  wp (ExecuteRules rules vm) (λ res s', grew s s' ∧
    ((∀ n, ctx_Err n = None) → detected_Name <$> res = DiscoveredWorkloadName <$> filter (λ r, (executeRule r vm).1 = true) rules)) s.
Proof. apply wp_ExecuteRules. Qed.
End commands.
End engine.

(** ** Small machines *)

(** Expressions match the texts that contain them. *)
#[local] Instance small_engine : EngineWorld := {|
  regexp_Compile p := None;
  re_MatchString p s := Contains s p;
  re_FindStringSubmatch p s := [];
  LookupEnv name := None;
  user_Lookup n name := if bool_decide (name = "oracle") then Ok "54321" else if bool_decide (name = "root") then Ok "0" else Err (ErrMsg "unknown user");
  ctx_Err n := None;
|}.
#[local] Instance small_trust : TrustWorld := {|
  geteuid := 0;
  EvalSymlinks n p := Ok p;
  Abs n p := Ok p;
  Lstat n p := Ok (mkInfo (if HasPrefix (Base p) "bin" then Directory else Regular) 493 0 1 7);
  Stat n p := Ok (mkInfo Regular 493 0 1 7);
|}.
#[local] Instance small_exec : ExecWorld := {|
  LookPath n p := Ok ("/usr/bin/" +:+ p);
  exe_Run n c := if bool_decide (Base (cmd_path c) = "grep") then ("", "", Some (mkRunError (ErrMsg "exit status 1") "exit status 1" (Some 1%Z)))
                 else ("listening on port 8080", "", None);
|}.

Definition oracle : ProcessInfo := mkProcess "ora_pmon" "/u01/bin/oracle" "" ("ORACLE_HOME=/u01/ho me" +:+ String nl "PATH=x") "oracle" 42 "linux".
Definition root_process : ProcessInfo := mkProcess "dgmgrl" "/u01/bin/oracle" "" "ORACLE_HOME=u01" "root" 42 "linux".

(** $ORACLE_HOME/bin/sqlplus -V, for a process of a user, of root with a
    relative home, and for an unknown process. *)
Example sqlplus_for_processes :
  (λ c, (λ '(_, r), match r with Ok p => Some (Executable p, Args p) | Err _ => None end) <$> buildCommandParams c false (Some oracle) (mkExec [] 0)) <$> resolveCommand 9 0 ["-V"] (Some oracle) =
    Some (Some (Some ("su", ["-s"; "/bin/sh"; "-l"; "-c"; "'/u01/ho me/bin/sqlplus' -V"; "--"; "oracle"]))) ∧
  (λ c, (λ '(_, r), match r with Ok p => Some (Executable p, Args p) | Err _ => None end) <$> buildCommandParams c false (Some root_process) (mkExec [] 0)) <$> resolveCommand 9 0 ["-V"] (Some root_process) =
    Some (Some None) ∧
  (λ c, (λ '(_, r), match r with Ok p => Some (Executable p, Args p) | Err _ => None end) <$> buildCommandParams c false None (mkExec [] 0)) <$> resolveCommand 9 0 ["-V"] None =
    Some (Some (Some ("$ORACLE_HOME/bin/sqlplus", ["-V"]))).
Proof. by vm_compute. Qed.

(** A step that fails does not end its rule: what an earlier step printed is
    read with the expression of the failed one, and taken for the version. *)
Definition two_steps : DiscoveryVersionRule :=
  mkVersionRule 0 [] "" false 0 [mkStep 1 [] "port" false 0 false; mkStep 13 ["version"] "" false 0 true] "" 0.
Example failed_step_yields_version : (snd <$> version_rule two_steps None (mkExec [] 0)) = Some (Some "8080").
Proof. by vm_compute. Qed.
End IsvEngine.
