(* ===== verification/IsvService.v ===== *)
(** * guest_telemetry_extension: the discovery service

    isvdiscovery/service/discovery.go with communication.go, and the extension
    of main.go: what is read of the processes, when the rules are fetched, when
    a result is reported, and what starting and stopping does.  The control
    plane, the clock and the processes are parameters. *)
From stdpp Require Import gmap strings list.
From S2P Require Import Prelude GoStrings Os Retry ShellQuote IsvTrust IsvExec IsvEngine.

Module IsvService.
Import IsvTrust IsvExec IsvEngine.

Definition disableGuestTelemetryMetadataKey : string := "disable-guest-telemetry".
Definition defaultScanInterval : Z := 15 * Minute.
Definition defaultReportingInterval : Z := 24 * 3600 * Second.

(** [ProcessWrapper]: what its methods return. *)
Record ProcessWrapper := mkWrapper {
  wrapper_Username : result string;
  wrapper_Pid : Z;
  wrapper_Name : result string;
  wrapper_Exe : result string;
  wrapper_Cmdline : result string;
  wrapper_Environ : result (list string);
}.

Record DiscoveryConfiguration := mkConfiguration { ScanIntervalSeconds : Z; MinimumReportingIntervalSeconds : Z }.
Record DiscoveryRules := mkRules { Rules : list DiscoveryRule; Config : option DiscoveryConfiguration }.
Definition DiscoveryResult := list DetectedData.

(** A message to the control plane. *)
Inductive message := DefinitionRequest | ResultReport (r : DiscoveryResult).

Class ServiceWorld := {
  listAllProcesses : nat → result (list ProcessWrapper);
  now : nat → Z;
  newClient : nat → option string → option error;
  sendAgentMessage : nat → string → message → result string;
  UnmarshalTo : string → result DiscoveryRules;
  InstanceAttribute : nat → string → result string;
  Getenv : string → string;
  ParseDuration : string → result Z;
  prototext_Unmarshal : string → result DiscoveryRules;
  proto_Marshal : DiscoveryResult → result string;
}.

(** [ISVDiscovery]; a zero time is [None]. *)
Record ISVDiscovery := mkDiscovery {
  channel : string;
  endpoint : string;
  dataFile : string;
  definitionFile : string;
  envReportingInterval : Z;
  envScanInterval : Z;
  lastRules : option DiscoveryRules;
  lastResult : option DiscoveryResult;
  lastFetch : option Z;
  lastReport : option Z;
}.

(** The service, the programs the engine starts, the messages that arrived. *)
Record svc := mkSvc { discovery : ISVDiscovery; engine_state : exec_state; arrived : list message; disk : pstate }.
#[global] Instance svc_Counting : Counting svc :=
  {| calls_of s := exec_calls (engine_state s); set_calls n s := mkSvc (discovery s) (mkExec (started (engine_state s)) n) (arrived s) (disk s) |}.

Definition set_discovery (f : ISVDiscovery → ISVDiscovery) (s : svc) : svc := mkSvc (f (discovery s)) (engine_state s) (arrived s) (disk s).
Definition set_lastRules (r : DiscoveryRules) (t : option Z) (d : ISVDiscovery) : ISVDiscovery :=
  mkDiscovery (channel d) (endpoint d) (dataFile d) (definitionFile d) (envReportingInterval d) (envScanInterval d) (Some r) (lastResult d)
    (match t with Some t => Some t | None => lastFetch d end) (lastReport d).
Definition set_lastResult (r : DiscoveryResult) (t : Z) (d : ISVDiscovery) : ISVDiscovery :=
  mkDiscovery (channel d) (endpoint d) (dataFile d) (definitionFile d) (envReportingInterval d) (envScanInterval d) (lastRules d) (Some r) (lastFetch d) (Some t).

(** ** The processes of the machine *)
Definition ignoreError {A} (zero : A) (r : result A) : A := match r with Ok a => a | Err _ => zero end.

Definition processPath (p : ProcessWrapper) : string := ignoreError "" (wrapper_Exe p).
Definition processArgs (p : ProcessWrapper) : string := ignoreError "" (wrapper_Cmdline p).
Definition processEnvVars (p : ProcessWrapper) : list string := ignoreError [] (wrapper_Environ p).
Definition processUsername (p : ProcessWrapper) : string := ignoreError "" (wrapper_Username p).

(** The loop of [vmInfo]: a process without a name is skipped. *)
Definition add_process (vm : VMInfo) (p : ProcessWrapper) : VMInfo :=
  match wrapper_Name p with
  | Err _ => vm
  | Ok name =>
      mkVM (ProcessNames vm ++ [name]) (ProcessPaths vm ++ [processPath p]) (ProcessArgs vm ++ [processArgs p])
        (ProcessEnvVars vm ++ [Join (processEnvVars p) (String nl "")]) (Usernames vm ++ [processUsername p]) (PIDs vm ++ [wrapper_Pid p]) (OSName vm)
  end.
Definition vm_of (ps : list ProcessWrapper) : VMInfo := foldl add_process (mkVM [] [] [] [] [] [] "linux") ps.

(** ** Results *)

(** The inner loop: the first entry that is not taken and equals [da] is taken. *)
Fixpoint take_equal (da : DetectedData) (b : list (DetectedData * bool)) : option (list (DetectedData * bool)) :=
  match b with
  | [] => None
  | (db, matched) :: b =>
      if negb matched && bool_decide (da = db) then Some ((db, true) :: b)
      else cons (db, matched) <$> take_equal da b
  end.
Fixpoint match_all (a : DiscoveryResult) (b : list (DetectedData * bool)) : bool :=
  match a with
  | [] => true
  | da :: a => match take_equal da b with Some b => match_all a b | None => false end
  end.
Definition discoveryResultEqual (a b : option DiscoveryResult) : bool :=
  match a, b with
  | None, None => true
  | Some a, Some b => if negb (Nat.eqb (length a) (length b)) then false else match_all a ((λ d, (d, false)) <$> b)
  | _, _ => false
  end.

Definition result_key (d : DetectedData) : string := detected_Name d +:+ "|" +:+ Version d.
Fixpoint dedup (seen : gset string) (r : DiscoveryResult) : DiscoveryResult :=
  match r with
  | [] => []
  | d :: r => if bool_decide (result_key d ∈ seen) then dedup seen r else d :: dedup ({[result_key d]} ∪ seen) r
  end.
Definition deduplicateResult (r : DiscoveryResult) : DiscoveryResult := dedup ∅ r.

(** ** Facts of the pure parts *)

(** What is known of a process with a name. *)
Definition wrapper_info (p : ProcessWrapper) (name : string) : ProcessInfo :=
  mkProcess name (processPath p) (processArgs p) (Join (processEnvVars p) (String nl "")) (processUsername p) (wrapper_Pid p) "linux".
Definition named (ps : list ProcessWrapper) : list ProcessInfo :=
  omap (λ p, match wrapper_Name p with Ok name => Some (wrapper_info p name) | Err _ => None end) ps.

(** The lists of a machine, one entry for each of [l]. *)
Definition lists_of (l : list ProcessInfo) : VMInfo := mkVM (Name <$> l) (Path <$> l) (Arg <$> l) (EnvVar <$> l) (Username <$> l) (PID <$> l) "linux".

Lemma vm_of_named ps : vm_of ps = lists_of (named ps).
Proof.
  unfold vm_of. change (mkVM [] [] [] [] [] [] "linux") with (lists_of []). rewrite <-(app_nil_l (named ps)). generalize (@nil ProcessInfo).
  induction ps as [|p ps IH]; intros l; [by rewrite app_nil_r|]. cbn [foldl]. unfold add_process. change (named (p :: ps)) with
    (match (match wrapper_Name p with Ok name => Some (wrapper_info p name) | Err _ => None end) with Some y => y :: named ps | None => named ps end).
  destruct (wrapper_Name p) as [name|e]; [|apply IH]. rewrite (cons_middle _ l), app_assoc, <-IH. f_equal. unfold lists_of. by rewrite !fmap_app.
Qed.

(** The lists of the machine stay aligned: every index is one process that has
    a name, with all its fields. *)
Theorem vm_of_aligned ps i p : named ps !! i = Some p → process_at (vm_of ps) i = p.
Proof.
  intros Hi. rewrite vm_of_named. unfold process_at, lists_of, safeGet. cbn. rewrite !list_lookup_fmap, Hi. cbn.
  assert (process_OSName p = "linux") as Ho.
  { apply list_elem_of_lookup_2, list_elem_of_omap in Hi as (w & _ & Hw). destruct (wrapper_Name w); [|done]. by injection Hw as <-. }
  destruct p. cbn in *. by rewrite Ho.
Qed.
Lemma vm_of_aligned_witness :
  let p := mkWrapper (Ok "root") 7 (Ok "init") (Ok "/sbin/init") (Err (ErrMsg "EACCES")) (Err (ErrMsg "EACCES")) in
  let q := mkWrapper (Ok "x") 8 (Err (ErrMsg "ESRCH")) (Ok "/x") (Ok "") (Ok []) in
  process_at (vm_of [q; p]) 0 = mkProcess "init" "/sbin/init" "" "" "root" 7 "linux".
Proof. cbv zeta. apply vm_of_aligned. by vm_compute. Defined.

(** The entries that are not taken. *)
Definition rest (b : list (DetectedData * bool)) : list DetectedData := fst <$> filter (λ x, x.2 = false) b.

#[local] Arguments rest : simpl never.
Lemma rest_cons db m b : rest ((db, m) :: b) = if m then rest b else db :: rest b.
Proof. unfold rest. rewrite filter_cons. by destruct m. Qed.

Lemma take_equal_spec da b :
  match take_equal da b with
  | Some b' => rest b ≡ₚ da :: rest b'
  | None => da ∉ rest b
  end.
Proof.
  induction b as [|[db m] b IH]; cbn [take_equal]; [apply not_elem_of_nil|]. rewrite rest_cons. destruct m; cbn [negb andb].
  - destruct (take_equal da b) as [b'|]; cbn; [|done]. by rewrite rest_cons.
  - case_bool_decide as E; [subst; cbn; by rewrite rest_cons|]. destruct (take_equal da b) as [b'|]; cbn.
    + rewrite rest_cons, IH. apply Permutation_swap.
    + apply not_elem_of_cons. by split.
Qed.

Lemma match_all_spec a b : match_all a b = true ↔ ∃ k, rest b ≡ₚ a ++ k.
Proof.
  revert b. induction a as [|da a IH]; intros b; cbn [match_all]; [split; [intros _; by exists (rest b)|done]|].
  pose proof (take_equal_spec da b) as Ht. destruct (take_equal da b) as [b'|].
  - rewrite IH. split; intros [k Hk]; exists k.
    + rewrite Ht, Hk. done.
    + rewrite Ht in Hk. cbn in Hk. by apply Permutation_cons_inv in Hk.
  - split; [done|]. intros [k Hk]. destruct Ht. rewrite Hk. by left.
Qed.

Lemma rest_fresh b : rest ((λ d, (d, false)) <$> b) = b.
Proof. induction b as [|d b IH]; [done|]. cbn [fmap list_fmap]. rewrite rest_cons. f_equal. exact IH. Qed.

Lemma result_equal_spec a b : discoveryResultEqual (Some a) (Some b) = true ↔ a ≡ₚ b.
Proof.
  cbn. destruct (Nat.eqb (length a) (length b)) eqn:El; cbn [negb].
  - apply Nat.eqb_eq in El. rewrite match_all_spec, rest_fresh. split; [|intros E; exists []; rewrite app_nil_r; by symmetry].
    intros [k Hk]. pose proof (Permutation_length Hk) as Hl. rewrite length_app in Hl. destruct k; [rewrite app_nil_r in Hk; by symmetry|simpl in Hl; lia].
  - split; [done|]. intros E. apply Permutation_length in E. apply Nat.eqb_neq in El. lia.
Qed.

(** C24. Two results count as equal exactly if they are both missing, or hold the
    same entries the same number of times, in whatever order: taking the first
    entry that is left for each one never goes wrong. *)
Theorem discoveryResultEqual_perm a b :
  discoveryResultEqual a b = true ↔ match a, b with None, None => True | Some a, Some b => a ≡ₚ b | _, _ => False end.
Proof. destruct a as [a|], b as [b|]; [apply result_equal_spec|done|done|done]. Qed.

Lemma dedup_spec seen r :
  NoDup (result_key <$> dedup seen r) ∧ dedup seen r `sublist_of` r ∧ (∀ d, d ∈ dedup seen r → result_key d ∉ seen) ∧
  ∀ d, d ∈ r → result_key d ∈ seen ∨ ∃ d', d' ∈ dedup seen r ∧ result_key d' = result_key d.
Proof.
  revert seen. induction r as [|d r IH]; intros seen; cbn [dedup].
  { split_and!; [constructor|done|intros d []%elem_of_nil|intros d []%elem_of_nil]. }
  case_bool_decide as E.
  - destruct (IH seen) as (H1' & H2' & H3' & H4'). split_and!; [done|by apply sublist_cons|done|]. intros x [->|Hx]%elem_of_cons; [by left|by apply H4'].
  - destruct (IH ({[result_key d]} ∪ seen)) as (H1' & H2' & H3' & H4'). split_and!.
    + cbn. constructor; [|done]. intros (x & Ex & Hx)%list_elem_of_fmap. apply (H3' x Hx). set_solver.
    + by apply sublist_skip.
    + intros x [->|Hx]%elem_of_cons; [done|]. specialize (H3' x Hx). set_solver.
    + intros x [->|Hx]%elem_of_cons; [right; exists d; split; [by left|done]|].
      destruct (H4' x Hx) as [[Ek|Hs]%elem_of_union|(x' & Hx' & Ek)]; [|by left|right; exists x'; split; [by right|done]].
      apply elem_of_singleton in Ek. right. exists d. split; [by left|done].
Qed.

(** Removing duplicates keeps one entry for each name and version, the first
    one, in order. *)
Theorem deduplicateResult_keys r :
  NoDup (result_key <$> deduplicateResult r) ∧ deduplicateResult r `sublist_of` r ∧ ∀ d, d ∈ r → ∃ d', d' ∈ deduplicateResult r ∧ result_key d' = result_key d.
Proof.
  destruct (dedup_spec ∅ r) as (H1' & H2' & _ & H4'). split_and!; [done|done|]. intros d Hd. destruct (H4' d Hd) as [[]%elem_of_empty|Hx]. exact Hx.
Qed.

(** A bar in a name or a version makes two findings one. *)
Example deduplicate_loses : deduplicateResult [mkDetected "a|b" "c"; mkDetected "a" "b|c"] = [mkDetected "a|b" "c"].
Proof. by vm_compute. Qed.

Section service.
Context `{ServiceWorld} `{EngineWorld} `{ExecWorld} `{TrustWorld} `{OsFaults}.

Definition vmInfo : M svc (result VMInfo) :=
  processes ← ask listAllProcesses;
  mret (match processes with Err e => Err e | Ok ps => Ok (vm_of ps) end).

Definition on_engine {A} (m : M exec_state A) : M svc A := zoom engine_state (λ x s, mkSvc (discovery s) x (arrived s) (disk s)) m.

Definition RunEngine (req : DiscoveryRules) : M svc (result DiscoveryResult) :=
  vm ← vmInfo;
  match vm with
  | Err e => mret (Err e)
  | Ok vm => res ← on_engine (ExecuteRules (Rules req) vm); mret (Ok res)
  end.

(** ** communication.go *)
Definition CreateClient (endpoint : string) : M svc (option error) :=
  if bool_decide (endpoint = "") then ask (λ n, newClient n None)
  else match Validate endpoint with
       | Some e => mret (Some e)
       | None => ask (λ n, newClient n (Some endpoint))
       end.
(** A message that is answered without an error has arrived. *)
Definition send (channelID : string) (msg : message) : M svc (result string) := λ s,
  let n := exec_calls (engine_state s) in
  let r := sendAgentMessage n channelID msg in
  Some (mkSvc (discovery s) (mkExec (started (engine_state s)) (S n)) (if is_ok r then arrived s ++ [msg] else arrived s) (disk s), r).
Definition SendDiscoveryDefinitionRequest (channelID : string) : M svc (result string) := send channelID DefinitionRequest.
Definition SendDiscoveryResult (channelID : string) (r : DiscoveryResult) : M svc (result string) := send channelID (ResultReport r).

(** ** The service *)
Definition scanInterval (d : ISVDiscovery) : Z :=
  if bool_decide (0 < envScanInterval d)%Z then envScanInterval d
  else match lastRules d ≫= Config with
       | Some c => if bool_decide (0 < ScanIntervalSeconds c)%Z then ScanIntervalSeconds c * Second else defaultScanInterval
       | None => defaultScanInterval
       end%Z.
Definition reportingInterval (d : ISVDiscovery) : Z :=
  if bool_decide (0 < envReportingInterval d)%Z then envReportingInterval d
  else match lastRules d ≫= Config with
       | Some c => if bool_decide (0 < MinimumReportingIntervalSeconds c)%Z then MinimumReportingIntervalSeconds c * Second else defaultReportingInterval
       | None => defaultReportingInterval
       end%Z.

Definition bootstrapRules : DiscoveryRules :=
  mkRules [] (Some (mkConfiguration (defaultScanInterval / Second) (defaultReportingInterval / Second))).

Definition fetchRules : M svc (result DiscoveryRules) :=
  d ← gets discovery;
  err ← CreateClient (endpoint d);
  match err with
  | Some e => mret (Err (ErrWrap "failed to create ACS client" e))
  | None =>
      res ← SendDiscoveryDefinitionRequest (channel d);
      mret (match res with
            | Err e => Err (ErrWrap "failed to send discovery definition request" e)
            | Ok body => match UnmarshalTo body with Err e => Err (ErrWrap "failed to unmarshal message to DiscoveryRules" e) | Ok req => Ok req end
            end)
  end.

Definition reportResult (result : DiscoveryResult) : M svc (option error) :=
  d ← gets discovery;
  err ← CreateClient (endpoint d);
  match err with
  | Some e => mret (Some (ErrWrap "failed to create ACS client" e))
  | None =>
      res ← SendDiscoveryResult (channel d) result;
      mret (match res with Err e => Some (ErrWrap "failed to send discovery result" e) | Ok _ => None end)
  end.

(** The time since [t]; that since the zero time exceeds every interval. *)
Definition elapsed (t : option Z) (now interval : Z) : bool := match t with None => true | Some t => bool_decide (interval ≤ now - t)%Z end.

Definition pollAndScan : M svc unit :=
  cancelled ← ask ctx_Err;
  match cancelled with
  | Some _ => mret tt
  | None =>
      now ← ask now;
      d ← gets discovery;
      let needFetch := elapsed (lastFetch d) now (reportingInterval d) in
      succeededFetch ← (if needFetch then
          rules ← fetchRules;
          match rules with
          | Err _ =>
              _ ← (match lastRules d with
                   | None => modify (set_discovery (set_lastRules bootstrapRules None))
                   | Some _ => mret tt
                   end);
              mret (match lastFetch d with Some t => bool_decide (t = now) | None => false end)
          | Ok rules => _ ← modify (set_discovery (set_lastRules rules (Some now))); mret true
          end
        else mret false);
      d ← gets discovery;
      result ← RunEngine (default (mkRules [] None) (lastRules d));
      match result with
      | Err _ => mret tt
      | Ok result =>
          let result := deduplicateResult result in
          let resultChanged := negb (discoveryResultEqual (Some result) (lastResult d)) in
          let needReport := resultChanged || succeededFetch || bool_decide (lastResult d = None) || elapsed (lastReport d) now (reportingInterval d) in
          if negb needReport then mret tt
          else
            err ← reportResult result;
            match err with
            | Some _ => mret tt
            | None => modify (set_discovery (set_lastResult result now))
            end
      end
  end.

Definition metadataDisabled : M svc (result bool) :=
  disabled ← ask (λ n, InstanceAttribute n disableGuestTelemetryMetadataKey);
  mret (match disabled with Err e => Err e | Ok v => Ok (bool_decide (ToLower v = "true")) end).

Definition on_disk {A} (m : M pstate A) : M svc A := zoom disk (λ x s, mkSvc (discovery s) (engine_state s) (arrived s) x) m.

Definition runDiscoveryFromFile : M svc (option error) :=
  d ← gets discovery;
  definitionFileBytes ← on_disk (ReadFile (definitionFile d));
  match definitionFileBytes with
  | Err e => mret (Some e)
  | Ok bytes =>
      match prototext_Unmarshal bytes with
      | Err e => mret (Some e)
      | Ok definitions =>
          res ← RunEngine definitions;
          match res with
          | Err e => mret (Some e)
          | Ok res =>
              match proto_Marshal res with
              | Err e => mret (Some e)
              | Ok bytes => on_disk (WriteFile (dataFile d) bytes)
              end
          end
      end
  end.

(** [Run] for [ticks] ticks of its ticker. *)
Definition Run (ticks : nat) : M svc (option error) :=
  d ← gets discovery;
  if negb (bool_decide (definitionFile d = "")) then runDiscoveryFromFile
  else
    disabled ← metadataDisabled;
    match disabled with
    | Ok true => mret None
    | _ => _ ← pollAndScan; _ ← for_each (seq 0 ticks) (λ _, pollAndScan); mret None
    end.

(** [parseEnvVars]. *)
Definition env_interval (name : string) : Z :=
  if bool_decide (Getenv name = "") then 0%Z else match ParseDuration (Getenv name) with Ok t => t | Err _ => 0%Z end.
Definition New : ISVDiscovery :=
  let ch := Getenv "GUEST_TEL_ISV_CHANNEL" in
  let ep := Getenv "GUEST_TEL_ISV_ENDPOINT" in
  mkDiscovery (if bool_decide (ch = "") then "compute.googleapis.com/isv-discovery" else ch)
    (if bool_decide (ep = "") then "" else match Validate ep with Some _ => "" | None => ep end)
    (Getenv "GUEST_TEL_ISV_DATA_FILE") (Getenv "GUEST_TEL_ISV_DEFINITION_FILE")
    (env_interval "GUEST_TEL_ISV_REPORTING_INTERVAL") (env_interval "GUEST_TEL_ISV_SCAN_INTERVAL") None None None None.

(** ** What the control plane knows *)
Definition reports (ms : list message) : list DiscoveryResult := omap (λ m, match m with ResultReport r => Some r | DefinitionRequest => None end) ms.

(** The service remembers the last report that arrived. *)
Definition knows (s : svc) : Prop := last (reports (arrived s)) = lastResult (discovery s).

(** The service and its reports stay; only safe programs are started. *)
Definition aside (s s' : svc) : Prop :=
  discovery s' = discovery s ∧ reports (arrived s') = reports (arrived s) ∧ grew (engine_state s) (engine_state s').
#[local] Instance aside_preorder : PreOrder aside.
Proof.
  split; [intros s; split_and!; [done|done|exists []; by rewrite app_nil_r]|]. intros a b c (D1 & R1 & x & E1 & Hx) (D2 & R2 & y & E2 & Hy).
  split_and!; [congruence|congruence|]. exists (x ++ y). rewrite E2, E1, app_assoc. split; [done|]. by apply Forall_app.
Qed.
Lemma reports_app a b : reports (a ++ b) = reports a ++ reports b.
Proof. unfold reports. by rewrite omap_app. Qed.

Lemma wp_aside_ask {A} (f : nat → A) (Q : A → svc → Prop) s : (∀ n s', aside s s' → Q (f n) s') → wp (ask f) Q s.
Proof. intros HQ. apply HQ. split_and!; [done|done|]. exists []. by rewrite app_nil_r. Qed.

(** The control plane cannot be reached with [msg]. *)
Definition unreachable (d : ISVDiscovery) (msg : message) : Prop :=
  (∃ n e, newClient n None = Some e ∨ newClient n (Some (endpoint d)) = Some e) ∨ (∃ e, Validate (endpoint d) = Some e) ∨
  ∃ n e, sendAgentMessage n (channel d) msg = Err e.

Lemma wp_CreateClient ep s : wp (CreateClient ep) (λ r s', aside s s' ∧ ∀ e, r = Some e →
  (∃ n e, newClient n None = Some e ∨ newClient n (Some ep) = Some e) ∨ ∃ e, Validate ep = Some e) s.
Proof.
  unfold CreateClient. case_bool_decide; [apply wp_aside_ask; intros n s' A'; split; [done|]; intros e He; left; exists n, e; by left|].
  destruct (Validate ep) as [e|] eqn:Ev; [apply wp_ret; split; [done|]; intros e' _; right; by exists e|].
  apply wp_aside_ask. intros n s' A'. split; [done|]. intros e He. left. exists n, e. by right.
Qed.

Lemma wp_fetchRules s : wp fetchRules (λ _ s', aside s s') s.
Proof.
  unfold fetchRules. apply wp_bind, wp_gets, wp_bind. eapply wp_mono; [apply wp_CreateClient|]. cbn beta. intros [e|] s1 [A1 _]; [by apply wp_ret|].
  apply wp_bind. unfold SendDiscoveryDefinitionRequest, send. unfold wp at 1. cbn zeta. apply wp_ret. etrans; [exact A1|]. split_and!; [done| |].
  - cbn [arrived]. destruct (is_ok _); [|done]. by rewrite reports_app, app_nil_r.
  - exists []. by rewrite app_nil_r.
Qed.

(** A report arrives, or it does not and the control plane was out of reach. *)
Lemma wp_reportResult r s : wp (reportResult r) (λ err s', discovery s' = discovery s ∧ grew (engine_state s) (engine_state s') ∧
  match err with
  | None => reports (arrived s') = reports (arrived s) ++ [r]
  | Some _ => reports (arrived s') = reports (arrived s) ∧ unreachable (discovery s) (ResultReport r)
  end) s.
Proof.
  unfold reportResult. apply wp_bind, wp_gets, wp_bind. eapply wp_mono; [apply wp_CreateClient|]. cbn beta. intros [e|] s1 [A1 Hu].
  { apply wp_ret. destruct A1 as (D1 & R1 & G1). split_and!; [done|done|done|]. destruct (Hu e eq_refl); [by left|right; by left]. }
  destruct A1 as (D1 & R1 & G1). apply wp_bind. unfold SendDiscoveryResult, send. unfold wp at 1. cbn zeta.
  destruct (sendAgentMessage _ _ _) as [resp|e] eqn:Es; apply wp_ret; cbn [is_ok arrived discovery engine_state].
  - split_and!; [done|done|]. by rewrite reports_app, R1.
  - split_and!; [done|done|done|]. right. right. by eexists _, e.
Qed.

(** What a scan found: the result of the engine without its duplicates. *)
Definition found (r : DiscoveryResult) : Prop := ∃ rules s1 s2 res, RunEngine rules s1 = Some (s2, Ok res) ∧ r = deduplicateResult res.

Lemma wp_RunEngine rules s : wp (RunEngine rules) (λ r s', aside s s' ∧
  match r with Ok res => RunEngine rules s = Some (s', Ok res) | Err _ => ∃ n e, listAllProcesses n = Err e end) s.
Proof.
  assert (Hw : wp (RunEngine rules) (λ r s', aside s s' ∧ match r with Ok res => True | Err _ => ∃ n e, listAllProcesses n = Err e end) s).
  { unfold RunEngine, vmInfo. apply wp_bind, wp_bind, wp_aside_ask. intros n s1 A1. apply wp_ret. destruct (listAllProcesses n) as [ps|e] eqn:El; [|apply wp_ret; split; [done|]; by exists n, e].
    apply wp_bind. unfold on_engine, zoom. unfold wp at 1. pose proof (wp_ExecuteRules (Rules rules) (vm_of ps) (engine_state s1)) as He.
    unfold wp in He. destruct (ExecuteRules _ _ _) as [[x res]|]; [|done]. apply wp_ret. split; [|done]. etrans; [exact A1|]. split_and!; [done|done|]. apply He. }
  unfold wp in *. destruct (RunEngine rules s) as [[s' r]|]; [|done]. destruct Hw as [A1 Hr]. split; [done|]. by destruct r.
Qed.

Lemma wp_pollAndScan s : knows s →
  wp pollAndScan (λ _ s', knows s' ∧ grew (engine_state s) (engine_state s') ∧
    ((∃ r r0, found r ∧ last (reports (arrived s')) = Some r0 ∧ r0 ≡ₚ r) ∨
     reports (arrived s') = reports (arrived s) ∧
       ((∃ n e, ctx_Err n = Some e) ∨ (∃ n e, listAllProcesses n = Err e) ∨ ∃ r, found r ∧ unreachable (discovery s) (ResultReport r)))) s.
Proof.
  intros Hk. unfold pollAndScan. apply wp_bind, wp_aside_ask. intros n s1 A1. destruct (ctx_Err n) as [e|] eqn:Ec.
  { apply wp_ret. destruct A1 as (D1 & R1 & G1). split; [unfold knows in *; congruence|]. split; [exact G1|]. right. split; [done|]. left. by exists n, e. }
  apply wp_bind, wp_aside_ask. intros m s2 A2. apply wp_bind, wp_gets. cbn zeta. set (needFetch := elapsed _ _ _). apply wp_bind.
  assert (A12 : aside s s2) by (by etrans).
  set (K := λ s' : svc, knows s' ∧ reports (arrived s') = reports (arrived s) ∧ grew (engine_state s) (engine_state s') ∧
    channel (discovery s') = channel (discovery s) ∧ endpoint (discovery s') = endpoint (discovery s)).
  assert (HK : ∀ s', aside s s' → K s').
  { intros s' (D & R & G). unfold K, knows in *. rewrite D, R. by split_and!. }
  apply (wp_mono _ (λ _ s', K s')).
  { destruct needFetch; [|apply wp_ret; by apply HK]. apply wp_bind. eapply wp_mono; [apply wp_fetchRules|]. cbn beta. intros [rules|e] s3 A3.
    - apply wp_bind, wp_modify, wp_ret. apply (HK s3). by etrans.
    - apply wp_bind. apply (wp_mono _ (λ _ s', K s')); [|by intros _ s4 K4; apply wp_ret].
      assert (K3 : K s3) by (apply HK; by etrans). destruct (lastRules _); [by apply wp_ret|by apply wp_modify]. }
  intros succeededFetch s3 (Hk3 & R3 & G3 & C3 & E3). apply wp_bind, wp_gets, wp_bind. eapply wp_mono; [apply wp_RunEngine|]. cbn beta.
  intros [res|e] s4 [(D4 & R4 & G4) Hr].
  2: { apply wp_ret. split; [unfold knows in *; by rewrite D4, R4|]. split; [by etrans|]. right. split; [congruence|]. right. by left. }
  assert (Hf : found (deduplicateResult res)) by (by eexists _, s3, s4, res). set (r := deduplicateResult res) in *.
  assert (G : grew (engine_state s) (engine_state s4)) by (by etrans).
  set (needReport := _ || _). destruct needReport eqn:En; cbn [negb].
  - apply wp_bind. eapply wp_mono; [apply wp_reportResult|]. cbn beta. intros [e|] s5 (D5 & G5 & R5).
    + apply wp_ret. destruct R5 as [R5 Hu]. split; [unfold knows in *; congruence|]. split; [by etrans|]. right. split; [congruence|]. right. right. exists r.
      split; [done|]. unfold unreachable in *. by rewrite <-C3, <-E3, <-D4.
    + apply wp_modify. assert (Hl : last (reports (arrived s5)) = Some r) by (by rewrite R5, last_snoc). split; [exact Hl|]. split; [by etrans|]. left. by exists r, r.
  - apply wp_ret. unfold needReport in En. rewrite !orb_false_iff in En. destruct En as (((Eq & _) & En) & _). apply negb_false_iff in Eq.
    apply bool_decide_eq_false in En. destruct (lastResult (discovery s3)) as [r0|] eqn:El; [|done]. apply result_equal_spec in Eq.
    assert (Hk4 : knows s4) by (unfold knows in *; by rewrite D4, R4). split; [done|]. split; [done|]. left. exists r, r0. split; [done|]. split; [|by symmetry].
    unfold knows in Hk4. by rewrite Hk4, D4.
Qed.


(** However long the service runs, it remembers the last report that arrived. *)
Theorem Run_remembers ticks s : knows s → definitionFile (discovery s) = "" →
  wp (Run ticks) (λ err s', err = None ∧ knows s' ∧ grew (engine_state s) (engine_state s')) s.
Proof.
  intros Hk Hd. unfold Run. apply wp_bind, wp_gets. rewrite bool_decide_eq_true_2 by done. cbn [negb]. apply wp_bind. unfold metadataDisabled.
  apply wp_bind, wp_aside_ask. intros n s1 (D1 & R1 & G1). apply wp_ret.
  assert (Hk1 : knows s1) by (unfold knows in *; congruence).
  assert (Hscan : wp (_ ← pollAndScan; _ ← for_each (seq 0 ticks) (λ _, pollAndScan); mret None)
    (λ (err : option error) s', err = None ∧ knows s' ∧ grew (engine_state s) (engine_state s')) s1).
  { apply wp_bind. eapply wp_mono; [by apply wp_pollAndScan|]. cbn beta. intros _ s2 (Hk2 & G2 & _). apply wp_bind.
    eapply wp_mono; [apply (wp_for_each (λ _ s', knows s' ∧ grew (engine_state s1) (engine_state s')))|].
    - by split.
    - intros _ _ s3 [Hk3 G3]. eapply wp_mono; [by apply wp_pollAndScan|]. cbn beta. intros _ s4 (Hk4 & G4 & _). split; [done|by etrans].
    - cbn beta. intros _ s3 [Hk3 G3]. apply wp_ret. split_and!; [done|done|by etrans]. }
  destruct (InstanceAttribute _ _) as [v|e]; [|exact Hscan]. case_bool_decide; [|exact Hscan]. by apply wp_ret.
Qed.
End service.

(** ** main.go: the extension as a plugin

    Every call holds [mu]: it is one step. *)
Inductive run_context := NoContext | Background | Loop (id : nat).
#[global] Instance run_context_eq_dec : EqDecision run_context.
Proof. solve_decision. Defined.

(** The context, the function that cancels one, the loops started so far and
    those whose context is not cancelled. *)
Record Extension := mkExtension { e_ctx : run_context; e_cancel : option nat; starts : nat; running : gset nat }.

Inductive code := Healthy | Unhealthy | FailedPrecondition.

Definition ctx_live (e : Extension) (c : run_context) : bool := match c with Loop id => bool_decide (id ∈ running e) | _ => true end.

Definition Start : M Extension unit := modify (λ e,
  match e_cancel e with
  | Some _ => e
  | None => let id := starts e in mkExtension (Loop id) (Some id) (S id) ({[id]} ∪ running e)
  end).

(** The error of a context that is over. *)
Definition ErrCanceled : error := ErrMsg "context canceled".
Definition Stop : M Extension (option error) := λ e,
  match e_cancel e with
  | None => Some (e, None)
  | Some id =>
      if negb (ctx_live e (e_ctx e)) then Some (e, Some ErrCanceled)
      else Some (mkExtension Background None (starts e) (running e ∖ {[id]}), None)
  end.
Definition GetStatus : M Extension code := gets (λ e,
  match e_ctx e with NoContext => FailedPrecondition | c => if ctx_live e c then Healthy else Unhealthy end).

Inductive call := CallStart | CallStop | CallStatus.
Definition serve (c : call) : M Extension unit :=
  match c with CallStart => Start | CallStop => _ ← Stop; mret tt | CallStatus => _ ← GetStatus; mret tt end.
Definition fresh_extension : Extension := mkExtension NoContext None 0 ∅.

Definition one_loop (e : Extension) : Prop :=
  match e_cancel e with
  | Some id => e_ctx e = Loop id ∧ running e = {[id]} ∧ id < starts e
  | None => running e = ∅ ∧ (e_ctx e = NoContext ∨ e_ctx e = Background)
  end.

Lemma serve_one_loop c e : one_loop e → wp (serve c) (λ _ e', one_loop e') e.
Proof.
  intros Ho. destruct c; cbn [serve].
  - apply wp_modify. unfold one_loop in *. destruct (e_cancel e) as [id|] eqn:Ec; [by rewrite Ec|]. cbn. destruct Ho as [-> _]. split_and!; [done|set_solver|lia].
  - apply wp_bind. unfold wp at 1, Stop. destruct (e_cancel e) as [id|] eqn:Ec; [|by apply wp_ret]. destruct (negb _); [by apply wp_ret|]. apply wp_ret.
    unfold one_loop in *. rewrite Ec in Ho. cbn. destruct Ho as (_ & -> & _). split; [set_solver|by right].
  - apply wp_bind, wp_gets. by apply wp_ret.
Qed.

(** Whatever the guest agent calls in whatever order, at most one loop of the
    extension runs, a started extension runs one and a stopped one none. *)
Theorem telemetry_extension_one_loop (cs : list call) : wp (for_each cs serve) (λ _ e, one_loop e) fresh_extension.
Proof.
  apply (wp_for_each (λ _ e, one_loop e)); [by split; [|left]|]. intros c _ e. apply serve_one_loop.
Qed.

(** ** A small machine *)
#[local] Instance one_process : ServiceWorld := {|
  listAllProcesses n := Ok [mkWrapper (Ok "root") 1 (Ok "redis-server") (Ok "") (Ok "") (Ok [])];
  now n := 100%Z;
  newClient n ep := None;
  sendAgentMessage n ch m := match m with ResultReport _ => if Nat.ltb n 20 then Err (ErrMsg "unavailable") else Ok "" | DefinitionRequest => Ok "rules" end;
  UnmarshalTo body := Ok (mkRules [mkRule (Condition_case (mkCondition (Some (mkStringMatch (Some 1%Z) "redis")) false)) [] "Redis";
                                   mkRule (Condition_case (mkCondition (Some (mkStringMatch (Some 9%Z) "")) true)) [] "Unknown field"] None);
  InstanceAttribute n key := Err (ErrMsg "not found");
  Getenv name := "";
  ParseDuration s := Ok 0%Z;
  prototext_Unmarshal s := Err (ErrMsg "not used");
  proto_Marshal r := Ok "";
|}.
#[local] Instance small_engine : EngineWorld := {|
  regexp_Compile p := None;
  re_MatchString p s := Contains s p;
  re_FindStringSubmatch p s := [];
  LookupEnv name := None;
  user_Lookup n name := Err (ErrMsg "unknown user");
  ctx_Err n := None;
|}.
#[local] Instance small_trust : TrustWorld :=
  {| geteuid := 0; EvalSymlinks n p := Ok p; Abs n p := Ok p; Lstat n p := Err ErrNotExist; Stat n p := Err ErrNotExist |}.
#[local] Instance small_exec : ExecWorld := {| LookPath n p := Err ErrNotExist; exe_Run n c := ("", "", None) |}.
#[local] Existing Instance no_faults.

Definition new_service : svc := mkSvc New (mkExec [] 0) [] (mkPrivate ∅ 0 0).

End IsvService.
