(* ===== verification/CoreModules.v ===== *)
(** * cmd/core_plugin: the small modules

    clock, iosched, platscript, telemetry and dnsprobe: the hardware clock
    after a migration, the schedulers of block devices, the scripts of the
    platform, the daily telemetry and the probe of the name server.  The
    metadata server, commands, random bytes, encodings and the control plane
    are parameters. *)
From stdpp Require Import gmap strings list.
From S2P Require Import Prelude GoStrings Os Scheduler Metadata OsInfo Descriptor ShellQuote IsvTrust.

Module CoreModules.

(** The options of the configuration. *)
Class ModulesConfig := {
  ClockSkewDaemon : bool;
  OptimizeLocalSSD : bool;
  SetMultiqueue : bool;
  Core_Version : string;
  GOOS : string;
  GOARCH : string;
}.

(** How a name look-up ends: an answer, an error of the resolver with its
    flags, or another error. *)
Inductive lookup_result := Resolved | DNSError (IsTimeout IsNotFound : bool) | OtherError.

(** The messages of the telemetry. *)
Record agent_info := mkAgentInfo { info_Name : string; info_Architecture : string; info_Version : string }.
Record platform_info := mkPlatformInfo { OnGce : bool; platform_Error : option error }.

Class ModulesWorld := {
  run_command : nat → list string → result string;
  mds_Get : nat → result Descriptor.Descriptor;
  mds_GetKey : nat → string → gmap string string → option error;
  acs_SendMessage : nat → platform_info → option error;
  osInfoReader : nat → OsInfo.OSInfo;
  Marshal_OSInfo : string → OsInfo.OSInfo → result string;
  Marshal_AgentInfo : agent_info → result string;
  base64 : string → string;
  rand_hex : nat → nat → result string;
  LookupHost : nat → string → lookup_result;
  (** The order of [Readdirnames]. *)
  directory_order : nat → list string → list string;
}.

(** [dnsprobe.Job]. *)
Record DnsJob := mkDns { lastProbeFailed : bool; lastProbeErrored : bool }.

(** The jobs of the scheduler: the telemetry's, and the probe at an address. *)
Inductive job := TelemetryJob | ProbeJob (p : nat).

Record env := mkEnv {
  efs : fs;
  ran : list (list string);
  prevMetadata : option Descriptor.Descriptor;
  subscribed : list string;
  probes : gmap nat DnsJob;
  asked : list string;
  scheduled : gmap string (Scheduler.jobConfig job);
  metrics : list Scheduler.module_metric;
  calls : nat;
}.
#[global] Instance env_HasFS : HasFS env :=
  {| fs_of := efs; set_fs f e := mkEnv f (ran e) (prevMetadata e) (subscribed e) (probes e) (asked e) (scheduled e) (metrics e) (calls e) |}.
#[global] Instance env_LawfulFS : LawfulFS env.
Proof. split; [done|done|by intros []]. Qed.

Definition set_prev (d : Descriptor.Descriptor) (e : env) : env := mkEnv (efs e) (ran e) (Some d) (subscribed e) (probes e) (asked e) (scheduled e) (metrics e) (calls e).
Definition subscribe (id : string) (e : env) : env := mkEnv (efs e) (ran e) (prevMetadata e) (subscribed e ++ [id]) (probes e) (asked e) (scheduled e) (metrics e) (calls e).
Definition set_probes (m : gmap nat DnsJob) (e : env) : env := mkEnv (efs e) (ran e) (prevMetadata e) (subscribed e) m (asked e) (scheduled e) (metrics e) (calls e).
Definition set_scheduled (m : gmap string (Scheduler.jobConfig job)) (e : env) : env :=
  mkEnv (efs e) (ran e) (prevMetadata e) (subscribed e) (probes e) (asked e) m (metrics e) (calls e).

Section modules.
Context `{ModulesConfig} `{ModulesWorld} `{OsFaults}.

Definition ext {A} (f : nat → A) : M env A := λ e,
  Some (mkEnv (efs e) (ran e) (prevMetadata e) (subscribed e) (probes e) (asked e) (scheduled e) (metrics e) (S (calls e)), f (calls e)).
Definition WithContext (cmd : list string) : M env (result string) := λ e,
  Some (mkEnv (efs e) (ran e ++ [cmd]) (prevMetadata e) (subscribed e) (probes e) (asked e) (scheduled e) (metrics e) (S (calls e)), run_command (calls e) cmd).
Definition err_of {A} (r : result A) : option error := match r with Ok _ => None | Err e => Some e end.

(** ** clock *)
Definition adjtimePath : string := "/etc/adjtime".
Definition clockSkewModuleID : string := "clock-skew".
Definition hwclock : list string := ["/sbin/hwclock"; "--hctosys"; "-u"; "--noadjfile"].

Definition platformImpl : M env (option error) := r ← WithContext hwclock; mret (ErrWrap "failed to run hwclock" <$> err_of r).

Definition checkAdjtimeFile (path : string) : M env bool :=
  data ← os_ReadFile path;
  mret (match data with
        | Err _ => false
        | Ok data =>
            let lines := Split data nl in
            if Nat.ltb (length lines) 3 then false
            else bool_decide (IsvTrust.ToLower (TrimSpace (default "" (lines !! 2))) = "utc")
        end).

(** The lines of a scanner: without their ends, a last empty one left out. *)
Definition scan_lines (s : string) : list string :=
  let ls := Split s nl in
  let ls := match last ls with Some "" => take (length ls - 1) ls | _ => ls end in
  (λ l, TrimSuffix l (String (byte_of 13) "")) <$> ls.

Definition checkTimedatectl : M env bool :=
  out ← WithContext ["timedatectl"; "status"];
  mret (match out with
        | Err _ => false
        | Ok out =>
            match filter (λ l, Contains l "RTC in local TZ" = true) (scan_lines out) with
            | line :: _ => HasSuffix (TrimSpace line) "no"
            | [] => false
            end
        end).

Definition isRTCModeUTC : M env bool :=
  present ← Exists adjtimePath TypeFile;
  if (present : bool) then checkAdjtimeFile adjtimePath else checkTimedatectl.

Definition isEnabled : M env bool := if negb ClockSkewDaemon then mret false else isRTCModeUTC.

Definition token (d : Descriptor.Descriptor) : string := Descriptor.DriftToken (Descriptor.virtualClock_ (Descriptor.desc_instance d)).

Definition metadataChanged (prev : option Descriptor.Descriptor) (desc : Descriptor.Descriptor) : bool :=
  match prev with None => true | Some p => negb (bool_decide (token p = token desc)) end.

Definition clockSetup (desc : Descriptor.Descriptor) : M env (bool * bool * option error) :=
  prev ← gets prevMetadata;
  r ← (if negb (metadataChanged prev desc) then mret (true, true, None)
       else err ← platformImpl; mret (true, false, err));
  _ ← modify (set_prev desc);
  mret r.

Definition metadataSubscriber (desc : option Descriptor.Descriptor) (evError : option error) : M env (bool * bool * option error) :=
  match desc with
  | None => mret (false, true, Some (ErrMsg "event's data is not a metadata descriptor"))
  | Some desc =>
      match evError with
      | Some _ => mret (true, true, None)
      | None => clockSetup desc
      end
  end.

Definition clock_moduleSetup (data : option Descriptor.Descriptor) : M env (option error) :=
  match data with
  | None => mret (Some (ErrMsg "clock skew module expects a metadata descriptor in the data pointer"))
  | Some desc =>
      enabled ← isEnabled;
      if negb enabled then mret None
      else
        _ ← clockSetup desc;
        _ ← modify (subscribe clockSkewModuleID);
        mret None
  end.

(** ** iosched *)
Definition sysBlockPath : string := "/sys/block".

(** [os.OpenFile] with O_WRONLY and O_TRUNC, and the write of the open file. *)
Definition open_trunc (p : string) : M env (result string) :=
  with_fs "open" p fail_result (λ m, match resolve m p with
    | Some (q, NFile _) => (<[q := NFile ""]> m, Ok q)
    | Some _ => (m, Err ErrIsDir)
    | None => (m, Err ErrNotExist)
    end).
Definition write_open (q data : string) : M env (option error) := with_fs "write" q fail_err (λ m, (<[q := NFile data]> m, None)).

Fixpoint set_schedulers (devs : list string) : M env (option error) :=
  match devs with
  | [] => mret None
  | dev :: devs =>
      present ← Exists (path_Join [sysBlockPath; dev; "mq"]) TypeDir;
      if negb present then set_schedulers devs
      else
        f ← open_trunc (path_Join [sysBlockPath; dev; "queue"; "scheduler"]);
        match f with
        | Err e => mret (Some (ErrWrap "failed to open scheduler file" e))
        | Ok q =>
            err ← write_open q "none";
            match err with
            | Some e => mret (Some (ErrWrap "failed to write to scheduler file" e))
            | None => set_schedulers devs
            end
        end
  end.

Definition iosched_moduleSetup : M env (option error) :=
  devs ← os_ReadDir sysBlockPath;
  match devs with
  | Err e => mret (Some (ErrWrap "failed to open" e))
  | Ok devs => devs ← ext (λ n, directory_order n devs.*1); set_schedulers devs
  end.

(** ** platscript *)
Definition overcommitCommand : list string := ["sysctl"; "vm.overcommit_memory=1"].
Record platformScript := mkScript { enabled : bool; script : string }.

Definition scriptsConfig : list platformScript :=
  (λ s, mkScript (enabled s) (path_Join [""; script s])) <$>
    [mkScript OptimizeLocalSSD "google_optimize_local_ssd"; mkScript SetMultiqueue "google_set_multiqueue"].

Definition validMachineType (machineType : string) : bool := HasPrefix (default "" (last (Split machineType slash))) "e2-".

Definition overCommitMemory (desc : Descriptor.Descriptor) : M env (option error) :=
  if negb (validMachineType (Descriptor.MachineType (Descriptor.desc_instance desc))) then mret None
  else r ← WithContext overcommitCommand; mret (ErrWrap "failed to run 'sysctl vm.overcommit_memory=1'" <$> err_of r).

Fixpoint run_scripts (scripts : list platformScript) : M env (option error) :=
  match scripts with
  | [] => mret None
  | curr :: scripts =>
      if negb (enabled curr) then run_scripts scripts
      else
        r ← WithContext [script curr];
        match r with
        | Err e => mret (Some (ErrWrap "failed to run platform script" e))
        | Ok _ => run_scripts scripts
        end
  end.

Definition platscript_moduleSetup (data : option Descriptor.Descriptor) : M env (option error) :=
  match data with
  | None => mret (Some (ErrMsg "platform script module expects a metadata descriptor in the data pointer"))
  | Some desc =>
      err ← run_scripts scriptsConfig;
      match err with
      | Some e => mret (Some e)
      | None => err ← overCommitMemory desc; mret (ErrWrap "failed to run overcommit memory setup" <$> err)
      end
  end.

(** ** telemetry *)
Definition telemetryModuleID : string := "telemetry-publisher".
Definition telemetryInterval : Z := 24 * 3600 * 1000000000.
Definition programName : string := "GCEGuestAgent".
Definition smbiosPath : string := "/sys/class/dmi/id/board_serial".
Definition gceIdentifier : string := "GoogleCloud".

Definition isOnGCE : M env (result bool) :=
  data ← os_ReadFile smbiosPath;
  mret (match data with Err e => Err (ErrWrap "failed to read smbios file" e) | Ok d => Ok (Contains d gceIdentifier) end).

(** [ShouldEnable] of a job that an attribute disables. *)
Definition not_disabled (attr : Descriptor.Attributes → bool) (md : Descriptor.Descriptor) : bool :=
  negb (attr (Descriptor.inst_attributes (Descriptor.desc_instance md))) && negb (attr (Descriptor.project_attributes (Descriptor.desc_project md))).
Definition ShouldEnable_by (attr : Descriptor.Attributes → bool) : M env bool :=
  md ← ext mds_Get;
  mret (match md with Err _ => false | Ok md => not_disabled attr md end).

Definition formatAgentInfo (version : string) : result string :=
  match Marshal_AgentInfo (mkAgentInfo programName GOARCH version) with
  | Err e => Err (ErrWrap "error marshalling AgentInfo" e)
  | Ok data => Ok (base64 data)
  end.
Definition formatOSInfo (os : OsInfo.OSInfo) : result string :=
  match Marshal_OSInfo GOOS os with
  | Err e => Err (ErrWrap "error marshalling OSInfo" e)
  | Ok data => Ok (base64 data)
  end.

Definition record (osinfo agentInfo : string) : M env (option error) :=
  ext (λ n, mds_GetKey n "" {["X-Google-Guest-Agent" := agentInfo; "X-Google-Guest-OS" := osinfo]}).

Definition telemetry_Run : M env (bool * option error) :=
  os ← ext osInfoReader;
  match formatOSInfo os with
  | Err e => on ← ShouldEnable_by Descriptor.DisableTelemetry; mret (on, Some e)
  | Ok osInfo =>
      match formatAgentInfo Core_Version with
      | Err e => on ← ShouldEnable_by Descriptor.DisableTelemetry; mret (on, Some e)
      | Ok agentInfo =>
          on ← ShouldEnable_by Descriptor.DisableTelemetry;
          err ← record osInfo agentInfo;
          mret (on, err)
      end
  end.

(** ** dnsprobe *)
Definition dnsprobe_moduleID : string := "dnsprobe".
Definition probeInterval : Z := 60 * 1000000000.

Definition isTimeout (r : lookup_result) : bool := match r with DNSError t _ => t | _ => false end.
Definition status_of (j : DnsJob) : string := if lastProbeFailed j then "timeout" else if lastProbeErrored j then "error" else "nxdomain".

Definition lookup (domain : string) : M env lookup_result := λ e,
  Some (mkEnv (efs e) (ran e) (prevMetadata e) (subscribed e) (probes e) (asked e ++ [domain]) (scheduled e) (metrics e) (S (calls e)), LookupHost (calls e) domain).
Definition set_probe (p : nat) (j : DnsJob) : M env unit := modify (λ e, set_probes (<[p := j]> (probes e)) e).

Definition probe_Run (p : nat) : M env (bool * option error) :=
  j ← (j ← gets (λ e, probes e !! p); some_or_panic j);
  let status := status_of j in
  random ← ext (λ n, rand_hex n 8);
  match random with
  | Err e =>
      _ ← set_probe p (mkDns true (lastProbeErrored j));
      on ← ShouldEnable_by Descriptor.DisableDNSProbe;
      mret (on, Some (ErrWrap "failed to generate random string" e))
  | Ok random =>
      r ← lookup (random +:+ "." +:+ status +:+ ".probes.google.internal");
      let failed := isTimeout r in
      let unexpected := match r with Resolved => false | DNSError _ notFound => negb failed && negb notFound | OtherError => true end in
      _ ← set_probe p (mkDns failed (lastProbeErrored j || unexpected));
      on ← ShouldEnable_by Descriptor.DisableDNSProbe;
      mret (on, None)
  end.

(** ** The jobs in the scheduler *)
#[global] Instance modules_Job : Scheduler.Job env job := {|
  Scheduler.ID _ j := match j with TelemetryJob => telemetryModuleID | ProbeJob _ => dnsprobe_moduleID end;
  Scheduler.MetricName j := match j with TelemetryJob => Some "TELEMETRY_INITIALIZATION" | ProbeJob _ => None end;
  Scheduler.Interval _ j := match j with TelemetryJob => (telemetryInterval, true) | ProbeJob _ => (probeInterval, true) end;
  Scheduler.ShouldEnable j := ShouldEnable_by (match j with TelemetryJob => Descriptor.DisableTelemetry | ProbeJob _ => Descriptor.DisableDNSProbe end);
  Scheduler.Run j := match j with TelemetryJob => telemetry_Run | ProbeJob p => probe_Run p end;
|}.
#[global] Instance modules_sched : Scheduler.SchedState env job := {|
  Scheduler.jobs := scheduled;
  Scheduler.set_jobs := set_scheduled;
  Scheduler.enableMetricRecording := mret tt;
  Scheduler.metrics_Record x := modify (λ e, mkEnv (efs e) (ran e) (prevMetadata e) (subscribed e) (probes e) (asked e) (scheduled e) (metrics e ++ [x]) (calls e));
|}.

(** The message goes out on a goroutine of its own, here before the job. *)
Definition send_platform_info (msg : platform_info) : M env unit :=
  on ← ShouldEnable_by Descriptor.DisableTelemetry;
  if negb on then mret tt else _ ← ext (λ n, acs_SendMessage n msg); mret tt.
Definition telemetry_moduleSetup : M env (option error) :=
  onGCE ← isOnGCE;
  let msg := match onGCE with Ok b => mkPlatformInfo b None | Err e => mkPlatformInfo false (Some (ErrFmt "Unable to determine if running on GCE" e)) end in
  _ ← send_platform_info msg;
  Scheduler.ScheduleJob TelemetryJob.
Definition telemetry_teardown : M env unit := Scheduler.UnscheduleJob (J := job) telemetryModuleID.

Definition dnsprobe_moduleSetup : M env (option error) :=
  p ← gets (λ e, fresh (dom (probes e)));
  _ ← set_probe p (mkDns false false);
  Scheduler.ScheduleJob (ProbeJob p).
Definition dnsprobe_teardown : M env unit := Scheduler.UnscheduleJob (J := job) dnsprobe_moduleID.

(** ** The clock follows its token *)

(** How often the token changes along [ds], the first descriptor counting when
    none came before. *)
Fixpoint token_changes (prev : option Descriptor.Descriptor) (ds : list Descriptor.Descriptor) : nat :=
  match ds with
  | [] => 0
  | d :: ds => (if metadataChanged prev d then 1 else 0) + token_changes (Some d) ds
  end.

Lemma wp_module_ext {A} (f : nat → A) (Q : A → env → Prop) e :
  Q (f (calls e)) (mkEnv (efs e) (ran e) (prevMetadata e) (subscribed e) (probes e) (asked e) (scheduled e) (metrics e) (S (calls e))) → wp (ext f) Q e.
Proof. done. Qed.
Lemma wp_WithContext cmd (Q : result string → env → Prop) e :
  Q (run_command (calls e) cmd) (mkEnv (efs e) (ran e ++ [cmd]) (prevMetadata e) (subscribed e) (probes e) (asked e) (scheduled e) (metrics e) (S (calls e))) →
  wp (WithContext cmd) Q e.
Proof. done. Qed.

Lemma wp_clockSetup d (e : env) : wp (clockSetup d) (λ r e',
  prevMetadata e' = Some d ∧ ran e' = ran e ++ replicate (token_changes (prevMetadata e) [d]) hwclock ∧ r.1.1 = true) e.
Proof.
  unfold clockSetup, platformImpl. apply wp_bind, wp_gets. simpl token_changes.
  destruct (metadataChanged _ _); simpl; repeat first [wp_step | apply wp_WithContext]; split_and!; by rewrite ?app_nil_r.
Qed.

(** The hardware clock sets the system's clock exactly once for every change of
    the drift token along the descriptors received, whether the runs succeed or
    not: a run that fails is not repeated before the next change. *)
Theorem clock_follows_token (ds : list Descriptor.Descriptor) (e : env) :
  wp (for_each ds (λ d, _ ← clockSetup d; mret tt)) (λ _ e', ran e' = ran e ++ replicate (token_changes (prevMetadata e) ds) hwclock) e.
Proof.
  revert e. induction ds as [|d ds IH]; intros e; [by rewrite app_nil_r|].
  apply wp_bind, wp_bind. eapply wp_mono; [apply wp_clockSetup|]. intros r e1 (Hp & Hr & _). apply wp_ret.
  eapply wp_mono; [apply IH|]. simpl. intros _ e2 H2. rewrite H2, Hr, Hp, <- app_assoc, <- replicate_add. f_equal. f_equal.
  simpl. lia.
Qed.

(** ** The scripts of the platform *)

(** What the module runs, as long as nothing fails. *)
Definition script_plan (desc : Descriptor.Descriptor) : list (list string) :=
  ((λ s, [script s]) <$> filter (λ s, enabled s = true) scriptsConfig) ++
  (if validMachineType (Descriptor.MachineType (Descriptor.desc_instance desc)) then [overcommitCommand] else []).

(** [n] commands of [plan] were started one after the other, all but the last
    with success; [ok]: all of [plan], every one with success. *)
Definition ran_in_order (plan : list (list string)) (ok : bool) (e e' : env) : Prop :=
  ∃ done rest, plan = done ++ rest ∧ ran e' = ran e ++ done ∧ calls e' = calls e + length done ∧
    let outcomes := imap (λ i cmd, is_ok (run_command (calls e + i) cmd)) done in
    if ok then rest = [] ∧ Forall (λ b, b = true) outcomes
    else ∃ before, outcomes = before ++ [false] ∧ Forall (λ b, b = true) before.

Lemma ran_in_order_nil e : ran_in_order [] true e e.
Proof. exists [], []. split_and!; [done|by rewrite app_nil_r|simpl; lia|]. simpl. by split. Qed.

Lemma ran_in_order_fail cmd plan e e' err : run_command (calls e) cmd = Err err → ran e' = ran e ++ [cmd] → calls e' = S (calls e) →
  ran_in_order (cmd :: plan) false e e'.
Proof.
  intros Hr Hran Hc. exists [cmd], plan. split_and!; [done|done|rewrite Hc; simpl; lia|].
  exists []. simpl. rewrite Nat.add_0_r, Hr. by split.
Qed.

Lemma ran_in_order_cons cmd plan ok e e1 e' out : run_command (calls e) cmd = Ok out → ran e1 = ran e ++ [cmd] → calls e1 = S (calls e) →
  ran_in_order plan ok e1 e' → ran_in_order (cmd :: plan) ok e e'.
Proof.
  intros Hr Hran Hc (dn & rest & Hp & Hd & Hn & Ho). exists (cmd :: dn), rest. split_and!.
  - by rewrite Hp.
  - by rewrite Hd, Hran, <- app_assoc.
  - rewrite Hn, Hc. simpl. lia.
  - simpl. rewrite Nat.add_0_r, Hr. simpl.
    assert (Hi : imap ((λ i c, is_ok (run_command (calls e + i) c)) ∘ S) dn = imap (λ i c, is_ok (run_command (calls e1 + i) c)) dn).
    { apply imap_ext. intros i x _. simpl. rewrite Hc. do 2 f_equal. lia. }
    rewrite Hi. destruct ok.
    + destruct Ho as [-> Ho]. by split; [|constructor].
    + destruct Ho as (b & -> & Hb). exists (true :: b). split; [done|by constructor].
Qed.

Lemma wp_run_scripts (scripts : list platformScript) (tail : M env (option error)) (plan : list (list string)) :
  (∀ e, wp tail (λ r e', ran_in_order plan (bool_decide (r = None)) e e') e) → ∀ e,
  wp (err ← run_scripts scripts; match err with Some x => mret (Some x) | None => tail end)
    (λ r e', ran_in_order (((λ s, [script s]) <$> filter (λ s, enabled s = true) scripts) ++ plan) (bool_decide (r = None)) e e') e.
Proof.
  intros Ht. induction scripts as [|c scripts IH]; intros e; [apply wp_bind; simpl; apply Ht|].
  simpl run_scripts. destruct (enabled c) eqn:E; simpl negb; cbv iota.
  - rewrite filter_cons_True by done. simpl fmap. simpl app. apply wp_bind, wp_bind, wp_WithContext.
    destruct (run_command (calls e) [script c]) as [out|x] eqn:Hr.
    + apply wp_bind. eapply wp_mono; [apply IH|]. intros r e' Hq. eapply ran_in_order_cons; [exact Hr| | |exact Hq]; done.
    + simpl. by eapply ran_in_order_fail.
  - rewrite filter_cons_False by (by rewrite E). apply IH.
Qed.

(** The module of the platform's scripts runs the enabled scripts in order and,
    on an e2 machine, the command for overcommit after them; it stops at the
    first that fails, with its error, and reports no error exactly when
    everything ran and succeeded. *)
Theorem platscript_in_order (desc : Descriptor.Descriptor) (e : env) :
  wp (platscript_moduleSetup (Some desc)) (λ r e', ran_in_order (script_plan desc) (bool_decide (r = None)) e e') e.
Proof.
  apply (wp_run_scripts _ (err ← overCommitMemory desc; mret (ErrWrap "failed to run overcommit memory setup" <$> err))).
  clear e. intros e. unfold overCommitMemory. destruct (validMachineType _); simpl; [|apply ran_in_order_nil].
  unfold wp; simpl. destruct (run_command _ _) eqn:E; simpl.
  - eapply ran_in_order_cons; [exact E| | |apply ran_in_order_nil]; done.
  - by eapply ran_in_order_fail.
Qed.

(** ** The jobs stay as long as the metadata can be read *)

Definition attr_of (j : job) : Descriptor.Attributes → bool :=
  match j with TelemetryJob => Descriptor.DisableTelemetry | ProbeJob _ => Descriptor.DisableDNSProbe end.

(** The metadata read at call [n] leave the job on. *)
Definition left_on (j : job) (n : nat) : bool := match mds_Get n with Ok md => not_disabled (attr_of j) md | Err _ => false end.

(** What a run of either job leaves: one of its calls read the metadata, and
    the run asks for another one iff that reading left the job on. *)
Definition ran_once (j : job) (e : env) (again : bool) (e' : env) : Prop :=
  scheduled e' = scheduled e ∧ ∃ n, calls e ≤ n < calls e' ∧ again = left_on j n.

Lemma wp_ShouldEnable (j : job) e (Q : bool → env → Prop) :
  Q (left_on j (calls e)) (mkEnv (efs e) (ran e) (prevMetadata e) (subscribed e) (probes e) (asked e) (scheduled e) (metrics e) (S (calls e))) →
  wp (ShouldEnable_by (attr_of j)) Q e.
Proof. intros HQ. apply wp_bind, wp_module_ext. exact HQ. Qed.

Lemma wp_telemetry_Run e : wp telemetry_Run (λ r e', ran_once TelemetryJob e r.1 e') e.
Proof.
  apply wp_bind, wp_module_ext. destruct (formatOSInfo _); [destruct (formatAgentInfo _)|];
    apply wp_bind, (wp_ShouldEnable TelemetryJob); try (apply wp_bind, wp_module_ext);
    (split; [done|]); eexists; simpl; (split; [|done]); lia.
Qed.

(** What the probe leaves of its own: a job that met an error keeps it. *)
Definition asked_as (statuses : list string) (e e' : env) : Prop :=
  asked e' = asked e ∨ ∃ random status, status ∈ statuses ∧ asked e' = asked e ++ [random +:+ "." +:+ status +:+ ".probes.google.internal"].

Lemma wp_probe_Run p (j : DnsJob) e : probes e !! p = Some j →
  wp (probe_Run p) (λ r e', ran_once (ProbeJob p) e r.1 e' ∧ asked_as [status_of j] e e' ∧
    ∃ j', probes e' !! p = Some j' ∧ (lastProbeErrored j = true → lastProbeErrored j' = true)) e.
Proof.
  intros Hp. unfold probe_Run. apply wp_bind, wp_bind, wp_gets. rewrite Hp. apply wp_ret, wp_bind, wp_module_ext.
  destruct (rand_hex _ 8) as [random|err].
  - apply wp_bind. unfold lookup, wp at 1. cbv beta iota. apply wp_bind, wp_modify, wp_bind, (wp_ShouldEnable (ProbeJob p)), wp_ret. simpl.
    split_and!; [split; [done|eexists; split; [|done]; simpl; lia]|right; exists random, (status_of j); split; [set_solver|done]|].
    eexists. split; [apply lookup_insert_eq|]. simpl. by intros ->.
  - apply wp_bind, wp_modify, wp_bind, (wp_ShouldEnable (ProbeJob p)), wp_ret. simpl.
    split_and!; [split; [done|eexists; split; [|done]; simpl; lia]|by left|].
    eexists. split; [apply lookup_insert_eq|]. done.
Qed.

(** The probe exists, for the job that probes. *)
Definition job_exists (j : job) (e : env) : Prop := match j with TelemetryJob => True | ProbeJob p => is_Some (probes e !! p) end.

(** A tick of either job: it goes on with its table unchanged when the metadata
    read during the run can be read and do not disable it; otherwise, so also
    when the server just could not be reached once, its entry is deleted and
    it never runs again. *)
Theorem jobs_end_with_metadata (j : job) (e : env) (Hj : job_exists j e) :
  wp (Scheduler.tick (Scheduler.mkJob j false)) (λ _ e', ∃ n, calls e ≤ n < calls e' ∧
    scheduled e' = if left_on j n then scheduled e else delete (Scheduler.ID e j) (scheduled e)) e.
Proof.
  assert (Hrun : wp (Scheduler.Run j) (λ r e', ran_once j e r.1 e') e).
  { destruct j as [|p]; [apply wp_telemetry_Run|]. destruct Hj as [j Hj]. eapply wp_mono; [by apply wp_probe_Run|]. naive_solver. }
  unfold Scheduler.tick, Scheduler.run. simpl. apply wp_bind, wp_bind. eapply wp_mono; [apply Hrun|].
  intros [again err] e1 (Hs & n & Hn & Ha). simpl in Ha. subst again. simpl fst. destruct j as [|p]; simpl Scheduler.MetricName; cbv iota;
    [apply wp_bind, wp_modify|]; apply wp_ret; destruct (left_on _ n) eqn:E; simpl negb; cbv iota;
    (try apply wp_bind, wp_gets, wp_modify); exists n; simpl; rewrite E, ?Hs; done.
Qed.

(** [n] runs of the probe. *)
Definition probe_runs (p n : nat) : M env unit := for_each (seq 0 n) (λ _, _ ← probe_Run p; mret tt).

(** Once a look-up ended with an unexpected error, no later name of the probe
    says "nxdomain" again, however well the look-ups go: nothing but a new
    set-up clears the mark. *)
Theorem probe_error_is_kept (p n : nat) (j : DnsJob) (e : env) (Hj : probes e !! p = Some j) (Herr : lastProbeErrored j = true) :
  wp (probe_runs p n) (λ _ e', ∃ names, asked e' = asked e ++ names ∧
    Forall (λ d, ∃ random status, (status = "timeout" ∨ status = "error") ∧ d = random +:+ "." +:+ status +:+ ".probes.google.internal") names) e.
Proof.
  unfold probe_runs. generalize (seq 0 n). intros l. revert e j Hj Herr. induction l as [|x l IH]; intros e j Hj Herr.
  { exists []. by rewrite app_nil_r. }
  apply wp_bind, wp_bind. eapply wp_mono; [by apply wp_probe_Run|]. intros r e1 (_ & Hasked & j1 & Hj1 & Hk). apply wp_ret.
  eapply wp_mono; [apply (IH _ _ Hj1), Hk, Herr|]. intros _ e2 (names & H2 & Hn).
  destruct Hasked as [Ha|(random & status & Hs & Ha)]; rewrite H2, Ha; [by exists names|].
  exists ((random +:+ "." +:+ status +:+ ".probes.google.internal") :: names). split; [by rewrite <- app_assoc|]. constructor; [|done].
  exists random, status. split; [|done]. apply list_elem_of_singleton in Hs as ->. unfold status_of. rewrite Herr. destruct (lastProbeFailed j); eauto.
Qed.
End modules.
End CoreModules.
